(* ===== verification/_CoqProject ===== *)
-Q . S2P
Prelude.v
Ffs.v
KString.v
Printf.v
Format.v
RtList.v
Kernel.v
Object.v
Timer.v
Scheduler.v
Thread.v
Clock.v
KInv.v
ThreadSpec.v
Ipc.v
TimerSpec.v
Sleep.v
Idle.v
Device.v
Semaphore.v
Mutex.v
Event.v
Mailbox.v
Completion.v
WaitQueue.v
WorkQueue.v
DataQueue.v
MsgQueue.v
Mempool.v
RoboModule.v
Modbus.v
Mem.v
MemSpec.v
Allocator.v
MemHeap.v
MemHeapInv.v
MemHeapSpec.v
MemHeapRealloc.v
RingBuffer.v
Pipe.v
PipeFile.v
DfsPath.v
Dfs.v
DfsFile.v
DfsPosix.v
Serial.v
Screw.v
