(* ===== verification/Prelude.v ===== *)
(** * RT-Thread kernel and the screw application: a verification development

    The program is a motor controller on an STM32F4 board: the RT-Thread kernel
    (src/src, src/include), the device ipc of src/components/drivers, the virtual
    file system of src/components/dfs, and the application of the board
    (src/bsp/stm32f40x/applications and hardware).  The
    threads of the application run on the kernel; the position loop sends set
    points to the motor drivers over CAN, a Modbus master talks to a second
    device over a serial port.

    ** The parts and their files

    - [Prelude]: machine integers with their wrap-around ([u8] .. [s32]), the
      monad [M S A] of code that changes a state [S] or faults (a failed
      RT_ASSERT, a dead pointer, an index out of range), its weakest
      preconditions, the tactics [run_step], [run_inv], [wp_steps], [to_prop], and
      the contents of circular arrays ([ring_contents]).
    - [Ffs]: __rt_ffs of kservice.c with its table.  [KString]: the memory and
      string functions of kservice.c on a byte memory, with aligned allocation.
      [Printf]: rt_vsnprintf and its relatives.  [Format]: formats as lists of
      conversions, their meaning, and the scanner of the code against it.
    - [RtList]: the circular lists of rtservice.h on a heap of nodes.  The
      theorems [rt_list_*_refines] justify that all other files see a list as a
      sequence.
    - [Kernel]: the structures of rtdef.h and the global variables of the kernel
      in one record [kstate]; thread nodes are in the sequences [k_tlists].
    - [Object], [Timer], [Scheduler], [Thread], [Clock]: the operations of
      object.c, timer.c, scheduler.c, thread.c, clock.c and irq.c.
    - [KInv]: the invariant [kinv] of the kernel state (ready table, bitmap,
      thread states, timers) and what each primitive does to it; [ThreadSpec] and
      [TimerSpec]: the theorems about scheduler, threads, timers and ticks;
      [Sleep]: a sleeping thread through the ticks that wake it.
    - [Ipc], [Semaphore], [Mutex], [Event], [Mailbox], [MsgQueue]: ipc.c.
      Objects live in a store next to the kernel state.
    - [Mempool]: mempool.c.  [Mem], [MemSpec]: the heap of mem.c on headers named
      by their offset; the specification is a list of blocks.
    - [Allocator]: the contract of malloc and free as a class, with the heap of
      [Mem] as its instance.  [RingBuffer]: ringbuffer.c, its creation and
      destruction against this contract.
    - [MemHeap], [MemHeapInv], [MemHeapSpec], [MemHeapRealloc]: the heaps of
      memheap.c, whose headers are bytes of the memory of [KString]: operations,
      invariant, alloc and free, realloc and several heaps.  A second instance of
      the contract.
    - [Idle]: idle.c, the clean-up of finished threads.  [Device]: device.c over
      drivers that are a parameter with a contract (they keep the reference count
      and the open mark of the device they are called for, and may change
      everything else of it), and the console of kservice.c.
    - [Completion], [WaitQueue], [WorkQueue], [DataQueue], [Pipe]: completion.c,
      waitqueue.c, workqueue.c, dataqueue.c and pipe.c.  A pipe puts the ring, the
      mutex, the device and the allocator together; [PipeFile] is the pipe as a
      file, with readers and writers that sleep on the wait queues.
    - [DfsPath]: the paths of dfs.c on the bytes of the strings.  [Dfs]: the table
      of descriptors of dfs.c and the file systems of dfs_fs.c.  [DfsFile]:
      dfs_file.c and mounting.  [DfsPosix]: dfs_posix.c.  The functions of a file
      system are a parameter, what the calls rely on is the class [Drivers], which
      asks nothing of a function that gets a null path, and the heap is any
      instance of [Allocator].
    - [Serial]: the receive side of serial.c, which opens, closes and reads a serial
      device; the functions of the uart are a parameter with the contract [Uart].
    - [RoboModule]: hardware/can.c, the motor driver protocol.  [Modbus]:
      hardware/modbus.c, master.c and the interrupt handlers of uart.c and
      timer1.c.  [Screw]: applications/pid.c and screw.c, hardware/key.c.

    ** How the code is modelled

    A function that disables interrupts is one step: nothing interleaves with
    it.  A call that can block is split where it calls rt_schedule: the first
    half returns [Waiting] with the locals, the second half ([*_resume]) runs
    when the thread is current again; anything may happen in between.  Message
    queues are split further, where the code enables interrupts.  The context
    switch is the change of [k_current].  The configuration is that of
    bsp/stm32f40x/rtconfig.h: 32 priorities, one timer list, no modules, no
    signals, RT_USING_SMALL_MEM, the POSIX layer with 4 descriptors and 2 mounted
    file systems; hooks, which are null until a sethook call sets them, and debug
    output are left out.

    Loops run on fuel where they are not structural, and running out of fuel is
    a fault or a separate result, so a theorem that states a result shows that
    the loop ends: the timer loop needs one round per timer, the heap walks one
    per header, the search of a memory heap one per 36 bytes of the pool, the
    format loop one per character, the word loops of the memory functions one
    per word, the acknowledgement of a work one per waiting thread and two, the
    loops of a pipe two, the loops over a path one per character, the CAN wait 101
    rounds by its own counter.

    ** What the theorems show

    - Scheduling: the ready bitmap finds the highest ready priority, rt_schedule
      switches to the head of its list, suspend, resume, yield, start and
      priority changes keep [kinv].
    - Time: a tick runs exactly the expired timers and leaves none; the list
      stays sorted in wrapping arithmetic; a sleeping thread is ready again after
      the ticks it asked for.
    - Ipc: each operation on each branch; no unit of a semaphore is lost or made up
      between releases, takes and threads that were handed one; a sent event wakes
      in order the threads whose condition holds and clears what they consume; a
      mailbox, a message queue and a data queue refine first-in first-out
      queues, under any interleaving of their phases, and so does a work queue; a
      thread that waits for a completion, on a wait queue or for the end of a work
      is woken.  The idle loop frees the dead threads up to the first static one,
      after which its call ends; the work thread calls every work of its list.
    - Memory: malloc, free and realloc of both allocators keep the block
      structure, hand out disjoint blocks and lose none; malloc of mem.c is first
      fit, with the requests that it refuses although a block fits; a double free
      is caught.  The byte ring refines a bounded queue, and a pipe over it does
      under its lock.
    - Services: the word-wise memory functions equal the bytewise ones, formatted
      output is the meaning of the format cut to the buffer, its decimal numbers are
      read back; device references are counted under any interleaving, console
      output reaches the device, a completion wakes its waiter.
    - Files: a path that stays below the root becomes the text of its components
      with the dots resolved, and normalising again changes nothing; a path belongs
      to the longest mount point that begins it by whole components; any sequence of calls on descriptors hands
      them out lowest first, gives them back, and neither loses nor frees twice the
      memory of a path, whatever the drivers answer, up to an open for which the
      memory of the path is missing; a pipe as a file answers as a
      bounded queue that knows its open ends, and a sleeping reader gets what the
      next writer writes.
    - Serial devices: under interrupts between and inside of the reads the FIFO is a
      queue that keeps the newest bytes, by DMA a bounded queue as long as the readers
      keep up; opening and closing balance the memory; polled output sends the text
      with carriage returns.
    - Application: the velocity command is the limited PD law on the way to the set
      point, exact in single precision; the way is the short one round for set
      points of at least -2048, and for all of them if pid.c and not pid.h decides
      how they are read; the frames on the bus are read back as
      they were meant; the table-driven check sum is the CRC and damaged answers
      are dropped; a held key acts once.
    - Limits of the code, as theorems: counters that wrap, the timeout of a pool
      allocation that breaks the next free, a periodic timer of period 0, the
      forced put that empties the ring, the data queue after 65536 pushes, sizes
      that overflow in both heaps, a format into a buffer of size 0, octal output,
      the terminator that long console lines carry, a device that refuses to
      close, a completion signalled after a timeout, wake-ups that wait queues and
      work queues lose, a cancelled work that the work thread still takes, a pipe
      that keeps its ring when it is closed, its end of file before the last bytes
      and its lost wake-up; the path of two dots that leaves the root, flags that
      [fcntl] forgets, a driver that is called with a null path, a table that is read
      behind its end, a mount point that is mounted twice, paths that a failing driver makes [mkdir] lose; a second
      opening that switches a serial device to polling, an overrun by DMA that empties
      its FIFO.

    ** Not modelled

    Start-up code and the linker's initialisation tables; slab.c, module.c and
    signal.c, which this configuration does not select; the drivers of
    file systems, the shell and the network stacks, whose behaviour is that of
    hardware and of code the board supplies; dfs_init, pipe() and mkfifo(), which
    put such drivers together; the waiting for a free [fslock], which is the mutex
    of [Mutex]: here the lock is the count of its takes; the sending by interrupts and
    by DMA and the file operations of serial.c; register-level set-up in
    the hardware files; the stepper, strategy and display threads of screw.c. *)

From Stdlib Require Export ZArith Lia.
From stdpp Require Export base tactics numbers list gmap.

#[global] Open Scope Z_scope.

(** ** Machine integers

    A C integer of width [w] is a [Z] kept in range by an explicit wrap. *)

Definition u8 (z : Z) : Z := z mod 2 ^ 8.
Definition u16 (z : Z) : Z := z mod 2 ^ 16.
Definition u32 (z : Z) : Z := z mod 2 ^ 32.

(** Two's complement reading of a 32-bit word ([rt_int32_t], [rt_base_t]). *)
Definition s32 (z : Z) : Z := (z + 2 ^ 31) mod 2 ^ 32 - 2 ^ 31.

(** The same for 16 bits ([rt_int16_t], [short]). *)
Definition s16 (z : Z) : Z := (z + 2 ^ 15) mod 2 ^ 16 - 2 ^ 15.

(** Bitwise complement of a 32-bit unsigned word. *)
Definition not32 (z : Z) : Z := 2 ^ 32 - 1 - z.

(** Bitwise complement of a byte ([rt_uint8_t] flags). *)
Definition not8 (z : Z) : Z := 255 - z.

Lemma u8_range z : 0 <= u8 z < 256.
Proof. unfold u8. apply Z.mod_pos_bound. lia. Qed.

Lemma u16_range z : 0 <= u16 z < 65536.
Proof. unfold u16. apply Z.mod_pos_bound. lia. Qed.

Lemma u32_range z : 0 <= u32 z < 2 ^ 32.
Proof. unfold u32. apply Z.mod_pos_bound. lia. Qed.

Lemma u8_small z : 0 <= z < 256 -> u8 z = z.
Proof. intros. unfold u8. apply Z.mod_small. lia. Qed.

Lemma u16_small z : 0 <= z < 65536 -> u16 z = z.
Proof. intros. unfold u16. apply Z.mod_small. lia. Qed.

Lemma u32_small z : 0 <= z < 2 ^ 32 -> u32 z = z.
Proof. intros. unfold u32. apply Z.mod_small. lia. Qed.

Lemma s32_small z : - 2 ^ 31 <= z < 2 ^ 31 -> s32 z = z.
Proof. intros. unfold s32. rewrite Z.mod_small; lia. Qed.

Lemma s16_small z : - 2 ^ 15 <= z < 2 ^ 15 -> s16 z = z.
Proof. intros. unfold s16. rewrite Z.mod_small; lia. Qed.

(** ** Bytes of a word *)

Lemma land_255 x : Z.land x 255 = x mod 256.
Proof. change 255 with (Z.ones 8). by rewrite Z.land_ones. Qed.

(** The lower part of a word does not meet the shifted upper part, so the two
    are joined by a sum, a bitwise or and an exclusive or alike. *)
Lemma land_shift a b n : 0 <= n -> 0 <= b < 2 ^ n -> Z.land (Z.shiftl a n) b = 0.
Proof.
  intros Hn Hb. apply Z.bits_inj'. intros i Hi. rewrite Z.land_spec, Z.shiftl_spec, Z.bits_0 by lia.
  destruct (Z.lt_ge_cases i n).
  - by rewrite (Z.testbit_neg_r a) by lia.
  - rewrite <- (Z.mod_small b (2 ^ n)), Z.mod_pow2_bits_high by lia. apply andb_false_r.
Qed.

Lemma lor_shift a b n : 0 <= n -> 0 <= b < 2 ^ n -> Z.lor (Z.shiftl a n) b = a * 2 ^ n + b.
Proof.
  intros Hn Hb. rewrite <- Z.lxor_lor, <- Z.add_nocarry_lxor by (by apply land_shift).
  by rewrite Z.shiftl_mul_pow2.
Qed.

Lemma lxor_shift a b n : 0 <= n -> 0 <= b < 2 ^ n -> Z.lxor b (Z.shiftl a n) = a * 2 ^ n + b.
Proof.
  intros Hn Hb. rewrite Z.lxor_comm, <- Z.add_nocarry_lxor by (by apply land_shift).
  by rewrite Z.shiftl_mul_pow2.
Qed.

(** [x & ~(2^k - 1)] on 32-bit words. *)
Lemma land_not32_pow2 x k : 0 <= x < 2 ^ 32 -> 0 <= k <= 32 -> Z.land x (not32 (2 ^ k - 1)) = x - x mod 2 ^ k.
Proof.
  intros Hx Hk. assert (not32 (2 ^ k - 1) = Z.ldiff (Z.ones 32) (Z.ones k)) as ->.
  { rewrite Z.ldiff_ones_r, Z.shiftl_mul_pow2, Z.shiftr_div_pow2, Z.ones_div_pow2 by lia. unfold not32.
    rewrite Z.ones_equiv, <- Z.sub_1_r, Z.mul_sub_distr_r, <- Z.pow_add_r by lia.
    replace (32 - k + k) with 32 by lia. lia. }
  rewrite Z.ldiff_land, Z.land_assoc, Z.land_ones, (Z.mod_small x), <- Z.ldiff_land by lia.
  rewrite Z.ldiff_ones_r, Z.shiftl_mul_pow2, Z.shiftr_div_pow2 by lia.
  pose proof (Z.div_mod x (2 ^ k) ltac:(lia)). lia.
Qed.

Definition is_byte (x : Z) : Prop := 0 <= x < 256.

Lemma lxor_byte a b : is_byte a -> is_byte b -> is_byte (Z.lxor a b).
Proof.
  unfold is_byte. intros Ha Hb.
  assert (Z.lxor a b mod 2 ^ 8 = Z.lxor a b) as <-; [|apply Z.mod_pos_bound; lia].
  apply Z.bits_inj'. intros i Hi. destruct (Z.lt_ge_cases i 8); [by rewrite Z.mod_pow2_bits_low|].
  rewrite Z.mod_pow2_bits_high, Z.lxor_spec by lia.
  rewrite <- (Z.mod_small a (2 ^ 8)), <- (Z.mod_small b (2 ^ 8)) by lia. by rewrite !Z.mod_pow2_bits_high by lia.
Qed.

(** ** Rings

    [n] consecutive positions from [out] on of a circular array, the oldest
    first: the contents of a mailbox and of a data queue. *)

Section ring.
Context {A : Type} `{Inhabited A}.

Definition ring_slot (pool : list A) (i : Z) : nat := Z.to_nat (i mod Z.of_nat (length pool)).
Definition ring_contents (pool : list A) (out : Z) (n : nat) : list A :=
  (fun i => pool !!! ring_slot pool (out + Z.of_nat i)) <$> seq 0 n.

(** Different positions of the queue are different slots. *)
Lemma mod_offset_inj a i j n : 0 <= i < n -> 0 <= j < n -> (a + i) mod n = (a + j) mod n -> i = j.
Proof.
  intros Hi Hj E0. pose proof (Z.div_mod (a + i) n ltac:(lia)). pose proof (Z.div_mod (a + j) n ltac:(lia)).
  rewrite E0 in *. set (q1 := (a + i) / n) in *. set (q2 := (a + j) / n) in *.
  assert (i - j = n * (q1 - q2)) as E by lia.
  destruct (Z.lt_trichotomy q1 q2) as [|[->|]]; nia.
Qed.

Lemma ring_slot_range pool i : (0 < length pool)%nat -> (ring_slot pool i < length pool)%nat.
Proof. intros. unfold ring_slot. pose proof (Z.mod_pos_bound i (Z.of_nat (length pool))). lia. Qed.

Lemma ring_contents_push pool out n v :
  (n < length pool)%nat ->
  ring_contents (<[ring_slot pool (out + Z.of_nat n) := v]> pool) out (S n) = ring_contents pool out n ++ [v].
Proof.
  intros Hn. unfold ring_contents. rewrite seq_S, fmap_app. f_equal.
  - apply list_fmap_ext. intros i x Hx. apply lookup_seq in Hx as [-> Hi].
    unfold ring_slot at 1. rewrite length_insert. fold (ring_slot pool (out + Z.of_nat (0 + i))).
    apply list_lookup_total_insert_ne. unfold ring_slot. intros E.
    apply Z2Nat.inj in E; [|apply Z.mod_pos_bound; lia..]. apply mod_offset_inj in E; lia.
  - simpl. f_equal. unfold ring_slot at 1. rewrite length_insert. fold (ring_slot pool (out + Z.of_nat n)).
    apply list_lookup_total_insert_eq, ring_slot_range. lia.
Qed.

Lemma ring_contents_pop pool out n :
  ring_contents pool out (S n) = pool !!! ring_slot pool out :: ring_contents pool (out + 1) n.
Proof.
  unfold ring_contents. simpl. rewrite Z.add_0_r. f_equal.
  rewrite <- fmap_S_seq, <- list_fmap_compose. apply list_fmap_ext. intros i x _. simpl. do 2 f_equal. lia.
Qed.

Lemma ring_contents_mod pool out n :
  (0 < length pool)%nat -> ring_contents pool (out mod Z.of_nat (length pool)) n = ring_contents pool out n.
Proof.
  intros Hp. apply list_fmap_ext. intros i x _. unfold ring_slot. rewrite Zplus_mod_idemp_l. done.
Qed.

Lemma ring_contents_length pool out n : length (ring_contents pool out n) = n.
Proof. unfold ring_contents. by rewrite length_fmap, length_seq. Qed.
End ring.

(** ** The error/state monad of the kernel code

    [Ok a s] is a normal return; [Fault] is a failed [RT_ASSERT] (the handler
    loops forever) or an access through a pointer that designates nothing. *)

Inductive res (S A : Type) : Type :=
| Ok (a : A) (s : S)
| Fault.
Arguments Ok {S A} a s.
Arguments Fault {S A}.

Definition M (S A : Type) : Type := S -> res S A.

#[global] Instance M_ret S : MRet (M S) := fun A a s => Ok a s.
#[global] Instance M_bind S : MBind (M S) := fun A B k m s =>
  match m s with Ok a s' => k a s' | Fault => Fault end.

Definition fault {S A} : M S A := fun _ => Fault.
Definition get {S} : M S S := fun s => Ok s s.
Definition put {S} (s' : S) : M S unit := fun _ => Ok tt s'.
Definition gets {S A} (f : S -> A) : M S A := fun s => Ok (f s) s.
Definition modify {S} (f : S -> S) : M S unit := fun s => Ok tt (f s).

(** A pointer dereference: the value when the pointer designates one. *)
Definition deref {S A} (f : S -> option A) : M S A :=
  fun s => match f s with Some a => Ok a s | None => Fault end.

(** [RT_ASSERT(EX)]. *)
Definition rt_assert {S} (b : bool) : M S unit :=
  if b then mret tt else fault.

Definition when {S} (b : bool) (m : M S unit) : M S unit :=
  if b then m else mret tt.

(** Run a computation on the second component of a pair of states: an IPC
    object is passed next to the kernel state it lives in. *)
Definition on_snd {O S A} (m : M S A) : M (O * S) A :=
  fun st => match m st.2 with Ok a s' => Ok a (st.1, s') | Fault => Fault end.

(** Objects of one kind live in a store next to the kernel state; [o] is the
    address of an object.  An access through a dead pointer faults. *)
Definition get_obj {X S} (o : nat) : M (gmap nat X * S) X := deref (fun st => st.1 !! o).
Definition put_obj {X S} (o : nat) (x : X) : M (gmap nat X * S) unit :=
  modify (fun st => (<[o := x]> st.1, st.2)).
Definition upd_obj {X S} (o : nat) (f : X -> X) : M (gmap nat X * S) unit :=
  x ← get_obj o; put_obj o (f x).
Definition del_obj {X S} (o : nat) : M (gmap nat X * S) unit :=
  modify (fun st => (delete o st.1, st.2)).

(** A call that can block ends in one of two ways: it returns, or it stands
    right after its [rt_schedule()] with the locals it needs to go on.  The
    second half of the call is a function of its own, which runs when the
    caller is the current thread again. *)
Inductive call (L R : Type) : Type :=
| Return (r : R)
| Waiting (l : L).
Arguments Return {L R} r.
Arguments Waiting {L R} l.

(** ** Weakest preconditions: the run does not fault and ends in [Q]. *)

Definition wp {S A} (m : M S A) (Q : A -> S -> Prop) (s : S) : Prop :=
  match m s with Ok a s' => Q a s' | Fault => False end.

Section wp_rules.
Context {S A B : Type}.
Implicit Types s : S.

Lemma wp_ret (a : A) (Q : A -> S -> Prop) s : Q a s -> wp (mret a) Q s.
Proof. done. Qed.

Lemma wp_bind (m : M S A) (k : A -> M S B) (Q : B -> S -> Prop) s :
  wp m (fun a s' => wp (k a) Q s') s -> wp (m ≫= k) Q s.
Proof. unfold wp, mbind, M_bind. by destruct (m s). Qed.

Lemma wp_bind_inv (m : M S A) (k : A -> M S B) (Q : B -> S -> Prop) s :
  wp (m ≫= k) Q s -> wp m (fun a s' => wp (k a) Q s') s.
Proof. unfold wp, mbind, M_bind. by destruct (m s). Qed.

Lemma wp_mono (m : M S A) (Q1 Q2 : A -> S -> Prop) s :
  (forall a s', Q1 a s' -> Q2 a s') -> wp m Q1 s -> wp m Q2 s.
Proof. unfold wp. destruct (m s); auto. Qed.

Lemma wp_gets (f : S -> A) (Q : A -> S -> Prop) s : Q (f s) s -> wp (gets f) Q s.
Proof. done. Qed.

Lemma wp_deref (f : S -> option A) (Q : A -> S -> Prop) s a :
  f s = Some a -> Q a s -> wp (deref f) Q s.
Proof. unfold wp, deref. by intros ->. Qed.

Lemma wp_modify (f : S -> S) (Q : unit -> S -> Prop) s : Q tt (f s) -> wp (modify f) Q s.
Proof. done. Qed.

Lemma wp_get (Q : S -> S -> Prop) s : Q s s -> wp get Q s.
Proof. done. Qed.

Lemma wp_put s0 (Q : unit -> S -> Prop) s : Q tt s0 -> wp (put s0) Q s.
Proof. done. Qed.

Lemma wp_assert b (Q : unit -> S -> Prop) s : b = true -> Q tt s -> wp (rt_assert b) Q s.
Proof. by intros ->. Qed.

Lemma wp_when b (m : M S unit) (Q : unit -> S -> Prop) s :
  (b = true -> wp m Q s) -> (b = false -> Q tt s) -> wp (when b m) Q s.
Proof. intros H1 H2. destruct b; [exact (H1 eq_refl)|exact (H2 eq_refl)]. Qed.

Lemma wp_if (b : bool) (m1 m2 : M S A) Q s :
  (b = true -> wp m1 Q s) -> (b = false -> wp m2 Q s) ->
  wp (if b then m1 else m2) Q s.
Proof. destruct b; auto. Qed.

(** A [wp] is exactly a run that ends well. *)
Lemma wp_run (m : M S A) Q s : wp m Q s <-> exists a s', m s = Ok a s' /\ Q a s'.
Proof.
  unfold wp. destruct (m s) as [a s'|]; split.
  - intros HQ. by exists a, s'.
  - by intros (? & ? & [= -> ->] & ?).
  - done.
  - by intros (? & ? & ? & ?).
Qed.

Lemma wp_and (m : M S A) (Q1 Q2 : A -> S -> Prop) s :
  wp m Q1 s -> wp m Q2 s -> wp m (fun a s' => Q1 a s' /\ Q2 a s') s.
Proof. unfold wp. by destruct (m s). Qed.
End wp_rules.

(** Objects in a store next to the kernel state. *)
Lemma wp_get_obj {X S} (m : gmap nat X) (s : S) o x (Q : X -> gmap nat X * S -> Prop) :
  m !! o = Some x -> Q x (m, s) -> wp (get_obj o) Q (m, s).
Proof. intros H HQ. by apply (wp_deref _ _ _ x). Qed.

Lemma wp_upd_obj {X S} (m : gmap nat X) (s : S) o f x (Q : unit -> gmap nat X * S -> Prop) :
  m !! o = Some x -> Q tt (<[o := f x]> m, s) -> wp (upd_obj o f) Q (m, s).
Proof. intros H HQ. apply wp_bind. by apply (wp_get_obj m s o x). Qed.

Lemma wp_inv {S A} (m : M S A) Q s a s' : wp m Q s -> m s = Ok a s' -> Q a s'.
Proof. unfold wp. intros H E. by rewrite E in H. Qed.

(** ** Equations of a run *)

Lemma bind_Ok {S A B} (m : M S A) (k : A -> M S B) s a s' :
  m s = Ok a s' -> (m ≫= k) s = k a s'.
Proof. intros H. unfold mbind, M_bind. by rewrite H. Qed.

(** Run the next statement of a sequence with its equation. *)
Ltac run_step H := rewrite (bind_Ok _ _ _ _ _ H).

(** The result and the final state of a run on a concrete input. *)
Definition ret {S A} (m : M S A) (s : S) : option A :=
  match m s with Ok a _ => Some a | Fault => None end.
Definition run {S A} (m : M S A) (s : S) : S :=
  match m s with Ok _ s' => s' | Fault => s end.

Lemma ret_Ok {S A} (m : M S A) s a : ret m s = Some a -> m s = Ok a (run m s).
Proof. unfold ret, run. destruct (m s); [by intros [= ->]|done]. Qed.

Lemma Ok_state {S A} (a b : A) (s s' : S) : Ok a s = Ok b s' -> s = s'.
Proof. by intros [= _ ->]. Qed.

Lemma Ok_value {S A} (a b : A) (s s' : S) : Ok a s = Ok b s' -> a = b.
Proof. by intros [= -> _]. Qed.

Lemma run_deref {S A} (f : S -> option A) s a : f s = Some a -> deref f s = Ok a s.
Proof. unfold deref. by intros ->. Qed.

Lemma run_on_snd {O S A} (m : M S A) (o : O) s a s' :
  m s = Ok a s' -> on_snd m (o, s) = Ok a (o, s').
Proof. unfold on_snd. simpl. by intros ->. Qed.

Lemma run_get_obj {X S} (m : gmap nat X) (s : S) o x :
  m !! o = Some x -> get_obj o (m, s) = Ok x (m, s).
Proof. unfold get_obj, deref. simpl. by intros ->. Qed.

Lemma run_upd_obj {X S} (m : gmap nat X) (s : S) o f x :
  m !! o = Some x -> upd_obj o f (m, s) = Ok tt (<[o := f x]> m, s).
Proof. intros H. unfold upd_obj. by run_step (run_get_obj m s o x H). Qed.

Lemma wp_on_snd {O S A} (m : M S A) (Q : A -> O * S -> Prop) o s :
  wp m (fun a s' => Q a (o, s')) s -> wp (on_snd m) Q (o, s).
Proof. unfold wp, on_snd. simpl. by destruct (m s). Qed.

Lemma wp_Ok {S A} (m : M S A) (Q : A -> S -> Prop) s a s' : m s = Ok a s' -> Q a s' -> wp m Q s.
Proof. unfold wp. by intros ->. Qed.

(** Reading a completed run backwards. *)
Lemma bind_Ok_inv {S A B} (m : M S A) (k : A -> M S B) s b s'' :
  (m ≫= k) s = Ok b s'' -> exists a s', m s = Ok a s' /\ k a s' = Ok b s''.
Proof. unfold mbind, M_bind. destruct (m s) as [a s'|]; [eauto|done]. Qed.

Lemma on_snd_inv {O S A} (m : M S A) (st st' : O * S) a :
  on_snd m st = Ok a st' -> st'.1 = st.1 /\ m st.2 = Ok a st'.2.
Proof. unfold on_snd. destruct (m st.2); [|done]. by intros [= -> <-]. Qed.

Lemma get_obj_inv {X S} (o : nat) (st st' : gmap nat X * S) x :
  get_obj o st = Ok x st' -> st' = st /\ st.1 !! o = Some x.
Proof. unfold get_obj, deref. destruct (st.1 !! o) eqn:E; [|done]. by intros [= -> ->]. Qed.

Lemma upd_obj_inv {X S} (o : nat) (f : X -> X) (st st' : gmap nat X * S) r :
  upd_obj o f st = Ok r st' -> exists x, st.1 !! o = Some x /\ st' = (<[o := f x]> st.1, st.2).
Proof. intros H. unfold upd_obj in H. apply bind_Ok_inv in H as (a & st1 & E & H). apply get_obj_inv in E as [-> E]. injection H as <-. eauto. Qed.

(** Filtering with a test that all or no elements pass. *)
Lemma filter_every {A} (P : A -> Prop) `{!forall x, Decision (P x)} (l : list A) : (forall x, x ∈ l -> P x) -> filter P l = l.
Proof.
  induction l as [|x l IH]; intros Hl; [done|]. rewrite filter_cons_True by (apply Hl; left). f_equal. apply IH. intros y Hy. apply Hl. by right.
Qed.

Lemma filter_noone {A} (P : A -> Prop) `{!forall x, Decision (P x)} (l : list A) : (forall x, x ∈ l -> ¬ P x) -> filter P l = [].
Proof.
  induction l as [|x l IH]; intros Hl; [done|]. rewrite filter_cons_False by (apply Hl; left). apply IH. intros y Hy. apply Hl. by right.
Qed.

(** ** Tactics *)

(** Boolean tests of the code as propositions. *)
Ltac to_prop :=
  repeat match goal with
  | H : (_ && _) = true |- _ => apply andb_true_iff in H as [? ?]
  | H : (_ || _) = false |- _ => apply orb_false_iff in H as [? ?]
  | H : negb _ = true |- _ => apply negb_true_iff in H
  | H : negb _ = false |- _ => apply negb_false_iff in H
  | H : Z.eqb _ _ = true |- _ => apply Z.eqb_eq in H
  | H : Z.eqb _ _ = false |- _ => apply Z.eqb_neq in H
  | H : Z.ltb _ _ = true |- _ => apply Z.ltb_lt in H
  | H : Z.ltb _ _ = false |- _ => apply Z.ltb_ge in H
  | H : Z.leb _ _ = true |- _ => apply Z.leb_le in H
  | H : Z.leb _ _ = false |- _ => apply Z.leb_gt in H
  | H : bool_decide _ = true |- _ => apply bool_decide_eq_true in H
  | H : bool_decide _ = false |- _ => apply bool_decide_eq_false in H
  end.

(** Split the hypothesis [H] that a sequence of statements completed. *)
Ltac run_inv H :=
  let a := fresh "a" in let st := fresh "st" in let E := fresh "E" in
  apply bind_Ok_inv in H as (a & st & E & H).

(** One step of symbolic execution. *)
Ltac wp_step :=
  lazymatch goal with
  | |- wp (mret _) _ _ => apply wp_ret
  | |- wp (mbind _ _) _ _ => apply wp_bind
  | |- wp (gets _) _ _ => apply wp_gets
  | |- wp (modify _) _ _ => apply wp_modify
  | |- wp get _ _ => apply wp_get
  | |- wp (put _) _ _ => apply wp_put
  | |- wp (on_snd _) _ (_, _) => apply wp_on_snd
  end; cbv beta.
Ltac wp_steps := repeat wp_step.
