(* ===== verification/Ffs.v ===== *)
(** * Find first set: [__rt_ffs] of src/kservice.c

    The table [__lowest_bit_bitmap] and the byte-by-byte search, and the proof
    that they compute the index of the lowest set bit of a 32-bit word, which
    is what the scheduler needs of its ready bitmap. *)

From S2P Require Import Prelude.

(** One row of the table: the sixteen entries of [/* x0 */ .. /* xF */],
    which differ only in the first one. *)
Definition bitmap_row (first : Z) : list Z :=
  [first; 0; 1; 0; 2; 0; 1; 0; 3; 0; 1; 0; 2; 0; 1; 0].

Definition __lowest_bit_bitmap : list Z :=
  bitmap_row 0 ++ bitmap_row 4 ++ bitmap_row 5 ++ bitmap_row 4 ++
  bitmap_row 6 ++ bitmap_row 4 ++ bitmap_row 5 ++ bitmap_row 4 ++
  bitmap_row 7 ++ bitmap_row 4 ++ bitmap_row 5 ++ bitmap_row 4 ++
  bitmap_row 6 ++ bitmap_row 4 ++ bitmap_row 5 ++ bitmap_row 4.

Definition bitmap_at (i : Z) : Z := nth (Z.to_nat i) __lowest_bit_bitmap 0.

Definition __rt_ffs (value : Z) : Z :=
  if value =? 0 then 0
  else if negb (Z.land value 0xff =? 0) then
    bitmap_at (Z.land value 0xff) + 1
  else if negb (Z.land value 0xff00 =? 0) then
    bitmap_at (Z.shiftr (Z.land value 0xff00) 8) + 9
  else if negb (Z.land value 0xff0000 =? 0) then
    bitmap_at (Z.shiftr (Z.land value 0xff0000) 16) + 17
  else bitmap_at (Z.shiftr (Z.land value 0xff000000) 24) + 25.

(** ** Specification: the lowest set bit *)

Definition lowest_bit (v i : Z) : Prop :=
  0 <= i /\ Z.testbit v i = true /\ forall j, 0 <= j < i -> Z.testbit v j = false.

Lemma lowest_bit_unique v i j : lowest_bit v i -> lowest_bit v j -> i = j.
Proof.
  intros (Hi & Ti & Li) (Hj & Tj & Lj).
  destruct (Z.lt_trichotomy i j) as [H|[H|H]]; [|done|].
  - rewrite Lj in Ti by lia. done.
  - rewrite Li in Tj by lia. done.
Qed.

(** The table is right on each of its 255 used entries: a finite check. *)
Definition lowest_bitb (v i : Z) : bool :=
  (0 <=? i) && Z.testbit v i &&
  forallb (fun j => negb (Z.testbit v (Z.of_nat j))) (List.seq 0 (Z.to_nat i)).

Lemma lowest_bitb_spec v i : lowest_bitb v i = true -> lowest_bit v i.
Proof.
  unfold lowest_bitb. intros H. to_prop. repeat split; [done|done|].
  intros j Hj. rewrite forallb_forall in H0.
  specialize (H0 (Z.to_nat j)). rewrite Z2Nat.id in H0 by lia.
  apply negb_true_iff, H0, in_seq. lia.
Qed.

Lemma bitmap_table_check :
  forallb (fun n => lowest_bitb (Z.of_nat n) (bitmap_at (Z.of_nat n))) (List.seq 1 255) = true.
Proof. vm_compute. reflexivity. Qed.

Lemma bitmap_at_lowest b : 0 < b < 256 -> lowest_bit b (bitmap_at b).
Proof.
  intros Hb. apply lowest_bitb_spec.
  pose proof bitmap_table_check as H. rewrite forallb_forall in H.
  specialize (H (Z.to_nat b)). rewrite Z2Nat.id in H by lia.
  apply H, in_seq. lia.
Qed.

Lemma land_ones_shift v k : 0 <= k ->
  Z.shiftr (Z.land v (Z.shiftl 255 k)) k = Z.land (Z.shiftr v k) 255.
Proof.
  intros Hk. rewrite Z.shiftr_land, Z.shiftr_shiftl_l by lia.
  by rewrite Z.sub_diag.
Qed.

Lemma testbit_byte v k j : 0 <= k -> 0 <= j < 8 ->
  Z.testbit (Z.land (Z.shiftr v k) 255) j = Z.testbit v (j + k).
Proof.
  intros Hk Hj. rewrite Z.land_spec, Z.shiftr_spec by lia.
  change 255 with (Z.ones 8). rewrite Z.ones_spec_low by lia. apply andb_true_r.
Qed.

(** If byte [k/8] is non-zero and everything below bit [k] is zero, the lowest
    bit of the word is the lowest bit of that byte, shifted. *)
Lemma lowest_bit_byte v k :
  0 <= k -> (forall j, 0 <= j < k -> Z.testbit v j = false) ->
  Z.land (Z.shiftr v k) 255 <> 0 ->
  lowest_bit v (bitmap_at (Z.land (Z.shiftr v k) 255) + k).
Proof.
  intros Hk Hlow Hnz. set (b := Z.land (Z.shiftr v k) 255) in *.
  assert (0 < b < 256) as Hb.
  { pose proof (Z.mod_pos_bound (Z.shiftr v k) 256). unfold b in *. rewrite land_255 in *. lia. }
  destruct (bitmap_at_lowest b Hb) as (H0 & H1 & H2).
  assert (bitmap_at b < 8) as H8.
  { destruct (Z.lt_ge_cases (bitmap_at b) 8); [done|].
    rewrite Z.bits_above_log2 in H1; [done|lia|].
    apply Z.log2_lt_pow2; [lia|].
    apply Z.lt_le_trans with (2 ^ 8); [lia|apply Z.pow_le_mono_r; lia]. }
  repeat split; [lia| |].
  - rewrite <- testbit_byte by lia. done.
  - intros j Hj. destruct (Z.lt_ge_cases j k); [apply Hlow; lia|].
    replace j with ((j - k) + k) by lia. rewrite <- testbit_byte by lia. apply H2. lia.
Qed.

Lemma byte_zero_bits v k : 0 <= k -> Z.land (Z.shiftr v k) 255 = 0 ->
  forall j, k <= j < k + 8 -> Z.testbit v j = false.
Proof.
  intros Hk Hz j Hj. replace j with ((j - k) + k) by lia.
  rewrite <- testbit_byte by lia. rewrite Hz. apply Z.bits_0.
Qed.

Lemma land_shift_zero v k : 0 <= k ->
  Z.land v (Z.shiftl 255 k) = 0 <-> Z.land (Z.shiftr v k) 255 = 0.
Proof.
  intros Hk. rewrite <- land_ones_shift by done. split.
  { intros ->. apply Z.shiftr_0_l. }
  intros H. apply Z.bits_inj'. intros j Hj. rewrite Z.bits_0.
  destruct (Z.lt_ge_cases j k).
  - rewrite Z.land_spec, Z.shiftl_spec_low by lia. apply andb_false_r.
  - assert (Z.testbit (Z.shiftr (Z.land v (Z.shiftl 255 k)) k) (j - k) = false) as Hb
      by (rewrite H; apply Z.bits_0).
    rewrite Z.shiftr_spec in Hb by lia. by replace (j - k + k) with j in Hb by lia.
Qed.

(** A non-zero 32-bit word whose three low bytes are zero has a non-zero high
    byte. *)
Lemma high_byte_nonzero v :
  0 < v < 2 ^ 32 -> (forall j, 0 <= j < 24 -> Z.testbit v j = false) ->
  Z.land (Z.shiftr v 24) 255 <> 0.
Proof.
  intros Hv Hlow Hz.
  assert (v = 0); [|lia]. apply Z.bits_inj'. intros j Hj. rewrite Z.bits_0.
  destruct (Z.lt_ge_cases j 24); [apply Hlow; lia|].
  destruct (Z.lt_ge_cases j 32).
  - apply (byte_zero_bits v 24); [lia|done|lia].
  - apply Z.bits_above_log2; [lia|]. apply Z.log2_lt_pow2; [lia|].
    apply Z.lt_le_trans with (2 ^ 32); [lia|apply Z.pow_le_mono_r; lia].
Qed.

Lemma ffs_zero : __rt_ffs 0 = 0.
Proof. reflexivity. Qed.

(** The lowest set bit, at its 1-based index. *)
Lemma ffs_lowest v : 0 < v < 2 ^ 32 -> lowest_bit v (__rt_ffs v - 1).
Proof.
  intros Hv. unfold __rt_ffs.
  rewrite (proj2 (Z.eqb_neq v 0)) by lia.
  change 0xff00 with (Z.shiftl 255 8). change 0xff0000 with (Z.shiftl 255 16).
  change 0xff000000 with (Z.shiftl 255 24).
  rewrite !land_ones_shift by lia.
  replace (Z.land v 0xff) with (Z.land (Z.shiftr v 0) 255) by (by rewrite Z.shiftr_0_r).
  destruct (Z.eqb_spec (Z.land (Z.shiftr v 0) 255) 0) as [E0|E0]; simpl negb; cbv iota.
  2:{ replace (_ + 1 - 1) with (bitmap_at (Z.land (Z.shiftr v 0) 255) + 0) by lia.
      apply lowest_bit_byte; [lia|lia|done]. }
  assert (forall j, 0 <= j < 8 -> Z.testbit v j = false) as L0.
  { intros j Hj. apply (byte_zero_bits v 0); [lia|done|lia]. }
  destruct (Z.eqb_spec (Z.land v (Z.shiftl 255 8)) 0) as [E1|E1]; simpl negb; cbv iota;
    rewrite land_shift_zero in E1 by lia.
  2:{ replace (_ + 9 - 1) with (bitmap_at (Z.land (Z.shiftr v 8) 255) + 8) by lia.
      apply lowest_bit_byte; [lia|done|done]. }
  assert (forall j, 0 <= j < 16 -> Z.testbit v j = false) as L1.
  { intros j Hj. destruct (Z.lt_ge_cases j 8); [apply L0; lia|].
    apply (byte_zero_bits v 8); [lia|done|lia]. }
  destruct (Z.eqb_spec (Z.land v (Z.shiftl 255 16)) 0) as [E2|E2]; simpl negb; cbv iota;
    rewrite land_shift_zero in E2 by lia.
  2:{ replace (_ + 17 - 1) with (bitmap_at (Z.land (Z.shiftr v 16) 255) + 16) by lia.
      apply lowest_bit_byte; [lia|done|done]. }
  replace (_ + 25 - 1) with (bitmap_at (Z.land (Z.shiftr v 24) 255) + 24) by lia.
  assert (forall j, 0 <= j < 24 -> Z.testbit v j = false) as L2.
  { intros j Hj. destruct (Z.lt_ge_cases j 16); [apply L1; lia|].
    apply (byte_zero_bits v 16); [lia|done|lia]. }
  apply lowest_bit_byte; [lia|done|by apply high_byte_nonzero].
Qed.

(** [__rt_ffs] returns 0 exactly for the zero word, and otherwise the
    1-based index of the lowest set bit of a 32-bit word. *)
Theorem rt_ffs_correct v :
  0 <= v < 2 ^ 32 ->
  (v = 0 /\ __rt_ffs v = 0) \/
  (1 <= __rt_ffs v <= 32 /\ lowest_bit v (__rt_ffs v - 1)).
Proof.
  intros Hv. destruct (Z.eq_dec v 0) as [->|Hnz]; [by left|right].
  destruct (ffs_lowest v) as (H0 & H1 & H2); [lia|].
  repeat split; [lia| |lia|done|done].
  destruct (Z.le_gt_cases (__rt_ffs v) 32) as [|Hgt]; [done|].
  rewrite Z.bits_above_log2 in H1; [done|lia|].
  apply Z.log2_lt_pow2; [lia|].
  apply Z.lt_le_trans with (2 ^ 32); [lia|apply Z.pow_le_mono_r; lia].
Qed.

Lemma rt_ffs_correct_witness :
  (0x00050000 = 0 /\ __rt_ffs 0x00050000 = 0) \/
  (1 <= __rt_ffs 0x00050000 <= 32 /\ lowest_bit 0x00050000 (__rt_ffs 0x00050000 - 1)).
Proof. apply (rt_ffs_correct 0x00050000). lia. Defined.
