(* ===== verification/KString.v ===== *)
(** * Memory and string functions of src/kservice.c

    The memory is a finite map from addresses to bytes; an access outside of it
    faults.  Words are stored with the least significant byte first.  Lengths
    are the 32-bit values of the code; no object reaches over the end of the
    address space, so pointers are plain integers. *)

From S2P Require Import Prelude.

Abbreviation memory := (gmap Z Z).

Definition load8 (a : Z) : M memory Z := deref (fun m => m !! a).
Definition store8 (a v : Z) : M memory unit :=
  deref (fun m => m !! a);; modify (<[a := u8 v]>).

(** Words of four bytes. *)
Definition word_of (b0 b1 b2 b3 : Z) : Z := b0 + 256 * b1 + 65536 * b2 + 16777216 * b3.
Definition bytes_of (w : Z) : list Z := [u8 w; u8 (w / 256); u8 (w / 65536); u8 (w / 16777216)].

Definition load32 (a : Z) : M memory Z :=
  b0 ← load8 a; b1 ← load8 (a + 1); b2 ← load8 (a + 2); b3 ← load8 (a + 3);
  mret (word_of b0 b1 b2 b3).
Definition store32 (a w : Z) : M memory unit :=
  store8 a w;; store8 (a + 1) (w / 256);; store8 (a + 2) (w / 65536);; store8 (a + 3) (w / 16777216).

(** [(rt_int32_t)X & (sizeof(rt_int32_t) - 1)] *)
Definition UNALIGNED (x : Z) : Z := Z.land x 3.

(** ** rt_memset *)

Fixpoint fill_bytes (n : nat) (p d : Z) : M memory unit :=
  match n with
  | O => mret tt
  | S n => store8 p d;; fill_bytes n (p + 1) d
  end.

(** The two loops over words; each returns the address and the count left. *)
Fixpoint fill_blocks (fuel : nat) (p count buffer : Z) : M memory (Z * Z) :=
  if 16 <=? count then
    match fuel with
    | O => fault
    | S fuel =>
        store32 p buffer;; store32 (p + 4) buffer;; store32 (p + 8) buffer;; store32 (p + 12) buffer;;
        fill_blocks fuel (p + 16) (count - 16) buffer
    end
  else mret (p, count).

Fixpoint fill_words (fuel : nat) (p count buffer : Z) : M memory (Z * Z) :=
  if 4 <=? count then
    match fuel with
    | O => fault
    | S fuel => store32 p buffer;; fill_words fuel (p + 4) (count - 4) buffer
    end
  else mret (p, count).

Definition memset_buffer (d : Z) : Z :=
  let buffer := Z.lor (Z.shiftl d 8) d in u32 (Z.lor buffer (Z.shiftl buffer 16)).

Definition rt_memset (s c count : Z) : M memory Z :=
  let d := Z.land c 255 in
  r ← (if negb (count <? 4) && (UNALIGNED s =? 0) then
         let buffer := memset_buffer d in
         r ← fill_blocks (Z.to_nat count) s count buffer;
         fill_words (Z.to_nat count) r.1 r.2 buffer
       else mret (s, count));
  fill_bytes (Z.to_nat r.2) r.1 d;;
  mret s.

(** ** rt_memcpy and rt_memmove *)

Fixpoint copy_bytes (n : nat) (dst src : Z) : M memory unit :=
  match n with
  | O => mret tt
  | S n => b ← load8 src; store8 dst b;; copy_bytes n (dst + 1) (src + 1)
  end.

Definition copy_word (dst src : Z) : M memory unit := w ← load32 src; store32 dst w.

(** The two loops over words; each returns both addresses and the length left. *)
Fixpoint copy_blocks (fuel : nat) (dst src len : Z) : M memory (Z * Z * Z) :=
  if 16 <=? len then
    match fuel with
    | O => fault
    | S fuel =>
        copy_word dst src;; copy_word (dst + 4) (src + 4);;
        copy_word (dst + 8) (src + 8);; copy_word (dst + 12) (src + 12);;
        copy_blocks fuel (dst + 16) (src + 16) (len - 16)
    end
  else mret (dst, src, len).

Fixpoint copy_words (fuel : nat) (dst src len : Z) : M memory (Z * Z * Z) :=
  if 4 <=? len then
    match fuel with
    | O => fault
    | S fuel => copy_word dst src;; copy_words fuel (dst + 4) (src + 4) (len - 4)
    end
  else mret (dst, src, len).

(** [len] is compared with [sizeof], as an unsigned value. *)
Definition rt_memcpy (dst src count : Z) : M memory Z :=
  r ← (if negb (count <? 16) && (Z.lor (UNALIGNED src) (UNALIGNED dst) =? 0) then
         r ← copy_blocks (Z.to_nat count) dst src count;
         copy_words (Z.to_nat count) r.1.1 r.1.2 r.2
       else mret (dst, src, count));
  copy_bytes (Z.to_nat r.2) r.1.1 r.1.2;;
  mret dst.

(** [while (n--) *(--tmp) = *(--s);] *)
Fixpoint copy_back (n : nat) (tmp s : Z) : M memory unit :=
  match n with
  | O => mret tt
  | S n => b ← load8 (s - 1); store8 (tmp - 1) b;; copy_back n (tmp - 1) (s - 1)
  end.

Definition rt_memmove (dest src n : Z) : M memory Z :=
  (if (src <? dest) && (dest <? src + n) then copy_back (Z.to_nat n) (dest + n) (src + n)
   else copy_bytes (Z.to_nat n) dest src);;
  mret dest.

(** ** Comparing *)

Fixpoint memcmp_loop (count : nat) (su1 su2 res : Z) : M memory Z :=
  match count with
  | O => mret res
  | S count =>
      a ← load8 su1; b ← load8 su2;
      if negb (a - b =? 0) then mret (a - b) else memcmp_loop count (su1 + 1) (su2 + 1) (a - b)
  end.
Definition rt_memcmp (cs ct count : Z) : M memory Z := memcmp_loop (Z.to_nat count) cs ct 0.

(** A loop over a string runs at most over every byte of the memory once. *)
Definition string_fuel (m : memory) : nat := S (size m).

Fixpoint strlen_loop (fuel : nat) (sc : Z) : M memory Z :=
  match fuel with
  | O => fault
  | S fuel => c ← load8 sc; if c =? 0 then mret sc else strlen_loop fuel (sc + 1)
  end.
Definition rt_strlen (s : Z) : M memory Z :=
  m ← get; sc ← strlen_loop (string_fuel m) s; mret (u32 (sc - s)).

(** The byte is read before the bound is tested. *)
Fixpoint strnlen_loop (fuel : nat) (s sc maxlen : Z) : M memory Z :=
  match fuel with
  | O => fault
  | S fuel =>
      c ← load8 sc;
      if negb (c =? 0) && (sc - s <? maxlen) then strnlen_loop fuel s (sc + 1) maxlen else mret sc
  end.
Definition rt_strnlen (s maxlen : Z) : M memory Z :=
  m ← get; sc ← strnlen_loop (string_fuel m) s s maxlen; mret (u32 (sc - s)).

Fixpoint strcmp_loop (fuel : nat) (cs ct : Z) : M memory Z :=
  match fuel with
  | O => fault
  | S fuel =>
      a ← load8 cs;
      if negb (a =? 0) then
        b ← load8 ct;
        if a =? b then strcmp_loop fuel (cs + 1) (ct + 1) else mret (a - b)
      else b ← load8 ct; mret (a - b)
  end.
Definition rt_strcmp (cs ct : Z) : M memory Z := m ← get; strcmp_loop (string_fuel m) cs ct.

(** [if (ca >= 'A' && ca <= 'Z') ca += 'a' - 'A';] *)
Definition lower (c : Z) : Z := if (65 <=? c) && (c <=? 90) then c + 32 else c.

Fixpoint strcasecmp_loop (fuel : nat) (a b : Z) : M memory Z :=
  match fuel with
  | O => fault
  | S fuel =>
      x ← load8 a; y ← load8 b;
      let ca := lower (Z.land x 255) in
      let cb := lower (Z.land y 255) in
      if (ca =? cb) && negb (ca =? 0) then strcasecmp_loop fuel (a + 1) (b + 1) else mret (u32 (ca - cb))
  end.
Definition rt_strcasecmp (a b : Z) : M memory Z := m ← get; strcasecmp_loop (string_fuel m) a b.

(** [while (l1 >= l2)]; [l1] falls in every round. *)
Fixpoint strstr_loop (fuel : nat) (s1 s2 l1 l2 : Z) : M memory (option Z) :=
  if l2 <=? l1 then
    match fuel with
    | O => fault
    | S fuel =>
        r ← rt_memcmp s1 s2 l2;
        if r =? 0 then mret (Some s1) else strstr_loop fuel (s1 + 1) s2 (l1 - 1) l2
    end
  else mret None.

Definition rt_strstr (s1 s2 : Z) : M memory (option Z) :=
  l2 ← rt_strlen s2;
  if l2 =? 0 then mret (Some s1)
  else
    l1 ← rt_strlen s1;
    strstr_loop (S (Z.to_nat l1)) s1 s2 l1 l2.

(** ** On the heap; [tmp] and [ptr] are the results of [rt_malloc] *)

Definition strdup_size (s : Z) : M memory Z := len ← rt_strlen s; mret (u32 (len + 1)).
Definition rt_strdup (s : Z) (tmp : option Z) : M memory (option Z) :=
  len ← strdup_size s;
  match tmp with
  | None => mret None
  | Some tmp => rt_memcpy tmp s len;; mret (Some tmp)
  end.

(** [(x + 0x03) & ~0x03] *)
Definition round4 (x : Z) : Z := Z.land (u32 (x + 3)) (not32 3).
Definition malloc_align_size (size align : Z) : Z := u32 (round4 size + round4 align).

Definition rt_malloc_align (size align : Z) (ptr : option Z) : M memory (option Z) :=
  let align := round4 align in
  match ptr with
  | None => mret None
  | Some ptr =>
      let align_ptr :=
        if Z.land ptr (u32 (align - 1)) =? 0 then u32 (ptr + align)
        else Z.land (u32 (ptr + (align - 1))) (not32 (u32 (align - 1))) in
      store32 (align_ptr - 4) ptr;;
      mret (Some align_ptr)
  end.

(** The address that is given to [rt_free]. *)
Definition rt_free_align (ptr : Z) : M memory Z := load32 (ptr - 4).

(** ** Views of the memory *)

(** The bytes [l] from address [a] on. *)
Definition holds (m : memory) (a : Z) (l : list Z) : Prop :=
  forall i x, l !! i = Some x -> m !! (a + Z.of_nat i) = Some x.
Definition mapped (m : memory) (a n : Z) : Prop := forall i, 0 <= i < n -> is_Some (m !! (a + i)).

(** The memory with [l] written at [a]: the reference for all copies. *)
Fixpoint set_bytes (a : Z) (l : list Z) (m : memory) : memory :=
  match l with [] => m | x :: l => set_bytes (a + 1) l (<[a := x]> m) end.

Lemma lookup_set_bytes l : forall a m b,
  set_bytes a l m !! b = if decide (a <= b < a + Z.of_nat (length l)) then l !! Z.to_nat (b - a) else m !! b.
Proof.
  induction l as [|x l IH]; intros a m b; simpl; [by case_decide; [lia|]|].
  rewrite IH. destruct (decide (b = a)) as [->|Hne].
  - case_decide; [lia|]. case_decide; [|lia]. by rewrite lookup_insert_eq, Z.sub_diag.
  - rewrite lookup_insert_ne by done. case_decide; case_decide; try lia; [|done].
    replace (Z.to_nat (b - a)) with (S (Z.to_nat (b - (a + 1)))) by lia. done.
Qed.

Lemma set_bytes_app l1 l2 : forall a m,
  set_bytes a (l1 ++ l2) m = set_bytes (a + Z.of_nat (length l1)) l2 (set_bytes a l1 m).
Proof.
  induction l1 as [|x l1 IH]; intros a m; simpl; [by rewrite Z.add_0_r|]. rewrite IH. f_equal. lia.
Qed.

Lemma mapped_set_bytes m a n b l : mapped m a n -> mapped (set_bytes b l m) a n.
Proof.
  intros H i Hi. rewrite lookup_set_bytes. case_decide; [|by apply H]. apply lookup_lt_is_Some_2. lia.
Qed.

Lemma mapped_shift m a n k : mapped m a n -> 0 <= k -> mapped m (a + k) (n - k).
Proof. intros H Hk i Hi. rewrite <- Z.add_assoc. apply H. lia. Qed.

Lemma mapped_le m a n k : mapped m a n -> k <= n -> mapped m a k.
Proof. intros H Hk i Hi. apply H. lia. Qed.

Lemma holds_cons m a x l : holds m a (x :: l) <-> m !! a = Some x /\ holds m (a + 1) l.
Proof.
  split.
  - intros H. split; [rewrite <- (Z.add_0_r a); by apply (H 0%nat)|].
    intros i y Hy. replace (a + 1 + Z.of_nat i) with (a + Z.of_nat (S i)) by lia. by apply H.
  - intros [H1 H2] [|i] y Hy; simpl in Hy; [injection Hy as <-; by rewrite Z.add_0_r|].
    replace (a + Z.of_nat (S i)) with (a + 1 + Z.of_nat i) by lia. by apply H2.
Qed.

Lemma holds_nil m a : holds m a [].
Proof. intros i x H. done. Qed.

Lemma holds_app m a l1 l2 : holds m a (l1 ++ l2) <-> holds m a l1 /\ holds m (a + Z.of_nat (length l1)) l2.
Proof.
  revert a. induction l1 as [|x l1 IH]; intros a; simpl.
  - rewrite Z.add_0_r. split; [intros H; split; [apply holds_nil|done]|by intros [_ ?]].
  - rewrite !holds_cons, IH. replace (a + 1 + Z.of_nat (length l1)) with (a + Z.of_nat (S (length l1))) by lia. tauto.
Qed.

Lemma holds_mapped m a l : holds m a l -> mapped m a (Z.of_nat (length l)).
Proof.
  intros H i Hi. destruct (lookup_lt_is_Some_2 l (Z.to_nat i)) as [x Hx]; [lia|].
  exists x. rewrite <- (H _ _ Hx). f_equal. lia.
Qed.

(** What was written is there, and what lies apart is as it was. *)
Lemma set_bytes_holds a l m : holds (set_bytes a l m) a l.
Proof.
  intros i x Hx. pose proof (lookup_lt_Some _ _ _ Hx). rewrite lookup_set_bytes, decide_True by lia.
  replace (Z.to_nat (a + Z.of_nat i - a)) with i by lia. done.
Qed.

Lemma holds_apart m a l b l' :
  holds m a l -> a + Z.of_nat (length l) <= b \/ b + Z.of_nat (length l') <= a -> holds (set_bytes b l' m) a l.
Proof.
  intros H Hd i x Hx. pose proof (lookup_lt_Some _ _ _ Hx). rewrite lookup_set_bytes, decide_False by lia. by apply H.
Qed.

(** ** Single accesses *)

Lemma run_load8 m a x : m !! a = Some x -> load8 a m = Ok x m.
Proof. apply run_deref. Qed.

Lemma run_store8 m a v : is_Some (m !! a) -> store8 a v m = Ok tt (<[a := u8 v]> m).
Proof. intros [x Hx]. unfold store8. by run_step (run_deref (fun m : memory => m !! a) m x Hx). Qed.

Lemma run_store32 m a w : mapped m a 4 -> store32 a w m = Ok tt (set_bytes a (bytes_of w) m).
Proof.
  intros H. assert (forall i y m', 0 <= i < 4 -> mapped m' a 4 -> mapped (<[a + i := y]> m') a 4) as Hk.
  { intros i y m' Hi Hm j Hj. destruct (decide (i = j)) as [->|]; [rewrite lookup_insert_eq; eauto|].
    rewrite lookup_insert_ne by lia. by apply Hm. }
  unfold store32, bytes_of. simpl.
  assert (mapped (<[a := u8 w]> m) a 4) as H0 by (rewrite <- (Z.add_0_r a) at 1; apply Hk; [lia|done]).
  pose proof (Hk 1 (u8 (w / 256)) _ ltac:(lia) H0) as H1. pose proof (Hk 2 (u8 (w / 65536)) _ ltac:(lia) H1) as H2.
  rewrite (bind_Ok _ _ _ _ _ (run_store8 m a w ltac:(rewrite <- (Z.add_0_r a); by apply H))).
  rewrite (bind_Ok _ _ _ _ _ (run_store8 _ _ _ (H0 1 ltac:(lia)))).
  rewrite (bind_Ok _ _ _ _ _ (run_store8 _ _ _ (H1 2 ltac:(lia)))).
  rewrite (run_store8 _ _ _ (H2 3 ltac:(lia))). 
  replace (a + 1 + 1) with (a + 2) by lia. by replace (a + 2 + 1) with (a + 3) by lia.
Qed.

Lemma bytes_of_word b0 b1 b2 b3 :
  is_byte b0 -> is_byte b1 -> is_byte b2 -> is_byte b3 -> bytes_of (word_of b0 b1 b2 b3) = [b0; b1; b2; b3].
Proof.
  unfold is_byte, bytes_of, word_of, u8. intros. repeat f_equal; Z.to_euclidean_division_equations; lia.
Qed.

Lemma run_load32 m a b0 b1 b2 b3 : holds m a [b0; b1; b2; b3] -> load32 a m = Ok (word_of b0 b1 b2 b3) m.
Proof.
  intros H. unfold load32.
  rewrite (bind_Ok _ _ _ _ _ (run_load8 m a b0 ltac:(rewrite <- (Z.add_0_r a); by apply (H 0%nat)))).
  rewrite (bind_Ok _ _ _ _ _ (run_load8 m _ b1 ltac:(by apply (H 1%nat)))).
  rewrite (bind_Ok _ _ _ _ _ (run_load8 m _ b2 ltac:(by apply (H 2%nat)))).
  by rewrite (bind_Ok _ _ _ _ _ (run_load8 m _ b3 ltac:(by apply (H 3%nat)))).
Qed.

(** ** rt_memset fills *)

Lemma run_fill_bytes n : forall m p d,
  mapped m p (Z.of_nat n) -> fill_bytes n p d m = Ok tt (set_bytes p (replicate n (u8 d)) m).
Proof.
  induction n as [|n IH]; intros m p d H; simpl; [done|].
  rewrite (bind_Ok _ _ _ _ _ (run_store8 m p d ltac:(rewrite <- (Z.add_0_r p); apply H; lia))).
  apply IH. change (<[p := u8 d]> m) with (set_bytes p [u8 d] m). apply mapped_set_bytes.
  replace (Z.of_nat n) with (Z.of_nat (S n) - 1) by lia. by apply mapped_shift.
Qed.

Lemma memset_buffer_bytes d : 0 <= d < 256 -> bytes_of (memset_buffer d) = replicate 4 d.
Proof.
  intros Hd. assert (forallb (fun d => bool_decide (bytes_of (memset_buffer d) = replicate 4 d)) (seqZ 0 256) = true) as H
    by (vm_compute; reflexivity).
  rewrite forallb_forall in H. apply (bool_decide_eq_true_1 (bytes_of (memset_buffer d) = replicate 4 d)), H.
  apply list_elem_of_In, elem_of_seqZ. lia.
Qed.

(** A run that has filled [k] bytes from [p] on, with [d]. *)
Definition filled (p d : Z) (count : Z) (m : memory) (r : res memory (Z * Z)) (bound : Z) : Prop :=
  exists k, 0 <= k <= count /\ count - k < bound /\ mapped m p count /\
    r = Ok (p + k, count - k) (set_bytes p (replicate (Z.to_nat k) d) m).

Lemma set_replicate p d a b m :
  0 <= a -> 0 <= b ->
  set_bytes (p + a) (replicate (Z.to_nat b) d) (set_bytes p (replicate (Z.to_nat a) d) m)
  = set_bytes p (replicate (Z.to_nat (a + b)) d) m.
Proof.
  intros Ha Hb. rewrite Z2Nat.inj_add, replicate_add, set_bytes_app, length_replicate, Z2Nat.id by lia. done.
Qed.

Section fill.
Context (d w : Z) (Hw : bytes_of w = replicate 4 d).

Lemma run_fill_word m p : mapped m p 4 -> store32 p w m = Ok tt (set_bytes p (replicate (Z.to_nat 4) d) m).
Proof. intros H. rewrite run_store32, Hw by done. done. Qed.

Lemma run_fill_next m p count k :
  mapped m p count -> 0 <= k -> k + 4 <= count ->
  store32 (p + k) w (set_bytes p (replicate (Z.to_nat k) d) m) = Ok tt (set_bytes p (replicate (Z.to_nat (k + 4)) d) m).
Proof.
  intros H Hk Hc. rewrite run_fill_word; [by rewrite set_replicate by lia|].
  apply mapped_set_bytes, (mapped_le _ _ (count - k)); [by apply mapped_shift|lia].
Qed.

Lemma run_fill_words fuel : forall m p count,
  mapped m p count -> 0 <= count <= 4 * Z.of_nat fuel -> filled p d count m (fill_words fuel p count w m) 4.
Proof.
  induction fuel as [|fuel IH]; intros m p count H Hc; simpl; destruct (Z.leb_spec 4 count); try lia.
  1,3: exists 0; rewrite Z.add_0_r, Z.sub_0_r; split_and!; (lia || done).
  run_step (run_fill_word m p (mapped_le _ _ _ 4 H ltac:(lia))).
  destruct (IH (set_bytes p (replicate (Z.to_nat 4) d) m) (p + 4) (count - 4)) as (k & Hk & Hb & _ & E).
  { apply mapped_set_bytes, mapped_shift; [done|lia]. } { lia. }
  exists (4 + k). split; [lia|]. split; [lia|]. split; [done|]. rewrite E, set_replicate by lia. f_equal. f_equal; lia.
Qed.

Lemma run_fill_blocks fuel : forall m p count,
  mapped m p count -> 0 <= count <= 16 * Z.of_nat fuel -> filled p d count m (fill_blocks fuel p count w m) 16.
Proof.
  induction fuel as [|fuel IH]; intros m p count H Hc; cbn [fill_blocks]; destruct (Z.leb_spec 16 count); try lia.
  1,3: exists 0; rewrite Z.add_0_r, Z.sub_0_r; split_and!; (lia || done).
  run_step (run_fill_word m p (mapped_le _ _ _ 4 H ltac:(lia))).
  run_step (run_fill_next m p count 4 H ltac:(lia) ltac:(lia)).
  run_step (run_fill_next m p count 8 H ltac:(lia) ltac:(lia)).
  run_step (run_fill_next m p count 12 H ltac:(lia) ltac:(lia)).
  change (12 + 4) with 16.
  destruct (IH (set_bytes p (replicate (Z.to_nat 16) d) m) (p + 16) (count - 16)) as (k & Hk & Hb & _ & E).
  { apply mapped_set_bytes, mapped_shift; [done|lia]. } { lia. }
  exists (16 + k). split; [lia|]. split; [lia|]. split; [done|]. rewrite E, set_replicate by lia. f_equal. f_equal; lia.
Qed.
End fill.

(** [rt_memset] stores the byte in every cell of the region and nowhere
    else, word by word where the region is aligned and byte by byte elsewhere. *)
Theorem rt_memset_correct m s c count :
  mapped m s count -> 0 <= count ->
  rt_memset s c count m = Ok s (set_bytes s (replicate (Z.to_nat count) (u8 c)) m).
Proof.
  intros H Hc. unfold rt_memset. set (d := Z.land c 255).
  assert (d = u8 c) as Hd by apply land_255. rewrite <- Hd. assert (0 <= d < 256) as Hr by (rewrite Hd; apply u8_range).
  assert (forall p k, 0 <= k <= count -> p = s + k ->
    (fill_bytes (Z.to_nat (count - k)) p d;; mret s : M memory Z) (set_bytes s (replicate (Z.to_nat k) d) m)
    = Ok s (set_bytes s (replicate (Z.to_nat count) d) m)) as Hlast.
  { intros p k Hk ->. set (m' := set_bytes s _ m).
    pose proof (run_fill_bytes (Z.to_nat (count - k)) m' (s + k) d) as Hf. rewrite Z2Nat.id in Hf by lia.
    run_step (Hf (mapped_set_bytes _ _ _ _ _ (mapped_shift _ _ _ k H ltac:(lia)))). unfold m'.
    rewrite (u8_small d), set_replicate by lia. by replace (k + (count - k)) with count by lia. }
  destruct (negb (count <? 4) && (UNALIGNED s =? 0)) eqn:E; to_prop.
  - pose proof (memset_buffer_bytes d Hr) as Hw.
    destruct (run_fill_blocks d _ Hw (Z.to_nat count) m s count H ltac:(lia)) as (k & Hk & _ & _ & E1).
    destruct (run_fill_words d _ Hw (Z.to_nat count) (set_bytes s (replicate (Z.to_nat k) d) m) (s + k) (count - k))
      as (j & Hj & _ & _ & E2); [apply mapped_set_bytes, mapped_shift; [done|lia]|lia|].
    erewrite bind_Ok by (run_step E1; exact E2). rewrite set_replicate by lia. simpl.
    replace (count - k - j) with (count - (k + j)) by lia. apply Hlast; lia.
  - erewrite bind_Ok by reflexivity. simpl. rewrite <- (Z.sub_0_r count) at 1. apply (Hlast s 0); lia.
Qed.

(** ** Copying *)

(** A forward copy of [n] bytes does not overwrite what it has yet to read. *)
Definition forward (dst src n : Z) : Prop := dst <= src \/ src + n <= dst.

Section copy.
Context (m : memory) (dst src : Z).

Lemma holds_rest l1 l2 :
  holds m src (l1 ++ l2) -> forward dst src (Z.of_nat (length (l1 ++ l2))) ->
  holds (set_bytes dst l1 m) (src + Z.of_nat (length l1)) l2.
Proof.
  intros [_ H]%holds_app Hf. apply holds_apart; [done|]. destruct Hf as [|Hf]; [by right; lia|].
  left. rewrite length_app in Hf. lia.
Qed.

Lemma run_copy_word l : holds m src l -> mapped m dst 4 -> length l = 4%nat -> Forall is_byte l ->
  copy_word dst src m = Ok tt (set_bytes dst l m).
Proof.
  intros H Hm Hl Hb. destruct l as [|b0 [|b1 [|b2 [|b3 [|]]]]]; try done.
  rewrite !Forall_cons in Hb. destruct Hb as (H0 & H1 & H2 & H3 & _).
  unfold copy_word. run_step (run_load32 _ _ _ _ _ _ H). by rewrite run_store32, bytes_of_word.
Qed.
End copy.

Section copies.
Context (m : memory) (dst src : Z) (l : list Z).
Context (Hsrc : holds m src l) (Hdst : mapped m dst (Z.of_nat (length l))).
Context (Hf : forward dst src (Z.of_nat (length l))) (Hb : Forall is_byte l).

(** The next word, after the bytes [l1] have been copied. *)
Lemma run_copy_next l1 l2 l3 :
  l = l1 ++ l2 ++ l3 -> length l2 = 4%nat ->
  copy_word (dst + Z.of_nat (length l1)) (src + Z.of_nat (length l1)) (set_bytes dst l1 m)
  = Ok tt (set_bytes dst (l1 ++ l2) m).
Proof.
  intros -> Hl. rewrite set_bytes_app. apply run_copy_word; [| |done|].
  - pose proof (holds_rest m dst src l1 (l2 ++ l3) Hsrc Hf) as H. by apply holds_app in H as [? _].
  - rewrite !length_app in Hdst. apply mapped_set_bytes, (mapped_le _ _ (Z.of_nat (length l1 + (length l2 + length l3)) - Z.of_nat (length l1)));
      [apply mapped_shift; [exact Hdst|lia]|lia].
  - rewrite !Forall_app in Hb. tauto.
Qed.
End copies.

(** A run that has copied a front part of [l]. *)
Definition copied (dst src : Z) (l : list Z) (m : memory) (r : res memory (Z * Z * Z)) : Prop :=
  exists l1 l2, l = l1 ++ l2 /\
    r = Ok (dst + Z.of_nat (length l1), src + Z.of_nat (length l1), Z.of_nat (length l2)) (set_bytes dst l1 m).

(** The hypotheses on a copy, again for what is left of it. *)
Record copy_ctx (m : memory) (dst src : Z) (l : list Z) : Prop := {
  cc_src : holds m src l;
  cc_dst : mapped m dst (Z.of_nat (length l));
  cc_fwd : forward dst src (Z.of_nat (length l));
  cc_byte : Forall is_byte l
}.

Lemma copy_ctx_rest m dst src l1 l2 :
  copy_ctx m dst src (l1 ++ l2) ->
  copy_ctx (set_bytes dst l1 m) (dst + Z.of_nat (length l1)) (src + Z.of_nat (length l1)) l2.
Proof.
  intros [H1 H2 H3 H4]. split.
  - by apply holds_rest.
  - replace (Z.of_nat (length l2)) with (Z.of_nat (length (l1 ++ l2)) - Z.of_nat (length l1)) by (rewrite length_app; lia).
    apply mapped_set_bytes, mapped_shift; [done|lia].
  - unfold forward in *. rewrite length_app in H3. lia.
  - by apply Forall_app in H4 as [_ ?].
Qed.

Lemma copied_more m dst src l1 l2 r :
  copied (dst + Z.of_nat (length l1)) (src + Z.of_nat (length l1)) l2 (set_bytes dst l1 m) r ->
  copied dst src (l1 ++ l2) m r.
Proof.
  intros (a & b & -> & ->). exists (l1 ++ a), b. split; [by rewrite app_assoc|].
  by rewrite set_bytes_app, length_app, Nat2Z.inj_add, !Z.add_assoc.
Qed.

Lemma copied_none m dst src l : copied dst src l m (Ok (dst, src, Z.of_nat (length l)) m).
Proof. exists [], l. simpl. by rewrite !Z.add_0_r. Qed.

Lemma split_front (l : list Z) n : (n <= length l)%nat -> exists l1 l2, l = l1 ++ l2 /\ length l1 = n.
Proof. intros H. exists (take n l), (drop n l). rewrite take_drop, length_take. split; [done|lia]. Qed.

Lemma run_copy_words fuel : forall m dst src l,
  copy_ctx m dst src l -> (length l <= fuel)%nat ->
  copied dst src l m (copy_words fuel dst src (Z.of_nat (length l)) m).
Proof.
  induction fuel as [|fuel IH]; intros m dst src l C Hl; simpl; destruct (Z.leb_spec 4 (Z.of_nat (length l))); try lia.
  1,3: apply copied_none.
  destruct (split_front l 4) as (a & r & -> & Ha); [lia|].
  pose proof (run_copy_next m dst src _ (cc_src _ _ _ _ C) (cc_dst _ _ _ _ C) (cc_fwd _ _ _ _ C) (cc_byte _ _ _ _ C) [] a r eq_refl Ha) as E.
  simpl in E. rewrite !Z.add_0_r in E. run_step E. apply copied_more. rewrite Ha.
  replace (Z.of_nat (length (a ++ r)) - 4) with (Z.of_nat (length r)) by (rewrite length_app; lia).
  change (Z.of_nat 4) with 4. apply copy_ctx_rest in C. rewrite Ha in C. change (Z.of_nat 4) with 4 in C.
  apply IH; [done|]. rewrite length_app in Hl. lia.
Qed.

Lemma run_copy_blocks fuel : forall m dst src l,
  copy_ctx m dst src l -> (length l <= fuel)%nat ->
  copied dst src l m (copy_blocks fuel dst src (Z.of_nat (length l)) m).
Proof.
  induction fuel as [|fuel IH]; intros m dst src l C Hl; cbn [copy_blocks];
    destruct (Z.leb_spec 16 (Z.of_nat (length l))); try lia.
  1,3: apply copied_none.
  destruct (split_front l 16) as (l16 & r & -> & H16); [lia|].
  destruct (split_front l16 4) as (a & l12 & -> & Ha); [lia|]. rewrite length_app, Ha in H16.
  destruct (split_front l12 4) as (b & l8 & -> & Hb); [lia|]. rewrite length_app, Hb in H16.
  destruct (split_front l8 4) as (c & d & -> & Hc); [lia|]. rewrite length_app, Hc in H16.
  pose proof (run_copy_next m dst src _ (cc_src _ _ _ _ C) (cc_dst _ _ _ _ C) (cc_fwd _ _ _ _ C) (cc_byte _ _ _ _ C)) as E.
  pose proof (E [] a ((b ++ c ++ d) ++ r) ltac:(by rewrite <- !app_assoc) Ha) as E0.
  pose proof (E a b ((c ++ d) ++ r) ltac:(by rewrite <- !app_assoc) Hb) as E1.
  pose proof (E (a ++ b) c (d ++ r) ltac:(by rewrite <- !app_assoc) Hc) as E2.
  pose proof (E (a ++ b ++ c) d r ltac:(by rewrite <- !app_assoc) ltac:(lia)) as E3.
  rewrite Ha in E1. rewrite length_app, Ha, Hb in E2. rewrite !length_app, Ha, Hb, Hc in E3. simpl in E0, E1, E2, E3. rewrite !Z.add_0_r in E0.
  run_step E0. run_step E1. run_step E2. rewrite <- (app_assoc a b c). run_step E3. rewrite <- !app_assoc.
  assert (length (a ++ b ++ c ++ d) = 16%nat) as El by (rewrite !length_app; lia).
  set (l16 := a ++ b ++ c ++ d) in *. replace (a ++ b ++ c ++ d ++ r) with (l16 ++ r) by by (unfold l16; rewrite <- !app_assoc).
  apply copied_more. apply copy_ctx_rest in C. rewrite El in *. rewrite length_app, El in *. change (Z.of_nat 16) with 16 in *.
  replace (Z.of_nat (16 + length r) - 16) with (Z.of_nat (length r)) by lia. apply IH; [done|lia].
Qed.

Lemma run_copy_bytes l : forall m dst src,
  copy_ctx m dst src l -> copy_bytes (length l) dst src m = Ok tt (set_bytes dst l m).
Proof.
  induction l as [|x l IH]; intros m dst src C; simpl; [done|]. pose proof C as [H1 H2 _ H4].
  apply holds_cons in H1 as [Hx _]. apply Forall_cons in H4 as [Hb _]. run_step (run_load8 _ _ _ Hx).
  rewrite (bind_Ok _ _ _ _ _ (run_store8 m dst x ltac:(rewrite <- (Z.add_0_r dst); apply H2; simpl; lia))).
  rewrite u8_small by done. apply IH, (copy_ctx_rest m dst src [x]). done.
Qed.

Lemma run_memcpy m dst src l :
  copy_ctx m dst src l -> rt_memcpy dst src (Z.of_nat (length l)) m = Ok dst (set_bytes dst l m).
Proof.
  intros C. unfold rt_memcpy.
  assert (forall l1 l2, l = l1 ++ l2 ->
    (copy_bytes (Z.to_nat (Z.of_nat (length l2))) (dst + Z.of_nat (length l1)) (src + Z.of_nat (length l1));; mret dst : M memory Z)
      (set_bytes dst l1 m) = Ok dst (set_bytes dst l m)) as Hlast.
  { intros l1 l2 ->. rewrite Nat2Z.id. run_step (run_copy_bytes _ _ _ _ (copy_ctx_rest _ _ _ _ _ C)).
    by rewrite set_bytes_app. }
  destruct (negb _ && _).
  - destruct (run_copy_blocks (Z.to_nat (Z.of_nat (length l))) m dst src l C ltac:(lia)) as (a & b & -> & E1).
    destruct (run_copy_words (Z.to_nat (Z.of_nat (length (a ++ b)))) _ _ _ b (copy_ctx_rest _ _ _ _ _ C)) as (c & d & -> & E2).
    { rewrite Nat2Z.id, length_app. lia. }
    erewrite bind_Ok by (run_step E1; exact E2). cbn [fst snd]. rewrite <- set_bytes_app.
    specialize (Hlast (a ++ c) d (app_assoc _ _ _)). rewrite length_app, Nat2Z.inj_add, !Z.add_assoc in Hlast. exact Hlast.
  - erewrite bind_Ok by reflexivity. cbn [fst snd]. specialize (Hlast [] l eq_refl). simpl in Hlast.
    by rewrite !Z.add_0_r in Hlast.
Qed.

(** C39: [rt_memcpy] by words, blocks of words and single bytes leaves the memory
    that a byte-by-byte reference copy leaves, for any lengths and alignments,
    and for overlapping regions when the destination lies below the source. *)
Theorem rt_memcpy_correct m dst src l :
  copy_ctx m dst src l -> rt_memcpy dst src (Z.of_nat (length l)) m = Ok dst (set_bytes dst l m).
Proof. apply run_memcpy. Qed.

Lemma set_bytes_snoc_first l x : forall a m,
  set_bytes a l (<[a + Z.of_nat (length l) := x]> m) = set_bytes a (l ++ [x]) m.
Proof.
  intros a m. rewrite set_bytes_app. simpl. apply map_eq. intros b. rewrite lookup_set_bytes.
  destruct (decide (b = a + Z.of_nat (length l))) as [->|Hne].
  - rewrite decide_False by lia. by rewrite !lookup_insert_eq.
  - rewrite (lookup_insert_ne (set_bytes a l m)), lookup_set_bytes by done. case_decide; [done|]. by rewrite lookup_insert_ne.
Qed.

Lemma run_copy_back l : forall m dest src,
  holds m src l -> mapped m dest (Z.of_nat (length l)) -> src <= dest -> Forall is_byte l ->
  copy_back (length l) (dest + Z.of_nat (length l)) (src + Z.of_nat (length l)) m = Ok tt (set_bytes dest l m).
Proof.
  induction l as [|x l IH] using rev_ind; intros m dest src H Hm Hle Hb; [done|].
  rewrite length_app in *. simpl in *. rewrite Nat.add_1_r in *. cbn [copy_back].
  apply holds_app in H as [H [Hx _]%holds_cons]. apply Forall_app in Hb as [Hb [Hbx _]%Forall_cons].
  replace (src + Z.of_nat (S (length l)) - 1) with (src + Z.of_nat (length l)) by lia.
  replace (dest + Z.of_nat (S (length l)) - 1) with (dest + Z.of_nat (length l)) by lia.
  run_step (run_load8 _ _ _ Hx).
  rewrite (bind_Ok _ _ _ _ _ (run_store8 m _ x (Hm (Z.of_nat (length l)) ltac:(lia)))), u8_small by done.
  rewrite <- set_bytes_snoc_first. apply IH; [|..|done|done].
  - change (<[dest + Z.of_nat (length l) := x]> m) with (set_bytes (dest + Z.of_nat (length l)) [x] m).
    apply holds_apart; [done|]. left. lia.
  - apply (mapped_le _ _ (Z.of_nat (S (length l)))); [|lia].
    change (<[dest + Z.of_nat (length l) := x]> m) with (set_bytes (dest + Z.of_nat (length l)) [x] m).
    by apply mapped_set_bytes.
Qed.

(** After [rt_memmove] the destination holds the bytes the source held before
    the call, however the two regions overlap, and nothing else has changed. *)
Theorem rt_memmove_correct m dest src l :
  holds m src l -> mapped m dest (Z.of_nat (length l)) -> Forall is_byte l ->
  rt_memmove dest src (Z.of_nat (length l)) m = Ok dest (set_bytes dest l m).
Proof.
  intros H Hm Hb. unfold rt_memmove. rewrite Nat2Z.id.
  destruct ((src <? dest) && (dest <? src + Z.of_nat (length l))) eqn:E; to_prop.
  - run_step (run_copy_back l m dest src H Hm ltac:(lia) Hb). done.
  - assert (copy_ctx m dest src l) as C.
    { split; try done. unfold forward. apply andb_false_iff in E as [E|E]; to_prop; lia. }
    run_step (run_copy_bytes l m dest src C). done.
Qed.

(** ** Comparing *)

(** The difference of the first bytes that differ, 0 when there are none. *)
Inductive first_diff : list Z -> list Z -> Z -> Prop :=
| fd_same l : first_diff l l 0
| fd_at p a b t1 t2 : a ≠ b -> first_diff (p ++ a :: t1) (p ++ b :: t2) (a - b).

Lemma first_diff_cons x l1 l2 r : first_diff l1 l2 r -> first_diff (x :: l1) (x :: l2) r.
Proof. intros [l|p a b t1 t2 H]; [constructor|]. exact (fd_at (x :: p) a b t1 t2 H). Qed.

Lemma first_diff_zero l1 l2 r : first_diff l1 l2 r -> r = 0 <-> l1 = l2.
Proof.
  intros [l|p a b t1 t2 H]; [done|]. split; [lia|]. intros E. apply app_inv_head in E. injection E as -> _. done.
Qed.

Lemma run_memcmp_loop l1 : forall m a b l2,
  holds m a l1 -> holds m b l2 -> length l1 = length l2 ->
  exists r, memcmp_loop (length l1) a b 0 m = Ok r m /\ first_diff l1 l2 r.
Proof.
  induction l1 as [|x l1 IH]; intros m a b [|y l2] H1 H2 Hl; try done.
  - exists 0. split; [done|constructor].
  - apply holds_cons in H1 as [Hx H1]. apply holds_cons in H2 as [Hy H2]. cbn [memcmp_loop length].
    run_step (run_load8 _ _ _ Hx). run_step (run_load8 _ _ _ Hy). destruct (Z.eqb_spec (x - y) 0) as [E|E]; simpl.
    + rewrite E. assert (x = y) as <- by lia. destruct (IH m (a + 1) (b + 1) l2 H1 H2) as (r & Hr & Hd); [by injection Hl|].
      exists r. split; [done|]. by apply first_diff_cons.
    + exists (x - y). split; [done|]. apply (fd_at [] x y l1 l2). lia.
Qed.

(** [rt_memcmp] is 0 exactly for equal regions and otherwise the difference of
    the first bytes that differ. *)
Lemma run_memcmp m a b l1 l2 :
  holds m a l1 -> holds m b l2 -> length l1 = length l2 ->
  exists r, rt_memcmp a b (Z.of_nat (length l1)) m = Ok r m /\ first_diff l1 l2 r.
Proof. intros H1 H2 Hl. unfold rt_memcmp. rewrite Nat2Z.id. by apply run_memcmp_loop. Qed.

(** ** Strings *)

(** [l] without its terminating 0, at [s]. *)
Definition c_string (m : memory) (s : Z) (l : list Z) : Prop := holds m s (l ++ [0]) /\ Forall (fun c => c ≠ 0) l.

Lemma c_string_cons m s x l : c_string m s (x :: l) -> m !! s = Some x /\ x ≠ 0 /\ c_string m (s + 1) l.
Proof.
  intros [[Hx H]%holds_cons [Hne Hn]%Forall_cons]. done.
Qed.

Lemma c_string_nil m s : c_string m s [] -> m !! s = Some 0.
Proof. intros [[H _]%holds_cons _]. done. Qed.

(** A string fits into the memory, so the loops over it have fuel enough. *)
Lemma holds_size l : forall m a, holds m a l -> (length l <= size m)%nat.
Proof.
  induction l as [|x l IH]; intros m a H; simpl; [lia|]. apply holds_cons in H as [Hx H].
  assert (holds (delete a m) (a + 1) l) as Hd.
  { intros i y Hy. rewrite lookup_delete_ne by lia. by apply H. }
  apply IH in Hd. rewrite (map_size_delete_Some a m (mk_is_Some _ _ Hx)) in Hd.
  assert (size m ≠ 0%nat) by (apply map_size_ne_0_lookup; eauto). lia.
Qed.

Lemma c_string_fuel m s l : c_string m s l -> (length l < string_fuel m)%nat.
Proof. intros [H _]. apply holds_size in H. rewrite length_app in H. unfold string_fuel. simpl in H. lia. Qed.

Lemma run_strlen_loop l : forall fuel m s,
  c_string m s l -> (length l < fuel)%nat -> strlen_loop fuel s m = Ok (s + Z.of_nat (length l)) m.
Proof.
  induction l as [|x l IH]; intros [|fuel] m s H Hl; simpl in Hl; try lia; cbn [strlen_loop].
  - run_step (run_load8 _ _ _ (c_string_nil _ _ H)). simpl. by rewrite Z.add_0_r.
  - apply c_string_cons in H as (Hx & Hne & H). run_step (run_load8 _ _ _ Hx). rewrite (proj2 (Z.eqb_neq _ _) Hne).
    rewrite IH by (done || lia). f_equal. simpl. lia.
Qed.

(** [rt_strlen] finds the terminating 0. *)
Lemma run_strlen m s l :
  c_string m s l -> Z.of_nat (length l) < 2 ^ 32 -> rt_strlen s m = Ok (Z.of_nat (length l)) m.
Proof.
  intros H Hl. unfold rt_strlen. erewrite bind_Ok by reflexivity.
  run_step (run_strlen_loop _ _ _ _ H (c_string_fuel _ _ _ H)).
  replace (s + Z.of_nat (length l) - s) with (Z.of_nat (length l)) by lia. by rewrite u32_small by lia.
Qed.

Lemma run_strcmp_loop l1 : forall fuel m a b l2,
  c_string m a l1 -> c_string m b l2 -> (length l1 < fuel)%nat ->
  exists r, strcmp_loop fuel a b m = Ok r m /\ first_diff (l1 ++ [0]) (l2 ++ [0]) r.
Proof.
  induction l1 as [|x l1 IH]; intros [|fuel] m a b l2 H1 H2 Hl; simpl in Hl; try lia; cbn [strcmp_loop].
  - run_step (run_load8 _ _ _ (c_string_nil _ _ H1)). destruct l2 as [|y l2]; simpl.
    + run_step (run_load8 _ _ _ (c_string_nil _ _ H2)). exists 0. split; [done|constructor].
    + apply c_string_cons in H2 as (Hy & Hne & _). run_step (run_load8 _ _ _ Hy).
      exists (0 - y). split; [done|]. by apply (fd_at [] 0 y [] (l2 ++ [0])).
  - apply c_string_cons in H1 as (Hx & Hnx & H1). run_step (run_load8 _ _ _ Hx).
    rewrite (proj2 (Z.eqb_neq _ _) Hnx). cbn [negb]. destruct l2 as [|y l2].
    + run_step (run_load8 _ _ _ (c_string_nil _ _ H2)). rewrite (proj2 (Z.eqb_neq _ _) Hnx).
      exists (x - 0). split; [done|]. by apply (fd_at [] x 0 (l1 ++ [0]) []).
    + apply c_string_cons in H2 as (Hy & Hny & H2). run_step (run_load8 _ _ _ Hy). destruct (Z.eqb_spec x y) as [<-|Hne].
      * destruct (IH fuel m (a + 1) (b + 1) l2 H1 H2 ltac:(lia)) as (r & Hr & Hd). exists r. split; [done|].
        by apply first_diff_cons.
      * exists (x - y). split; [done|]. by apply (fd_at [] x y (l1 ++ [0]) (l2 ++ [0])).
Qed.

(** [rt_strcmp] is 0 exactly for equal strings and otherwise has the sign of
    the first characters that differ, a shorter string being smaller. *)
Theorem rt_strcmp_correct m a b l1 l2 :
  c_string m a l1 -> c_string m b l2 ->
  exists r, rt_strcmp a b m = Ok r m /\ first_diff (l1 ++ [0]) (l2 ++ [0]) r /\ (r = 0 <-> l1 = l2).
Proof.
  intros H1 H2. unfold rt_strcmp. erewrite bind_Ok by reflexivity.
  destruct (run_strcmp_loop _ _ _ _ _ _ H1 H2 (c_string_fuel _ _ _ H1)) as (r & Hr & Hd).
  exists r. split; [done|]. split; [done|]. rewrite (first_diff_zero _ _ _ Hd). split; [apply app_inj_tail|by intros ->].
Qed.

(** ** Searching *)

(** [i] is the first position at which [l2] occurs in [l1]. *)
Definition occurs (l1 l2 : list Z) (i : nat) : Prop := l2 `prefix_of` drop i l1.
Definition first_occurrence (l1 l2 : list Z) (i : nat) : Prop := occurs l1 l2 i /\ forall j, (j < i)%nat -> ¬ occurs l1 l2 j.

Lemma occurs_length l1 l2 i : occurs l1 l2 i -> (length l2 <= length l1 - i)%nat.
Proof. intros H%prefix_length. by rewrite length_drop in H. Qed.

Lemma occurs_tail x l1 l2 i : occurs (x :: l1) l2 (S i) <-> occurs l1 l2 i.
Proof. done. Qed.

Lemma run_strstr_loop l1 : forall fuel m s1 s2 l2,
  holds m s1 l1 -> holds m s2 l2 -> l2 ≠ [] -> (length l1 < fuel)%nat ->
  exists r, strstr_loop fuel s1 s2 (Z.of_nat (length l1)) (Z.of_nat (length l2)) m = Ok r m /\
    match r with
    | Some p => exists i, p = s1 + Z.of_nat i /\ first_occurrence l1 l2 i
    | None => forall i, ¬ occurs l1 l2 i
    end.
Proof.
  induction l1 as [|x l1 IH]; intros [|fuel] m s1 s2 l2 H1 H2 Hne Hl; simpl in Hl; try lia; cbn [strstr_loop].
  { destruct (Z.leb_spec (Z.of_nat (length l2)) (Z.of_nat (@length Z []))) as [E|E].
    - destruct l2; [done|simpl in E; lia].
    - exists None. split; [done|]. intros i Hi. apply occurs_length in Hi. simpl in *. lia. }
  destruct (Z.leb_spec (Z.of_nat (length l2)) (Z.of_nat (length (x :: l1)))) as [E|E].
  2: { exists None. split; [done|]. intros i Hi. apply occurs_length in Hi. simpl in *. lia. }
  destruct (split_front (x :: l1) (length l2)) as (a & t & Es & Ha); [lia|].
  assert (holds m s1 a) as Hla by (rewrite Es in H1; by apply holds_app in H1 as [? _]).
  destruct (run_memcmp m s1 s2 a l2 Hla H2 Ha) as (r & Hr & Hd). rewrite Ha in Hr. run_step Hr.
  pose proof (first_diff_zero _ _ _ Hd) as Hz. destruct (Z.eqb_spec r 0) as [Er|Er].
  - exists (Some s1). split; [done|]. exists 0%nat. split; [simpl; lia|]. apply Hz in Er as ->. split; [|lia].
    unfold occurs. rewrite drop_0, Es. by apply prefix_app_r.
  - assert (¬ occurs (x :: l1) l2 0) as H0.
    { unfold occurs. rewrite drop_0, Es. intros [k Hk]. apply Er, Hz. apply app_inj_1 in Hk as [? _]; done. }
    apply holds_cons in H1 as [_ H1].
    replace (Z.of_nat (length (x :: l1)) - 1) with (Z.of_nat (length l1)) by (simpl; lia).
    destruct (IH fuel m (s1 + 1) s2 l2 H1 H2 Hne ltac:(lia)) as ([p|] & Hp & Hres); eexists; (split; [exact Hp|]).
    + destruct Hres as (i & -> & [Hi Hmin]). exists (S i). split; [lia|]. split; [done|].
      intros [|j] Hj; [done|]. apply Hmin. lia.
    + intros [|i]; [done|]. apply Hres.
Qed.

(** [rt_strstr] returns the address of the first occurrence of the second
    string in the first, the whole first string for an empty second one, and
    the null pointer when there is no occurrence; it ends within both strings. *)
Theorem rt_strstr_correct m s1 s2 l1 l2 :
  c_string m s1 l1 -> c_string m s2 l2 -> Z.of_nat (length l1) < 2 ^ 32 -> Z.of_nat (length l2) < 2 ^ 32 ->
  exists r, rt_strstr s1 s2 m = Ok r m /\
    match r with
    | Some p => exists i, p = s1 + Z.of_nat i /\ first_occurrence l1 l2 i
    | None => forall i, ¬ occurs l1 l2 i
    end.
Proof.
  intros H1 H2 Hl1 Hl2. unfold rt_strstr. run_step (run_strlen _ _ _ H2 Hl2).
  destruct (Z.eqb_spec (Z.of_nat (length l2)) 0) as [E|E].
  - exists (Some s1). split; [done|]. exists 0%nat. split; [simpl; lia|]. split; [|lia].
    destruct l2; [apply prefix_nil|simpl in E; lia].
  - run_step (run_strlen _ _ _ H1 Hl1). rewrite Nat2Z.id. apply run_strstr_loop; [..|lia].
    + by apply proj1, holds_app in H1 as [? _].
    + by apply proj1, holds_app in H2 as [? _].
    + intros ->. done.
Qed.

(** ** Comparing without case *)

Lemma lower_nonzero c : is_byte c -> c ≠ 0 -> lower c ≠ 0.
Proof. unfold lower, is_byte. destruct (_ && _); lia. Qed.

Lemma lower_byte c : is_byte c -> is_byte (lower c).
Proof.
  unfold lower, is_byte. destruct ((65 <=? c) && (c <=? 90)) eqn:E; to_prop; lia.
Qed.

Lemma land_byte c : is_byte c -> Z.land c 255 = c.
Proof. intros H. rewrite land_255. by apply Z.mod_small. Qed.

Lemma u32_diff_zero a b : is_byte a -> is_byte b -> u32 (a - b) = 0 <-> a = b.
Proof. unfold is_byte, u32. intros. split; [|intros ->; by rewrite Z.sub_diag]. intros. Z.to_euclidean_division_equations. lia. Qed.

Lemma run_strcasecmp_loop l1 : forall fuel m a b l2,
  c_string m a l1 -> c_string m b l2 -> Forall is_byte l1 -> Forall is_byte l2 -> (length l1 < fuel)%nat ->
  exists r, strcasecmp_loop fuel a b m = Ok r m /\ (r = 0 <-> lower <$> l1 = lower <$> l2).
Proof.
  induction l1 as [|x l1 IH]; intros [|fuel] m a b l2 H1 H2 B1 B2 Hl; simpl in Hl; try lia; cbn [strcasecmp_loop].
  - run_step (run_load8 _ _ _ (c_string_nil _ _ H1)). change (lower (Z.land 0 255)) with 0. cbv zeta.
    destruct l2 as [|y l2].
    + run_step (run_load8 _ _ _ (c_string_nil _ _ H2)). rewrite andb_false_r. by eexists.
    + apply Forall_cons in B2 as [By _]. apply c_string_cons in H2 as (Hy & Hny & _). run_step (run_load8 _ _ _ Hy).
      rewrite andb_false_r. eexists. split; [done|]. rewrite land_byte, u32_diff_zero by (done || by apply lower_byte).
      split; [|done]. intros E. by destruct (lower_nonzero y).
  - apply Forall_cons in B1 as [Bx B1]. apply c_string_cons in H1 as (Hx & Hnx & H1). run_step (run_load8 _ _ _ Hx).
    rewrite (land_byte x) by done. pose proof (lower_nonzero x Bx Hnx) as Hlx. cbv zeta.
    destruct l2 as [|y l2].
    + run_step (run_load8 _ _ _ (c_string_nil _ _ H2)). change (lower (Z.land 0 255)) with 0.
      rewrite (proj2 (Z.eqb_neq _ _) Hlx). simpl. eexists. split; [done|].
      rewrite u32_diff_zero by (done || by apply lower_byte). done.
    + apply Forall_cons in B2 as [By B2]. apply c_string_cons in H2 as (Hy & Hny & H2). run_step (run_load8 _ _ _ Hy).
      rewrite (land_byte y) by done. rewrite (proj2 (Z.eqb_neq (lower x) 0) Hlx), andb_true_r. simpl.
      destruct (Z.eqb_spec (lower x) (lower y)) as [E|E].
      * destruct (IH fuel m (a + 1) (b + 1) l2 H1 H2 B1 B2 ltac:(lia)) as (r & Hr & Hz). exists r. split; [done|].
        rewrite Hz, E. split; [intros E'; f_equal; exact E'|by intros [= E']].
      * eexists. split; [done|]. rewrite u32_diff_zero by by apply lower_byte. split; [done|]. by intros [= ? _].
Qed.

(** [rt_strcasecmp] is 0 exactly for strings that are equal up to the case of
    letters. *)
Theorem rt_strcasecmp_correct m a b l1 l2 :
  c_string m a l1 -> c_string m b l2 -> Forall is_byte l1 -> Forall is_byte l2 ->
  exists r, rt_strcasecmp a b m = Ok r m /\ (r = 0 <-> lower <$> l1 = lower <$> l2).
Proof.
  intros H1 H2 B1 B2. unfold rt_strcasecmp. erewrite bind_Ok by reflexivity.
  by apply run_strcasecmp_loop; [..|apply (c_string_fuel _ a)].
Qed.

(** ** rt_strnlen reads one byte too many *)

Lemma run_strnlen_loop l : forall fuel m s sc maxlen rest,
  holds m sc (l ++ [rest]) -> Forall (fun c => c ≠ 0) l -> (length l < fuel)%nat ->
  sc + Z.of_nat (length l) <= s + maxlen -> (rest = 0 \/ sc + Z.of_nat (length l) = s + maxlen) ->
  strnlen_loop fuel s sc maxlen m = Ok (sc + Z.of_nat (length l)) m.
Proof.
  induction l as [|x l IH]; intros [|fuel] m s sc maxlen rest H Hn Hl Hb Hr; simpl in Hl; try lia;
    cbn [strnlen_loop]; apply holds_cons in H as [Hx H]; run_step (run_load8 _ _ _ Hx).
  - replace (negb (rest =? 0) && (sc - s <? maxlen)) with false; [simpl; by rewrite Z.add_0_r|].
    symmetry. apply andb_false_iff. simpl in Hr. destruct Hr as [->|Hr]; [by left|right; apply Z.ltb_ge; lia].
  - apply Forall_cons in Hn as [Hne Hn]. simpl in Hb, Hr.
    rewrite (proj2 (Z.eqb_neq _ _) Hne), (proj2 (Z.ltb_lt (sc - s) maxlen)) by lia. simpl.
    rewrite (IH fuel m s (sc + 1) maxlen rest) by (done || lia). f_equal. simpl. lia.
Qed.

(** On a string the length is cut at [maxlen]. *)
Theorem rt_strnlen_correct m s l maxlen :
  c_string m s l -> 0 <= maxlen -> Z.of_nat (length l) < 2 ^ 32 ->
  rt_strnlen s maxlen m = Ok (Z.min maxlen (Z.of_nat (length l))) m.
Proof.
  intros C Hm Hl. unfold rt_strnlen. erewrite bind_Ok by reflexivity. pose proof (c_string_fuel _ _ _ C) as Hfu.
  destruct C as [H Hn]. set (k := Z.min maxlen (Z.of_nat (length l))).
  assert (exists l1 c t, l ++ [0] = (l1 ++ [c]) ++ t /\ Forall (fun c => c ≠ 0) l1 /\ Z.of_nat (length l1) = k /\
    (c = 0 \/ k = maxlen)) as (l1 & c & t & Es & Hn1 & Hk & Hc).
  { destruct (decide (maxlen < Z.of_nat (length l))) as [Hlt|Hge].
    - destruct (split_front l (Z.to_nat maxlen)) as (l1 & [|c t] & -> & Hl1); [lia|rewrite app_nil_r in Hlt; lia|].
      exists l1, c, (t ++ [0]). split; [by rewrite <- !app_assoc|]. apply Forall_app in Hn as [? _]. split; [done|]. lia.
    - exists l, 0, []. split; [by rewrite app_nil_r|]. split; [done|]. split; [lia|by left]. }
  rewrite Es in H. apply holds_app in H as [H _]. assert (length l1 <= length l)%nat by lia.
  rewrite (bind_Ok _ _ _ _ _ (run_strnlen_loop l1 (string_fuel m) m s s maxlen c H Hn1 ltac:(lia) ltac:(lia) ltac:(lia))).
  rewrite Hk. replace (s + k - s) with k by lia. by rewrite u32_small by lia.
Qed.

(** The comment promises to look at the first [maxlen] characters only: on an
    array of exactly that size without a 0 the function reads behind its end. *)
Theorem rt_strnlen_overreads m s l :
  holds m s l -> Forall (fun c => c ≠ 0) l -> m !! (s + Z.of_nat (length l)) = None ->
  rt_strnlen s (Z.of_nat (length l)) m = Fault.
Proof.
  intros H Hn Hend. unfold rt_strnlen, get, mbind, M_bind.
  enough (forall fuel sc l', holds m sc l' -> Forall (fun c => c ≠ 0) l' -> sc + Z.of_nat (length l') = s + Z.of_nat (length l) ->
    strnlen_loop fuel s sc (Z.of_nat (length l)) m = Fault) as Hf by by rewrite (Hf _ s l).
  induction fuel as [|fuel IH]; intros sc l' Hl' Hn' E; [done|]. cbn [strnlen_loop]. unfold mbind, M_bind.
  destruct l' as [|x l'].
  - unfold load8, deref. simpl in E. replace sc with (s + Z.of_nat (length l)) by lia. by rewrite Hend.
  - apply holds_cons in Hl' as [Hx Hl']. apply Forall_cons in Hn' as [Hne Hn']. rewrite (run_load8 _ _ _ Hx). simpl in E.
    rewrite (proj2 (Z.eqb_neq _ _) Hne), (proj2 (Z.ltb_lt (sc - s) _)) by lia. simpl. apply (IH _ l'); [done|done|lia].
Qed.

(** ** Aligned allocation *)

Lemma round4_spec x : 0 <= x < 2 ^ 32 - 3 -> round4 x mod 4 = 0 /\ x <= round4 x < x + 4.
Proof.
  intros Hx. unfold round4. rewrite u32_small by lia. pose proof (land_not32_pow2 (x + 3) 2 ltac:(lia) ltac:(lia)) as E.
  change (2 ^ 2 - 1) with 3 in E. change (2 ^ 2) with 4 in E. rewrite E. Z.to_euclidean_division_equations. lia.
Qed.

Lemma round4_pow2 k : 2 <= k < 32 -> round4 (2 ^ k) = 2 ^ k.
Proof.
  intros Hk. replace k with (2 + (k - 2)) by lia. rewrite Z.pow_add_r by lia. change (2 ^ 2) with 4.
  assert (1 <= 2 ^ (k - 2) < 2 ^ 30) as Hp.
  { split; [change 1 with (2 ^ 0); apply Z.pow_le_mono_r; lia|apply Z.pow_lt_mono_r; lia]. }
  destruct (round4_spec (4 * 2 ^ (k - 2))) as [H1 H2]; [lia|]. Z.to_euclidean_division_equations. lia.
Qed.

(** Where the aligned block begins inside of the block at [ptr]. *)
Definition aligned_at (ptr k : Z) : Z := ptr + (2 ^ k - ptr mod 2 ^ k).

(** For an alignment that is a power of two of at least 4, [rt_malloc_align]
    returns an aligned address inside of the block that [rt_malloc] gave it, with
    room for the requested size, and [rt_free_align] finds the address of that
    block again whatever the caller has written into its part. *)
Theorem malloc_align_correct m size k ptr :
  2 <= k < 32 -> 0 <= ptr -> ptr mod 4 = 0 -> 0 <= size -> ptr + size + 2 ^ k + 4 < 2 ^ 32 ->
  mapped m ptr (malloc_align_size size (2 ^ k)) ->
  exists p m', rt_malloc_align size (2 ^ k) (Some ptr) m = Ok (Some p) m' /\
    p mod 2 ^ k = 0 /\ ptr + 4 <= p /\ p + size <= ptr + malloc_align_size size (2 ^ k) /\
    forall data, Z.of_nat (length data) <= size -> rt_free_align p (set_bytes p data m') = Ok ptr (set_bytes p data m').
Proof.
  intros Hk Hp Hp4 Hs Hfit Hm. pose proof (Z.pow_pos_nonneg 2 k ltac:(lia) ltac:(lia)) as Hpos.
  destruct (round4_spec size) as [_ Hr]; [lia|]. assert (malloc_align_size size (2 ^ k) = round4 size + 2 ^ k) as Es.
  { unfold malloc_align_size. rewrite round4_pow2, u32_small by lia. done. }
  rewrite Es in *. pose proof (Z.mod_pos_bound ptr (2 ^ k) Hpos) as Hmod. pose proof (Z.div_mod ptr (2 ^ k) ltac:(lia)) as Hdm.
  assert (2 ^ k = 4 * 2 ^ (k - 2)) as E4 by (rewrite <- (Z.pow_add_r 2 2) by lia; f_equal; lia).
  exists (aligned_at ptr k), (set_bytes (aligned_at ptr k - 4) (bytes_of ptr) m).
  assert (ptr + 4 <= aligned_at ptr k) as Hlow.
  { unfold aligned_at. set (q := ptr / 2 ^ k) in *. rewrite E4 in *. Z.to_euclidean_division_equations. nia. }
  assert (aligned_at ptr k <= ptr + 2 ^ k) as Hhigh by (unfold aligned_at; lia).
  split_and!; [|..|lia|lia|].
  - unfold rt_malloc_align. rewrite round4_pow2, (u32_small (2 ^ k - 1)) by lia.
    assert (Z.land ptr (2 ^ k - 1) = ptr mod 2 ^ k) as El
      by (rewrite Z.sub_1_r, <- Z.ones_equiv, Z.land_ones by lia; done).
    assert ((if Z.land ptr (2 ^ k - 1) =? 0 then u32 (ptr + 2 ^ k)
      else Z.land (u32 (ptr + (2 ^ k - 1))) (not32 (2 ^ k - 1))) = aligned_at ptr k) as ->.
    { rewrite El. unfold aligned_at. destruct (Z.eqb_spec (ptr mod 2 ^ k) 0) as [E|E]; [rewrite u32_small; lia|].
      rewrite (u32_small (ptr + (2 ^ k - 1))), land_not32_pow2 by lia.
      assert ((ptr + (2 ^ k - 1)) mod 2 ^ k = ptr mod 2 ^ k - 1) as ->; [|lia].
      symmetry. apply (Z.mod_unique_pos _ _ (ptr / 2 ^ k + 1)); lia. }
    assert (mapped m (aligned_at ptr k - 4) 4) as H4.
    { intros i Hi. replace (aligned_at ptr k - 4 + i) with (ptr + (aligned_at ptr k - 4 + i - ptr)) by lia. apply Hm. lia. }
    run_step (run_store32 _ _ ptr H4). done.
  - unfold aligned_at. replace (ptr + (2 ^ k - ptr mod 2 ^ k)) with ((ptr / 2 ^ k + 1) * 2 ^ k) by lia. apply Z.mod_mul. lia.
  - intros data Hd. unfold rt_free_align. set (m' := set_bytes (aligned_at ptr k - 4) (bytes_of ptr) m).
    assert (holds (set_bytes (aligned_at ptr k) data m') (aligned_at ptr k - 4) (bytes_of ptr)) as H.
    { apply holds_apart; [apply set_bytes_holds|]. left. simpl. lia. }
    rewrite (run_load32 _ _ _ _ _ _ H). f_equal. unfold word_of, u8. Z.to_euclidean_division_equations. lia.
Qed.

Lemma run_strdup m s l tmp :
  c_string m s l -> Forall is_byte l -> Z.of_nat (length l) + 1 < 2 ^ 32 ->
  mapped m tmp (Z.of_nat (length l) + 1) ->
  tmp + (Z.of_nat (length l) + 1) <= s \/ s + (Z.of_nat (length l) + 1) <= tmp ->
  rt_strdup s (Some tmp) m = Ok (Some tmp) (set_bytes tmp (l ++ [0]) m).
Proof.
  intros C Hb Hl Hm Hd. assert (strdup_size s m = Ok (Z.of_nat (length l) + 1) m) as Hlen.
  { unfold strdup_size. run_step (run_strlen _ _ _ C ltac:(lia)). by rewrite u32_small by lia. }
  unfold rt_strdup. rewrite !(bind_Ok _ _ _ _ _ Hlen).
  assert (Z.of_nat (length l) + 1 = Z.of_nat (length (l ++ [0]))) as El by (rewrite length_app; simpl; lia). rewrite El in *.
  destruct C as [H Hn]. assert (copy_ctx m tmp s (l ++ [0])) as C.
  { split; [done|done| |]; [unfold forward; lia|]. apply Forall_app. split; [done|]. by repeat constructor. }
  by run_step (run_memcpy _ _ _ _ C).
Qed.

(** Without memory nothing is copied. *)
Lemma run_strdup_none m s l : c_string m s l -> Z.of_nat (length l) + 1 < 2 ^ 32 -> rt_strdup s None m = Ok None m.
Proof. intros C Hl. unfold rt_strdup, strdup_size. erewrite bind_Ok; [reflexivity|]. by run_step (run_strlen _ _ _ C ltac:(lia)). Qed.

(** [rt_strdup] leaves two equal strings, or fails with the allocation. *)
Theorem rt_strdup_correct m s l tmp :
  c_string m s l -> Forall is_byte l -> Z.of_nat (length l) + 1 < 2 ^ 32 ->
  mapped m tmp (Z.of_nat (length l) + 1) ->
  tmp + (Z.of_nat (length l) + 1) <= s \/ s + (Z.of_nat (length l) + 1) <= tmp ->
  exists m', rt_strdup s (Some tmp) m = Ok (Some tmp) m' /\ c_string m' tmp l /\ c_string m' s l /\
    rt_strdup s None m = Ok None m.
Proof.
  intros C Hb Hl Hm Hd. eexists. split; [by apply run_strdup|]. pose proof C as [H Hn]. split_and!.
  - split; [apply set_bytes_holds|done].
  - split; [|done]. apply holds_apart; [done|]. rewrite length_app. simpl. lia.
  - by apply (run_strdup_none _ _ l).
Qed.

(** ** Witnesses *)

(** [abcabd] at 100 and [abd] at 110, with room from 120 on. *)
Definition demo_text : list Z := [97; 98; 99; 97; 98; 100].
Definition demo_mem : memory :=
  set_bytes 100 (demo_text ++ [0]) (set_bytes 110 ([97; 98; 100] ++ [0]) (set_bytes 120 (replicate 40 0) ∅)).

Lemma demo_text_string : c_string demo_mem 100 demo_text.
Proof. split; [apply set_bytes_holds|]. by repeat constructor. Qed.
Lemma demo_word_string : c_string demo_mem 110 [97; 98; 100].
Proof. split; [|by repeat constructor]. apply holds_apart; [apply set_bytes_holds|]. simpl. lia. Qed.
Lemma demo_room : mapped demo_mem 120 40.
Proof. do 2 apply mapped_set_bytes. exact (holds_mapped _ _ _ (set_bytes_holds 120 (replicate 40 0) ∅)). Qed.
Lemma demo_text_bytes : Forall is_byte demo_text.
Proof. by repeat constructor. Qed.

Lemma rt_memset_correct_witness :
  rt_memset 120 300 40 demo_mem = Ok 120 (set_bytes 120 (replicate 40 44) demo_mem).
Proof. apply (rt_memset_correct demo_mem 120 300 40 demo_room). lia. Defined.

(** Sixteen and more bytes between aligned addresses: by blocks of words. *)
Lemma rt_memcpy_correct_witness :
  exists m, rt_memcpy 140 120 19 (set_bytes 120 (replicate 19 7) demo_mem) = Ok 140 m /\ m !! 158 = Some 7 /\ m !! 159 = Some 0.
Proof.
  assert (copy_ctx (set_bytes 120 (replicate 19 7) demo_mem) 140 120 (replicate 19 7)) as C.
  { split.
    - apply set_bytes_holds.
    - apply mapped_set_bytes. apply (mapped_le _ _ (40 - 20)); [|simpl; lia]. apply (mapped_shift _ 120); [exact demo_room|lia].
    - right. simpl. lia.
    - by repeat constructor. }
  pose proof (rt_memcpy_correct _ 140 120 _ C) as H. eexists. split; [exact H|]. split; vm_compute; reflexivity.
Defined.

(** An overlapping move to the right by two bytes. *)
Lemma rt_memmove_correct_witness :
  exists m, rt_memmove 122 120 6 (set_bytes 120 demo_text demo_mem) = Ok 122 m /\ holds m 120 (97 :: 98 :: demo_text).
Proof.
  pose proof (rt_memmove_correct (set_bytes 120 demo_text demo_mem) 122 120 demo_text) as H. eexists. split.
  - apply H.
    + apply set_bytes_holds.
    + apply mapped_set_bytes. apply (mapped_le _ _ (40 - 2)); [|simpl; lia]. apply (mapped_shift _ 120); [exact demo_room|lia].
    + exact demo_text_bytes.
  - repeat (apply holds_cons; split; [vm_compute; reflexivity|]). apply holds_nil.
Defined.

Lemma rt_strstr_correct_witness : rt_strstr 100 110 demo_mem = Ok (Some 103) demo_mem.
Proof.
  destruct (rt_strstr_correct demo_mem 100 110 demo_text [97; 98; 100] demo_text_string demo_word_string)
    as (r & E & H); [simpl; lia|simpl; lia|]. rewrite E. f_equal. destruct r as [p|].
  - destruct H as (i & -> & [Hi Hmin]). do 4 f_equal. assert (occurs demo_text [97; 98; 100] 3) as H3 by by exists [].
    destruct i as [|[|[|[|i]]]]; [by destruct Hi as [? [=]]..|done|].
    exfalso. apply (Hmin 3%nat); [lia|exact H3].
  - exfalso. apply (H 3%nat). by exists [].
Defined.

Lemma malloc_align_correct_witness :
  exists p m', rt_malloc_align 10 8 (Some 124) demo_mem = Ok (Some p) m' /\ p mod 8 = 0 /\
    rt_free_align p (set_bytes p [1; 2; 3] m') = Ok 124 (set_bytes p [1; 2; 3] m').
Proof.
  destruct (malloc_align_correct demo_mem 10 3 124) as (p & m' & E & H1 & _ & _ & H2).
  - lia.
  - lia.
  - reflexivity.
  - lia.
  - reflexivity.
  - replace (malloc_align_size 10 (2 ^ 3)) with 20 by reflexivity.
    apply (mapped_le _ _ (40 - 4)); [|lia]. apply (mapped_shift _ 120); [exact demo_room|lia].
  - exists p, m'. split; [exact E|]. split; [exact H1|]. apply H2. simpl. lia.
Defined.
