(* ===== verification/Printf.v ===== *)
(** * Formatted output: rt_vsnprintf of src/kservice.c

    The state is the write pointer [str] next to the memory; every character
    goes through [if (str <= end) *str = c; ++ str;].  The configuration is that
    of the file itself: RT_PRINTF_PRECISION on, RT_PRINTF_LONGLONG and
    RT_PRINTF_SPECIAL off.  An [int] that would overflow in a width or a
    precision is a fault, as it is undefined in C.  A format is a list of
    characters up to its terminating 0. *)

From S2P Require Import Prelude KString.

Definition out : Type := Z * memory.

(** [if (str <= end) *str = c; ++ str;] *)
Definition emit (e c : Z) : M out unit :=
  o ← get;
  when (o.1 <=? e) (on_snd (store8 o.1 c));;
  modify (fun o => (u32 (o.1 + 1), o.2)).

Fixpoint emits (e : Z) (n : nat) (c : Z) : M out unit :=
  match n with O => mret tt | S n => emit e c;; emits e n c end.
Fixpoint emit_list (e : Z) (l : list Z) : M out unit :=
  match l with [] => mret tt | c :: l => emit e c;; emit_list e l end.

Definition ZEROPAD : Z := 1.
Definition SIGN : Z := 2.
Definition PLUS : Z := 4.
Definition SPACE : Z := 8.
Definition LEFT : Z := 16.
Definition SPECIAL : Z := 32.
Definition LARGE : Z := 64.
Definition has (flags f : Z) : bool := negb (Z.land flags f =? 0).

Definition isdigit (c : Z) : bool := u32 (c - 48) <? 10.

(** The digit and the number left; any base but 10 is taken for 16. *)
Definition divide (n base : Z) : Z * Z :=
  if base =? 10 then (u32 n mod 10, u32 n / 10) else (u32 n mod 16, u32 n / 16).

(** [digits[d]] *)
Definition digit_char (large : bool) (d : Z) : Z :=
  if d <? 10 then 48 + d else if large then 55 + d else 87 + d.

(** [while (num != 0) tmp[i++] = digits[divide(&num, base)]], with the 16 cells
    of [tmp] as fuel; the result is [tmp], least digit first. *)
Fixpoint digits_loop (fuel : nat) (large : bool) (num base : Z) : option (list Z) :=
  if num =? 0 then Some []
  else
    match fuel with
    | O => None
    | S fuel =>
        let '(d, num) := divide num base in
        l ← digits_loop fuel large num base; Some (digit_char large d :: l)
    end.

Definition number_digits (large : bool) (num base : Z) : option (list Z) :=
  if num =? 0 then Some [48] else digits_loop 16 large num base.

(** [while (size-- > 0)]: the number of rounds, and [size] after them. *)
Definition rounds (size : Z) : nat := Z.to_nat size.
Definition after (size : Z) : Z := Z.min size 0 - 1.

(** The sign character, 0 for none, and the number without it. *)
Definition get_sign (type num : Z) : Z * Z :=
  if has type SIGN then
    if num <? 0 then (45, s32 (- num))
    else if has type PLUS then (43, num)
    else if has type SPACE then (32, num) else (0, num)
  else (0, num).

Definition print_number (e num base s precision type : Z) : M out unit :=
  let large := has type LARGE in
  let type := if has type LEFT then Z.land type (not32 ZEROPAD) else type in
  let c := if has type ZEROPAD then 48 else 32 in
  let '(sign, num) := get_sign type num in
  tmp ← deref (fun _ => number_digits large num base);
  let i := Z.of_nat (length tmp) in
  let precision := if precision <? i then i else precision in
  let size := s - precision in
  size ← (if negb (has type (Z.lor ZEROPAD LEFT)) then
            let size := if negb (sign =? 0) && (0 <? size) then size - 1 else size in
            emits e (rounds size) 32;; mret (after size)
          else mret size);
  size ← (if negb (sign =? 0) then
            o ← get;
            emit e sign;;
            mret (if o.1 <=? e then size - 1 else size)
          else mret size);
  size ← (if negb (has type LEFT) then emits e (rounds size) c;; mret (after size) else mret size);
  emits e (Z.to_nat (precision - i)) 48;;
  emit_list e (rev tmp);;
  emits e (rounds size) 32.

(** ** The format *)

Inductive va_arg := VInt (n : Z) | VStr (s : option (list Z)).

Definition flag_of (c : Z) : Z :=
  if c =? 45 then LEFT else if c =? 43 then PLUS else if c =? 32 then SPACE
  else if c =? 35 then SPECIAL else if c =? 48 then ZEROPAD else 0.

Fixpoint process_flags (flags : Z) (fmt : list Z) : Z * list Z :=
  match fmt with
  | c :: r => if flag_of c =? 0 then (flags, fmt) else process_flags (Z.lor flags (flag_of c)) r
  | [] => (flags, [])
  end.

Fixpoint skip_atoi (i : Z) (s : list Z) : option (Z * list Z) :=
  match s with
  | c :: r =>
      if isdigit c then
        let i := i * 10 + c - 48 in
        if i <? 2 ^ 31 then skip_atoi i r else None
      else Some (i, s)
  | [] => Some (i, [])
  end.

(** The character at the format pointer. *)
Definition at_ (fmt : list Z) : Z := default 0 (head fmt).

Definition int_arg (args : list va_arg) : option (Z * list va_arg) :=
  match args with VInt n :: args => Some (s32 n, args) | _ => None end.

Record directive := mk_dir {
  dir_flags : Z; dir_width : Z; dir_precision : Z; dir_qualifier : Z;
  dir_fmt : list Z; dir_args : list va_arg
}.

Definition field_width (flags : Z) (fmt : list Z) (args : list va_arg)
    : option (Z * Z * list Z * list va_arg) :=
  if isdigit (at_ fmt) then
    r ← skip_atoi 0 fmt; Some (flags, r.1, r.2, args)
  else if at_ fmt =? 42 then
    a ← int_arg args;
    if a.1 <? 0 then
      if a.1 =? - 2 ^ 31 then None else Some (Z.lor flags LEFT, - a.1, drop 1 fmt, a.2)
    else Some (flags, a.1, drop 1 fmt, a.2)
  else Some (flags, -1, fmt, args).

Definition get_precision (fmt : list Z) (args : list va_arg) : option (Z * list Z * list va_arg) :=
  if at_ fmt =? 46 then
    let fmt := drop 1 fmt in
    if isdigit (at_ fmt) then r ← skip_atoi 0 fmt; Some (r.1, r.2, args)
    else if at_ fmt =? 42 then a ← int_arg args; Some (Z.max 0 a.1, drop 1 fmt, a.2)
    else Some (0, fmt, args)
  else Some (-1, fmt, args).

(** From [process flags] up to the conversion character; [fmt] is behind the
    percent sign. *)
Definition parse_directive (fmt : list Z) (args : list va_arg) : option directive :=
  let '(flags, fmt) := process_flags 0 fmt in
  w ← field_width flags fmt args;
  let '(flags, width, fmt, args) := w in
  p ← get_precision fmt args;
  let '(precision, fmt, args) := p in
  let q := at_ fmt in
  if (q =? 104) || (q =? 108) then Some (mk_dir flags width precision q (drop 1 fmt) args)
  else Some (mk_dir flags width precision 0 fmt args).

(** The value that is passed to [print_number], by qualifier and sign. *)
Definition converted (qualifier flags n : Z) : Z :=
  if qualifier =? 104 then
    let num := u16 n in s32 (if has flags SIGN then u32 (s16 num) else num)
  else s32 n.

(** [(NULL)] *)
Definition null_text : list Z := [40; 78; 85; 76; 76; 41].

Definition print_char (e : Z) (d : directive) (n : Z) : M out unit :=
  let width := dir_width d in
  (if negb (has (dir_flags d) LEFT) then emits e (Z.to_nat (width - 1)) 32 else mret tt);;
  emit e (u8 n);;
  let width := if negb (has (dir_flags d) LEFT) then Z.min (width - 1) 0 else width in
  emits e (Z.to_nat (width - 1)) 32.

Definition string_length (d : directive) (s : list Z) : Z :=
  let len := Z.of_nat (length s) in
  if (0 <? dir_precision d) && (dir_precision d <? len) then dir_precision d else len.

Definition print_string (e : Z) (d : directive) (s : list Z) : M out unit :=
  let len := string_length d s in
  let width := dir_width d in
  (if negb (has (dir_flags d) LEFT) then emits e (Z.to_nat (width - len)) 32 else mret tt);;
  emit_list e (take (Z.to_nat len) s);;
  let width := if negb (has (dir_flags d) LEFT) then Z.min width len - 1 else width in
  emits e (Z.to_nat (width - len)) 32.

(** [base] and the flags that the conversion character sets; [None] when it is
    no conversion of an integer. *)
Definition integer_conversion (c flags : Z) : option (Z * Z) :=
  if c =? 111 then Some (8, flags)
  else if c =? 88 then Some (16, Z.lor flags LARGE)
  else if c =? 120 then Some (16, flags)
  else if (c =? 100) || (c =? 105) then Some (10, Z.lor flags SIGN)
  else if c =? 117 then Some (10, flags)
  else None.

(** The [switch] and what follows it; the result is the arguments left. *)
Definition print_directive (e : Z) (d : directive) : M out (list va_arg) :=
  let c := at_ (dir_fmt d) in
  if c =? 99 then
    a ← deref (fun _ => int_arg (dir_args d)); print_char e d a.1;; mret a.2
  else if c =? 115 then
    match dir_args d with
    | VStr s :: args => print_string e d (default null_text s);; mret args
    | _ => fault
    end
  else if c =? 112 then
    a ← deref (fun _ => int_arg (dir_args d));
    (if dir_width d =? -1 then
       print_number e a.1 16 8 (dir_precision d) (Z.lor (dir_flags d) ZEROPAD)
     else print_number e a.1 16 (dir_width d) (dir_precision d) (dir_flags d));;
    mret a.2
  else if c =? 37 then emit e 37;; mret (dir_args d)
  else
    match integer_conversion c (dir_flags d) with
    | Some (base, flags) =>
        a ← deref (fun _ => int_arg (dir_args d));
        print_number e (converted (dir_qualifier d) flags a.1) base (dir_width d) (dir_precision d) flags;;
        mret a.2
    | None =>
        emit e 37;;
        (if negb (c =? 0) then emit e c else mret tt);;
        mret (dir_args d)
    end.

(** [++fmt], after a [--fmt] when the directive was cut off by the end. *)
Definition next_fmt (d : directive) : list Z := if at_ (dir_fmt d) =? 0 then dir_fmt d else drop 1 (dir_fmt d).

(** The [for] loop; every round takes at least one character of the format. *)
Fixpoint vsn_loop (fuel : nat) (e : Z) (fmt : list Z) (args : list va_arg) : M out unit :=
  if at_ fmt =? 0 then mret tt
  else
    match fuel with
    | O => fault
    | S fuel =>
        if negb (at_ fmt =? 37) then emit e (at_ fmt);; vsn_loop fuel e (drop 1 fmt) args
        else
          d ← deref (fun _ => parse_directive (drop 1 fmt) args);
          args ← print_directive e d;
          vsn_loop fuel e (next_fmt d) args
    end.

Definition end_of (buf size : Z) : Z :=
  let e := u32 (buf + size - 1) in if e <? buf then 2 ^ 32 - 1 else e.

Definition rt_vsnprintf (buf size : Z) (fmt : list Z) (args : list va_arg) : M memory Z :=
  m ← get;
  let e := end_of buf size in
  match vsn_loop (length fmt) e fmt args (buf, m) with
  | Fault => fault
  | Ok _ (str, m) =>
      put m;;
      store8 (if str <=? e then str else e) 0;;
      mret (s32 (str - buf))
  end.

Definition rt_snprintf (buf size : Z) (fmt : list Z) (args : list va_arg) : M memory Z :=
  rt_vsnprintf buf size fmt args.
Definition rt_vsprintf (buf : Z) (fmt : list Z) (args : list va_arg) : M memory Z :=
  rt_vsnprintf buf (2 ^ 32 - 1) fmt args.
Definition rt_sprintf (buf : Z) (fmt : list Z) (args : list va_arg) : M memory Z := rt_vsprintf buf fmt args.

(** ** The text of a format

    What a format means, without buffer and pointers.  [room acc] says whether
    the position behind [acc] lies inside of the buffer: the code takes the sign
    off the padding only then.  The meaning proper is the one with room always. *)

Definition spaces (n : Z) : list Z := replicate (Z.to_nat n) 32.
Definition zeros (n : Z) : list Z := replicate (Z.to_nat n) 48.

Lemma spaces_none n : n <= 0 -> spaces n = [].
Proof. intros H. unfold spaces. by replace (Z.to_nat n) with 0%nat by lia. Qed.

(** A number between its padding: [digits] behind [sg], [fill] characters wide
    beyond the digits. *)
Definition padded (room : list Z -> bool) (acc : list Z) (left zero : bool) (sg digits : list Z) (fill : Z) : list Z :=
  let rest := if room acc then fill - Z.of_nat (length sg) else fill in
  if left then sg ++ digits ++ spaces rest
  else if zero then sg ++ zeros rest ++ digits
  else spaces (fill - Z.of_nat (length sg)) ++ sg ++ digits.

Definition sign_text (sign : Z) : list Z := if sign =? 0 then [] else [sign].

Definition number_text (room : list Z -> bool) (acc : list Z) (num base width precision flags : Z) : option (list Z) :=
  let '(sign, num) := get_sign flags num in
  tmp ← number_digits (has flags LARGE) num base;
  let i := Z.of_nat (length tmp) in
  Some (padded room acc (has flags LEFT) (has flags ZEROPAD) (sign_text sign)
          (zeros (precision - i) ++ rev tmp) (width - Z.max precision i)).

Definition char_text (d : directive) (n : Z) : list Z :=
  if has (dir_flags d) LEFT then u8 n :: spaces (dir_width d - 1) else spaces (dir_width d - 1) ++ [u8 n].

Definition string_text (d : directive) (s : list Z) : list Z :=
  let len := string_length d s in
  let t := take (Z.to_nat len) s in
  if has (dir_flags d) LEFT then t ++ spaces (dir_width d - len) else spaces (dir_width d - len) ++ t.

Definition directive_text (room : list Z -> bool) (acc : list Z) (d : directive) : option (list Z * list va_arg) :=
  let c := at_ (dir_fmt d) in
  if c =? 99 then a ← int_arg (dir_args d); Some (char_text d a.1, a.2)
  else if c =? 115 then
    match dir_args d with VStr s :: args => Some (string_text d (default null_text s), args) | _ => None end
  else if c =? 112 then
    a ← int_arg (dir_args d);
    t ← (if dir_width d =? -1 then number_text room acc a.1 16 8 (dir_precision d) (Z.lor (dir_flags d) ZEROPAD)
         else number_text room acc a.1 16 (dir_width d) (dir_precision d) (dir_flags d));
    Some (t, a.2)
  else if c =? 37 then Some ([37], dir_args d)
  else
    match integer_conversion c (dir_flags d) with
    | Some (base, flags) =>
        a ← int_arg (dir_args d);
        t ← number_text room acc (converted (dir_qualifier d) flags a.1) base (dir_width d) (dir_precision d) flags;
        Some (t, a.2)
    | None => Some (37 :: (if c =? 0 then [] else [c]), dir_args d)
    end.

Fixpoint render (fuel : nat) (room : list Z -> bool) (acc : list Z) (fmt : list Z) (args : list va_arg) : option (list Z) :=
  if at_ fmt =? 0 then Some acc
  else
    match fuel with
    | O => None
    | S fuel =>
        if negb (at_ fmt =? 37) then render fuel room (acc ++ [at_ fmt]) (drop 1 fmt) args
        else
          d ← parse_directive (drop 1 fmt) args;
          t ← directive_text room acc d;
          render fuel room (acc ++ t.1) (next_fmt d) t.2
    end.

Definition format_text (fmt : list Z) (args : list va_arg) : option (list Z) :=
  render (length fmt) (fun _ => true) [] fmt args.

(** ** Digits *)

Definition radix (base : Z) : Z := if base =? 10 then 10 else 16.

Fixpoint digits_value (b : Z) (ds : list Z) : Z :=
  match ds with [] => 0 | d :: ds => d + b * digits_value b ds end.

Definition digit_value (c : Z) : Z := if c <? 58 then c - 48 else if c <? 71 then c - 55 else c - 87.

Lemma digit_value_char large d : 0 <= d < 16 -> digit_value (digit_char large d) = d.
Proof.
  intros Hd. unfold digit_char, digit_value. destruct (Z.ltb_spec d 10).
  - destruct (Z.ltb_spec (48 + d) 58); lia.
  - destruct large.
    + destruct (Z.ltb_spec (55 + d) 58); [lia|]. destruct (Z.ltb_spec (55 + d) 71); lia.
    + destruct (Z.ltb_spec (87 + d) 58); [lia|]. destruct (Z.ltb_spec (87 + d) 71); lia.
Qed.

Lemma divide_radix n base : divide n base = (u32 n mod radix base, u32 n / radix base).
Proof. unfold divide, radix. by destruct (base =? 10). Qed.

Lemma radix_range base : radix base = 10 \/ radix base = 16.
Proof. unfold radix. destruct (base =? 10); auto. Qed.

(** [k] digits suffice for a number below [10^k]. *)
Lemma digits_loop_value fuel : forall large num base,
  0 <= num < 2 ^ 32 -> num < 10 ^ Z.of_nat fuel ->
  exists l, digits_loop fuel large num base = Some l /\
    digits_value (radix base) (digit_value <$> l) = num /\ (num ≠ 0 -> last l ≠ Some 48).
Proof.
  induction fuel as [|fuel IH]; intros large num base Hn Hf; simpl; destruct (Z.eqb_spec num 0) as [->|Hne].
  1,3: by exists []. { simpl in Hf. lia. }
  rewrite divide_radix, u32_small by done. pose proof (radix_range base) as Hr.
  pose proof (Z.mod_pos_bound num (radix base) ltac:(lia)). pose proof (Z.div_mod num (radix base) ltac:(lia)).
  assert (0 <= num / radix base < 2 ^ 32 /\ num / radix base < 10 ^ Z.of_nat fuel) as [Hq1 Hq2].
  { rewrite Nat2Z.inj_succ, Z.pow_succ_r in Hf by lia. split; nia. }
  destruct (IH large (num / radix base) base Hq1 Hq2) as (l & El & Hv & Hl). rewrite El. simpl.
  eexists. split; [reflexivity|]. split.
  - rewrite fmap_cons. cbn [digits_value]. rewrite digit_value_char by lia. rewrite Hv. lia.
  - intros _. destruct l as [|x l]; [|rewrite last_cons_cons; apply Hl; intros E; rewrite E in *].
    + simpl in Hv. intros [= E]. apply (f_equal digit_value) in E. rewrite digit_value_char in E by lia.
      change (digit_value 48) with 0 in E. nia.
    + by destruct fuel.
Qed.

(** Sixteen cells are enough for every 32-bit number, and the digits read back
    are the number. *)
Lemma number_digits_value large num base :
  - 2 ^ 31 <= num < 2 ^ 31 ->
  exists l, number_digits large num base = Some l /\ digits_value (radix base) (digit_value <$> l) = u32 num /\
    l ≠ [] /\ (num ≠ 0 -> last l ≠ Some 48).
Proof.
  intros Hn. unfold number_digits. destruct (Z.eqb_spec num 0) as [->|Hne].
  - exists [48]. split; [done|]. split; [by unfold radix; destruct (_ =? _)|]. split; [done|]. intros E. by destruct E.
  - (* the loop sees the number as unsigned after its first division *)
    assert (0 < u32 num < 2 ^ 32) as Hu.
    { pose proof (u32_range num). split; [|lia]. unfold u32 in *. Z.to_euclidean_division_equations. lia. }
    assert (digits_loop 16 large num base = digits_loop 16 large (u32 num) base) as ->.
    { cbn [digits_loop]. rewrite (proj2 (Z.eqb_neq num 0) Hne), (proj2 (Z.eqb_neq (u32 num) 0)) by lia.
      rewrite !divide_radix, (u32_small (u32 num)) by lia. done. }
    destruct (digits_loop_value 16 large (u32 num) base) as (l & E & Hv & Hl); [lia|simpl; lia|].
    exists l. split; [done|]. split; [done|]. split; [|intros _; apply Hl; lia].
    intros ->. simpl in Hv. lia.
Qed.

(** The flags after [if (type & LEFT) type &= ~ZEROPAD]. *)
Definition normal_flags (type : Z) : Z := if has type LEFT then Z.land type (not32 ZEROPAD) else type.

Lemma has_normal type f : Z.land (not32 ZEROPAD) f = f -> has (normal_flags type) f = has type f.
Proof. intros H. unfold normal_flags. destruct (has type LEFT); [|done]. unfold has. by rewrite <- Z.land_assoc, H. Qed.

Lemma has_normal_zeropad type : has (normal_flags type) ZEROPAD = negb (has type LEFT) && has type ZEROPAD.
Proof.
  unfold normal_flags. destruct (has type LEFT); [|done]. unfold has. rewrite <- Z.land_assoc.
  change (Z.land (not32 ZEROPAD) ZEROPAD) with 0. by rewrite Z.land_0_r.
Qed.

Lemma has_lor type a b : has type (Z.lor a b) = has type a || has type b.
Proof.
  unfold has. rewrite Z.land_lor_distr_r, <- negb_andb. f_equal. apply eq_true_iff_eq.
  rewrite andb_true_iff, !Z.eqb_eq. apply Z.lor_eq_0_iff.
Qed.

Lemma get_sign_normal type num : get_sign (normal_flags type) num = get_sign type num.
Proof. unfold get_sign. by rewrite !has_normal by done. Qed.

(** ** Writing the text *)

Section writing.
Context (buf e : Z) (Hbuf : 0 <= buf <= e) (m0 : memory).
(** The cells of the buffer, and the state after [text] has been emitted; a
    [char] is the low byte. *)
Definition cells : nat := Z.to_nat (e - buf + 1).
Definition wrote (text : list Z) : out := (buf + Z.of_nat (length text), set_bytes buf (u8 <$> take cells text) m0).
Definition in_buffer (text : list Z) : bool := (length text <? cells)%nat.

Lemma in_buffer_spec text : (buf + Z.of_nat (length text) <=? e) = in_buffer text.
Proof.
  unfold in_buffer, cells. destruct (Nat.ltb_spec (length text) (Z.to_nat (e - buf + 1))); [apply Z.leb_le|apply Z.leb_gt]; lia.
Qed.

(** No more than [L] characters are emitted. *)
Context (L : Z) (HL : buf + L < 2 ^ 32) (Hmap : mapped m0 buf (Z.min (e - buf + 1) (L + 1))).

Lemma run_emit text c : Z.of_nat (length text) < L -> emit e c (wrote text) = Ok tt (wrote (text ++ [c])).
Proof.
  intros Hl. unfold emit, wrote. unfold get at 1. erewrite bind_Ok by reflexivity. cbn [fst snd]. rewrite in_buffer_spec.
  assert (u32 (buf + Z.of_nat (length text) + 1) = buf + Z.of_nat (length (text ++ [c]))) as Eu.
  { rewrite u32_small, length_app by lia. simpl. lia. }
  unfold in_buffer. destruct (Nat.ltb_spec (length text) cells) as [Hlt|Hge]; simpl.
  - rewrite (take_ge text) by lia. unfold cells in Hlt.
    assert (is_Some (set_bytes buf (u8 <$> text) m0 !! (buf + Z.of_nat (length text)))) as Hs.
    { apply (mapped_set_bytes _ _ _ _ _ Hmap). lia. }
    rewrite (bind_Ok _ _ _ _ _ (run_on_snd _ _ _ _ _ (run_store8 _ _ c Hs))). unfold modify. cbn [fst snd].
    rewrite Eu, take_ge by (rewrite length_app; unfold cells; simpl; lia).
    by rewrite fmap_app, set_bytes_app, length_fmap.
  - erewrite bind_Ok by reflexivity. unfold modify. cbn [fst snd]. rewrite Eu, take_app_le by lia. done.
Qed.

Lemma run_emit_list l : forall text,
  Z.of_nat (length (text ++ l)) <= L -> emit_list e l (wrote text) = Ok tt (wrote (text ++ l)).
Proof.
  induction l as [|c l IH]; intros text Hl; simpl; [by rewrite app_nil_r|]. rewrite length_app in Hl. simpl in Hl.
  run_step (run_emit text c ltac:(lia)). rewrite IH, <- app_assoc; [done|]. rewrite !length_app. simpl. lia.
Qed.

Lemma run_emits k c text :
  Z.of_nat (length (text ++ replicate k c)) <= L -> emits e k c (wrote text) = Ok tt (wrote (text ++ replicate k c)).
Proof.
  assert (emits e k c = emit_list e (replicate k c)) as -> by (induction k as [|k IH]; simpl; [done|by rewrite IH]).
  apply run_emit_list.
Qed.

Lemma run_spaces n text :
  Z.of_nat (length (text ++ spaces n)) <= L -> emits e (Z.to_nat n) 32 (wrote text) = Ok tt (wrote (text ++ spaces n)).
Proof. apply run_emits. Qed.

Lemma run_sign sign size text :
  Z.of_nat (length (text ++ sign_text sign)) <= L ->
  (if negb (sign =? 0) then o ← get; emit e sign;; mret (if o.1 <=? e then size - 1 else size)
   else mret size : M out Z) (wrote text)
  = Ok (if in_buffer text then size - Z.of_nat (length (sign_text sign)) else size) (wrote (text ++ sign_text sign)).
Proof.
  intros Hl. unfold sign_text in *. destruct (Z.eqb_spec sign 0); simpl.
  - rewrite app_nil_r, Z.sub_0_r. by destruct (in_buffer text).
  - unfold get at 1. erewrite bind_Ok by reflexivity. cbn [fst wrote]. rewrite in_buffer_spec.
    rewrite length_app in Hl. simpl in Hl. by run_step (run_emit text sign ltac:(lia)).
Qed.

Lemma run_digits text (tmp : list Z) k size :
  Z.of_nat (length (text ++ (zeros k ++ rev tmp) ++ spaces size)) <= L ->
  (emits e (Z.to_nat k) 48;; emit_list e (rev tmp);; emits e (rounds size) 32) (wrote text)
  = Ok tt (wrote (text ++ (zeros k ++ rev tmp) ++ spaces size)).
Proof.
  intros Hl. unfold zeros, spaces, rounds in *. rewrite !length_app in Hl.
  erewrite bind_Ok by (apply run_emits; rewrite length_app; lia).
  erewrite bind_Ok by (apply run_emit_list; rewrite !length_app; lia).
  rewrite run_emits, <- !app_assoc; [done|]. rewrite !length_app. lia.
Qed.

Lemma run_print_number text num base s precision type t :
  number_text in_buffer text num base s precision type = Some t -> Z.of_nat (length (text ++ t)) <= L ->
  print_number e num base s precision type (wrote text) = Ok tt (wrote (text ++ t)).
Proof.
  unfold number_text, print_number. fold (normal_flags type). rewrite get_sign_normal.
  destruct (get_sign type num) as [sign n].
  intros (tmp & Htmp & [= <-])%bind_Some Hl.
  unfold deref at 1. rewrite Htmp. erewrite bind_Ok by reflexivity.
  set (i := Z.of_nat (length tmp)) in *. set (fill := s - Z.max precision i) in *.
  assert ((if precision <? i then i else precision) = Z.max precision i) as ->
    by (destruct (Z.ltb_spec precision i); lia).
  assert (Z.to_nat (Z.max precision i - i) = Z.to_nat (precision - i)) as -> by lia. fold fill.
  rewrite has_lor, has_normal_zeropad, (has_normal type LEFT) by done. unfold padded in *.
  destruct (has type LEFT); simpl.
  - erewrite bind_Ok by reflexivity.
    erewrite bind_Ok by (apply run_sign; rewrite !length_app in *; lia).
    erewrite bind_Ok by reflexivity. rewrite run_digits; [by rewrite <- !app_assoc|]. by rewrite <- !app_assoc in *.
  - destruct (has type ZEROPAD); simpl.
    + erewrite bind_Ok by reflexivity.
      erewrite bind_Ok by (apply run_sign; rewrite !length_app in *; lia).
      set (size := if in_buffer text then _ else _) in *.
      erewrite bind_Ok by (erewrite bind_Ok by (apply run_emits; unfold rounds, zeros in *; rewrite !length_app in *; lia); reflexivity).
      change (replicate (rounds size) 48) with (zeros size). rewrite run_digits; replace (spaces (after size)) with (@nil Z)
        by (symmetry; apply spaces_none; unfold after; lia); rewrite app_nil_r, <- !app_assoc in *; done.
    + set (size := if negb (sign =? 0) && (0 <? fill) then fill - 1 else fill).
      assert (spaces (fill - Z.of_nat (length (sign_text sign))) = spaces size) as Es.
      { unfold spaces, size, sign_text. destruct (sign =? 0); simpl; [by rewrite Z.sub_0_r|].
        destruct (Z.ltb_spec 0 fill); [done|]. f_equal. lia. }
      rewrite Es in *.
      erewrite bind_Ok by (erewrite bind_Ok by (apply run_emits; unfold rounds, spaces in *; rewrite !length_app in *; lia); reflexivity).
      change (replicate (rounds size) 32) with (spaces size). erewrite bind_Ok by (apply run_sign; unfold spaces in *; rewrite !length_app in *; lia).
      set (size' := if in_buffer _ then _ else _).
      assert (size' < 0) as Hneg by (unfold size', after; destruct (in_buffer _); lia).
      erewrite bind_Ok by (erewrite bind_Ok by (apply run_emits; unfold rounds; replace (Z.to_nat size') with 0%nat by lia; simpl; rewrite app_nil_r; unfold spaces in *; rewrite !length_app in *; lia); reflexivity).
      change (replicate (rounds size') 32) with (spaces size'). rewrite (spaces_none size'), app_nil_r by lia.
      rewrite run_digits; replace (spaces (after size')) with (@nil Z)
        by (symmetry; apply spaces_none; unfold after; lia); rewrite app_nil_r, <- !app_assoc in *; done.
Qed.

Lemma run_print_char text d n :
  Z.of_nat (length (text ++ char_text d n)) <= L -> print_char e d n (wrote text) = Ok tt (wrote (text ++ char_text d n)).
Proof.
  unfold print_char, char_text. destruct (has (dir_flags d) LEFT); simpl; intros Hl.
  - erewrite bind_Ok by reflexivity. rewrite length_app in Hl. simpl in Hl.
    erewrite bind_Ok by (apply run_emit; lia). rewrite run_spaces; [by rewrite <- app_assoc|].
    rewrite !length_app. simpl. lia.
  - rewrite !length_app in Hl. simpl in Hl.
    erewrite bind_Ok by (apply run_spaces; rewrite length_app; lia).
    erewrite bind_Ok by (apply run_emit; rewrite length_app; lia).
    pose proof (spaces_none (Z.min (dir_width d - 1) 0 - 1) ltac:(lia)) as Hn.
    rewrite run_spaces, Hn, app_nil_r, <- app_assoc; [done|]. rewrite Hn, app_nil_r, !length_app. simpl. lia.
Qed.

Lemma run_print_string text d s :
  Z.of_nat (length (text ++ string_text d s)) <= L ->
  print_string e d s (wrote text) = Ok tt (wrote (text ++ string_text d s)).
Proof.
  unfold print_string, string_text. set (len := string_length d s). set (t := take (Z.to_nat len) s).
  destruct (has (dir_flags d) LEFT); simpl; intros Hl.
  - erewrite bind_Ok by reflexivity. rewrite !length_app in Hl.
    erewrite bind_Ok by (apply run_emit_list; rewrite length_app; lia). rewrite run_spaces, <- app_assoc; [done|].
    rewrite !length_app. lia.
  - rewrite !length_app in Hl.
    erewrite bind_Ok by (apply run_spaces; rewrite length_app; lia).
    erewrite bind_Ok by (apply run_emit_list; rewrite !length_app; lia).
    pose proof (spaces_none (Z.min (dir_width d) len - 1 - len) ltac:(lia)) as Hn.
    rewrite run_spaces, Hn, app_nil_r, <- app_assoc; [done|]. rewrite Hn, app_nil_r, !length_app. lia.
Qed.

Lemma run_print_directive text d t args :
  directive_text in_buffer text d = Some (t, args) -> Z.of_nat (length (text ++ t)) <= L ->
  print_directive e d (wrote text) = Ok args (wrote (text ++ t)).
Proof.
  unfold directive_text, print_directive. set (c := at_ (dir_fmt d)).
  destruct (c =? 99).
  { intros (a & Ha & [= <- <-])%bind_Some Hl. unfold deref at 1. rewrite Ha. erewrite bind_Ok by reflexivity.
    by run_step (run_print_char text d a.1 Hl). }
  destruct (c =? 115).
  { destruct (dir_args d) as [|[n|s] args']; try done. intros [= <- <-] Hl.
    by run_step (run_print_string text d (default null_text s) Hl). }
  destruct (c =? 112).
  { intros (a & Ha & (t' & Ht & [= <- <-])%bind_Some)%bind_Some Hl. unfold deref at 1. rewrite Ha.
    erewrite bind_Ok by reflexivity. destruct (dir_width d =? -1); by run_step (run_print_number _ _ _ _ _ _ _ Ht Hl). }
  destruct (c =? 37).
  { intros [= <- <-] Hl. rewrite length_app in Hl. simpl in Hl. by run_step (run_emit text 37 ltac:(lia)). }
  destruct (integer_conversion c (dir_flags d)) as [[base flags]|].
  { intros (a & Ha & (t' & Ht & [= <- <-])%bind_Some)%bind_Some Hl. unfold deref at 1. rewrite Ha.
    erewrite bind_Ok by reflexivity. by run_step (run_print_number _ _ _ _ _ _ _ Ht Hl). }
  intros [= <- <-] Hl. rewrite length_app in Hl. simpl in Hl. run_step (run_emit text 37 ltac:(lia)).
  destruct (c =? 0); simpl in *; [by erewrite bind_Ok by reflexivity|].
  erewrite bind_Ok by (apply run_emit; rewrite length_app; simpl; lia). by rewrite <- app_assoc.
Qed.

Lemma render_prefix fuel : forall room acc fmt args text, render fuel room acc fmt args = Some text -> acc `prefix_of` text.
Proof.
  induction fuel as [|fuel IH]; intros room acc fmt args text; simpl; destruct (at_ fmt =? 0); try (by intros [= <-]); try done.
  destruct (negb _).
  - intros H%IH. etrans; [|exact H]. by apply prefix_app_r.
  - intros (d & _ & ([t args'] & _ & H)%bind_Some)%bind_Some. apply IH in H. etrans; [|exact H]. by apply prefix_app_r.
Qed.

Lemma run_vsn_loop fuel : forall text fmt args text',
  render fuel in_buffer text fmt args = Some text' -> Z.of_nat (length text') <= L ->
  vsn_loop fuel e fmt args (wrote text) = Ok tt (wrote text').
Proof.
  induction fuel as [|fuel IH]; intros text fmt args text' H Hl; simpl in *; destruct (at_ fmt =? 0); try done.
  1,2: by injection H as <-.
  destruct (negb _).
  - pose proof (prefix_length _ _ (render_prefix _ _ _ _ _ _ H)) as Hp. rewrite length_app in Hp. simpl in Hp.
    run_step (run_emit text (at_ fmt) ltac:(lia)). by apply IH.
  - apply bind_Some in H as (d & Hd & ([t args'] & Ht & H)%bind_Some). simpl in H.
    pose proof (prefix_length _ _ (render_prefix _ _ _ _ _ _ H)) as Hp.
    unfold deref at 1. rewrite Hd. erewrite bind_Ok by reflexivity.
    run_step (run_print_directive _ _ _ _ Ht ltac:(lia)). by apply IH.
Qed.
End writing.

(** ** What is read of a format is taken off its front *)

Lemma process_flags_suffix fmt : forall flags, (process_flags flags fmt).2 `suffix_of` fmt.
Proof. induction fmt as [|c r IH]; intros flags; simpl; [done|]. destruct (_ =? 0); [done|]. apply suffix_cons_r, IH. Qed.

Lemma skip_atoi_suffix s : forall i r, skip_atoi i s = Some r -> r.2 `suffix_of` s.
Proof.
  induction s as [|c s IH]; intros i r; simpl; [by intros [= <-]|]. destruct (isdigit c); [|by intros [= <-]].
  destruct (_ <? _); [|done]. intros H%IH. by apply suffix_cons_r.
Qed.

Lemma suffix_drop_1 (l : list Z) : drop 1 l `suffix_of` l.
Proof. exists (take 1 l). by rewrite take_drop. Qed.

Lemma field_width_suffix flags fmt args r : field_width flags fmt args = Some r -> r.1.2 `suffix_of` fmt.
Proof.
  unfold field_width. destruct (isdigit _).
  - intros (x & Hx%skip_atoi_suffix & [= <-])%bind_Some. done.
  - destruct (_ =? 42); [|by intros [= <-]]. intros (x & _ & H1)%bind_Some. destruct (_ <? 0); [destruct (_ =? _); [done|]|];
      injection H1 as <-; apply suffix_drop_1.
Qed.

Lemma get_precision_suffix fmt args r : get_precision fmt args = Some r -> r.1.2 `suffix_of` fmt.
Proof.
  unfold get_precision. destruct (_ =? 46); [|by intros [= <-]]. intros H. etrans; [|apply suffix_drop_1]. revert H. destruct (isdigit _).
  - intros (x & Hx%skip_atoi_suffix & [= <-])%bind_Some. done.
  - destruct (_ =? 42); [intros (x & _ & [= <-])%bind_Some; apply suffix_drop_1|by intros [= <-]].
Qed.

Lemma next_fmt_suffix fmt args d : parse_directive fmt args = Some d -> next_fmt d `suffix_of` fmt.
Proof.
  unfold parse_directive. pose proof (process_flags_suffix fmt 0) as H1. destruct (process_flags 0 fmt) as [flags f1].
  intros ([[[fl w] f2] a2] & H2%field_width_suffix & ([[pr f3] a3] & H3%get_precision_suffix & H)%bind_Some)%bind_Some.
  simpl in *. assert (dir_fmt d `suffix_of` fmt) as Hd.
  { rewrite <- H1, <- H2, <- H3. destruct (_ || _); injection H as <-; [apply suffix_drop_1|done]. }
  unfold next_fmt. destruct (_ =? 0); [done|]. by rewrite <- Hd; apply suffix_drop_1.
Qed.

(** The percent signs of a format. *)
Definition percents (fmt : list Z) : nat := length (filter (fun c => c = 37) fmt).

Lemma percents_suffix a b : a `suffix_of` b -> (percents a <= percents b)%nat.
Proof. intros [k ->]. unfold percents. rewrite filter_app, length_app. lia. Qed.

Lemma percents_directive fmt args d :
  at_ fmt = 37 -> parse_directive (drop 1 fmt) args = Some d -> (S (percents (next_fmt d)) <= percents fmt)%nat.
Proof.
  intros H Hd%next_fmt_suffix%percents_suffix. destruct fmt as [|c r]; [done|]. unfold at_ in H. simpl in H. subst c.
  cbn [drop] in Hd. rewrite drop_0 in Hd. unfold percents in *. rewrite filter_cons_True by done. simpl. lia.
Qed.

(** ** The buffer cuts the text off

    A sign behind the end of the buffer is not taken off the padding, so the
    text that the code counts can be longer than the one it means, but only
    behind the end. *)

Definition anywhere (acc : list Z) : bool := true.

Lemma padded_rooms room a b left zero sg digits fill :
  (length sg <= 1)%nat ->
  (room a = true -> padded room a left zero sg digits fill = padded anywhere b left zero sg digits fill) /\
  (length (padded anywhere b left zero sg digits fill) <= length (padded room a left zero sg digits fill)
   <= length (padded anywhere b left zero sg digits fill) + 1)%nat.
Proof.
  intros Hs. unfold padded, anywhere. split; [by intros ->|].
  assert (forall c : Z, length (replicate (Z.to_nat (fill - Z.of_nat (length sg))) c) <= length (replicate (Z.to_nat fill) c) <=
    length (replicate (Z.to_nat (fill - Z.of_nat (length sg))) c) + 1)%nat as Hl
    by (intros c; rewrite !length_replicate; lia).
  pose proof (Hl 32). pose proof (Hl 48). unfold spaces, zeros.
  destruct left, zero, (room a); rewrite !length_app; lia.
Qed.

Lemma number_rooms room a b num base width precision flags t :
  number_text anywhere b num base width precision flags = Some t ->
  exists t', number_text room a num base width precision flags = Some t' /\ (room a = true -> t' = t) /\
    (length t <= length t' <= length t + 1)%nat.
Proof.
  unfold number_text. destruct (get_sign flags num) as [sign n]. intros (tmp & -> & [= <-])%bind_Some. simpl.
  eexists. split; [reflexivity|]. apply padded_rooms. unfold sign_text. destruct (sign =? 0); simpl; lia.
Qed.

Lemma directive_rooms room a b d t args :
  directive_text anywhere b d = Some (t, args) ->
  exists t', directive_text room a d = Some (t', args) /\ (room a = true -> t' = t) /\ (length t <= length t' <= length t + 1)%nat.
Proof.
  unfold directive_text. set (c := at_ (dir_fmt d)).
  destruct (c =? 99); [intros H; exists t; split; [done|]; split; [done|lia]|].
  destruct (c =? 115); [intros H; exists t; split; [done|]; split; [done|lia]|].
  destruct (c =? 112).
  { intros (x & -> & (t0 & Ht & [= <- <-])%bind_Some)%bind_Some. simpl.
    destruct (dir_width d =? -1); destruct (number_rooms room a b _ _ _ _ _ _ Ht) as (t' & -> & H); by exists t'. }
  destruct (c =? 37); [intros H; exists t; split; [done|]; split; [done|lia]|].
  destruct (integer_conversion c (dir_flags d)) as [[base flags]|].
  { intros (x & -> & (t0 & Ht & [= <- <-])%bind_Some)%bind_Some. simpl.
    destruct (number_rooms room a b _ _ _ _ _ _ Ht) as (t' & -> & H); by exists t'. }
  intros H; exists t; split; [done|]; split; [done|lia].
Qed.

(** Two texts that agree as far as the buffer goes. *)
Definition same_upto (n : nat) (a b : list Z) : Prop :=
  a = b \/ (n <= length a /\ n <= length b)%nat /\ take n a = take n b.

Lemma same_upto_app n a b t t' :
  same_upto n a b -> ((length a <? n)%nat = true -> t' = t) -> same_upto n (a ++ t') (b ++ t).
Proof.
  intros H Ht. destruct (Nat.ltb_spec (length a) n) as [Hlt|Hge].
  - rewrite Ht by done. destruct H as [->|[[? ?] _]]; [by left|lia].
  - right. rewrite !length_app. assert (n <= length b)%nat by (destruct H as [->|[[? ?] _]]; lia).
    rewrite !take_app_le by lia. split; [lia|]. by destruct H as [->|[_ H]].
Qed.

Lemma render_rooms n fuel : forall a b fmt args text,
  same_upto n a b -> render fuel anywhere b fmt args = Some text ->
  exists text', render fuel (fun t => (length t <? n)%nat) a fmt args = Some text' /\ same_upto n text' text /\
    (length text + length a <= length text' + length b <= length text + length a + percents fmt)%nat.
Proof.
  induction fuel as [|fuel IH]; intros a b fmt args text S; simpl; destruct (at_ fmt =? 0); try done.
  1,2: intros [= <-]; exists a; split; [done|]; split; [done|lia].
  destruct (Z.eqb_spec (at_ fmt) 37) as [Hpct|]; simpl.
  2: { intros H. destruct (IH (a ++ [at_ fmt]) (b ++ [at_ fmt]) _ _ _ (same_upto_app n a b _ _ S (fun _ => eq_refl)) H)
      as (text' & E & Hs & Hl).
    pose proof (percents_suffix _ _ (suffix_drop_1 fmt)). exists text'. split; [done|]. split; [done|]. rewrite !length_app in Hl. simpl in Hl. lia. }
  intros (d & Ed & ([t args'] & Ht & H)%bind_Some)%bind_Some. pose proof (percents_directive _ _ _ Hpct Ed). rewrite Ed. simpl in *.
  destruct (directive_rooms (fun t => (length t <? n)%nat) a b d t args' Ht) as (t' & -> & Heq & Hlen). simpl.
  destruct (IH (a ++ t') (b ++ t) _ _ _ (same_upto_app n a b _ _ S Heq) H) as (text' & E & Hs & Hl).
  exists text'. split; [done|]. split; [done|]. rewrite !length_app in Hl. lia.
Qed.

(** ** rt_vsnprintf *)

(** The bytes that a buffer of [n] cells holds in the end. *)
Definition cut (n : nat) (text : list Z) : list Z := (u8 <$> take (n - 1) text) ++ [0].

Lemma set_bytes_last a l x y m : set_bytes a (l ++ [x]) m = <[a + Z.of_nat (length l) := x]> (set_bytes a (l ++ [y]) m).
Proof. rewrite !set_bytes_app. simpl. by rewrite insert_insert_eq. Qed.

Lemma run_vsnprintf_end buf size fmt args m text :
  let e := end_of buf size in
  let n := Z.to_nat (e - buf + 1) in
  0 <= buf <= e -> format_text fmt args = Some text ->
  buf + Z.of_nat (length text + percents fmt) < 2 ^ 31 ->
  mapped m buf (Z.min (e - buf + 1) (Z.of_nat (length text + percents fmt) + 1)) ->
  exists r, rt_vsnprintf buf size fmt args m = Ok r (set_bytes buf (cut n text) m) /\
    (if decide (length text < n)%nat then r = Z.of_nat (length text)
     else Z.of_nat (length text) <= r <= Z.of_nat (length text + percents fmt)) /\ r < 2 ^ 31.
Proof.
  intros e n Hb Ht HL Hm. assert (Z.of_nat n = e - buf + 1) as Hn by (unfold n; lia).
  set (L := Z.of_nat (length text + percents fmt)) in *.
  destruct (render_rooms n (length fmt) [] [] fmt args text (or_introl eq_refl) Ht) as (text' & E & Hsame & Hl). simpl in Hl.
  assert (Z.of_nat (length text') <= L) as HLt by (unfold L; lia). assert (0 <= L) as HL0 by (unfold L; lia). clearbody L.
  pose proof (run_vsn_loop buf e Hb m L ltac:(lia) Hm (length fmt) [] fmt args text' E ltac:(lia)) as Hr.
  unfold wrote at 1 in Hr. rewrite take_nil in Hr. simpl in Hr. rewrite Z.add_0_r in Hr.
  unfold rt_vsnprintf. unfold get at 1. erewrite bind_Ok by reflexivity. fold e. rewrite Hr. unfold wrote.
  unfold put at 1. erewrite bind_Ok by reflexivity. rewrite (in_buffer_spec buf e Hb). unfold in_buffer.
  change (cells buf e) with n.
  assert (s32 (buf + Z.of_nat (length text') - buf) = Z.of_nat (length text')) as -> by (rewrite s32_small; lia).
  assert (take (n - 1) text' = take (n - 1) text) as Et.
  { destruct Hsame as [->|[_ S]]; [done|]. apply (f_equal (take (n - 1))) in S. rewrite !take_take in S.
    by replace ((n - 1) `min` n)%nat with (n - 1)%nat in S by lia. }
  exists (Z.of_nat (length text')).
  assert (forall i, 0 <= i < Z.min (e - buf + 1) (L + 1) -> is_Some (set_bytes buf (u8 <$> take n text') m !! (buf + i))) as Hs
    by exact (mapped_set_bytes _ _ _ _ _ Hm).
  split.
  - unfold cut. rewrite <- Et. destruct (Nat.ltb_spec (length text') n) as [Hlt|Hge].
    + rewrite (bind_Ok _ _ _ _ _ (run_store8 _ _ _ (Hs (Z.of_nat (length text')) ltac:(lia)))).
      rewrite !take_ge by lia. by rewrite set_bytes_app, length_fmap.
    + replace e with (buf + (e - buf)) by lia.
      rewrite (bind_Ok _ _ _ _ _ (run_store8 _ _ _ (Hs (e - buf) ltac:(lia)))).
      destruct n as [|n'] eqn:En; [lia|]. replace (S n' - 1)%nat with n' by lia.
      destruct (lookup_lt_is_Some_2 text' n') as [y Hy]; [lia|]. rewrite (take_S_r _ _ _ Hy), fmap_app.
      rewrite (set_bytes_last _ _ 0 (u8 y)), length_fmap, length_take.
      by replace (Z.of_nat (n' `min` length text')) with (e - buf) by lia.
  - split; [|lia]. destruct Hsame as [->|[[H1 H2] _]]; case_decide; lia.
Qed.

Lemma cut_length n text : (0 < n)%nat -> (length (cut n text) <= n)%nat.
Proof. intros Hn. unfold cut. rewrite length_app, length_fmap, length_take. simpl. lia. Qed.

Lemma end_of_size buf size : 0 <= buf -> 0 < size -> buf + size <= 2 ^ 32 -> end_of buf size = buf + size - 1.
Proof.
  intros Hb Hs Hf. unfold end_of. rewrite u32_small by lia. destruct (Z.ltb_spec (buf + size - 1) buf); lia.
Qed.

(** A buffer of [size] bytes, on the text that the directives of the format give. *)
Lemma run_vsnprintf buf size fmt args m text :
  0 <= buf -> 0 < size -> buf + size <= 2 ^ 32 -> mapped m buf size ->
  format_text fmt args = Some text -> buf + Z.of_nat (length text + percents fmt) < 2 ^ 31 ->
  exists r m', rt_vsnprintf buf size fmt args m = Ok r m' /\
    holds m' buf (cut (Z.to_nat size) text) /\
    (forall a, a < buf \/ buf + size <= a -> m' !! a = m !! a) /\
    (Z.of_nat (length text) < size -> r = Z.of_nat (length text)) /\
    Z.of_nat (length text) <= r <= Z.of_nat (length text + percents fmt).
Proof.
  intros Hb Hs Hf Hm Ht HL. pose proof (end_of_size buf size Hb Hs Hf) as He.
  destruct (run_vsnprintf_end buf size fmt args m text) as (r & E & Hr & _); rewrite ?He; [lia|done|done| |].
  - apply (mapped_le _ _ size); [done|lia].
  - rewrite He in E, Hr. replace (buf + size - 1 - buf + 1) with size in E, Hr by lia.
    exists r, (set_bytes buf (cut (Z.to_nat size) text) m). split; [done|]. split; [apply set_bytes_holds|].
    pose proof (cut_length (Z.to_nat size) text ltac:(lia)). split.
    + intros a Ha. rewrite lookup_set_bytes, decide_False by lia. done.
    + case_decide; split; lia.
Qed.

(** A size of 0 is no bound at all: [end] becomes the last address, and the
    whole text is written. *)
Theorem vsnprintf_size_zero buf fmt args m text :
  0 < buf -> format_text fmt args = Some text -> buf + Z.of_nat (length text + percents fmt) < 2 ^ 31 ->
  mapped m buf (Z.of_nat (length text + percents fmt) + 1) ->
  rt_vsnprintf buf 0 fmt args m = Ok (Z.of_nat (length text)) (set_bytes buf ((u8 <$> text) ++ [0]) m).
Proof.
  intros Hb Ht HL Hm. assert (end_of buf 0 = 2 ^ 32 - 1) as He.
  { unfold end_of. rewrite u32_small by lia. destruct (Z.ltb_spec (buf + 0 - 1) buf); lia. }
  destruct (run_vsnprintf_end buf 0 fmt args m text) as (r & E & Hr & _); rewrite ?He; [lia|done|done| |].
  - apply (mapped_le _ _ (Z.of_nat (length text + percents fmt) + 1)); [done|lia].
  - rewrite He in E, Hr. rewrite decide_True in Hr by lia. rewrite E, Hr. unfold cut. by rewrite take_ge by lia.
Qed.

(** [divide] knows the bases 10 and 16 only: an octal conversion prints the
    hexadecimal digits. *)
Theorem octal_prints_hexadecimal e num s precision type :
  print_number e num 8 s precision type = print_number e num 16 s precision type.
Proof.
  assert (forall fuel large n, digits_loop fuel large n 8 = digits_loop fuel large n 16) as H.
  { induction fuel as [|fuel IH]; intros large n; simpl; [done|]. by rewrite IH. }
  unfold print_number. destruct (get_sign _ num) as [sign n]. unfold number_digits. by rewrite H.
Qed.

(** ** The fuel *)

(** As much fuel as the format has characters is enough: more makes no
    difference, so the loop always ends by its own test. *)
Theorem render_fuel_enough room f1 : forall f2 acc fmt args,
  (length fmt <= f1)%nat -> (length fmt <= f2)%nat -> render f1 room acc fmt args = render f2 room acc fmt args.
Proof.
  assert (forall fmt, (at_ fmt =? 0) = false -> fmt ≠ []) as Hne by (intros fmt H ->; done).
  induction f1 as [|f1 IH]; intros [|f2] acc fmt args H1 H2; simpl; destruct (at_ fmt =? 0) eqn:E; try done.
  1,2: apply Hne in E; destruct fmt; [done|simpl in *; lia].
  apply Hne in E. assert (length (drop 1 fmt) < length fmt)%nat as Hd by (destruct fmt; [done|simpl; rewrite drop_0; lia]).
  destruct (negb _); [apply IH; lia|]. destruct (parse_directive (drop 1 fmt) args) as [d|] eqn:Ed; simpl; [|done].
  apply next_fmt_suffix, suffix_length in Ed. destruct (directive_text room acc d) as [[t args']|]; simpl; [|done].
  apply IH; lia.
Qed.

(** ** Printing and reading *)

(** The value of decimal digits, most significant first, behind [i]. *)
Definition read_digits (i : Z) (s : list Z) : Z := foldl (fun i c => i * 10 + c - 48) i s.
Definition decimal (c : Z) : Prop := 48 <= c < 58.

Lemma read_digits_mono s : forall i, 0 <= i -> Forall decimal s -> i <= read_digits i s.
Proof.
  induction s as [|c s IH]; intros i Hi Hs; simpl; [done|]. apply Forall_cons in Hs as [Hc Hs]. unfold decimal in Hc.
  etrans; [|apply IH; [lia|done]]. lia.
Qed.

Lemma skip_atoi_digits s : forall i,
  0 <= i -> Forall decimal s -> read_digits i s < 2 ^ 31 -> skip_atoi i s = Some (read_digits i s, []).
Proof.
  induction s as [|c s IH]; intros i Hi Hs Hr; simpl in *; [done|]. apply Forall_cons in Hs as [Hc Hs]. unfold decimal in Hc.
  assert (isdigit c = true) as ->. { unfold isdigit. rewrite u32_small by lia. apply Z.ltb_lt. lia. }
  pose proof (read_digits_mono s (i * 10 + c - 48) ltac:(lia) Hs) as Hm. fold (read_digits (i * 10 + c - 48) s) in *.
  rewrite (proj2 (Z.ltb_lt _ _)) by lia. apply IH; [lia|done|done].
Qed.

Lemma digits_loop_decimal fuel : forall large num l, digits_loop fuel large num 10 = Some l -> Forall decimal l.
Proof.
  induction fuel as [|fuel IH]; intros large num l; simpl; destruct (num =? 0); try (by intros [= <-]).
  intros (l' & Hl & [= <-])%bind_Some. constructor; [|by eapply IH].
  pose proof (Z.mod_pos_bound (u32 num) 10 ltac:(lia)). unfold digit_char, decimal.
  rewrite (proj2 (Z.ltb_lt _ _)) by lia. lia.
Qed.

Lemma read_rev_digits l : Forall decimal l -> read_digits 0 (rev l) = digits_value 10 (digit_value <$> l).
Proof.
  induction l as [|c l IH]; intros Hl; [done|]. apply Forall_cons in Hl as [Hc Hl]. unfold decimal in Hc.
  cbn [rev]. unfold read_digits. rewrite foldl_app. fold (read_digits 0 (rev l)). rewrite IH by done.
  rewrite fmap_cons. cbn [foldl digits_value]. unfold digit_value at 2. rewrite (proj2 (Z.ltb_lt c 58)) by lia. lia.
Qed.

Lemma number_text_plain n l :
  - 2 ^ 31 < n < 2 ^ 31 -> number_digits false (Z.abs n) 10 = Some l ->
  number_text anywhere [] n 10 (-1) (-1) SIGN = Some (if n <? 0 then 45 :: rev l else rev l).
Proof.
  intros Hn El. unfold number_text. change (has SIGN LARGE) with false.
  assert (get_sign SIGN n = (if n <? 0 then 45 else 0, Z.abs n)) as ->.
  { unfold get_sign. change (has SIGN SIGN) with true. change (has SIGN PLUS) with false. change (has SIGN SPACE) with false.
    cbn iota. destruct (Z.ltb_spec n 0); [rewrite s32_small by lia|]; f_equal; lia. }
  rewrite El. cbn [mbind option_bind]. unfold padded. change (has SIGN LEFT) with false. change (has SIGN ZEROPAD) with false.
  cbn iota. rewrite spaces_none by lia. unfold zeros. replace (Z.to_nat (-1 - Z.of_nat (length l))) with 0%nat by lia.
  by destruct (n <? 0).
Qed.

(** The text of [%d] is the number: read back by [skip_atoi], the function
    that reads widths, it gives the printed value again, behind a minus sign
    for a negative one. *)
Theorem decimal_roundtrip n :
  - 2 ^ 31 < n < 2 ^ 31 ->
  exists digits, format_text [37; 100] [VInt n] = Some (if n <? 0 then 45 :: digits else digits) /\
    digits ≠ [] /\ skip_atoi 0 digits = Some (Z.abs n, []).
Proof.
  intros Hn. assert (s32 n = n) as Es by (rewrite s32_small; lia).
  destruct (number_digits_value false (Z.abs n) 10) as (l & El & Hv & Hl & _); [lia|].
  rewrite u32_small in Hv by lia. change (radix 10) with 10 in Hv.
  assert (Forall decimal l) as Hd.
  { unfold number_digits in El. destruct (_ =? 0); [injection El as <-; by repeat constructor|by eapply digits_loop_decimal]. }
  exists (rev l). split; [|split].
  - unfold format_text. cbn [length render at_ head default]. change (37 =? 0) with false.
    change (negb (37 =? 37)) with false. cbn iota.
    change (parse_directive (drop 1 [37; 100]) [VInt n]) with (Some (mk_dir 0 (-1) (-1) 0 [100] [VInt n])). cbn [mbind option_bind].
    assert (directive_text anywhere [] (mk_dir 0 (-1) (-1) 0 [100] [VInt n])
      = Some (if n <? 0 then 45 :: rev l else rev l, [])) as Ht; [|unfold anywhere in Ht; rewrite Ht; by destruct (n <? 0)].
    change (directive_text anywhere [] _) with
      (t ← number_text anywhere [] (s32 (s32 n)) 10 (-1) (-1) SIGN; Some (t, @nil va_arg)).
    rewrite !Es, (number_text_plain n l Hn El). done.
  - intros E. apply Hl. by rewrite <- (rev_involutive l), E.
  - rewrite skip_atoi_digits, read_rev_digits, Hv; [done|done|lia|by apply Forall_rev|]. rewrite read_rev_digits, Hv by done. lia.
Qed.

(** ** Witnesses *)

(** [x=%5d;%-4s|] with 42 and [ab]: 14 characters. *)
Definition demo_format : list Z := [120; 61; 37; 53; 100; 59; 37; 45; 52; 115; 124].
Definition demo_args : list va_arg := [VInt 42; VStr (Some [97; 98])].
Definition demo_line : list Z := [120; 61; 32; 32; 32; 52; 50; 59; 97; 98; 32; 32; 124].
Definition demo_buffer : memory := set_bytes 1000 (replicate 32 7) ∅.

Lemma demo_buffer_mapped : mapped demo_buffer 1000 32.
Proof. exact (holds_mapped _ _ _ (set_bytes_holds 1000 (replicate 32 7) ∅)). Qed.

Lemma vsnprintf_size_zero_witness :
  rt_vsnprintf 1000 0 demo_format demo_args demo_buffer = Ok 13 (set_bytes 1000 (demo_line ++ [0]) demo_buffer).
Proof.
  apply (vsnprintf_size_zero 1000 demo_format demo_args demo_buffer demo_line).
  - lia.
  - vm_compute. reflexivity.
  - vm_compute. reflexivity.
  - apply (mapped_le _ _ 32); [exact demo_buffer_mapped|vm_compute; discriminate].
Defined.

Lemma decimal_roundtrip_witness :
  exists digits, format_text [37; 100] [VInt (-42)] = Some (45 :: digits) /\ skip_atoi 0 digits = Some (42, []).
Proof.
  destruct (decimal_roundtrip (-42)) as (digits & E & _ & H); [lia|]. exists digits. split; [exact E|exact H].
Defined.
