(* ===== verification/Format.v ===== *)
(** * What a format means, and rt_vsnprintf of src/kservice.c against it

    A format is described as a list of literal characters and conversions; its text is
    defined from that description, with numerals, signs and padding in the usual
    mathematical terms and without the flags, the scanner and the loops of the code.
    [format_print] writes such a list down as the characters that the code gets.

    Where the code differs from printf of C, the description is that of the code: a
    precision of 0 limits no string and hides no digit, the flag 0 counts beside a
    precision, the flag # does nothing, and [%p] is padded to eight digits with zeros.
    [%o], which prints hexadecimal digits ([octal_prints_hexadecimal]), and characters that
    are no conversion have no place in it. *)

From S2P Require Import Prelude KString Printf.

(** ** Formats *)

Inductive flag := Minus | Plus | Blank | Hash | Zero.
#[global] Instance flag_eq_dec : EqDecision flag.
Proof. solve_decision. Defined.

(** A width or a precision: a number, or an asterisk for the next argument. *)
Inductive field := Num (n : Z) | Star.
Inductive qualifier := Half | Long.
Inductive conversion := Decimal | Integer | Unsigned | Hex | HexLarge | Pointer | Char | Text | Percent.
#[global] Instance conversion_eq_dec : EqDecision conversion.
Proof. solve_decision. Defined.
Record spec := mk_spec { sp_flags : list flag; sp_width : option field; sp_precision : option field; sp_qualifier : option qualifier; sp_conversion : conversion }.
Inductive item := Literal (c : Z) | Conv (s : spec).

(** ** Numerals *)

Definition glyphs (large : bool) : list Z :=
  [48; 49; 50; 51; 52; 53; 54; 55; 56; 57] ++ (if large then [65; 66; 67; 68; 69; 70] else [97; 98; 99; 100; 101; 102]).
Definition glyph (large : bool) (d : Z) : Z := default 0 (glyphs large !! Z.to_nat d).

(** The digits of [n] in base [b], most significant first; ten of them are enough for
    every number below [2^32], in base 10 and above. *)
Fixpoint numeral_upto (k : nat) (large : bool) (b n : Z) : list Z :=
  match k with
  | O => []
  | S k => if n <? b then [glyph large n] else numeral_upto k large b (n / b) ++ [glyph large (n mod b)]
  end.
Definition numeral (large : bool) (b n : Z) : list Z := numeral_upto 10 large b n.

(** ** The characters of a format *)

Definition flag_char (f : flag) : Z := match f with Minus => 45 | Plus => 43 | Blank => 32 | Hash => 35 | Zero => 48 end.
Definition field_chars (f : field) : list Z := match f with Num n => numeral false 10 n | Star => [42] end.
Definition qualifier_char (q : qualifier) : Z := match q with Half => 104 | Long => 108 end.
Definition conversion_char (c : conversion) : Z :=
  match c with
  | Decimal => 100 | Integer => 105 | Unsigned => 117 | Hex => 120 | HexLarge => 88
  | Pointer => 112 | Char => 99 | Text => 115 | Percent => 37
  end.

Definition spec_print (s : spec) : list Z :=
  (flag_char <$> sp_flags s) ++ from_option field_chars [] (sp_width s) ++
  from_option (fun p => 46 :: field_chars p) [] (sp_precision s) ++
  from_option (fun q => [qualifier_char q]) [] (sp_qualifier s) ++ [conversion_char (sp_conversion s)].
Definition item_print (i : item) : list Z := match i with Literal c => [c] | Conv s => 37 :: spec_print s end.
Definition format_print (l : list item) : list Z := concat (item_print <$> l).

(** A literal is no percent sign and does not end the format; a number fits an [int], and
    a width does not begin with 0, which is a flag. *)
Definition item_ok (i : item) : Prop :=
  match i with
  | Literal c => c ≠ 0 /\ c ≠ 37
  | Conv s => match sp_width s with Some (Num n) => 0 < n < 2 ^ 31 | _ => True end /\
              match sp_precision s with Some (Num n) => 0 <= n < 2 ^ 31 | _ => True end
  end.

(** ** The text *)

(** [sign] and [body] in a field of [width] characters: spaces behind, zeros between, or
    spaces before. *)
Definition justify (minus zero : bool) (width : Z) (sign body : list Z) : list Z :=
  let fill := Z.to_nat (width - Z.of_nat (length (sign ++ body))) in
  if minus then sign ++ body ++ replicate fill 32
  else if zero then sign ++ replicate fill 48 ++ body
  else replicate fill 32 ++ sign ++ body.

(** At least [precision] digits. *)
Definition at_least (precision : option Z) (digits : list Z) : list Z :=
  match precision with None => digits | Some p => replicate (Z.to_nat p - length digits) 48 ++ digits end.

Definition sign_of (s : spec) (v : Z) : list Z :=
  if v <? 0 then [45] else if bool_decide (Plus ∈ sp_flags s) then [43] else if bool_decide (Blank ∈ sp_flags s) then [32] else [].

(** The sign and the digits of a number: an argument is a 32-bit word, and [h] takes its
    low half. *)
Definition signed_value (s : spec) (n : Z) : Z := match sp_qualifier s with Some Half => s16 n | _ => s32 n end.
Definition unsigned_value (s : spec) (n : Z) : Z := match sp_qualifier s with Some Half => u16 n | _ => u32 n end.
Definition number_parts (s : spec) (n : Z) : list Z * list Z :=
  match sp_conversion s with
  | Unsigned => ([], numeral false 10 (unsigned_value s n))
  | Hex => ([], numeral false 16 (unsigned_value s n))
  | HexLarge => ([], numeral true 16 (unsigned_value s n))
  | Pointer => ([], numeral false 16 (u32 n))
  | _ => (sign_of s (signed_value s n), numeral false 10 (Z.abs (signed_value s n)))
  end.

(** The value of a field, and the arguments left. *)
Definition field_value (f : option field) (args : list va_arg) : option (option Z * list va_arg) :=
  match f, args with
  | None, _ => Some (None, args)
  | Some (Num n), _ => Some (Some n, args)
  | Some Star, VInt n :: args => Some (Some (s32 n), args)
  | Some Star, _ => None
  end.

(** A negative width from the arguments is one to the left; the one that has no opposite
    is undefined.  A negative precision is 0. *)
Definition spec_text (s : spec) (args : list va_arg) : option (list Z * list va_arg) :=
  w ← field_value (sp_width s) args;
  p ← field_value (sp_precision s) w.2;
  let minus := bool_decide (Minus ∈ sp_flags s) || (default 0 w.1 <? 0) in
  let zero := bool_decide (Zero ∈ sp_flags s) || (bool_decide (sp_conversion s = Pointer) && bool_decide (w.1 = None)) in
  let width := Z.abs (default (match sp_conversion s with Pointer => 8 | _ => 0 end) w.1) in
  let precision := Z.max 0 <$> p.1 in
  if default 0 w.1 =? - 2 ^ 31 then None
  else
    match sp_conversion s, p.2 with
    | Percent, args => Some ([37], args)
    | Char, VInt n :: args => Some (justify minus false width [] [u8 n], args)
    | Text, VStr t :: args =>
        let t := default null_text t in
        Some (justify minus false width [] (if default 0 precision =? 0 then t else take (Z.to_nat (default 0 precision)) t), args)
    | Char, _ | Text, _ => None
    | _, VInt n :: args =>
        let '(sign, digits) := number_parts s n in
        Some (justify minus zero width sign (at_least precision digits), args)
    | _, _ => None
    end.

Fixpoint meaning (l : list item) (args : list va_arg) : option (list Z) :=
  match l with
  | [] => Some []
  | Literal c :: l => cons c <$> meaning l args
  | Conv s :: l => t ← spec_text s args; app t.1 <$> meaning l t.2
  end.

(** ** The numerals of the code *)

Lemma glyph_char large d : 0 <= d < 16 -> glyph large d = digit_char large d.
Proof.
  intros Hd. assert (Forall (fun d => glyph large d = digit_char large d) (seqZ 0 16)) as H by (destruct large; by repeat constructor).
  rewrite Forall_forall in H. apply H, elem_of_seqZ. lia.
Qed.

Lemma numeral_loop k : forall fuel large base n l,
  0 < n < 10 ^ Z.of_nat k -> n < 2 ^ 32 -> digits_loop fuel large n base = Some l -> numeral_upto k large (radix base) n = rev l.
Proof.
  induction k as [|k IH]; intros fuel large base n l Hn Hu; [simpl in Hn; lia|]. pose proof (radix_range base) as Hr.
  destruct fuel as [|fuel]; cbn [digits_loop]; rewrite (proj2 (Z.eqb_neq n 0)) by lia; [done|].
  rewrite divide_radix, u32_small by lia. intros (l' & Hl & [= <-])%bind_Some. cbn [rev numeral_upto].
  pose proof (Z.mod_pos_bound n (radix base) ltac:(lia)). pose proof (Z.div_mod n (radix base) ltac:(lia)).
  destruct (Z.ltb_spec n (radix base)) as [Hlt|Hge].
  - rewrite Z.div_small in Hl by lia. assert (l' = []) as -> by (destruct fuel; by injection Hl). rewrite glyph_char, Z.mod_small by lia. done.
  - rewrite (IH fuel large base _ l'), glyph_char by (lia || nia || done || (rewrite Nat2Z.inj_succ, Z.pow_succ_r in Hn by lia; nia)). done.
Qed.

Lemma number_numeral large num base :
  - 2 ^ 31 <= num < 2 ^ 31 -> number_digits large num base = Some (rev (numeral large (radix base) (u32 num))).
Proof.
  intros Hn. destruct (number_digits_value large num base Hn) as (l & E & _). rewrite E. f_equal. unfold number_digits in E.
  destruct (Z.eqb_spec num 0) as [->|Hne].
  - injection E as <-. pose proof (radix_range base) as Hr. unfold numeral. cbn [numeral_upto]. by rewrite (proj2 (Z.ltb_lt _ _)) by (change (u32 0) with 0; lia).
  - assert (0 < u32 num < 2 ^ 32) as Hu.
    { pose proof (u32_range num). split; [|lia]. unfold u32 in *. Z.to_euclidean_division_equations. lia. }
    unfold numeral. rewrite (numeral_loop 10 16 large base _ l); [symmetry; apply rev_involutive|simpl; lia|lia|].
    cbn [digits_loop] in *. rewrite (proj2 (Z.eqb_neq (u32 num) 0)) by lia. rewrite (proj2 (Z.eqb_neq num 0) Hne) in E.
    rewrite !divide_radix, (u32_small (u32 num)) in * by lia. exact E.
Qed.

(** Its decimals, read back by the code. *)
Lemma numeral_decimal k : forall n, 0 <= n < 10 ^ Z.of_nat (S k) ->
  Forall decimal (numeral_upto (S k) false 10 n) /\ read_digits 0 (numeral_upto (S k) false 10 n) = n.
Proof.
  induction k as [|k IH]; intros n Hn.
  - simpl in Hn. cbn [numeral_upto]. rewrite (proj2 (Z.ltb_lt _ _)) by lia. rewrite glyph_char by lia.
    unfold digit_char. rewrite (proj2 (Z.ltb_lt _ _)) by lia. split; [repeat constructor; unfold decimal; lia|]. simpl. lia.
  - pose proof (Z.mod_pos_bound n 10 ltac:(lia)). pose proof (Z.div_mod n 10 ltac:(lia)). set (k' := S k) in *. cbn [numeral_upto].
    destruct (Z.ltb_spec n 10).
    + rewrite glyph_char by lia. unfold digit_char. rewrite (proj2 (Z.ltb_lt _ _)) by lia. split; [repeat constructor; unfold decimal; lia|]. simpl. lia.
    + destruct (IH (n / 10)) as [D R]; [rewrite Nat2Z.inj_succ, Z.pow_succ_r in Hn by lia; nia|].
      rewrite glyph_char by lia. unfold digit_char. rewrite (proj2 (Z.ltb_lt _ _)) by lia. split.
      * apply Forall_app. split; [done|]. repeat constructor; unfold decimal; lia.
      * unfold read_digits in *. rewrite foldl_app, R. cbn [foldl]. lia.
Qed.

Lemma numeral_head k : forall n, 0 < n < 10 ^ Z.of_nat k -> exists c r, numeral_upto k false 10 n = c :: r /\ 48 < c < 58.
Proof.
  induction k as [|k IH]; intros n Hn; [simpl in Hn; lia|]. pose proof (Z.div_mod n 10 ltac:(lia)). pose proof (Z.mod_pos_bound n 10 ltac:(lia)).
  cbn [numeral_upto]. destruct (Z.ltb_spec n 10).
  - eexists _, []. split; [reflexivity|]. rewrite glyph_char by lia. unfold digit_char. rewrite (proj2 (Z.ltb_lt _ _)) by lia. lia.
  - destruct (IH (n / 10)) as (c & r & -> & Hc); [rewrite Nat2Z.inj_succ, Z.pow_succ_r in Hn by lia; nia|]. by eexists c, _.
Qed.

Lemma skip_atoi_rest s : forall i rest,
  0 <= i -> Forall decimal s -> read_digits i s < 2 ^ 31 -> isdigit (at_ rest) = false -> skip_atoi i (s ++ rest) = Some (read_digits i s, rest).
Proof.
  induction s as [|c s IH]; intros i rest Hi Hs Hr Hrest; simpl in *.
  - destruct rest as [|c rest]; [done|]. cbn in Hrest. cbn [skip_atoi]. by rewrite Hrest.
  - apply Forall_cons in Hs as [Hc Hs]. unfold decimal in Hc.
    assert (isdigit c = true) as ->. { unfold isdigit. rewrite u32_small by lia. apply Z.ltb_lt. lia. }
    pose proof (read_digits_mono s (i * 10 + c - 48) ltac:(lia) Hs) as Hm. fold (read_digits (i * 10 + c - 48) s) in *.
    rewrite (proj2 (Z.ltb_lt _ _)) by lia. apply IH; [lia|done|done|done].
Qed.

(** ** The scanner of the code reads a conversion back *)

Definition flag_bit (f : flag) : Z := match f with Minus => LEFT | Plus => PLUS | Blank => SPACE | Hash => SPECIAL | Zero => ZEROPAD end.
Definition flag_bits (fs : list flag) : Z := foldl (fun a f => Z.lor a (flag_bit f)) 0 fs.

Lemma process_flags_print fs rest : forall a, flag_of (at_ rest) = 0 ->
  process_flags a ((flag_char <$> fs) ++ rest) = (foldl (fun a f => Z.lor a (flag_bit f)) a fs, rest).
Proof.
  induction fs as [|f fs IH]; intros a Hr; simpl.
  - destruct rest as [|c rest]; [done|]. cbn in Hr. simpl. by rewrite Hr.
  - rewrite <- IH by done. by destruct f.
Qed.

Lemma has_or a b f : has (Z.lor a b) f = has a f || has b f.
Proof. unfold has. rewrite !(Z.land_comm _ f). apply has_lor. Qed.

Lemma has_flags_from b g fs : (forall f, has (flag_bit f) b = bool_decide (f = g)) ->
  forall a, has (foldl (fun a f => Z.lor a (flag_bit f)) a fs) b = has a b || bool_decide (g ∈ fs).
Proof.
  intros Hb. induction fs as [|f fs IH]; intros a; cbn [foldl]; [by rewrite bool_decide_false by (by intros ?%not_elem_of_nil); rewrite orb_false_r|].
  rewrite IH, has_or, Hb, <- orb_assoc. f_equal. repeat case_bool_decide; set_solver.
Qed.

Lemma has_flags fs g : has (flag_bits fs) (flag_bit g) = bool_decide (g ∈ fs).
Proof. unfold flag_bits. rewrite (has_flags_from _ g); [done|]. intros f. by destruct f, g. Qed.

Lemma has_no_flag fs b : (forall f, has (flag_bit f) b = false) -> has (flag_bits fs) b = false.
Proof.
  intros Hb. unfold flag_bits. assert (forall a, has (foldl (fun a f => Z.lor a (flag_bit f)) a fs) b = has a b) as H; [|by rewrite H].
  induction fs as [|f fs IH]; intros a; cbn [foldl]; [done|]. by rewrite IH, has_or, Hb, orb_false_r.
Qed.

(** What follows a width or a precision is neither a digit nor an asterisk. *)
Definition stops (rest : list Z) : Prop := isdigit (at_ rest) = false /\ (at_ rest =? 42) = false.

Lemma read_number n rest : 0 <= n < 2 ^ 31 -> isdigit (at_ rest) = false ->
  isdigit (at_ (numeral false 10 n ++ rest)) = true /\ skip_atoi 0 (numeral false 10 n ++ rest) = Some (n, rest).
Proof.
  intros Hn Hr. destruct (numeral_decimal 9 n) as [D R]; [simpl; lia|]. fold (numeral false 10 n) in D, R. split.
  - destruct (numeral false 10 n) as [|c l] eqn:E.
    + unfold numeral in E. cbn [numeral_upto] in E. destruct (n <? 10); [done|]. by apply app_nil in E as [_ ?].
    + apply Forall_cons in D as [Hc _]. unfold decimal in Hc. cbn. unfold isdigit. rewrite u32_small by lia. apply Z.ltb_lt. lia.
  - rewrite skip_atoi_rest, R by (lia || done). done.
Qed.

Lemma field_width_print w flags rest args :
  stops rest -> match w with Some (Num n) => 0 < n < 2 ^ 31 | _ => True end ->
  field_width flags (from_option field_chars [] w ++ rest) args =
    (v ← field_value w args;
     if default 0 v.1 =? - 2 ^ 31 then None
     else Some (if default 0 v.1 <? 0 then Z.lor flags LEFT else flags, from_option Z.abs (-1) v.1, rest, v.2)).
Proof.
  intros [Hd Hs] Hw. unfold field_width. destruct w as [[n|]|]; simpl.
  - destruct (read_number n rest) as [-> ->]; [lia|done|]. simpl. rewrite (proj2 (Z.eqb_neq _ _)) by lia.
    rewrite (proj2 (Z.ltb_ge _ _)), Z.abs_eq by lia. done.
  - change (isdigit (at_ (42 :: rest))) with false. change (at_ (42 :: rest) =? 42) with true. cbv iota.
    destruct args as [|[n|t] args]; simpl; try done. destruct (Z.ltb_spec (s32 n) 0).
    + destruct (_ =? _); [done|]. by rewrite Z.abs_neq by lia.
    + rewrite (proj2 (Z.eqb_neq _ _)), Z.abs_eq by lia. done.
  - by rewrite Hd, Hs.
Qed.

Lemma get_precision_print p rest args :
  stops rest -> (at_ rest =? 46) = false -> match p with Some (Num n) => 0 <= n < 2 ^ 31 | _ => True end ->
  get_precision (from_option (fun p => 46 :: field_chars p) [] p ++ rest) args =
    (v ← field_value p args; Some (from_option (Z.max 0) (-1) v.1, rest, v.2)).
Proof.
  intros [Hd Hs] Hdot Hp. unfold get_precision. destruct p as [[n|]|]; simpl.
  - change (at_ (46 :: numeral false 10 n ++ rest) =? 46) with true. cbv iota. rewrite drop_0.
    destruct (read_number n rest) as [-> ->]; [lia|done|]. simpl. by rewrite Z.max_r by lia.
  - change (at_ (46 :: 42 :: rest) =? 46) with true. cbn. destruct args as [|[n|t] args]; done.
  - by rewrite Hdot.
Qed.

(** Everything behind the percent sign, up to the conversion character. *)
Lemma parse_print s rest args :
  item_ok (Conv s) ->
  parse_directive (spec_print s ++ rest) args =
    (w ← field_value (sp_width s) args;
     p ← field_value (sp_precision s) w.2;
     if default 0 w.1 =? - 2 ^ 31 then None
     else Some (mk_dir (if default 0 w.1 <? 0 then Z.lor (flag_bits (sp_flags s)) LEFT else flag_bits (sp_flags s))
                  (from_option Z.abs (-1) w.1) (from_option (Z.max 0) (-1) p.1) (from_option qualifier_char 0 (sp_qualifier s))
                  (conversion_char (sp_conversion s) :: rest) p.2)).
Proof.
  intros [Hw Hp]. destruct s as [fs w p q c]. cbn [sp_flags sp_width sp_precision sp_qualifier sp_conversion] in *. unfold spec_print, parse_directive.
  cbn [sp_flags sp_width sp_precision sp_qualifier sp_conversion]. rewrite <- !app_assoc. cbn [app].
  set (T := from_option (fun q => [qualifier_char q]) [] q ++ conversion_char c :: rest).
  assert (stops T /\ (at_ T =? 46) = false /\ flag_of (at_ T) = 0) as (HT & HT46 & HTf) by (by destruct q as [[]|], c).
  assert (stops (from_option (fun p => 46 :: field_chars p) [] p ++ T) /\ flag_of (at_ (from_option (fun p => 46 :: field_chars p) [] p ++ T)) = 0)
    as [HP HPf] by (destruct p; [by split|done]).
  rewrite process_flags_print.
  2: { destruct w as [[n|]|]; [|done|done]. cbn [from_option field_chars]. destruct (numeral_head 10 n) as (x & r & E & Hx); [simpl; lia|].
    unfold numeral. rewrite E. cbn. unfold flag_of. by rewrite !(proj2 (Z.eqb_neq x _)) by lia. }
  fold (flag_bits fs). rewrite field_width_print by done. destruct (field_value w args) as [[vw aw]|]; [|done]. cbn [mbind option_bind fst snd].
  destruct (default 0 vw =? - 2 ^ 31); [by destruct (field_value p aw)|]. cbn [mbind option_bind]. rewrite get_precision_print by done.
  destruct (field_value p aw) as [[vp ap]|]; [|done]. cbn [mbind option_bind fst snd]. unfold T. by destruct q as [[]|], c.
Qed.

(** ** The text of the code is the meaning *)

(** Values as the code passes them to [print_number]. *)
Lemma s32_range z : - 2 ^ 31 <= s32 z < 2 ^ 31.
Proof. unfold s32. pose proof (Z.mod_pos_bound (z + 2 ^ 31) (2 ^ 32) ltac:(lia)). lia. Qed.

Lemma s16_range z : - 2 ^ 15 <= s16 z < 2 ^ 15.
Proof. unfold s16. pose proof (Z.mod_pos_bound (z + 2 ^ 15) (2 ^ 16) ltac:(lia)). lia. Qed.

Lemma u32_s32 z : u32 (s32 z) = u32 z.
Proof. unfold u32, s32. rewrite Zminus_mod_idemp_l. f_equal. lia. Qed.

Lemma u16_s32 z : u16 (s32 z) = u16 z.
Proof. unfold u16, s32. Z.to_euclidean_division_equations. lia. Qed.

Lemma u8_s32 z : u8 (s32 z) = u8 z.
Proof. unfold u8, s32. Z.to_euclidean_division_equations. lia. Qed.

Lemma s16_u16 z : s16 (u16 z) = s16 z.
Proof. unfold u16, s16. rewrite Zplus_mod_idemp_l. done. Qed.

Lemma s32_u32 z : - 2 ^ 31 <= z < 2 ^ 31 -> s32 (u32 z) = z.
Proof. intros Hz. unfold s32, u32. rewrite Zplus_mod_idemp_l. fold (s32 z). by apply s32_small. Qed.

Lemma numeral_nonempty large b n : numeral large b n ≠ [].
Proof. unfold numeral. cbn [numeral_upto]. destruct (n <? b); [done|]. by intros [_ ?]%app_nil. Qed.

Lemma justify_no_width minus zero sign body : justify minus zero (-1) sign body = justify minus zero 0 sign body.
Proof.
  unfold justify. set (n := length _). assert (Z.to_nat (-1 - Z.of_nat n) = 0%nat) as -> by lia.
  by assert (Z.to_nat (0 - Z.of_nat n) = 0%nat) as -> by lia.
Qed.

Definition sign_by (flags num : Z) : list Z :=
  if negb (has flags SIGN) then []
  else if num <? 0 then [45] else if has flags PLUS then [43] else if has flags SPACE then [32] else [].

Lemma number_text_justify acc num base width p flags :
  - 2 ^ 31 <= num < 2 ^ 31 ->
  number_text anywhere acc num base width (from_option (Z.max 0) (-1) p) flags =
    Some (justify (has flags LEFT) (has flags ZEROPAD) width (sign_by flags num)
            (at_least (Z.max 0 <$> p) (numeral (has flags LARGE) (radix base) (if has flags SIGN then Z.abs num else u32 num)))).
Proof.
  intros Hn. unfold number_text. set (digits := numeral _ _ _).
  assert (exists sign n, get_sign flags num = (sign, n) /\ sign_text sign = sign_by flags num /\ number_digits (has flags LARGE) n base = Some (rev digits)) as (sign & n & -> & -> & ->).
  { unfold get_sign, sign_by, digits. destruct (has flags SIGN); simpl; [|eexists _, _; split; [done|]; split; [done|by apply number_numeral]].
    destruct (Z.ltb_spec num 0).
    - eexists _, _. split; [done|]. split; [done|]. rewrite number_numeral, u32_s32, u32_small by (apply s32_range || lia). by rewrite Z.abs_neq by lia.
    - assert (number_digits (has flags LARGE) num base = Some (rev (numeral (has flags LARGE) (radix base) (Z.abs num)))) as Hd
        by (by rewrite number_numeral, u32_small, Z.abs_eq by lia).
      destruct (has flags PLUS); [by eexists _, _|]. destruct (has flags SPACE); by eexists _, _. }
  cbn [mbind option_bind]. rewrite rev_involutive, length_rev. f_equal. set (sg := sign_by flags num).
  assert (zeros (from_option (Z.max 0) (-1) p - Z.of_nat (length digits)) ++ digits = at_least (Z.max 0 <$> p) digits) as ->.
  { unfold at_least, zeros. destruct p as [p|]; simpl; [f_equal; f_equal; lia|]. by replace (Z.to_nat _) with 0%nat by lia. }
  assert (Z.max (from_option (Z.max 0) (-1) p) (Z.of_nat (length digits)) = Z.of_nat (length (at_least (Z.max 0 <$> p) digits))) as ->.
  { unfold at_least. destruct p as [p|]; simpl; [rewrite length_app, length_replicate|]; lia. }
  set (body := at_least _ _). unfold padded, anywhere, justify, spaces, zeros. rewrite length_app, Nat2Z.inj_add.
  replace (width - Z.of_nat (length body) - Z.of_nat (length sg)) with (width - (Z.of_nat (length sg) + Z.of_nat (length body))) by lia. done.
Qed.

Lemma char_justify d n : char_text d n = justify (has (dir_flags d) LEFT) false (dir_width d) [] [u8 n].
Proof. unfold char_text, justify, spaces. cbn [app length]. by destruct (has (dir_flags d) LEFT). Qed.

Lemma string_justify d t p :
  dir_precision d = from_option (Z.max 0) (-1) p ->
  string_text d t = justify (has (dir_flags d) LEFT) false (dir_width d) []
    (let q := default 0 (Z.max 0 <$> p) in if q =? 0 then t else take (Z.to_nat q) t).
Proof.
  intros Hp. cbv zeta. unfold string_text. set (body := if _ =? 0 then _ else _).
  assert (string_length d t = Z.of_nat (length body) /\ take (Z.to_nat (string_length d t)) t = body) as [-> ->].
  { unfold string_length, body. rewrite Hp. destruct p as [p|]; simpl; [|by rewrite Nat2Z.id, firstn_all].
    destruct (Z.eqb_spec (Z.max 0 p) 0) as [->|Hne]; simpl; [by rewrite Nat2Z.id, firstn_all|]. rewrite (proj2 (Z.ltb_lt 0 _)) by lia. cbn [andb].
    rewrite length_take. destruct (Z.ltb_spec (Z.max 0 p) (Z.of_nat (length t))); [split; [lia|done]|]. rewrite !Nat2Z.id, firstn_all, take_ge by lia. split; [lia|done]. }
  unfold justify, spaces. cbn [app]. by destruct (has (dir_flags d) LEFT).
Qed.

Lemma converted_range q flags n : - 2 ^ 31 <= converted q flags n < 2 ^ 31.
Proof. unfold converted. destruct (q =? 104); apply s32_range. Qed.

Lemma converted_signed s flags n :
  has flags SIGN = true -> converted (from_option qualifier_char 0 (sp_qualifier s)) flags (s32 n) = signed_value s n.
Proof.
  intros Hs. unfold converted, signed_value. rewrite Hs, u16_s32, s16_u16. pose proof (s16_range n). pose proof (s32_range n).
  destruct (sp_qualifier s) as [[]|]; simpl; [rewrite s32_u32 by lia; done|rewrite s32_small; done|rewrite s32_small; done].
Qed.

Lemma converted_unsigned s flags n :
  has flags SIGN = false -> u32 (converted (from_option qualifier_char 0 (sp_qualifier s)) flags (s32 n)) = unsigned_value s n.
Proof.
  intros Hs. unfold converted, unsigned_value. rewrite Hs, u16_s32. pose proof (u16_range n).
  destruct (sp_qualifier s) as [[]|]; simpl; rewrite !u32_s32; [by rewrite u32_small by lia|done|done].
Qed.

(** A conversion of an integer, with the flags [F] of the directive and [bits] more. *)
Lemma integer_text s acc n w p F bits base large minus zero sign_digits :
  has F SIGN = false -> has F LARGE = false -> has F LEFT = minus -> has F ZEROPAD = zero ->
  has F PLUS = bool_decide (Plus ∈ sp_flags s) -> has F SPACE = bool_decide (Blank ∈ sp_flags s) ->
  (bits = 0 /\ large = false \/ bits = LARGE /\ large = true) /\ sign_digits = ([], numeral large (radix base) (unsigned_value s n)) \/
  bits = SIGN /\ sign_digits = (sign_of s (signed_value s n), numeral false (radix base) (Z.abs (signed_value s n))) ->
  number_text anywhere acc (converted (from_option qualifier_char 0 (sp_qualifier s)) (Z.lor F bits) (s32 n)) base
    (from_option Z.abs (-1) w) (from_option (Z.max 0) (-1) p) (Z.lor F bits) =
  Some (justify minus zero (Z.abs (default 0 w)) sign_digits.1 (at_least (Z.max 0 <$> p) sign_digits.2)).
Proof.
  intros HS HA <- <- HP HB Hc. rewrite number_text_justify by apply converted_range.
  assert (forall a b c d, justify a b (from_option Z.abs (-1) w) c d = justify a b (Z.abs (default 0 w)) c d) as Hw
    by (intros; destruct w; [done|apply justify_no_width]).
  rewrite Hw. destruct Hc as [[Hb ->]|[-> ->]].
  - assert (has (Z.lor F bits) SIGN = false /\ has (Z.lor F bits) LARGE = large /\ has (Z.lor F bits) LEFT = has F LEFT /\ has (Z.lor F bits) ZEROPAD = has F ZEROPAD) as (E1 & E2 & -> & ->).
    { destruct Hb as [[-> ->]|[-> ->]]; rewrite !has_or, HS, HA; by rewrite !orb_false_r. }
    unfold sign_by. by rewrite E1, E2, converted_unsigned.
  - assert (has (Z.lor F SIGN) SIGN = true) as E1 by (by rewrite has_or, HS). unfold sign_by. rewrite E1, converted_signed by done.
    rewrite !has_or, HA, HP, HB. change (has SIGN LARGE) with false. change (has SIGN LEFT) with false. change (has SIGN ZEROPAD) with false.
    change (has SIGN PLUS) with false. change (has SIGN SPACE) with false. by rewrite !orb_false_r.
Qed.

Lemma text_of_directive s rest args acc :
  item_ok (Conv s) ->
  (d ← parse_directive (spec_print s ++ rest) args; t ← directive_text anywhere acc d; Some (t, next_fmt d)) =
  (t ← spec_text s args; Some (t, rest)).
Proof.
  intros Hok. rewrite parse_print by done. unfold spec_text. destruct (field_value (sp_width s) args) as [[w aw]|]; [|done]. cbn [mbind option_bind fst snd].
  destruct (field_value (sp_precision s) aw) as [[p ap]|]; [|done]. cbn [mbind option_bind fst snd]. destruct (default 0 w =? - 2 ^ 31); [done|].
  cbn [mbind option_bind]. set (F := if default 0 w <? 0 then _ else _).
  assert (has F LEFT = bool_decide (Minus ∈ sp_flags s) || (default 0 w <? 0)) as HL.
  { unfold F. rewrite <- (has_flags (sp_flags s) Minus). destruct (_ <? 0); [|by rewrite orb_false_r]. rewrite has_or. done. }
  assert (forall g, g ≠ Minus -> has F (flag_bit g) = bool_decide (g ∈ sp_flags s)) as HF.
  { intros g Hg. unfold F. rewrite <- has_flags. destruct (_ <? 0); [|done]. rewrite has_or. destruct g; try done; by rewrite orb_false_r. }
  assert (has F SIGN = false /\ has F LARGE = false) as [HS HA].
  { unfold F. destruct (_ <? 0); rewrite ?has_or, !has_no_flag by (by intros []); done. }
  clearbody F. set (d := mk_dir _ _ _ _ _ _). assert (next_fmt d = rest) as -> by (unfold next_fmt, d; cbn; by destruct (sp_conversion s)).
  f_equal. unfold directive_text. cbn [dir_fmt dir_args d at_ head default].
  pose proof (HF Plus ltac:(done)) as HP. pose proof (HF Blank ltac:(done)) as HB. pose proof (HF Zero ltac:(done)) as HZ. cbn [flag_bit] in HP, HB, HZ.
  assert (forall bits base large sd, (forall n, (bits = 0 /\ large = false \/ bits = LARGE /\ large = true) /\ sd n = ([], numeral large (radix base) (unsigned_value s n)) \/
      bits = SIGN /\ sd n = (sign_of s (signed_value s n), numeral false (radix base) (Z.abs (signed_value s n)))) ->
    (a ← int_arg ap; t ← number_text anywhere acc (converted (dir_qualifier d) (Z.lor F bits) a.1) base (dir_width d) (dir_precision d) (Z.lor F bits); Some (t, a.2)) =
    match ap with VInt n :: args => Some (justify (has F LEFT) (has F ZEROPAD) (Z.abs (default 0 w)) (sd n).1 (at_least (Z.max 0 <$> p) (sd n).2), args) | _ => None end) as Hint.
  { intros bits base large sd Hc. destruct ap as [|[n|t] args']; [done| |done]. unfold d. cbn [int_arg mbind option_bind fst snd dir_qualifier dir_width dir_precision].
    by rewrite (integer_text s acc n w p F bits base large (has F LEFT) (has F ZEROPAD) (sd n) HS HA eq_refl eq_refl HP HB (Hc n)). }
  assert (forall base large sd, (forall n, sd n = ([], numeral large (radix base) (unsigned_value s n)) /\ large = false) ->
    (a ← int_arg ap; t ← number_text anywhere acc (converted (dir_qualifier d) F a.1) base (dir_width d) (dir_precision d) F; Some (t, a.2)) =
    match ap with VInt n :: args => Some (justify (has F LEFT) (has F ZEROPAD) (Z.abs (default 0 w)) (sd n).1 (at_least (Z.max 0 <$> p) (sd n).2), args) | _ => None end) as Hint0.
  { intros base large sd Hsd. pose proof (Hint 0 base large sd) as H0. rewrite Z.lor_0_r in H0. apply H0. intros n. destruct (Hsd n). auto. }
  rewrite <- HL, <- HZ. unfold number_parts. destruct (sp_conversion s) eqn:Ec; cbn [conversion_char]; rewrite ?orb_false_r.
  - apply (Hint SIGN 10 false (fun n => (sign_of s (signed_value s n), numeral false 10 (Z.abs (signed_value s n))))). auto.
  - apply (Hint SIGN 10 false (fun n => (sign_of s (signed_value s n), numeral false 10 (Z.abs (signed_value s n))))). auto.
  - apply (Hint0 10 false (fun n => ([], numeral false 10 (unsigned_value s n)))). auto.
  - apply (Hint0 16 false (fun n => ([], numeral false 16 (unsigned_value s n)))). auto.
  - apply (Hint LARGE 16 true (fun n => ([], numeral true 16 (unsigned_value s n)))). auto.
  - destruct ap as [|[n|t] args']; [done| |done]. change (112 =? 99) with false. change (112 =? 115) with false. change (112 =? 112) with true. cbv iota.
    cbn [int_arg mbind option_bind fst snd d dir_width dir_precision dir_flags]. rewrite !number_text_justify by apply s32_range.
    unfold sign_by. rewrite !has_or, HS, HA, u32_s32. change (has ZEROPAD SIGN) with false. change (has ZEROPAD LARGE) with false. change (has ZEROPAD LEFT) with false.
    change (has ZEROPAD ZEROPAD) with true. rewrite !orb_false_r. destruct w as [w|]; cbn [from_option default].
    + rewrite (proj2 (Z.eqb_neq (Z.abs w) (-1))) by lia. by rewrite orb_false_r.
    + rewrite !(bool_decide_true (_ = _)) by done. cbn [andb]. by rewrite !orb_true_r.
  - destruct ap as [|[n|t] args']; [done| |done]. cbn. rewrite char_justify, u8_s32. cbn [d dir_flags dir_width]. destruct w; [done|]. cbn. by rewrite justify_no_width.
  - destruct ap as [|[n|t] args']; [done|done|]. cbn. rewrite (string_justify d _ p eq_refl). cbn [d dir_flags dir_width]. destruct w; [done|]. cbn. by rewrite justify_no_width.
  - done.
Qed.

(** The text that the code builds for a format written down is its meaning. *)
Lemma format_text_print l : forall args acc fuel,
  Forall item_ok l -> (length (format_print l) <= fuel)%nat -> render fuel anywhere acc (format_print l) args = app acc <$> meaning l args.
Proof.
  induction l as [|[c|s] l IH]; intros args acc fuel Hok Hf.
  - destruct fuel; simpl; by rewrite app_nil_r.
  - apply Forall_cons in Hok as [[H0 H37] Hok]. cbn [format_print fmap list_fmap concat item_print app length] in *. fold (format_print l) in *.
    destruct fuel as [|fuel]; [lia|]. cbn [render drop]. change (at_ (c :: format_print l)) with c. rewrite (proj2 (Z.eqb_neq c 0)), (proj2 (Z.eqb_neq c 37)) by done. cbn [negb].
    rewrite drop_0, IH by (done || lia). cbn [meaning]. destruct (meaning l args); [|done]. cbn. by rewrite <- app_assoc.
  - apply Forall_cons in Hok as [Hs Hok]. change (format_print (Conv s :: l)) with (37 :: spec_print s ++ format_print l) in *.
    destruct fuel as [|fuel]; [simpl in Hf; lia|]. cbn [render drop length] in *. rewrite length_app in Hf.
    change (at_ (37 :: spec_print s ++ format_print l)) with 37. rewrite drop_0. cbn [negb Z.eqb Pos.eqb meaning].
    pose proof (text_of_directive s (format_print l) args acc Hs) as Ht.
    destruct (parse_directive (spec_print s ++ format_print l) args) as [d|]; cbn [mbind option_bind] in *; [|by destruct (spec_text s args)].
    destruct (directive_text anywhere acc d) as [[t a]|]; cbn [mbind option_bind fst snd] in *; [|by destruct (spec_text s args)].
    destruct (spec_text s args) as [[t' a']|]; [|done]. injection Ht as -> -> ->. cbn [mbind option_bind fst snd]. rewrite IH by (done || lia).
    destruct (meaning l a'); [|done]. cbn. by rewrite app_assoc.
Qed.

(** C38: [rt_vsnprintf] on the characters of a format, with a buffer of [size] bytes,
    leaves there the text that the format means, cut to [size - 1] characters, and a
    terminating 0, and changes no other byte of the memory.  It returns the length of
    the text when the text fits; when it was cut, the result is at least that length and
    at most one more for every percent sign.  The addresses stay below [2^31]. *)
Theorem rt_vsnprintf_correct buf size l args m text :
  0 <= buf -> 0 < size -> buf + size <= 2 ^ 32 -> mapped m buf size -> Forall item_ok l ->
  meaning l args = Some text -> buf + Z.of_nat (length text + percents (format_print l)) < 2 ^ 31 ->
  exists r m', rt_vsnprintf buf size (format_print l) args m = Ok r m' /\
    holds m' buf (cut (Z.to_nat size) text) /\
    (forall a, a < buf \/ buf + size <= a -> m' !! a = m !! a) /\
    (Z.of_nat (length text) < size -> r = Z.of_nat (length text)) /\
    Z.of_nat (length text) <= r <= Z.of_nat (length text + percents (format_print l)).
Proof.
  intros Hb Hs Hf Hm Hok Ht HL. apply run_vsnprintf; try done. unfold format_text. fold anywhere. rewrite format_text_print by done. by rewrite Ht.
Qed.

(** The length of a text that was cut can be too large: [a%+-5d] with 7 is six characters
    long, and the result for a buffer of one byte is 7. *)
Theorem cut_text_miscounted :
  let l := [Literal 97; Conv (mk_spec [Plus; Minus] (Some (Num 5)) None None Decimal)] in
  (length <$> meaning l [VInt 7]) = Some 6%nat /\ ret (rt_vsnprintf 1000 1 (format_print l) [VInt 7]) demo_buffer = Some 7.
Proof. vm_compute. done. Qed.

(** ** Witness *)

(** [x=%5d;%-4s|%+.3d %08hX] with 42, [ab], 7 and 0x1beef. *)
Definition demo_items : list item :=
  [Literal 120; Literal 61; Conv (mk_spec [] (Some (Num 5)) None None Decimal); Literal 59; Conv (mk_spec [Minus] (Some (Num 4)) None None Text); Literal 124;
   Conv (mk_spec [Plus] None (Some (Num 3)) None Decimal); Literal 32; Conv (mk_spec [Zero] (Some Star) None (Some Half) HexLarge)].
Definition demo_items_args : list va_arg := [VInt 42; VStr (Some [97; 98]); VInt 7; VInt 8; VInt 0x1beef].

(** Into 20 bytes of 26: nineteen characters and the 0. *)
Lemma rt_vsnprintf_correct_witness :
  exists r m', rt_vsnprintf 1000 20 (format_print demo_items) demo_items_args demo_buffer = Ok r m' /\
    holds m' 1000 ([120; 61; 32; 32; 32; 52; 50; 59; 97; 98; 32; 32; 124; 43; 48; 48; 55; 32; 48] ++ [0]) /\ m' !! 1020 = Some 7 /\ 26 <= r <= 30.
Proof.
  destruct (rt_vsnprintf_correct 1000 20 demo_items demo_items_args demo_buffer
    [120; 61; 32; 32; 32; 52; 50; 59; 97; 98; 32; 32; 124; 43; 48; 48; 55; 32; 48; 48; 48; 48; 66; 69; 69; 70]) as (r & m' & E & H1 & H2 & _ & H3).
  - lia.
  - lia.
  - lia.
  - apply (mapped_le _ _ 32); [exact demo_buffer_mapped|lia].
  - repeat constructor; vm_compute; done.
  - vm_compute. reflexivity.
  - vm_compute. reflexivity.
  - exists r, m'. split; [exact E|]. split; [exact H1|]. split; [|exact H3]. rewrite H2 by lia. vm_compute. reflexivity.
Defined.
