(* ===== verification/RtList.v ===== *)
(** * Intrusive circular lists: include/rtservice.h

    The kernel links threads, timers and objects with [rt_list_t] nodes.  This
    file models the list primitives at the level of their pointers (a node has
    a [next] and a [prev] field in a heap) and proves that they implement
    operations on sequences: inserting at the front, at the back or before an
    element, removing a node from whichever list holds it, the emptiness test
    and the length.  The other files work with the sequences. *)

From S2P Require Import Prelude.

(** A node is designated by its address; the heap holds the two fields. *)
Record list_heap := mk_heap { lh_next : gmap nat nat; lh_prev : gmap nat nat }.

Definition set_lh_next (f : gmap nat nat -> gmap nat nat) (h : list_heap) : list_heap :=
  mk_heap (f (lh_next h)) (lh_prev h).
Definition set_lh_prev (f : gmap nat nat -> gmap nat nat) (h : list_heap) : list_heap :=
  mk_heap (lh_next h) (f (lh_prev h)).

Definition load_next (p : nat) : M list_heap nat := deref (fun h => lh_next h !! p).
Definition load_prev (p : nat) : M list_heap nat := deref (fun h => lh_prev h !! p).
Definition store_next (p v : nat) : M list_heap unit := modify (set_lh_next (<[p := v]>)).
Definition store_prev (p v : nat) : M list_heap unit := modify (set_lh_prev (<[p := v]>)).

(** [l->next = l->prev = l] *)
Definition rt_list_init (l : nat) : M list_heap unit :=
  store_prev l l;; store_next l l.

Definition rt_list_insert_after (l n : nat) : M list_heap unit :=
  ln ← load_next l; store_prev ln n;;
  ln' ← load_next l; store_next n ln';;
  store_next l n;;
  store_prev n l.

Definition rt_list_insert_before (l n : nat) : M list_heap unit :=
  lp ← load_prev l; store_next lp n;;
  lp' ← load_prev l; store_prev n lp';;
  store_prev l n;;
  store_next n l.

Definition rt_list_remove (n : nat) : M list_heap unit :=
  nn ← load_next n; np ← load_prev n; store_prev nn np;;
  np' ← load_prev n; nn' ← load_next n; store_next np' nn';;
  store_prev n n;; store_next n n.

Definition rt_list_isempty (l : nat) : M list_heap bool :=
  ln ← load_next l; mret (bool_decide (ln = l)).

(** The [while (p->next != l)] loop; [None] when the fuel runs out. *)
Fixpoint rt_list_len_loop (fuel : nat) (l p : nat) (len : Z) : M list_heap (option Z) :=
  match fuel with
  | O => mret None
  | S fuel =>
      pn ← load_next p;
      if bool_decide (pn = l) then mret (Some len)
      else rt_list_len_loop fuel l pn (u32 (len + 1))
  end.
Definition rt_list_len (fuel : nat) (l : nat) : M list_heap (option Z) :=
  rt_list_len_loop fuel l l 0.

(** ** Representation: a segment of linked nodes, and a ring *)

Fixpoint lseg (h : list_heap) (a : nat) (xs : list nat) (b : nat) : Prop :=
  match xs with
  | [] => lh_next h !! a = Some b /\ lh_prev h !! b = Some a
  | x :: xs => lh_next h !! a = Some x /\ lh_prev h !! x = Some a /\ lseg h x xs b
  end.

Definition ring (h : list_heap) (hd : nat) (xs : list nat) : Prop :=
  NoDup (hd :: xs) /\ lseg h hd xs hd.

Lemma lseg_app h a xs x ys b :
  lseg h a (xs ++ x :: ys) b <-> lseg h a xs x /\ lseg h x ys b.
Proof. revert a. induction xs as [|y xs IH]; intros a; simpl; [tauto|]. rewrite IH. tauto. Qed.

(** A segment only depends on the fields it links. *)
Lemma lseg_frame h h' a xs b :
  (forall p, p ∈ a :: xs -> lh_next h' !! p = lh_next h !! p) ->
  (forall p, p ∈ xs ++ [b] -> lh_prev h' !! p = lh_prev h !! p) ->
  lseg h a xs b -> lseg h' a xs b.
Proof.
  revert a. induction xs as [|x xs IH]; intros a Hn Hp; simpl.
  - rewrite Hn, Hp by set_solver. done.
  - rewrite Hn, Hp by set_solver. intros (? & ? & ?). split_and!; [done..|].
    apply IH; [|set_solver|done]. intros p Hin. apply Hn. set_solver.
Qed.

(** Close a segment goal by framing it from [H]. *)
Ltac lseg_by H :=
  eapply lseg_frame; [..|exact H]; simpl; intros ? ?;
  rewrite !lookup_insert_ne by set_solver; done.

Lemma lseg_first h a xs b : lseg h a xs b -> lh_next h !! a = Some (default b (head xs)).
Proof. destruct xs; simpl; tauto. Qed.

Lemma lseg_last h a xs b : lseg h a xs b -> lh_prev h !! b = Some (default a (last xs)).
Proof.
  revert a. induction xs as [|x xs IH]; intros a; simpl; [tauto|].
  intros (? & ? & Hs). rewrite (IH _ Hs). destruct xs as [|y xs]; [done|].
  change (last (x :: y :: xs)) with (last (y :: xs)).
  destruct (last (y :: xs)) eqn:E; [done|].
  by apply last_None in E.
Qed.

(** Relinking [a -> n -> b] when a segment [a .. b] is empty. *)
Lemma insert_before_lseg h a xs b n :
  n ≠ a -> n ≠ b -> n ∉ xs -> a ∉ xs -> b ∉ xs -> NoDup xs ->
  lseg h a xs b ->
  wp (rt_list_insert_before b n) (fun _ h' =>
    lseg h' a (xs ++ [n]) b /\
    (forall p, p ≠ n -> p ≠ default a (last xs) -> lh_next h' !! p = lh_next h !! p) /\
    (forall p, p ≠ n -> p ≠ b -> lh_prev h' !! p = lh_prev h !! p)) h.
Proof.
  intros Hna Hnb Hnx Hax Hbx Hnd Hs.
  pose proof (lseg_last _ _ _ _ Hs) as Hlast.
  set (lp := default a (last xs)) in *.
  unfold rt_list_insert_before, load_prev, store_next, store_prev.
  apply wp_bind. eapply wp_deref; [exact Hlast|]. wp_steps.
  eapply wp_deref; [exact Hlast|]. wp_steps. simpl.
  assert (n ≠ lp) as Hnlp.
  { unfold lp. destruct (last xs) eqn:E; simpl; [|done].
    intros ->. apply Hnx. by apply last_Some_elem_of. }
  split_and!.
  - destruct xs as [|x xs' _] using rev_ind.
    + simpl in *. subst lp. simplify_map_eq. done.
    + assert (lp = x) as -> by (unfold lp; by rewrite last_snoc).
      apply NoDup_app in Hnd as (? & Hd & ?).
      rewrite <- app_assoc. simpl. apply lseg_app in Hs as [Hs1 Hs2]. apply lseg_app. split.
      * lseg_by Hs1.
      * simpl. simplify_map_eq. done.
  - intros p ??. by rewrite !lookup_insert_ne by done.
  - intros p ??. by rewrite !lookup_insert_ne by done.
Qed.

(** Inserting after a node is inserting before its successor. *)
Lemma insert_after_before h l b n :
  lh_next h !! l = Some b -> lh_prev h !! b = Some l -> n ≠ l -> n ≠ b ->
  rt_list_insert_after l n h = rt_list_insert_before b n h.
Proof.
  intros Hn Hp Hnl Hnb.
  unfold rt_list_insert_after, rt_list_insert_before, load_next, load_prev,
    store_next, store_prev, mbind, M_bind, modify, deref; simpl.
  rewrite Hn, Hp; simpl. rewrite Hn, Hp; simpl. f_equal.
  unfold set_lh_next, set_lh_prev; simpl. f_equal.
  - by rewrite insert_insert_ne by done.
  - by rewrite insert_insert_ne by done.
Qed.

(** Unlinking a node joins the two segments around it. *)
Lemma remove_lseg h a ys n zs b :
  n ≠ a -> n ≠ b -> n ∉ ys -> n ∉ zs -> a ∉ ys -> a ∉ zs -> b ∉ ys -> b ∉ zs ->
  NoDup (ys ++ zs) -> lseg h a (ys ++ n :: zs) b ->
  wp (rt_list_remove n) (fun _ h' =>
    lseg h' a (ys ++ zs) b /\ lseg h' n [] n /\
    (forall p, p ≠ n -> p ≠ default a (last ys) -> lh_next h' !! p = lh_next h !! p) /\
    (forall p, p ≠ n -> p ≠ default b (head zs) -> lh_prev h' !! p = lh_prev h !! p)) h.
Proof.
  intros Hna Hnb Hny Hnz Hay Haz Hby Hbz Hnd Hs.
  apply lseg_app in Hs as [Hs1 Hs2].
  pose proof (lseg_last _ _ _ _ Hs1) as Hp. pose proof (lseg_first _ _ _ _ Hs2) as Hq.
  set (p0 := default a (last ys)) in *. set (q0 := default b (head zs)) in *.
  assert (n ≠ q0) as Hnq by (unfold q0; destruct zs; set_solver).
  assert (n ≠ p0) as Hnp.
  { unfold p0. destruct (last ys) eqn:E; simpl; [|done].
    intros ->. by apply Hny, last_Some_elem_of. }
  unfold rt_list_remove, load_next, load_prev, store_next, store_prev.
  apply wp_bind. eapply wp_deref; [exact Hq|]. apply wp_bind. eapply wp_deref; [exact Hp|].
  wp_steps. eapply wp_deref; [simpl; rewrite lookup_insert_ne by done; exact Hp|]. wp_steps.
  eapply wp_deref; [exact Hq|]. wp_steps. simpl. split_and!.
  - apply NoDup_app in Hnd as (Hndy & Hd & Hndz).
    destruct ys as [|y ys' _] using rev_ind; destruct zs as [|z zs].
    + simpl in *. subst p0 q0. simplify_map_eq. done.
    + simpl in *. subst p0 q0. destruct Hs2 as (? & ? & Hs2). simplify_map_eq. split_and!; [done..|].
      apply NoDup_cons in Hndz as [? ?].
      lseg_by Hs2.
    + rewrite app_nil_r. assert (p0 = y) as -> by (unfold p0; by rewrite last_snoc).
      simpl in *. subst q0. apply lseg_app in Hs1 as [Hs1 _]. apply NoDup_app in Hndy as (? & Hdy & ?).
      apply lseg_app. split; [|simpl; simplify_map_eq; done].
      lseg_by Hs1.
    + assert (p0 = y) as -> by (unfold p0; by rewrite last_snoc).
      simpl in *. subst q0. apply lseg_app in Hs1 as [Hs1 _]. destruct Hs2 as (? & ? & Hs2).
      apply NoDup_app in Hndy as (? & Hdy & ?). apply NoDup_cons in Hndz as [? ?].
      rewrite <- app_assoc. simpl. apply lseg_app. split.
      * lseg_by Hs1.
      * simpl. simplify_map_eq. split_and!; [done..|].
        lseg_by Hs2.
  - simplify_map_eq. done.
  - simplify_map_eq. done.
  - intros r ??. by rewrite !lookup_insert_ne by done.
  - intros r ??. by rewrite !lookup_insert_ne by done.
Qed.

(** ** The family of all lists in a heap

    [L] maps each list head to the sequence of its elements.  A node that is
    in no list and has been initialised is the head of an empty list. *)

Record rings (h : list_heap) (L : gmap nat (list nat)) : Prop := {
  r_ring : forall hd xs, L !! hd = Some xs -> ring h hd xs;
  r_disj : forall hd1 hd2 xs1 xs2 n, L !! hd1 = Some xs1 -> L !! hd2 = Some xs2 ->
    n ∈ hd1 :: xs1 -> n ∈ hd2 :: xs2 -> hd1 = hd2
}.

Definition unlinked (L : gmap nat (list nat)) (n : nat) : Prop :=
  forall hd xs, L !! hd = Some xs -> n ∉ hd :: xs.

(** Forgetting a list keeps the others. *)
Lemma rings_delete h L n : rings h L -> rings h (delete n L).
Proof.
  intros [Hr Hd]. split.
  - intros hd xs [? ?]%lookup_delete_Some. eauto.
  - intros hd1 hd2 xs1 xs2 m [? ?]%lookup_delete_Some [? ?]%lookup_delete_Some. eauto.
Qed.

Lemma unlinked_delete h L n : rings h L -> L !! n = Some [] -> unlinked (delete n L) n.
Proof.
  intros [_ Hd] Hn hd xs [Hne Hl]%lookup_delete_Some Hin.
  apply Hne. symmetry. eapply Hd; [exact Hl|exact Hn|done|left].
Qed.

(** Replacing the sequence of one list, when only its nodes were relinked. *)
Lemma rings_update h h' L hd xs xs' :
  rings h L -> L !! hd = Some xs -> ring h' hd xs' ->
  (forall m, m ∈ xs' -> m ∈ xs \/ unlinked L m) ->
  (forall hd2 xs2, hd2 ≠ hd -> L !! hd2 = Some xs2 -> ring h' hd2 xs2) ->
  rings h' (<[hd := xs']> L).
Proof.
  intros [Hr Hd] Hl Hring Hsub Hfr. split.
  - intros hd2 xs2 [[<- <-]|[? ?]]%lookup_insert_Some; eauto.
  - assert (forall hd2 xs2 m, hd ≠ hd2 -> L !! hd2 = Some xs2 ->
      m ∈ hd :: xs' -> m ∈ hd2 :: xs2 -> False) as Hx.
    { intros hd2 xs2 m Hne Hl2 [->|Hm]%elem_of_cons Hm2.
      - apply Hne. eapply Hd; [exact Hl|exact Hl2|left|done].
      - destruct (Hsub _ Hm) as [?|Hu]; [|by eapply Hu].
        apply Hne. eapply Hd; [exact Hl|exact Hl2|by right|done]. }
    intros hd1 hd2 xs1 xs2 m [[<- <-]|[? ?]]%lookup_insert_Some [[<- <-]|[? ?]]%lookup_insert_Some ??;
      eauto; exfalso; eauto.
Qed.

Lemma ring_frame h h' hd xs :
  (forall p, p ∈ hd :: xs -> lh_next h' !! p = lh_next h !! p /\ lh_prev h' !! p = lh_prev h !! p) ->
  ring h hd xs -> ring h' hd xs.
Proof.
  intros Hf [Hnd Hs]. split; [done|]. eapply lseg_frame; [..|exact Hs]; intros p Hp; apply Hf; set_solver.
Qed.

(** The nodes of one list are not nodes of another. *)
Lemma rings_apart h L hd xs hd2 xs2 p q :
  rings h L -> L !! hd = Some xs -> L !! hd2 = Some xs2 -> hd2 ≠ hd ->
  p ∈ hd :: xs -> q ∈ hd2 :: xs2 -> q ≠ p.
Proof. intros [_ Hd] Hl Hl2 Hne Hp Hq ->. apply Hne. symmetry. exact (Hd _ _ _ _ _ Hl Hl2 Hp Hq). Qed.

Lemma last_cons_elem (a : nat) xs : default a (last xs) ∈ a :: xs.
Proof.
  destruct (last xs) eqn:E; simpl; [right; by apply last_Some_elem_of|left].
Qed.
Lemma head_cons_elem (b : nat) xs : default b (head xs) ∈ b :: xs.
Proof. destruct xs; simpl; [left|right; left]. Qed.

(** ** Refinement of the primitives *)

(** General form: insert before the node that follows the prefix [ys]. *)
Lemma insert_before_rings h L hd ys zs n :
  rings h L -> L !! hd = Some (ys ++ zs) -> unlinked L n ->
  wp (rt_list_insert_before (default hd (head zs)) n)
     (fun _ h' => rings h' (<[hd := ys ++ n :: zs]> L)) h.
Proof.
  intros HR Hl Hu. destruct (r_ring _ _ HR _ _ Hl) as [Hnd Hs].
  pose proof (Hu _ _ Hl) as Hn. apply NoDup_cons in Hnd as [Hhd Hnd].
  apply NoDup_app in Hnd as (Hndy & Hd & Hndz).
  eapply wp_mono.
  2:{ apply (insert_before_lseg _ hd ys); [set_solver| |set_solver|set_solver| |done|].
      - pose proof (head_cons_elem hd zs). set_solver.
      - destruct zs; simpl in *; set_solver.
      - destruct zs; [by rewrite app_nil_r in Hs|]. by apply lseg_app in Hs as [? _]. }
  intros _ h' (Hs' & Fn & Fp).
  apply (rings_update h h' L hd (ys ++ zs) (ys ++ n :: zs)); [done|done| | |].
  - split; [apply NoDup_cons; split; [set_solver|]|].
    { apply NoDup_app. split_and!; [done|set_solver|]. apply NoDup_cons. split; [set_solver|done]. }
    destruct zs as [|z zs]; [done|]. simpl in *. apply NoDup_cons in Hndz as [? ?].
    replace (ys ++ n :: z :: zs) with ((ys ++ [n]) ++ z :: zs) by by rewrite <- app_assoc.
    apply lseg_app in Hs as [_ Hs2]. apply lseg_app. split; [done|].
    pose proof (last_cons_elem hd ys) as Hlast.
    clear Hs' HR Hl Hu.
    generalize dependent (default hd (last ys)). intros la Fn Hlast.
    eapply lseg_frame; [..|exact Hs2]; intros p Hp; [apply Fn|apply Fp];
      clear Fn Fp Hs2; set_solver.
  - intros m Hm. assert (m = n \/ m ∈ ys ++ zs) as [->|?] by set_solver; auto.
  - intros hd2 xs2 Hne Hl2. eapply ring_frame; [|by apply (r_ring _ _ HR)]. intros p Hp.
    assert (forall q, q ∈ hd :: ys ++ zs -> p ≠ q) as Hap
      by (intros q Hq; by eapply (rings_apart h L hd _ hd2)).
    assert (p ≠ n) by (intros ->; by eapply Hu).
    split; [apply Fn|apply Fp]; [done| |done|]; apply Hap.
    + pose proof (last_cons_elem hd ys). set_solver.
    + pose proof (head_cons_elem hd zs). set_solver.
Qed.

(** C37: [rt_list_insert_before] on a list head appends the node at the end of
    that list and leaves every other list of the heap unchanged. *)
Theorem rt_list_insert_before_refines h L hd xs n :
  rings h L -> L !! hd = Some xs -> unlinked L n ->
  wp (rt_list_insert_before hd n) (fun _ h' => rings h' (<[hd := xs ++ [n]]> L)) h.
Proof.
  intros HR Hl Hu. apply (insert_before_rings h L hd xs [] n); [done| |done].
  by rewrite app_nil_r.
Qed.

(** [rt_list_insert_after] on a list head puts the node at the front. *)
Theorem rt_list_insert_after_refines h L hd xs n :
  rings h L -> L !! hd = Some xs -> unlinked L n ->
  wp (rt_list_insert_after hd n) (fun _ h' => rings h' (<[hd := n :: xs]> L)) h.
Proof.
  intros HR Hl Hu. destruct (r_ring _ _ HR _ _ Hl) as [_ Hs].
  pose proof (Hu _ _ Hl) as Hn.
  unfold wp. rewrite (insert_after_before _ _ (default hd (head xs))).
  - apply (insert_before_rings h L hd [] xs n HR Hl Hu).
  - by apply lseg_first in Hs.
  - destruct xs; simpl in *; tauto.
  - set_solver.
  - pose proof (head_cons_elem hd xs). set_solver.
Qed.

(** [rt_list_remove] takes a linked node out of the list that holds it,
    keeps the order of the others, and leaves the node initialised on its own. *)
Theorem rt_list_remove_refines h L hd ys n zs :
  rings h L -> L !! hd = Some (ys ++ n :: zs) ->
  wp (rt_list_remove n) (fun _ h' => rings h' (<[n := []]> (<[hd := ys ++ zs]> L))) h.
Proof.
  intros HR Hl. destruct (r_ring _ _ HR _ _ Hl) as [Hnd Hs].
  apply NoDup_cons in Hnd as [Hhd Hnd]. apply NoDup_app in Hnd as (Hndy & Hd & Hndz).
  apply NoDup_cons in Hndz as [Hnz Hndz].
  assert (NoDup (ys ++ zs)) as Hndyz by (apply NoDup_app; split_and!; [done|set_solver|done]).
  eapply wp_mono; [|apply (remove_lseg _ hd ys n zs hd); [set_solver..|done|done]].
  intros _ h' (Hs' & Hn' & Fn & Fp).
  assert (forall hd2 xs2 p q, hd2 ≠ hd -> L !! hd2 = Some xs2 -> p ∈ hd2 :: xs2 ->
    q ∈ hd :: ys ++ n :: zs -> p ≠ q) as Hap by (intros; by eapply (rings_apart h L hd _ hd2)).
  assert (rings h' (<[hd := ys ++ zs]> L)) as HR'.
  { apply (rings_update h h' L hd (ys ++ n :: zs)); [done|done|split|..].
    - apply NoDup_cons. split; [set_solver|done].
    - done.
    - set_solver.
    - intros hd2 xs2 Hne Hl2. eapply ring_frame; [|by apply (r_ring _ _ HR)]. intros p Hp.
      pose proof (last_cons_elem hd ys). pose proof (head_cons_elem hd zs).
      split; [apply Fn|apply Fp]; eapply Hap; eauto; set_solver. }
  assert (unlinked (<[hd := ys ++ zs]> L) n) as Hun.
  { intros hd2 xs2 [[<- <-]|[Hne Hl2]]%lookup_insert_Some Hin.
    { clear - Hhd Hnz Hd Hin. set_solver. }
    eapply (Hap hd2 xs2 n n); eauto; set_solver. }
  split.
  - intros hd2 xs2 [[<- <-]|[_ Hl2]]%lookup_insert_Some; [|by apply (r_ring _ _ HR')].
    split; [apply NoDup_singleton|done].
  - intros hd1 hd2 xs1 xs2 m [[<- <-]|[_ Hl1]]%lookup_insert_Some
      [[<- <-]|[_ Hl2]]%lookup_insert_Some Hm1 Hm2; [done|..|by eapply (r_disj _ _ HR')].
    + apply list_elem_of_singleton in Hm1 as ->. by apply Hun in Hm2.
    + apply list_elem_of_singleton in Hm2 as ->. by apply Hun in Hm1.
Qed.

(** Removing a node that is on its own changes nothing. *)
Lemma remove_single_rings h L n :
  rings h L -> L !! n = Some [] -> wp (rt_list_remove n) (fun _ h' => rings h' L) h.
Proof.
  intros HR Hl. destruct (r_ring _ _ HR _ _ Hl) as [_ [Hn Hp]].
  unfold rt_list_remove, load_next, load_prev, store_next, store_prev.
  apply wp_bind. eapply wp_deref; [exact Hn|]. apply wp_bind. eapply wp_deref; [exact Hp|]. wp_steps.
  eapply wp_deref; [by apply lookup_insert_eq|]. wp_steps. eapply wp_deref; [exact Hn|]. wp_steps.
  unfold set_lh_next, set_lh_prev; simpl.
  rewrite !insert_insert_eq, !insert_id by done. by destruct h.
Qed.

(** [rt_list_isempty] answers whether the sequence is empty. *)
Theorem rt_list_isempty_refines h L hd xs :
  rings h L -> L !! hd = Some xs ->
  rt_list_isempty hd h = Ok (bool_decide (xs = [])) h.
Proof.
  intros HR Hl. destruct (r_ring _ _ HR _ _ Hl) as [Hnd Hs].
  unfold rt_list_isempty, load_next, deref, mbind, M_bind.
  rewrite (lseg_first _ _ _ _ Hs). unfold mret, M_ret. f_equal.
  apply bool_decide_ext. destruct xs as [|x xs]; simpl; [done|].
  split; [|done]. intros ->. apply NoDup_cons in Hnd as [[]%not_elem_of_cons _]. done.
Qed.

Lemma len_loop_lseg h a xs b fuel n :
  b ∉ xs -> lseg h a xs b -> (length xs < fuel)%nat -> 0 <= n ->
  n + Z.of_nat (length xs) < 2 ^ 32 ->
  rt_list_len_loop fuel b a n h = Ok (Some (n + Z.of_nat (length xs))) h.
Proof.
  revert a fuel n. induction xs as [|x xs IH]; intros a fuel n Hb Hs Hf Hn Hlt;
    (destruct fuel as [|fuel]; [simpl in Hf; lia|]); simpl in *;
    unfold load_next, deref, mbind, M_bind.
  - destruct Hs as [-> _]. rewrite bool_decide_eq_true_2 by done. by rewrite Z.add_0_r.
  - destruct Hs as (-> & _ & Hs). rewrite bool_decide_eq_false_2 by set_solver.
    rewrite u32_small by lia.
    rewrite IH; [f_equal; f_equal; lia|set_solver|done|lia|lia|lia].
Qed.

(** [rt_list_len] terminates on every list of the heap (any fuel above its
    length is enough) and counts its nodes, when they fit an unsigned int. *)
Theorem rt_list_len_refines h L hd xs fuel :
  rings h L -> L !! hd = Some xs -> (length xs < fuel)%nat ->
  Z.of_nat (length xs) < 2 ^ 32 ->
  rt_list_len fuel hd h = Ok (Some (Z.of_nat (length xs))) h.
Proof.
  intros HR Hl Hf Hlt. destruct (r_ring _ _ HR _ _ Hl) as [Hnd Hs].
  apply NoDup_cons in Hnd as [Hhd _].
  unfold rt_list_len. rewrite (len_loop_lseg h hd xs hd); [done|done|done|done|lia|lia].
Qed.

(** The test [tlist.next != tlist.prev] of [rt_thread_yield] holds of a
    linked node exactly when its list has a second element. *)
Theorem next_prev_differ_iff h L hd ys n zs :
  rings h L -> L !! hd = Some (ys ++ n :: zs) ->
  exists a b, lh_next h !! n = Some a /\ lh_prev h !! n = Some b /\
    (a ≠ b <-> ys ++ zs ≠ []).
Proof.
  intros HR Hl. destruct (r_ring _ _ HR _ _ Hl) as [Hnd Hs].
  apply NoDup_cons in Hnd as [Hhd Hnd]. apply NoDup_app in Hnd as (_ & Hd & Hndz).
  apply lseg_app in Hs as [Hs1 Hs2].
  exists (default hd (head zs)), (default hd (last ys)).
  split_and!; [by apply lseg_first in Hs2|by apply lseg_last in Hs1|].
  destruct ys as [|y ys' _] using rev_ind; destruct zs as [|z zs]; simpl.
  - tauto.
  - split; [done|]. intros _ ->. set_solver.
  - rewrite last_snoc. simpl. split; [by destruct ys'|]. intros _ ->. set_solver.
  - rewrite last_snoc. simpl. split; [by destruct ys'|]. intros _ ->. set_solver.
Qed.

(** ** Witnesses: a heap with one list head and two free nodes *)

Definition demo_heap : list_heap :=
  match (rt_list_init 1;; rt_list_init 2;; rt_list_init 3;; rt_list_insert_before 1 2)
          (mk_heap ∅ ∅) with Ok _ h => h | Fault => mk_heap ∅ ∅ end.
Definition demo_lists : gmap nat (list nat) := {[ 1%nat := [2%nat] ]}.

Lemma demo_rings : rings demo_heap demo_lists.
Proof.
  unfold demo_lists. split.
  - intros hd xs [<- <-]%lookup_singleton_Some. split; [|by vm_compute].
    repeat constructor; set_solver.
  - by intros hd1 hd2 xs1 xs2 n [<- <-]%lookup_singleton_Some [<- <-]%lookup_singleton_Some.
Qed.

Lemma demo_unlinked : unlinked demo_lists 3.
Proof. unfold demo_lists. intros hd xs [<- <-]%lookup_singleton_Some. set_solver. Qed.

Lemma rt_list_insert_before_refines_witness :
  wp (rt_list_insert_before 1 3) (fun _ h' => rings h' (<[1%nat := [2%nat] ++ [3%nat]]> demo_lists)) demo_heap.
Proof. apply rt_list_insert_before_refines; [apply demo_rings|done|apply demo_unlinked]. Defined.

Lemma rt_list_insert_after_refines_witness :
  wp (rt_list_insert_after 1 3) (fun _ h' => rings h' (<[1%nat := 3%nat :: [2%nat]]> demo_lists)) demo_heap.
Proof. apply rt_list_insert_after_refines; [apply demo_rings|done|apply demo_unlinked]. Defined.

Lemma rt_list_remove_refines_witness :
  wp (rt_list_remove 2) (fun _ h' => rings h' (<[2%nat := []]> (<[1%nat := [] ++ []]> demo_lists))) demo_heap.
Proof. apply (rt_list_remove_refines _ demo_lists 1 [] 2 []); [apply demo_rings|done]. Defined.

Lemma rt_list_isempty_refines_witness :
  rt_list_isempty 1 demo_heap = Ok (bool_decide ([2%nat] = [])) demo_heap.
Proof. apply (rt_list_isempty_refines _ demo_lists); [apply demo_rings|done]. Defined.

Lemma rt_list_len_refines_witness : rt_list_len 5 1 demo_heap = Ok (Some 1) demo_heap.
Proof. apply (rt_list_len_refines _ demo_lists 1 [2%nat] 5); [apply demo_rings|done|simpl; lia|simpl; lia]. Defined.

Lemma next_prev_differ_iff_witness :
  exists a b, lh_next demo_heap !! 2%nat = Some a /\ lh_prev demo_heap !! 2%nat = Some b /\
    (a ≠ b <-> ([] ++ [] : list nat) ≠ []).
Proof. apply (next_prev_differ_iff _ demo_lists 1 [] 2 []); [apply demo_rings|done]. Defined.
