(* ===== verification/Kernel.v ===== *)
(** * Kernel state: the structures of include/rtdef.h

    Threads, timers, object headers and the global variables of
    src/scheduler.c, src/clock.c, src/irq.c and src/timer.c, with the primitive
    accesses the components use.  Lists of threads are kept as sequences, one
    per list head; [RtList] proves that the pointer operations of rtservice.h
    implement the sequence operations used here. *)

From S2P Require Import Prelude.

(** ** Constants of rtdef.h and rtconfig.h *)

Definition RT_EOK : Z := 0.
Definition RT_ERROR : Z := 1.
Definition RT_ETIMEOUT : Z := 2.
Definition RT_EFULL : Z := 3.
Definition RT_EEMPTY : Z := 4.
Definition RT_ENOMEM : Z := 5.
Definition RT_EBUSY : Z := 7.
Definition RT_EINTR : Z := 9.

Definition RT_THREAD_INIT : Z := 0x00.
Definition RT_THREAD_READY : Z := 0x01.
Definition RT_THREAD_SUSPEND : Z := 0x02.
Definition RT_THREAD_CLOSE : Z := 0x04.
Definition RT_THREAD_STAT_MASK : Z := 0x0f.

Definition RT_THREAD_PRIORITY_MAX : Z := 32.
Definition RT_TICK_MAX : Z := 0xffffffff.
Definition RT_TICK_PER_SECOND : Z := 1000.
Definition RT_WAITING_FOREVER : Z := -1.

Definition RT_TIMER_FLAG_ACTIVATED : Z := 0x1.
Definition RT_TIMER_FLAG_PERIODIC : Z := 0x2.

Definition RT_IPC_FLAG_FIFO : Z := 0x00.
Definition RT_IPC_FLAG_PRIO : Z := 0x01.
Definition RT_IPC_CMD_RESET : Z := 0x01.

Definition RT_Object_Class_Static : Z := 0x80.

(** [RT_ALIGN] and [RT_ALIGN_DOWN] on 32-bit words. *)
Definition RT_ALIGN (size align : Z) : Z := Z.land (u32 (size + align - 1)) (not32 (align - 1)).
Definition RT_ALIGN_DOWN (size align : Z) : Z := Z.land size (not32 (align - 1)).

(** ** Object classes, list heads, timer identities *)

(** [enum rt_object_class_type] *)
Inductive object_class :=
| RT_Object_Class_Thread
| RT_Object_Class_Semaphore
| RT_Object_Class_Mutex
| RT_Object_Class_Event
| RT_Object_Class_MailBox
| RT_Object_Class_MessageQueue
| RT_Object_Class_MemHeap
| RT_Object_Class_MemPool
| RT_Object_Class_Device
| RT_Object_Class_Timer
| RT_Object_Class_Module
| RT_Object_Class_Unknown.

Definition class_code (c : object_class) : nat :=
  match c with
  | RT_Object_Class_Thread => 0 | RT_Object_Class_Semaphore => 1
  | RT_Object_Class_Mutex => 2 | RT_Object_Class_Event => 3
  | RT_Object_Class_MailBox => 4 | RT_Object_Class_MessageQueue => 5
  | RT_Object_Class_MemHeap => 6 | RT_Object_Class_MemPool => 7
  | RT_Object_Class_Device => 8 | RT_Object_Class_Timer => 9
  | RT_Object_Class_Module => 10 | RT_Object_Class_Unknown => 11
  end.
Definition class_of_code (n : nat) : object_class :=
  match n with
  | 0 => RT_Object_Class_Thread | 1 => RT_Object_Class_Semaphore
  | 2 => RT_Object_Class_Mutex | 3 => RT_Object_Class_Event
  | 4 => RT_Object_Class_MailBox | 5 => RT_Object_Class_MessageQueue
  | 6 => RT_Object_Class_MemHeap | 7 => RT_Object_Class_MemPool
  | 8 => RT_Object_Class_Device | 9 => RT_Object_Class_Timer
  | 10 => RT_Object_Class_Module | _ => RT_Object_Class_Unknown
  end%nat.

#[global] Instance object_class_eq_dec : EqDecision object_class.
Proof. solve_decision. Defined.
#[global] Instance object_class_countable : Countable object_class.
Proof. refine (inj_countable' class_code class_of_code _). by intros []. Defined.

(** A list head that thread nodes ([tlist]) can be linked to. *)
Inductive tlist_head :=
| HReady (prio : Z)                       (**  rt_thread_priority_table[prio] *)
| HSuspend (c : object_class) (o : nat)   (**  suspend_thread of an IPC object or a pool *)
| HSender (o : nat)                       (**  suspend_sender_thread of a mailbox *)
| HPush (o : nat)                         (**  suspended_push_list of a data queue *)
| HPop (o : nat)                          (**  suspended_pop_list of a data queue *)
| HCompletion (o : nat)                   (**  suspended_list of a completion *)
| HDefunct.                               (**  rt_thread_defunct *)

#[global] Instance tlist_head_eq_dec : EqDecision tlist_head.
Proof. solve_decision. Defined.
#[global] Instance tlist_head_countable : Countable tlist_head.
Proof.
  refine (inj_countable'
    (fun h => match h with
      | HReady p => inl (inl p) | HSuspend c o => inl (inr (c, o))
      | HSender o => inr (inl (inl o)) | HPush o => inr (inl (inr o))
      | HPop o => inr (inr (inl (inl o))) | HCompletion o => inr (inr (inl (inr o)))
      | HDefunct => inr (inr (inr tt)) end)
    (fun e => match e with
      | inl (inl p) => HReady p | inl (inr (c, o)) => HSuspend c o
      | inr (inl (inl o)) => HSender o | inr (inl (inr o)) => HPush o
      | inr (inr (inl (inl o))) => HPop o | inr (inr (inl (inr o))) => HCompletion o
      | inr (inr (inr _)) => HDefunct end) _).
  by intros [].
Defined.

(** A timer is the one built into a thread ([thread_timer]) or a timer object. *)
Inductive timer_id := TThread (t : nat) | TObject (n : nat).

#[global] Instance timer_id_eq_dec : EqDecision timer_id.
Proof. solve_decision. Defined.
#[global] Instance timer_id_countable : Countable timer_id.
Proof.
  refine (inj_countable' (fun i => match i with TThread t => inl t | TObject n => inr n end)
    (fun e => match e with inl t => TThread t | inr n => TObject n end) _).
  by intros [].
Defined.

(** ** Structures *)

(** [timeout_func] together with its [parameter]. *)
Inductive timeout_fn :=
| rt_thread_timeout_of (t : nat)
| user_timeout (n : nat).

(** [struct rt_timer]; the list node is its position in [k_timer_list]. *)
Record rt_timer := mk_timer {
  tm_flag : Z;
  tm_func : timeout_fn;
  tm_init_tick : Z;
  tm_timeout_tick : Z
}.

(** [struct rt_thread], without the fields of the object header (in
    [k_objects]), the built-in timer (in [k_timers]) and the list node (in
    [k_tlists]). *)
Record rt_thread := mk_thread {
  th_sp : Z;
  th_stack_addr : Z;
  th_stack_size : Z;
  th_stack_mark : Z;             (**  the byte at [stack_addr] *)
  th_error : Z;
  th_stat : Z;
  th_current_priority : Z;
  th_init_priority : Z;
  th_number_mask : Z;
  th_event_set : Z;
  th_event_info : Z;
  th_init_tick : Z;
  th_remaining_tick : Z;
  th_cleanup : bool              (**  [cleanup != RT_NULL] *)
}.

(** [struct rt_object]: the header shared by the kernel objects. *)
Record rt_object := mk_object { ob_name : list Z; ob_type : Z }.

(** A kernel object: a separately allocated one, or the timer inside a thread. *)
Inductive obj_ref := Obj (c : object_class) (o : nat) | ThreadTimer (t : nat).

Definition ref_class (r : obj_ref) : object_class :=
  match r with Obj c _ => c | ThreadTimer _ => RT_Object_Class_Timer end.

#[global] Instance obj_ref_eq_dec : EqDecision obj_ref.
Proof. solve_decision. Defined.
#[global] Instance obj_ref_countable : Countable obj_ref.
Proof.
  refine (inj_countable' (fun r => match r with Obj c o => inl (c, o) | ThreadTimer t => inr t end)
    (fun e => match e with inl (c, o) => Obj c o | inr t => ThreadTimer t end) _).
  by intros [].
Defined.

Record kstate := mk_kstate {
  k_threads : gmap nat rt_thread;
  k_tlists : gmap tlist_head (list nat);
  k_group : Z;                   (**  rt_thread_ready_priority_group *)
  k_current : option nat;        (**  rt_current_thread *)
  k_current_priority : Z;        (**  rt_current_priority *)
  k_lock_nest : Z;               (**  rt_scheduler_lock_nest *)
  k_int_nest : Z;                (**  rt_interrupt_nest *)
  k_tick : Z;                    (**  rt_tick *)
  k_timers : gmap timer_id rt_timer;
  k_timer_list : list timer_id;  (**  rt_timer_list[0] *)
  k_random_nr : Z;               (**  the static counter of rt_timer_start *)
  k_objects : gmap obj_ref rt_object;
  k_container : gmap object_class (list obj_ref);  (**  rt_object_container *)
  k_errno : Z                    (**  __rt_errno *)
}.

(** ** Field updates *)

Definition set_th_error (v : Z) (x : rt_thread) : rt_thread :=
  mk_thread (th_sp x) (th_stack_addr x) (th_stack_size x) (th_stack_mark x) v (th_stat x) (th_current_priority x) (th_init_priority x) (th_number_mask x) (th_event_set x) (th_event_info x) (th_init_tick x) (th_remaining_tick x) (th_cleanup x).
Definition set_th_stat (v : Z) (x : rt_thread) : rt_thread :=
  mk_thread (th_sp x) (th_stack_addr x) (th_stack_size x) (th_stack_mark x) (th_error x) v (th_current_priority x) (th_init_priority x) (th_number_mask x) (th_event_set x) (th_event_info x) (th_init_tick x) (th_remaining_tick x) (th_cleanup x).
Definition set_th_current_priority (v : Z) (x : rt_thread) : rt_thread :=
  mk_thread (th_sp x) (th_stack_addr x) (th_stack_size x) (th_stack_mark x) (th_error x) (th_stat x) v (th_init_priority x) (th_number_mask x) (th_event_set x) (th_event_info x) (th_init_tick x) (th_remaining_tick x) (th_cleanup x).
Definition set_th_number_mask (v : Z) (x : rt_thread) : rt_thread :=
  mk_thread (th_sp x) (th_stack_addr x) (th_stack_size x) (th_stack_mark x) (th_error x) (th_stat x) (th_current_priority x) (th_init_priority x) v (th_event_set x) (th_event_info x) (th_init_tick x) (th_remaining_tick x) (th_cleanup x).
Definition set_th_event_set (v : Z) (x : rt_thread) : rt_thread :=
  mk_thread (th_sp x) (th_stack_addr x) (th_stack_size x) (th_stack_mark x) (th_error x) (th_stat x) (th_current_priority x) (th_init_priority x) (th_number_mask x) v (th_event_info x) (th_init_tick x) (th_remaining_tick x) (th_cleanup x).
Definition set_th_event_info (v : Z) (x : rt_thread) : rt_thread :=
  mk_thread (th_sp x) (th_stack_addr x) (th_stack_size x) (th_stack_mark x) (th_error x) (th_stat x) (th_current_priority x) (th_init_priority x) (th_number_mask x) (th_event_set x) v (th_init_tick x) (th_remaining_tick x) (th_cleanup x).
Definition set_th_remaining_tick (v : Z) (x : rt_thread) : rt_thread :=
  mk_thread (th_sp x) (th_stack_addr x) (th_stack_size x) (th_stack_mark x) (th_error x) (th_stat x) (th_current_priority x) (th_init_priority x) (th_number_mask x) (th_event_set x) (th_event_info x) (th_init_tick x) v (th_cleanup x).
Definition set_tm_flag (v : Z) (x : rt_timer) : rt_timer :=
  mk_timer v (tm_func x) (tm_init_tick x) (tm_timeout_tick x).
Definition set_tm_init_tick (v : Z) (x : rt_timer) : rt_timer :=
  mk_timer (tm_flag x) (tm_func x) v (tm_timeout_tick x).
Definition set_tm_timeout_tick (v : Z) (x : rt_timer) : rt_timer :=
  mk_timer (tm_flag x) (tm_func x) (tm_init_tick x) v.
Definition set_k_threads (f : (gmap nat rt_thread) -> (gmap nat rt_thread)) (s : kstate) : kstate :=
  mk_kstate (f (k_threads s)) (k_tlists s) (k_group s) (k_current s) (k_current_priority s) (k_lock_nest s) (k_int_nest s) (k_tick s) (k_timers s) (k_timer_list s) (k_random_nr s) (k_objects s) (k_container s) (k_errno s).
Definition set_k_tlists (f : (gmap tlist_head (list nat)) -> (gmap tlist_head (list nat))) (s : kstate) : kstate :=
  mk_kstate (k_threads s) (f (k_tlists s)) (k_group s) (k_current s) (k_current_priority s) (k_lock_nest s) (k_int_nest s) (k_tick s) (k_timers s) (k_timer_list s) (k_random_nr s) (k_objects s) (k_container s) (k_errno s).
Definition set_k_group (f : Z -> Z) (s : kstate) : kstate :=
  mk_kstate (k_threads s) (k_tlists s) (f (k_group s)) (k_current s) (k_current_priority s) (k_lock_nest s) (k_int_nest s) (k_tick s) (k_timers s) (k_timer_list s) (k_random_nr s) (k_objects s) (k_container s) (k_errno s).
Definition set_k_current (f : (option nat) -> (option nat)) (s : kstate) : kstate :=
  mk_kstate (k_threads s) (k_tlists s) (k_group s) (f (k_current s)) (k_current_priority s) (k_lock_nest s) (k_int_nest s) (k_tick s) (k_timers s) (k_timer_list s) (k_random_nr s) (k_objects s) (k_container s) (k_errno s).
Definition set_k_current_priority (f : Z -> Z) (s : kstate) : kstate :=
  mk_kstate (k_threads s) (k_tlists s) (k_group s) (k_current s) (f (k_current_priority s)) (k_lock_nest s) (k_int_nest s) (k_tick s) (k_timers s) (k_timer_list s) (k_random_nr s) (k_objects s) (k_container s) (k_errno s).
Definition set_k_lock_nest (f : Z -> Z) (s : kstate) : kstate :=
  mk_kstate (k_threads s) (k_tlists s) (k_group s) (k_current s) (k_current_priority s) (f (k_lock_nest s)) (k_int_nest s) (k_tick s) (k_timers s) (k_timer_list s) (k_random_nr s) (k_objects s) (k_container s) (k_errno s).
Definition set_k_int_nest (f : Z -> Z) (s : kstate) : kstate :=
  mk_kstate (k_threads s) (k_tlists s) (k_group s) (k_current s) (k_current_priority s) (k_lock_nest s) (f (k_int_nest s)) (k_tick s) (k_timers s) (k_timer_list s) (k_random_nr s) (k_objects s) (k_container s) (k_errno s).
Definition set_k_tick (f : Z -> Z) (s : kstate) : kstate :=
  mk_kstate (k_threads s) (k_tlists s) (k_group s) (k_current s) (k_current_priority s) (k_lock_nest s) (k_int_nest s) (f (k_tick s)) (k_timers s) (k_timer_list s) (k_random_nr s) (k_objects s) (k_container s) (k_errno s).
Definition set_k_timers (f : (gmap timer_id rt_timer) -> (gmap timer_id rt_timer)) (s : kstate) : kstate :=
  mk_kstate (k_threads s) (k_tlists s) (k_group s) (k_current s) (k_current_priority s) (k_lock_nest s) (k_int_nest s) (k_tick s) (f (k_timers s)) (k_timer_list s) (k_random_nr s) (k_objects s) (k_container s) (k_errno s).
Definition set_k_timer_list (f : (list timer_id) -> (list timer_id)) (s : kstate) : kstate :=
  mk_kstate (k_threads s) (k_tlists s) (k_group s) (k_current s) (k_current_priority s) (k_lock_nest s) (k_int_nest s) (k_tick s) (k_timers s) (f (k_timer_list s)) (k_random_nr s) (k_objects s) (k_container s) (k_errno s).
Definition set_k_random_nr (f : Z -> Z) (s : kstate) : kstate :=
  mk_kstate (k_threads s) (k_tlists s) (k_group s) (k_current s) (k_current_priority s) (k_lock_nest s) (k_int_nest s) (k_tick s) (k_timers s) (k_timer_list s) (f (k_random_nr s)) (k_objects s) (k_container s) (k_errno s).
Definition set_k_objects (f : (gmap obj_ref rt_object) -> (gmap obj_ref rt_object)) (s : kstate) : kstate :=
  mk_kstate (k_threads s) (k_tlists s) (k_group s) (k_current s) (k_current_priority s) (k_lock_nest s) (k_int_nest s) (k_tick s) (k_timers s) (k_timer_list s) (k_random_nr s) (f (k_objects s)) (k_container s) (k_errno s).
Definition set_k_container (f : (gmap object_class (list obj_ref)) -> (gmap object_class (list obj_ref))) (s : kstate) : kstate :=
  mk_kstate (k_threads s) (k_tlists s) (k_group s) (k_current s) (k_current_priority s) (k_lock_nest s) (k_int_nest s) (k_tick s) (k_timers s) (k_timer_list s) (k_random_nr s) (k_objects s) (f (k_container s)) (k_errno s).

Definition set_k_errno (f : Z -> Z) (s : kstate) : kstate :=
  mk_kstate (k_threads s) (k_tlists s) (k_group s) (k_current s) (k_current_priority s) (k_lock_nest s) (k_int_nest s) (k_tick s) (k_timers s) (k_timer_list s) (k_random_nr s) (k_objects s) (k_container s) (f (k_errno s)).

(** ** Primitive accesses *)

Definition get_thread (t : nat) : M kstate rt_thread := deref (fun s => k_threads s !! t).
Definition upd_thread (t : nat) (f : rt_thread -> rt_thread) : M kstate unit :=
  th ← get_thread t; modify (set_k_threads (<[t := f th]>)).

Definition get_timer (i : timer_id) : M kstate rt_timer := deref (fun s => k_timers s !! i).
Definition upd_timer (i : timer_id) (f : rt_timer -> rt_timer) : M kstate unit :=
  tm ← get_timer i; modify (set_k_timers (<[i := f tm]>)).

(** The sequence behind a list head. *)
Definition tl (s : kstate) (h : tlist_head) : list nat := default [] (k_tlists s !! h).

Definition linked (s : kstate) (t : nat) : Prop := exists h, t ∈ tl s h.
Definition is_linkedb (s : kstate) (t : nat) : bool :=
  existsb (fun e : tlist_head * list nat => bool_decide (t ∈ e.2)) (map_to_list (k_tlists s)).

(** Linking a node that is already in a list would corrupt both lists, so the
    insertions fault on a linked thread: [RtList] needs an unlinked node. *)
Definition require_unlinked (t : nat) : M kstate unit :=
  s ← get; rt_assert (negb (is_linkedb s t)).

(** [rt_list_insert_before(head, &thread->tlist)] *)
Definition tlist_append (h : tlist_head) (t : nat) : M kstate unit :=
  require_unlinked t;; s ← get; modify (set_k_tlists (<[h := tl s h ++ [t]]>)).

(** [rt_list_insert_after(head, &thread->tlist)] *)
Definition tlist_push (h : tlist_head) (t : nat) : M kstate unit :=
  require_unlinked t;; s ← get; modify (set_k_tlists (<[h := t :: tl s h]>)).

(** [rt_list_remove(&thread->tlist)]: out of whichever list holds the node. *)
Definition tlist_remove (t : nat) : M kstate unit :=
  modify (set_k_tlists (fmap (filter (fun u => u ≠ t)))).

(** [thread->stat & RT_THREAD_STAT_MASK] *)
Definition state_of (th : rt_thread) : Z := Z.land (th_stat th) RT_THREAD_STAT_MASK.

(** [new | (stat & ~RT_THREAD_STAT_MASK)] *)
Definition with_state (new stat : Z) : Z :=
  Z.lor new (Z.land stat (Z.lnot RT_THREAD_STAT_MASK)).

(** [RT_DEBUG_NOT_IN_INTERRUPT] and [RT_DEBUG_IN_THREAD_CONTEXT] of rtdebug.h *)
Definition RT_DEBUG_NOT_IN_INTERRUPT : M kstate unit :=
  n ← gets k_int_nest; rt_assert (n =? 0).
Definition RT_DEBUG_IN_THREAD_CONTEXT : M kstate unit :=
  c ← gets k_current; rt_assert (bool_decide (is_Some c));; RT_DEBUG_NOT_IN_INTERRUPT.

(** [rt_thread_self()] where the result is used as a thread. *)
Definition rt_thread_self : M kstate nat := deref k_current.

(** [rt_tick_get()] *)
Definition rt_tick_get : M kstate Z := gets k_tick.

(** [rt_set_errno] of src/kservice.c *)
Definition rt_set_errno (error : Z) : M kstate unit :=
  n ← gets k_int_nest;
  if negb (n =? 0) then modify (set_k_errno (fun _ => error))
  else
    c ← gets k_current;
    match c with
    | None => modify (set_k_errno (fun _ => error))
    | Some tid => upd_thread tid (set_th_error error)
    end.
