(* ===== verification/Object.v ===== *)
(** * Kernel objects: src/object.c

    The object container: one list of objects per class, object headers with
    a name of at most [RT_NAME_MAX] bytes and a type whose high bit marks a
    statically allocated object. *)

From S2P Require Import Prelude Kernel.

Definition RT_NAME_MAX : nat := 8.

(** ** [rt_strncpy] and [rt_strncmp] of src/kservice.c

    A C string is the list of its bytes; a read past the end of the list is
    the terminating zero. *)

Fixpoint rt_strncpy (src : list Z) (n : nat) : list Z :=
  match n with
  | O => []
  | S n => match src with
           | [] => replicate (S n) 0
           | c :: src => if c =? 0 then replicate (S n) 0 else c :: rt_strncpy src n
           end
  end.

(** [signed char __res] *)
Definition s8 (z : Z) : Z := (z + 128) mod 256 - 128.

Fixpoint rt_strncmp (cs ct : list Z) (count : nat) : Z :=
  match count with
  | O => 0
  | S count =>
      let c := hd 0 cs in let d := hd 0 ct in
      let r := s8 (c - d) in
      if negb (r =? 0) || (c =? 0) then r
      else rt_strncmp (List.tl cs) (List.tl ct) count
  end.

(** ** The container *)

(** The classes [rt_object_container] is initialised with in this
    configuration: memory heaps and modules are not enabled. *)
Definition configured_classes : list object_class :=
  [RT_Object_Class_Thread; RT_Object_Class_Semaphore; RT_Object_Class_Mutex;
   RT_Object_Class_Event; RT_Object_Class_MailBox; RT_Object_Class_MessageQueue;
   RT_Object_Class_MemPool; RT_Object_Class_Device; RT_Object_Class_Timer].

Definition rt_object_get_information (c : object_class) : option object_class :=
  find (fun d => bool_decide (d = c)) configured_classes.

Definition objs (s : kstate) (c : object_class) : list obj_ref := default [] (k_container s !! c).

(** The common part of [rt_object_init] and [rt_object_allocate]: header, then
    [rt_list_insert_after] on the list of the class. *)
Definition object_attach (r : obj_ref) (type : Z) (name : list Z) : M kstate unit :=
  modify (set_k_objects (<[r := mk_object (rt_strncpy name RT_NAME_MAX) type]>));;
  s ← get; modify (set_k_container (<[ref_class r := r :: objs s (ref_class r)]>)).

Definition rt_object_init (r : obj_ref) (name : list Z) : M kstate unit :=
  rt_assert (bool_decide (is_Some (rt_object_get_information (ref_class r))));;
  object_attach r (Z.lor (Z.of_nat (class_code (ref_class r))) RT_Object_Class_Static) name.

(** [rt_list_remove(&(object->list))] *)
Definition object_unlink (r : obj_ref) : M kstate unit :=
  modify (set_k_container (fmap (filter (fun q => q ≠ r)))).

Definition rt_object_detach (r : obj_ref) : M kstate unit := object_unlink r.

(** [mem] is the result of [RT_KERNEL_MALLOC]: the address the object gets, or
    [None] for [RT_NULL]. *)
Definition rt_object_allocate (c : object_class) (mem : option nat) (name : list Z)
    : M kstate (option nat) :=
  RT_DEBUG_NOT_IN_INTERRUPT;;
  rt_assert (bool_decide (is_Some (rt_object_get_information c)));;
  match mem with
  | None => mret None
  | Some o => object_attach (Obj c o) (Z.of_nat (class_code c)) name;; mret (Some o)
  end.

Definition get_object (r : obj_ref) : M kstate rt_object := deref (fun s => k_objects s !! r).

Definition is_static (ob : rt_object) : bool :=
  negb (Z.land (ob_type ob) RT_Object_Class_Static =? 0).

(** The object memory is returned with [RT_KERNEL_FREE]: its header is gone. *)
Definition rt_object_delete (r : obj_ref) : M kstate unit :=
  ob ← get_object r;
  rt_assert (negb (is_static ob));;
  object_unlink r;;
  modify (set_k_objects (delete r)).

Definition rt_object_is_systemobject (r : obj_ref) : M kstate bool :=
  ob ← get_object r; mret (is_static ob).
