(* ===== verification/Timer.v ===== *)
(** * Timers: src/timer.c

    The hard timer list ([RT_TIMER_SKIP_LIST_LEVEL] is 1 in this configuration,
    so there is one row), starting, stopping and controlling a timer.
    [rt_timer_check], which runs the timeout functions, is in [Clock]. *)

From S2P Require Import Prelude Kernel Object.

Inductive timer_cmd :=
| RT_TIMER_CTRL_SET_TIME (tick : Z)
| RT_TIMER_CTRL_GET_TIME
| RT_TIMER_CTRL_SET_ONESHOT
| RT_TIMER_CTRL_SET_PERIODIC.

Definition timer_ref (i : timer_id) : obj_ref :=
  match i with TThread t => ThreadTimer t | TObject n => Obj RT_Object_Class_Timer n end.

Definition clear_activated (tm : rt_timer) : rt_timer :=
  set_tm_flag (Z.land (tm_flag tm) (Z.lnot RT_TIMER_FLAG_ACTIVATED)) tm.
Definition set_activated (tm : rt_timer) : rt_timer :=
  set_tm_flag (Z.lor (tm_flag tm) RT_TIMER_FLAG_ACTIVATED) tm.
Definition is_activated (tm : rt_timer) : bool :=
  negb (Z.land (tm_flag tm) RT_TIMER_FLAG_ACTIVATED =? 0).
Definition is_periodic (tm : rt_timer) : bool :=
  negb (Z.land (tm_flag tm) RT_TIMER_FLAG_PERIODIC =? 0).

(** [_rt_timer_init]: the node is initialised on its own. *)
Definition _rt_timer_init (i : timer_id) (timeout : timeout_fn) (time flag : Z) : M kstate unit :=
  modify (set_k_timers (<[i := clear_activated (mk_timer flag timeout time 0)]>)).

Definition rt_timer_init (i : timer_id) (name : list Z) (timeout : timeout_fn) (time flag : Z)
    : M kstate unit :=
  rt_object_init (timer_ref i) name;; _rt_timer_init i timeout time flag.

(** [rt_list_remove(&timer->row[0])] *)
Definition _rt_timer_remove (i : timer_id) : M kstate unit :=
  modify (set_k_timer_list (filter (fun j => j ≠ i))).

Definition rt_timer_detach (i : timer_id) : M kstate Z :=
  _rt_timer_remove i;; rt_object_detach (timer_ref i);; mret (- RT_EOK).

Definition rt_timer_create (mem : option nat) (name : list Z) (timeout : timeout_fn) (time flag : Z)
    : M kstate (option nat) :=
  o ← rt_object_allocate RT_Object_Class_Timer mem name;
  match o with
  | None => mret None
  | Some n => _rt_timer_init (TObject n) timeout time flag;; mret (Some n)
  end.

Definition rt_timer_delete (n : nat) : M kstate Z :=
  _rt_timer_remove (TObject n);; rt_object_delete (timer_ref (TObject n));; mret (- RT_EOK).

Definition timeout_tick_of (s : kstate) (i : timer_id) : Z :=
  match k_timers s !! i with Some tm => tm_timeout_tick tm | None => 0 end.

(** The search for the insertion point: skip the timers that expire before or
    at the same tick, in wrapping 32-bit arithmetic, and link after them. *)
Fixpoint timer_row_insert (tick_of : timer_id -> Z) (timeout_tick : Z) (i : timer_id)
    (row : list timer_id) : list timer_id :=
  match row with
  | [] => [i]
  | t :: rest =>
      let d := u32 (tick_of t - timeout_tick) in
      if d =? 0 then t :: timer_row_insert tick_of timeout_tick i rest
      else if d <? RT_TICK_MAX / 2 then i :: t :: rest
      else t :: timer_row_insert tick_of timeout_tick i rest
  end.

Definition rt_timer_start (i : timer_id) : M kstate Z :=
  _rt_timer_remove i;;
  upd_timer i clear_activated;;
  tm ← get_timer i;
  rt_assert (tm_init_tick tm <? RT_TICK_MAX / 2);;
  now ← rt_tick_get;
  upd_timer i (set_tm_timeout_tick (u32 (now + tm_init_tick tm)));;
  modify (set_k_random_nr (fun n => u32 (n + 1)));;
  s ← get;
  modify (set_k_timer_list (timer_row_insert (timeout_tick_of s) (u32 (now + tm_init_tick tm)) i));;
  upd_timer i set_activated;;
  mret (- RT_EOK).

Definition rt_timer_stop (i : timer_id) : M kstate Z :=
  tm ← get_timer i;
  if negb (is_activated tm) then mret (- RT_ERROR)
  else
    _rt_timer_remove i;;
    upd_timer i clear_activated;;
    mret RT_EOK.

(** The value is the tick written to [*arg] by [GET_TIME]. *)
Definition rt_timer_control (i : timer_id) (cmd : timer_cmd) : M kstate (Z * option Z) :=
  match cmd with
  | RT_TIMER_CTRL_GET_TIME => tm ← get_timer i; mret (RT_EOK, Some (tm_init_tick tm))
  | RT_TIMER_CTRL_SET_TIME tick => upd_timer i (set_tm_init_tick tick);; mret (RT_EOK, None)
  | RT_TIMER_CTRL_SET_ONESHOT =>
      upd_timer i (fun tm => set_tm_flag (Z.land (tm_flag tm) (Z.lnot RT_TIMER_FLAG_PERIODIC)) tm);;
      mret (RT_EOK, None)
  | RT_TIMER_CTRL_SET_PERIODIC =>
      upd_timer i (fun tm => set_tm_flag (Z.lor (tm_flag tm) RT_TIMER_FLAG_PERIODIC) tm);;
      mret (RT_EOK, None)
  end.

(** [rt_timer_list_next_timeout] on the hard timer list, which
    [rt_timer_next_timeout_tick] returns. *)
Definition rt_timer_next_timeout_tick : M kstate Z :=
  s ← get;
  match k_timer_list s with
  | [] => mret RT_TICK_MAX
  | i :: _ => tm ← get_timer i; mret (tm_timeout_tick tm)
  end.

Definition rt_system_timer_init : M kstate unit := modify (set_k_timer_list (fun _ => [])).
