(* ===== verification/Scheduler.v ===== *)
(** * Scheduler: src/scheduler.c

    Ready queues per priority, the ready bitmap, [rt_schedule] and the
    scheduler lock, for [RT_THREAD_PRIORITY_MAX] = 32. *)

From S2P Require Import Prelude Ffs Kernel Object Timer.

Definition priorities : list Z := seqZ 0 RT_THREAD_PRIORITY_MAX.

Definition rt_system_scheduler_init : M kstate unit :=
  modify (set_k_lock_nest (fun _ => 0));;
  modify (set_k_tlists (fun m => foldr (fun p m => <[HReady p := []]> m) m priorities));;
  modify (set_k_current_priority (fun _ => RT_THREAD_PRIORITY_MAX - 1));;
  modify (set_k_current (fun _ => None));;
  modify (set_k_group (fun _ => 0));;
  modify (set_k_tlists (<[HDefunct := []]>)).

(** [_rt_scheduler_stack_check]: on an overflow the code prints and loops with
    interrupts disabled. *)
Definition stack_overflowed (th : rt_thread) : bool :=
  negb (th_stack_mark th =? 35) ||
  (th_sp th <=? th_stack_addr th) ||
  (u32 (th_stack_addr th + th_stack_size th) <? th_sp th).

Definition _rt_scheduler_stack_check (t : nat) : M kstate unit :=
  th ← get_thread t; rt_assert (negb (stack_overflowed th)).

(** [rt_list_entry(rt_thread_priority_table[highest].next, ...)]; on an empty
    list the entry would be the head itself, which is no thread. *)
Definition highest_ready_priority (s : kstate) : Z := __rt_ffs (k_group s) - 1.
Definition highest_ready_thread : M kstate nat :=
  deref (fun s => head (tl s (HReady (highest_ready_priority s)))).

Definition rt_system_scheduler_start : M kstate unit :=
  to_thread ← highest_ready_thread;
  modify (set_k_current (fun _ => Some to_thread)).

(** The hardware context switch itself is the change of [k_current]. *)
Definition rt_schedule : M kstate unit :=
  nest ← gets k_lock_nest;
  if nest =? 0 then
    highest ← gets highest_ready_priority;
    to_thread ← highest_ready_thread;
    current ← gets k_current;
    if bool_decide (current = Some to_thread) then mret tt
    else
      modify (set_k_current_priority (fun _ => u8 highest));;
      modify (set_k_current (fun _ => Some to_thread));;
      _rt_scheduler_stack_check to_thread
  else mret tt.

(** Indexing [rt_thread_priority_table]. *)
Definition in_table (p : Z) : bool := (0 <=? p) && (p <? RT_THREAD_PRIORITY_MAX).

Definition rt_schedule_insert_thread (t : nat) : M kstate unit :=
  upd_thread t (fun th => set_th_stat (with_state RT_THREAD_READY (th_stat th)) th);;
  th ← get_thread t;
  rt_assert (in_table (th_current_priority th));;
  tlist_append (HReady (th_current_priority th)) t;;
  modify (set_k_group (fun g => Z.lor g (th_number_mask th))).

Definition rt_schedule_remove_thread (t : nat) : M kstate unit :=
  tlist_remove t;;
  th ← get_thread t;
  rt_assert (in_table (th_current_priority th));;
  s ← get;
  when (bool_decide (tl s (HReady (th_current_priority th)) = []))
    (modify (set_k_group (fun g => Z.land g (Z.lnot (th_number_mask th))))).

(** The lock count is an [rt_int16_t]. *)
Definition rt_enter_critical : M kstate unit :=
  modify (set_k_lock_nest (fun n => s16 (n + 1))).

Definition rt_exit_critical : M kstate unit :=
  modify (set_k_lock_nest (fun n => s16 (n - 1)));;
  n ← gets k_lock_nest;
  if n <=? 0 then modify (set_k_lock_nest (fun _ => 0));; rt_schedule
  else mret tt.

(** [rt_uint16_t rt_critical_level(void)] *)
Definition rt_critical_level : M kstate Z := n ← gets k_lock_nest; mret (u16 n).

(** [rt_interrupt_enter] and [rt_interrupt_leave] of src/irq.c *)
Definition rt_interrupt_enter : M kstate unit := modify (set_k_int_nest (fun n => u8 (n + 1))).
Definition rt_interrupt_leave : M kstate unit := modify (set_k_int_nest (fun n => u8 (n - 1))).
