(* ===== verification/Thread.v ===== *)
(** * Threads: src/thread.c, with the object search of src/object.c

    Creation, start, suspension, resumption, priority change, sleep, timeout
    and termination of threads, each composed of the scheduler, timer and
    object operations the C function calls. *)

From S2P Require Import Prelude Kernel Object Timer Scheduler.

Definition thread_ref (t : nat) : obj_ref := Obj RT_Object_Class_Thread t.

(** ** Suspend and resume *)

Definition rt_thread_suspend (t : nat) : M kstate Z :=
  th ← get_thread t;
  if negb (state_of th =? RT_THREAD_READY) then mret (- RT_ERROR)
  else
    upd_thread t (fun th => set_th_stat (with_state RT_THREAD_SUSPEND (th_stat th)) th);;
    rt_schedule_remove_thread t;;
    rt_timer_stop (TThread t);;
    mret RT_EOK.

Definition rt_thread_resume (t : nat) : M kstate Z :=
  th ← get_thread t;
  if negb (state_of th =? RT_THREAD_SUSPEND) then mret (- RT_ERROR)
  else
    tlist_remove t;;
    rt_timer_stop (TThread t);;
    rt_schedule_insert_thread t;;
    mret RT_EOK.

Definition rt_thread_timeout (t : nat) : M kstate unit :=
  th ← get_thread t;
  rt_assert (state_of th =? RT_THREAD_SUSPEND);;
  upd_thread t (set_th_error (- RT_ETIMEOUT));;
  tlist_remove t;;
  rt_schedule_insert_thread t;;
  rt_schedule.

(** ** Creation and start *)

(** [sizeof(struct stack_frame)] of libcpu/arm/cortex-m4 with the FPU in use *)
Definition sizeof_stack_frame : Z := 68.

(** The address [rt_hw_stack_init] returns for the top of the stack. *)
Definition rt_hw_stack_init (stack_addr : Z) : Z :=
  u32 (RT_ALIGN_DOWN (u32 (stack_addr + 4)) 8 - sizeof_stack_frame).

Definition _rt_thread_init (t : nat) (name : list Z) (stack_start stack_size priority tick : Z)
    : M kstate Z :=
  old ← gets (fun s => k_threads s !! t);
  rt_assert (priority <? RT_THREAD_PRIORITY_MAX);;
  modify (set_k_threads (<[t := mk_thread
    (rt_hw_stack_init (u32 (stack_start + stack_size - 4)))
    stack_start stack_size 35 RT_EOK RT_THREAD_INIT priority priority 0
    (from_option th_event_set 0 old) (from_option th_event_info 0 old)
    tick tick false]>));;
  rt_timer_init (TThread t) name (rt_thread_timeout_of t) 0 0;;
  mret RT_EOK.

Definition rt_thread_init (t : nat) (name : list Z) (stack_start stack_size priority tick : Z)
    : M kstate Z :=
  rt_assert (negb (stack_start =? 0));;
  rt_object_init (thread_ref t) name;;
  _rt_thread_init t name stack_start stack_size priority tick.

(** [1L << current_priority]: shifting by the width or more is undefined. *)
Definition number_mask_of (p : Z) : M kstate Z :=
  rt_assert (in_table p);; mret (Z.shiftl 1 p).

Definition rt_thread_startup (t : nat) : M kstate Z :=
  th ← get_thread t;
  rt_assert (state_of th =? RT_THREAD_INIT);;
  m ← number_mask_of (th_init_priority th);
  upd_thread t (fun th => set_th_stat RT_THREAD_SUSPEND (set_th_number_mask m
    (set_th_current_priority (th_init_priority th) th)));;
  rt_thread_resume t;;
  c ← gets k_current;
  when (bool_decide (is_Some c)) rt_schedule;;
  mret RT_EOK.

(** [mem] and [stack] are the results of the two allocations. *)
Definition rt_thread_create (mem : option nat) (stack : option Z) (name : list Z)
    (stack_size priority tick : Z) : M kstate (option nat) :=
  o ← rt_object_allocate RT_Object_Class_Thread mem name;
  match o with
  | None => mret None
  | Some t =>
      match stack with
      | None => rt_object_delete (thread_ref t);; mret None
      | Some stack_start =>
          _rt_thread_init t name stack_start stack_size priority tick;; mret (Some t)
      end
  end.

(** ** Termination *)

Definition set_stat_close (t : nat) : M kstate unit := upd_thread t (set_th_stat RT_THREAD_CLOSE).

(** The prefix shared by [rt_thread_detach] and [rt_thread_delete]. *)
Definition thread_retire (t : nat) : M kstate unit :=
  th ← get_thread t;
  when (negb (state_of th =? RT_THREAD_INIT)) (rt_schedule_remove_thread t);;
  rt_timer_detach (TThread t);;
  set_stat_close t.

Definition rt_thread_detach (t : nat) : M kstate Z :=
  thread_retire t;;
  rt_object_detach (thread_ref t);;
  th ← get_thread t;
  when (th_cleanup th) (tlist_push HDefunct t);;
  mret RT_EOK.

Definition rt_thread_delete (t : nat) : M kstate Z :=
  thread_retire t;; tlist_push HDefunct t;; mret RT_EOK.

Definition rt_thread_exit : M kstate unit :=
  t ← rt_thread_self;
  rt_schedule_remove_thread t;;
  set_stat_close t;;
  rt_timer_detach (TThread t);;
  sys ← rt_object_is_systemobject (thread_ref t);
  th ← get_thread t;
  (if sys && negb (th_cleanup th) then rt_object_detach (thread_ref t)
   else tlist_push HDefunct t);;
  rt_schedule.

(** ** Yield, sleep and control *)

(** [thread->tlist.next != thread->tlist.prev]: another node is in the same
    list ([RtList.next_prev_differ_iff]). *)
Definition has_sibling (s : kstate) (t : nat) : bool :=
  existsb (fun e : tlist_head * list nat => bool_decide (t ∈ e.2) && (2 <=? length e.2)%nat)
    (map_to_list (k_tlists s)).

Definition rt_thread_yield : M kstate Z :=
  t ← rt_thread_self;
  th ← get_thread t;
  s ← get;
  if (state_of th =? RT_THREAD_READY) && has_sibling s t then
    tlist_remove t;;
    rt_assert (in_table (th_current_priority th));;
    tlist_append (HReady (th_current_priority th)) t;;
    rt_schedule;;
    mret RT_EOK
  else mret RT_EOK.

(** Up to the call of [rt_schedule]; the local is the calling thread. *)
Definition rt_thread_sleep (tick : Z) : M kstate (call nat Z) :=
  t ← rt_thread_self;
  rt_thread_suspend t;;
  rt_timer_control (TThread t) (RT_TIMER_CTRL_SET_TIME tick);;
  rt_timer_start (TThread t);;
  rt_schedule;;
  mret (Waiting t).

Definition rt_thread_sleep_resume (t : nat) : M kstate (call nat Z) :=
  th ← get_thread t;
  when (th_error th =? - RT_ETIMEOUT) (upd_thread t (set_th_error RT_EOK));;
  mret (Return RT_EOK).

Definition rt_thread_delay (tick : Z) : M kstate (call nat Z) := rt_thread_sleep tick.

Inductive thread_cmd :=
| RT_THREAD_CTRL_CHANGE_PRIORITY (prio : Z)
| RT_THREAD_CTRL_STARTUP
| RT_THREAD_CTRL_CLOSE
| RT_THREAD_CTRL_OTHER.

Definition set_priority (p m : Z) (th : rt_thread) : rt_thread :=
  set_th_number_mask m (set_th_current_priority p th).

Definition rt_thread_control (t : nat) (cmd : thread_cmd) : M kstate Z :=
  match cmd with
  | RT_THREAD_CTRL_CHANGE_PRIORITY p =>
      th ← get_thread t;
      (if state_of th =? RT_THREAD_READY then
         rt_schedule_remove_thread t;;
         m ← number_mask_of p;
         upd_thread t (set_priority p m);;
         rt_schedule_insert_thread t
       else
         m ← number_mask_of p;
         upd_thread t (set_priority p m));;
      mret RT_EOK
  | RT_THREAD_CTRL_STARTUP => rt_thread_startup t
  | RT_THREAD_CTRL_CLOSE => rt_thread_delete t
  | RT_THREAD_CTRL_OTHER => mret RT_EOK
  end.

(** ** Search by name *)

Definition name_matches (s : kstate) (name : list Z) (r : obj_ref) : bool :=
  match k_objects s !! r with
  | Some ob => rt_strncmp (ob_name ob) name RT_NAME_MAX =? 0
  | None => false
  end.

Definition rt_object_find (name : option (list Z)) (c : object_class) : M kstate (option obj_ref) :=
  match name with
  | None => mret None
  | Some name =>
      RT_DEBUG_NOT_IN_INTERRUPT;;
      rt_enter_critical;;
      rt_assert (bool_decide (is_Some (rt_object_get_information c)));;
      s ← get;
      let r := find (name_matches s name) (objs s c) in
      rt_exit_critical;;
      mret r
  end.

Definition rt_thread_find (name : list Z) : M kstate (option obj_ref) :=
  c ← gets k_current;
  when (bool_decide (is_Some c)) rt_enter_critical;;
  s ← get;
  let r := find (name_matches s name) (objs s RT_Object_Class_Thread) in
  c ← gets k_current;
  when (bool_decide (is_Some c)) rt_exit_critical;;
  mret r.
