(* ===== verification/Clock.v ===== *)
(** * System tick: src/clock.c, and [rt_timer_check] of src/timer.c

    The tick interrupt: advancing the tick, the time slice of the running
    thread, and running the timeout functions of the expired timers. *)

From S2P Require Import Prelude Kernel Object Timer Scheduler Thread.

Section clock.
(** The timeout functions of timer objects are application code. *)
Context (user_cb : nat -> M kstate unit).

Definition run_timeout (f : timeout_fn) : M kstate unit :=
  match f with
  | rt_thread_timeout_of t => rt_thread_timeout t
  | user_timeout n => user_cb n
  end.

(** [current_tick - t->timeout_tick < RT_TICK_MAX / 2] *)
Definition expired (current_tick : Z) (tm : rt_timer) : bool :=
  u32 (current_tick - tm_timeout_tick tm) <? RT_TICK_MAX / 2.

(** One iteration of the loop for the expired timer [i]. *)
Definition timer_fire (i : timer_id) (tm : rt_timer) : M kstate unit :=
  _rt_timer_remove i;;
  run_timeout (tm_func tm);;
  tm' ← get_timer i;
  if is_periodic tm' && is_activated tm' then
    upd_timer i clear_activated;; rt_timer_start i;; mret tt
  else upd_timer i clear_activated.

(** The [while] loop; the result tells whether it ended within the fuel. *)
Fixpoint rt_timer_check_loop (fuel : nat) (current_tick : Z) : M kstate bool :=
  match fuel with
  | O => mret false
  | S fuel =>
      s ← get;
      match k_timer_list s with
      | [] => mret true
      | i :: _ =>
          tm ← get_timer i;
          if expired current_tick tm then
            timer_fire i tm;;
            current_tick' ← rt_tick_get;
            rt_timer_check_loop fuel current_tick'
          else mret true
      end
  end.

Definition rt_timer_check (fuel : nat) : M kstate bool :=
  current_tick ← rt_tick_get; rt_timer_check_loop fuel current_tick.

Definition rt_tick_set (tick : Z) : M kstate unit := modify (set_k_tick (fun _ => tick)).

Definition rt_tick_increase (fuel : nat) : M kstate bool :=
  modify (set_k_tick (fun n => u32 (n + 1)));;
  t ← rt_thread_self;
  upd_thread t (fun th => set_th_remaining_tick (u32 (th_remaining_tick th - 1)) th);;
  th ← get_thread t;
  (if th_remaining_tick th =? 0 then
     upd_thread t (fun th => set_th_remaining_tick (th_init_tick th) th);;
     rt_thread_yield;; mret tt
   else mret tt);;
  rt_timer_check fuel.
End clock.

(** [int rt_tick_from_millisecond(rt_int32_t ms)]: the product and the sum are
    computed in 32 bits; the division truncates towards zero. *)
Definition rt_tick_from_millisecond (ms : Z) : Z :=
  if ms <? 0 then RT_WAITING_FOREVER
  else Z.quot (s32 (s32 (RT_TICK_PER_SECOND * ms) + 999)) 1000.

(** The conversion rounds up to whole ticks, and a negative number of
    milliseconds is "wait forever", as long as [1000 * ms + 999] fits 32 bits. *)
Theorem rt_tick_from_millisecond_correct ms :
  - 2 ^ 31 <= ms <= 2147482 ->
  rt_tick_from_millisecond ms = (if ms <? 0 then RT_WAITING_FOREVER else ms) /\
  (0 <= ms -> 1000 * (rt_tick_from_millisecond ms - 1) < RT_TICK_PER_SECOND * ms
              <= 1000 * rt_tick_from_millisecond ms).
Proof.
  intros Hms. unfold rt_tick_from_millisecond, RT_TICK_PER_SECOND.
  destruct (Z.ltb_spec ms 0); [split; [done|lia]|].
  rewrite (s32_small (1000 * ms)), s32_small by lia.
  assert (Z.quot (1000 * ms + 999) 1000 = ms) as ->.
  { symmetry. apply (Z.quot_unique _ _ _ 999); lia. }
  split; [done|lia].
Qed.

Lemma rt_tick_from_millisecond_correct_witness :
  rt_tick_from_millisecond 1500 = 1500 /\
  (0 <= 1500 -> 1000 * (rt_tick_from_millisecond 1500 - 1) < RT_TICK_PER_SECOND * 1500
              <= 1000 * rt_tick_from_millisecond 1500).
Proof. apply (rt_tick_from_millisecond_correct 1500). lia. Defined.

(** The documented maximum argument, 0x7fffffff milliseconds, overflows:
    the result is 0 ticks, that is "do not wait". *)
Theorem rt_tick_from_millisecond_max_overflows :
  rt_tick_from_millisecond 0x7fffffff = 0 /\
  rt_tick_from_millisecond 2147483 < 0.
Proof. split; vm_compute; reflexivity. Qed.
