(* ===== verification/KInv.v ===== *)
(** * The kernel invariant

    What the scheduler, the thread operations and the timers maintain about
    the kernel state, and the lemmas by which every operation is shown to
    preserve it. *)

From S2P Require Import Prelude Ffs Kernel Object Timer Scheduler Thread.

Create HintDb kernel discriminated.

(** ** Bit-level facts *)

Lemma state_of_with_state x st th :
  0 <= x < 16 -> state_of (set_th_stat (with_state x st) th) = x.
Proof.
  intros Hx. unfold state_of, with_state, RT_THREAD_STAT_MASK. simpl.
  rewrite Z.land_lor_distr_l, <- Z.land_assoc.
  replace (Z.land (Z.lnot 15) 15) with 0 by reflexivity.
  rewrite Z.land_0_r, Z.lor_0_r. change 15 with (Z.ones 4).
  rewrite Z.land_ones by lia. apply Z.mod_small. lia.
Qed.

Lemma land_lnot_mask y : 0 <= y < 16 -> Z.land y (Z.lnot RT_THREAD_STAT_MASK) = 0.
Proof.
  intros Hy. unfold RT_THREAD_STAT_MASK. change 15 with (Z.ones 4).
  rewrite <- Z.ldiff_land, Z.ldiff_ones_r, Z.shiftr_div_pow2, Z.div_small by lia. done.
Qed.

Lemma with_state_twice x y st : 0 <= y < 16 -> with_state x (with_state y st) = with_state x st.
Proof.
  intros Hy. unfold with_state. rewrite Z.land_lor_distr_l, land_lnot_mask by done.
  by rewrite Z.lor_0_l, <- Z.land_assoc, Z.land_diag.
Qed.

Lemma with_state_id th : with_state (state_of th) (th_stat th) = th_stat th.
Proof.
  unfold with_state, state_of. rewrite <- Z.land_lor_distr_r, Z.lor_lnot_diag. apply Z.land_m1_r.
Qed.

Lemma testbit_shiftl_1 p q : 0 <= p -> 0 <= q -> Z.testbit (Z.shiftl 1 p) q = bool_decide (p = q).
Proof.
  intros Hp Hq. rewrite Z.shiftl_1_l. case_bool_decide as E.
  - subst. by apply Z.pow2_bits_true.
  - apply Z.pow2_bits_false. lia.
Qed.

Lemma testbit_set_bit g p q : 0 <= p -> 0 <= q ->
  Z.testbit (Z.lor g (Z.shiftl 1 p)) q = Z.testbit g q || bool_decide (p = q).
Proof. intros. by rewrite Z.lor_spec, testbit_shiftl_1. Qed.

Lemma testbit_clear_bit g p q : 0 <= p -> 0 <= q ->
  Z.testbit (Z.land g (Z.lnot (Z.shiftl 1 p))) q = Z.testbit g q && negb (bool_decide (p = q)).
Proof. intros. by rewrite Z.land_spec, Z.lnot_spec, testbit_shiftl_1 by done. Qed.

Lemma lt_pow2_bits g n : 0 <= n -> 0 <= g ->
  g < 2 ^ n <-> (forall i, n <= i -> Z.testbit g i = false).
Proof.
  intros Hn Hg. split.
  - intros Hlt i Hi. destruct (Z.eq_dec g 0) as [->|]; [apply Z.bits_0|].
    apply Z.bits_above_log2; [done|]. apply Z.log2_lt_pow2; [lia|].
    apply Z.lt_le_trans with (2 ^ n); [done|apply Z.pow_le_mono_r; lia].
  - intros Hb. replace g with (g mod 2 ^ n); [apply Z.mod_pos_bound, Z.pow_pos_nonneg; lia|].
    apply Z.bits_inj'. intros i Hi. destruct (Z.lt_ge_cases i n).
    + apply Z.mod_pow2_bits_low; lia.
    + rewrite Z.mod_pow2_bits_high by lia. symmetry. by apply Hb.
Qed.

Lemma set_bit_range g p : 0 <= g < 2 ^ 32 -> 0 <= p < 32 -> 0 <= Z.lor g (Z.shiftl 1 p) < 2 ^ 32.
Proof.
  intros Hg Hp.
  assert (0 <= Z.lor g (Z.shiftl 1 p)) by (apply Z.lor_nonneg; rewrite Z.shiftl_nonneg; lia).
  split; [done|]. apply lt_pow2_bits; [lia|done|]. intros i Hi.
  rewrite testbit_set_bit, bool_decide_eq_false_2, orb_false_r by lia.
  eapply lt_pow2_bits; [| |apply Hg|]; lia.
Qed.

Lemma clear_bit_range g m : 0 <= g < 2 ^ 32 -> 0 <= Z.land g m < 2 ^ 32.
Proof.
  intros Hg. assert (0 <= Z.land g m) by (apply Z.land_nonneg; lia).
  split; [done|]. apply lt_pow2_bits; [lia|done|]. intros i Hi.
  rewrite Z.land_spec. replace (Z.testbit g i) with false; [done|].
  symmetry. eapply lt_pow2_bits; [| |apply Hg|]; lia.
Qed.

Lemma is_activated_clear tm : is_activated (clear_activated tm) = false.
Proof.
  unfold is_activated, clear_activated, RT_TIMER_FLAG_ACTIVATED. simpl.
  rewrite <- Z.land_assoc. replace (Z.land (Z.lnot 1) 1) with 0 by reflexivity.
  by rewrite Z.land_0_r.
Qed.

Lemma is_activated_set tm : is_activated (set_activated tm) = true.
Proof.
  unfold is_activated, set_activated, RT_TIMER_FLAG_ACTIVATED. simpl.
  rewrite Z.land_lor_distr_l, Z.land_diag.
  apply negb_true_iff, Z.eqb_neq. intros H. apply Z.lor_eq_0_iff in H. lia.
Qed.
#[export] Hint Resolve is_activated_clear is_activated_set : kernel.

(** ** Lookups after updates *)

Lemma tl_set_insert s h l h' :
  tl (set_k_tlists (<[h := l]>) s) h' = if decide (h = h') then l else tl s h'.
Proof. unfold tl. simpl. rewrite lookup_insert. by case_decide. Qed.

Lemma tl_set_filter s t h :
  tl (set_k_tlists (fmap (filter (fun u => u ≠ t))) s) h = filter (fun u => u ≠ t) (tl s h).
Proof. unfold tl. simpl. rewrite lookup_fmap. by destruct (k_tlists s !! h). Qed.

Lemma linked_spec s t : is_linkedb s t = true <-> linked s t.
Proof.
  unfold is_linkedb, linked, tl. rewrite existsb_exists. split.
  - intros ([h l] & Hin & Hb). to_prop. exists h.
    apply list_elem_of_In, elem_of_map_to_list in Hin. by rewrite Hin.
  - intros [h Hin]. destruct (k_tlists s !! h) as [l|] eqn:E; simpl in Hin; [|set_solver].
    exists (h, l). split; [by apply list_elem_of_In, elem_of_map_to_list|].
    apply bool_decide_eq_true_2. exact Hin.
Qed.

Lemma filter_ne_notin (t : nat) (l : list nat) : t ∉ l -> filter (fun u => u ≠ t) l = l.
Proof.
  induction l as [|x l IH]; intros Hn; [done|]. apply not_elem_of_cons in Hn as [? ?].
  rewrite filter_cons_True by done. f_equal. by apply IH.
Qed.

Lemma filter_ne_nil (t : nat) (l : list nat) : NoDup l -> filter (fun u => u ≠ t) l = [] -> l = [] \/ l = [t].
Proof.
  destruct l as [|x l]; intros Hnd Hf; [by left|right].
  rewrite filter_cons in Hf. case_decide; [done|].
  assert (x = t) as -> by (destruct (decide (x = t)); tauto). apply NoDup_cons in Hnd as [Hn _].
  rewrite filter_ne_notin in Hf by done. by subst.
Qed.

Lemma wp_require_unlinked t Q s : ¬ linked s t -> Q tt s -> wp (require_unlinked t) Q s.
Proof.
  intros Hl HQ. unfold require_unlinked. wp_steps. apply wp_assert; [|done].
  apply negb_true_iff, not_true_is_false. by rewrite linked_spec.
Qed.

Lemma wp_upd_thread t f th Q s :
  k_threads s !! t = Some th -> Q tt (set_k_threads (<[t := f th]>) s) -> wp (upd_thread t f) Q s.
Proof. intros H HQ. unfold upd_thread. wp_steps. by eapply wp_deref; [exact H|]. Qed.

Lemma wp_upd_timer i f tm Q s :
  k_timers s !! i = Some tm -> Q tt (set_k_timers (<[i := f tm]>) s) -> wp (upd_timer i f) Q s.
Proof. intros H HQ. unfold upd_timer. wp_steps. by eapply wp_deref; [exact H|]. Qed.

(** ** The invariant *)

Definition live (th : rt_thread) : Prop :=
  state_of th = RT_THREAD_READY \/ state_of th = RT_THREAD_SUSPEND.

(** A list of waiting threads (of an IPC object, a pool or a data queue). *)
Definition waiting_head (h : tlist_head) : Prop :=
  match h with HReady _ | HDefunct => False | _ => True end.

Record kinv (s : kstate) : Prop := {
  (** a thread is in at most one list, once *)
  inv_nodup : forall h, NoDup (tl s h);
  inv_uniq : forall h h' t, t ∈ tl s h -> t ∈ tl s h' -> h = h';
  (** the ready lists hold exactly the ready threads, by priority *)
  inv_ready : forall p t, t ∈ tl s (HReady p) <->
    exists th, k_threads s !! t = Some th /\ state_of th = RT_THREAD_READY /\ th_current_priority th = p;
  (** a thread that waits in a list is suspended *)
  inv_waiting : forall h t, waiting_head h -> t ∈ tl s h ->
    exists th, k_threads s !! t = Some th /\ state_of th = RT_THREAD_SUSPEND;
  inv_defunct : forall t, t ∈ tl s HDefunct ->
    exists th, k_threads s !! t = Some th /\ state_of th = RT_THREAD_CLOSE;
  (** the bitmap marks the non-empty ready lists *)
  inv_group_range : 0 <= k_group s < 2 ^ 32;
  inv_group : forall p, 0 <= p < 32 ->
    Z.testbit (k_group s) p = true <-> tl s (HReady p) ≠ [];
  (** priorities of live threads are table indices, their masks fit *)
  inv_prio : forall t th, k_threads s !! t = Some th -> live th ->
    0 <= th_current_priority th < 32 /\ th_number_mask th = Z.shiftl 1 (th_current_priority th);
  inv_stack : forall t th, k_threads s !! t = Some th -> live th -> stack_overflowed th = false;
  (** every thread has its timer, which wakes that thread *)
  inv_timer : forall t th, k_threads s !! t = Some th ->
    exists tm, k_timers s !! TThread t = Some tm /\ tm_func tm = rt_thread_timeout_of t;
  inv_timer_obj : forall n tm, k_timers s !! TObject n = Some tm ->
    exists m, tm_func tm = user_timeout m;
  (** the timer list holds activated timers, once each *)
  inv_tm_nodup : NoDup (k_timer_list s);
  inv_tm_list : forall i, i ∈ k_timer_list s ->
    exists tm, k_timers s !! i = Some tm /\ is_activated tm = true;
  (** only suspended threads have a running timer *)
  inv_tm_thread : forall t, TThread t ∈ k_timer_list s ->
    exists th, k_threads s !! t = Some th /\ state_of th = RT_THREAD_SUSPEND
}.

#[export] Hint Resolve inv_nodup inv_uniq inv_group_range inv_tm_nodup : kernel.

Lemma kinv_in_ready s t th :
  kinv s -> k_threads s !! t = Some th -> state_of th = RT_THREAD_READY ->
  t ∈ tl s (HReady (th_current_priority th)).
Proof. intros I Ht Hst. apply (inv_ready _ I). eauto. Qed.

(** A ready thread is in its ready list and nowhere else. *)
Lemma kinv_only_ready s t th h :
  kinv s -> k_threads s !! t = Some th -> state_of th = RT_THREAD_READY ->
  t ∈ tl s h -> h = HReady (th_current_priority th).
Proof.
  intros I Ht Hst Hin. symmetry.
  apply (inv_uniq _ I _ _ t); [by apply kinv_in_ready|done].
Qed.

Lemma kinv_ready_no_timer s t th :
  kinv s -> k_threads s !! t = Some th -> state_of th = RT_THREAD_READY ->
  TThread t ∉ k_timer_list s.
Proof.
  intros I Ht Hst Hin. destruct (inv_tm_thread _ I _ Hin) as (th' & Ht' & Hst').
  simplify_eq. unfold RT_THREAD_READY, RT_THREAD_SUSPEND in *. congruence.
Qed.

(** *** Updates that leave the invariant alone *)

(** A thread update that keeps state, priority and stack. *)
Record thread_frame (th th' : rt_thread) : Prop := {
  tf_stat : th_stat th' = th_stat th;
  tf_prio : th_current_priority th' = th_current_priority th;
  tf_mask : th_number_mask th' = th_number_mask th;
  tf_stack : stack_overflowed th' = stack_overflowed th
}.

Lemma thread_frame_state th th' : thread_frame th th' -> state_of th' = state_of th.
Proof. intros [H _ _ _]. unfold state_of. by rewrite H. Qed.

Lemma kinv_thread_frame s t th th' :
  kinv s -> k_threads s !! t = Some th -> thread_frame th th' ->
  kinv (set_k_threads (<[t := th']>) s).
Proof.
  intros I Ht F. pose proof (thread_frame_state _ _ F) as Hst.
  assert (forall u x0, (exists x, k_threads s !! u = Some x /\ state_of x = x0) ->
    exists x, <[t := th']> (k_threads s) !! u = Some x /\ state_of x = x0) as Hex.
  { intros u x0 (x & Hx & HPx). destruct (decide (t = u)) as [->|Hne].
    - rewrite lookup_insert_eq. simplify_eq. eauto.
    - rewrite lookup_insert_ne by done. eauto. }
  split; try apply I; simpl.
  - intros p u. change (tl (set_k_threads _ s) ?h) with (tl s h).
    rewrite (inv_ready _ I). destruct (decide (t = u)) as [->|Hne].
    + rewrite lookup_insert_eq. destruct F. split.
      * intros (x & ? & ? & ?). simplify_eq. exists th'. split_and!; [done|congruence|congruence].
      * intros (x & ? & ? & ?). simplify_eq. exists th. split_and!; [done|congruence|congruence].
    + by rewrite lookup_insert_ne by done.
  - intros h u Hh Hin. apply Hex. exact (inv_waiting _ I h u Hh Hin).
  - intros u Hin. apply Hex. exact (inv_defunct _ I u Hin).
  - intros u x [[<- <-]|[_ Hx]]%lookup_insert_Some Hl; [|by eapply (inv_prio _ I)].
    destruct F as [? -> -> ?]. eapply (inv_prio _ I); [done|]. unfold live in *. by rewrite Hst in Hl.
  - intros u x [[<- <-]|[_ Hx]]%lookup_insert_Some Hl; [|by eapply (inv_stack _ I)].
    destruct F as [? ? ? ->]. eapply (inv_stack _ I); [done|]. unfold live in *. by rewrite Hst in Hl.
  - intros u x [[<- <-]|[_ Hx]]%lookup_insert_Some; by eapply (inv_timer _ I).
  - intros u Hin. apply Hex. exact (inv_tm_thread _ I u Hin).
Qed.

(** The invariant does not read the remaining globals. *)
Lemma kinv_same s s' :
  kinv s -> k_threads s' = k_threads s -> k_tlists s' = k_tlists s -> k_group s' = k_group s ->
  k_timers s' = k_timers s -> k_timer_list s' = k_timer_list s -> kinv s'.
Proof.
  intros I E1 E2 E3 E4 E5.
  assert (forall h, tl s' h = tl s h) as Et by (intros; unfold tl; by rewrite E2).
  split; intros *; rewrite ?Et, ?E1, ?E3, ?E4, ?E5; apply I.
Qed.

(** ** Effects of the thread primitives as state transformers *)

Definition unlink (t : nat) (s : kstate) : kstate :=
  set_k_tlists (fmap (filter (fun u => u ≠ t))) s.

Definition restat (x : Z) (t : nat) (th : rt_thread) (s : kstate) : kstate :=
  set_k_threads (<[t := set_th_stat (with_state x (th_stat th)) th]>) s.

Definition enqueue_ready (t : nat) (th : rt_thread) (s : kstate) : kstate :=
  let h := HReady (th_current_priority th) in
  set_k_group (fun g => Z.lor g (th_number_mask th)) (set_k_tlists (<[h := tl s h ++ [t]]>) s).

(** [rt_schedule_insert_thread] *)
Definition made_ready (t : nat) (th : rt_thread) (s : kstate) : kstate :=
  enqueue_ready t th (restat RT_THREAD_READY t th s).

Definition clear_group (th : rt_thread) (s : kstate) : kstate :=
  if decide (tl s (HReady (th_current_priority th)) = []) then
    set_k_group (fun g => Z.land g (Z.lnot (th_number_mask th))) s
  else s.

(** [rt_schedule_remove_thread] *)
Definition dequeued (t : nat) (th : rt_thread) (s : kstate) : kstate := clear_group th (unlink t s).

(** [rt_timer_stop] *)
Definition timer_stopped (i : timer_id) (s : kstate) : kstate :=
  match k_timers s !! i with
  | Some tm =>
      if is_activated tm then
        set_k_timers (<[i := clear_activated tm]>) (set_k_timer_list (filter (fun j => j ≠ i)) s)
      else s
  | None => s
  end.

(** [rt_thread_suspend] and [rt_thread_resume] *)
Definition suspended (t : nat) (th : rt_thread) (s : kstate) : kstate :=
  timer_stopped (TThread t) (dequeued t th (restat RT_THREAD_SUSPEND t th s)).
Definition resumed (t : nat) (th : rt_thread) (s : kstate) : kstate :=
  made_ready t th (timer_stopped (TThread t) (unlink t s)).

Lemma tl_made_ready t th s h :
  tl (made_ready t th s) h =
  if decide (HReady (th_current_priority th) = h) then tl s h ++ [t] else tl s h.
Proof.
  unfold made_ready, enqueue_ready. change (tl (set_k_group ?f ?x) h) with (tl x h).
  rewrite tl_set_insert. by case_decide; subst.
Qed.

Lemma tl_unlink t s h : tl (unlink t s) h = filter (fun u => u ≠ t) (tl s h).
Proof. apply tl_set_filter. Qed.

Lemma tl_clear_group th s h : tl (clear_group th s) h = tl s h.
Proof. unfold clear_group. by case_decide. Qed.

Lemma clear_group_threads th s : k_threads (clear_group th s) = k_threads s.
Proof. unfold clear_group. by case_decide. Qed.
Lemma clear_group_timers th s : k_timers (clear_group th s) = k_timers s.
Proof. unfold clear_group. by case_decide. Qed.
Lemma clear_group_timer_list th s : k_timer_list (clear_group th s) = k_timer_list s.
Proof. unfold clear_group. by case_decide. Qed.

Lemma tl_timer_stopped i s h : tl (timer_stopped i s) h = tl s h.
Proof. unfold timer_stopped. destruct (k_timers s !! i) as [tm|]; [|done]. by destruct (is_activated tm). Qed.
Lemma timer_stopped_threads i s : k_threads (timer_stopped i s) = k_threads s.
Proof. unfold timer_stopped. destruct (k_timers s !! i) as [tm|]; [|done]. by destruct (is_activated tm). Qed.
Lemma timer_stopped_group i s : k_group (timer_stopped i s) = k_group s.
Proof. unfold timer_stopped. destruct (k_timers s !! i) as [tm|]; [|done]. by destruct (is_activated tm). Qed.
Lemma timer_stopped_lock i s : k_lock_nest (timer_stopped i s) = k_lock_nest s.
Proof. unfold timer_stopped. destruct (k_timers s !! i) as [tm|]; [|done]. by destruct (is_activated tm). Qed.
Lemma timer_stopped_current i s : k_current (timer_stopped i s) = k_current s.
Proof. unfold timer_stopped. destruct (k_timers s !! i) as [tm|]; [|done]. by destruct (is_activated tm). Qed.

Lemma kinv_activated s i tm :
  kinv s -> i ∈ k_timer_list s -> k_timers s !! i = Some tm -> is_activated tm = true.
Proof. intros I Hin Ht. destruct (inv_tm_list _ I _ Hin) as (tm' & ? & ?). congruence. Qed.

Lemma filter_timer_notin (i : timer_id) (l : list timer_id) :
  i ∉ l -> filter (fun j => j ≠ i) l = l.
Proof.
  induction l as [|x l IH]; intros Hn; [done|]. apply not_elem_of_cons in Hn as [? ?].
  rewrite filter_cons_True by done. f_equal. by apply IH.
Qed.

(** Stopping a timer takes it out of the list and touches no other timer. *)
Lemma timer_stopped_list s i tm :
  kinv s -> k_timers s !! i = Some tm ->
  k_timer_list (timer_stopped i s) = filter (fun j => j ≠ i) (k_timer_list s).
Proof.
  intros I Ht. unfold timer_stopped. rewrite Ht. destruct (is_activated tm) eqn:E; [done|].
  symmetry. apply filter_timer_notin. intros Hin. by rewrite (kinv_activated _ _ _ I Hin Ht) in E.
Qed.

Lemma timer_stopped_lookup s i j tm :
  k_timers (timer_stopped i s) !! j = Some tm ->
  exists tm0, k_timers s !! j = Some tm0 /\ tm_func tm = tm_func tm0 /\
    (i ≠ j -> tm = tm0).
Proof.
  unfold timer_stopped. destruct (k_timers s !! i) as [tm'|] eqn:E; [|eauto].
  destruct (is_activated tm') eqn:Ea; [|eauto]. simpl.
  intros [[<- <-]|[? ?]]%lookup_insert_Some; eauto.
  exists tm'. split_and!; done.
Qed.

Lemma timer_stopped_is_Some s i j tm :
  k_timers s !! j = Some tm ->
  exists tm', k_timers (timer_stopped i s) !! j = Some tm' /\ tm_func tm' = tm_func tm /\
    (i ≠ j -> tm' = tm).
Proof.
  intros Hj. unfold timer_stopped. destruct (k_timers s !! i) as [tm'|] eqn:E; [|eauto].
  destruct (is_activated tm') eqn:Ea; [|eauto]. simpl.
  destruct (decide (i = j)) as [->|Hne].
  - rewrite lookup_insert_eq. simplify_eq. eexists. split_and!; [done|done|done].
  - rewrite lookup_insert_ne by done. eauto.
Qed.

(** ** Preservation by the primitives *)

Lemma kinv_timer_stopped s i tm :
  kinv s -> k_timers s !! i = Some tm -> kinv (timer_stopped i s).
Proof.
  intros I Ht. split; intros *;
    rewrite ?tl_timer_stopped, ?timer_stopped_threads, ?timer_stopped_group; try apply I;
    rewrite ?(timer_stopped_list _ _ _ I Ht).
  - intros Hx. destruct (inv_timer _ I _ _ Hx) as (tmx & Hj & Hf).
    destruct (timer_stopped_is_Some s i _ _ Hj) as (tm' & ? & ? & _). exists tm'. split; [done|congruence].
  - intros (tmx & Hj & -> & _)%timer_stopped_lookup. by eapply (inv_timer_obj _ I).
  - apply NoDup_filter, I.
  - intros [Hne Hin]%list_elem_of_filter.
    destruct (inv_tm_list _ I _ Hin) as (tmx & Hj & Ha).
    destruct (timer_stopped_is_Some s i _ _ Hj) as (tm' & ? & _ & Heq).
    exists tm'. split; [done|]. rewrite Heq by done. done.
  - intros [_ Hin]%list_elem_of_filter. by apply (inv_tm_thread _ I).
Qed.

(** The thread table after changing the state of [t]. *)
Lemma restat_lookup x t th s u v :
  k_threads (restat x t th s) !! u = Some v ->
  (u = t /\ v = set_th_stat (with_state x (th_stat th)) th) \/ (u ≠ t /\ k_threads s !! u = Some v).
Proof. simpl. intros [[<- <-]|[? ?]]%lookup_insert_Some; auto. Qed.

Lemma restat_lookup_ne x t th s u :
  u ≠ t -> k_threads (restat x t th s) !! u = k_threads s !! u.
Proof. intros. simpl. by rewrite lookup_insert_ne by done. Qed.

Lemma restat_lookup_eq x t th s :
  k_threads (restat x t th s) !! t = Some (set_th_stat (with_state x (th_stat th)) th).
Proof. simpl. by rewrite lookup_insert_eq. Qed.

Lemma state_ready th : state_of (set_th_stat (with_state RT_THREAD_READY (th_stat th)) th) = RT_THREAD_READY.
Proof. apply state_of_with_state. unfold RT_THREAD_READY. lia. Qed.
Lemma state_suspend th : state_of (set_th_stat (with_state RT_THREAD_SUSPEND (th_stat th)) th) = RT_THREAD_SUSPEND.
Proof. apply state_of_with_state. unfold RT_THREAD_SUSPEND. lia. Qed.

Lemma kinv_made_ready s t th :
  kinv s -> k_threads s !! t = Some th -> state_of th = RT_THREAD_SUSPEND ->
  ¬ linked s t -> TThread t ∉ k_timer_list s ->
  kinv (made_ready t th s).
Proof.
  intros I Ht Hst Hnl Hnt.
  destruct (inv_prio _ I _ _ Ht) as [Hp Hm]; [by right|].
  assert (forall h, t ∉ tl s h) as Hno by (intros h Hin; apply Hnl; by exists h).
  assert (forall u x0, u ≠ t -> (exists x, k_threads s !! u = Some x /\ state_of x = x0) ->
    exists x, k_threads (made_ready t th s) !! u = Some x /\ state_of x = x0) as Hex.
  { intros u x0 Hne. change (k_threads (made_ready t th s)) with (k_threads (restat RT_THREAD_READY t th s)).
    by rewrite restat_lookup_ne. }
  split; intros *; rewrite ?tl_made_ready.
  - case_decide; [|apply I]. apply NoDup_app. split_and!; [apply I| |apply NoDup_singleton].
    intros u Hu ->%list_elem_of_singleton. by eapply Hno.
  - pose proof (inv_uniq _ I h h' t0). repeat case_decide; subst; rewrite ?elem_of_app, ?list_elem_of_singleton;
      try naive_solver; intros [|]; intros [|]; naive_solver.
  - change (k_threads (made_ready t th s)) with (k_threads (restat RT_THREAD_READY t th s)).
    destruct (decide (t0 = t)) as [->|Hne].
    + rewrite restat_lookup_eq. case_decide as Ep.
      * split; [|set_solver]. intros _. eexists. split_and!; [done|apply state_ready|]. simpl. congruence.
      * split; [intros Hin; by apply Hno in Hin|]. intros (v & [= <-] & _ & Hv). simpl in Hv. congruence.
    + rewrite restat_lookup_ne by done. rewrite <- (inv_ready _ I). case_decide; set_solver.
  - intros Hh. case_decide; [subst; done|]. intros Hin. apply Hex; [|by apply (inv_waiting _ I h)].
    intros ->. by eapply Hno.
  - case_decide; [done|]. intros Hin. apply Hex; [|by apply (inv_defunct _ I)].
    intros ->. by eapply Hno.
  - simpl. rewrite Hm. apply set_bit_range; [apply I|done].
  - intros Hq. simpl. rewrite Hm, testbit_set_bit, orb_true_iff, bool_decide_eq_true by lia.
    rewrite (inv_group _ I) by done. case_decide as E.
    + injection E as ->. split; [|naive_solver]. intros _. by destruct (tl s (HReady p)).
    + naive_solver.
  - intros [[-> ->]|[_ Hx]]%restat_lookup Hl; [|by eapply (inv_prio _ I)]. done.
  - intros [[-> ->]|[_ Hx]]%restat_lookup Hl; [|by eapply (inv_stack _ I)].
    apply (inv_stack _ I _ _ Ht). by right.
  - intros [[-> ->]|[_ Hx]]%restat_lookup; by eapply (inv_timer _ I).
  - apply (inv_timer_obj _ I).
  - apply (inv_tm_nodup _ I).
  - apply (inv_tm_list _ I).
  - intros Hin. apply Hex; [|by apply (inv_tm_thread _ I)]. intros ->. done.
Qed.

(** Taking a suspended thread out of the list it waits in. *)
Lemma kinv_unlink_other s t th :
  kinv s -> k_threads s !! t = Some th -> state_of th ≠ RT_THREAD_READY -> kinv (unlink t s).
Proof.
  intros I Ht Hst.
  assert (forall p, t ∉ tl s (HReady p)) as Hnr.
  { intros p (v & ? & Hv & _)%(inv_ready _ I). simplify_eq. }
  split; intros *; rewrite ?tl_unlink; try apply I.
  - apply NoDup_filter, I.
  - intros [_ H1]%list_elem_of_filter [_ H2]%list_elem_of_filter. by eapply (inv_uniq _ I).
  - rewrite filter_ne_notin by done. apply I.
  - intros Hh [_ Hin]%list_elem_of_filter. by eapply (inv_waiting _ I).
  - intros [_ Hin]%list_elem_of_filter. by apply (inv_defunct _ I).
  - rewrite filter_ne_notin by done. apply I.
Qed.

Lemma kinv_unlink s t th :
  kinv s -> k_threads s !! t = Some th -> state_of th = RT_THREAD_SUSPEND -> kinv (unlink t s).
Proof. intros I Ht Hst. apply (kinv_unlink_other _ _ th); [done|done|]. by rewrite Hst. Qed.

Lemma k_group_clear th s :
  k_group (clear_group th s) =
  if decide (tl s (HReady (th_current_priority th)) = [])
  then Z.land (k_group s) (Z.lnot (th_number_mask th)) else k_group s.
Proof. unfold clear_group. by case_decide. Qed.

(** A live thread leaves the lists and becomes [th'], suspended or closed. *)
Lemma kinv_dequeued s t th th' :
  kinv s -> k_threads s !! t = Some th -> live th -> state_of th' ≠ RT_THREAD_READY ->
  (live th' -> 0 <= th_current_priority th' < 32 /\
     th_number_mask th' = Z.shiftl 1 (th_current_priority th') /\ stack_overflowed th' = false) ->
  (state_of th' = RT_THREAD_SUSPEND \/ TThread t ∉ k_timer_list s) ->
  kinv (dequeued t th (set_k_threads (<[t := th']>) s)).
Proof.
  intros I Ht Hl Hnr Hf Htm. destruct (inv_prio _ I _ _ Ht Hl) as [Hp Hm].
  set (s1 := set_k_threads (<[t := th']>) s).
  assert (forall h, tl (dequeued t th s1) h = filter (fun u => u ≠ t) (tl s h)) as Et.
  { intros h. unfold dequeued. by rewrite tl_clear_group, tl_unlink. }
  assert (k_threads (dequeued t th s1) = <[t := th']> (k_threads s)) as Eth
    by (unfold dequeued; by rewrite clear_group_threads).
  assert (k_timers (dequeued t th s1) = k_timers s) as Etm
    by (unfold dequeued; by rewrite clear_group_timers).
  assert (k_timer_list (dequeued t th s1) = k_timer_list s) as Etl
    by (unfold dequeued; by rewrite clear_group_timer_list).
  split; intros *; rewrite ?Et, ?Eth, ?Etm, ?Etl; try apply I.
  - apply NoDup_filter, I.
  - intros [_ H1]%list_elem_of_filter [_ H2]%list_elem_of_filter. by eapply (inv_uniq _ I).
  - rewrite list_elem_of_filter, (inv_ready _ I).
    destruct (decide (t0 = t)) as [->|Hne]; [rewrite lookup_insert_eq; naive_solver|].
    rewrite lookup_insert_ne by done. tauto.
  - intros Hh [Hne Hin]%list_elem_of_filter. rewrite lookup_insert_ne by done. by eapply (inv_waiting _ I).
  - intros [Hne Hin]%list_elem_of_filter. rewrite lookup_insert_ne by done. by eapply (inv_defunct _ I).
  - unfold dequeued. rewrite k_group_clear. case_decide; [|apply I]. apply clear_bit_range, I.
  - intros Hq. unfold dequeued. rewrite k_group_clear, tl_unlink. simpl.
    change (tl s1) with (tl s). pose proof (inv_group _ I p Hq) as Hg.
    destruct (decide (p = th_current_priority th)) as [->|Hne].
    + case_decide as E.
      2:{ split; [done|]. intros _. apply Hg. intros Hn. apply E. by rewrite Hn. }
      rewrite Hm, testbit_clear_bit, E by lia.
      rewrite (bool_decide_eq_true_2 (_ = _)) by done. rewrite andb_false_r. done.
    + assert (t ∉ tl s (HReady p)) as Hnp.
      { intros (v & ? & _ & ?)%(inv_ready _ I). simplify_eq. }
      rewrite (filter_ne_notin t (tl s (HReady p))) by done.
      case_decide; [|done]. rewrite Hm, testbit_clear_bit by lia.
      rewrite (bool_decide_eq_false_2 (_ = _)) by done. by rewrite andb_true_r.
  - intros [[<- <-]|[_ Hx]]%lookup_insert_Some Hlv; [|by eapply (inv_prio _ I)].
    by destruct (Hf Hlv) as (? & ? & _).
  - intros [[<- <-]|[_ Hx]]%lookup_insert_Some Hlv; [|by eapply (inv_stack _ I)].
    by destruct (Hf Hlv) as (_ & _ & ?).
  - intros [[<- <-]|[_ Hx]]%lookup_insert_Some; by eapply (inv_timer _ I).
  - intros Hin. destruct (decide (t0 = t)) as [->|Hne].
    + rewrite lookup_insert_eq. destruct Htm; [eauto|done].
    + rewrite lookup_insert_ne by done. by apply (inv_tm_thread _ I).
Qed.

Lemma kinv_suspended s t th :
  kinv s -> k_threads s !! t = Some th -> state_of th = RT_THREAD_READY -> kinv (suspended t th s).
Proof.
  intros I Ht Hst. destruct (inv_timer _ I _ _ Ht) as (tm & Htm & _).
  unfold suspended. apply (kinv_timer_stopped _ _ tm).
  - apply kinv_dequeued; [done|done|by left|by rewrite state_suspend| |left; apply state_suspend].
    intros _. destruct (inv_prio _ I _ _ Ht) as [? ?]; [by left|]. split; [done|]. split; [done|].
    apply (inv_stack _ I _ _ Ht). by left.
  - unfold dequeued. by rewrite clear_group_timers.
Qed.

Lemma unlink_timer_stopped_unlinked i s t : ¬ linked (timer_stopped i (unlink t s)) t.
Proof. intros [h Hin]. rewrite tl_timer_stopped, tl_unlink in Hin. by apply list_elem_of_filter in Hin as [? _]. Qed.

Lemma kinv_resumed s t th :
  kinv s -> k_threads s !! t = Some th -> state_of th = RT_THREAD_SUSPEND -> kinv (resumed t th s).
Proof.
  intros I Ht Hst. destruct (inv_timer _ I _ _ Ht) as (tm & Htm & _).
  pose proof (kinv_unlink _ _ _ I Ht Hst) as I1.
  apply kinv_made_ready; [by eapply kinv_timer_stopped| |done|apply unlink_timer_stopped_unlinked|].
  - by rewrite timer_stopped_threads.
  - rewrite (timer_stopped_list _ _ tm I1 Htm). by intros [? _]%list_elem_of_filter.
Qed.

(** ** Equations of the operations under the invariant *)

Lemma dequeued_set_threads t th f s :
  dequeued t th (set_k_threads f s) = set_k_threads f (dequeued t th s).
Proof.
  unfold dequeued, clear_group. change (tl (unlink t (set_k_threads f s))) with (tl (unlink t s)).
  by case_decide.
Qed.

Lemma in_table_true p : 0 <= p < 32 -> in_table p = true.
Proof. intros. unfold in_table, RT_THREAD_PRIORITY_MAX. apply andb_true_iff. split; lia. Qed.

Lemma run_timer_stop s i tm :
  k_timers s !! i = Some tm ->
  exists r, rt_timer_stop i s = Ok r (timer_stopped i s).
Proof.
  intros Ht. unfold rt_timer_stop, get_timer, deref, mbind, M_bind, timer_stopped. rewrite Ht.
  destruct (is_activated tm); simpl; [|eauto].
  unfold upd_timer, get_timer, deref, mbind, M_bind, mret, M_ret, _rt_timer_remove, modify. simpl.
  rewrite Ht. eauto.
Qed.

Lemma run_schedule_insert s t th :
  k_threads s !! t = Some th -> 0 <= th_current_priority th < 32 -> ¬ linked s t ->
  rt_schedule_insert_thread t s = Ok tt (made_ready t th s).
Proof.
  intros Ht Hp Hnl.
  enough (wp (rt_schedule_insert_thread t) (fun a s' => a = tt /\ s' = made_ready t th s) s) as
    (a & s' & -> & -> & ->)%wp_run by done.
  unfold rt_schedule_insert_thread, tlist_append. wp_steps.
  eapply wp_upd_thread; [done|]. wp_steps. eapply wp_deref; [apply lookup_insert_eq|]. wp_steps.
  apply wp_assert; [by apply in_table_true|]. wp_steps.
  apply wp_require_unlinked; [done|]. by wp_steps.
Qed.

Lemma run_schedule_remove s t th :
  k_threads s !! t = Some th -> 0 <= th_current_priority th < 32 ->
  rt_schedule_remove_thread t s = Ok tt (dequeued t th s).
Proof.
  intros Ht Hp.
  enough (wp (rt_schedule_remove_thread t) (fun a s' => a = tt /\ s' = dequeued t th s) s) as
    (a & s' & -> & -> & ->)%wp_run by done.
  unfold rt_schedule_remove_thread, tlist_remove. wp_steps. eapply wp_deref; [exact Ht|]. wp_steps.
  apply wp_assert; [by apply in_table_true|]. wp_steps. unfold dequeued, clear_group.
  apply wp_when; intros E; to_prop; [wp_steps|]; (split; [done|]).
  - by rewrite decide_True.
  - by rewrite decide_False.
Qed.

Lemma run_get_thread s t th : k_threads s !! t = Some th -> get_thread t s = Ok th s.
Proof. intros H. unfold get_thread, deref. by rewrite H. Qed.

Lemma run_upd_thread s t f th :
  k_threads s !! t = Some th -> upd_thread t f s = Ok tt (set_k_threads (<[t := f th]>) s).
Proof. intros H. unfold upd_thread. by rewrite (bind_Ok _ _ _ _ _ (run_get_thread _ _ _ H)). Qed.

Lemma run_thread_suspend s t th :
  kinv s -> k_threads s !! t = Some th -> state_of th = RT_THREAD_READY ->
  rt_thread_suspend t s = Ok RT_EOK (suspended t th s).
Proof.
  intros I Ht Hst. destruct (inv_prio _ I _ _ Ht) as [Hp _]; [by left|].
  destruct (inv_timer _ I _ _ Ht) as (tm & Htm & _).
  unfold rt_thread_suspend. run_step (run_get_thread _ _ _ Ht). rewrite Hst. simpl.
  run_step (run_upd_thread s t (fun th => set_th_stat (with_state RT_THREAD_SUSPEND (th_stat th)) th) _ Ht).
  fold (restat RT_THREAD_SUSPEND t th s).
  run_step (run_schedule_remove (restat RT_THREAD_SUSPEND t th s) t _ (restat_lookup_eq _ _ _ _) Hp).
  change (dequeued t (set_th_stat ?x th)) with (dequeued t th).
  destruct (run_timer_stop (dequeued t th (restat RT_THREAD_SUSPEND t th s)) (TThread t) tm) as [r Hr].
  { unfold dequeued. by rewrite clear_group_timers. }
  by run_step Hr.
Qed.

Lemma run_thread_suspend_not_ready s t th :
  k_threads s !! t = Some th -> state_of th ≠ RT_THREAD_READY ->
  rt_thread_suspend t s = Ok (- RT_ERROR) s.
Proof.
  intros Ht Hst. unfold rt_thread_suspend. run_step (run_get_thread _ _ _ Ht).
  by rewrite (proj2 (Z.eqb_neq _ _) Hst).
Qed.

Lemma run_thread_resume s t th :
  kinv s -> k_threads s !! t = Some th -> state_of th = RT_THREAD_SUSPEND ->
  rt_thread_resume t s = Ok RT_EOK (resumed t th s).
Proof.
  intros I Ht Hst. destruct (inv_prio _ I _ _ Ht) as [Hp _]; [by right|].
  destruct (inv_timer _ I _ _ Ht) as (tm & Htm & _).
  unfold rt_thread_resume. run_step (run_get_thread _ _ _ Ht). rewrite Hst. simpl.
  unfold tlist_remove. erewrite bind_Ok by reflexivity. fold (unlink t s).
  destruct (run_timer_stop (unlink t s) (TThread t) tm Htm) as [r Hr]. run_step Hr.
  rewrite (bind_Ok _ _ _ _ _ (run_schedule_insert (timer_stopped (TThread t) (unlink t s)) t th
    ltac:(by rewrite timer_stopped_threads) Hp (unlink_timer_stopped_unlinked _ _ _))). done.
Qed.

Lemma run_thread_resume_not_suspended s t th :
  k_threads s !! t = Some th -> state_of th ≠ RT_THREAD_SUSPEND ->
  rt_thread_resume t s = Ok (- RT_ERROR) s.
Proof.
  intros Ht Hst. unfold rt_thread_resume. run_step (run_get_thread _ _ _ Ht).
  by rewrite (proj2 (Z.eqb_neq _ _) Hst).
Qed.

(** ** Scheduling *)

Definition top_ready (s : kstate) : option nat := head (tl s (HReady (highest_ready_priority s))).

Definition scheduled (s : kstate) : kstate :=
  if k_lock_nest s =? 0 then
    match top_ready s with
    | Some t =>
        if decide (k_current s = Some t) then s
        else set_k_current (fun _ => Some t)
               (set_k_current_priority (fun _ => u8 (highest_ready_priority s)) s)
    | None => s
    end
  else s.

Lemma kinv_scheduled s : kinv s -> kinv (scheduled s).
Proof.
  intros I. apply (kinv_same s); [done|..]; unfold scheduled; destruct (_ =? 0); try done;
    destruct (top_ready s); try done; by case_decide.
Qed.

Definition ready (s : kstate) (t : nat) (th : rt_thread) : Prop :=
  k_threads s !! t = Some th /\ state_of th = RT_THREAD_READY.

Lemma ready_group s t th : kinv s -> ready s t th -> k_group s ≠ 0.
Proof.
  intros I [Ht Hst] Hz. destruct (inv_prio _ I _ _ Ht) as [Hp _]; [by left|].
  pose proof (inv_group _ I _ Hp) as Hg. rewrite Hz, Z.bits_0 in Hg.
  pose proof (kinv_in_ready _ _ _ I Ht Hst). destruct (tl s (HReady (th_current_priority th))); [set_solver|].
  assert (false = true) by (by apply Hg). done.
Qed.

(** The thread found through the bitmap has the best priority of all ready
    threads and is the first of its queue. *)
Lemma top_ready_best s u uh :
  kinv s -> ready s u uh ->
  exists t th, top_ready s = Some t /\ ready s t th /\
    th_current_priority th = highest_ready_priority s /\
    (forall v vh, ready s v vh -> th_current_priority th <= th_current_priority vh).
Proof.
  intros I Hu. pose proof (inv_group_range _ I) as Hr. pose proof (ready_group _ _ _ I Hu) as Hnz.
  destruct (ffs_lowest (k_group s)) as (H0 & H1 & H2); [lia|].
  fold (highest_ready_priority s) in *. set (p := highest_ready_priority s) in *.
  assert (p < 32) as Hp.
  { destruct (Z.lt_ge_cases p 32) as [|Hge]; [done|].
    rewrite (proj1 (lt_pow2_bits (k_group s) 32 ltac:(lia) ltac:(lia)) ltac:(lia) p Hge) in H1. done. }
  apply (inv_group _ I) in H1; [|lia]. unfold top_ready. fold p.
  destruct (tl s (HReady p)) as [|t l] eqn:E; [done|].
  destruct (proj1 (inv_ready _ I p t)) as (th & Ht & Hst & Hpr); [rewrite E; left|].
  exists t, th. split_and!; [done|done|done|]. intros v vh [Hv Hvs].
  destruct (Z.le_gt_cases (th_current_priority th) (th_current_priority vh)) as [|Hlt]; [done|].
  destruct (inv_prio _ I _ _ Hv) as [Hvp _]; [by left|].
  pose proof (kinv_in_ready _ _ _ I Hv Hvs) as Hin.
  assert (Z.testbit (k_group s) (th_current_priority vh) = true) as Hb
    by (apply (inv_group _ I); [done|]; intros Hn; rewrite Hn in Hin; set_solver).
  rewrite H2 in Hb by lia. done.
Qed.

Lemma run_schedule s u uh :
  kinv s -> ready s u uh -> rt_schedule s = Ok tt (scheduled s).
Proof.
  intros I Hu. destruct (top_ready_best _ _ _ I Hu) as (t & th & Htop & [Ht Hst] & Hp & _).
  enough (wp rt_schedule (fun a s' => a = tt /\ s' = scheduled s) s) as (a & s' & -> & -> & ->)%wp_run by done.
  unfold rt_schedule, scheduled. wp_steps. apply wp_if; intros E; rewrite ?E; wp_steps; [|done].
  eapply wp_deref; [exact Htop|]. rewrite Htop. wp_steps.
  apply wp_if; intros E2; to_prop; [by rewrite decide_True by done|].
  rewrite decide_False by done. wp_steps. unfold _rt_scheduler_stack_check. wp_steps.
  eapply wp_deref; [exact Ht|]. apply wp_assert; [|done].
  rewrite (inv_stack _ I _ _ Ht); [done|by left].
Qed.

Lemma run_schedule_locked s : k_lock_nest s ≠ 0 -> rt_schedule s = Ok tt s /\ scheduled s = s.
Proof.
  intros Hl. apply Z.eqb_neq in Hl. split; [|by unfold scheduled; rewrite Hl].
  unfold rt_schedule, mbind, M_bind, gets. by rewrite Hl.
Qed.

(** The bitmap is determined by the ready lists. *)
Lemma kinv_group_ext s s' :
  kinv s -> kinv s' -> (forall p, tl s (HReady p) = [] <-> tl s' (HReady p) = []) ->
  k_group s = k_group s'.
Proof.
  intros I I' He. apply Z.bits_inj'. intros n Hn.
  destruct (Z.lt_ge_cases n 32) as [Hlt|Hge].
  - apply eq_true_iff_eq. rewrite (inv_group _ I), (inv_group _ I') by lia. by rewrite He.
  - pose proof (inv_group_range _ I). pose proof (inv_group_range _ I').
    rewrite (proj1 (lt_pow2_bits (k_group s) 32 ltac:(lia) ltac:(lia)) ltac:(lia) n Hge).
    by rewrite (proj1 (lt_pow2_bits (k_group s') 32 ltac:(lia) ltac:(lia)) ltac:(lia) n Hge).
Qed.

(** ** Changing the priority of a thread *)

Definition repriority (t : nat) (th : rt_thread) (p : Z) (s : kstate) : kstate :=
  let th' := set_priority p (Z.shiftl 1 p) th in
  if state_of th =? RT_THREAD_READY then
    made_ready t th' (set_k_threads (<[t := th']>) (dequeued t th s))
  else set_k_threads (<[t := th']>) s.

Lemma run_change_priority s t th p :
  kinv s -> k_threads s !! t = Some th -> 0 <= p < 32 ->
  rt_thread_control t (RT_THREAD_CTRL_CHANGE_PRIORITY p) s = Ok RT_EOK (repriority t th p s).
Proof.
  intros I Ht Hp. unfold rt_thread_control. run_step (run_get_thread _ _ _ Ht).
  unfold repriority, number_mask_of. rewrite (in_table_true _ Hp).
  destruct (Z.eqb_spec (state_of th) RT_THREAD_READY) as [Hst|Hst].
  - destruct (inv_prio _ I _ _ Ht) as [Hpt _]; [by left|].
    erewrite bind_Ok; [done|]. run_step (run_schedule_remove _ _ _ Ht Hpt).
    erewrite bind_Ok by reflexivity.
    assert (k_threads (dequeued t th s) !! t = Some th) as Ht1
      by (unfold dequeued; by rewrite clear_group_threads).
    run_step (run_upd_thread _ _ (set_priority p (Z.shiftl 1 p)) _ Ht1).
    apply run_schedule_insert; [apply lookup_insert_eq|done|].
    intros [h Hin]. change (tl (set_k_threads ?f ?x)) with (tl x) in Hin.
    unfold dequeued in Hin. rewrite tl_clear_group, tl_unlink in Hin.
    by apply list_elem_of_filter in Hin as [? _].
  - erewrite bind_Ok; [done|]. erewrite bind_Ok by reflexivity.
    by apply (run_upd_thread _ _ (set_priority p (Z.shiftl 1 p))).
Qed.

(** Becoming ready does not depend on the state the thread was in. *)
Lemma made_ready_restat t th m s :
  made_ready t (set_th_stat (with_state RT_THREAD_SUSPEND (th_stat th)) th)
    (set_k_threads (<[t := set_th_stat (with_state RT_THREAD_SUSPEND (th_stat th)) th]>) s)
  = made_ready t th (set_k_threads (<[t := m]>) s).
Proof.
  unfold made_ready, enqueue_ready, restat, set_k_group, set_k_tlists, set_k_threads; simpl.
  rewrite with_state_twice by (unfold RT_THREAD_SUSPEND; lia). by rewrite !insert_insert_eq.
Qed.

Lemma kinv_repriority s t th p :
  kinv s -> k_threads s !! t = Some th -> live th -> 0 <= p < 32 -> kinv (repriority t th p s).
Proof.
  intros I Ht Hl Hp. unfold repriority.
  set (th' := set_priority p (Z.shiftl 1 p) th).
  assert (stack_overflowed th' = false) as Hso by exact (inv_stack _ I _ _ Ht Hl).
  set (th3 := set_th_stat (with_state RT_THREAD_SUSPEND (th_stat th')) th').
  assert (state_of th3 = RT_THREAD_SUSPEND) as Hs3 by apply state_suspend.
  destruct (Z.eqb_spec (state_of th) RT_THREAD_READY) as [Hst|Hst].
  - rewrite <- made_ready_restat. fold th3. rewrite <- dequeued_set_threads.
    apply kinv_made_ready.
    + apply kinv_dequeued; [done|done|done|by rewrite Hs3|done|by left].
    + unfold dequeued. rewrite clear_group_threads. apply lookup_insert_eq.
    + done.
    + intros [h Hin]. unfold dequeued in Hin. rewrite tl_clear_group, tl_unlink in Hin.
      by apply list_elem_of_filter in Hin as [? _].
    + unfold dequeued. rewrite clear_group_timer_list.
      exact (kinv_ready_no_timer s t th I Ht Hst).
  - destruct Hl as [|Hsus]; [done|].
    assert (forall u x0, (exists x, k_threads s !! u = Some x /\ state_of x = x0) ->
      exists x, <[t := th']> (k_threads s) !! u = Some x /\ state_of x = x0) as Hex.
    { intros u x0 (x & Hx & HPx). destruct (decide (t = u)) as [->|Hne].
      - rewrite lookup_insert_eq. simplify_eq. eauto.
      - rewrite lookup_insert_ne by done. eauto. }
    split; try apply I; simpl.
    + intros q u. change (tl (set_k_threads _ s) ?h) with (tl s h). rewrite (inv_ready _ I).
      destruct (decide (t = u)) as [->|Hne]; [|by rewrite lookup_insert_ne by done].
      rewrite lookup_insert_eq, Ht. naive_solver.
    + intros h u Hh Hin. apply Hex. exact (inv_waiting _ I h u Hh Hin).
    + intros u Hin. apply Hex. exact (inv_defunct _ I u Hin).
    + intros u x [[<- <-]|[_ Hx]]%lookup_insert_Some Hlv; [done|by eapply (inv_prio _ I)].
    + intros u x [[<- <-]|[_ Hx]]%lookup_insert_Some Hlv; [exact Hso|by eapply (inv_stack _ I)].
    + intros u x [[<- <-]|[_ Hx]]%lookup_insert_Some; [exact (inv_timer _ I t th Ht)|by eapply (inv_timer _ I)].
    + intros u Hin. apply Hex. exact (inv_tm_thread _ I u Hin).
Qed.

(** The order inside the lists is free: only their contents matter. *)
Lemma kinv_tl_perm s s' :
  kinv s -> (forall h, tl s' h ≡ₚ tl s h) ->
  k_threads s' = k_threads s -> k_group s' = k_group s ->
  k_timers s' = k_timers s -> k_timer_list s' = k_timer_list s -> kinv s'.
Proof.
  intros I Et E1 E3 E4 E5.
  split; intros *; rewrite ?E1, ?E3, ?E4, ?E5; try apply I.
  - rewrite Et. apply I.
  - rewrite !Et. apply I.
  - rewrite Et. apply I.
  - rewrite Et. apply I.
  - rewrite Et. apply I.
  - intros Hp. rewrite (inv_group _ I _ Hp). specialize (Et (HReady p)). split; intros Hn Hz; apply Hn.
    + rewrite Hz in Et. by apply Permutation_nil_l in Et.
    + rewrite Hz in Et. by apply Permutation_nil_r in Et.
Qed.

(** Moving a thread to the end of the list it is in ([rt_thread_yield]). *)
Definition requeued (t : nat) (h : tlist_head) (s : kstate) : kstate :=
  set_k_tlists (<[h := tl (unlink t s) h ++ [t]]>) (unlink t s).

Lemma tl_requeued t h s h' :
  tl (requeued t h s) h' =
  if decide (h = h') then filter (fun u => u ≠ t) (tl s h') ++ [t] else filter (fun u => u ≠ t) (tl s h').
Proof. unfold requeued. rewrite tl_set_insert, !tl_unlink. by case_decide; subst. Qed.

Lemma filter_ne_split (t : nat) (a b : list nat) :
  NoDup (a ++ t :: b) -> filter (fun u => u ≠ t) (a ++ t :: b) = a ++ b.
Proof.
  intros (Ha & Hd & [Hb _]%NoDup_cons)%NoDup_app. rewrite filter_app, filter_cons_False by naive_solver.
  rewrite !filter_ne_notin; [done|done|]. intros Hin. by apply (Hd _ Hin); left.
Qed.

Lemma kinv_requeued s t h : kinv s -> t ∈ tl s h -> kinv (requeued t h s).
Proof.
  intros I Hin. apply (kinv_tl_perm s); [done| |done..]. intros h'. rewrite tl_requeued.
  case_decide as E; subst.
  - apply list_elem_of_split in Hin as (a & b & Hab). rewrite Hab, filter_ne_split.
    + rewrite <- app_assoc. apply Permutation_app_head. symmetry. apply Permutation_cons_append.
    + rewrite <- Hab. apply I.
  - rewrite filter_ne_notin; [done|]. intros Hin'. by apply E, (inv_uniq _ I _ _ t).
Qed.

(** A suspended thread joins a list of waiting threads, anywhere in it. *)
Lemma kinv_wait s t th h l :
  kinv s -> k_threads s !! t = Some th -> state_of th = RT_THREAD_SUSPEND -> ¬ linked s t ->
  waiting_head h -> l ≡ₚ t :: tl s h -> kinv (set_k_tlists (<[h := l]>) s).
Proof.
  intros I Ht Hst Hnl Hh Hl.
  assert (forall h', t ∉ tl s h') as Hno by (intros h' Hin; apply Hnl; by exists h').
  assert (forall p, h ≠ HReady p) as Hnr by (by intros p ->).
  split; intros *; rewrite ?tl_set_insert; try apply I.
  - case_decide; [|apply I]. rewrite Hl. apply NoDup_cons. split; [apply Hno|apply I].
  - pose proof (inv_uniq _ I h0 h' t0). repeat case_decide; subst; rewrite ?Hl, ?elem_of_cons;
      try naive_solver; intros; destruct_or?; naive_solver.
  - rewrite decide_False by done. apply I.
  - intros Hh0. case_decide; subst; [|by apply (inv_waiting _ I)].
    rewrite Hl. intros [->|Hin]%elem_of_cons; [eauto|by apply (inv_waiting _ I h0)].
  - case_decide; [by subst|apply I].
  - rewrite decide_False by done. apply I.
Qed.

(** A thread that is in no list may change to a suspended one. *)
Lemma kinv_new_suspended s t th th' :
  kinv s -> k_threads s !! t = Some th -> state_of th = RT_THREAD_INIT ->
  state_of th' = RT_THREAD_SUSPEND -> 0 <= th_current_priority th' < 32 ->
  th_number_mask th' = Z.shiftl 1 (th_current_priority th') -> stack_overflowed th' = false ->
  kinv (set_k_threads (<[t := th']>) s) /\ ¬ linked s t.
Proof.
  intros I Ht Hst Hst' Hp Hm Hso.
  assert (forall u x0, x0 ≠ RT_THREAD_INIT -> (exists x, k_threads s !! u = Some x /\ state_of x = x0) ->
    u ≠ t /\ exists x, <[t := th']> (k_threads s) !! u = Some x /\ state_of x = x0) as Hex.
  { intros u x0 Hx0 (x & Hx & HPx). destruct (decide (t = u)) as [->|Hne].
    - congruence.
    - rewrite lookup_insert_ne by done. eauto. }
  split; [split; try apply I; simpl|].
  - intros q u. change (tl (set_k_threads _ s) ?h) with (tl s h). rewrite (inv_ready _ I).
    destruct (decide (t = u)) as [->|Hne]; [|by rewrite lookup_insert_ne by done].
    rewrite lookup_insert_eq, Ht. by split; intros (x & [= <-] & Hx & _); rewrite ?Hst, ?Hst' in Hx.
  - intros h u Hh Hin. eapply Hex; [done|]. exact (inv_waiting _ I h u Hh Hin).
  - intros u Hin. eapply Hex; [done|]. exact (inv_defunct _ I u Hin).
  - intros u x [[<- <-]|[_ Hx]]%lookup_insert_Some Hlv; [done|by eapply (inv_prio _ I)].
  - intros u x [[<- <-]|[_ Hx]]%lookup_insert_Some Hlv; [done|by eapply (inv_stack _ I)].
  - intros u x [[<- <-]|[_ Hx]]%lookup_insert_Some; [exact (inv_timer _ I _ th Ht)|by eapply (inv_timer _ I)].
  - intros u Hin. eapply Hex; [done|]. exact (inv_tm_thread _ I u Hin).
  - intros [h Hin]. destruct h as [p| | | | | |].
    1:{ apply (inv_ready _ I) in Hin as (x & Hx & HPx & _).
        destruct (Hex t RT_THREAD_READY) as [? _]; [done|by exists x|done]. }
    6:{ destruct (Hex t RT_THREAD_CLOSE) as [? _]; [done|by apply (inv_defunct _ I)|done]. }
    all: destruct (Hex t RT_THREAD_SUSPEND) as [? _]; [done|eapply (inv_waiting _ I); [|exact Hin]; done|done].
Qed.
