(* ===== verification/ThreadSpec.v ===== *)
(** * Correctness of the scheduler and of the thread operations

    The theorems about src/scheduler.c and src/thread.c, and an executable
    kernel state on which their hypotheses are evaluated. *)

From S2P Require Import Prelude Ffs Kernel Object Timer Scheduler Thread Clock KInv.

(** ** A concrete kernel: boot, two threads of priority 10, one of 20, and an
    idle thread of priority 31 *)

Definition empty_kernel : kstate :=
  mk_kstate ∅ ∅ 0 None 0 0 0 0 ∅ [] 0 ∅ ∅ 0.


Definition boot_thread (t : nat) (prio : Z) : M kstate unit :=
  rt_thread_init t [116; 48 + Z.of_nat t] (0x20000000 + 1024 * Z.of_nat t) 1024 prio 10;;
  rt_thread_startup t;; mret tt.

Definition demo : kstate :=
  run (rt_system_scheduler_init;; rt_system_timer_init;;
       boot_thread 1 10;; boot_thread 2 10;; boot_thread 3 20;; boot_thread 4 31;;
       rt_system_scheduler_start) empty_kernel.

(** ** Deciding the invariant on a concrete state *)

Definition all_heads (s : kstate) : list tlist_head := (map_to_list (k_tlists s)).*1.
Definition all_threads (s : kstate) : list (nat * rt_thread) := map_to_list (k_threads s).

Definition liveb (th : rt_thread) : bool :=
  (state_of th =? RT_THREAD_READY) || (state_of th =? RT_THREAD_SUSPEND).

Definition has_state (s : kstate) (x : Z) (t : nat) : bool :=
  match k_threads s !! t with Some th => state_of th =? x | None => false end.

Definition ready_atb (s : kstate) (p : Z) (t : nat) : bool :=
  match k_threads s !! t with
  | Some th => (state_of th =? RT_THREAD_READY) && (th_current_priority th =? p)
  | None => false
  end.

Definition head_okb (s : kstate) (h : tlist_head) : bool :=
  bool_decide (NoDup (tl s h)) &&
  forallb (fun h' => bool_decide (h = h') ||
    forallb (fun t => bool_decide (t ∉ tl s h')) (tl s h)) (all_heads s) &&
  match h with
  | HReady p => forallb (ready_atb s p) (tl s h)
  | HDefunct => forallb (has_state s RT_THREAD_CLOSE) (tl s h)
  | _ => forallb (has_state s RT_THREAD_SUSPEND) (tl s h)
  end.

Definition thread_okb (s : kstate) (e : nat * rt_thread) : bool :=
  let '(t, th) := e in
  (negb (state_of th =? RT_THREAD_READY) || bool_decide (t ∈ tl s (HReady (th_current_priority th)))) &&
  (negb (liveb th) ||
     (in_table (th_current_priority th) &&
      (th_number_mask th =? Z.shiftl 1 (th_current_priority th)) &&
      negb (stack_overflowed th))) &&
  match k_timers s !! TThread t with
  | Some tm => match tm_func tm with rt_thread_timeout_of u => (u =? t)%nat | _ => false end
  | None => false
  end.

Definition timer_okb (s : kstate) (i : timer_id) : bool :=
  match k_timers s !! i with Some tm => is_activated tm | None => false end &&
  match i with TThread t => has_state s RT_THREAD_SUSPEND t | TObject _ => true end.

Definition timer_obj_okb (e : timer_id * rt_timer) : bool :=
  match e with
  | (TObject _, tm) => match tm_func tm with user_timeout _ => true | _ => false end
  | _ => true
  end.

Definition kinvb (s : kstate) : bool :=
  forallb (head_okb s) (all_heads s) &&
  forallb (thread_okb s) (all_threads s) &&
  ((0 <=? k_group s) && (k_group s <? 2 ^ 32)) &&
  forallb (fun p => Bool.eqb (Z.testbit (k_group s) p) (negb (bool_decide (tl s (HReady p) = []))))
    priorities &&
  bool_decide (NoDup (k_timer_list s)) &&
  forallb (timer_okb s) (k_timer_list s) &&
  forallb timer_obj_okb (map_to_list (k_timers s)).

Lemma forallb_elem {A} (f : A -> bool) (l : list A) x : forallb f l = true -> x ∈ l -> f x = true.
Proof. rewrite forallb_forall. intros H Hin. by apply H, list_elem_of_In. Qed.

Lemma tl_in_heads s h t : t ∈ tl s h -> h ∈ all_heads s.
Proof.
  unfold tl, all_heads. destruct (k_tlists s !! h) eqn:E; [|set_solver]. intros _.
  apply list_elem_of_fmap. exists (h, l). split; [done|]. by apply elem_of_map_to_list.
Qed.

Lemma has_state_spec s x t :
  has_state s x t = true -> exists th, k_threads s !! t = Some th /\ state_of th = x.
Proof. unfold has_state. destruct (k_threads s !! t); [|done]. intros H. to_prop. eauto. Qed.

Lemma liveb_spec th : live th -> liveb th = true.
Proof. unfold live, liveb. intros [-> | ->]; done. Qed.

Section kinvb.
Context (s : kstate) (H : kinvb s = true).

Lemma kinvb_parts :
  forallb (head_okb s) (all_heads s) = true /\
  forallb (thread_okb s) (all_threads s) = true /\
  0 <= k_group s < 2 ^ 32 /\
  forallb (fun p => Bool.eqb (Z.testbit (k_group s) p) (negb (bool_decide (tl s (HReady p) = []))))
    priorities = true /\
  NoDup (k_timer_list s) /\
  forallb (timer_okb s) (k_timer_list s) = true /\
  forallb timer_obj_okb (map_to_list (k_timers s)) = true.
Proof. unfold kinvb in H. to_prop. split_and!; done. Qed.

Lemma kinvb_head h t : t ∈ tl s h -> head_okb s h = true.
Proof.
  intros Hin. destruct kinvb_parts as (Hh & _). apply (forallb_elem _ _ _ Hh). by eapply tl_in_heads.
Qed.

Lemma kinvb_thread t th : k_threads s !! t = Some th -> thread_okb s (t, th) = true.
Proof.
  intros Ht. destruct kinvb_parts as (_ & Hh & _). apply (forallb_elem _ _ _ Hh).
  by apply elem_of_map_to_list.
Qed.

Lemma kinvb_live t th : k_threads s !! t = Some th -> live th ->
  in_table (th_current_priority th) = true /\
  th_number_mask th = Z.shiftl 1 (th_current_priority th) /\ stack_overflowed th = false.
Proof.
  intros Ht Hl. pose proof (kinvb_thread _ _ Ht) as E. unfold thread_okb in E. to_prop.
  rewrite (liveb_spec _ Hl) in H2. simpl in H2. to_prop. done.
Qed.

Lemma kinvb_kinv : kinv s.
Proof.
  destruct kinvb_parts as (Hh & Hth & Hr & Hg & Hnd & Htm & Hob). split; try done.
  - intros h. destruct (tl s h) as [|t l] eqn:E; [constructor|].
    assert (t ∈ tl s h) as Hin by (rewrite E; left).
    apply kinvb_head in Hin. unfold head_okb in Hin. to_prop. by rewrite <- E.
  - intros h h' t Hin Hin'. pose proof (kinvb_head _ _ Hin) as Ho. unfold head_okb in Ho. to_prop.
    pose proof (forallb_elem _ _ _ H2 (tl_in_heads _ _ _ Hin')) as Ho; cbv beta in Ho. apply orb_true_iff in Ho as [Ho|Ho].
    + by to_prop.
    + pose proof (forallb_elem _ _ _ Ho Hin) as Hno; cbv beta in Hno. by to_prop.
  - intros p t. split.
    + intros Hin. pose proof (kinvb_head _ _ Hin) as Ho. unfold head_okb in Ho. to_prop.
      pose proof (forallb_elem _ _ _ H1 Hin) as Hra; cbv beta in Hra. unfold ready_atb in Hra.
      destruct (k_threads s !! t) as [th|]; [|done]. to_prop. eauto.
    + intros (th & Ht & Hst & <-). pose proof (kinvb_thread _ _ Ht) as E. unfold thread_okb in E.
      to_prop. rewrite Hst in H0. simpl in H0. by to_prop.
  - intros h t Hh' Hin. pose proof (kinvb_head _ _ Hin) as Ho. unfold head_okb in Ho. to_prop.
    apply has_state_spec. destruct h; try done; by apply (forallb_elem _ _ _ H1).
  - intros t Hin. pose proof (kinvb_head _ _ Hin) as Ho. unfold head_okb in Ho. to_prop.
    by apply has_state_spec, (forallb_elem _ _ _ H1).
  - intros p Hp. assert (p ∈ priorities) as Hin by (apply elem_of_seqZ; unfold RT_THREAD_PRIORITY_MAX; lia).
    pose proof (forallb_elem _ _ _ Hg Hin) as E; cbv beta in E. apply Bool.eqb_prop in E. rewrite E.
    by rewrite negb_true_iff, bool_decide_eq_false.
  - intros t th Ht Hl. destruct (kinvb_live _ _ Ht Hl) as (Hi & ? & _). split; [|done].
    unfold in_table, RT_THREAD_PRIORITY_MAX in Hi. to_prop. lia.
  - intros t th Ht Hl. by destruct (kinvb_live _ _ Ht Hl) as (_ & _ & ?).
  - intros t th Ht. pose proof (kinvb_thread _ _ Ht) as E. unfold thread_okb in E. to_prop.
    destruct (k_timers s !! TThread t) as [tm|]; [|done]. exists tm. split; [done|].
    destruct (tm_func tm); [|done]. apply Nat.eqb_eq in H1. by subst.
  - intros n tm Ht. assert ((TObject n, tm) ∈ map_to_list (k_timers s)) as Hin by by apply elem_of_map_to_list.
    pose proof (forallb_elem _ _ _ Hob Hin) as E; cbv beta in E. simpl in E. destruct (tm_func tm); [done|eauto].
  - intros i Hin. pose proof (forallb_elem _ _ _ Htm Hin) as E; cbv beta in E. unfold timer_okb in E. to_prop.
    destruct (k_timers s !! i) as [tm|]; [|done]. eauto.
  - intros t Hin. pose proof (forallb_elem _ _ _ Htm Hin) as E; cbv beta in E. unfold timer_okb in E. to_prop.
    by apply has_state_spec.
Qed.
End kinvb.

Lemma demo_kinv : kinv demo.
Proof. apply kinvb_kinv. vm_compute. reflexivity. Qed.

(** ** Scheduling *)

(** C1: with the scheduler unlocked and some thread ready, [rt_schedule]
    completes, keeps the invariant, and makes current a ready thread that no
    ready thread precedes in priority and that is first in its queue. *)
Theorem rt_schedule_picks_best s u uh :
  kinv s -> ready s u uh -> k_lock_nest s = 0 ->
  wp rt_schedule (fun _ s' => kinv s' /\ exists t th,
    k_current s' = Some t /\ ready s' t th /\
    head (tl s' (HReady (th_current_priority th))) = Some t /\
    (forall v vh, ready s' v vh -> th_current_priority th <= th_current_priority vh)) s.
Proof.
  intros I Hu Hl. unfold wp. rewrite (run_schedule _ _ _ I Hu).
  destruct (top_ready_best _ _ _ I Hu) as (t & th & Htop & Ht & Hp & Hbest).
  split; [by apply kinv_scheduled|]. exists t, th.
  unfold scheduled. rewrite Hl, Htop. simpl. unfold top_ready in Htop. rewrite <- Hp in Htop.
  case_decide; done.
Qed.

(** While the scheduler is locked, [rt_schedule] changes nothing, whatever
    the state. *)
Theorem rt_schedule_locked_noop s : k_lock_nest s ≠ 0 -> rt_schedule s = Ok tt s.
Proof. intros Hl. by apply run_schedule_locked. Qed.

(** [rt_enter_critical] and [rt_exit_critical] nest: leaving an inner
    critical section restores the state, and no switch happens inside. *)
Theorem critical_section_nests s :
  0 < k_lock_nest s < 32767 ->
  (_ ← rt_enter_critical; _ ← rt_schedule; rt_exit_critical) s = Ok tt s.
Proof.
  intros Hl. unfold rt_enter_critical. erewrite bind_Ok by reflexivity.
  assert (s16 (k_lock_nest s + 1) = k_lock_nest s + 1) as E1
    by (unfold s16; rewrite Z.mod_small; lia).
  set (s1 := set_k_lock_nest _ s).
  assert (k_lock_nest s1 = k_lock_nest s + 1) as El by done.
  rewrite (bind_Ok _ _ _ _ _ (proj1 (run_schedule_locked s1 ltac:(lia)))).
  unfold rt_exit_critical. erewrite bind_Ok by reflexivity. erewrite bind_Ok by reflexivity. simpl.
  rewrite E1. assert (s16 (k_lock_nest s + 1 - 1) = k_lock_nest s) as ->
    by (unfold s16; rewrite Z.mod_small; lia).
  destruct (Z.leb_spec (k_lock_nest s) 0); [lia|].
  unfold mret, M_ret. f_equal. unfold s1. destruct s; simpl in *. unfold set_k_lock_nest; simpl.
  rewrite E1. do 2 f_equal. unfold s16. rewrite Z.mod_small; lia.
Qed.

(** ** Suspend and resume *)

Lemma suspended_threads s t th :
  k_threads (suspended t th s) = <[t := set_th_stat (with_state RT_THREAD_SUSPEND (th_stat th)) th]> (k_threads s).
Proof. unfold suspended, dequeued. by rewrite timer_stopped_threads, clear_group_threads. Qed.

Lemma tl_suspended s t th h : tl (suspended t th s) h = filter (fun u => u ≠ t) (tl s h).
Proof. unfold suspended, dequeued. by rewrite tl_timer_stopped, tl_clear_group, tl_unlink. Qed.

Lemma suspended_unlinked s t th : ¬ linked (suspended t th s) t.
Proof. intros [h Hin]. rewrite tl_suspended in Hin. by apply list_elem_of_filter in Hin as [? _]. Qed.

Lemma tl_resumed s t th h :
  tl (resumed t th s) h =
  if decide (HReady (th_current_priority th) = h) then filter (fun u => u ≠ t) (tl s h) ++ [t]
  else filter (fun u => u ≠ t) (tl s h).
Proof. unfold resumed. by rewrite tl_made_ready, tl_timer_stopped, tl_unlink. Qed.

Lemma resumed_threads s t th :
  k_threads (resumed t th s) = <[t := set_th_stat (with_state RT_THREAD_READY (th_stat th)) th]> (k_threads s).
Proof. unfold resumed, made_ready, enqueue_ready. simpl. by rewrite timer_stopped_threads. Qed.

(** [rt_thread_suspend] on a ready thread succeeds, keeps the invariant,
    marks the thread suspended, takes it out of the ready lists and leaves the
    order of all other threads alone; on any other thread it returns
    [-RT_ERROR] and changes nothing. *)
Theorem rt_thread_suspend_correct s t th :
  kinv s -> k_threads s !! t = Some th ->
  wp (rt_thread_suspend t) (fun r s' =>
    kinv s' /\
    (state_of th ≠ RT_THREAD_READY -> r = - RT_ERROR /\ s' = s) /\
    (state_of th = RT_THREAD_READY -> r = RT_EOK /\ ¬ linked s' t /\
       (exists th', k_threads s' !! t = Some th' /\ state_of th' = RT_THREAD_SUSPEND) /\
       (forall u, u ≠ t -> k_threads s' !! u = k_threads s !! u) /\
       (forall h, tl s' h = filter (fun u => u ≠ t) (tl s h)))) s.
Proof.
  intros I Ht. destruct (decide (state_of th = RT_THREAD_READY)) as [Hst|Hst]; unfold wp.
  - rewrite (run_thread_suspend _ _ _ I Ht Hst). split; [by apply kinv_suspended|].
    split; [done|]. intros _. rewrite suspended_threads.
    split_and!; [done|apply suspended_unlinked|..].
    + rewrite lookup_insert_eq. eexists. split; [done|apply state_suspend].
    + intros u Hne. by rewrite lookup_insert_ne.
    + intros h. apply tl_suspended.
  - rewrite (run_thread_suspend_not_ready _ _ _ Ht Hst). done.
Qed.

(** C2: [rt_thread_resume] on a suspended thread succeeds, keeps the
    invariant, takes the thread out of the list it waits in, stops its timer
    and appends it to the ready list of its priority; on any other thread it
    returns [-RT_ERROR] and changes nothing. *)
Theorem rt_thread_resume_correct s t th :
  kinv s -> k_threads s !! t = Some th ->
  wp (rt_thread_resume t) (fun r s' =>
    kinv s' /\
    (state_of th ≠ RT_THREAD_SUSPEND -> r = - RT_ERROR /\ s' = s) /\
    (state_of th = RT_THREAD_SUSPEND -> r = RT_EOK /\
       (exists th', ready s' t th' /\ th_current_priority th' = th_current_priority th) /\
       (TThread t ∉ k_timer_list s') /\
       tl s' (HReady (th_current_priority th)) = tl s (HReady (th_current_priority th)) ++ [t] /\
       (forall h, h ≠ HReady (th_current_priority th) -> tl s' h = filter (fun u => u ≠ t) (tl s h)))) s.
Proof.
  intros I Ht. destruct (decide (state_of th = RT_THREAD_SUSPEND)) as [Hst|Hst]; unfold wp.
  - rewrite (run_thread_resume _ _ _ I Ht Hst).
    pose proof (kinv_resumed _ _ _ I Ht Hst) as I'. split; [done|]. split; [done|]. intros _.
    assert (ready (resumed t th s) t (set_th_stat (with_state RT_THREAD_READY (th_stat th)) th)) as Hr.
    { split; [rewrite resumed_threads; apply lookup_insert_eq|apply state_ready]. }
    split_and!; [done|eauto|by eapply kinv_ready_no_timer; [|apply Hr..]|..].
    + rewrite tl_resumed, decide_True by done. rewrite filter_ne_notin; [done|].
      intros (v & ? & Hv & _)%(inv_ready _ I). simplify_eq. by rewrite Hst in Hv.
    + intros h Hne. by rewrite tl_resumed, decide_False by done.
  - rewrite (run_thread_resume_not_suspended _ _ _ Ht Hst). done.
Qed.

(** Suspending a ready thread and resuming it is a round trip on the
    thread itself: only its place in the ready queue changes, to the end. *)
Theorem suspend_resume_roundtrip s t th :
  kinv s -> k_threads s !! t = Some th -> state_of th = RT_THREAD_READY ->
  wp (_ ← rt_thread_suspend t; rt_thread_resume t) (fun r s' =>
    r = RT_EOK /\ kinv s' /\ k_threads s' = k_threads s /\ k_group s' = k_group s /\
    tl s' (HReady (th_current_priority th)) =
      filter (fun u => u ≠ t) (tl s (HReady (th_current_priority th))) ++ [t]) s.
Proof.
  intros I Ht Hst. apply wp_bind. unfold wp. rewrite (run_thread_suspend _ _ _ I Ht Hst).
  pose proof (kinv_suspended _ _ _ I Ht Hst) as I1.
  set (th1 := set_th_stat (with_state RT_THREAD_SUSPEND (th_stat th)) th).
  assert (k_threads (suspended t th s) !! t = Some th1) as Ht1
    by (rewrite suspended_threads; apply lookup_insert_eq).
  rewrite (run_thread_resume _ _ _ I1 Ht1 (state_suspend th)).
  assert (k_threads (resumed t th1 (suspended t th s)) = k_threads s) as Eth.
  { rewrite resumed_threads, suspended_threads, insert_insert_eq. apply insert_id. rewrite Ht. f_equal.
    transitivity (set_th_stat (th_stat th) th); [by destruct th|].
    unfold th1, set_th_stat; simpl. f_equal.
    rewrite with_state_twice by (unfold RT_THREAD_SUSPEND; lia). by rewrite <- Hst, with_state_id. }
  pose proof (kinv_resumed _ _ _ I1 Ht1 (state_suspend th)) as I2.
  assert (forall h, tl (resumed t th1 (suspended t th s)) h =
    if decide (HReady (th_current_priority th) = h) then filter (fun u => u ≠ t) (tl s h) ++ [t]
    else filter (fun u => u ≠ t) (tl s h)) as Etl.
  { intros h. rewrite tl_resumed, tl_suspended. change (th_current_priority th1) with (th_current_priority th).
    rewrite (filter_ne_notin t (filter _ _)) by (by intros [? _]%list_elem_of_filter). done. }
  split_and!; [done|done|done| |by rewrite Etl, decide_True].
  symmetry. apply kinv_group_ext; [done|done|]. intros p. rewrite Etl. case_decide as E.
  - injection E as <-. pose proof (kinv_in_ready _ _ _ I Ht Hst) as Hin.
    split; intros E; [rewrite E in Hin; set_solver|by destruct (filter _ _)].
  - rewrite filter_ne_notin; [done|]. intros (v & ? & _ & ?)%(inv_ready _ I). simplify_eq.
Qed.

(** ** Priority, yield, start *)

(** Changing the priority of a ready thread keeps the invariant, moves the
    thread to the end of the queue of the new priority, and leaves the other
    threads and queues as they were. *)
Theorem change_priority_correct s t th p :
  kinv s -> ready s t th -> 0 <= p < 32 ->
  wp (rt_thread_control t (RT_THREAD_CTRL_CHANGE_PRIORITY p)) (fun r s' =>
    r = RT_EOK /\ kinv s' /\
    (exists th', ready s' t th' /\ th_current_priority th' = p /\ th_init_priority th' = th_init_priority th) /\
    (forall u, u ≠ t -> k_threads s' !! u = k_threads s !! u) /\
    last (tl s' (HReady p)) = Some t /\
    (forall h, filter (fun u => u ≠ t) (tl s' h) = filter (fun u => u ≠ t) (tl s h))) s.
Proof.
  intros I [Ht Hst] Hp. unfold wp. rewrite (run_change_priority _ _ _ _ I Ht Hp).
  pose proof (kinv_repriority _ _ _ _ I Ht (or_introl Hst) Hp) as I'.
  unfold repriority in *. rewrite Hst in *. simpl in *.
  set (th' := set_priority p (Z.shiftl 1 p) th) in *.
  set (s1 := set_k_threads (<[t := th']>) (dequeued t th s)) in *.
  assert (forall h, tl s1 h = filter (fun u => u ≠ t) (tl s h)) as Et.
  { intros h. change (tl s1 h) with (tl (dequeued t th s) h). unfold dequeued.
    by rewrite tl_clear_group, tl_unlink. }
  assert (k_threads s1 = <[t := th']> (k_threads s)) as Eth.
  { unfold s1, dequeued. simpl. by rewrite clear_group_threads. }
  split; [done|]. split; [done|]. split_and!.
  - exists (set_th_stat (with_state RT_THREAD_READY (th_stat th')) th').
    split; [split; [exact (restat_lookup_eq _ _ _ _)|apply state_ready]|done].
  - intros u Hne. simpl. rewrite !lookup_insert_ne by done. unfold dequeued. by rewrite clear_group_threads.
  - rewrite tl_made_ready, decide_True by done. apply last_snoc.
  - intros h. rewrite tl_made_ready, !Et.
    assert (forall l, filter (fun u => u ≠ t) (filter (fun u : nat => u ≠ t) l) = filter (fun u => u ≠ t) l) as Hff
      by (intros; apply filter_ne_notin; by intros [? _]%list_elem_of_filter).
    case_decide; [|done]. rewrite filter_app, Hff, filter_cons_False by naive_solver. apply app_nil_r.
Qed.

Lemma has_sibling_spec s t h l : kinv s -> tl s h = l -> t ∈ l -> has_sibling s t = (2 <=? length l)%nat.
Proof.
  intros I <- Hin. unfold has_sibling. apply eq_true_iff_eq. rewrite existsb_exists, Nat.leb_le. split.
  - intros ([h' l'] & Hl' & Hb). cbn [snd] in Hb. to_prop. apply Nat.leb_le in H0.
    apply list_elem_of_In, elem_of_map_to_list in Hl'.
    assert (tl s h' = l') as E by (unfold tl; by rewrite Hl').
    assert (h' = h) as -> by (apply (inv_uniq _ I _ _ t); [by rewrite E|done]). by rewrite E.
  - intros Hlen. unfold tl in *. destruct (k_tlists s !! h) as [l|] eqn:E; simpl in Hin, Hlen; [|lia].
    exists (h, l). split; [by apply list_elem_of_In, elem_of_map_to_list|].
    apply andb_true_iff. split; [by apply bool_decide_eq_true_2|by apply Nat.leb_le].
Qed.

(** Round robin: when the running thread [t] yields and another thread [u]
    of the same priority follows it in the queue, [u] runs next and [t] goes to
    the end of the queue; the invariant is kept and no thread is lost. *)
Theorem rt_thread_yield_round_robin s t th u rest :
  kinv s -> ready s t th -> k_lock_nest s = 0 -> k_current s = Some t ->
  highest_ready_priority s = th_current_priority th ->
  tl s (HReady (th_current_priority th)) = t :: u :: rest ->
  wp rt_thread_yield (fun r s' =>
    r = RT_EOK /\ kinv s' /\ k_current s' = Some u /\
    tl s' (HReady (th_current_priority th)) = u :: rest ++ [t] /\
    k_threads s' = k_threads s) s.
Proof.
  intros I [Ht Hst] Hl Hc Hhi Hq. set (h := HReady (th_current_priority th)) in *.
  assert (t ∈ tl s h) as Hin by (rewrite Hq; left).
  destruct (inv_prio _ I _ _ Ht) as [Hp _]; [by left|].
  pose proof (kinv_requeued _ _ _ I Hin) as I'.
  unfold rt_thread_yield, rt_thread_self, tlist_remove, tlist_append. wp_steps.
  eapply wp_deref; [exact Hc|]. wp_steps. eapply wp_deref; [exact Ht|]. wp_steps.
  rewrite Hst, (has_sibling_spec s t h _ I Hq) by left. simpl. wp_steps.
  apply wp_assert; [by apply in_table_true|]. wp_steps. apply wp_require_unlinked.
  { intros [h' Hin']. fold (unlink t s) in Hin'. rewrite tl_unlink in Hin'.
    by apply list_elem_of_filter in Hin' as [? _]. }
  wp_steps. match goal with |- wp _ _ ?x => change x with (requeued t h s) end.
  assert (ready (requeued t h s) t th) as Hr by done.
  unfold wp. rewrite (run_schedule _ _ _ I' Hr).
  assert (tl (requeued t h s) h = u :: rest ++ [t]) as Eq.
  { rewrite tl_requeued, decide_True, Hq by done.
    change (t :: u :: rest) with ([] ++ t :: (u :: rest)). rewrite filter_ne_split; [done|].
    simpl. rewrite <- Hq. apply I. }
  assert (highest_ready_priority (requeued t h s) = th_current_priority th) as Ehi by done.
  assert (u ≠ t) as Hut.
  { pose proof (inv_nodup _ I h) as Hnd. rewrite Hq in Hnd. apply NoDup_cons in Hnd as [Hnd _]. set_solver. }
  unfold mret, M_ret. split; [done|]. split; [by apply kinv_scheduled|].
  unfold scheduled. change (k_lock_nest (requeued t h s)) with (k_lock_nest s). rewrite Hl. simpl.
  unfold top_ready. rewrite Ehi. fold h. rewrite Eq. simpl.
  change (k_current (requeued t h s)) with (k_current s). rewrite Hc, decide_False by congruence. done.
Qed.

(** A thread that is alone at its priority keeps running when it yields. *)
Theorem rt_thread_yield_alone s t th :
  kinv s -> ready s t th -> k_current s = Some t ->
  tl s (HReady (th_current_priority th)) = [t] -> rt_thread_yield s = Ok RT_EOK s.
Proof.
  intros I [Ht Hst] Hc Hq.
  unfold rt_thread_yield, rt_thread_self, get_thread, deref, mbind, M_bind, get. rewrite Hc, Ht.
  rewrite Hst, (has_sibling_spec s t _ _ I Hq) by left. done.
Qed.

(** [rt_thread_startup] on an initialised thread makes it ready at its
    initial priority, last in its queue, and lets the scheduler run. *)
Theorem rt_thread_startup_correct s t th :
  kinv s -> k_threads s !! t = Some th -> th_stat th = RT_THREAD_INIT ->
  0 <= th_init_priority th < 32 -> stack_overflowed th = false ->
  wp (rt_thread_startup t) (fun r s' =>
    r = RT_EOK /\ kinv s' /\
    last (tl s' (HReady (th_init_priority th))) = Some t /\
    exists th', ready s' t th' /\ th_current_priority th' = th_init_priority th) s.
Proof.
  intros I Ht Hst Hp Hso. set (p := th_init_priority th) in *.
  set (th1 := set_th_stat RT_THREAD_SUSPEND (set_th_number_mask (Z.shiftl 1 p) (set_th_current_priority p th))).
  assert (state_of th = RT_THREAD_INIT) as Hst0 by (unfold state_of; by rewrite Hst).
  destruct (kinv_new_suspended s t th th1) as [I1 Hnl]; [done..|].
  set (s1 := set_k_threads (<[t := th1]>) s) in *.
  assert (k_threads s1 !! t = Some th1) as Ht1 by apply lookup_insert_eq.
  pose proof (kinv_resumed _ _ _ I1 Ht1 eq_refl) as I2.
  assert (ready (resumed t th1 s1) t (set_th_stat (with_state RT_THREAD_READY (th_stat th1)) th1)) as Hr.
  { split; [rewrite resumed_threads; apply lookup_insert_eq|apply state_ready]. }
  assert (last (tl (resumed t th1 s1) (HReady p)) = Some t) as Hlast
    by (rewrite tl_resumed, decide_True by done; apply last_snoc).
  unfold rt_thread_startup. wp_steps. eapply wp_deref; [exact Ht|]. wp_steps.
  apply wp_assert; [by rewrite Hst0|]. unfold number_mask_of. wp_steps.
  apply wp_assert; [by apply in_table_true|]. wp_steps. eapply wp_upd_thread; [exact Ht|].
  fold p th1 s1. wp_steps. unfold wp at 1. rewrite (run_thread_resume _ _ _ I1 Ht1 eq_refl). wp_steps.
  apply wp_when; intros _; wp_steps.
  - unfold wp. rewrite (run_schedule _ _ _ I2 Hr).
    assert (tl (scheduled (resumed t th1 s1)) = tl (resumed t th1 s1)) as Et.
    { unfold scheduled. destruct (_ =? 0); [|done]. destruct (top_ready _); [|done]. by case_decide. }
    assert (k_threads (scheduled (resumed t th1 s1)) = k_threads (resumed t th1 s1)) as Eth.
    { unfold scheduled. destruct (_ =? 0); [|done]. destruct (top_ready _); [|done]. by case_decide. }
    split; [done|]. split; [by apply kinv_scheduled|]. rewrite Et. split; [done|].
    eexists. unfold ready. rewrite Eth. split; [exact Hr|done].
  - split; [done|]. split; [done|]. split; [done|]. eexists. split; [exact Hr|done].
Qed.

(** ** Witnesses on the booted kernel *)

Definition dummy_thread : rt_thread := mk_thread 0 0 0 0 0 0 0 0 0 0 0 0 0 false.
Definition thread_at (s : kstate) (t : nat) : rt_thread := default dummy_thread (k_threads s !! t).

Lemma demo_ready t : (t ∈ [1; 2; 3; 4])%nat -> ready demo t (thread_at demo t).
Proof. intros Ht. set_unfold. destruct_or!; subst; split; vm_compute; reflexivity || done. Qed.

Lemma demo_lookup t : (t ∈ [1; 2; 3; 4])%nat -> k_threads demo !! t = Some (thread_at demo t).
Proof. intros Ht. by apply demo_ready. Qed.

(** The same kernel after thread 1 was suspended. *)
Definition demo_susp : kstate := run (rt_thread_suspend 1) demo.
Lemma demo_susp_kinv : kinv demo_susp.
Proof. apply kinvb_kinv. vm_compute. reflexivity. Qed.

(** The same kernel with a thread that was initialised but not started. *)
Definition demo_new : kstate :=
  run (rt_thread_init 5 [110] 0x20008000 512 5 10) demo.
Lemma demo_new_kinv : kinv demo_new.
Proof. apply kinvb_kinv. vm_compute. reflexivity. Qed.

Lemma rt_schedule_picks_best_witness :
  wp rt_schedule (fun _ s' => kinv s' /\ exists t th, k_current s' = Some t /\ ready s' t th) demo_susp.
Proof.
  eapply wp_mono; [|apply (rt_schedule_picks_best demo_susp 2 (thread_at demo_susp 2));
    [apply demo_susp_kinv|split; vm_compute; reflexivity|vm_compute; reflexivity]].
  intros _ s' (? & t & th & ? & ? & _). split; [assumption|exists t, th; split; assumption].
Defined.

Lemma rt_schedule_locked_noop_witness :
  rt_schedule (run rt_enter_critical demo) = Ok tt (run rt_enter_critical demo).
Proof. apply rt_schedule_locked_noop. vm_compute. discriminate. Defined.

Lemma critical_section_nests_witness :
  (_ ← rt_enter_critical; _ ← rt_schedule; rt_exit_critical) (run rt_enter_critical demo)
  = Ok tt (run rt_enter_critical demo).
Proof.
  apply critical_section_nests. replace (k_lock_nest (run rt_enter_critical demo)) with 1 by (vm_compute; reflexivity). lia.
Defined.

Lemma rt_thread_suspend_correct_witness :
  wp (rt_thread_suspend 1) (fun r s' => kinv s' /\ r = RT_EOK /\ ¬ linked s' 1) demo.
Proof.
  eapply wp_mono; [|apply (rt_thread_suspend_correct demo 1 (thread_at demo 1)); [apply demo_kinv|apply demo_lookup; set_solver]].
  intros r s' (? & _ & H). destruct H as (? & ? & _); [apply demo_ready; set_solver|]. auto.
Defined.

Lemma rt_thread_resume_correct_witness :
  wp (rt_thread_resume 1) (fun r s' => kinv s' /\ r = RT_EOK) demo_susp.
Proof.
  eapply wp_mono; [|apply (rt_thread_resume_correct demo_susp 1 (thread_at demo_susp 1));
    [apply demo_susp_kinv|vm_compute; reflexivity]].
  intros r s' (? & _ & H). destruct H as (? & _); [vm_compute; reflexivity|]. auto.
Defined.

Lemma suspend_resume_roundtrip_witness :
  wp (_ ← rt_thread_suspend 1; rt_thread_resume 1) (fun r s' =>
    r = RT_EOK /\ kinv s' /\ k_threads s' = k_threads demo) demo.
Proof.
  eapply wp_mono; [|apply (suspend_resume_roundtrip demo 1 (thread_at demo 1));
    [apply demo_kinv|apply demo_lookup; set_solver|apply demo_ready; set_solver]].
  intros r s' (? & ? & ? & _). auto.
Defined.

Lemma change_priority_correct_witness :
  wp (rt_thread_control 3 (RT_THREAD_CTRL_CHANGE_PRIORITY 10)) (fun r s' =>
    kinv s' /\ last (tl s' (HReady 10)) = Some 3%nat) demo.
Proof.
  eapply wp_mono; [|apply (change_priority_correct demo 3 (thread_at demo 3) 10);
    [apply demo_kinv|apply demo_ready; set_solver|lia]].
  intros r s' (? & ? & _ & _ & ? & _). auto.
Defined.

Lemma rt_thread_yield_round_robin_witness :
  wp rt_thread_yield (fun r s' => kinv s' /\ k_current s' = Some 2%nat) demo.
Proof.
  eapply wp_mono; [|apply (rt_thread_yield_round_robin demo 1 (thread_at demo 1) 2 []);
    [apply demo_kinv|apply demo_ready; set_solver|vm_compute; reflexivity..]].
  intros r s' (? & ? & ? & _). auto.
Defined.

Lemma rt_thread_yield_alone_witness :
  rt_thread_yield (run (_ ← rt_thread_suspend 1; _ ← rt_thread_suspend 2; rt_schedule) demo)
  = Ok RT_EOK (run (_ ← rt_thread_suspend 1; _ ← rt_thread_suspend 2; rt_schedule) demo).
Proof.
  set (s := run _ _). apply (rt_thread_yield_alone s 3 (thread_at s 3)).
  - apply kinvb_kinv. vm_compute. reflexivity.
  - split; vm_compute; reflexivity.
  - vm_compute. reflexivity.
  - vm_compute. reflexivity.
Defined.

Lemma rt_thread_startup_correct_witness :
  wp (rt_thread_startup 5) (fun r s' => kinv s' /\ last (tl s' (HReady 5)) = Some 5%nat) demo_new.
Proof.
  eapply wp_mono; [|apply (rt_thread_startup_correct demo_new 5 (thread_at demo_new 5));
    [apply demo_new_kinv|vm_compute; reflexivity|vm_compute; reflexivity| |vm_compute; reflexivity]].
  - intros r s' (? & ? & ? & _). auto.
  - replace (th_init_priority (thread_at demo_new 5)) with 5 by (vm_compute; reflexivity). lia.
Defined.
