(* ===== verification/Ipc.v ===== *)
(** * Waiting lists: the helpers at the top of src/ipc.c

    Suspending a thread on the list of an IPC object, in arrival or priority
    order, resuming the first thread or all threads of such a list, and the
    step every blocking call takes before [rt_schedule]: reset the error code,
    suspend, arm the thread timer.  The lemmas give the exact state each
    leaves and that the kernel invariant is kept. *)

From S2P Require Import Prelude Kernel Object Timer Scheduler Thread KInv ThreadSpec.

(** ** Operations *)

Definition prio_of (s : kstate) (t : nat) : Z :=
  match k_threads s !! t with Some th => th_current_priority th | None => 0 end.

(** The [for] loop of the [RT_IPC_FLAG_PRIO] case. *)
Fixpoint prio_insert (prio : nat -> Z) (p : Z) (t : nat) (l : list nat) : list nat :=
  match l with
  | [] => [t]
  | u :: r => if p <? prio u then t :: u :: r else u :: prio_insert prio p t r
  end.

(** A flag other than FIFO and PRIO leaves the thread in no list. *)
Definition rt_ipc_list_suspend (h : tlist_head) (t : nat) (flag : Z) : M kstate Z :=
  rt_thread_suspend t;;
  (if flag =? RT_IPC_FLAG_FIFO then tlist_append h t
   else if flag =? RT_IPC_FLAG_PRIO then
     require_unlinked t;;
     th ← get_thread t;
     s ← get;
     modify (set_k_tlists (<[h := prio_insert (prio_of s) (th_current_priority th) t (tl s h)]>))
   else mret tt);;
  mret RT_EOK.

(** [list->next] of an empty list is the head itself, which is no thread. *)
Definition rt_ipc_list_resume (h : tlist_head) : M kstate Z :=
  t ← deref (fun s => head (tl s h)); rt_thread_resume t;; mret RT_EOK.

(** Every round either takes the first thread off the list or, when that
    thread cannot be resumed, changes nothing: more rounds than threads mean
    that the C loop does not end, which is a fault here. *)
Fixpoint resume_all_loop (fuel : nat) (h : tlist_head) : M kstate Z :=
  s ← get;
  match tl s h with
  | [] => mret RT_EOK
  | t :: _ =>
      match fuel with
      | O => fault
      | S fuel =>
          upd_thread t (set_th_error (- RT_ERROR));;
          rt_thread_resume t;;
          resume_all_loop fuel h
      end
  end.
Definition rt_ipc_list_resume_all (h : tlist_head) : M kstate Z :=
  s ← get; resume_all_loop (length (tl s h)) h.

(** [rt_timer_control(&thread->thread_timer, RT_TIMER_CTRL_SET_TIME, &time)]
    and [rt_timer_start]. *)
Definition arm_thread_timer (t : nat) (time : Z) : M kstate unit :=
  rt_timer_control (TThread t) (RT_TIMER_CTRL_SET_TIME (u32 time));;
  rt_timer_start (TThread t);;
  mret tt.

(** What [rt_sem_take], [rt_event_recv], ... do from [rt_ipc_list_suspend] up
    to and including [rt_schedule]. *)
Definition wait_on (h : tlist_head) (t : nat) (flag time : Z) : M kstate unit :=
  rt_ipc_list_suspend h t flag;;
  when (0 <? time) (arm_thread_timer t time);;
  rt_schedule.

(** ** Priority order *)

(** The thread goes after all threads of its own or a better priority and in
    front of the first one of a worse priority. *)
Lemma prio_insert_split prio p t l :
  exists a b, l = a ++ b /\ prio_insert prio p t l = a ++ t :: b /\
    Forall (fun u => prio u <= p) a /\ (forall u, head b = Some u -> p < prio u).
Proof.
  induction l as [|x l (a & b & -> & E & Ha & Hb)]; simpl.
  - by exists [], [].
  - destruct (Z.ltb_spec p (prio x)).
    + exists [], (x :: a ++ b). split_and!; [done|done|done|]. by intros u [= <-].
    + exists (x :: a), b. rewrite E. split_and!; [done|done|by constructor|done].
Qed.

Lemma prio_insert_perm prio p t l : prio_insert prio p t l ≡ₚ t :: l.
Proof.
  destruct (prio_insert_split prio p t l) as (a & b & -> & -> & _). symmetry. apply Permutation_middle.
Qed.

(** A list in priority order stays in priority order. *)
Definition prio_sorted (prio : nat -> Z) (l : list nat) : Prop :=
  forall a u v b, l = a ++ u :: v :: b -> prio u <= prio v.

Lemma prio_sorted_tail prio x l : prio_sorted prio (x :: l) -> prio_sorted prio l.
Proof. intros H a u v b ->. by apply (H (x :: a) u v b). Qed.

Lemma prio_sorted_cons prio x l :
  prio_sorted prio l -> (forall v, head l = Some v -> prio x <= prio v) -> prio_sorted prio (x :: l).
Proof.
  intros Hl Hx [|y a] u v b [= -> E]; [subst; by apply Hx|]. by apply (Hl a u v b).
Qed.

Lemma prio_insert_sorted prio t l :
  prio_sorted prio l -> prio_sorted prio (prio_insert prio (prio t) t l).
Proof.
  induction l as [|x l IH]; intros Hl; simpl.
  - by apply prio_sorted_cons.
  - destruct (Z.ltb_spec (prio t) (prio x)).
    + apply prio_sorted_cons; [done|]. intros v [= <-]. lia.
    + apply prio_sorted_cons; [by eapply IH, prio_sorted_tail|]. intros v Hv.
      destruct l as [|y l]; simpl in Hv.
      * injection Hv as <-. done.
      * destruct (_ <? _); injection Hv as <-; [done|]. by apply (Hl [] x y l).
Qed.

(** ** The timer of a thread *)

(** [rt_timer_control ... SET_TIME] and [rt_timer_start] *)
Definition timer_set (i : timer_id) (time : Z) (s : kstate) : kstate :=
  match k_timers s !! i with
  | Some tm => set_k_timers (<[i := set_tm_init_tick time tm]>) s
  | None => s
  end.
Definition started_timer (now : Z) (tm : rt_timer) : rt_timer :=
  set_activated (set_tm_timeout_tick (u32 (now + tm_init_tick tm)) (clear_activated tm)).
Definition timer_started (i : timer_id) (s : kstate) : kstate :=
  match k_timers s !! i with
  | Some tm =>
      set_k_timers (<[i := started_timer (k_tick s) tm]>)
        (set_k_timer_list (fun l => timer_row_insert (timeout_tick_of s) (u32 (k_tick s + tm_init_tick tm)) i
                                      (filter (fun j => j ≠ i) l))
          (set_k_random_nr (fun n => u32 (n + 1)) s))
  | None => s
  end.
Definition armed (t : nat) (time : Z) (s : kstate) : kstate :=
  if 0 <? time then timer_started (TThread t) (timer_set (TThread t) time s) else s.

Lemma timer_row_insert_perm tick_of x i l : timer_row_insert tick_of x i l ≡ₚ i :: l.
Proof.
  induction l as [|j l IH]; simpl; [done|]. repeat case_match; try done; rewrite IH; constructor.
Qed.

Lemma timer_row_insert_ext f g x i l :
  (forall j, j ∈ l -> f j = g j) -> timer_row_insert f x i l = timer_row_insert g x i l.
Proof.
  induction l as [|j l IH]; intros H; simpl; [done|].
  rewrite (H j) by left. rewrite IH by (intros; apply H; by right). done.
Qed.

Lemma run_get_timer s i tm : k_timers s !! i = Some tm -> get_timer i s = Ok tm s.
Proof. intros H. unfold get_timer, deref. by rewrite H. Qed.
Lemma run_upd_timer s i f tm :
  k_timers s !! i = Some tm -> upd_timer i f s = Ok tt (set_k_timers (<[i := f tm]>) s).
Proof. intros H. unfold upd_timer. by run_step (run_get_timer _ _ _ H). Qed.

Lemma run_timer_start s i tm :
  k_timers s !! i = Some tm -> tm_init_tick tm < RT_TICK_MAX / 2 ->
  rt_timer_start i s = Ok (- RT_EOK) (timer_started i s).
Proof.
  intros Ht Hlt.
  enough (wp (rt_timer_start i) (fun a s' => a = - RT_EOK /\ s' = timer_started i s) s) as
    (a & s' & -> & -> & ->)%wp_run by done.
  unfold rt_timer_start, _rt_timer_remove. wp_steps. eapply wp_upd_timer; [exact Ht|]. wp_steps.
  eapply wp_deref; [apply lookup_insert_eq|]. wp_steps. apply wp_assert; [by apply Z.ltb_lt|].
  unfold rt_tick_get. wp_steps. eapply wp_upd_timer; [apply lookup_insert_eq|]. wp_steps.
  eapply wp_upd_timer; [apply lookup_insert_eq|]. wp_steps. split; [done|].
  unfold timer_started. rewrite Ht. unfold set_k_timers, set_k_timer_list, set_k_random_nr. simpl.
  rewrite !insert_insert_eq. f_equal. apply timer_row_insert_ext.
  intros j [Hne _]%list_elem_of_filter. unfold timeout_tick_of. simpl.
  by rewrite !lookup_insert_ne by done.
Qed.

Lemma run_arm_thread_timer s t tm time :
  k_timers s !! TThread t = Some tm -> 0 < time < RT_TICK_MAX / 2 ->
  arm_thread_timer t time s = Ok tt (armed t time s).
Proof.
  intros Ht Hlt. assert (RT_TICK_MAX / 2 = 2147483647) as E by reflexivity.
  unfold arm_thread_timer, armed. rewrite u32_small by lia. rewrite (proj2 (Z.ltb_lt 0 time)) by lia.
  assert (timer_set (TThread t) time s = set_k_timers (<[TThread t := set_tm_init_tick time tm]>) s) as Es
    by (unfold timer_set; by rewrite Ht).
  assert (rt_timer_control (TThread t) (RT_TIMER_CTRL_SET_TIME time) s
          = Ok (RT_EOK, None) (timer_set (TThread t) time s)) as E1
    by (rewrite Es; unfold rt_timer_control; by run_step (run_upd_timer s _ (set_tm_init_tick time) tm Ht)).
  run_step E1. rewrite Es.
  rewrite (bind_Ok _ _ _ _ _ (run_timer_start _ (TThread t) (set_tm_init_tick time tm)
    (lookup_insert_eq _ _ _) ltac:(simpl; lia))). done.
Qed.

Lemma kinv_timer_set s i time : kinv s -> kinv (timer_set i time s).
Proof.
  intros I. unfold timer_set. destruct (k_timers s !! i) as [tm|] eqn:Ht; [|done].
  split; try apply I; simpl; intros *.
  - intros Hx. destruct (inv_timer _ I _ _ Hx) as (tmx & Hj & Hf).
    destruct (decide (i = TThread t)) as [->|Hne].
    + rewrite lookup_insert_eq. simplify_eq. eauto.
    + rewrite lookup_insert_ne by done. eauto.
  - intros [[-> <-]|[_ Hx]]%lookup_insert_Some; [exact (inv_timer_obj _ I _ _ Ht)|exact (inv_timer_obj _ I _ _ Hx)].
  - intros Hin. destruct (inv_tm_list _ I _ Hin) as (tmx & Hj & Hf).
    destruct (decide (i = i0)) as [->|Hne].
    + rewrite lookup_insert_eq. simplify_eq. eauto.
    + rewrite lookup_insert_ne by done. eauto.
Qed.

Lemma kinv_timer_started s i :
  kinv s -> (forall t, i = TThread t -> exists th, k_threads s !! t = Some th /\ state_of th = RT_THREAD_SUSPEND) ->
  kinv (timer_started i s).
Proof.
  intros I Hi. unfold timer_started. destruct (k_timers s !! i) as [tm|] eqn:Ht; [|done].
  split; try apply I; simpl; intros *.
  - intros Hx. destruct (inv_timer _ I _ _ Hx) as (tmx & Hj & Hf).
    destruct (decide (i = TThread t)) as [->|Hne].
    + rewrite lookup_insert_eq. simplify_eq. eexists. by split.
    + rewrite lookup_insert_ne by done. eauto.
  - intros [[-> <-]|[_ Hx]]%lookup_insert_Some; [exact (inv_timer_obj _ I _ _ Ht)|exact (inv_timer_obj _ I _ _ Hx)].
  - rewrite timer_row_insert_perm. apply NoDup_cons. split; [|apply NoDup_filter, I].
    by intros [? _]%list_elem_of_filter.
  - rewrite timer_row_insert_perm. destruct (decide (i = i0)) as [->|Hne].
    + intros _. rewrite lookup_insert_eq. eexists. split; [done|]. apply is_activated_set.
    + rewrite elem_of_cons, list_elem_of_filter, lookup_insert_ne by done.
      intros [->|[_ Hin]]; [done|]. by apply (inv_tm_list _ I).
  - rewrite timer_row_insert_perm, elem_of_cons, list_elem_of_filter.
    intros [E|[_ Hin]]; [by apply Hi|]. by apply (inv_tm_thread _ I).
Qed.

(** The lists, threads and other globals are not touched by the timers. *)
Lemma armed_tl t time s h : tl (armed t time s) h = tl s h.
Proof.
  unfold armed, timer_started, timer_set. destruct (0 <? time); [|done].
  destruct (k_timers s !! TThread t) eqn:E; simpl; [|by rewrite E]. by rewrite lookup_insert_eq.
Qed.
Lemma armed_threads t time s : k_threads (armed t time s) = k_threads s.
Proof.
  unfold armed, timer_started, timer_set. destruct (0 <? time); [|done].
  destruct (k_timers s !! TThread t) eqn:E; simpl; [|by rewrite E]. by rewrite lookup_insert_eq.
Qed.

Lemma kinv_armed s t th time :
  kinv s -> k_threads s !! t = Some th -> state_of th = RT_THREAD_SUSPEND -> kinv (armed t time s).
Proof.
  intros I Ht Hst. unfold armed. destruct (0 <? time); [|done].
  apply kinv_timer_started; [by apply kinv_timer_set|]. intros u [= <-]. exists th.
  split; [|done]. unfold timer_set. by destruct (k_timers s !! _).
Qed.

(** The timer of the waiting thread runs exactly when the wait is timed. *)
Lemma armed_timer_list s t tm time :
  kinv s -> k_timers s !! TThread t = Some tm -> TThread t ∉ k_timer_list s ->
  (TThread t ∈ k_timer_list (armed t time s) <-> 0 < time).
Proof.
  intros I Ht Hn. unfold armed. destruct (Z.ltb_spec 0 time); [|split; [done|lia]].
  split; [done|]. intros _. unfold timer_started, timer_set. rewrite Ht. simpl.
  rewrite lookup_insert_eq. simpl. rewrite timer_row_insert_perm. left.
Qed.

(** ** Joining a waiting list *)

Definition queue_insert (flag : Z) (prio : nat -> Z) (t : nat) (l : list nat) : list nat :=
  if flag =? RT_IPC_FLAG_FIFO then l ++ [t] else prio_insert prio (prio t) t l.

Lemma queue_insert_perm flag prio t l : queue_insert flag prio t l ≡ₚ t :: l.
Proof.
  unfold queue_insert. destruct (_ =? _); [symmetry; apply Permutation_cons_append|apply prio_insert_perm].
Qed.

Definition ipc_flag (flag : Z) : Prop := flag = RT_IPC_FLAG_FIFO \/ flag = RT_IPC_FLAG_PRIO.

(** [rt_ipc_list_suspend] *)
Definition blocked (h : tlist_head) (t : nat) (th : rt_thread) (flag : Z) (s : kstate) : kstate :=
  set_k_tlists (<[h := queue_insert flag (prio_of s) t (tl s h)]>) (suspended t th s).

Section blocked.
Context (s : kstate) (h : tlist_head) (t : nat) (th : rt_thread) (flag : Z).
Context (I : kinv s) (Ht : k_threads s !! t = Some th) (Hst : state_of th = RT_THREAD_READY).
Context (Hh : waiting_head h).

Let th' := set_th_stat (with_state RT_THREAD_SUSPEND (th_stat th)) th.

Lemma suspended_lookup : k_threads (suspended t th s) = <[t := th']> (k_threads s).
Proof. unfold suspended. rewrite timer_stopped_threads. unfold dequeued. by rewrite clear_group_threads. Qed.

Lemma suspended_tl h' : tl (suspended t th s) h' = filter (fun u => u ≠ t) (tl s h').
Proof. unfold suspended. rewrite tl_timer_stopped. unfold dequeued. by rewrite tl_clear_group, tl_unlink. Qed.

Lemma ready_not_waiting h' : waiting_head h' -> t ∉ tl s h'.
Proof. intros Hw Hin. pose proof (kinv_only_ready _ _ _ _ I Ht Hst Hin) as ->. done. Qed.

Lemma suspended_tl_waiting h' : waiting_head h' -> tl (suspended t th s) h' = tl s h'.
Proof. intros Hw. by rewrite suspended_tl, filter_ne_notin by by apply ready_not_waiting. Qed.

Lemma suspended_not_linked : ¬ linked (suspended t th s) t.
Proof. intros [h' Hin]. rewrite suspended_tl in Hin. by apply list_elem_of_filter in Hin as [? _]. Qed.

Lemma prio_of_suspended u : prio_of (suspended t th s) u = prio_of s u.
Proof.
  unfold prio_of. rewrite suspended_lookup. destruct (decide (t = u)) as [->|].
  - by rewrite lookup_insert_eq, Ht.
  - by rewrite lookup_insert_ne.
Qed.

Lemma prio_insert_ext f g p u l : (forall v, f v = g v) -> prio_insert f p u l = prio_insert g p u l.
Proof. intros E. induction l as [|x l IH]; simpl; [done|]. by rewrite E, IH. Qed.

Lemma run_ipc_list_suspend :
  ipc_flag flag -> rt_ipc_list_suspend h t flag s = Ok RT_EOK (blocked h t th flag s).
Proof.
  intros Hf. unfold rt_ipc_list_suspend. run_step (run_thread_suspend _ _ _ I Ht Hst).
  enough (wp (if flag =? RT_IPC_FLAG_FIFO then tlist_append h t
     else if flag =? RT_IPC_FLAG_PRIO then
       require_unlinked t;; th ← get_thread t; s ← get;
       modify (set_k_tlists (<[h := prio_insert (prio_of s) (th_current_priority th) t (tl s h)]>))
     else mret tt) (fun a s' => a = tt /\ s' = blocked h t th flag s) (suspended t th s)) as
    (a & s' & E & -> & ->)%wp_run by by run_step E.
  unfold blocked, queue_insert. destruct Hf as [-> | ->]; simpl.
  - unfold tlist_append. wp_steps. apply wp_require_unlinked; [apply suspended_not_linked|].
    wp_steps. by rewrite suspended_tl_waiting.
  - wp_steps. apply wp_require_unlinked; [apply suspended_not_linked|]. wp_steps.
    eapply wp_deref; [rewrite suspended_lookup; apply lookup_insert_eq|]. wp_steps.
    split; [done|]. do 2 f_equal. rewrite suspended_tl_waiting by done. simpl.
    rewrite (prio_insert_ext _ _ _ _ _ prio_of_suspended). f_equal. unfold prio_of. by rewrite Ht.
Qed.

Lemma kinv_blocked : kinv (blocked h t th flag s).
Proof.
  apply (kinv_wait _ t th'); [by apply kinv_suspended|by rewrite suspended_lookup, lookup_insert_eq
    |apply state_suspend|apply suspended_not_linked|done|].
  rewrite suspended_tl_waiting by done. apply queue_insert_perm.
Qed.

Lemma tl_blocked h' :
  tl (blocked h t th flag s) h' =
  if decide (h = h') then queue_insert flag (prio_of s) t (tl s h) else filter (fun u => u ≠ t) (tl s h').
Proof. unfold blocked. rewrite tl_set_insert. case_decide; [done|]. apply suspended_tl. Qed.

Lemma blocked_threads : k_threads (blocked h t th flag s) = <[t := th']> (k_threads s).
Proof. apply suspended_lookup. Qed.

Lemma blocked_timer : exists tm, k_timers (blocked h t th flag s) !! TThread t = Some tm.
Proof. destruct (inv_timer _ kinv_blocked t th') as (tm & ? & _); [|eauto]. rewrite blocked_threads. apply lookup_insert_eq. Qed.

Lemma blocked_no_timer : TThread t ∉ k_timer_list (blocked h t th flag s).
Proof.
  destruct (inv_timer _ I _ _ Ht) as (tm & Htm & _).
  unfold blocked, suspended. simpl. erewrite timer_stopped_list.
  - by intros [? _]%list_elem_of_filter.
  - apply kinv_dequeued; [done|done|by left|by rewrite state_suspend| |left; apply state_suspend].
    intros _. destruct (inv_prio _ I _ _ Ht) as [? ?]; [by left|]. split; [done|]. split; [done|].
    apply (inv_stack _ I _ _ Ht). by left.
  - unfold dequeued. rewrite clear_group_timers. exact Htm.
Qed.

(** *** The blocking step as a whole *)

Definition waiting_state (time : Z) : kstate := armed t time (blocked h t th flag s).

Lemma kinv_waiting_state time : kinv (waiting_state time).
Proof.
  apply (kinv_armed _ _ th'); [apply kinv_blocked|rewrite blocked_threads; apply lookup_insert_eq|apply state_suspend].
Qed.

Lemma tl_waiting_state time h' : tl (waiting_state time) h' = tl (blocked h t th flag s) h'.
Proof. apply armed_tl. Qed.
Lemma waiting_state_threads time : k_threads (waiting_state time) = <[t := th']> (k_threads s).
Proof. unfold waiting_state. rewrite armed_threads. apply blocked_threads. Qed.

Lemma waiting_state_ready time u uh : u ≠ t -> ready s u uh -> ready (waiting_state time) u uh.
Proof. intros Hne [Hu Hs]. split; [|done]. by rewrite waiting_state_threads, lookup_insert_ne. Qed.

Lemma run_wait_on time u uh :
  ipc_flag flag -> time < RT_TICK_MAX / 2 -> u ≠ t -> ready s u uh ->
  wait_on h t flag time s = Ok tt (scheduled (waiting_state time)).
Proof.
  intros Hf Htime Hne Hu. unfold wait_on. run_step (run_ipc_list_suspend Hf).
  assert (when (0 <? time) (arm_thread_timer t time) (blocked h t th flag s) = Ok tt (waiting_state time)) as E.
  { unfold when, waiting_state. destruct (Z.ltb_spec 0 time).
    - destruct blocked_timer as [tm Htm]. apply (run_arm_thread_timer _ _ tm); [done|lia].
    - unfold armed. by rewrite (proj2 (Z.ltb_ge 0 time)) by lia. }
  run_step E. eapply run_schedule; [apply kinv_waiting_state|]. by eapply waiting_state_ready.
Qed.
End blocked.

(** ** Scheduling changes the current thread only *)

Lemma tl_scheduled s h : tl (scheduled s) h = tl s h.
Proof. unfold scheduled. destruct (_ =? 0); [|done]. destruct (top_ready _); [|done]. by case_decide. Qed.
Lemma scheduled_threads s : k_threads (scheduled s) = k_threads s.
Proof. unfold scheduled. destruct (_ =? 0); [|done]. destruct (top_ready _); [|done]. by case_decide. Qed.
Lemma scheduled_timer_list s : k_timer_list (scheduled s) = k_timer_list s.
Proof. unfold scheduled. destruct (_ =? 0); [|done]. destruct (top_ready _); [|done]. by case_decide. Qed.
Create Rewrite HintDb sched.
#[export] Hint Rewrite tl_scheduled scheduled_threads scheduled_timer_list : sched.

Lemma run_exit_critical s u uh :
  kinv s -> k_lock_nest s = 1 -> ready s u uh ->
  rt_exit_critical s = Ok tt (scheduled (set_k_lock_nest (fun _ => 0) s)).
Proof.
  intros I Hk Hr. unfold rt_exit_critical. erewrite bind_Ok by reflexivity. erewrite bind_Ok by reflexivity.
  cbn [k_lock_nest set_k_lock_nest]. rewrite Hk. change (s16 (1 - 1) <=? 0) with true. cbv iota.
  erewrite bind_Ok by reflexivity. apply (run_schedule _ u uh); [by apply (kinv_same s)|done].
Qed.

(** Leaving a critical section of any depth changes the scheduling only. *)
Lemma run_exit_critical_frame s u uh :
  kinv s -> ready s u uh ->
  exists s', rt_exit_critical s = Ok tt s' /\ kinv s' /\ (forall h, tl s' h = tl s h) /\ k_threads s' = k_threads s.
Proof.
  intros I Hr. unfold rt_exit_critical. erewrite bind_Ok by reflexivity. erewrite bind_Ok by reflexivity.
  destruct (_ <=? 0).
  - erewrite bind_Ok by reflexivity. set (s1 := set_k_lock_nest (fun _ => 0) _).
    assert (kinv s1) by by apply (kinv_same s). exists (scheduled s1).
    split; [by apply (run_schedule _ u uh)|]. split; [by apply kinv_scheduled|].
    split; [intros h; by rewrite tl_scheduled|by rewrite scheduled_threads].
  - eexists. split; [reflexivity|]. split; [by apply (kinv_same s)|done].
Qed.

(** The current thread after a blocking call is not the one that waits. *)
Lemma scheduled_current s u uh :
  kinv s -> ready s u uh -> k_lock_nest s = 0 ->
  exists v vh, k_current (scheduled s) = Some v /\ ready s v vh /\
    (forall w wh, ready s w wh -> th_current_priority vh <= th_current_priority wh).
Proof.
  intros I Hu Hl. destruct (top_ready_best _ _ _ I Hu) as (v & vh & Htop & Hv & _ & Hb).
  exists v, vh. split; [|done]. unfold scheduled. rewrite Hl, Htop. simpl. by case_decide.
Qed.

(** ** Resuming *)

Lemma waiting_first s h t l :
  kinv s -> waiting_head h -> tl s h = t :: l ->
  exists th, k_threads s !! t = Some th /\ state_of th = RT_THREAD_SUSPEND.
Proof. intros I Hh E. apply (inv_waiting _ I h); [done|]. rewrite E. left. Qed.

Lemma resumed_tl t th s h :
  tl (resumed t th s) h =
  if decide (HReady (th_current_priority th) = h)
  then filter (fun u => u ≠ t) (tl s h) ++ [t] else filter (fun u => u ≠ t) (tl s h).
Proof. unfold resumed. by rewrite tl_made_ready, tl_timer_stopped, tl_unlink. Qed.

Lemma resumed_lookup t th s :
  k_threads (resumed t th s) = <[t := set_th_stat (with_state RT_THREAD_READY (th_stat th)) th]> (k_threads s).
Proof. unfold resumed, made_ready, enqueue_ready, restat. simpl. by rewrite timer_stopped_threads. Qed.

(** Resuming the first thread of a waiting list shortens that list by it. *)
Lemma resumed_tl_waiting s t th h l :
  kinv s -> waiting_head h -> tl s h = t :: l -> tl (resumed t th s) h = l.
Proof.
  intros I Hh E. rewrite resumed_tl, decide_False by (by intros <-).
  pose proof (inv_nodup _ I h) as Hnd. rewrite E in *. apply NoDup_cons in Hnd as [Hn _].
  rewrite filter_cons_False by naive_solver. by apply filter_ne_notin.
Qed.

Lemma resumed_ready s t th :
  ready (resumed t th s) t (set_th_stat (with_state RT_THREAD_READY (th_stat th)) th).
Proof. split; [by rewrite resumed_lookup, lookup_insert_eq|apply state_ready]. Qed.

Lemma run_ipc_list_resume s h t th l :
  kinv s -> tl s h = t :: l -> k_threads s !! t = Some th -> state_of th = RT_THREAD_SUSPEND ->
  rt_ipc_list_resume h s = Ok RT_EOK (resumed t th s).
Proof.
  intros I E Ht Hst. unfold rt_ipc_list_resume, deref, mbind, M_bind. rewrite E. simpl.
  by rewrite (run_thread_resume _ _ _ I Ht Hst).
Qed.

(** The loop of [rt_ipc_list_resume_all]: one waiting thread. *)
Definition failed (t : nat) (th : rt_thread) (s : kstate) : kstate :=
  let th' := set_th_error (- RT_ERROR) th in
  resumed t th' (set_k_threads (<[t := th']>) s).

Lemma kinv_set_error s t th e :
  kinv s -> k_threads s !! t = Some th -> kinv (set_k_threads (<[t := set_th_error e th]>) s).
Proof. intros I Ht. by apply (kinv_thread_frame _ _ th). Qed.

Lemma kinv_failed s t th :
  kinv s -> k_threads s !! t = Some th -> state_of th = RT_THREAD_SUSPEND -> kinv (failed t th s).
Proof.
  intros I Ht Hst. apply kinv_resumed; [by apply kinv_set_error|apply lookup_insert_eq|done].
Qed.

(** The threads of [l] have become ready and failed with [-RT_ERROR]; no other
    thread and no other waiting list changed. *)
Record all_failed (h : tlist_head) (l : list nat) (s s' : kstate) : Prop := {
  af_inv : kinv s';
  af_empty : tl s' h = [];
  af_woken : forall t th, t ∈ l -> k_threads s !! t = Some th ->
    ready s' t (set_th_stat (with_state RT_THREAD_READY (th_stat th)) (set_th_error (- RT_ERROR) th));
  af_others : forall t, t ∉ l -> k_threads s' !! t = k_threads s !! t;
  af_lists : forall h', waiting_head h' -> h' ≠ h -> tl s' h' = tl s h'
}.

Lemma run_resume_all_loop l : forall s h,
  kinv s -> waiting_head h -> tl s h = l ->
  exists s', resume_all_loop (length l) h s = Ok RT_EOK s' /\ all_failed h l s s'.
Proof.
  induction l as [|t l IH]; intros s h I Hh E.
  - exists s. simpl. unfold mbind, M_bind, get. rewrite E. split; [done|]. split; try done.
    intros t th Hin. set_solver.
  - destruct (waiting_first _ _ _ _ I Hh E) as (th & Ht & Hst).
    pose proof (inv_nodup _ I h) as Hnd. rewrite E in Hnd. apply NoDup_cons in Hnd as [Hnt Hnd].
    set (s1 := set_k_threads (<[t := set_th_error (- RT_ERROR) th]>) s).
    assert (kinv s1) as I1 by by apply kinv_set_error.
    assert (tl (failed t th s) h = l) as El by (by apply (resumed_tl_waiting s1)).
    destruct (IH (failed t th s) h) as (s' & Hr & [Hi He Hw Ho Hl]); [by apply kinv_failed|done|done|].
    assert (k_threads (failed t th s) = <[t := set_th_stat (with_state RT_THREAD_READY (th_stat th))
        (set_th_error (- RT_ERROR) th)]> (k_threads s)) as Eth.
    { unfold failed. rewrite resumed_lookup. simpl. by rewrite insert_insert_eq. }
    exists s'. split.
    + simpl. unfold get at 1. erewrite bind_Ok by reflexivity. rewrite E.
      run_step (run_upd_thread s t (set_th_error (- RT_ERROR)) _ Ht). fold s1.
      rewrite (bind_Ok _ _ _ _ _ (run_thread_resume s1 t (set_th_error (- RT_ERROR) th) I1
        (lookup_insert_eq _ _ _) Hst)). exact Hr.
    + split; [done|done| | |].
      * intros u uh [->|Hin]%elem_of_cons Hu.
        -- simplify_eq. split; [|apply (state_ready (set_th_error _ th))].
           rewrite Ho by done. by rewrite Eth, lookup_insert_eq.
        -- apply Hw; [done|]. rewrite Eth, lookup_insert_ne; [done|]. by intros ->.
      * intros u [Hne Hin]%not_elem_of_cons. rewrite Ho, Eth, lookup_insert_ne; done.
      * intros h' Hh' Hne. rewrite Hl by done. unfold failed. rewrite resumed_tl, decide_False by (by intros <-).
        change (tl (set_k_threads ?f s) h') with (tl s h'). apply filter_ne_notin. intros Hin.
        apply Hne. apply (inv_uniq _ I _ _ t); [done|]. rewrite E. left.
Qed.

Lemma run_ipc_list_resume_all s h :
  kinv s -> waiting_head h ->
  exists s', rt_ipc_list_resume_all h s = Ok RT_EOK s' /\ all_failed h (tl s h) s s'.
Proof. intros I Hh. exact (run_resume_all_loop _ s h I Hh eq_refl). Qed.

(** ** The context and the effect of a blocking call *)

(** The calling thread is the current one and ready, the call is made in
    thread context, and some other thread (the idle thread) is ready. *)
Record blocking_ctx (s : kstate) (t : nat) (th : rt_thread) : Prop := {
  bc_inv : kinv s;
  bc_current : k_current s = Some t;
  bc_ready : ready s t th;
  bc_thread : k_int_nest s = 0;
  bc_idle : exists u uh, u ≠ t /\ ready s u uh
}.

Lemma run_in_thread_context s t th : blocking_ctx s t th -> RT_DEBUG_IN_THREAD_CONTEXT s = Ok tt s.
Proof.
  intros [_ Hc _ Hn _]. unfold RT_DEBUG_IN_THREAD_CONTEXT, RT_DEBUG_NOT_IN_INTERRUPT, mbind, M_bind, gets.
  rewrite Hc. simpl. by rewrite Hn.
Qed.

Lemma run_thread_self s t : k_current s = Some t -> rt_thread_self s = Ok t s.
Proof. intros H. unfold rt_thread_self, deref. by rewrite H. Qed.

(** A call has put the caller to sleep on the list [h]: the thread is
    suspended with its error code cleared, in its place of the waiting list,
    its timer runs if the wait is timed, and with the scheduler unlocked a
    thread of the best ready priority runs. *)
Record entered_wait (h : tlist_head) (t : nat) (th : rt_thread) (flag time : Z) (s s' : kstate) : Prop := {
  ew_inv : kinv s';
  ew_list : tl s' h = queue_insert flag (prio_of s) t (tl s h);
  ew_lists : forall h', waiting_head h' -> h' ≠ h -> tl s' h' = tl s h';
  ew_thread : k_threads s' !! t =
    Some (set_th_stat (with_state RT_THREAD_SUSPEND (th_stat th)) (set_th_error RT_EOK th));
  ew_others : forall u, u ≠ t -> k_threads s' !! u = k_threads s !! u;
  ew_timer : TThread t ∈ k_timer_list s' <-> 0 < time;
  ew_switch : k_lock_nest s = 0 -> exists v vh,
    k_current s' = Some v /\ v ≠ t /\ ready s v vh /\
    (forall w wh, w ≠ t -> ready s w wh -> th_current_priority vh <= th_current_priority wh)
}.

Lemma waiting_state_lock s h t th flag time :
  k_lock_nest (waiting_state s h t th flag time) = k_lock_nest s.
Proof.
  unfold waiting_state, armed, timer_started, timer_set.
  assert (k_lock_nest (blocked h t th flag s) = k_lock_nest s) as E.
  { unfold blocked, suspended. simpl. rewrite timer_stopped_lock. unfold dequeued, clear_group. by case_decide. }
  destruct (0 <? time); [|done]. generalize dependent (blocked h t th flag s). intros s' <-.
  destruct (k_timers s' !! TThread t) eqn:E2; simpl; [|by rewrite E2].
  by rewrite lookup_insert_eq.
Qed.

Lemma queue_insert_ext flag f g t l : (forall u, f u = g u) -> queue_insert flag f t l = queue_insert flag g t l.
Proof. intros E. unfold queue_insert. destruct (_ =? _); [done|]. rewrite E. by apply prio_insert_ext. Qed.

Lemma prio_of_set_error s t th e u :
  k_threads s !! t = Some th -> prio_of (set_k_threads (<[t := set_th_error e th]>) s) u = prio_of s u.
Proof.
  intros Ht. unfold prio_of. simpl. destruct (decide (t = u)) as [->|].
  - by rewrite lookup_insert_eq, Ht.
  - by rewrite lookup_insert_ne.
Qed.

Lemma run_enter_wait s h t th flag time :
  blocking_ctx s t th -> waiting_head h -> ipc_flag flag -> time < RT_TICK_MAX / 2 ->
  exists s', (upd_thread t (set_th_error RT_EOK);; wait_on h t flag time) s = Ok tt s' /\
    entered_wait h t th flag time s s'.
Proof.
  intros [I Hc [Ht Hst] _ (u & uh & Hne & [Hu Hus])] Hh Hf Htime.
  set (th0 := set_th_error RT_EOK th). set (s0 := set_k_threads (<[t := th0]>) s).
  assert (kinv s0) as I0 by by apply kinv_set_error.
  assert (k_threads s0 !! t = Some th0) as Ht0 by apply lookup_insert_eq.
  assert (forall v vh, v ≠ t -> ready s v vh <-> ready s0 v vh) as Hr.
  { intros v vh Hv. unfold ready. simpl. by rewrite lookup_insert_ne. }
  assert (ready s0 u uh) as Hu0 by by apply Hr.
  exists (scheduled (waiting_state s0 h t th0 flag time)).
  split; [run_step (run_upd_thread s t (set_th_error RT_EOK) _ Ht); fold th0 s0; by eapply run_wait_on|].
  assert (kinv (waiting_state s0 h t th0 flag time)) as I1 by by apply kinv_waiting_state.
  pose proof (tl_blocked s0 h t th0 flag) as Hb.
  split; autorewrite with sched; rewrite ?tl_waiting_state, ?waiting_state_threads; try done.
  - by apply kinv_scheduled.
  - rewrite Hb, decide_True by done. apply queue_insert_ext. intros. by apply prio_of_set_error.
  - intros h' Hh' Hn. rewrite tl_scheduled, tl_waiting_state, Hb, decide_False by done.
    apply filter_ne_notin. by eapply (ready_not_waiting s).
  - by rewrite lookup_insert_eq.
  - intros v Hv. rewrite lookup_insert_ne by done. simpl. by rewrite lookup_insert_ne.
  - destruct (blocked_timer s0 h t th0 flag I0 Ht0 Hst Hh) as [tm Htm].
    eapply armed_timer_list; [by eapply kinv_blocked|exact Htm|by apply blocked_no_timer].
  - intros Hl. destruct (scheduled_current (waiting_state s0 h t th0 flag time) u uh) as (v & vh & Hv & Hvr & Hb2).
    + done.
    + by apply waiting_state_ready.
    + by rewrite waiting_state_lock.
    + assert (v ≠ t) as Hvt.
      { intros ->. destruct Hvr as [Hx Hxs]. rewrite waiting_state_threads, lookup_insert_eq in Hx.
        injection Hx as <-. pose proof (eq_trans (eq_sym (state_suspend th0)) Hxs). done. }
      exists v, vh. split_and!; [done|done| |].
      * apply Hr; [done|]. destruct Hvr as [Hx ?]. split; [|done].
        by rewrite waiting_state_threads, lookup_insert_ne in Hx.
      * intros w wh Hw Hwr. apply (Hb2 w wh). by apply waiting_state_ready, Hr.
Qed.

Lemma blocking_ctx_frame s t th th' :
  blocking_ctx s t th -> thread_frame th th' -> blocking_ctx (set_k_threads (<[t := th']>) s) t th'.
Proof.
  intros [I Hc [Ht Hst] Hn (u & uh & Hne & [Hu Hus])] F. split; try done.
  - by apply (kinv_thread_frame _ _ th).
  - split; [apply lookup_insert_eq|]. by rewrite (thread_frame_state _ _ F).
  - exists u, uh. split; [done|]. split; [|done]. simpl. by rewrite lookup_insert_ne.
Qed.

Lemma blocking_ctx_set_error s t th e :
  blocking_ctx s t th -> blocking_ctx (set_k_threads (<[t := set_th_error e th]>) s) t (set_th_error e th).
Proof. intros B. by apply (blocking_ctx_frame _ _ th). Qed.

Lemma set_threads_id s t th : k_threads s !! t = Some th -> set_k_threads (<[t := th]>) s = s.
Proof. intros H. destruct s. unfold set_k_threads. simpl in *. by rewrite insert_id. Qed.

(** [wait_on] for a thread whose error code is already clear. *)
Lemma run_wait_entered s h t th flag time :
  blocking_ctx s t th -> th_error th = RT_EOK -> waiting_head h -> ipc_flag flag -> time < RT_TICK_MAX / 2 ->
  exists s', wait_on h t flag time s = Ok tt s' /\ entered_wait h t th flag time s s'.
Proof.
  intros B He Hh Hf Htime. pose proof (proj1 (bc_ready _ _ _ B)) as Ht.
  destruct (run_enter_wait s h t th flag time B Hh Hf Htime) as (s' & Hr & Hw). exists s'. split; [|done].
  revert Hr. run_step (run_upd_thread s t (set_th_error RT_EOK) _ Ht).
  assert (set_th_error RT_EOK th = th) as -> by (destruct th; simpl in *; by subst).
  by rewrite set_threads_id.
Qed.

(** The first waiting thread was made ready, at the end of the ready list of
    its priority; the other waiting lists and threads are as they were. *)
Record woke_first (h : tlist_head) (t : nat) (th : rt_thread) (l : list nat) (s s' : kstate) : Prop := {
  wf_inv : kinv s';
  wf_list : tl s' h = l;
  wf_lists : forall h', waiting_head h' -> h' ≠ h -> tl s' h' = tl s h';
  wf_ready : ready s' t (set_th_stat (with_state RT_THREAD_READY (th_stat th)) th);
  wf_last : last (tl s' (HReady (th_current_priority th))) = Some t;
  wf_others : forall u, u ≠ t -> k_threads s' !! u = k_threads s !! u
}.

Lemma resumed_woke_first s h t th l :
  kinv s -> waiting_head h -> tl s h = t :: l -> k_threads s !! t = Some th ->
  state_of th = RT_THREAD_SUSPEND -> woke_first h t th l s (resumed t th s).
Proof.
  intros I Hh E Ht Hst. split.
  - by apply kinv_resumed.
  - by apply resumed_tl_waiting.
  - intros h' Hh' Hne. rewrite resumed_tl, decide_False by (by intros <-).
    apply filter_ne_notin. intros Hin. apply Hne, (inv_uniq _ I _ _ t); [done|]. rewrite E. left.
  - apply resumed_ready.
  - rewrite resumed_tl, decide_True by done. apply last_snoc.
  - intros u Hne. by rewrite resumed_lookup, lookup_insert_ne.
Qed.

Lemma woke_first_scheduled h t th l s s' : woke_first h t th l s s' -> woke_first h t th l s (scheduled s').
Proof.
  intros [Hi Hl Hls [Hr Hr'] Hla Ho]. split; unfold ready; autorewrite with sched; try done.
  - by apply kinv_scheduled.
  - intros h' ? ?. autorewrite with sched. by apply Hls.
Qed.

Lemma run_ipc_wake s h t th l :
  kinv s -> waiting_head h -> tl s h = t :: l -> k_threads s !! t = Some th ->
  exists s', (rt_ipc_list_resume h;; rt_schedule) s = Ok tt s' /\ woke_first h t th l s s'.
Proof.
  intros I Hh E Ht. destruct (waiting_first _ _ _ _ I Hh E) as (x & Hx & Hst). simplify_eq.
  exists (scheduled (resumed t th s)). split.
  - run_step (run_ipc_list_resume _ _ _ _ _ I E Ht Hst).
    eapply run_schedule; [by apply kinv_resumed|apply resumed_ready].
  - by apply woke_first_scheduled, resumed_woke_first.
Qed.

(** ** The booted kernel of [ThreadSpec] as a context *)

(** Deciding the context on a concrete state; [u] is the other ready thread. *)
Definition blocking_ctxb (s : kstate) (t u : nat) : bool :=
  kinvb s && bool_decide (k_current s = Some t) && has_state s RT_THREAD_READY t &&
  (k_int_nest s =? 0) && bool_decide (u ≠ t) && has_state s RT_THREAD_READY u.

Lemma blocking_ctxb_ctx s t u : blocking_ctxb s t u = true -> blocking_ctx s t (thread_at s t).
Proof.
  intros H. unfold blocking_ctxb in H. to_prop. apply has_state_spec in H3 as (th & Ht & Hst).
  apply has_state_spec in H0 as (uh & Hu & Hus).
  split; [by apply kinvb_kinv|done| |done|by exists u, uh].
  unfold ready, thread_at. rewrite Ht. done.
Qed.

Lemma demo_ctx : blocking_ctx demo 1 (thread_at demo 1).
Proof. apply (blocking_ctxb_ctx _ _ 4). vm_compute. reflexivity. Qed.

(** Which thread waits on a list, and its record, on a concrete state. *)
Definition demo_waits (h : tlist_head) (flag time : Z) : kstate :=
  run (upd_thread 1 (set_th_error RT_EOK);; wait_on h 1 flag time) demo.
