(* ===== verification/TimerSpec.v ===== *)
(** * What the timers guarantee

    The timer list is kept in order of expiry, in wrapping 32-bit tick
    arithmetic; [rt_timer_check] ends and leaves no expired timer behind;
    a timeout wakes the waiting thread with [-RT_ETIMEOUT]. *)

From S2P Require Import Prelude Ffs Kernel Object Timer Scheduler Thread Clock KInv ThreadSpec Ipc.

(** ** Distances between ticks *)

(** The signed number of ticks from [now] to [x]. *)
Definition dist (now x : Z) : Z := s32 (x - now).

Definition max_dist : Z := RT_TICK_MAX / 2 - 1.

Lemma max_dist_val : max_dist = 2 ^ 31 - 2.
Proof. reflexivity. Qed.

Lemma dist_later now d : - 2 ^ 31 <= d < 2 ^ 31 -> dist now (u32 (now + d)) = d.
Proof.
  intros Hd. unfold dist, s32, u32. rewrite Zplus_mod, Zminus_mod_idemp_l.
  rewrite <- Zplus_mod. replace (now + d - now + 2 ^ 31) with (d + 2 ^ 31) by lia.
  rewrite Z.mod_small by lia. lia.
Qed.

(** A tick is determined by its distance. *)
Lemma dist_spec now x : 0 <= x < 2 ^ 32 -> exists k, x = now + dist now x + k * 2 ^ 32.
Proof.
  intros Hx. unfold dist, s32. pose proof (Z.div_mod (x - now + 2 ^ 31) (2 ^ 32) ltac:(lia)) as E.
  exists ((x - now + 2 ^ 31) / 2 ^ 32). lia.
Qed.

Lemma dist_range now x : - 2 ^ 31 <= dist now x < 2 ^ 31.
Proof. unfold dist, s32. pose proof (Z.mod_pos_bound (x - now + 2 ^ 31) (2 ^ 32)). lia. Qed.

Lemma u32_shift a k : u32 (a + k * 2 ^ 32) = u32 a.
Proof. unfold u32. by rewrite Z.mod_add by lia. Qed.

(** The difference of two ticks in the window is that of their distances. *)
Lemma u32_diff now x y :
  0 <= x < 2 ^ 32 -> 0 <= y < 2 ^ 32 -> u32 (x - y) = u32 (dist now x - dist now y).
Proof.
  intros Hx Hy. destruct (dist_spec now x Hx) as [k Ex]. destruct (dist_spec now y Hy) as [l Ey].
  rewrite <- (u32_shift (dist now x - dist now y) (k - l)). f_equal. lia.
Qed.

(** [expired]: the distance is not positive. *)
Lemma expired_dist now tm :
  0 <= tm_timeout_tick tm < 2 ^ 32 -> - 1 <= dist now (tm_timeout_tick tm) ->
  expired now tm = true <-> dist now (tm_timeout_tick tm) <= 0.
Proof.
  intros Hx Hlo. unfold expired. rewrite Z.ltb_lt. change (RT_TICK_MAX / 2) with (2 ^ 31 - 1).
  destruct (dist_spec now _ Hx) as [k Ex]. pose proof (dist_range now (tm_timeout_tick tm)) as Hr.
  set (d := dist now (tm_timeout_tick tm)) in *.
  assert (u32 (now - tm_timeout_tick tm) = u32 (- d)) as ->.
  { rewrite <- (u32_shift (- d) (- k)). f_equal. lia. }
  split; intros H.
  - destruct (Z.le_gt_cases d 0) as [|Hgt]; [done|].
    assert (u32 (- d) = 2 ^ 32 - d) as E.
    { rewrite <- (u32_shift (- d) 1). rewrite u32_small by lia. lia. }
    lia.
  - rewrite u32_small by lia. lia.
Qed.

(** ** The invariant of the timer list *)

Definition timeout_of (s : kstate) (i : timer_id) : Z := timeout_tick_of s i.
Definition tdist (s : kstate) (i : timer_id) : Z := dist (k_tick s) (timeout_of s i).

(** Ordered by distance. *)
Definition ordered (f : timer_id -> Z) (l : list timer_id) : Prop :=
  forall a u v b, l = a ++ u :: v :: b -> f u <= f v.

Record tinv (s : kstate) : Prop := {
  ti_order : ordered (tdist s) (k_timer_list s);
  ti_range : forall i, i ∈ k_timer_list s -> - 1 <= tdist s i <= max_dist;
  ti_tick : forall i tm, k_timers s !! i = Some tm -> 0 <= tm_timeout_tick tm < 2 ^ 32;
  ti_init : forall i tm, k_timers s !! i = Some tm -> 0 <= tm_init_tick tm;
  (** a periodic timer is not a thread's timer and has a period *)
  ti_thread : forall t tm, k_timers s !! TThread t = Some tm -> is_periodic tm = false;
  ti_period : forall i tm, k_timers s !! i = Some tm -> is_periodic tm = true -> 0 < tm_init_tick tm <= max_dist
}.

Lemma ordered_tail f x l : ordered f (x :: l) -> ordered f l.
Proof. intros H a u v b ->. by apply (H (x :: a) u v b). Qed.

Lemma ordered_cons f x l : ordered f l -> (forall v, head l = Some v -> f x <= f v) -> ordered f (x :: l).
Proof. intros Hl Hx [|y a] u v b [= -> E]; [subst; by apply Hx|]. by apply (Hl a u v b). Qed.

Lemma ordered_head f x l : ordered f (x :: l) -> forall y, y ∈ l -> f x <= f y.
Proof.
  revert x. induction l as [|z l IH]; intros x Ho y Hy; [set_solver|].
  pose proof (Ho [] x z l eq_refl). apply elem_of_cons in Hy as [->|Hy]; [done|].
  pose proof (IH z (ordered_tail _ _ _ Ho) y Hy). lia.
Qed.

Lemma ordered_ext f g l : (forall i, i ∈ l -> f i = g i) -> ordered f l -> ordered g l.
Proof. intros E Ho a u v b ->. rewrite <- !E by set_solver. by apply (Ho a u v b). Qed.

Lemma ordered_sublist f l l' : l' `sublist_of` l -> ordered f l -> ordered f l'.
Proof.
  induction 1 as [|x l1 l2 Hs IH|x l1 l2 Hs IH]; intros Ho; [done|..].
  - apply ordered_cons; [by eapply IH, ordered_tail|]. intros v Hv.
    apply (ordered_head _ _ _ Ho). eapply elem_of_sublist; [|done]. destruct l1; [done|]. injection Hv as <-. left.
  - by eapply IH, ordered_tail.
Qed.

(** ** Starting a timer *)

(** The insertion point, for distances in the window. *)
Lemma timer_row_insert_split (tick_of : timer_id -> Z) (now x : Z) (i : timer_id) (l : list timer_id) :
  0 <= x < 2 ^ 32 -> 0 <= dist now x <= max_dist ->
  (forall j, j ∈ l -> 0 <= tick_of j < 2 ^ 32 /\ - 1 <= dist now (tick_of j) <= max_dist) ->
  ordered (fun j => dist now (tick_of j)) l ->
  exists a b, l = a ++ b /\ timer_row_insert tick_of x i l = a ++ i :: b /\
    (forall j, j ∈ a -> dist now (tick_of j) <= dist now x) /\
    (forall j, j ∈ b -> dist now x < dist now (tick_of j)).
Proof.
  intros Hx Hd Hl Ho. rewrite max_dist_val in *. induction l as [|j l IH].
  - exists [], []. split_and!; [done|done|set_solver|set_solver].
  - destruct (Hl j) as [Hj Hdj]; [left|]. destruct IH as (a & b & El & E & Ha & Hb).
    { intros; apply Hl; by right. } { by eapply ordered_tail. }
    simpl. rewrite (u32_diff now) by done. change (RT_TICK_MAX / 2) with (2 ^ 31 - 1).
    set (dj := dist now (tick_of j)) in *. set (dx := dist now x) in *.
    assert (dj <= dx -> exists a b, j :: l = a ++ b /\
      j :: timer_row_insert tick_of x i l = a ++ i :: b /\
      (forall j, j ∈ a -> dist now (tick_of j) <= dx) /\ (forall j, j ∈ b -> dx < dist now (tick_of j))) as Hskip.
    { intros Hle. exists (j :: a), b. rewrite E, El. split_and!; [done|done| |done].
      intros k [->|Hk]%elem_of_cons; [done|by apply Ha]. }
    destruct (Z.lt_trichotomy dj dx) as [Hlt|[Heq|Hgt]].
    + rewrite (proj2 (Z.eqb_neq _ _)) by (rewrite <- (u32_shift (dj - dx) 1), u32_small by lia; lia).
      rewrite (proj2 (Z.ltb_ge _ _)) by (rewrite <- (u32_shift (dj - dx) 1), u32_small by lia; lia).
      apply Hskip. lia.
    + rewrite Heq, Z.sub_diag. change (u32 0 =? 0) with true. cbv iota. apply Hskip. lia.
    + rewrite (proj2 (Z.eqb_neq _ _)) by (rewrite u32_small by lia; lia).
      rewrite (proj2 (Z.ltb_lt _ _)) by (rewrite u32_small by lia; lia).
      exists [], (j :: l). split_and!; [done|done|set_solver|].
      intros k [->|Hk]%elem_of_cons; [done|]. pose proof (ordered_head _ _ _ Ho k Hk). simpl in *. fold dj in H. lia.
Qed.

Lemma ordered_insert f i a b :
  ordered f (a ++ b) -> (forall j, j ∈ a -> f j <= f i) -> (forall j, j ∈ b -> f i <= f j) -> ordered f (a ++ i :: b).
Proof.
  induction a as [|x a IH]; intros Ho Ha Hb; simpl in *.
  - apply ordered_cons; [done|]. intros v Hv. apply Hb. destruct b; [done|]. injection Hv as <-. left.
  - apply ordered_cons.
    + apply IH; [by eapply ordered_tail| |done]. intros; apply Ha; by right.
    + intros v Hv. destruct a as [|y a]; simpl in Hv; injection Hv as <-; [apply Ha; left|].
      by apply (Ho [] x y (a ++ b)).
Qed.

(** The flags and ticks [rt_timer_start] leaves alone. *)
Lemma started_periodic now tm : is_periodic (started_timer now tm) = is_periodic tm.
Proof.
  unfold is_periodic, started_timer, set_activated, clear_activated. simpl.
  unfold RT_TIMER_FLAG_PERIODIC, RT_TIMER_FLAG_ACTIVATED. do 2 f_equal.
  rewrite Z.land_lor_distr_l, <- Z.land_assoc. change (Z.land (Z.lnot 1) 2) with 2. change (Z.land 1 2) with 0.
  by rewrite Z.lor_0_r.
Qed.

Lemma cleared_periodic tm : is_periodic (clear_activated tm) = is_periodic tm.
Proof.
  unfold is_periodic, clear_activated. simpl. unfold RT_TIMER_FLAG_PERIODIC, RT_TIMER_FLAG_ACTIVATED.
  rewrite <- Z.land_assoc. done.
Qed.

(** Starting timer [i] puts it behind the timers that expire no later, in
    front of those that expire later, and keeps the order. *)
Record started (i : timer_id) (tm : rt_timer) (s s' : kstate) : Prop := {
  st_tinv : tinv s';
  st_place : exists a b, filter (fun j => j ≠ i) (k_timer_list s) = a ++ b /\ k_timer_list s' = a ++ i :: b /\
    (forall j, j ∈ a -> tdist s j <= tm_init_tick tm) /\ (forall j, j ∈ b -> tm_init_tick tm < tdist s j);
  st_dist : tdist s' i = tm_init_tick tm;
  st_others : forall j, j ≠ i -> k_timers s' !! j = k_timers s !! j;
  st_timer : exists tm', k_timers s' !! i = Some tm' /\ is_activated tm' = true /\ tm_init_tick tm' = tm_init_tick tm
}.

Lemma timer_started_started s i tm :
  kinv s -> tinv s -> k_timers s !! i = Some tm -> tm_init_tick tm <= max_dist ->
  started i tm s (timer_started i s).
Proof.
  intros I T Ht Hle. destruct T as [Ho Hr Htk Hin Hth Hpe]. rewrite max_dist_val in *.
  pose proof (Hin i tm Ht) as Hpos. set (x := u32 (k_tick s + tm_init_tick tm)).
  assert (dist (k_tick s) x = tm_init_tick tm) as Hx by (apply dist_later; lia).
  assert (0 <= x < 2 ^ 32) as Hxr by apply u32_range.
  set (l := filter (fun j => j ≠ i) (k_timer_list s)).
  assert (l `sublist_of` k_timer_list s) as Hsub by apply sublist_filter.
  assert (forall j, j ∈ l -> 0 <= timeout_tick_of s j < 2 ^ 32 /\ - 1 <= dist (k_tick s) (timeout_tick_of s j) <= max_dist) as Hl.
  { intros j [_ Hj]%list_elem_of_filter. destruct (inv_tm_list _ I _ Hj) as (tmj & Htj & _).
    split; [unfold timeout_tick_of; rewrite Htj; by eapply Htk|by apply Hr]. }
  destruct (timer_row_insert_split (timeout_tick_of s) (k_tick s) x i l) as (a & b & El & Ei & Ha & Hb).
  { done. } { rewrite Hx, max_dist_val. lia. } { done. } { by eapply ordered_sublist. }
  rewrite Hx in Ha, Hb.
  assert (k_timer_list (timer_started i s) = a ++ i :: b) as Elist by (unfold timer_started; rewrite Ht; exact Ei).
  assert (k_tick (timer_started i s) = k_tick s) as Etick by (unfold timer_started; by rewrite Ht).
  assert (k_timers (timer_started i s) = <[i := started_timer (k_tick s) tm]> (k_timers s)) as Etm
    by (unfold timer_started; by rewrite Ht).
  assert (tdist (timer_started i s) i = tm_init_tick tm) as Hdi.
  { unfold tdist, timeout_of, timeout_tick_of. rewrite Etick, Etm, lookup_insert_eq. exact Hx. }
  assert (forall j, j ≠ i -> tdist (timer_started i s) j = tdist s j) as Hdj.
  { intros j Hj. unfold tdist, timeout_of, timeout_tick_of. by rewrite Etick, Etm, lookup_insert_ne. }
  assert (forall j, j ∈ a ++ b -> j ≠ i) as Hni by (intros j Hj; rewrite <- El in Hj; by apply list_elem_of_filter in Hj as [? _]).
  split.
  - split.
    + rewrite Elist. apply ordered_insert.
      * apply (ordered_ext (tdist s)); [intros j Hj; symmetry; by apply Hdj, Hni|].
        rewrite <- El. by eapply ordered_sublist.
      * intros j Hj. rewrite Hdi, Hdj by (apply Hni; set_solver). by apply Ha.
      * intros j Hj. rewrite Hdi, Hdj by (apply Hni; set_solver). pose proof (Hb j Hj). unfold tdist, timeout_of. lia.
    + intros j. rewrite Elist. intros Hj. destruct (decide (j = i)) as [->|Hne]; [rewrite Hdi, max_dist_val; lia|].
      rewrite Hdj by done. apply Hr. assert (j ∈ l) as [_ ?]%list_elem_of_filter by (rewrite El; set_solver). done.
    + rewrite Etm. intros j tmj [[<- <-]|[_ Hj]]%lookup_insert_Some; [exact Hxr|exact (Htk _ _ Hj)].
    + rewrite Etm. intros j tmj [[<- <-]|[_ Hj]]%lookup_insert_Some; [exact Hpos|exact (Hin _ _ Hj)].
    + rewrite Etm. intros t tmj [[-> <-]|[_ Hj]]%lookup_insert_Some; [rewrite started_periodic; exact (Hth _ _ Ht)|exact (Hth _ _ Hj)].
    + rewrite Etm. intros j tmj [[<- <-]|[_ Hj]]%lookup_insert_Some; [rewrite started_periodic; exact (Hpe _ _ Ht)|exact (Hpe _ _ Hj)].
  - by exists a, b.
  - done.
  - intros j Hj. by rewrite Etm, lookup_insert_ne.
  - eexists. rewrite Etm, lookup_insert_eq. split; [done|]. split; [apply is_activated_set|done].
Qed.

(** [rt_timer_start] completes, keeps the kernel and timer invariants,
    and links the timer so that the list stays ordered by expiry (ties in the
    order of starting), also across the wrap-around of the 32-bit tick. *)
Theorem rt_timer_start_correct s i tm :
  kinv s -> tinv s -> k_timers s !! i = Some tm -> tm_init_tick tm < RT_TICK_MAX / 2 ->
  (forall t, i = TThread t -> exists th, k_threads s !! t = Some th /\ state_of th = RT_THREAD_SUSPEND) ->
  wp (rt_timer_start i) (fun r s' =>
    r = - RT_EOK /\ kinv s' /\ k_threads s' = k_threads s /\ started i tm s s') s.
Proof.
  intros I T Ht Hlt Hth. unfold wp. rewrite (run_timer_start _ _ _ Ht Hlt). split; [done|].
  split; [by apply kinv_timer_started|]. split; [unfold timer_started; by rewrite Ht|].
  apply timer_started_started; try done. unfold max_dist. lia.
Qed.

(** ** Timeouts of threads *)

Definition timed_out (t : nat) (th : rt_thread) (s : kstate) : kstate :=
  let th' := set_th_error (- RT_ETIMEOUT) th in
  made_ready t th' (unlink t (set_k_threads (<[t := th']>) s)).

Lemma kinv_timed_out s t th :
  kinv s -> k_threads s !! t = Some th -> state_of th = RT_THREAD_SUSPEND -> TThread t ∉ k_timer_list s ->
  kinv (timed_out t th s).
Proof.
  intros I Ht Hst Hn. set (th' := set_th_error (- RT_ETIMEOUT) th).
  assert (kinv (set_k_threads (<[t := th']>) s)) as I1 by by apply kinv_set_error.
  apply kinv_made_ready; [|apply lookup_insert_eq|done| |done].
  - by apply (kinv_unlink _ _ th'); [|apply lookup_insert_eq|].
  - intros [h Hin]. rewrite tl_unlink in Hin. by apply list_elem_of_filter in Hin as [? _].
Qed.

Lemma timed_out_ready s t th :
  ready (timed_out t th s) t (set_th_stat (with_state RT_THREAD_READY (th_stat th)) (set_th_error (- RT_ETIMEOUT) th)).
Proof. split; [apply lookup_insert_eq|apply (state_ready (set_th_error (- RT_ETIMEOUT) th))]. Qed.

Lemma run_thread_timeout s t th :
  kinv s -> k_threads s !! t = Some th -> state_of th = RT_THREAD_SUSPEND -> TThread t ∉ k_timer_list s ->
  rt_thread_timeout t s = Ok tt (scheduled (timed_out t th s)).
Proof.
  intros I Ht Hst Hn. destruct (inv_prio _ I _ _ Ht) as [Hp _]; [by right|].
  unfold rt_thread_timeout. run_step (run_get_thread _ _ _ Ht). rewrite Hst. erewrite bind_Ok by reflexivity.
  run_step (run_upd_thread s t (set_th_error (- RT_ETIMEOUT)) th Ht).
  unfold tlist_remove. erewrite bind_Ok by reflexivity.
  rewrite (bind_Ok _ _ _ _ _ (run_schedule_insert (unlink t (set_k_threads (<[t := set_th_error (- RT_ETIMEOUT) th]>) s))
    t (set_th_error (- RT_ETIMEOUT) th) (lookup_insert_eq _ _ _) Hp ltac:(intros [h Hin]; rewrite tl_unlink in Hin;
      by apply list_elem_of_filter in Hin as [? _]))).
  eapply run_schedule; [by apply kinv_timed_out|apply timed_out_ready].
Qed.

(** [rt_thread_timeout] takes the waiting thread out of whatever list it
    waits in, sets its error code to [-RT_ETIMEOUT], makes it ready at the end
    of the ready list of its priority, and keeps the kernel invariant. *)
Theorem rt_thread_timeout_correct s t th :
  kinv s -> k_threads s !! t = Some th -> state_of th = RT_THREAD_SUSPEND -> TThread t ∉ k_timer_list s ->
  wp (rt_thread_timeout t) (fun _ s' =>
    kinv s' /\
    (exists th', ready s' t th' /\ th_error th' = - RT_ETIMEOUT /\ th_current_priority th' = th_current_priority th) /\
    last (tl s' (HReady (th_current_priority th))) = Some t /\
    (forall h, waiting_head h -> tl s' h = filter (fun u => u ≠ t) (tl s h)) /\
    (forall u, u ≠ t -> k_threads s' !! u = k_threads s !! u)) s.
Proof.
  intros I Ht Hst Hn. unfold wp. rewrite (run_thread_timeout _ _ _ I Ht Hst Hn).
  destruct (timed_out_ready s t th) as [Hr1 Hr2]. split_and!.
  - by apply kinv_scheduled, kinv_timed_out.
  - eexists. unfold ready. rewrite scheduled_threads. split; [done|]. done.
  - rewrite tl_scheduled. unfold timed_out. rewrite tl_made_ready, decide_True by done. apply last_snoc.
  - intros h Hh. rewrite tl_scheduled. unfold timed_out. rewrite tl_made_ready, decide_False by (by intros <-).
    by rewrite tl_unlink.
  - intros u Hu. rewrite scheduled_threads. unfold timed_out, made_ready. simpl. by rewrite !lookup_insert_ne.
Qed.

(** ** Running the expired timers *)

Lemma kinv_timer_sublist s l : kinv s -> l `sublist_of` k_timer_list s -> kinv (set_k_timer_list (fun _ => l) s).
Proof.
  intros I Hs. split; try apply I; simpl.
  - by eapply sublist_NoDup; [apply I|].
  - intros i Hi. apply (inv_tm_list _ I). by eapply elem_of_sublist.
  - intros t Hi. apply (inv_tm_thread _ I). by eapply elem_of_sublist.
Qed.

Lemma kinv_timer_clear s i tm :
  kinv s -> k_timers s !! i = Some tm -> i ∉ k_timer_list s -> kinv (set_k_timers (<[i := clear_activated tm]>) s).
Proof.
  intros I Ht Hn. split; try apply I; simpl; intros *.
  - intros Hx. destruct (inv_timer _ I _ _ Hx) as (tmx & Hj & Hf). destruct (decide (i = TThread t)) as [->|Hne].
    + rewrite lookup_insert_eq. simplify_eq. by eexists.
    + rewrite lookup_insert_ne by done. eauto.
  - intros [[-> <-]|[_ Hx]]%lookup_insert_Some; [exact (inv_timer_obj _ I _ _ Ht)|exact (inv_timer_obj _ I _ _ Hx)].
  - intros Hi. rewrite lookup_insert_ne by (by intros ->). by apply (inv_tm_list _ I).
Qed.

(** What a timeout function may do: it may stop timers and wake threads, but
    it starts no timer and leaves the tick and the settings of timers alone. *)
Definition same_settings (otm otm' : option rt_timer) : Prop :=
  match otm, otm' with
  | Some tm, Some tm' => tm_timeout_tick tm' = tm_timeout_tick tm /\ tm_init_tick tm' = tm_init_tick tm /\
                         is_periodic tm' = is_periodic tm
  | None, None => True
  | _, _ => False
  end.

Record cb_effect (s s' : kstate) : Prop := {
  ce_inv : kinv s';
  ce_tick : k_tick s' = k_tick s;
  ce_list : k_timer_list s' `sublist_of` k_timer_list s;
  ce_timers : forall i, same_settings (k_timers s !! i) (k_timers s' !! i)
}.

Lemma same_settings_some otm tm' : same_settings otm (Some tm') -> exists tm, otm = Some tm /\
  tm_timeout_tick tm' = tm_timeout_tick tm /\ tm_init_tick tm' = tm_init_tick tm /\ is_periodic tm' = is_periodic tm.
Proof. destruct otm as [tm|]; [|done]. intros (? & ? & ?). by exists tm. Qed.

Lemma same_settings_refl otm : same_settings otm otm.
Proof. by destruct otm. Qed.

Lemma cb_effect_tdist s s' i : cb_effect s s' -> tdist s' i = tdist s i.
Proof.
  intros [_ Ht _ Hs]. unfold tdist, timeout_of, timeout_tick_of. rewrite Ht. specialize (Hs i).
  destruct (k_timers s !! i), (k_timers s' !! i); simpl in Hs; [destruct Hs as [-> _]| | |]; done.
Qed.

Lemma tinv_effect s s' :
  tinv s -> k_tick s' = k_tick s -> k_timer_list s' `sublist_of` k_timer_list s ->
  (forall i, same_settings (k_timers s !! i) (k_timers s' !! i)) -> tinv s'.
Proof.
  intros [Ho Hr Htk Hin Hth Hpe] Et Hl Hs.
  assert (forall i, tdist s' i = tdist s i) as Hd.
  { intros i. unfold tdist, timeout_of, timeout_tick_of. rewrite Et. specialize (Hs i).
    destruct (k_timers s !! i), (k_timers s' !! i); simpl in Hs; [destruct Hs as [-> _]| | |]; done. }
  assert (forall i tm', k_timers s' !! i = Some tm' -> exists tm, k_timers s !! i = Some tm /\
    tm_timeout_tick tm' = tm_timeout_tick tm /\ tm_init_tick tm' = tm_init_tick tm /\ is_periodic tm' = is_periodic tm) as Hq.
  { intros i tm' Hi. apply same_settings_some. rewrite <- Hi. apply Hs. }
  split.
  - apply (ordered_ext (tdist s)); [done|]. by eapply ordered_sublist.
  - intros i Hi. rewrite Hd. apply Hr. by eapply elem_of_sublist.
  - intros i tm' (tm & Hi & -> & _)%Hq. by eapply Htk.
  - intros i tm' (tm & Hi & _ & -> & _)%Hq. by eapply Hin.
  - intros t tm' (tm & Hi & _ & _ & ->)%Hq. by eapply Hth.
  - intros i tm' (tm & Hi & _ & -> & ->)%Hq. by eapply Hpe.
Qed.

(** The number of expired timers in the list. *)
Definition expired_ids (s : kstate) (l : list timer_id) : list timer_id := filter (fun i => tdist s i <= 0) l.

Lemma expired_sublist s l l' : l' `sublist_of` l -> (length (expired_ids s l') <= length (expired_ids s l))%nat.
Proof.
  induction 1 as [|x l1 l2 Hs IH|x l1 l2 Hs IH]; [done|..]; unfold expired_ids in *; rewrite ?filter_cons;
    repeat case_decide; simpl; lia.
Qed.

Lemma expired_ext s s' l : (forall i, i ∈ l -> tdist s' i = tdist s i) -> expired_ids s' l = expired_ids s l.
Proof.
  induction l as [|x l IH]; intros H; [done|]. unfold expired_ids in *. rewrite !filter_cons, H by left.
  rewrite IH by (intros; apply H; by right). done.
Qed.

Section check.
Context (user_cb : nat -> M kstate unit).
Hypothesis cb_ok : forall n s, kinv s -> tinv s -> wp (user_cb n) (fun _ s' => cb_effect s s') s.

Lemma run_timeout_effect s i tm :
  kinv s -> tinv s -> k_timers s !! i = Some tm -> i ∉ k_timer_list s ->
  (forall t, i = TThread t -> exists th, k_threads s !! t = Some th /\ state_of th = RT_THREAD_SUSPEND) ->
  wp (run_timeout user_cb (tm_func tm)) (fun _ s' => cb_effect s s') s.
Proof.
  intros I T Ht Hn Hth. destruct i as [t|n].
  - destruct (Hth t eq_refl) as (th & Hl & Hst). destruct (inv_timer _ I _ _ Hl) as (tm' & Ht' & Hf).
    rewrite Ht in Ht'. injection Ht' as <-. rewrite Hf. simpl. unfold wp.
    rewrite (run_thread_timeout _ _ _ I Hl Hst Hn). split.
    + by apply kinv_scheduled, kinv_timed_out.
    + unfold scheduled. destruct (_ =? 0); [|done]. destruct (top_ready _); [|done]. by case_decide.
    + rewrite scheduled_timer_list. done.
    + intros j. assert (k_timers (scheduled (timed_out t th s)) = k_timers s) as ->; [|apply same_settings_refl].
      unfold scheduled. destruct (_ =? 0); [|done]. destruct (top_ready _); [|done]. by case_decide.
  - destruct (inv_timer_obj _ I _ _ Ht) as [m Hm]. rewrite Hm. by apply cb_ok.
Qed.

(** The state after a timer was taken off the list and its function has run. *)
Record fired (i : timer_id) (l : list timer_id) (s s' : kstate) : Prop := {
  fi_inv : kinv s';
  fi_tinv : tinv s';
  fi_tick : k_tick s' = k_tick s;
  fi_fewer : (length (expired_ids s' (k_timer_list s')) <= length (expired_ids s l))%nat
}.

Lemma timer_removed_head s i l :
  kinv s -> k_timer_list s = i :: l -> filter (fun j => j ≠ i) (k_timer_list s) = l /\ (i ∉ l).
Proof.
  intros I E. pose proof (inv_tm_nodup _ I) as Hnd. rewrite E in *. apply NoDup_cons in Hnd as [Hn _].
  split; [|done]. rewrite filter_cons_False by naive_solver. by apply filter_timer_notin.
Qed.

(** A timer that is not started again. *)
Lemma fired_clear s s1 s2 i l tm :
  kinv s2 -> tinv s2 -> k_tick s2 = k_tick s -> k_timer_list s2 `sublist_of` l -> i ∉ l ->
  k_timers s2 !! i = Some tm -> (forall j, tdist s2 j = tdist s j) ->
  s1 = set_k_timers (<[i := clear_activated tm]>) s2 -> fired i l s s1.
Proof.
  intros I T Et Hl Hn Ht Hd ->.
  assert (i ∉ k_timer_list s2) as Hn2 by (intros Hin; apply Hn; by eapply elem_of_sublist).
  assert (forall j, same_settings (k_timers s2 !! j) (k_timers (set_k_timers (<[i := clear_activated tm]>) s2) !! j)) as Hs.
  { intros j. simpl. destruct (decide (i = j)) as [->|]; [|rewrite lookup_insert_ne by done; apply same_settings_refl].
    rewrite lookup_insert_eq, Ht. simpl. by rewrite cleared_periodic. }
  split; [by apply kinv_timer_clear|by eapply tinv_effect|done|].
  etrans; [|by apply (expired_sublist s _ _ Hl)]. rewrite (expired_ext s); [done|]. intros j Hj. rewrite <- Hd. simpl in Hj.
  unfold tdist, timeout_of, timeout_tick_of. simpl. rewrite lookup_insert_ne; [done|]. by intros ->.
Qed.

(** A periodic timer, started again. *)
Lemma fired_restart s s2 i l tm :
  kinv s2 -> tinv s2 -> k_tick s2 = k_tick s -> k_timer_list s2 `sublist_of` l -> i ∉ l ->
  k_timers s2 !! i = Some tm -> is_periodic tm = true -> (forall j, tdist s2 j = tdist s j) ->
  let s3 := set_k_timers (<[i := clear_activated tm]>) s2 in
  rt_timer_start i s3 = Ok (- RT_EOK) (timer_started i s3) /\ fired i l s (timer_started i s3).
Proof.
  intros I T Et Hl Hn Ht Hper Hd s3.
  assert (i ∉ k_timer_list s2) as Hn2 by (intros Hin; apply Hn; by eapply elem_of_sublist).
  destruct (ti_period _ T _ _ Ht Hper) as [Hpos Hmax]. rewrite max_dist_val in Hmax.
  assert (k_timers s3 !! i = Some (clear_activated tm)) as Ht3 by apply lookup_insert_eq.
  assert (kinv s3) as I3 by by apply kinv_timer_clear.
  assert (forall j, same_settings (k_timers s2 !! j) (k_timers s3 !! j)) as Hs.
  { intros j. simpl. destruct (decide (i = j)) as [->|]; [|rewrite lookup_insert_ne by done; apply same_settings_refl].
    rewrite lookup_insert_eq, Ht. simpl. by rewrite cleared_periodic. }
  assert (tinv s3) as T3 by by eapply tinv_effect.
  assert (forall t, i ≠ TThread t) as Hnt.
  { intros t ->. by rewrite (ti_thread _ T _ _ Ht) in Hper. }
  destruct (timer_started_started s3 i (clear_activated tm) I3 T3 Ht3) as [T4 (a & b & Eab & El & _) Hdi Hot _].
  { simpl. rewrite max_dist_val. lia. }
  split; [apply (run_timer_start _ _ _ Ht3); simpl; change (RT_TICK_MAX / 2) with (2 ^ 31 - 1); lia|].
  split; [apply kinv_timer_started; [done|by intros t ->; destruct (Hnt t)]|done| |].
  - unfold timer_started. by rewrite Ht3.
  - rewrite El. simpl in Eab. rewrite filter_timer_notin in Eab by done.
    etrans; [|apply (expired_sublist s _ _ Hl)]. rewrite Eab.
    unfold expired_ids at 1. rewrite filter_app, filter_cons_False by (rewrite Hdi; simpl; lia).
    rewrite <- filter_app. apply Nat.eq_le_incl. f_equal. apply expired_ext. intros j Hj.
    assert (j ≠ i) as Hji by (intros ->; apply Hn2; by rewrite Eab). rewrite <- Hd.
    unfold tdist, timeout_of, timeout_tick_of. rewrite Hot by done. simpl. rewrite lookup_insert_ne by done.
    unfold timer_started. by rewrite Ht3.
Qed.

(** One round of the loop, for the first timer of the list. *)
Lemma run_timer_fire s i l tm :
  kinv s -> tinv s -> k_timer_list s = i :: l -> k_timers s !! i = Some tm ->
  wp (timer_fire user_cb i tm) (fun _ s' => fired i l s s') s.
Proof.
  intros I T E Ht. destruct (timer_removed_head _ _ _ I E) as [Er Hn].
  unfold timer_fire, _rt_timer_remove. wp_steps. set (s1 := set_k_timer_list _ s).
  assert (s1 = set_k_timer_list (fun _ => l) s) as Es1 by (unfold s1, set_k_timer_list; by rewrite Er).
  assert (l `sublist_of` k_timer_list s) as Hsub by (rewrite E; by apply sublist_cons).
  assert (kinv s1) as I1 by (rewrite Es1; by apply kinv_timer_sublist).
  assert (tinv s1) as T1.
  { apply (tinv_effect s); [done|done|by rewrite Es1|]. intros; rewrite Es1; apply same_settings_refl. }
  eapply wp_mono; [|eapply (run_timeout_effect s1 i tm); [done|done|by rewrite Es1|by rewrite Es1|]].
  2:{ intros t ->. rewrite Es1. apply (inv_tm_thread _ I). rewrite E. left. }
  intros ? s2 Hef. cbv beta in Hef. pose proof Hef as [I2 Et2 Hl2 Hs2]. rewrite Es1 in Hl2, Et2. simpl in Hl2, Et2.
  assert (tinv s2) as T2 by (apply (tinv_effect s1); [done|by rewrite Es1|by rewrite Es1|done]).
  assert (forall j, tdist s2 j = tdist s j) as Hd by (intros j; rewrite (cb_effect_tdist _ _ _ Hef), Es1; done).
  destruct (k_timers s2 !! i) as [tm2|] eqn:Ht2; [|by specialize (Hs2 i); rewrite Es1 in Hs2; simpl in Hs2; rewrite Ht, Ht2 in Hs2].
  wp_steps. eapply wp_deref; [exact Ht2|].
  apply wp_if; intros Hb.
  - to_prop. wp_steps. eapply wp_upd_timer; [exact Ht2|]. wp_steps.
    destruct (fired_restart s s2 i l tm2) as [Hr Hf]; try done. unfold wp. by rewrite Hr.
  - eapply wp_upd_timer; [exact Ht2|]. by eapply fired_clear.
Qed.

(** What every round preserves. *)
Definition kept_by_fire (J : kstate -> Prop) : Prop := forall s i l tm,
  kinv s -> tinv s -> k_timer_list s = i :: l -> k_timers s !! i = Some tm -> J s ->
  wp (timer_fire user_cb i tm) (fun _ s' => J s') s.

Lemma run_check_loop (J : kstate -> Prop) fuel : kept_by_fire J -> forall s,
  kinv s -> tinv s -> J s -> (length (expired_ids s (k_timer_list s)) < fuel)%nat ->
  wp (rt_timer_check_loop user_cb fuel (k_tick s)) (fun b s' =>
    b = true /\ kinv s' /\ tinv s' /\ J s' /\ k_tick s' = k_tick s /\ forall i, i ∈ k_timer_list s' -> 0 < tdist s' i) s.
Proof.
  intros HJ. induction fuel as [|fuel IH]; intros s I T Js Hf; [lia|]. simpl. wp_steps.
  destruct (k_timer_list s) as [|i l] eqn:E.
  { wp_steps. split_and!; [done..|]. rewrite E. set_solver. }
  destruct (inv_tm_list _ I i) as (tm & Ht & _); [rewrite E; left|]. wp_steps. eapply wp_deref; [exact Ht|].
  assert (tdist s i = dist (k_tick s) (tm_timeout_tick tm)) as Hd by (unfold tdist, timeout_of, timeout_tick_of; by rewrite Ht).
  assert (- 1 <= tdist s i) as Hlo by (apply (ti_range _ T); rewrite E; left).
  pose proof (expired_dist (k_tick s) tm (ti_tick _ T _ _ Ht) ltac:(lia)) as Hex. rewrite <- Hd in Hex.
  apply wp_if; intros Hb.
  - wp_steps.
    eapply wp_mono; [|exact (wp_and _ _ _ _ (run_timer_fire s i l tm I T E Ht) (HJ s i l tm I T E Ht Js))].
    intros _ s' [[I' T' Et Hfew] J'].
    unfold rt_tick_get. wp_steps. eapply wp_mono; [|apply IH; [done|done|done|]].
    + intros b s'' (? & ? & ? & ? & Et' & ?). rewrite Et in Et'. by split_and!.
    + apply Hex in Hb.
      assert (expired_ids s (i :: l) = i :: expired_ids s l) as Ex by (unfold expired_ids; by rewrite filter_cons_True).
      rewrite Ex in Hf. change (length (i :: expired_ids s l)) with (S (length (expired_ids s l))) in Hf. lia.
  - wp_steps. split_and!; [done..|]. rewrite E.
    assert (0 < tdist s i) as Hi by (destruct (Z.le_gt_cases (tdist s i) 0) as [Hle|]; [by apply Hex in Hle; congruence|done]).
    intros j [->|Hj]%elem_of_cons; [done|].
    pose proof (ti_order _ T) as Ho. rewrite E in Ho. pose proof (ordered_head _ _ _ Ho j Hj). lia.
Qed.

(** [rt_timer_check] ends (one round per expired timer suffices) and runs
    every expired timer: afterwards the invariants hold and every timer in the
    list is still to come.  Timeout functions of timer objects may stop timers
    and wake threads. *)
Lemma rt_timer_check_total (J : kstate -> Prop) s fuel :
  kept_by_fire J -> kinv s -> tinv s -> J s -> (length (k_timer_list s) < fuel)%nat ->
  wp (rt_timer_check user_cb fuel) (fun b s' =>
    b = true /\ kinv s' /\ tinv s' /\ J s' /\ k_tick s' = k_tick s /\ forall i, i ∈ k_timer_list s' -> 0 < tdist s' i) s.
Proof.
  intros HJ I T Js Hf. unfold rt_timer_check, rt_tick_get. wp_steps. apply run_check_loop; [done|done|done|done|].
  eapply Nat.le_lt_trans; [|exact Hf]. apply length_filter.
Qed.

End check.

(** ** The tick interrupt *)

(** [rt_thread_yield] never faults for an existing current thread, and leaves
    the timers alone. *)
Lemma run_yield_effect s t th :
  kinv s -> k_current s = Some t -> k_threads s !! t = Some th ->
  exists s', rt_thread_yield s = Ok RT_EOK s' /\ kinv s' /\ k_threads s' = k_threads s /\
    k_tick s' = k_tick s /\ k_timers s' = k_timers s /\ k_timer_list s' = k_timer_list s.
Proof.
  intros I Hc Ht. unfold rt_thread_yield. run_step (run_thread_self _ _ Hc). run_step (run_get_thread _ _ _ Ht).
  unfold get at 1. erewrite bind_Ok by reflexivity.
  destruct (Z.eqb_spec (state_of th) RT_THREAD_READY) as [Hst|]; [|by exists s].
  destruct (has_sibling s t); [|by exists s]. simpl.
  set (h := HReady (th_current_priority th)). pose proof (kinv_in_ready _ _ _ I Ht Hst) as Hin. fold h in Hin.
  destruct (inv_prio _ I _ _ Ht) as [Hp _]; [by left|]. pose proof (kinv_requeued _ _ _ I Hin) as I'.
  unfold tlist_remove. erewrite bind_Ok by reflexivity. rewrite (in_table_true _ Hp). erewrite bind_Ok by reflexivity.
  assert (tlist_append h t (unlink t s) = Ok tt (requeued t h s)) as E.
  { enough (wp (tlist_append h t) (fun a s' => a = tt /\ s' = requeued t h s) (unlink t s)) as
      (a & s' & -> & -> & ->)%wp_run by done.
    unfold tlist_append. wp_steps. apply wp_require_unlinked; [|by wp_steps].
    intros [h' Hin']. rewrite tl_unlink in Hin'. by apply list_elem_of_filter in Hin' as [? _]. }
  run_step E. assert (ready (requeued t h s) t th) as Hr by done.
  run_step (run_schedule _ _ _ I' Hr). eexists. split; [reflexivity|]. split; [by apply kinv_scheduled|].
  rewrite scheduled_threads, scheduled_timer_list. split; [done|].
  unfold scheduled. destruct (_ =? 0); [|done]. destruct (top_ready _); [|done]. by case_decide.
Qed.

Lemma dist_next now x : - 2 ^ 31 < dist now x -> dist (u32 (now + 1)) x = dist now x - 1.
Proof.
  unfold dist, s32, u32. intros H.
  assert ((x - (now + 1) mod 2 ^ 32 + 2 ^ 31) mod 2 ^ 32 = (x - now + 2 ^ 31 - 1) mod 2 ^ 32) as ->.
  { replace (x - (now + 1) mod 2 ^ 32 + 2 ^ 31) with (x + 2 ^ 31 - (now + 1) mod 2 ^ 32) by lia.
    rewrite Zminus_mod_idemp_r. f_equal. lia. }
  set (y := x - now + 2 ^ 31) in *. pose proof (Z.mod_pos_bound y (2 ^ 32)).
  rewrite <- (Zminus_mod_idemp_l y 1), Z.mod_small by lia. lia.
Qed.

(** One tick brings every timer one tick closer. *)
Lemma tinv_next_tick s :
  tinv s -> (forall i, i ∈ k_timer_list s -> 0 <= tdist s i) -> tinv (set_k_tick (fun n => u32 (n + 1)) s).
Proof.
  intros [Ho Hr Htk Hin Hth Hpe] Hpos. set (s' := set_k_tick _ s).
  assert (forall i, i ∈ k_timer_list s -> tdist s' i = tdist s i - 1) as Hd.
  { intros i Hi. specialize (Hpos i Hi). unfold tdist in *. apply dist_next. lia. }
  split; try done; change (k_timer_list s') with (k_timer_list s).
  - intros a u v b E. assert (u ∈ k_timer_list s /\ v ∈ k_timer_list s) as [Hu Hv] by (rewrite E; split; set_solver).
    rewrite !Hd by done. pose proof (Ho a u v b E). lia.
  - intros i Hi. rewrite Hd by done. specialize (Hpos i Hi). specialize (Hr i Hi). lia.
Qed.

Lemma tinv_same s s' :
  tinv s -> k_tick s' = k_tick s -> k_timers s' = k_timers s -> k_timer_list s' = k_timer_list s -> tinv s'.
Proof.
  intros T E1 E2 E3. apply (tinv_effect s); [done|done|by rewrite E3|]. intros i. rewrite E2. apply same_settings_refl.
Qed.

Section tick.
Context (user_cb : nat -> M kstate unit).
Hypothesis cb_ok : forall n s, kinv s -> tinv s -> wp (user_cb n) (fun _ s' => cb_effect s s') s.

(** A property of the timers and of the states of the threads. *)
Definition of_timers_and_states (J : kstate -> Prop) : Prop := forall s s',
  k_timers s' = k_timers s -> k_timer_list s' = k_timer_list s ->
  (forall u, state_of <$> k_threads s' !! u = state_of <$> k_threads s !! u) -> J s -> J s'.

(** A tick keeps whatever the timeouts keep. *)
Lemma run_tick_increase (J : kstate -> Prop) s t th fuel :
  kept_by_fire user_cb J -> of_timers_and_states J ->
  kinv s -> tinv s -> J s -> k_current s = Some t -> k_threads s !! t = Some th ->
  (forall i, i ∈ k_timer_list s -> 0 <= tdist s i) -> (length (k_timer_list s) < fuel)%nat ->
  wp (rt_tick_increase user_cb fuel) (fun b s' =>
    b = true /\ kinv s' /\ tinv s' /\ J s' /\ k_tick s' = u32 (k_tick s + 1) /\
    forall i, i ∈ k_timer_list s' -> 0 < tdist s' i) s.
Proof.
  intros HJ HJs I T Js Hc Ht Hpos Hf. unfold rt_tick_increase. wp_steps. set (s1 := set_k_tick _ s).
  assert (kinv s1) as I1 by by apply (kinv_same s). pose proof (tinv_next_tick s T Hpos : tinv s1) as T1.
  eapply wp_deref; [exact Hc|]. wp_steps. eapply wp_upd_thread; [exact Ht|]. wp_steps.
  set (th2 := set_th_remaining_tick _ th). set (s2 := set_k_threads (<[t := th2]>) s1).
  assert (kinv s2) as I2 by by apply (kinv_thread_frame s1 t th).
  assert (k_threads s2 !! t = Some th2) as Ht2 by apply lookup_insert_eq.
  assert (forall x u, state_of <$> (<[t := set_th_remaining_tick x th]> (k_threads s)) !! u = state_of <$> k_threads s !! u) as Hst.
  { intros x u. destruct (decide (t = u)) as [<-|]; [by rewrite lookup_insert_eq, Ht|by rewrite lookup_insert_ne]. }
  eapply wp_deref; [exact Ht2|].
  enough (wp (if th_remaining_tick th2 =? 0 then
      upd_thread t (fun th => set_th_remaining_tick (th_init_tick th) th);; rt_thread_yield;; mret tt else mret tt)
    (fun _ s3 => kinv s3 /\ J s3 /\ k_tick s3 = k_tick s1 /\ k_timers s3 = k_timers s1 /\ k_timer_list s3 = k_timer_list s1) s2) as Hw.
  { wp_steps. eapply wp_mono; [|exact Hw]. intros ? s3 (I3 & J3 & E1 & E2 & E3).
    assert (tinv s3) as T3 by by apply (tinv_same s1).
    eapply wp_mono; [|apply (rt_timer_check_total user_cb cb_ok J); [done|done|done|done|by rewrite E3]].
    intros b s' (? & ? & ? & ? & Et & ?). rewrite E1 in Et. by split_and!. }
  apply wp_if; intros Hb; wp_steps.
  2:{ split; [done|]. split; [|done]. apply (HJs s); [done|done|apply Hst|done]. }
  eapply wp_upd_thread; [exact Ht2|]. wp_steps. set (th3 := set_th_remaining_tick _ th2).
  assert (kinv (set_k_threads (<[t := th3]>) s2)) as I3 by by apply (kinv_thread_frame s2 t th2).
  destruct (run_yield_effect _ t th3 I3 Hc) as (s' & Hr & ? & Eth & ? & Etm & Etl); [apply lookup_insert_eq|].
  unfold wp. rewrite Hr. unfold mret, M_ret. split; [done|]. split; [|done].
  apply (HJs s); [done|done| |done]. intros u. rewrite Eth. simpl. rewrite insert_insert_eq. apply Hst.
Qed.

(** C3: the tick interrupt: the tick advances by one modulo 2^32, the running
    thread's time slice is counted down (and refilled at its end, when the
    thread yields), every timer that is due runs, and both invariants hold
    afterwards with no expired timer left.  The timeout functions of the users keep
    to [cb_effect]: they may use the kernel and stop timers, but they start none and
    leave the settings of the timers alone. *)
Theorem rt_tick_increase_correct s t th fuel :
  kinv s -> tinv s -> k_current s = Some t -> k_threads s !! t = Some th ->
  (forall i, i ∈ k_timer_list s -> 0 <= tdist s i) -> (length (k_timer_list s) < fuel)%nat ->
  wp (rt_tick_increase user_cb fuel) (fun b s' =>
    b = true /\ kinv s' /\ tinv s' /\ k_tick s' = u32 (k_tick s + 1) /\
    forall i, i ∈ k_timer_list s' -> 0 < tdist s' i) s.
Proof.
  intros I T Hc Ht Hpos Hf.
  eapply wp_mono; [|apply (run_tick_increase (fun _ => True) s t th fuel); try done].
  - intros b s' (? & ? & ? & _ & ? & ?). by split_and!.
  - intros s1 i l tm I1 T1 E Hi _. eapply wp_mono; [|by apply (run_timer_fire user_cb cb_ok s1 i l tm)]. done.
Qed.
End tick.

(** ** A periodic timer without a period *)

(** The list holds one periodic timer, due now, whose period is 0 ticks. *)
Record zero_period (n : nat) (s : kstate) : Prop := {
  zp_list : k_timer_list s = [TObject n];
  zp_timer : exists tm, k_timers s !! TObject n = Some tm /\ (exists m, tm_func tm = user_timeout m) /\
    is_periodic tm = true /\ is_activated tm = true /\ tm_init_tick tm = 0 /\ tm_timeout_tick tm = k_tick s;
  zp_tick : 0 <= k_tick s < 2 ^ 32
}.

Definition no_callback : nat -> M kstate unit := fun _ => mret tt.

Lemma zero_period_fires n s tm :
  zero_period n s -> k_timers s !! TObject n = Some tm ->
  wp (timer_fire no_callback (TObject n) tm) (fun _ s' => zero_period n s' /\ k_tick s' = k_tick s) s.
Proof.
  intros [El (tm' & Ht & (m & Hf) & Hp & Ha & Hi & Hto) Hk] Ht'. rewrite Ht in Ht'. injection Ht' as <-.
  unfold timer_fire, _rt_timer_remove. wp_steps. rewrite Hf. unfold run_timeout, no_callback. wp_steps.
  eapply wp_deref; [exact Ht|]. rewrite Hp, Ha. simpl. wp_steps. eapply wp_upd_timer; [exact Ht|]. wp_steps.
  set (s1 := set_k_timers _ _).
  assert (k_timers s1 !! TObject n = Some (clear_activated tm')) as Ht1 by apply lookup_insert_eq.
  unfold wp. rewrite (run_timer_start s1 (TObject n) _ Ht1) by (simpl; rewrite Hi; reflexivity).
  unfold mret, M_ret. split; [|unfold timer_started; by rewrite Ht1].
  assert (k_timer_list s1 = []) as El1.
  { unfold s1. simpl. rewrite El. rewrite filter_cons_False by naive_solver. done. }
  unfold timer_started. rewrite Ht1. split; simpl.
  - unfold s1 in El1. simpl in El1. by rewrite El1.
  - eexists. rewrite lookup_insert_eq. split; [done|]. split; [by exists m|].
    rewrite started_periodic, cleared_periodic. split; [done|]. split; [apply is_activated_set|]. split; [done|].
    simpl. rewrite Hi, Z.add_0_r. by apply u32_small.
  - done.
Qed.

(** A periodic timer created with 0 ticks never lets [rt_timer_check] end:
    the timer is started again with the current tick as its timeout, so it is
    expired again, whatever the number of rounds. *)
Theorem zero_period_hangs n s fuel :
  zero_period n s -> exists s', rt_timer_check no_callback fuel s = Ok false s'.
Proof.
  intros Z. unfold rt_timer_check, rt_tick_get, gets. erewrite bind_Ok by reflexivity. revert s Z.
  induction fuel as [|fuel IH]; intros s Z; [by exists s|]. simpl. unfold get at 1. erewrite bind_Ok by reflexivity.
  pose proof Z as [El (tm & Ht & _ & _ & _ & _ & Hto) _]. rewrite El. run_step (run_get_timer _ _ _ Ht).
  assert (expired (k_tick s) tm = true) as -> by (unfold expired; by rewrite Hto, Z.sub_diag).
  pose proof (zero_period_fires n s tm Z Ht) as Hw. apply wp_run in Hw as (a & s1 & E & Z1 & Et).
  run_step E. unfold rt_tick_get, gets. erewrite bind_Ok by reflexivity. by apply IH.
Qed.

(** ** Witnesses *)

(** The booted kernel with two timer objects, one periodic, near the
    wrap-around of the tick. *)
Definition demo_timers : kstate :=
  run (rt_timer_create (Some 1%nat) [97] (user_timeout 1) 10 RT_TIMER_FLAG_PERIODIC;;
       rt_timer_create (Some 2%nat) [98] (user_timeout 2) 5 0;; rt_timer_start (TObject 1))
    (set_k_tick (fun _ => 0xfffffffe) demo).

(** Deciding the timer invariant. *)
Definition timer_setb (s : kstate) (e : timer_id * rt_timer) : bool :=
  let '(i, tm) := e in
  ((0 <=? tm_timeout_tick tm) && (tm_timeout_tick tm <? 2 ^ 32)) && (0 <=? tm_init_tick tm) &&
  (negb (is_periodic tm) ||
   (match i with TThread _ => false | TObject _ => true end &&
    ((0 <? tm_init_tick tm) && (tm_init_tick tm <=? max_dist)))).
Fixpoint orderedb (f : timer_id -> Z) (l : list timer_id) : bool :=
  match l with
  | u :: (v :: _) as r => (f u <=? f v) && orderedb f r
  | _ => true
  end.
Definition tinvb (s : kstate) : bool :=
  orderedb (tdist s) (k_timer_list s) &&
  forallb (fun i => (- 1 <=? tdist s i) && (tdist s i <=? max_dist)) (k_timer_list s) &&
  forallb (timer_setb s) (map_to_list (k_timers s)).

Lemma orderedb_ordered f l : orderedb f l = true -> ordered f l.
Proof.
  induction l as [|x l IH]; intros H; [by intros [] ???|]. apply ordered_cons.
  - apply IH. destruct l; [done|]. simpl in H. by to_prop.
  - intros v Hv. destruct l; [done|]. injection Hv as <-. simpl in H. by to_prop.
Qed.

Lemma tinvb_tinv s : tinvb s = true -> tinv s.
Proof.
  intros H. unfold tinvb in H. to_prop.
  assert (forall i tm, k_timers s !! i = Some tm -> timer_setb s (i, tm) = true) as Hs.
  { intros i tm Hi. by apply (forallb_elem _ _ _ H0), elem_of_map_to_list. }
  split.
  - by apply orderedb_ordered.
  - intros i Hi. pose proof (forallb_elem _ _ _ H1 Hi) as E. cbv beta in E. to_prop. lia.
  - intros i tm Hi%Hs. unfold timer_setb in Hi. to_prop. lia.
  - intros i tm Hi%Hs. unfold timer_setb in Hi. to_prop. lia.
  - intros t tm Hi%Hs. unfold timer_setb in Hi. to_prop. by destruct (is_periodic tm).
  - intros i tm Hi%Hs Hp. unfold timer_setb in Hi. to_prop. rewrite Hp in *. simpl in *. to_prop. lia.
Qed.

Lemma demo_timers_kinv : kinv demo_timers.
Proof. apply kinvb_kinv. vm_compute. reflexivity. Qed.
Lemma demo_timers_tinv : tinv demo_timers.
Proof. apply tinvb_tinv. vm_compute. reflexivity. Qed.

Lemma rt_timer_start_correct_witness :
  wp (rt_timer_start (TObject 2)) (fun r s' => kinv s' /\ tinv s' /\ tdist s' (TObject 2) = 5) demo_timers.
Proof.
  eapply wp_mono; [|apply (rt_timer_start_correct demo_timers (TObject 2)
    (default (mk_timer 0 (user_timeout 0) 0 0) (k_timers demo_timers !! TObject 2)) demo_timers_kinv demo_timers_tinv)].
  - intros r s' (_ & Hk & _ & Hs). split; [exact Hk|]. split; [apply Hs|].
    rewrite (st_dist _ _ _ _ Hs). vm_compute. reflexivity.
  - vm_compute. reflexivity.
  - vm_compute. reflexivity.
  - intros t E. discriminate E.
Defined.

(** Thread 1 waits with a timeout; its timer was just taken off the list. *)
Definition demo_timeout : kstate := demo_waits (HSuspend RT_Object_Class_Semaphore 1) RT_IPC_FLAG_FIFO (-1).

Lemma rt_thread_timeout_correct_witness :
  wp (rt_thread_timeout 1) (fun _ s' => kinv s' /\ exists th', ready s' 1 th' /\ th_error th' = - RT_ETIMEOUT) demo_timeout.
Proof.
  eapply wp_mono; [|apply (rt_thread_timeout_correct demo_timeout 1 (thread_at demo_timeout 1))].
  - intros _ s' (Hk & (th' & Hr & He & _) & _). split; [exact Hk|]. exists th'. split; [exact Hr|exact He].
  - apply kinvb_kinv. vm_compute. reflexivity.
  - vm_compute. reflexivity.
  - vm_compute. reflexivity.
  - replace (k_timer_list demo_timeout) with (@nil timer_id) by (vm_compute; reflexivity). apply not_elem_of_nil.
Defined.

Lemma no_callback_ok n s : kinv s -> tinv s -> wp (no_callback n) (fun _ s' => cb_effect s s') s.
Proof. intros I T. split; [done|done|done|]. intros i. apply same_settings_refl. Qed.

Lemma rt_tick_increase_correct_witness :
  wp (rt_tick_increase no_callback 3) (fun b s' => b = true /\ kinv s' /\ k_tick s' = 0xffffffff) demo_timers.
Proof.
  eapply wp_mono; [|apply (rt_tick_increase_correct no_callback no_callback_ok demo_timers 1 (thread_at demo_timers 1) 3
    demo_timers_kinv demo_timers_tinv)].
  - intros b s' (Hb & Hk & _ & Ht & _). split; [exact Hb|]. split; [exact Hk|]. rewrite Ht. vm_compute. reflexivity.
  - vm_compute. reflexivity.
  - vm_compute. reflexivity.
  - replace (k_timer_list demo_timers) with [TObject 1] by (vm_compute; reflexivity).
    intros i ->%list_elem_of_singleton. vm_compute. discriminate.
  - replace (k_timer_list demo_timers) with [TObject 1] by (vm_compute; reflexivity). simpl. lia.
Defined.

(** A periodic timer of 0 ticks on the booted kernel. *)
Definition demo_zero : kstate :=
  run (rt_timer_create (Some 1%nat) [97] (user_timeout 1) 0 RT_TIMER_FLAG_PERIODIC;; rt_timer_start (TObject 1)) demo.

Lemma zero_period_hangs_witness : exists s', rt_timer_check no_callback 100 demo_zero = Ok false s'.
Proof.
  apply (zero_period_hangs 1). split.
  - vm_compute. reflexivity.
  - exists (default (mk_timer 0 (user_timeout 0) 0 0) (k_timers demo_zero !! TObject 1)).
    split; [vm_compute; reflexivity|]. split; [exists 1%nat; vm_compute; reflexivity|].
    split; [vm_compute; reflexivity|]. split; [vm_compute; reflexivity|]. split; vm_compute; reflexivity.
  - replace (k_tick demo_zero) with 0 by (vm_compute; reflexivity). lia.
Defined.
