(* ===== verification/Sleep.v ===== *)
(** * A sleeping thread wakes up

    The composition of src/thread.c (rt_thread_sleep, rt_thread_timeout),
    src/timer.c and src/clock.c: a thread that sleeps for [n] ticks is ready
    again when the [n]-th tick interrupt returns, whatever the other threads
    and the timeout functions do in between, as long as they leave its timer
    alone or wake it. *)

From S2P Require Import Prelude Kernel Timer Scheduler Thread Clock KInv ThreadSpec Ipc TimerSpec.

Definition awake (t : nat) (s : kstate) : Prop := exists th, ready s t th.

(** The thread is ready, or its timer is running and goes off at tick [x]. *)
Definition slumber (t : nat) (x : Z) (s : kstate) : Prop :=
  awake t s \/ (TThread t ∈ k_timer_list s /\ timeout_of s (TThread t) = x).

Lemma slumber_states t x : of_timers_and_states (slumber t x).
Proof.
  intros s s' E1 E2 Hst [(th & Hth & Hr)|[Hin Hx]]; [left|right].
  - specialize (Hst t). rewrite Hth in Hst. destruct (k_threads s' !! t) as [th'|] eqn:E'; [|done].
    exists th'. split; [done|]. injection Hst as ->. done.
  - split; [by rewrite E2|]. unfold timeout_of, timeout_tick_of in *. by rewrite E1.
Qed.

Lemma removed_inv s i l :
  kinv s -> tinv s -> k_timer_list s = i :: l ->
  let s1 := set_k_timer_list (fun _ => l) s in
  set_k_timer_list (filter (fun j => j ≠ i)) s = s1 /\ kinv s1 /\ tinv s1 /\ i ∉ l.
Proof.
  intros I T E s1. destruct (timer_removed_head _ _ _ I E) as [Er Hn].
  assert (l `sublist_of` k_timer_list s) as Hsub by (rewrite E; by apply sublist_cons).
  split; [unfold s1, set_k_timer_list; by rewrite Er|]. split; [by apply kinv_timer_sublist|]. split; [|done].
  apply (tinv_effect s); [done|done|done|]. intros. apply same_settings_refl.
Qed.

(** The end of a round, after the timeout function. *)
Lemma slumber_cleared t x s i tm :
  k_timers s !! i = Some tm -> slumber t x s -> slumber t x (set_k_timers (<[i := clear_activated tm]>) s).
Proof.
  intros Ht [Ha|[Hin Hx]]; [by left|right]. split; [done|]. unfold timeout_of, timeout_tick_of in *. simpl.
  destruct (decide (i = TThread t)) as [->|]; [by rewrite lookup_insert_eq, Ht in *|by rewrite lookup_insert_ne].
Qed.

Lemma slumber_started t x s i :
  i ≠ TThread t -> slumber t x s -> slumber t x (timer_started i s).
Proof.
  intros Hi [Ha|[Hin Hx]]; unfold timer_started; (destruct (k_timers s !! i) as [tm|] eqn:E).
  - by left.
  - by left.
  - right. simpl. split.
    + rewrite timer_row_insert_perm. right. apply list_elem_of_filter. by split.
    + unfold timeout_of, timeout_tick_of in *. simpl. by rewrite lookup_insert_ne.
  - by right.
Qed.

Section sleep.
Context (user_cb : nat -> M kstate unit) (t : nat) (x : Z).
Hypothesis cb_ok : forall n s, kinv s -> tinv s -> wp (user_cb n) (fun _ s' => cb_effect s s') s.
Hypothesis cb_keeps : forall n s, kinv s -> tinv s -> slumber t x s -> wp (user_cb n) (fun _ s' => slumber t x s') s.

Lemma slumber_timeout s i l tm :
  kinv s -> tinv s -> k_timer_list s = i :: l -> k_timers s !! i = Some tm -> slumber t x s ->
  wp (run_timeout user_cb (tm_func tm)) (fun _ s' => slumber t x s') (set_k_timer_list (fun _ => l) s).
Proof.
  intros I T E Ht J. destruct (removed_inv s i l I T E) as (_ & I1 & T1 & Hn). set (s1 := set_k_timer_list _ s) in *.
  assert (i ≠ TThread t -> slumber t x s1) as J1.
  { intros Hi. destruct J as [?|[Hin Hx]]; [by left|right]. rewrite E in Hin. apply elem_of_cons in Hin as [Hin|Hin]; [by subst|].
    by split. }
  destruct i as [u|n].
  - destruct (inv_tm_thread _ I u) as (th & Hu & Hst); [rewrite E; left|].
    destruct (inv_timer _ I _ _ Hu) as (tm' & Ht' & Hf). rewrite Ht in Ht'. injection Ht' as <-. rewrite Hf. simpl. unfold wp.
    rewrite (run_thread_timeout s1 u th I1 Hu Hst Hn). destruct (decide (u = t)) as [->|Hne].
    + left. eexists. destruct (timed_out_ready s1 t th) as [H1 H2]. split; [|exact H2]. by rewrite scheduled_threads.
    + destruct J1 as [(w & Hw & Hr)|[Hin Hx]]; [congruence|left|right].
      * exists w. split; [|done]. rewrite scheduled_threads. unfold timed_out, made_ready. simpl. by rewrite !lookup_insert_ne.
      * split; [by rewrite scheduled_timer_list|]. unfold timeout_of, timeout_tick_of in *.
        assert (k_timers (scheduled (timed_out u th s1)) = k_timers s1) as ->; [|done].
        unfold scheduled. destruct (_ =? 0); [|done]. destruct (top_ready _); [|done]. by case_decide.
  - destruct (inv_timer_obj _ I _ _ Ht) as [m Hm]. rewrite Hm. by apply cb_keeps, J1.
Qed.

Lemma slumber_kept_by_fire : kept_by_fire user_cb (slumber t x).
Proof.
  intros s i l tm I T E Ht J. destruct (removed_inv s i l I T E) as (Es1 & I1 & T1 & Hn).
  unfold timer_fire, _rt_timer_remove. wp_steps. rewrite Es1. pose proof (slumber_timeout s i l tm I T E Ht J) as HJ.
  set (s1 := set_k_timer_list (fun _ => l) s) in *.
  assert (wp (run_timeout user_cb (tm_func tm)) (fun _ s' => cb_effect s1 s') s1) as Hef.
  { apply (run_timeout_effect user_cb cb_ok s1 i tm); [done|done|done|done|].
    intros u ->. apply (inv_tm_thread _ I). rewrite E. left. }
  eapply wp_mono; [|exact (wp_and _ _ _ _ Hef HJ)]. intros ? s2 [Hef2 J2]. cbv beta in *. pose proof Hef2 as [I2 Et2 Hl2 Hs2].
  destruct (k_timers s2 !! i) as [tm2|] eqn:Ht2; [|by specialize (Hs2 i); simpl in Hs2; rewrite Ht, Ht2 in Hs2].
  wp_steps. eapply wp_deref; [exact Ht2|].
  assert (tinv s2) as T2 by (by apply (tinv_effect s1)).
  apply wp_if; intros Hb.
  - to_prop. wp_steps. eapply wp_upd_timer; [exact Ht2|]. wp_steps.
    assert (forall u, i ≠ TThread u) as Hnt by (intros u ->; by rewrite (ti_thread _ T2 _ _ Ht2) in *).
    destruct (ti_period _ T2 _ _ Ht2) as [_ Hmax]; [done|]. rewrite max_dist_val in Hmax.
    unfold wp. rewrite (run_timer_start _ i (clear_activated tm2) (lookup_insert_eq _ _ _)).
    + apply slumber_started; [done|]. by apply slumber_cleared.
    + simpl. change (RT_TICK_MAX / 2) with (2 ^ 31 - 1). lia.
  - eapply wp_upd_timer; [exact Ht2|]. by apply slumber_cleared.
Qed.

(** Between two ticks the other threads run: the invariants hold, no timer is
    overdue, a thread is current, and the sleeper is let sleep or woken. *)
Record undisturbed (s s' : kstate) : Prop := {
  ud_inv : kinv s';
  ud_tinv : tinv s';
  ud_tick : k_tick s' = k_tick s;
  ud_due : forall i, i ∈ k_timer_list s' -> 0 <= tdist s' i;
  ud_current : exists c ch, k_current s' = Some c /\ k_threads s' !! c = Some ch;
  ud_slumber : slumber t x s -> slumber t x s'
}.

(** [n] tick interrupts after [s], before each of them what the threads do. *)
Inductive ticks : nat -> kstate -> kstate -> Prop :=
| ticks_none s : ticks 0 s s
| ticks_more n s s1 s2 s3 fuel :
    ticks n s s1 -> undisturbed s1 s2 -> (length (k_timer_list s2) < fuel)%nat ->
    rt_tick_increase user_cb fuel s2 = Ok true s3 -> ticks (S n) s s3.

Lemma run_doze s s1 fuel :
  slumber t x s -> - 2 ^ 31 < dist (k_tick s) x -> undisturbed s s1 -> (length (k_timer_list s1) < fuel)%nat ->
  exists s', rt_tick_increase user_cb fuel s1 = Ok true s' /\ slumber t x s' /\
    dist (k_tick s') x = dist (k_tick s) x - 1 /\ forall i, i ∈ k_timer_list s' -> 0 < tdist s' i.
Proof.
  intros J Hx [I T Et Hd (c & ch & Hc & Hch) HJ] Hf.
  destruct (proj1 (wp_run _ _ _) (run_tick_increase user_cb cb_ok (slumber t x) s1 c ch fuel
    slumber_kept_by_fire (slumber_states t x) I T (HJ J) Hc Hch Hd Hf)) as (b & s' & E & -> & _ & _ & J' & Et' & Hp).
  exists s'. split; [done|]. split; [done|]. split; [|done]. by rewrite Et', dist_next, Et by (by rewrite Et).
Qed.

Lemma ticks_slumber k s s' :
  slumber t x s -> Z.of_nat k <= dist (k_tick s) x -> ticks k s s' ->
  slumber t x s' /\ dist (k_tick s') x = dist (k_tick s) x - Z.of_nat k /\
  (k ≠ 0%nat -> forall i, i ∈ k_timer_list s' -> 0 < tdist s' i).
Proof.
  intros J Hx H. revert J Hx. induction H as [s|k s s1 s2 s3 fuel H IH U Hf E]; intros J Hx.
  { split; [done|]. split; [simpl; lia|done]. }
  destruct IH as (J1 & Hl & _); [done|lia|]. destruct (run_doze s1 s2 fuel J1 ltac:(lia) U Hf) as (s3' & E' & J3 & Hl3 & Hp).
  rewrite E in E'. injection E' as <-. split; [done|]. split; [lia|done].
Qed.

Lemma ticks_awake n s s' :
  (0 < n)%nat -> slumber t x s -> dist (k_tick s) x = Z.of_nat n -> ticks n s s' -> awake t s'.
Proof.
  intros Hn J Hx H. destruct (ticks_slumber n s s' J ltac:(lia) H) as ([|[Hin Ht]] & Hl & Hp); [done|].
  specialize (Hp ltac:(lia) _ Hin). unfold tdist in Hp. rewrite Ht in Hp. lia.
Qed.
End sleep.

(** ** Going to sleep *)

Lemma run_sleep s t th n :
  blocking_ctx s t th -> 0 < n <= max_dist ->
  rt_thread_sleep n s = Ok (Waiting t) (scheduled (armed t n (suspended t th s))).
Proof.
  intros [I Hc [Ht Hst] _ (u & uh & Hu & Huth & Hur)] Hn. rewrite max_dist_val in Hn. unfold rt_thread_sleep.
  run_step (run_thread_self _ _ Hc). run_step (run_thread_suspend _ _ _ I Ht Hst).
  pose proof (kinv_suspended _ _ _ I Ht Hst) as Is.
  set (th' := set_th_stat (with_state RT_THREAD_SUSPEND (th_stat th)) th).
  assert (k_threads (suspended t th s) !! t = Some th') as Ht' by (rewrite suspended_threads; apply lookup_insert_eq).
  destruct (inv_timer _ Is _ _ Ht') as (tm & Htm & _).
  pose proof (run_arm_thread_timer (suspended t th s) t tm n Htm) as Ea. unfold arm_thread_timer in Ea.
  rewrite u32_small in Ea by lia. specialize (Ea ltac:(change (RT_TICK_MAX / 2) with (2 ^ 31 - 1); lia)).
  run_inv Ea. run_inv Ea. run_step E. run_step E0. injection Ea as ->.
  assert (ready (armed t n (suspended t th s)) u uh) as Hr.
  { split; [|done]. rewrite armed_threads, suspended_threads. by rewrite lookup_insert_ne. }
  assert (kinv (armed t n (suspended t th s))) as Ia by (apply (kinv_armed _ _ th'); [done|done|apply state_suspend]).
  run_step (run_schedule _ u uh Ia Hr). done.
Qed.

Lemma scheduled_tick s : k_tick (scheduled s) = k_tick s.
Proof. unfold scheduled. destruct (_ =? 0); [|done]. destruct (top_ready _); [|done]. by case_decide. Qed.
Lemma scheduled_timers s : k_timers (scheduled s) = k_timers s.
Proof. unfold scheduled. destruct (_ =? 0); [|done]. destruct (top_ready _); [|done]. by case_decide. Qed.
Lemma suspended_tick s t th : k_tick (suspended t th s) = k_tick s.
Proof.
  unfold suspended, timer_stopped, dequeued, clear_group. repeat case_match; done.
Qed.

Lemma sleep_slumber s t th n :
  blocking_ctx s t th -> 0 < n <= max_dist ->
  let s0 := scheduled (armed t n (suspended t th s)) in
  slumber t (u32 (k_tick s + n)) s0 /\ k_tick s0 = k_tick s /\
  k_threads s0 !! t = Some (set_th_stat (with_state RT_THREAD_SUSPEND (th_stat th)) th).
Proof.
  intros [I _ [Ht Hst] _ _] Hn s0. pose proof (kinv_suspended _ _ _ I Ht Hst) as Is.
  assert (k_threads (suspended t th s) !! t = Some (set_th_stat (with_state RT_THREAD_SUSPEND (th_stat th)) th)) as Ht'
    by (rewrite suspended_threads; apply lookup_insert_eq).
  destruct (inv_timer _ Is _ _ Ht') as (tm & Htm & _). unfold s0. rewrite scheduled_tick, scheduled_threads, armed_threads.
  assert (k_tick (armed t n (suspended t th s)) = k_tick s /\
    slumber t (u32 (k_tick s + n)) (armed t n (suspended t th s))) as [Ek Hs].
  { rewrite <- !(suspended_tick s t th). unfold armed. rewrite (proj2 (Z.ltb_lt 0 n)) by lia. unfold timer_set. rewrite Htm.
    unfold timer_started. simpl. rewrite lookup_insert_eq. simpl. split; [done|]. right. simpl. split.
    - rewrite timer_row_insert_perm. left.
    - unfold timeout_of, timeout_tick_of. simpl. by rewrite lookup_insert_eq. }
  split; [|done]. destruct Hs as [(w & Hw & Hr)|[Hin Hx]]; [left|right].
  - exists w. split; [by rewrite scheduled_threads|done].
  - split; [by rewrite scheduled_timer_list|]. unfold timeout_of, timeout_tick_of in *. by rewrite scheduled_timers.
Qed.

(** C4: a thread that calls [rt_thread_sleep] for [n] ticks is suspended, every
    tick interrupt that follows returns, and when the [n]-th one returns the
    thread is ready, for every number of ticks below half of the 32-bit range and
    across its wrap-around.  The other threads and the timeout functions may do
    anything that keeps the invariants and either leaves the thread's timer
    running or makes the thread ready. *)
Theorem sleep_wakes_up user_cb s t th n :
  blocking_ctx s t th -> 0 < n <= max_dist ->
  let x := u32 (k_tick s + n) in
  (forall m s, kinv s -> tinv s -> wp (user_cb m) (fun _ s' => cb_effect s s') s) ->
  (forall m s, kinv s -> tinv s -> slumber t x s -> wp (user_cb m) (fun _ s' => slumber t x s') s) ->
  exists s0, rt_thread_sleep n s = Ok (Waiting t) s0 /\
    (exists th0, k_threads s0 !! t = Some th0 /\ state_of th0 = RT_THREAD_SUSPEND) /\
    (forall k s1 s2 fuel, (k < Z.to_nat n)%nat -> ticks user_cb t x k s0 s1 -> undisturbed t x s1 s2 ->
      (length (k_timer_list s2) < fuel)%nat -> exists s3, rt_tick_increase user_cb fuel s2 = Ok true s3) /\
    (forall s', ticks user_cb t x (Z.to_nat n) s0 s' -> awake t s').
Proof.
  intros B Hn x Hcb Hkeep. rewrite (run_sleep s t th n B Hn). destruct (sleep_slumber s t th n B Hn) as (J & Ek & Ht).
  fold x in J. set (s0 := scheduled _) in *.
  assert (dist (k_tick s0) x = n) as Hx by (rewrite Ek; unfold x; rewrite max_dist_val in Hn; apply dist_later; lia).
  exists s0. split; [done|]. split; [eexists; split; [exact Ht|apply state_suspend]|]. split.
  - intros k s1 s2 fuel Hk H U Hf. destruct (ticks_slumber user_cb t x Hcb Hkeep k s0 s1 J ltac:(lia) H) as (J1 & Hl & _).
    destruct (run_doze user_cb t x Hcb Hkeep s1 s2 fuel J1 ltac:(lia) U Hf) as (s3 & E & _). by exists s3.
  - intros s' H. apply (ticks_awake user_cb t x Hcb Hkeep (Z.to_nat n) s0); [lia|done|lia|done].
Qed.

(** ** Witness *)

(** Thread 1 of the booted kernel sleeps for 2 ticks. *)
Definition demo_asleep : kstate := run (rt_thread_sleep 2) demo.
Definition demo_tick1 : kstate := run (rt_tick_increase no_callback 2) demo_asleep.
Definition demo_tick2 : kstate := run (rt_tick_increase no_callback 2) demo_tick1.

(** Nothing happens between two ticks. *)
Definition quietb (s : kstate) (c : nat) : bool :=
  kinvb s && tinvb s && forallb (fun i => 0 <=? tdist s i) (k_timer_list s) &&
  bool_decide (k_current s = Some c) && bool_decide (is_Some (k_threads s !! c)).

Lemma quiet_undisturbed t x s c : quietb s c = true -> undisturbed t x s s.
Proof.
  intros H. unfold quietb in H. to_prop. split; [by apply kinvb_kinv|by apply tinvb_tinv|done| | |done].
  - intros i Hi. match goal with H : forallb _ _ = true |- _ => apply (forallb_elem _ _ _ H) in Hi end. cbv beta in Hi. by to_prop.
  - destruct H0 as [ch Hch]. by exists c, ch.
Qed.

Lemma demo_sleeps : rt_thread_sleep 2 demo = Ok (Waiting 1%nat) demo_asleep.
Proof. refine (ret_Ok (rt_thread_sleep 2) demo (Waiting 1%nat) _). vm_compute. reflexivity. Qed.
Lemma demo_ticks1 : rt_tick_increase no_callback 2 demo_asleep = Ok true demo_tick1.
Proof. refine (ret_Ok (rt_tick_increase no_callback 2) demo_asleep true _). vm_compute. reflexivity. Qed.
Lemma demo_ticks2 : rt_tick_increase no_callback 2 demo_tick1 = Ok true demo_tick2.
Proof. refine (ret_Ok (rt_tick_increase no_callback 2) demo_tick1 true _). vm_compute. reflexivity. Qed.

Lemma sleep_wakes_up_witness :
  awake 1 demo_tick2 /\ has_state demo_tick1 RT_THREAD_SUSPEND 1 = true /\ has_state demo_tick2 RT_THREAD_READY 1 = true.
Proof.
  destruct (sleep_wakes_up no_callback demo 1 (thread_at demo 1) 2) as (s0 & E & _ & _ & H).
  - exact demo_ctx.
  - split; [lia|]. rewrite max_dist_val. lia.
  - exact no_callback_ok.
  - intros m s _ _ J. exact J.
  - split; [|split; vm_compute; reflexivity]. pose proof (Ok_state _ _ _ _ (eq_trans (eq_sym demo_sleeps) E)) as Es. subst s0.
    apply H. refine (ticks_more no_callback 1 _ 1 demo_asleep demo_tick1 demo_tick1 demo_tick2 2 _ _ _ demo_ticks2).
    + refine (ticks_more no_callback 1 _ 0 demo_asleep demo_asleep demo_asleep demo_tick1 2 _ _ _ demo_ticks1).
      * apply ticks_none.
      * refine (quiet_undisturbed _ _ demo_asleep 2 _). vm_compute. reflexivity.
      * vm_compute. apply le_n.
    + refine (quiet_undisturbed _ _ demo_tick1 2 _). vm_compute. reflexivity.
    + vm_compute. apply le_n.
Defined.
