(* ===== verification/Idle.v ===== *)
(** * The idle thread: src/idle.c

    The idle thread frees the threads that [rt_thread_exit] and
    [rt_thread_delete] have put on the list of defunct threads. *)

From S2P Require Import Prelude Kernel Object Timer Scheduler Thread KInv ThreadSpec Ipc.

Section idle.
(** [thread->cleanup(thread)], code of the application. *)
Context (cleanup : nat -> M kstate unit).

Definition _has_defunct_thread (s : kstate) : bool := negb (bool_decide (tl s HDefunct = [])).

(** [RT_KERNEL_FREE] of the stack, whose memory is no part of the state, and
    [rt_object_delete], which gives the memory of the thread back: no access
    through its address is valid any more, nor through that of its timer. *)
Definition delete_thread_object (t : nat) : M kstate unit :=
  rt_object_delete (thread_ref t);;
  modify (set_k_threads (delete t));;
  modify (set_k_timers (delete (TThread t))).

(** The loop; interrupts are enabled at its end only, so the second test of the
    list sees what the first one saw. *)
Fixpoint idle_loop (fuel : nat) : M kstate unit :=
  s ← get;
  if _has_defunct_thread s then
    match fuel with
    | O => fault
    | S fuel =>
        RT_DEBUG_NOT_IN_INTERRUPT;;
        t ← deref (fun s => head (tl s HDefunct));
        tlist_remove t;;
        rt_enter_critical;;
        th ← get_thread t;
        when (th_cleanup th) (cleanup t);;
        sys ← rt_object_is_systemobject (thread_ref t);
        if sys : bool then rt_exit_critical
        else
          rt_exit_critical;;
          delete_thread_object t;;
          idle_loop fuel
    end
  else mret tt.

Definition rt_thread_idle_excute : M kstate unit :=
  s ← get; idle_loop (length (tl s HDefunct)).

(** [rt_thread_idle_init] with [idle] at [t] and its stack at [stack]. *)
Definition rt_thread_idle_init (t : nat) (stack stack_size : Z) : M kstate unit :=
  rt_thread_init t [116; 105; 100; 108; 101] stack stack_size (RT_THREAD_PRIORITY_MAX - 1) 32;;
  rt_thread_startup t;;
  mret tt.

(** ** What a cleanup function may do

    It may use the kernel, but it leaves the dead threads, the headers of
    threads and the scheduler lock as they are, and creates no thread.  This is
    asked of it only while the scheduler is locked. *)
Record cleanup_effect (s s' : kstate) : Prop := {
  cl_inv : kinv s';
  cl_defunct : tl s' HDefunct = tl s HDefunct;
  cl_dead : forall u th, k_threads s !! u = Some th -> state_of th = RT_THREAD_CLOSE -> k_threads s' !! u = Some th;
  cl_none : forall u, k_threads s !! u = None -> k_threads s' !! u = None;
  cl_headers : forall u, k_objects s' !! thread_ref u = k_objects s !! thread_ref u;
  cl_linked : forall u th, k_threads s !! u = Some th -> state_of th = RT_THREAD_CLOSE -> ¬ linked s u -> ¬ linked s' u;
  cl_lock : k_lock_nest s' = k_lock_nest s;
  cl_int : k_int_nest s' = k_int_nest s;
  cl_ready : (exists u uh, ready s u uh) -> exists u uh, ready s' u uh
}.

Hypothesis cleanup_ok : forall t s, kinv s -> k_lock_nest s = 1 -> wp (cleanup t) (fun _ s' => cleanup_effect s s') s.

Lemma cleanup_effect_refl s : kinv s -> cleanup_effect s s.
Proof. intros I. by split. Qed.

(** Freeing a closed thread that is in no list. *)
Definition thread_freed (t : nat) (s : kstate) : kstate :=
  set_k_timers (delete (TThread t)) (set_k_threads (delete t) s).

Lemma kinv_thread_freed s t th :
  kinv s -> k_threads s !! t = Some th -> state_of th = RT_THREAD_CLOSE -> ¬ linked s t -> kinv (thread_freed t s).
Proof.
  intros I Ht Hc Hl.
  assert (forall h u, u ∈ tl s h -> u ≠ t) as Hne by (intros h u Hu ->; apply Hl; by exists h).
  assert (TThread t ∉ k_timer_list s) as Hn.
  { intros (x & Hx & Hs)%(inv_tm_thread _ I). rewrite Ht in Hx. injection Hx as <-. by rewrite Hc in Hs. }
  split; unfold thread_freed; simpl; intros *; try apply I; change (tl (thread_freed t s)) with (tl s).
  - split.
    + intros Hu. rewrite lookup_delete_ne by (intros <-; by apply (Hne _ _ Hu)). by apply (inv_ready _ I).
    + intros (x & [_ Hx]%lookup_delete_Some & Hs & Hp). apply (inv_ready _ I). by exists x.
  - intros Hh Hu. rewrite lookup_delete_ne by (intros <-; by apply (Hne _ _ Hu)). by apply (inv_waiting _ I h).
  - intros Hu. rewrite lookup_delete_ne by (intros <-; by apply (Hne _ _ Hu)). by apply (inv_defunct _ I).
  - intros [_ Hx]%lookup_delete_Some Hlive. by eapply (inv_prio _ I).
  - intros [_ Hx]%lookup_delete_Some Hlive. by eapply (inv_stack _ I).
  - intros [Hut Hx]%lookup_delete_Some. rewrite lookup_delete_ne by congruence. by eapply (inv_timer _ I).
  - intros [_ Hx]%lookup_delete_Some. by eapply (inv_timer_obj _ I).
  - intros Hi. rewrite lookup_delete_ne by (by intros <-). by apply (inv_tm_list _ I).
  - intros Hi. rewrite lookup_delete_ne by (intros <-; done). by apply (inv_tm_thread _ I).
Qed.

(** Between two rounds. *)
Record idling (s : kstate) : Prop := {
  id_inv : kinv s;
  id_int : k_int_nest s = 0;
  id_lock : k_lock_nest s = 0;
  id_ready : exists u uh, ready s u uh
}.

Definition header_static (s : kstate) (t : nat) (b : bool) : Prop :=
  exists ob, k_objects s !! thread_ref t = Some ob /\ is_static ob = b.

(** What a round leaves behind, apart from the fate of the thread itself. *)
Record buried (t : nat) (l : list nat) (s s' : kstate) : Prop := {
  bu_idling : idling s';
  bu_defunct : tl s' HDefunct = l;
  bu_headers : forall u, u ≠ t -> k_objects s' !! thread_ref u = k_objects s !! thread_ref u;
  bu_none : forall u, k_threads s !! u = None -> k_threads s' !! u = None
}.

(** Up to the test for a system object. *)
Lemma run_idle_start s t l th :
  idling s -> tl s HDefunct = t :: l -> k_threads s !! t = Some th ->
  exists s1, (when (th_cleanup th) (cleanup t)) (set_k_lock_nest (fun n => s16 (n + 1)) (unlink t s)) = Ok tt s1 /\
    kinv s1 /\ k_int_nest s1 = 0 /\ k_lock_nest s1 = 1 /\ (exists u uh, ready s1 u uh) /\ tl s1 HDefunct = l /\
    k_threads s1 !! t = Some th /\ ¬ linked s1 t /\
    (forall u, k_objects s1 !! thread_ref u = k_objects s !! thread_ref u) /\
    (forall u, k_threads s !! u = None -> k_threads s1 !! u = None).
Proof.
  intros [I Hi Hk (u & uh & Hu & Hur)] Hd Ht. set (s0 := set_k_lock_nest _ _).
  destruct (inv_defunct _ I t) as (th' & Ht' & Hc); [rewrite Hd; left|]. rewrite Ht in Ht'. injection Ht' as <-.
  assert (kinv s0) as I0.
  { apply (kinv_same (unlink t s)); try done. apply (kinv_unlink_other _ _ th); [done|done|]. by rewrite Hc. }
  assert (forall h, tl s0 h = filter (fun u => u ≠ t) (tl s h)) as Etl by (intros h; exact (tl_unlink t s h)).
  assert (tl s0 HDefunct = l) as Hl.
  { rewrite Etl, Hd, filter_cons_False by naive_solver. apply filter_ne_notin.
    pose proof (inv_nodup _ I HDefunct) as N. rewrite Hd in N. by apply NoDup_cons in N as [? _]. }
  assert (¬ linked s0 t) as Hnl by (intros [h Hin]; rewrite Etl in Hin; by apply list_elem_of_filter in Hin as [? _]).
  assert (k_lock_nest s0 = 1) as Hk0 by (simpl; by rewrite Hk).
  assert (cleanup_effect s0 s0) as Hrefl by by apply cleanup_effect_refl.
  assert (exists s1, (when (th_cleanup th) (cleanup t)) s0 = Ok tt s1 /\ cleanup_effect s0 s1) as (s1 & E & C).
  { unfold when. destruct (th_cleanup th); [|by exists s0].
    destruct (proj1 (wp_run _ _ _) (cleanup_ok t s0 I0 Hk0)) as ([] & s1 & E & C). by exists s1. }
  exists s1. split; [done|]. destruct C as [C1 C2 C3 C4 C5 C6 C7 C8 C9]. split_and!; try done.
  - by rewrite C8.
  - by rewrite C7.
  - apply C9. by exists u, uh.
  - by rewrite C2.
  - by apply C3.
  - by apply (C6 t th).
Qed.

Lemma scheduled_objects s : k_objects (scheduled s) = k_objects s.
Proof. unfold scheduled. destruct (_ =? 0); [|done]. destruct (top_ready _); [|done]. by case_decide. Qed.
Lemma scheduled_int s : k_int_nest (scheduled s) = k_int_nest s.
Proof. unfold scheduled. destruct (_ =? 0); [|done]. destruct (top_ready _); [|done]. by case_decide. Qed.
Lemma scheduled_lock s : k_lock_nest (scheduled s) = k_lock_nest s.
Proof. unfold scheduled. destruct (_ =? 0) eqn:E; [|done]. destruct (top_ready _); [|done]. by case_decide. Qed.

Lemma has_defunct s t l : tl s HDefunct = t :: l -> _has_defunct_thread s = true.
Proof. intros E. unfold _has_defunct_thread. rewrite E. done. Qed.

(** A round up to the test whether the thread is a system object. *)
Lemma run_idle_head s t l fuel b :
  idling s -> tl s HDefunct = t :: l -> header_static s t b ->
  exists s1 u uh, kinv s1 /\ k_int_nest s1 = 0 /\ k_lock_nest s1 = 1 /\ ready s1 u uh /\ tl s1 HDefunct = l /\
    (exists th, k_threads s1 !! t = Some th /\ state_of th = RT_THREAD_CLOSE) /\ ¬ linked s1 t /\
    (forall u, k_objects s1 !! thread_ref u = k_objects s !! thread_ref u) /\
    (forall u, k_threads s !! u = None -> k_threads s1 !! u = None) /\
    idle_loop (S fuel) s
    = (if b then rt_exit_critical else rt_exit_critical;; delete_thread_object t;; idle_loop fuel) s1.
Proof.
  intros D Hd (ob & Hob & Hb). pose proof D as [I Hi _ _].
  destruct (inv_defunct _ I t) as (th & Ht & Hc); [rewrite Hd; left|].
  destruct (run_idle_start s t l th D Hd Ht) as (s1 & E & I1 & H1 & H2 & (u & uh & Hr) & H3 & H4 & H5 & H6 & H7).
  exists s1, u, uh. split_and!; try done; [by exists th|].
  cbn [idle_loop]. erewrite bind_Ok by reflexivity. rewrite (has_defunct _ _ _ Hd).
  assert (RT_DEBUG_NOT_IN_INTERRUPT s = Ok tt s) as Eint by (unfold RT_DEBUG_NOT_IN_INTERRUPT, mbind, M_bind, gets; by rewrite Hi).
  run_step Eint. erewrite bind_Ok by (apply run_deref; by rewrite Hd). unfold tlist_remove. erewrite bind_Ok by reflexivity.
  unfold rt_enter_critical. erewrite bind_Ok by reflexivity. erewrite bind_Ok by (apply run_get_thread; exact Ht).
  run_step E. unfold rt_object_is_systemobject, get_object.
  erewrite bind_Ok by (erewrite bind_Ok by (apply run_deref; rewrite H6; exact Hob); rewrite Hb; reflexivity). done.
Qed.

Lemma run_idle_dynamic s t l fuel :
  idling s -> tl s HDefunct = t :: l -> header_static s t false ->
  exists s', idle_loop (S fuel) s = idle_loop fuel s' /\ buried t l s s' /\
    k_threads s' !! t = None /\ k_objects s' !! thread_ref t = None.
Proof.
  intros D Hd Hb. destruct (run_idle_head s t l fuel false D Hd Hb)
    as (s1 & u & uh & I1 & H1 & H2 & Hr & H3 & (th & Ht & Hc) & Hl & H6 & H7 & E). destruct Hb as (ob & Hob & Hb).
  rewrite E. run_step (run_exit_critical s1 u uh I1 H2 Hr). set (s2 := scheduled _).
  set (s3 := set_k_objects (delete (thread_ref t)) (set_k_container (fmap (filter (fun q => q ≠ thread_ref t))) s2)).
  assert (delete_thread_object t s2 = Ok tt (thread_freed t s3)) as Ed.
  { unfold delete_thread_object, rt_object_delete, get_object.
    erewrite bind_Ok; [|erewrite bind_Ok by (apply run_deref; unfold s2; rewrite scheduled_objects; simpl; rewrite H6; exact Hob);
      rewrite Hb; reflexivity]. reflexivity. }
  run_step Ed. exists (thread_freed t s3). split; [done|].
  assert (kinv s2) as I2 by (apply kinv_scheduled; by apply (kinv_same s1)).
  assert (kinv s3) as I3 by by apply (kinv_same s2).
  assert (k_threads s3 = k_threads s1) as Eth.
  { transitivity (k_threads s2); [done|]. unfold s2. by rewrite scheduled_threads. }
  assert (forall h, tl s3 h = tl s1 h) as Etl by (intros h; exact (tl_scheduled (set_k_lock_nest (fun _ => 0) s1) h)).
  assert (u ≠ t) as Hut by (intros ->; destruct Hr as [Hu Hur]; rewrite Ht in Hu; injection Hu as <-; by rewrite Hc in Hur).
  split; [split|split].
  - split.
    + apply (kinv_thread_freed _ _ th); [done|by rewrite Eth|done|]. intros [h Hin]. apply Hl. exists h. by rewrite <- Etl.
    + transitivity (k_int_nest s2); [done|]. unfold s2. by rewrite scheduled_int.
    + transitivity (k_lock_nest s2); [done|]. unfold s2. by rewrite scheduled_lock.
    + exists u, uh. destruct Hr as [Hu Hur]. split; [|done]. unfold thread_freed. cbn [k_threads set_k_timers set_k_threads].
      rewrite lookup_delete_ne by done. by rewrite Eth.
  - by rewrite <- H3, <- Etl.
  - intros v Hv. change (k_objects (thread_freed t s3)) with (delete (thread_ref t) (k_objects s2)).
    rewrite lookup_delete_ne by (intros [= Eq]; done). unfold s2. rewrite scheduled_objects. apply H6.
  - intros v Hv. apply lookup_delete_None. right. rewrite Eth. by apply H7.
  - apply lookup_delete_eq.
  - apply lookup_delete_eq.
Qed.

(** Reference: which threads of the list a call frees, and which it leaves there.
    A static thread is taken off the list and ends the call. *)
Definition static_thread (s : kstate) (t : nat) : bool :=
  match k_objects s !! thread_ref t with Some ob => is_static ob | None => false end.

Fixpoint reclaim (static : nat -> bool) (l : list nat) : list nat * list nat :=
  match l with
  | [] => ([], [])
  | t :: l => if static t then ([], l) else let '(freed, rest) := reclaim static l in (t :: freed, rest)
  end.

Lemma reclaim_ext f g l : (forall t, t ∈ l -> f t = g t) -> reclaim f l = reclaim g l.
Proof.
  induction l as [|t l IH]; intros H; [done|]. simpl. rewrite <- (H t) by left.
  destruct (f t); [done|]. rewrite IH; [done|]. intros u Hu. apply H. by right.
Qed.

Lemma reclaim_dynamic f l : (forall t, t ∈ l -> f t = false) -> reclaim f l = (l, []).
Proof.
  induction l as [|t l IH]; intros H; [done|]. simpl. rewrite (H t) by left. rewrite IH; [done|].
  intros u Hu. apply H. by right.
Qed.

(** What a call has done when it ends. *)
Record reclaimed (freed rest : list nat) (s s' : kstate) : Prop := {
  rc_idling : idling s';
  rc_rest : tl s' HDefunct = rest;
  rc_freed : forall t, t ∈ freed -> k_threads s' !! t = None /\ k_objects s' !! thread_ref t = None;
  rc_others : forall u, u ∉ freed -> k_objects s' !! thread_ref u = k_objects s !! thread_ref u;
  rc_none : forall u, k_threads s !! u = None -> k_threads s' !! u = None
}.

(** A static thread ends the call. *)
Lemma run_idle_static s t l fuel :
  idling s -> tl s HDefunct = t :: l -> header_static s t true ->
  exists s', idle_loop (S fuel) s = Ok tt s' /\ reclaimed [] l s s'.
Proof.
  intros D Hd Hb. destruct (run_idle_head s t l fuel true D Hd Hb)
    as (s1 & u & uh & I1 & H1 & H2 & Hr & H3 & _ & _ & H6 & H7 & E).
  rewrite E, (run_exit_critical s1 u uh I1 H2 Hr). eexists. split; [done|]. split; [split|..].
  - apply kinv_scheduled. by apply (kinv_same s1).
  - by rewrite scheduled_int.
  - by rewrite scheduled_lock.
  - exists u, uh. destruct Hr. split; [by rewrite scheduled_threads|done].
  - by rewrite tl_scheduled.
  - by intros v ?%elem_of_nil.
  - intros v _. rewrite scheduled_objects. apply H6.
  - intros v Hv. rewrite scheduled_threads. by apply H7.
Qed.

Lemma run_idle_all l : forall s fuel,
  idling s -> tl s HDefunct = l -> (forall t, t ∈ l -> is_Some (k_objects s !! thread_ref t)) -> (length l <= fuel)%nat ->
  exists s', idle_loop fuel s = Ok tt s' /\
    reclaimed (reclaim (static_thread s) l).1 (reclaim (static_thread s) l).2 s s'.
Proof.
  induction l as [|t l IH]; intros s fuel D Hd Hs Hf.
  - exists s. split; [|split; try done; by intros ? ?%elem_of_nil].
    unfold idle_loop. destruct fuel; erewrite bind_Ok by reflexivity; unfold _has_defunct_thread; by rewrite Hd.
  - destruct fuel as [|fuel]; [simpl in Hf; lia|].
    destruct (Hs t ltac:(left)) as [ob Hob]. assert (header_static s t (static_thread s t)) as Hb
      by (exists ob; unfold static_thread; by rewrite Hob).
    cbn [reclaim]. destruct (static_thread s t); [by apply (run_idle_static s t)|].
    destruct (run_idle_dynamic s t l fuel D Hd Hb) as (s1 & E & [D1 Hd1 Hh1 Hn1] & Ht1 & Ho1). rewrite E.
    pose proof (inv_nodup _ (id_inv _ D) HDefunct) as N. rewrite Hd in N. apply NoDup_cons in N as [Hnt _].
    assert (forall v, v ∈ l -> k_objects s1 !! thread_ref v = k_objects s !! thread_ref v) as Hsame
      by (intros v Hv; apply Hh1; by intros ->).
    rewrite (reclaim_ext (static_thread s) (static_thread s1)) by (intros v Hv; unfold static_thread; by rewrite Hsame).
    destruct (IH s1 fuel D1 Hd1) as (s' & E' & [D' Hd' Hg Hh Hn]); [|simpl in Hf; lia|].
    { intros v Hv. rewrite Hsame by done. apply Hs. by right. }
    exists s'. destruct (reclaim (static_thread s1) l) as [fr le]. simpl in *. split; [done|]. split; try done.
    + intros v [->|Hv]%elem_of_cons; [|by apply Hg]. destruct (decide (t ∈ fr)) as [?|Hn']; [by apply Hg|].
      split; [by apply Hn|]. by rewrite Hh.
    + intros v [Hv1 Hv2]%not_elem_of_cons. rewrite Hh by done. by apply Hh1.
    + intros v Hv. by apply Hn, Hn1.
Qed.

(** C36: one call of [rt_thread_idle_excute] ends whatever the cleanup functions do
    within their contract, which they have to keep only with the scheduler
    locked.  The threads at the front of the list of defunct threads that were
    created dynamically are freed, header and all; the first one that was
    initialised statically is taken off the list, keeps its header and ends the
    call, so the threads behind it are left for a later call.  No other header of
    a thread changes, and the kernel invariant holds.  If all defunct threads were
    created dynamically, all of them are freed and the list is empty. *)
Theorem idle_reclaims s :
  idling s -> (forall t, t ∈ tl s HDefunct -> is_Some (k_objects s !! thread_ref t)) ->
  let '(freed, rest) := reclaim (static_thread s) (tl s HDefunct) in
  (exists s', rt_thread_idle_excute s = Ok tt s' /\ idling s' /\ tl s' HDefunct = rest /\
    (forall t, t ∈ freed -> k_threads s' !! t = None /\ k_objects s' !! thread_ref t = None) /\
    (forall u, u ∉ freed -> k_objects s' !! thread_ref u = k_objects s !! thread_ref u)) /\
  ((forall t, t ∈ tl s HDefunct -> static_thread s t = false) -> freed = tl s HDefunct /\ rest = []).
Proof.
  intros D Hs. unfold rt_thread_idle_excute. erewrite bind_Ok by reflexivity.
  destruct (run_idle_all (tl s HDefunct) s (length (tl s HDefunct)) D eq_refl Hs ltac:(done)) as (s' & E & [D' Hd Hg Hh _]).
  destruct (reclaim _ _) as [freed rest] eqn:Er. split; [by exists s'|].
  intros Hdy. rewrite reclaim_dynamic in Er by done. by injection Er as <- <-.
Qed.

(** A defunct thread that was initialised statically ends the call: the threads
    behind it stay defunct until a later call, although the comment says that one
    call does all the cleanups. *)
Theorem idle_stops_at_static s t l :
  idling s -> tl s HDefunct = t :: l -> header_static s t true ->
  exists s', rt_thread_idle_excute s = Ok tt s' /\ reclaimed [] l s s'.
Proof.
  intros D Hd Hb. unfold rt_thread_idle_excute. erewrite bind_Ok by reflexivity. rewrite Hd.
  by apply (run_idle_static s t l (length l)).
Qed.
End idle.

(** ** Witnesses *)

Definition no_cleanup : nat -> M kstate unit := fun _ => mret tt.

Lemma no_cleanup_ok t s : kinv s -> k_lock_nest s = 1 -> wp (no_cleanup t) (fun _ s' => cleanup_effect s s') s.
Proof. intros I _. apply wp_ret. by apply cleanup_effect_refl. Qed.

Definition idlingb (s : kstate) (u : nat) : bool :=
  kinvb s && (k_int_nest s =? 0) && (k_lock_nest s =? 0) && has_state s RT_THREAD_READY u.

Lemma idlingb_idling s u : idlingb s u = true -> idling s.
Proof.
  intros H. unfold idlingb in H. to_prop. split; [by apply kinvb_kinv|done|done|].
  apply has_state_spec in H0 as (uh & Hu & Hs). by exists u, uh.
Qed.

(** Two threads created, one started, both deleted; then a static one too. *)
Definition demo_defunct : kstate :=
  run (rt_thread_create (Some 5%nat) (Some 0x20008000) [97] 512 5 10;;
       rt_thread_create (Some 6%nat) (Some 0x20009000) [98] 512 25 10;; rt_thread_startup 6;;
       rt_thread_delete 5;; rt_thread_delete 6) demo.
Definition demo_defunct_static : kstate := run (rt_thread_delete 3) demo_defunct.

Lemma defunct_headers s : forallb (fun t => bool_decide (is_Some (k_objects s !! thread_ref t))) (tl s HDefunct) = true ->
  forall t, t ∈ tl s HDefunct -> is_Some (k_objects s !! thread_ref t).
Proof. intros H t Ht. by apply (bool_decide_eq_true_1 _), (forallb_elem _ _ t H Ht). Qed.

(** The static thread 3 is taken off; the two behind it wait for the next call. *)
Lemma idle_reclaims_witness :
  tl demo_defunct_static HDefunct = [3%nat; 6%nat; 5%nat] /\
  (exists s', rt_thread_idle_excute no_cleanup demo_defunct_static = Ok tt s' /\ tl s' HDefunct = [6%nat; 5%nat]) /\
  tl demo_defunct HDefunct = [6%nat; 5%nat] /\
  (exists s', rt_thread_idle_excute no_cleanup demo_defunct = Ok tt s' /\ tl s' HDefunct = [] /\ k_threads s' !! 5%nat = None).
Proof.
  assert (reclaim (static_thread demo_defunct_static) (tl demo_defunct_static HDefunct) = ([], [6%nat; 5%nat])) as E1
    by (vm_compute; reflexivity).
  assert (reclaim (static_thread demo_defunct) (tl demo_defunct HDefunct) = ([6%nat; 5%nat], [])) as E2
    by (vm_compute; reflexivity).
  split; [vm_compute; reflexivity|]. split; [|split; [vm_compute; reflexivity|]].
  - pose proof (idle_reclaims no_cleanup no_cleanup_ok demo_defunct_static
      (idlingb_idling demo_defunct_static 1 ltac:(vm_compute; reflexivity))
      (defunct_headers demo_defunct_static ltac:(vm_compute; reflexivity))) as H.
    rewrite E1 in H. destruct H as [(s' & E & _ & Hd & _) _]. exists s'. split; [exact E|exact Hd].
  - pose proof (idle_reclaims no_cleanup no_cleanup_ok demo_defunct
      (idlingb_idling demo_defunct 1 ltac:(vm_compute; reflexivity))
      (defunct_headers demo_defunct ltac:(vm_compute; reflexivity))) as H.
    rewrite E2 in H. destruct H as [(s' & E & _ & Hd & Hg & _) _]. exists s'. split; [exact E|]. split; [exact Hd|].
    apply Hg. right. left.
Defined.
