(* ===== verification/Device.v ===== *)
(** * Devices and the console: src/device.c and the console of src/kservice.c

    A device is a header in the object container, flags, a count of openings
    and a table of driver functions.  The drivers are code of the board: their
    functions are the parameter [ops], and what the device layer relies on is
    the class [Driver]. *)

From S2P Require Import Prelude Kernel Object Timer Scheduler Thread KInv ThreadSpec Ipc KString Printf.

Definition RT_ENOSYS : Z := 6.

Definition RT_DEVICE_FLAG_STANDALONE : Z := 8.
Definition RT_DEVICE_FLAG_ACTIVATED : Z := 16.
Definition RT_DEVICE_FLAG_STREAM : Z := 64.
Definition RT_DEVICE_OFLAG_CLOSE : Z := 0.
Definition RT_DEVICE_OFLAG_RDWR : Z := 3.
Definition RT_DEVICE_OFLAG_OPEN : Z := 8.
Definition RT_DEVICE_OFLAG_MASK : Z := 3855.

(** [struct rt_device] without the header (in the kernel state) and the table
    of functions; the callbacks are their addresses. *)
Record rt_device := mk_dev {
  dev_type : Z;
  dev_flag : Z;
  dev_open_flag : Z;
  dev_ref_count : Z;
  dev_rx_indicate : option nat;
  dev_tx_complete : option nat
}.

Definition set_dev_flag (v : Z) (d : rt_device) : rt_device :=
  mk_dev (dev_type d) v (dev_open_flag d) (dev_ref_count d) (dev_rx_indicate d) (dev_tx_complete d).
Definition set_dev_open_flag (v : Z) (d : rt_device) : rt_device :=
  mk_dev (dev_type d) (dev_flag d) v (dev_ref_count d) (dev_rx_indicate d) (dev_tx_complete d).
Definition set_dev_ref_count (v : Z) (d : rt_device) : rt_device :=
  mk_dev (dev_type d) (dev_flag d) (dev_open_flag d) v (dev_rx_indicate d) (dev_tx_complete d).
Definition set_dev_rx_indicate (v : option nat) (d : rt_device) : rt_device :=
  mk_dev (dev_type d) (dev_flag d) (dev_open_flag d) (dev_ref_count d) v (dev_tx_complete d).
Definition set_dev_tx_complete (v : option nat) (d : rt_device) : rt_device :=
  mk_dev (dev_type d) (dev_flag d) (dev_open_flag d) (dev_ref_count d) (dev_rx_indicate d) v.

Definition dev_state : Type := gmap nat rt_device * kstate.
Definition dev_ref (o : nat) : obj_ref := Obj RT_Object_Class_Device o.

(** The common device interface; a missing function is a null pointer. *)
Record device_ops := mk_ops {
  op_init : option (M dev_state Z);
  op_open : option (Z -> M dev_state Z);
  op_close : option (M dev_state Z);
  op_read : option (Z -> Z -> M dev_state (list Z));
  op_write : option (Z -> list Z -> M dev_state Z);
  op_control : option (Z -> M dev_state Z)
}.

Definition activated (d : rt_device) : bool := has (dev_flag d) RT_DEVICE_FLAG_ACTIVATED.
Definition is_open (d : rt_device) : bool := has (dev_open_flag d) RT_DEVICE_OFLAG_OPEN.

Section device.
Context (ops : nat -> device_ops).

Definition rt_device_find (name : list Z) : M dev_state (option nat) :=
  r ← on_snd (
    c ← gets k_current;
    when (bool_decide (is_Some c)) rt_enter_critical;;
    rt_assert (bool_decide (is_Some (rt_object_get_information RT_Object_Class_Device)));;
    s ← get;
    let r := find (name_matches s name) (objs s RT_Object_Class_Device) in
    c ← gets k_current;
    when (bool_decide (is_Some c)) rt_exit_critical;;
    mret r);
  mret (match r with Some (Obj _ o) => Some o | _ => None end).

(** The fields [fops] and [wait_queue] of the POSIX layer, which it clears, are not
    part of the record. *)
Definition rt_device_register (dev : option nat) (name : list Z) (flags : Z) : M dev_state Z :=
  match dev with
  | None => mret (- RT_ERROR)
  | Some o =>
      r ← rt_device_find name;
      if bool_decide (is_Some r) then mret (- RT_ERROR)
      else
        on_snd (rt_object_init (dev_ref o) name);;
        upd_obj o (set_dev_flag (u16 flags));;
        upd_obj o (set_dev_ref_count 0);;
        upd_obj o (set_dev_open_flag 0);;
        mret RT_EOK
  end.

Definition rt_device_unregister (o : nat) : M dev_state Z :=
  on_snd (rt_object_detach (dev_ref o));; mret RT_EOK.

(** [device] is the result of [rt_malloc], cleared by [rt_memset]. *)
Definition rt_device_create (device : option nat) (type : Z) : M dev_state (option nat) :=
  match device with
  | None => mret None
  | Some o => put_obj o (mk_dev type 0 0 0 None None);; mret (Some o)
  end.

Definition rt_device_destroy (o : nat) : M dev_state unit := rt_device_unregister o;; del_obj o.

Definition rt_device_init (o : nat) : M dev_state Z :=
  d ← get_obj o;
  match op_init (ops o) with
  | Some init =>
      if negb (activated d) then
        result ← init;
        (if negb (result =? RT_EOK) then mret tt
         else upd_obj o (fun d => set_dev_flag (Z.lor (dev_flag d) RT_DEVICE_FLAG_ACTIVATED) d));;
        mret result
      else mret RT_EOK
  | None => mret RT_EOK
  end.

(** The first part of [rt_device_open]: [Some] error when it returns. *)
Definition open_activate (o : nat) : M dev_state (option Z) :=
  d ← get_obj o;
  if negb (activated d) then
    result ← (match op_init (ops o) with Some init => init | None => mret RT_EOK end);
    if negb (result =? RT_EOK) then mret (Some result)
    else
      upd_obj o (fun d => set_dev_flag (Z.lor (dev_flag d) RT_DEVICE_FLAG_ACTIVATED) d);;
      mret None
  else mret None.

Definition opened (result : Z) : bool := (result =? RT_EOK) || (result =? - RT_ENOSYS).

(** Whether an opening that answers [result] got past the activation: the answer
    [-RT_ENOSYS] of the driver's [init] is a failure, that of its [open] is not. *)
Definition did_open (o : nat) (st : dev_state) (result : Z) : bool :=
  match ret (open_activate o) st with Some None => opened result | _ => false end.

Definition rt_device_open (o : nat) (oflag : Z) : M dev_state Z :=
  failed ← open_activate o;
  match failed with
  | Some result => mret result
  | None =>
      d ← get_obj o;
      if has (dev_flag d) RT_DEVICE_FLAG_STANDALONE && is_open d then mret (- RT_EBUSY)
      else
        result ← (match op_open (ops o) with
                  | Some open => open oflag
                  | None => upd_obj o (set_dev_open_flag (Z.land oflag RT_DEVICE_OFLAG_MASK));; mret RT_EOK
                  end);
        (if opened result then
           upd_obj o (fun d => set_dev_open_flag (Z.lor (dev_open_flag d) RT_DEVICE_OFLAG_OPEN) d);;
           upd_obj o (fun d => set_dev_ref_count (u8 (dev_ref_count d + 1)) d);;
           d ← get_obj o;
           rt_assert (negb (dev_ref_count d =? 0))
         else mret tt);;
        mret result
  end.

Definition rt_device_close (o : nat) : M dev_state Z :=
  d ← get_obj o;
  if dev_ref_count d =? 0 then mret (- RT_ERROR)
  else
    upd_obj o (fun d => set_dev_ref_count (u8 (dev_ref_count d - 1)) d);;
    d ← get_obj o;
    if negb (dev_ref_count d =? 0) then mret RT_EOK
    else
      result ← (match op_close (ops o) with Some close => close | None => mret RT_EOK end);
      (if opened result then upd_obj o (set_dev_open_flag RT_DEVICE_OFLAG_CLOSE) else mret tt);;
      mret result.

(** The value is the data that was read; its length is the result. *)
Definition rt_device_read (o : nat) (pos size : Z) : M dev_state (list Z) :=
  d ← get_obj o;
  if dev_ref_count d =? 0 then on_snd (rt_set_errno (- RT_ERROR));; mret []
  else
    match op_read (ops o) with
    | Some read => read pos size
    | None => on_snd (rt_set_errno (- RT_ENOSYS));; mret []
    end.

Definition rt_device_write (o : nat) (pos : Z) (buffer : list Z) : M dev_state Z :=
  d ← get_obj o;
  if dev_ref_count d =? 0 then on_snd (rt_set_errno (- RT_ERROR));; mret 0
  else
    match op_write (ops o) with
    | Some write => write pos buffer
    | None => on_snd (rt_set_errno (- RT_ENOSYS));; mret 0
    end.

Definition rt_device_control (o : nat) (cmd : Z) : M dev_state Z :=
  get_obj o;;
  match op_control (ops o) with Some control => control cmd | None => mret (- RT_ENOSYS) end.

Definition rt_device_set_rx_indicate (o : nat) (rx_ind : option nat) : M dev_state Z :=
  upd_obj o (set_dev_rx_indicate rx_ind);; mret RT_EOK.
Definition rt_device_set_tx_complete (o : nat) (tx_done : option nat) : M dev_state Z :=
  upd_obj o (set_dev_tx_complete tx_done);; mret RT_EOK.
End device.

(** ** What the device layer relies on *)

(** A driver function returns; it may use the kernel and change the flags and the
    other fields of its own device, but not the reference count of the device nor
    any other device. *)
Definition driver_effect (o : nat) (st st' : dev_state) : Prop :=
  exists d d', st.1 !! o = Some d /\ st'.1 = <[o := d']> st.1 /\ dev_ref_count d' = dev_ref_count d.

(** As above, and the bit that marks an open device is kept. *)
Definition io_effect (o : nat) (st st' : dev_state) : Prop :=
  exists d d', st.1 !! o = Some d /\ st'.1 = <[o := d']> st.1 /\ dev_ref_count d' = dev_ref_count d /\ is_open d' = is_open d.

(** Counting is the business of device.c and only an opening that succeeds may
    change the mark of an open device: [rt_device_open] sets it and
    [rt_device_close] clears it itself.  A driver that counts its openings in the
    same field, as [pipe_fops_open] of pipe.c does when the pipe is opened as a
    file, is outside of this contract. *)
Class Driver (ops : nat -> device_ops) := {
  drv_init : forall o f st, op_init (ops o) = Some f -> is_Some (st.1 !! o) ->
    wp f (fun _ st' => io_effect o st st') st;
  drv_open : forall o f oflag st, op_open (ops o) = Some f -> is_Some (st.1 !! o) ->
    wp (f oflag) (fun r st' => driver_effect o st st' /\ (opened r = false -> io_effect o st st')) st;
  drv_close : forall o f st, op_close (ops o) = Some f -> is_Some (st.1 !! o) ->
    wp f (fun _ st' => driver_effect o st st') st;
  drv_read : forall o f pos size st, op_read (ops o) = Some f -> is_Some (st.1 !! o) ->
    wp (f pos size) (fun _ st' => io_effect o st st') st;
  drv_write : forall o f pos data st, op_write (ops o) = Some f -> is_Some (st.1 !! o) ->
    wp (f pos data) (fun _ st' => io_effect o st st') st;
  drv_control : forall o f cmd st, op_control (ops o) = Some f -> is_Some (st.1 !! o) ->
    wp (f cmd) (fun _ st' => io_effect o st st') st
}.

Lemma io_effect_refl o st : is_Some (st.1 !! o) -> io_effect o st st.
Proof. intros [d Hd]. exists d, d. rewrite insert_id by done. done. Qed.

Section specs.
Context (ops : nat -> device_ops) `{!Driver ops}.
Context (m : gmap nat rt_device) (s : kstate) (o : nat) (d : rt_device) (Hd : m !! o = Some d).

Lemma has_lor_same x f : f ≠ 0 -> has (Z.lor x f) f = true.
Proof.
  intros Hf. unfold has. apply negb_true_iff, Z.eqb_neq. rewrite Z.land_comm, Z.land_lor_distr_r, Z.land_diag.
  intros E%Z.lor_eq_0_iff. by destruct E.
Qed.

(** The driver's initialisation, or none. *)
Lemma wp_driver_init :
  wp (match op_init (ops o) with Some init => init | None => mret RT_EOK end) (fun _ st' => io_effect o (m, s) st') (m, s).
Proof.
  destruct (op_init (ops o)) as [f|] eqn:Ef; [eapply drv_init; [done|by exists d]|].
  apply wp_ret, io_effect_refl. by exists d.
Qed.

(** The device after the first part of an opening: activated, or as it was. *)
Lemma wp_open_activate :
  wp (open_activate ops o) (fun failed st' => exists d', st'.1 = <[o := d']> m /\
    dev_ref_count d' = dev_ref_count d /\ is_open d' = is_open d /\
    (failed = None -> activated d' = true)) (m, s).
Proof.
  unfold open_activate. apply wp_bind. eapply wp_get_obj; [exact Hd|].
  apply wp_if; intros E; to_prop.
  2: { apply wp_ret. exists d. by rewrite insert_id. }
  apply wp_bind. eapply wp_mono; [|exact wp_driver_init]. intros r [m1 s1] (d1 & d2 & Hd1 & Em & Hr & Ho). simpl in Hd1, Em.
  rewrite Hd in Hd1. injection Hd1 as <-. subst m1. apply wp_if; intros Er; to_prop.
  - apply wp_ret. by exists d2.
  - apply wp_bind. eapply wp_upd_obj; [apply lookup_insert_eq|]. apply wp_ret. simpl. rewrite insert_insert_eq.
    eexists. split; [done|]. split; [done|]. split; [done|]. intros _. by apply has_lor_same.
Qed.

Lemma opened_ok : opened RT_EOK = true.
Proof. done. Qed.

(** The driver's part of an opening. *)
Lemma wp_driver_open m1 s1 d1 oflag :
  m1 !! o = Some d1 ->
  wp (match op_open (ops o) with
      | Some open => open oflag
      | None => upd_obj o (set_dev_open_flag (Z.land oflag RT_DEVICE_OFLAG_MASK));; mret RT_EOK
      end) (fun r st' => exists d', st'.1 = <[o := d']> m1 /\ dev_ref_count d' = dev_ref_count d1 /\
        (opened r = false -> is_open d' = is_open d1)) (m1, s1).
Proof.
  intros H1. destruct (op_open (ops o)) as [f|] eqn:Ef.
  - eapply wp_mono; [|eapply drv_open; [exact Ef|by exists d1]]. intros r [m2 s2] [E1 E2]. destruct (opened r).
    + destruct E1 as (d2 & g & Hd2 & Em & Hr). simpl in *. rewrite H1 in Hd2. injection Hd2 as <-. by exists g.
    + destruct (E2 eq_refl) as (d2 & g & Hd2 & Em & Hr & Eg). simpl in *. rewrite H1 in Hd2. injection Hd2 as <-. by exists g.
  - apply wp_bind. eapply wp_upd_obj; [exact H1|]. apply wp_ret. by eexists.
Qed.

Lemma wp_device_close :
  0 <= dev_ref_count d < 256 ->
  wp (rt_device_close ops o) (fun r st' =>
    if dev_ref_count d =? 0 then r = - RT_ERROR /\ st' = (m, s)
    else exists d', st'.1 = <[o := d']> m /\ dev_ref_count d' = dev_ref_count d - 1 /\
      if dev_ref_count d =? 1 then (opened r = true -> dev_open_flag d' = RT_DEVICE_OFLAG_CLOSE)
      else r = RT_EOK /\ is_open d' = is_open d /\ st'.2 = s) (m, s).
Proof.
  intros Hc. unfold rt_device_close. apply wp_bind. eapply wp_get_obj; [exact Hd|].
  destruct (Z.eqb_spec (dev_ref_count d) 0) as [|Hne]; [by apply wp_ret|].
  apply wp_bind. eapply wp_upd_obj; [exact Hd|]. apply wp_bind. eapply wp_get_obj; [apply lookup_insert_eq|]. simpl.
  rewrite u8_small by lia. destruct (Z.eqb_spec (dev_ref_count d) 1) as [E1|Hn1].
  - rewrite E1. change (negb (1 - 1 =? 0)) with false. cbv iota. apply wp_bind.
    set (d1 := set_dev_ref_count _ d).
    assert (wp (match op_close (ops o) with Some close => close | None => mret RT_EOK end)
      (fun _ st' => exists d', st'.1 = <[o := d']> m /\ dev_ref_count d' = dev_ref_count d1) (<[o := d1]> m, s)) as Hcl.
    { destruct (op_close (ops o)) as [f|] eqn:Ef.
      - eapply wp_mono; [|eapply drv_close; [exact Ef|exists d1; apply lookup_insert_eq]].
        intros r [m2 s2] (d2 & g & Hd2 & Em & Hr). simpl in *. rewrite lookup_insert_eq in Hd2. injection Hd2 as <-.
        rewrite insert_insert_eq in Em. by exists g.
      - apply wp_ret. by exists d1. }
    eapply wp_mono; [|exact Hcl]. intros r [m2 s2] (d2 & Em & Hr). simpl in Em, Hr. subst m2. apply wp_bind, wp_if; intros Eo.
    + eapply wp_upd_obj; [apply lookup_insert_eq|]. apply wp_ret. simpl. rewrite insert_insert_eq.
      eexists. split; [done|]. simpl. split; [lia|done].
    + apply wp_ret, wp_ret. eexists. split; [done|]. split; [lia|]. by rewrite Eo.
  - rewrite (proj2 (Z.eqb_neq (dev_ref_count d - 1) 0)) by lia. apply wp_ret. by eexists.
Qed.

(** Reading, writing and controlling leave the count and the mark of an open
    device alone. *)
Definition untouched (st' : dev_state) : Prop :=
  exists d', st'.1 = <[o := d']> m /\ dev_ref_count d' = dev_ref_count d /\ is_open d' = is_open d.

Lemma io_untouched {A} (f : M dev_state A) :
  wp f (fun _ st' => io_effect o (m, s) st') (m, s) -> wp f (fun _ st' => untouched st') (m, s).
Proof.
  apply wp_mono. intros r [m1 s1] (d1 & g & Hd1 & Em & Hr & Eo). simpl in *. rewrite Hd in Hd1. injection Hd1 as <-.
  by exists g.
Qed.

Lemma untouched_kernel s' : untouched (m, s').
Proof. exists d. by rewrite insert_id. Qed.

(** An opening that returned, whatever the count was. *)
Lemma open_inv oflag r st' :
  0 <= dev_ref_count d < 256 -> rt_device_open ops o oflag (m, s) = Ok r st' ->
  exists d', st'.1 = <[o := d']> m /\
    if did_open ops o (m, s) r then dev_ref_count d' = dev_ref_count d + 1 /\ dev_ref_count d < 255 /\ is_open d' = true
    else dev_ref_count d' = dev_ref_count d /\ is_open d' = is_open d.
Proof.
  intros Hc H. unfold rt_device_open in H. run_inv H. unfold did_open, ret. rewrite E.
  apply (wp_inv _ _ _ _ _ wp_open_activate) in E as (d1 & Em & Hr & Ho & _).
  destruct st as [m1 s1]. simpl in Em. subst m1. destruct a as [r0|].
  { injection H as <- <-. by exists d1. }
  run_inv H. apply get_obj_inv in E as [-> E]. simpl in E. rewrite lookup_insert_eq in E. injection E as <-.
  destruct (_ && _); [injection H as <- <-; by exists d1|].
  run_inv H. apply (wp_inv _ _ _ _ _ (wp_driver_open _ _ d1 oflag (lookup_insert_eq _ _ _))) in E as (d2 & Em & Hr2 & Ef).
  destruct st as [m2 s2]. simpl in Em. rewrite insert_insert_eq in Em. subst m2. run_inv H. destruct (opened a) eqn:Eo.
  - rewrite (bind_Ok _ _ _ _ _ (run_upd_obj _ _ _ _ _ (lookup_insert_eq _ _ _))) in E.
    rewrite (bind_Ok _ _ _ _ _ (run_upd_obj _ _ _ _ _ (lookup_insert_eq _ _ _))) in E.
    rewrite (bind_Ok _ _ _ _ _ (run_get_obj _ _ _ _ (lookup_insert_eq _ _ _))) in E. simpl in E. rewrite !insert_insert_eq, Hr2, Hr in E.
    destruct (Z.eq_dec (dev_ref_count d) 255) as [E255|Hlt]; [exfalso; by rewrite E255 in E|].
    rewrite u8_small, (proj2 (Z.eqb_neq _ _)) in E by lia. injection E as _ <-. injection H as <- <-. rewrite Eo.
    eexists. split; [done|]. simpl. split_and!; [done|lia|by apply has_lor_same].
  - injection E as _ <-. injection H as <- <-. rewrite Eo. eexists. split; [done|]. rewrite <- Ho, <- Hr. split; [done|by apply Ef].
Qed.

Lemma init_inv r st' : rt_device_init ops o (m, s) = Ok r st' -> untouched st'.
Proof.
  intros H. unfold rt_device_init in H. run_inv H. apply get_obj_inv in E as [-> E]. simpl in E. rewrite Hd in E. injection E as <-.
  pose proof wp_driver_init as Hi. destruct (op_init (ops o)) as [f|]; [|injection H as _ <-; apply untouched_kernel].
  destruct (negb (activated d)); [|injection H as _ <-; apply untouched_kernel].
  run_inv H. apply (wp_inv _ _ _ _ _ Hi) in E as (d1 & d2 & Hd1 & Em & Hr & Ho). simpl in *. rewrite Hd in Hd1. injection Hd1 as <-.
  destruct st as [m1 s1]. simpl in Em. subst m1. run_inv H. injection H as _ <-. destruct (negb (a =? RT_EOK)).
  - injection E as _ <-. by exists d2.
  - rewrite (run_upd_obj _ _ _ _ _ (lookup_insert_eq _ _ _)) in E. injection E as _ <-. simpl. rewrite insert_insert_eq. by eexists.
Qed.
End specs.

(** ** Counting openings

    Calls on any devices in any order, with arbitrary kernel steps between
    them. *)

Inductive dev_event := Opened (p : nat) | Closed (p : nat) | Neither.

Definition open_event (ops : nat -> device_ops) (p : nat) (st : dev_state) (r : Z) : dev_event :=
  if did_open ops p st r then Opened p else Neither.
Definition close_event (p : nat) (st : dev_state) : dev_event :=
  match st.1 !! p with Some d => if dev_ref_count d =? 0 then Neither else Closed p | None => Neither end.

Inductive dev_step (ops : nat -> device_ops) : dev_state -> dev_event -> dev_state -> Prop :=
| dev_step_open p oflag st r st' : rt_device_open ops p oflag st = Ok r st' -> dev_step ops st (open_event ops p st r) st'
| dev_step_close p st r st' : rt_device_close ops p st = Ok r st' -> dev_step ops st (close_event p st) st'
| dev_step_read p pos size st r st' : rt_device_read ops p pos size st = Ok r st' -> dev_step ops st Neither st'
| dev_step_write p pos data st r st' : rt_device_write ops p pos data st = Ok r st' -> dev_step ops st Neither st'
| dev_step_control p cmd st r st' : rt_device_control ops p cmd st = Ok r st' -> dev_step ops st Neither st'
| dev_step_init p st r st' : rt_device_init ops p st = Ok r st' -> dev_step ops st Neither st'
| dev_step_rx_indicate p f st r st' : rt_device_set_rx_indicate p f st = Ok r st' -> dev_step ops st Neither st'
| dev_step_tx_complete p f st r st' : rt_device_set_tx_complete p f st = Ok r st' -> dev_step ops st Neither st'
| dev_step_kernel m s s' : dev_step ops (m, s) Neither (m, s').

Inductive dev_steps (ops : nat -> device_ops) : dev_state -> list dev_event -> dev_state -> Prop :=
| dev_steps_nil st : dev_steps ops st [] st
| dev_steps_snoc st st' st'' tr e :
    dev_steps ops st tr st' -> dev_step ops st' e st'' -> dev_steps ops st (tr ++ [e]) st''.

(** The openings of [o] that have not been closed. *)
Definition delta (o : nat) (e : dev_event) : Z :=
  match e with
  | Opened p => if decide (p = o) then 1 else 0
  | Closed p => if decide (p = o) then -1 else 0
  | Neither => 0
  end.
Definition openings (o : nat) (tr : list dev_event) : Z := foldr (fun e n => delta o e + n) 0 tr.

Lemma openings_snoc o tr e : openings o (tr ++ [e]) = openings o tr + delta o e.
Proof. induction tr as [|x tr IH]; simpl; [lia|]. rewrite IH. lia. Qed.

(** A count in range, and a counted device is marked as open. *)
Definition dev_ok (d : rt_device) : Prop := 0 <= dev_ref_count d < 256 /\ (0 < dev_ref_count d -> is_open d = true).
Definition devices_ok (m : gmap nat rt_device) : Prop := forall o d, m !! o = Some d -> dev_ok d.

Lemma devices_ok_insert m o d : devices_ok m -> dev_ok d -> devices_ok (<[o := d]> m).
Proof. intros H Hd p x. destruct (decide (p = o)) as [->|]; [rewrite lookup_insert_eq; by intros [= <-]|rewrite lookup_insert_ne by done; apply H]. Qed.

Section counting.
Context (ops : nat -> device_ops) `{!Driver ops}.

(** The store after one step: every count has changed by the step's share. *)
Definition counted (e : dev_event) (m m' : gmap nat rt_device) : Prop :=
  devices_ok m' /\ forall o d, m !! o = Some d -> exists d', m' !! o = Some d' /\ dev_ref_count d' = dev_ref_count d + delta o e.

Lemma counted_insert e m p d d' :
  devices_ok m -> m !! p = Some d -> dev_ok d' -> dev_ref_count d' = dev_ref_count d + delta p e ->
  (forall q, q ≠ p -> delta q e = 0) -> counted e m (<[p := d']> m).
Proof.
  intros Hm Hd Hok Hc Hne. split; [by apply devices_ok_insert|]. intros q x Hq. destruct (decide (q = p)) as [->|Hqp].
  - rewrite Hd in Hq. injection Hq as <-. exists d'. by rewrite lookup_insert_eq.
  - exists x. rewrite lookup_insert_ne by done. split; [done|]. rewrite Hne by done. lia.
Qed.

Lemma counted_untouched m p d (st' : dev_state) : devices_ok m -> m !! p = Some d -> untouched m p d st' -> counted Neither m st'.1.
Proof.
  intros Hm Hd (d' & -> & Hr & Ho). destruct (Hm _ _ Hd) as [H1 H2]. apply (counted_insert _ _ _ d); try done.
  - split; [lia|]. rewrite Hr, Ho. done.
  - rewrite Hr. simpl. lia.
Qed.

Lemma counted_same m : devices_ok m -> counted Neither m m.
Proof. intros Hm. split; [done|]. intros o d Hd. exists d. split; [done|]. simpl. lia. Qed.

Lemma delta_other p q : q ≠ p -> delta q (Opened p) = 0 /\ delta q (Closed p) = 0.
Proof. intros Hne. simpl. by rewrite !decide_False. Qed.

Lemma open_counted p oflag m s r st' :
  devices_ok m -> rt_device_open ops p oflag (m, s) = Ok r st' -> counted (open_event ops p (m, s) r) m st'.1.
Proof.
  intros Hm H. assert (exists d, m !! p = Some d) as [d Hd].
  { unfold rt_device_open, open_activate in H. run_inv H. run_inv E. apply get_obj_inv in E0 as [-> E0]. by exists a0. }
  destruct (Hm _ _ Hd) as [Hc Ho]. destruct (open_inv ops m s p d Hd oflag r st' Hc H) as (d' & -> & Hr).
  unfold open_event. destruct (did_open _ _ _ _).
  - destruct Hr as (Hr & Hlt & Hop). apply (counted_insert _ _ _ d); try done.
    + split; [lia|done].
    + simpl. rewrite decide_True; [lia|done].
    + intros q Hq. by apply delta_other.
  - destruct Hr as [Hr Hop]. apply (counted_insert _ _ _ d); try done; [|simpl; lia]. split; [lia|]. by rewrite Hr, Hop.
Qed.

Lemma close_counted p m s r st' :
  devices_ok m -> rt_device_close ops p (m, s) = Ok r st' -> counted (close_event p (m, s)) m st'.1.
Proof.
  intros Hm H. assert (exists d, m !! p = Some d) as [d Hd].
  { unfold rt_device_close in H. run_inv H. apply get_obj_inv in E as [-> E]. by exists a. }
  destruct (Hm _ _ Hd) as [Hc Ho]. pose proof (wp_inv _ _ _ _ _ (wp_device_close ops m s p d Hd Hc) H) as Hr.
  unfold close_event. simpl. rewrite Hd. destruct (Z.eqb_spec (dev_ref_count d) 0) as [E|E].
  - destruct Hr as [_ ->]. by apply counted_same.
  - destruct Hr as (d' & -> & Hr & Hrest). apply (counted_insert _ _ _ d); try done.
    + split; [lia|]. intros Hpos. rewrite (proj2 (Z.eqb_neq _ _)) in Hrest by lia. destruct Hrest as (_ & -> & _). apply Ho. lia.
    + simpl. rewrite decide_True; [lia|done].
    + intros q Hq. by apply delta_other.
Qed.

(** A call that looks the device up and then leaves it alone. *)
Lemma lookup_counted {A} p (k : rt_device -> M dev_state A) m s r st' :
  devices_ok m -> (d ← get_obj p; k d) (m, s) = Ok r st' ->
  (forall d, m !! p = Some d -> k d (m, s) = Ok r st' -> untouched m p d st') -> counted Neither m st'.1.
Proof.
  intros Hm H Hk. run_inv H. apply get_obj_inv in E as [-> E]. simpl in E. apply (counted_untouched m p a); [done|done|]. by apply Hk.
Qed.

Lemma untouched_errno {A} m s p d e (x : A) r st' :
  m !! p = Some d -> (on_snd (rt_set_errno e);; mret x : M dev_state A) (m, s) = Ok r st' -> untouched m p d st'.
Proof.
  intros Hd H. run_inv H. apply on_snd_inv in E as [E _]. injection H as _ <-. destruct st as [m1 s1]. simpl in E. subst m1.
  by apply untouched_kernel.
Qed.

(** A field of the device that is neither the count nor the mark is set. *)
Lemma upd_counted p (f : rt_device -> rt_device) (x : Z) m s r st' :
  devices_ok m -> (forall d, dev_ref_count (f d) = dev_ref_count d /\ is_open (f d) = is_open d) ->
  (upd_obj p f;; mret x : M dev_state Z) (m, s) = Ok r st' -> counted Neither m st'.1.
Proof.
  intros Hm Hf H. run_inv H. apply upd_obj_inv in E as (d & Hd & ->). injection H as _ <-.
  apply (counted_untouched m p d); [done|done|]. exists (f d). split; [done|apply Hf].
Qed.

Lemma init_counted p m s r st' : devices_ok m -> rt_device_init ops p (m, s) = Ok r st' -> counted Neither m st'.1.
Proof.
  intros Hm H. assert (exists d, m !! p = Some d) as [d Hd].
  { unfold rt_device_init in H. run_inv H. apply get_obj_inv in E as [-> E]. by exists a. }
  apply (counted_untouched m p d); [done|done|]. by eapply init_inv.
Qed.

Lemma dev_step_counted st e st' : dev_step ops st e st' -> devices_ok st.1 -> counted e st.1 st'.1.
Proof.
  intros [p oflag [m s] r st1 H|p [m s] r st1 H|p pos size [m s] r st1 H|p pos data [m s] r st1 H|p cmd [m s] r st1 H|
    p [m s] r st1 H|p f [m s] r st1 H|p f [m s] r st1 H|m s s'] Hm.
  - by eapply open_counted.
  - by eapply close_counted.
  - apply (lookup_counted p _ m s r _ Hm H). intros d Hd. destruct (_ =? 0); [by apply untouched_errno|].
    destruct (op_read (ops p)) as [f|] eqn:Ef; [|by apply untouched_errno]. apply (wp_inv _ (fun _ st' => untouched m p d st')).
    apply io_untouched; [done|]. eapply drv_read; [exact Ef|by exists d].
  - apply (lookup_counted p _ m s r _ Hm H). intros d Hd. destruct (_ =? 0); [by apply untouched_errno|].
    destruct (op_write (ops p)) as [f|] eqn:Ef; [|by apply untouched_errno]. apply (wp_inv _ (fun _ st' => untouched m p d st')).
    apply io_untouched; [done|]. eapply drv_write; [exact Ef|by exists d].
  - apply (lookup_counted p _ m s r _ Hm H). intros d Hd.
    destruct (op_control (ops p)) as [f|] eqn:Ef; [|intros [= _ <-]; by apply untouched_kernel]. apply (wp_inv _ (fun _ st' => untouched m p d st')).
    apply io_untouched; [done|]. eapply drv_control; [exact Ef|by exists d].
  - by eapply init_counted.
  - by apply (upd_counted p (set_dev_rx_indicate f) RT_EOK m s r).
  - by apply (upd_counted p (set_dev_tx_complete f) RT_EOK m s r).
  - by apply counted_same.
Qed.

(** C40: whatever calls of the device interface (init, open, close, read, write,
    control, setting the callbacks) on whatever devices are interleaved and
    return, with drivers that leave the reference count of their device, the mark
    of an open device and other devices alone (an opening that succeeds may
    change the mark), the reference count of a device is the number of its
    successful openings minus its closings, it never leaves 0..255, and as long
    as it is positive the device is marked as open.  An opening is successful
    when the initialisation does not fail and the driver answers [RT_EOK] or
    [-RT_ENOSYS]. *)
Theorem device_refcount st0 tr st o d0 :
  devices_ok st0.1 -> st0.1 !! o = Some d0 -> dev_steps ops st0 tr st ->
  exists d, st.1 !! o = Some d /\ dev_ref_count d = dev_ref_count d0 + openings o tr /\ dev_ok d.
Proof.
  intros Hm Hd Hst.
  cut (devices_ok st.1 /\ exists d, st.1 !! o = Some d /\ dev_ref_count d = dev_ref_count d0 + openings o tr).
  { intros (Hok & d & H1 & H2). exists d. split; [done|]. split; [done|]. by eapply Hok. }
  induction Hst as [st|st st' st'' tr e Hs IH He].
  - split; [done|]. exists d0. split; [done|]. simpl. lia.
  - destruct (IH Hm Hd) as (Hok & d & H1 & H2). destruct (dev_step_counted _ _ _ He Hok) as [Hok' Hc].
    split; [done|]. destruct (Hc o d H1) as (d' & H1' & H2'). exists d'. split; [done|]. rewrite openings_snoc. lia.
Qed.
End counting.

(** ** A close that fails

    The count is taken down before the driver is asked.  When the driver's
    close fails, the count is 0 and the device still marked as open: a
    standalone device can then neither be opened nor closed again. *)
Theorem failed_close_locks ops o m s d r (f : M dev_state Z) oflag :
  m !! o = Some d -> dev_ref_count d = 1 -> activated d = true -> is_open d = true ->
  has (dev_flag d) RT_DEVICE_FLAG_STANDALONE = true ->
  op_close (ops o) = Some f -> opened r = false -> (forall st, f st = Ok r st) ->
  exists m', rt_device_close ops o (m, s) = Ok r (m', s) /\
    rt_device_open ops o oflag (m', s) = Ok (- RT_EBUSY) (m', s) /\
    rt_device_close ops o (m', s) = Ok (- RT_ERROR) (m', s).
Proof.
  intros Hd Hc Ha Ho Hs Hf Hr Hrun. exists (<[o := set_dev_ref_count 0 d]> m). split_and!.
  - unfold rt_device_close. run_step (run_get_obj _ s _ _ Hd). rewrite Hc. change (1 =? 0) with false. cbv iota.
    run_step (run_upd_obj _ s _ (fun d => set_dev_ref_count (u8 (dev_ref_count d - 1)) d) _ Hd). rewrite Hc. change (u8 (1 - 1)) with 0.
    rewrite (bind_Ok _ _ _ _ _ (run_get_obj _ _ _ _ (lookup_insert_eq _ _ _))). simpl. rewrite Hf.
    run_step (Hrun (<[o := set_dev_ref_count 0 d]> m, s)). rewrite Hr. done.
  - unfold rt_device_open, open_activate. erewrite bind_Ok.
    2: { rewrite (bind_Ok _ _ _ _ _ (run_get_obj _ _ _ _ (lookup_insert_eq _ _ _))). change (activated (set_dev_ref_count 0 d)) with (activated d).
         rewrite Ha. reflexivity. }
    cbv iota. rewrite (bind_Ok _ _ _ _ _ (run_get_obj _ _ _ _ (lookup_insert_eq _ _ _))).
    change (dev_flag (set_dev_ref_count 0 d)) with (dev_flag d). change (is_open (set_dev_ref_count 0 d)) with (is_open d).
    by rewrite Hs, Ho.
  - unfold rt_device_close. by rewrite (bind_Ok _ _ _ _ _ (run_get_obj _ _ _ _ (lookup_insert_eq _ _ _))).
Qed.

(** ** The console *)

Definition RT_CONSOLEBUF_SIZE : Z := 128.

(** [_console_device] and the memory that holds [rt_log_buf]. *)
Record console := mk_con { con_device : option nat; con_memory : memory }.
Definition con_state : Type := console * dev_state.
Definition set_con_device (v : option nat) (c : console) : console := mk_con v (con_memory c).
Definition set_con_memory (v : memory) (c : console) : console := mk_con (con_device c) v.

Section console.
Context (ops : nat -> device_ops).
(** [rt_hw_console_output], which the board may replace. *)
Context (rt_hw_console_output : list Z -> M dev_state unit).
(** The address of [rt_log_buf]. *)
Context (rt_log_buf : Z).

Definition rt_console_get_device : M con_state (option nat) := gets (fun st => con_device st.1).

Definition rt_console_set_device (name : list Z) : M con_state (option nat) :=
  old ← gets (fun st => con_device st.1);
  new ← on_snd (rt_device_find name);
  (match new with
   | None => mret tt
   | Some new =>
       (match old with Some old => on_snd (rt_device_close ops old);; mret tt | None => mret tt end);;
       on_snd (rt_device_open ops new (Z.lor RT_DEVICE_OFLAG_RDWR RT_DEVICE_FLAG_STREAM));;
       modify (fun st => (set_con_device (Some new) st.1, st.2))
   end);;
  mret old.

(** The writes of [rt_kputs] and [rt_kprintf] to the device. *)
Definition write_stream (o : nat) (data : list Z) : M dev_state unit :=
  d ← get_obj o;
  let old_flag := dev_open_flag d in
  upd_obj o (fun d => set_dev_open_flag (Z.lor (dev_open_flag d) RT_DEVICE_FLAG_STREAM) d);;
  rt_device_write ops o 0 data;;
  upd_obj o (set_dev_open_flag old_flag).

Definition rt_kputs (str : option (list Z)) : M con_state unit :=
  match str with
  | None => mret tt
  | Some str =>
      c ← gets (fun st => con_device st.1);
      on_snd (match c with None => rt_hw_console_output str | Some o => write_stream o str end)
  end.

(** The bytes at [a], and the string at [a]. *)
Definition read_bytes (m : memory) (a n : Z) : option (list Z) := mapM (fun i => m !! (a + i)) (seqZ 0 n).
Fixpoint read_string (fuel : nat) (m : memory) (a : Z) : option (list Z) :=
  match fuel with
  | O => None
  | S fuel => c ← m !! a; if c =? 0 then Some [] else l ← read_string fuel m (a + 1); Some (c :: l)
  end.

Definition rt_kprintf (fmt : list Z) (args : list va_arg) : M con_state unit :=
  st ← get;
  match rt_vsnprintf rt_log_buf (RT_CONSOLEBUF_SIZE - 1) fmt args (con_memory st.1) with
  | Fault => fault
  | Ok r mem =>
      modify (fun st => (set_con_memory mem st.1, st.2));;
      let length := if RT_CONSOLEBUF_SIZE - 1 <? u32 r then RT_CONSOLEBUF_SIZE - 1 else u32 r in
      match con_device st.1 with
      | None =>
          str ← deref (fun _ => read_string (string_fuel mem) mem rt_log_buf);
          on_snd (rt_hw_console_output str)
      | Some o =>
          data ← deref (fun _ => read_bytes mem rt_log_buf length);
          on_snd (write_stream o data)
      end
  end.

(** ** What the console shows *)

(** A text that fits into the buffer arrives as it is; a longer one arrives cut
    to 126 characters, followed by the terminating 0 of the buffer. *)
Definition console_data (text : list Z) : list Z :=
  if decide (length text < 127)%nat then u8 <$> text else (u8 <$> take 126 text) ++ [0].

Lemma read_holds m a l : holds m a l -> read_bytes m a (Z.of_nat (length l)) = Some l.
Proof.
  intros H. unfold read_bytes. apply mapM_Some_2. apply Forall2_same_length_lookup_2; [by rewrite length_seqZ, Nat2Z.id|].
  intros i j x Hi Hx. apply lookup_seqZ in Hi as [-> Hi]. rewrite Z.add_0_l. by apply H.
Qed.

Lemma holds_prefix m a l l' : holds m a l -> l' `prefix_of` l -> holds m a l'.
Proof. intros H [k ->]. by apply holds_app in H as [? _]. Qed.

(** [rt_kprintf] on a console device passes the text of the format to the
    device in one write, and a text of 127 characters or more cut to 126 and
    with a 0 byte behind it; beyond its log buffer it changes nothing of the
    memory. *)
Theorem rt_kprintf_correct fmt args text mem o st :
  0 <= rt_log_buf -> mapped mem rt_log_buf RT_CONSOLEBUF_SIZE -> format_text fmt args = Some text ->
  rt_log_buf + Z.of_nat (length text + percents fmt) < 2 ^ 31 -> rt_log_buf < 2 ^ 31 - 128 ->
  exists mem', (forall a, a < rt_log_buf \/ rt_log_buf + RT_CONSOLEBUF_SIZE <= a -> mem' !! a = mem !! a) /\
    rt_kprintf fmt args (mk_con (Some o) mem, st)
    = match write_stream o (console_data text) st with
      | Ok a st' => Ok a (mk_con (Some o) mem', st')
      | Fault => Fault
      end.
Proof.
  unfold RT_CONSOLEBUF_SIZE. intros Hb Hm Ht HL HL'.
  destruct (run_vsnprintf_end rt_log_buf 127 fmt args mem text) as (r & E & Hr & Hr2);
    rewrite ?(end_of_size rt_log_buf 127) by lia; [lia|done|done|apply (mapped_le _ _ 128); [done|lia]|].
  rewrite (end_of_size rt_log_buf 127) in E, Hr by lia. replace (rt_log_buf + 127 - 1 - rt_log_buf + 1) with 127 in E, Hr by lia.
  change (Z.to_nat 127) with 127%nat in *. set (mem' := set_bytes _ _ mem) in E. exists mem'. split.
  { intros a Ha. unfold mem'. pose proof (cut_length 127 text ltac:(lia)). rewrite lookup_set_bytes, decide_False by lia. done. }
  unfold rt_kprintf. unfold get at 1. erewrite bind_Ok by reflexivity. cbn [fst con_memory con_device].
  change (RT_CONSOLEBUF_SIZE - 1) with 127. rewrite E. erewrite bind_Ok by reflexivity.
  assert (read_bytes mem' rt_log_buf (if 127 <? u32 r then 127 else u32 r) = Some (console_data text)) as Hread.
  { assert (holds mem' rt_log_buf (cut 127 text)) as Hc by apply set_bytes_holds. unfold console_data, cut in *.
    change (127 - 1)%nat with 126%nat in Hc. case_decide as Hlen.
    - rewrite Hr, u32_small by lia. destruct (Z.ltb_spec 127 (Z.of_nat (length text))); [lia|].
      rewrite take_ge in Hc by lia. rewrite <- (length_fmap u8). apply read_holds.
      eapply holds_prefix; [exact Hc|]. by apply prefix_app_r.
    - rewrite u32_small by lia. assert ((if 127 <? r then 127 else r) = 127) as -> by (destruct (Z.ltb_spec 127 r); lia).
      apply read_holds in Hc. rewrite length_app, length_fmap, length_take in Hc. cbn [length] in Hc.
      by replace (Z.of_nat (126 `min` length text + 1)) with 127 in Hc by lia. }
  unfold deref at 1. rewrite Hread. erewrite bind_Ok by reflexivity. unfold on_snd. cbn [fst snd].
  by destruct (write_stream o (console_data text) st).
Qed.
End console.

(** ** Witnesses *)

(** A driver that takes every write and whose control changes the flags of the
    device, as that of a serial device does, and one whose close fails. *)
Definition demo_write (pos : Z) (data : list Z) : M dev_state Z := mret (Z.of_nat (length data)).
Definition demo_control (o : nat) (cmd : Z) : M dev_state Z :=
  upd_obj o (fun d => set_dev_flag (Z.lor (dev_flag d) 32) d);; mret RT_EOK.
Definition demo_ops (o : nat) : device_ops := mk_ops None None None None (Some demo_write) (Some (demo_control o)).
Definition stuck_ops (o : nat) : device_ops := mk_ops None None (Some (mret (- RT_ERROR))) None None None.

#[global] Instance demo_driver : Driver demo_ops.
Proof.
  split; intros o; [intros f st|intros f oflag st|intros f st|intros f pos size st|intros f pos data st|intros f cmd [m s]];
    intros Ho Hd; simplify_eq/=; [by apply io_effect_refl|].
  destruct Hd as [d Hd]. unfold demo_control. apply wp_bind. eapply wp_upd_obj; [exact Hd|]. apply wp_ret.
  by eexists d, _.
Qed.

Definition demo_device (flag open_flag ref : Z) : rt_device := mk_dev 0 flag open_flag ref None None.
Definition demo_devs : gmap nat rt_device := {[1%nat := demo_device 0 0 0]}.
Definition demo_open1 : dev_state := run (rt_device_open demo_ops 1 3) (demo_devs, demo).
Definition demo_open2 : dev_state := run (rt_device_open demo_ops 1 3) demo_open1.
Definition demo_close : dev_state := run (rt_device_close demo_ops 1) demo_open2.

Lemma demo_devs_ok : devices_ok demo_devs.
Proof. intros o d H. unfold demo_devs in H. apply lookup_singleton_Some in H as [_ <-]. split; simpl; lia. Qed.

Lemma dev_step_open_at ops p oflag st r st' e :
  rt_device_open ops p oflag st = Ok r st' -> open_event ops p st r = e -> dev_step ops st e st'.
Proof. intros H <-. by eapply dev_step_open. Defined.

(** Two openings and one closing leave a count of 1. *)
Lemma device_refcount_witness :
  exists d, demo_close.1 !! 1%nat = Some d /\ dev_ref_count d = 1 /\ dev_ok d.
Proof.
  destruct (device_refcount demo_ops (demo_devs, demo) [Opened 1; Opened 1; Closed 1] demo_close 1 (demo_device 0 0 0)
    demo_devs_ok) as (d & H1 & H2 & H3).
  - reflexivity.
  - apply (dev_steps_snoc _ _ demo_open2 _ [Opened 1; Opened 1] (Closed 1)).
    + apply (dev_steps_snoc _ _ demo_open1 _ [Opened 1] (Opened 1)).
      * apply (dev_steps_snoc _ _ (demo_devs, demo) _ [] (Opened 1)); [constructor|].
        apply (dev_step_open_at _ 1 3 _ RT_EOK); [refine (ret_Ok (rt_device_open demo_ops 1 3) _ _ _); vm_compute; reflexivity|].
        vm_compute. reflexivity.
      * apply (dev_step_open_at _ 1 3 _ RT_EOK); [refine (ret_Ok (rt_device_open demo_ops 1 3) _ _ _); vm_compute; reflexivity|].
        vm_compute. reflexivity.
    + refine (dev_step_close demo_ops 1 demo_open2 RT_EOK _ _).
      refine (ret_Ok (rt_device_close demo_ops 1) _ _ _). vm_compute. reflexivity.
  - exists d. split; [exact H1|]. split; [exact H2|exact H3].
Defined.

Lemma failed_close_locks_witness :
  exists m', rt_device_close stuck_ops 1 ({[1%nat := demo_device 24 8 1]}, demo) = Ok (- RT_ERROR) (m', demo) /\
    rt_device_open stuck_ops 1 0 (m', demo) = Ok (- RT_EBUSY) (m', demo).
Proof.
  destruct (failed_close_locks stuck_ops 1 {[1%nat := demo_device 24 8 1]} demo (demo_device 24 8 1) (- RT_ERROR)
    (mret (- RT_ERROR)) 0) as (m' & E1 & E2 & _).
  - reflexivity.
  - reflexivity.
  - reflexivity.
  - reflexivity.
  - reflexivity.
  - reflexivity.
  - reflexivity.
  - intros st. reflexivity.
  - exists m'. split; [exact E1|exact E2].
Defined.

(** [n=%d] with 5: four characters in one write. *)
Definition demo_log : memory := set_bytes 4096 (replicate 128 0) ∅.
Lemma rt_kprintf_correct_witness :
  exists mem', rt_kprintf demo_ops (fun _ => mret tt) 4096 [110; 61; 37; 100] [VInt 5] (mk_con (Some 1%nat) demo_log, demo_open1)
  = match write_stream demo_ops 1 [110; 61; 53] demo_open1 with
    | Ok a st' => Ok a (mk_con (Some 1%nat) mem', st')
    | Fault => Fault
    end.
Proof.
  destruct (rt_kprintf_correct demo_ops (fun _ => mret tt) 4096 [110; 61; 37; 100] [VInt 5] [110; 61; 53] demo_log 1 demo_open1)
    as (mem' & _ & E).
  - lia.
  - exact (holds_mapped _ _ _ (set_bytes_holds 4096 (replicate 128 0) ∅)).
  - vm_compute. reflexivity.
  - vm_compute. reflexivity.
  - lia.
  - exists mem'. exact E.
Defined.
