(* ===== verification/Semaphore.v ===== *)
(** * Semaphores: the semaphore part of src/ipc.c

    [rt_sem_init], [rt_sem_detach], [rt_sem_create], [rt_sem_delete],
    [rt_sem_take] (up to its [rt_schedule], and the rest of the call),
    [rt_sem_trytake], [rt_sem_release] and [rt_sem_control], on a store of
    semaphores next to the kernel state. *)

From S2P Require Import Prelude Kernel Object Timer Scheduler Thread KInv ThreadSpec Ipc TimerSpec.

(** [struct rt_semaphore]: the counter and the flag of the object header; the
    waiting list is the list [sem_head] of the kernel state. *)
Record rt_semaphore := mk_sem { sem_value : Z; sem_flag : Z }.

Definition set_sem_value (v : Z) (x : rt_semaphore) : rt_semaphore := mk_sem v (sem_flag x).

Definition sem_state : Type := gmap nat rt_semaphore * kstate.

Definition sem_ref (o : nat) : obj_ref := Obj RT_Object_Class_Semaphore o.
Definition sem_head (o : nat) : tlist_head := HSuspend RT_Object_Class_Semaphore o.

(** [rt_ipc_object_init]: [rt_list_init] on the head of the waiting list. *)
Definition rt_ipc_object_init (h : tlist_head) : M kstate Z :=
  modify (set_k_tlists (<[h := []]>));; mret RT_EOK.

Definition rt_sem_init (o : nat) (name : list Z) (value flag : Z) : M sem_state Z :=
  on_snd (rt_object_init (sem_ref o) name);;
  on_snd (rt_ipc_object_init (sem_head o));;
  put_obj o (mk_sem (u16 value) flag);;
  mret RT_EOK.

Definition rt_sem_detach (o : nat) : M sem_state Z :=
  on_snd (rt_ipc_list_resume_all (sem_head o));;
  on_snd (rt_object_detach (sem_ref o));;
  mret RT_EOK.

Definition rt_sem_create (mem : option nat) (name : list Z) (value flag : Z)
    : M sem_state (option nat) :=
  on_snd RT_DEBUG_NOT_IN_INTERRUPT;;
  r ← on_snd (rt_object_allocate RT_Object_Class_Semaphore mem name);
  match r with
  | None => mret None
  | Some o =>
      on_snd (rt_ipc_object_init (sem_head o));;
      put_obj o (mk_sem (u16 value) flag);;
      mret (Some o)
  end.

Definition rt_sem_delete (o : nat) : M sem_state Z :=
  on_snd RT_DEBUG_NOT_IN_INTERRUPT;;
  on_snd (rt_ipc_list_resume_all (sem_head o));;
  on_snd (rt_object_delete (sem_ref o));;
  del_obj o;;
  mret RT_EOK.

(** Up to the call of [rt_schedule]; the local is the calling thread. *)
Definition rt_sem_take (o : nat) (time : Z) : M sem_state (call nat Z) :=
  sem ← get_obj o;
  if 0 <? sem_value sem then
    upd_obj o (fun x => set_sem_value (sem_value x - 1) x);;
    mret (Return RT_EOK)
  else if time =? 0 then mret (Return (- RT_ETIMEOUT))
  else
    on_snd RT_DEBUG_IN_THREAD_CONTEXT;;
    t ← on_snd rt_thread_self;
    on_snd (upd_thread t (set_th_error RT_EOK);; wait_on (sem_head o) t (sem_flag sem) time);;
    mret (Waiting t).

(** From the return of [rt_schedule] on. *)
Definition rt_sem_take_resume (t : nat) : M sem_state (call nat Z) :=
  th ← on_snd (get_thread t);
  if negb (th_error th =? RT_EOK) then mret (Return (th_error th))
  else mret (Return RT_EOK).

Definition rt_sem_trytake (o : nat) : M sem_state (call nat Z) := rt_sem_take o 0.

Definition rt_sem_release (o : nat) : M sem_state Z :=
  st ← get;
  (if negb (bool_decide (tl st.2 (sem_head o) = [])) then
     on_snd (rt_ipc_list_resume (sem_head o);; rt_schedule)
   else upd_obj o (fun x => set_sem_value (u16 (sem_value x + 1)) x));;
  mret RT_EOK.

Definition rt_sem_control (o : nat) (cmd arg : Z) : M sem_state Z :=
  if cmd =? RT_IPC_CMD_RESET then
    on_snd (rt_ipc_list_resume_all (sem_head o));;
    upd_obj o (set_sem_value (u16 arg));;
    on_snd rt_schedule;;
    mret RT_EOK
  else mret (- RT_ERROR).

(** ** Behaviour of the operations *)

Section sem.
Context (m : gmap nat rt_semaphore) (s : kstate) (o : nat) (sem : rt_semaphore).
Context (Hs : m !! o = Some sem).

Lemma sem_waiting_head : waiting_head (sem_head o).
Proof. done. Qed.

(** [rt_sem_take]: with a positive value the value is decremented and
    nothing else changes; without one and with no waiting time the call fails
    with [-RT_ETIMEOUT] and changes nothing; otherwise the calling thread is
    put to sleep on the waiting list, in the order the flag asks for. *)
Theorem rt_sem_take_correct time t th :
  blocking_ctx s t th -> ipc_flag (sem_flag sem) -> time < RT_TICK_MAX / 2 ->
  wp (rt_sem_take o time) (fun r st' =>
    if decide (0 < sem_value sem) then
      r = Return RT_EOK /\ st' = (<[o := set_sem_value (sem_value sem - 1) sem]> m, s)
    else if decide (time = 0) then r = Return (- RT_ETIMEOUT) /\ st' = (m, s)
    else r = Waiting t /\ st'.1 = m /\ entered_wait (sem_head o) t th (sem_flag sem) time s st'.2) (m, s).
Proof.
  intros B Hf Htime. unfold rt_sem_take, wp. run_step (run_get_obj m s o sem Hs).
  case_decide as Hv; [rewrite (proj2 (Z.ltb_lt _ _) Hv)|rewrite (proj2 (Z.ltb_ge _ _)) by lia].
  { by run_step (run_upd_obj m s o (fun x => set_sem_value (sem_value x - 1) x) sem Hs). }
  case_decide as Ht0; [by subst|]. rewrite (proj2 (Z.eqb_neq _ _) Ht0).
  run_step (run_on_snd _ m _ _ _ (run_in_thread_context _ _ _ B)).
  run_step (run_on_snd _ m _ _ _ (run_thread_self _ _ (bc_current _ _ _ B))).
  destruct (run_enter_wait s (sem_head o) t th (sem_flag sem) time B sem_waiting_head Hf Htime) as (s' & Hr & He).
  by run_step (run_on_snd _ m _ _ _ Hr).
Qed.

Lemma sem_release_spec :
  kinv s ->
  wp (rt_sem_release o) (fun r st' =>
    r = RT_EOK /\
    match tl s (sem_head o) with
    | [] => st' = (<[o := set_sem_value (u16 (sem_value sem + 1)) sem]> m, s)
    | t :: l => st'.1 = m /\ exists th, k_threads s !! t = Some th /\ woke_first (sem_head o) t th l s st'.2
    end) (m, s).
Proof.
  intros I. unfold rt_sem_release, wp. unfold get at 1. erewrite bind_Ok by reflexivity. simpl.
  destruct (tl s (sem_head o)) as [|t l] eqn:E.
  - rewrite bool_decide_eq_true_2 by done. simpl.
    by run_step (run_upd_obj m s o (fun x => set_sem_value (u16 (sem_value x + 1)) x) sem Hs).
  - rewrite bool_decide_eq_false_2 by done. simpl.
    destruct (waiting_first _ _ _ _ I sem_waiting_head E) as (th & Ht & _).
    destruct (run_ipc_wake _ _ _ _ _ I sem_waiting_head E Ht) as (s' & Hr & Hw).
    run_step (run_on_snd _ m _ _ _ Hr). simpl. eauto.
Qed.

(** [rt_sem_release]: with a waiting thread the unit goes to the first one,
    which becomes ready, and the value stays; without one the value is
    incremented modulo 2^16. *)
Theorem rt_sem_release_correct :
  kinv s ->
  wp (rt_sem_release o) (fun r st' =>
    r = RT_EOK /\
    match tl s (sem_head o) with
    | [] => st' = (<[o := set_sem_value (u16 (sem_value sem + 1)) sem]> m, s)
    | t :: l => st'.1 = m /\ exists th, k_threads s !! t = Some th /\ woke_first (sem_head o) t th l s st'.2
    end) (m, s).
Proof. apply sem_release_spec. Qed.

(** Resetting a semaphore makes every waiting thread ready with
    [-RT_ERROR] and sets the counter to the low 16 bits of the argument; any
    other command is refused and changes nothing. *)
Theorem rt_sem_control_correct cmd arg u uh :
  kinv s -> ready s u uh ->
  wp (rt_sem_control o cmd arg) (fun r st' =>
    if decide (cmd = RT_IPC_CMD_RESET) then
      r = RT_EOK /\ st'.1 = <[o := set_sem_value (u16 arg) sem]> m /\
      exists s1, all_failed (sem_head o) (tl s (sem_head o)) s s1 /\ st'.2 = scheduled s1
    else r = - RT_ERROR /\ st' = (m, s)) (m, s).
Proof.
  intros I [Hu Hus]. unfold rt_sem_control, wp. case_decide as Hc; [rewrite (proj2 (Z.eqb_eq _ _) Hc)|
    by rewrite (proj2 (Z.eqb_neq _ _) Hc)].
  destruct (run_ipc_list_resume_all s (sem_head o) I sem_waiting_head) as (s1 & Hr & Ha).
  run_step (run_on_snd _ m _ _ _ Hr). run_step (run_upd_obj m s1 o (set_sem_value (u16 arg)) sem Hs).
  assert (exists u' uh', ready s1 u' uh') as (u' & uh' & Hu').
  { destruct (decide (u ∈ tl s (sem_head o))) as [Hin|Hn].
    - eexists _, _. by apply (af_woken _ _ _ _ Ha u uh).
    - exists u, uh. split; [|done]. by rewrite (af_others _ _ _ _ Ha). }
  run_step (run_on_snd _ (<[o:=set_sem_value (u16 arg) sem]> m) _ _ _ (run_schedule _ _ _ (af_inv _ _ _ _ Ha) Hu')).
  split_and!; [done|done|]. by exists s1.
Qed.
End sem.

(** ** Conservation of units over any interleaving

    The steps a semaphore goes through: takes that succeed at once, that are
    refused, or that block; a blocked take that goes on after its
    [rt_schedule] and returns; releases; timeouts of waiting threads; and
    other steps of the kernel, which leave the threads that are inside a take
    alone or fail them.  Next to the state goes the set of the threads that are
    inside a blocked [rt_sem_take]. *)

Inductive sem_event := Acquire | Refuse | Block | Wake (r : Z) | Release | Timeout | Kernel.

Definition sem_waits (o : nat) (s : kstate) (t : nat) : Prop := t ∈ tl s (sem_head o).
Definition error_of (s : kstate) (t : nat) : option Z := th_error <$> k_threads s !! t.

#[global] Instance sem_waits_dec o s t : Decision (sem_waits o s t).
Proof. unfold sem_waits. apply _. Defined.

(** The threads inside a blocked take that hold a unit: they are off the
    waiting list and their take is going to return [RT_EOK]. *)
Definition granted (o : nat) (s : kstate) (P : gset nat) : gset nat :=
  filter (fun t => ¬ sem_waits o s t /\ error_of s t = Some RT_EOK) P.

Inductive sem_step (o : nat) : sem_state * gset nat -> sem_event -> sem_state * gset nat -> Prop :=
| step_acquire m s P t th time st' :
    blocking_ctx s t th -> t ∉ P -> time < RT_TICK_MAX / 2 ->
    rt_sem_take o time (m, s) = Ok (Return RT_EOK) st' -> sem_step o (m, s, P) Acquire (st', P)
| step_refuse m s P t th time st' :
    blocking_ctx s t th -> t ∉ P -> time < RT_TICK_MAX / 2 ->
    rt_sem_take o time (m, s) = Ok (Return (- RT_ETIMEOUT)) st' -> sem_step o (m, s, P) Refuse (st', P)
| step_block m s P t th time u st' :
    blocking_ctx s t th -> t ∉ P -> time < RT_TICK_MAX / 2 ->
    rt_sem_take o time (m, s) = Ok (Waiting u) st' -> sem_step o (m, s, P) Block (st', {[u]} ∪ P)
| step_wake m s P t th r st' :
    t ∈ P -> ready s t th ->
    rt_sem_take_resume t (m, s) = Ok (Return r) st' -> sem_step o (m, s, P) (Wake r) (st', P ∖ {[t]})
| step_release m s P r st' :
    rt_sem_release o (m, s) = Ok r st' -> sem_step o (m, s, P) Release (st', P)
| step_timeout m s P t s' :
    sem_waits o s t -> TThread t ∉ k_timer_list s -> rt_thread_timeout t s = Ok tt s' ->
    sem_step o (m, s, P) Timeout (m, s', P)
| step_kernel m s P s' :
    kinv s' -> (forall t, sem_waits o s' t -> sem_waits o s t) ->
    (forall t, t ∈ P ->
      (sem_waits o s' t <-> sem_waits o s t) /\ error_of s' t = error_of s t \/
      sem_waits o s t /\ ¬ sem_waits o s' t /\ error_of s' t ≠ Some RT_EOK) ->
    sem_step o (m, s, P) Kernel (m, s', P).

Inductive sem_steps (o : nat) : sem_state * gset nat -> list sem_event -> sem_state * gset nat -> Prop :=
| steps_nil st : sem_steps o st [] st
| steps_snoc st st' st'' tr e :
    sem_steps o st tr st' -> sem_step o st' e st'' -> sem_steps o st (tr ++ [e]) st''.

(** The takes that returned [RT_EOK], at once or after blocking. *)
Definition is_acquired (e : sem_event) : bool :=
  match e with Acquire => true | Wake r => r =? RT_EOK | _ => false end.
Definition is_released (e : sem_event) : bool :=
  match e with Release => true | _ => false end.
Definition count (f : sem_event -> bool) (tr : list sem_event) : Z := Z.of_nat (length (List.filter f tr)).

Lemma count_snoc f tr e : count f (tr ++ [e]) = count f tr + (if f e then 1 else 0).
Proof. unfold count. rewrite List.filter_app, length_app. simpl. destruct (f e); simpl; lia. Qed.

Lemma count_nonneg f tr : 0 <= count f tr.
Proof. unfold count. lia. Qed.

Lemma elem_of_granted o s P t :
  t ∈ granted o s P <-> (¬ sem_waits o s t /\ error_of s t = Some RT_EOK) /\ t ∈ P.
Proof. unfold granted. by rewrite elem_of_filter. Qed.

Lemma granted_same o s s' P :
  (forall t, t ∈ P ->
    (sem_waits o s' t <-> sem_waits o s t) /\ error_of s' t = error_of s t \/
    sem_waits o s t /\ ¬ sem_waits o s' t /\ error_of s' t ≠ Some RT_EOK) ->
  granted o s' P = granted o s P.
Proof.
  intros H. apply set_eq. intros t. rewrite !elem_of_granted. split; intros [[Hw He] HP].
  - destruct (H t HP) as [[Hiff Heq]|(_ & _ & Hn)]; [|done]. rewrite <-Heq, <-Hiff. done.
  - destruct (H t HP) as [[Hiff Heq]|(Hw' & _)]; [|done]. rewrite Heq, Hiff. done.
Qed.

(** The threads of the waiting list are inside a take and have no error;
    threads wait only with no unit left, and every unit is accounted for: it
    is in the value, in the hands of a taker, or granted to a thread that has
    not run yet. *)
Record sem_ok (o : nat) (init : Z) (tr : list sem_event) (c : sem_state * gset nat) : Prop := {
  so_inv : kinv c.1.2;
  so_waits : forall t, sem_waits o c.1.2 t -> t ∈ c.2 /\ error_of c.1.2 t = Some RT_EOK;
  so_sem : exists sem, c.1.1 !! o = Some sem /\ ipc_flag (sem_flag sem) /\
    0 <= sem_value sem /\ (0 < sem_value sem -> tl c.1.2 (sem_head o) = []) /\
    (init + count is_released tr <= 65535 ->
     sem_value sem + count is_acquired tr + Z.of_nat (size (granted o c.1.2 c.2)) = init + count is_released tr)
}.

Lemma no_waiters s s' h :
  (forall t : nat, t ∈ tl s' h -> t ∈ tl s h) -> tl s h = [] -> tl s' h = [].
Proof. intros H E. destruct (tl s' h) as [|x l]; [done|]. specialize (H x). rewrite E in H. set_solver. Qed.

Section sem_run.
Context (o : nat) (init : Z) (tr : list sem_event).

(** A step that changes neither the semaphores nor who holds a unit. *)
Lemma sem_ok_kernel m s P s' e :
  sem_ok o init tr (m, s, P) -> is_acquired e = false -> is_released e = false ->
  kinv s' -> (forall t, sem_waits o s' t -> sem_waits o s t) ->
  (forall t, t ∈ P ->
    (sem_waits o s' t <-> sem_waits o s t) /\ error_of s' t = error_of s t \/
    sem_waits o s t /\ ¬ sem_waits o s' t /\ error_of s' t ≠ Some RT_EOK) ->
  sem_ok o init (tr ++ [e]) (m, s', P).
Proof.
  intros [I Hq (sem & Hs & Hf & Hv & Hw & Hc)] Ea Er I' Hsub HP. simpl in *. split; simpl; [done| |].
  - intros t Ht. destruct (Hq t (Hsub t Ht)) as [HtP He]. split; [done|].
    destruct (HP t HtP) as [[_ ->]|(_ & Hn & _)]; done.
  - exists sem. rewrite !count_snoc, Ea, Er, (granted_same o s s') by done. split_and!; [done..| |lia].
    intros Hp. apply (no_waiters s); [done|by apply Hw].
Qed.

Lemma sem_ok_block m s P t th sem time s' :
  sem_ok o init tr (m, s, P) -> m !! o = Some sem -> ¬ 0 < sem_value sem -> t ∉ P ->
  entered_wait (sem_head o) t th (sem_flag sem) time s s' ->
  sem_ok o init (tr ++ [Block]) (m, s', {[t]} ∪ P).
Proof.
  intros [I Hq (sem' & Hs & Hf & Hv & Hw & Hc)] Hm Hn Hnew He. simpl in *. simplify_eq.
  assert (forall u, sem_waits o s' u <-> u = t \/ sem_waits o s u) as Hin.
  { intros u. unfold sem_waits. rewrite (ew_list _ _ _ _ _ _ _ He), queue_insert_perm. apply elem_of_cons. }
  assert (forall u, u ≠ t -> error_of s' u = error_of s u) as Her.
  { intros u Hu. unfold error_of. by rewrite (ew_others _ _ _ _ _ _ _ He). }
  split; simpl; [by apply He| |].
  - intros u [-> |Hu]%Hin; [split; [set_solver|]; unfold error_of; by rewrite (ew_thread _ _ _ _ _ _ _ He)|].
    destruct (Hq u Hu). split; [set_solver|]. rewrite Her; [done|]. by intros ->.
  - exists sem'. rewrite !count_snoc. simpl.
    assert (granted o s' ({[t]} ∪ P) = granted o s P) as ->; [|split_and!; [done..|lia|lia]].
    apply set_eq. intros u. rewrite !elem_of_granted, Hin, elem_of_union, elem_of_singleton.
    destruct (decide (u = t)) as [->|Hu]; [tauto|]. rewrite Her by done. tauto.
Qed.

Lemma sem_ok_handoff m s P t l th s' :
  sem_ok o init tr (m, s, P) -> tl s (sem_head o) = t :: l -> k_threads s !! t = Some th ->
  woke_first (sem_head o) t th l s s' -> sem_ok o init (tr ++ [Release]) (m, s', P).
Proof.
  intros [I Hq (sem & Hs & Hf & Hv & Hw & Hc)] El Ht Hwf. simpl in *.
  assert (sem_waits o s t) as Hwt by (unfold sem_waits; rewrite El; left).
  destruct (Hq t Hwt) as [HtP Het].
  pose proof (inv_nodup _ I (sem_head o)) as Hnd. rewrite El in Hnd. apply NoDup_cons in Hnd as [Hnl _].
  assert (forall u, sem_waits o s' u <-> u ≠ t /\ sem_waits o s u) as Hin.
  { intros u. unfold sem_waits. rewrite (wf_list _ _ _ _ _ _ Hwf), El, elem_of_cons. set_solver. }
  assert (forall u, error_of s' u = error_of s u) as Her.
  { intros u. unfold error_of. destruct (decide (u = t)) as [->|Hu]; [|by rewrite (wf_others _ _ _ _ _ _ Hwf)].
    rewrite (proj1 (wf_ready _ _ _ _ _ _ Hwf)), Ht. done. }
  assert (granted o s' P = {[t]} ∪ granted o s P) as Eg.
  { apply set_eq. intros u. rewrite elem_of_union, !elem_of_granted, elem_of_singleton, Hin, Her.
    destruct (decide (u = t)) as [->|]; tauto. }
  split; simpl; [by apply Hwf| |].
  - intros u [_ Hu]%Hin. rewrite Her. by apply Hq.
  - exists sem. rewrite !count_snoc, Eg, size_union, size_singleton by (apply disjoint_singleton_l; rewrite elem_of_granted; tauto).
    assert (sem_value sem = 0) by (destruct (decide (0 < sem_value sem)) as [Hp|]; [by specialize (Hw Hp); congruence|lia]).
    simpl. split_and!; [done|done|done|lia|lia].
Qed.

Lemma sem_ok_wake m s P t th r st' :
  sem_ok o init tr (m, s, P) -> t ∈ P -> ready s t th ->
  rt_sem_take_resume t (m, s) = Ok (Return r) st' -> sem_ok o init (tr ++ [Wake r]) (st', P ∖ {[t]}).
Proof.
  intros [I Hq (sem & Hs & Hf & Hv & Hw & Hc)] HtP [Ht Hst] E. simpl in *.
  assert (r = th_error th /\ st' = (m, s)) as [-> ->].
  { revert E. unfold rt_sem_take_resume. run_step (run_on_snd _ m _ _ _ (run_get_thread s t th Ht)).
    destruct (Z.eqb_spec (th_error th) RT_EOK) as [He|]; simpl; intros [= <- <-]; by rewrite ?He. }
  assert (¬ sem_waits o s t) as Hnw by (by apply (ready_not_waiting s t th I Ht Hst)).
  assert (forall u, sem_waits o s u -> u ≠ t) as Hne by (intros u Hu ->; done).
  assert (error_of s t = Some (th_error th)) as Eth by (unfold error_of; by rewrite Ht).
  assert (granted o s (P ∖ {[t]}) = granted o s P ∖ {[t]}) as Eg.
  { apply set_eq. intros u. rewrite elem_of_difference, !elem_of_granted. set_solver. }
  split; simpl; [done| |].
  - intros u Hu. destruct (Hq u Hu). split; [|done]. set_solver.
  - exists sem. rewrite !count_snoc, Eg. simpl. split_and!; [done..|]. intros Hle.
    destruct (Z.eqb_spec (th_error th) RT_EOK) as [Er|Er].
    + assert (t ∈ granted o s P) as Hg by (rewrite elem_of_granted, Eth, Er; done).
      pose proof (subseteq_size {[t]} (granted o s P)) as Hs1. rewrite size_singleton in Hs1.
      rewrite size_difference, size_singleton by set_solver.
      assert (1 <= size (granted o s P))%nat by (apply Hs1; set_solver). lia.
    + assert (granted o s P ∖ {[t]} = granted o s P) as ->; [|lia].
      apply difference_disjoint_L. assert (t ∉ granted o s P); [|set_solver].
      rewrite elem_of_granted, Eth. intros [[_ ?] _]. congruence.
Qed.

Lemma sem_ok_timeout m s P t s' :
  sem_ok o init tr (m, s, P) -> sem_waits o s t -> TThread t ∉ k_timer_list s -> rt_thread_timeout t s = Ok tt s' ->
  sem_ok o init (tr ++ [Timeout]) (m, s', P).
Proof.
  intros H Hwt Hn E. pose proof (so_inv _ _ _ _ H) as I. simpl in I.
  destruct (inv_waiting _ I (sem_head o) t (sem_waiting_head o) Hwt) as (th & Ht & Hst).
  pose proof (rt_thread_timeout_correct s t th I Ht Hst Hn) as W. unfold wp in W. rewrite E in W.
  destruct W as (I' & (th' & [Ht' _] & He' & _) & _ & Hl & Ho).
  assert (forall u, sem_waits o s' u <-> u ≠ t /\ sem_waits o s u) as Hin.
  { intros u. unfold sem_waits. rewrite Hl by done. by rewrite list_elem_of_filter. }
  apply (sem_ok_kernel _ s); [done..| |].
  - intros u [_ Hu]%Hin. done.
  - intros u _. rewrite Hin. destruct (decide (u = t)) as [->|Hu].
    + right. split; [done|]. split; [tauto|]. unfold error_of. rewrite Ht'. simpl. by rewrite He'.
    + left. split; [tauto|]. unfold error_of. by rewrite Ho.
Qed.

Lemma sem_step_ok c e c' :
  sem_ok o init tr c -> sem_step o c e c' -> sem_ok o init (tr ++ [e]) c'.
Proof.
  intros H Hst. pose proof H as [I Hq (sem & Hs & Hf & Hv & Hw & Hc)].
  destruct Hst as [m s P t th time st' B HP Ht E|m s P t th time st' B HP Ht E|m s P t th time u st' B HP Ht E|
    m s P t th r st' HP Hr E|m s P r st' E|m s P t s' Hwt Hn E|m s P s' I' Hsub HP]; simpl in *.
  1-3: pose proof (rt_sem_take_correct m s o sem Hs time t th B Hf Ht) as W; unfold wp in W; rewrite E in W.
  - repeat case_decide; [|by destruct W|by destruct W]. destruct W as [_ ->].
    split; simpl; [done|done|]. exists (set_sem_value (sem_value sem - 1) sem). simpl.
    rewrite lookup_insert_eq, !count_snoc. simpl.
    split_and!; [done|done|lia|intros; apply Hw; lia|lia].
  - repeat case_decide; [by destruct W| |by destruct W]. destruct W as [_ ->].
    apply (sem_ok_kernel _ s); [done..|]. intros ??. by left.
  - repeat case_decide; [by destruct W|by destruct W|]. destruct W as ([= ->] & Em & He).
    destruct st' as [m' s']. simpl in *. subst m'. by eapply sem_ok_block.
  - by eapply sem_ok_wake.
  - pose proof (sem_release_spec m s o sem Hs I) as W. unfold wp in W. rewrite E in W.
    destruct W as [_ W]. destruct (tl s (sem_head o)) as [|t l] eqn:El.
    + subst st'. split; simpl; [done|done|].
      exists (set_sem_value (u16 (sem_value sem + 1)) sem). simpl.
      rewrite lookup_insert_eq, !count_snoc. simpl.
      split_and!; [done|done|apply u16_range|done|]. intros Hle.
      pose proof (count_nonneg is_acquired tr). rewrite u16_small by lia. lia.
    + destruct W as (Em & th & Ht & Hwf). destruct st' as [m' s']. simpl in *. subst m'. by eapply sem_ok_handoff.
  - by eapply sem_ok_timeout.
  - by apply (sem_ok_kernel _ s).
Qed.
End sem_run.

Lemma kinv_set_empty s h : kinv s -> tl s h = [] -> kinv (set_k_tlists (<[h := []]>) s).
Proof.
  intros I E. apply (kinv_tl_perm s); [done| |done..]. intros h'. rewrite tl_set_insert.
  case_decide; [by subst; rewrite E|done].
Qed.

(** Initialising an object is outside the invariant. *)
Lemma run_object_init s r name :
  kinv s -> ref_class r ∈ configured_classes ->
  exists s', rt_object_init r name s = Ok tt s' /\ kinv s' /\ (forall h, tl s' h = tl s h) /\
    k_threads s' = k_threads s.
Proof.
  intros I Hc. unfold rt_object_init.
  assert (bool_decide (is_Some (rt_object_get_information (ref_class r))) = true) as ->.
  { apply bool_decide_eq_true_2. unfold configured_classes in Hc.
    destruct (ref_class r); try (eexists; reflexivity); exfalso; set_unfold; destruct_or?; done. }
  eexists. split; [reflexivity|]. split_and!; [|done|done]. by apply (kinv_same s).
Qed.

Lemma sem_init_ok m s o name init flag :
  kinv s -> tl s (sem_head o) = [] -> 0 <= init <= 65535 -> ipc_flag flag ->
  exists st0, rt_sem_init o name init flag (m, s) = Ok RT_EOK st0 /\ sem_ok o init [] (st0, ∅).
Proof.
  intros I E Hi Hf. unfold rt_sem_init.
  destruct (run_object_init s (sem_ref o) name I) as (s1 & Hr & I1 & Et & _); [set_solver|].
  run_step (run_on_snd _ m _ _ _ Hr). eexists. split; [reflexivity|].
  split; simpl; [apply kinv_set_empty; [done|by rewrite Et]| |].
  { intros t. unfold sem_waits. rewrite tl_set_insert, decide_True by done. by intros ?%elem_of_nil. }
  exists (mk_sem (u16 init) flag). rewrite lookup_insert_eq. simpl. rewrite u16_small by lia.
  split_and!; [done|done|lia| |unfold count, granted; rewrite filter_empty_L, size_empty by apply _; simpl; lia].
  intros _. by rewrite tl_set_insert, decide_True.
Qed.


(** The counter is 16 bits wide and not checked: releasing a semaphore
    whose value is 65535 wraps it to 0, and the units are lost. *)
Theorem rt_sem_release_wraps :
  rt_sem_release 1 ({[1%nat := mk_sem 65535 RT_IPC_FLAG_FIFO]}, demo)
  = Ok RT_EOK ({[1%nat := mk_sem 0 RT_IPC_FLAG_FIFO]}, demo).
Proof.
  unfold rt_sem_release. erewrite bind_Ok by reflexivity.
  replace (tl _ (sem_head 1)) with (@nil nat) by (vm_compute; reflexivity). reflexivity.
Qed.

(** ** Witnesses *)

Definition demo_sem (v : Z) : gmap nat rt_semaphore := {[1%nat := mk_sem v RT_IPC_FLAG_PRIO]}.

Lemma rt_sem_take_correct_witness :
  wp (rt_sem_take 1 5) (fun r st' =>
    r = Waiting 1%nat /\ entered_wait (sem_head 1) 1 (thread_at demo 1) RT_IPC_FLAG_PRIO 5 demo st'.2)
    (demo_sem 0, demo).
Proof.
  eapply wp_mono; [|apply (rt_sem_take_correct (demo_sem 0) demo 1 (mk_sem 0 RT_IPC_FLAG_PRIO) eq_refl 5 1
    (thread_at demo 1)); [apply demo_ctx|by right|reflexivity]].
  intros r st'. simpl. intros (? & _ & ?). split; assumption.
Defined.

(** Thread 1 waits on semaphore 1. *)
Definition demo_sem_waits : kstate := demo_waits (sem_head 1) RT_IPC_FLAG_PRIO 5.

Lemma demo_sem_waits_kinv : kinv demo_sem_waits.
Proof. apply kinvb_kinv. vm_compute. reflexivity. Qed.

Lemma rt_sem_release_correct_witness :
  wp (rt_sem_release 1) (fun r st' =>
    exists th, woke_first (sem_head 1) 1 th [] demo_sem_waits st'.2) (demo_sem 0, demo_sem_waits).
Proof.
  eapply wp_mono; [|apply (rt_sem_release_correct (demo_sem 0) demo_sem_waits 1 (mk_sem 0 RT_IPC_FLAG_PRIO) eq_refl);
    apply demo_sem_waits_kinv].
  intros r st'. replace (tl demo_sem_waits (sem_head 1)) with [1%nat] by (vm_compute; reflexivity).
  intros (_ & _ & th & _ & H). exists th. exact H.
Defined.

Lemma rt_sem_control_correct_witness :
  wp (rt_sem_control 1 RT_IPC_CMD_RESET 65537) (fun r st' =>
    exists s1, all_failed (sem_head 1) (tl demo_sem_waits (sem_head 1)) demo_sem_waits s1) (demo_sem 0, demo_sem_waits).
Proof.
  eapply wp_mono; [|apply (rt_sem_control_correct (demo_sem 0) demo_sem_waits 1 (mk_sem 0 RT_IPC_FLAG_PRIO) eq_refl
    RT_IPC_CMD_RESET 65537 4 (thread_at demo_sem_waits 4)); [apply demo_sem_waits_kinv|split; vm_compute; reflexivity]].
  intros r st'. simpl. intros (_ & _ & s1 & H & _). exists s1. exact H.
Defined.

(** A take that blocks on an empty semaphore and a release that wakes it. *)
Definition demo_sem_init : sem_state :=
  run (rt_sem_init 1 [115] 0 RT_IPC_FLAG_FIFO) (∅, demo).
Definition demo_sem_blocked : sem_state := run (rt_sem_take 1 5) demo_sem_init.
Definition demo_sem_released : sem_state := run (rt_sem_release 1) demo_sem_blocked.

Lemma step_release_at o st P r st' : rt_sem_release o st = Ok r st' -> sem_step o (st, P) Release (st', P).
Proof. destruct st. apply step_release. Defined.

