(* ===== verification/Mutex.v ===== *)
(** * Mutexes: the mutex part of src/ipc.c

    Ownership, recursive holding and priority inheritance.  [rt_mutex_take] is
    split at its [rt_schedule]; the label [__again] is the function
    [mutex_again], which both halves reach. *)

From S2P Require Import Prelude Kernel Object Timer Scheduler Thread KInv ThreadSpec Ipc Semaphore.

(** [struct rt_mutex] *)
Record rt_mutex := mk_mutex {
  mx_value : Z;
  mx_original_priority : Z;
  mx_hold : Z;
  mx_owner : option nat;
  mx_flag : Z
}.

Definition set_mx_hold (v : Z) (x : rt_mutex) : rt_mutex :=
  mk_mutex (mx_value x) (mx_original_priority x) v (mx_owner x) (mx_flag x).

Definition mutex_state : Type := gmap nat rt_mutex * kstate.

Definition mutex_ref (o : nat) : obj_ref := Obj RT_Object_Class_Mutex o.
Definition mutex_head (o : nat) : tlist_head := HSuspend RT_Object_Class_Mutex o.

Definition free_mutex (flag : Z) : rt_mutex := mk_mutex 1 0xff 0 None flag.

Definition rt_mutex_init (o : nat) (name : list Z) (flag : Z) : M mutex_state Z :=
  on_snd (rt_object_init (mutex_ref o) name);;
  on_snd (rt_ipc_object_init (mutex_head o));;
  put_obj o (free_mutex flag);;
  mret RT_EOK.

Definition rt_mutex_detach (o : nat) : M mutex_state Z :=
  on_snd (rt_ipc_list_resume_all (mutex_head o));;
  on_snd (rt_object_detach (mutex_ref o));;
  mret RT_EOK.

Definition rt_mutex_create (mem : option nat) (name : list Z) (flag : Z) : M mutex_state (option nat) :=
  on_snd RT_DEBUG_NOT_IN_INTERRUPT;;
  r ← on_snd (rt_object_allocate RT_Object_Class_Mutex mem name);
  match r with
  | None => mret None
  | Some o =>
      on_snd (rt_ipc_object_init (mutex_head o));;
      put_obj o (free_mutex flag);;
      mret (Some o)
  end.

Definition rt_mutex_delete (o : nat) : M mutex_state Z :=
  on_snd RT_DEBUG_NOT_IN_INTERRUPT;;
  on_snd (rt_ipc_list_resume_all (mutex_head o));;
  on_snd (rt_object_delete (mutex_ref o));;
  del_obj o;;
  mret RT_EOK.

(** From the label [__again] to the call of [rt_schedule] or the return. *)
Definition mutex_again (o t : nat) (time : Z) : M mutex_state (call nat Z) :=
  mx ← get_obj o;
  if 0 <? mx_value mx then
    th ← on_snd (get_thread t);
    put_obj o (mk_mutex (mx_value mx - 1) (th_current_priority th) (u8 (mx_hold mx + 1)) (Some t) (mx_flag mx));;
    mret (Return RT_EOK)
  else if time =? 0 then
    on_snd (upd_thread t (set_th_error (- RT_ETIMEOUT)));;
    mret (Return (- RT_ETIMEOUT))
  else
    owner ← deref (fun _ => mx_owner mx);
    th ← on_snd (get_thread t);
    ow ← on_snd (get_thread owner);
    on_snd (when (th_current_priority th <? th_current_priority ow)
      (rt_thread_control owner (RT_THREAD_CTRL_CHANGE_PRIORITY (th_current_priority th));; mret tt));;
    on_snd (wait_on (mutex_head o) t (mx_flag mx) time);;
    mret (Waiting t).

Definition rt_mutex_take (o : nat) (time : Z) : M mutex_state (call nat Z) :=
  on_snd RT_DEBUG_IN_THREAD_CONTEXT;;
  t ← on_snd rt_thread_self;
  on_snd (upd_thread t (set_th_error RT_EOK));;
  mx ← get_obj o;
  if bool_decide (mx_owner mx = Some t) then
    put_obj o (set_mx_hold (u8 (mx_hold mx + 1)) mx);;
    mret (Return RT_EOK)
  else mutex_again o t time.

(** From the return of [rt_schedule] on. *)
Definition rt_mutex_take_resume (o t : nat) (time : Z) : M mutex_state (call nat Z) :=
  th ← on_snd (get_thread t);
  if negb (th_error th =? RT_EOK) then
    if th_error th =? - RT_EINTR then mutex_again o t time
    else mret (Return (th_error th))
  else mret (Return RT_EOK).

Definition rt_mutex_release (o : nat) : M mutex_state Z :=
  on_snd RT_DEBUG_IN_THREAD_CONTEXT;;
  t ← on_snd rt_thread_self;
  mx ← get_obj o;
  if negb (bool_decide (mx_owner mx = Some t)) then
    on_snd (upd_thread t (set_th_error (- RT_ERROR)));;
    mret (- RT_ERROR)
  else
    upd_obj o (set_mx_hold (u8 (mx_hold mx - 1)));;
    if u8 (mx_hold mx - 1) =? 0 then
      ow ← on_snd (get_thread t);
      on_snd (when (negb (mx_original_priority mx =? th_current_priority ow))
        (rt_thread_control t (RT_THREAD_CTRL_CHANGE_PRIORITY (mx_original_priority mx));; mret tt));;
      st ← get;
      match tl st.2 (mutex_head o) with
      | w :: _ =>
          wh ← on_snd (get_thread w);
          put_obj o (mk_mutex (mx_value mx) (th_current_priority wh) (u8 (u8 (mx_hold mx - 1) + 1)) (Some w) (mx_flag mx));;
          on_snd (rt_ipc_list_resume (mutex_head o);; rt_schedule);;
          mret RT_EOK
      | [] =>
          put_obj o (mk_mutex (u16 (mx_value mx + 1)) 0xff (u8 (mx_hold mx - 1)) None (mx_flag mx));;
          mret RT_EOK
      end
    else mret RT_EOK.

Definition rt_mutex_control (o : nat) (cmd arg : Z) : M mutex_state Z := mret (- RT_ERROR).

(** ** Changing a priority leaves the waiting lists and the other threads *)

Lemma repriority_threads s t th p :
  k_threads (repriority t th p s) = <[t := set_priority p (Z.shiftl 1 p) th]> (k_threads s).
Proof.
  unfold repriority. destruct (Z.eqb_spec (state_of th) RT_THREAD_READY) as [Hst|]; [|done].
  unfold made_ready, enqueue_ready, restat. simpl. unfold dequeued. rewrite clear_group_threads. simpl.
  rewrite insert_insert_eq. do 2 f_equal.
  rewrite <- Hst, with_state_id. by destruct th.
Qed.

Lemma repriority_tl s t th p h :
  kinv s -> k_threads s !! t = Some th -> waiting_head h -> tl (repriority t th p s) h = tl s h.
Proof.
  intros I Ht Hh. unfold repriority. destruct (Z.eqb_spec (state_of th) RT_THREAD_READY) as [Hst|]; [|done].
  rewrite tl_made_ready, decide_False by (by intros <-).
  change (tl (set_k_threads ?f ?x) h) with (tl x h). unfold dequeued. rewrite tl_clear_group, tl_unlink.
  apply filter_ne_notin. by eapply ready_not_waiting.
Qed.

Lemma repriority_globals s t th p :
  k_current (repriority t th p s) = k_current s /\ k_int_nest (repriority t th p s) = k_int_nest s /\
  k_lock_nest (repriority t th p s) = k_lock_nest s.
Proof.
  unfold repriority, made_ready, enqueue_ready, dequeued, clear_group.
  destruct (_ =? _); [|done]. by case_decide.
Qed.

Lemma blocking_ctx_repriority s t th w wh p :
  blocking_ctx s t th -> w ≠ t -> k_threads s !! w = Some wh -> live wh -> 0 <= p < 32 ->
  blocking_ctx (repriority w wh p s) t th.
Proof.
  intros [I Hc [Ht Hst] Hn (u & uh & Hne & [Hu Hus])] Hw Hwh Hl Hp.
  destruct (repriority_globals s w wh p) as (E1 & E2 & _).
  split; rewrite ?E1, ?E2; try done.
  - by apply kinv_repriority.
  - split; [|done]. by rewrite repriority_threads, lookup_insert_ne.
  - exists u. destruct (decide (u = w)) as [->|Huw].
    + eexists. split; [done|]. split; [rewrite repriority_threads; apply lookup_insert_eq|].
      simplify_eq. exact Hus.
    + exists uh. split; [done|]. split; [|done]. by rewrite repriority_threads, lookup_insert_ne.
Qed.

(** The effect of lending priority [p] to thread [w]: its priority becomes the
    better of the two; threads, waiting lists and the caller are kept. *)
Definition lent (w : nat) (wh : rt_thread) (p : Z) (s : kstate) : kstate :=
  if p <? th_current_priority wh then repriority w wh p s else s.

Lemma run_lend s w wh p :
  kinv s -> k_threads s !! w = Some wh -> 0 <= p < 32 ->
  when (p <? th_current_priority wh)
    (rt_thread_control w (RT_THREAD_CTRL_CHANGE_PRIORITY p);; mret tt) s = Ok tt (lent w wh p s).
Proof.
  intros I Hw Hp. unfold when, lent. destruct (_ <? _); [|done].
  by run_step (run_change_priority _ _ _ _ I Hw Hp).
Qed.

Lemma lent_threads s w wh p :
  k_threads s !! w = Some wh -> live wh -> kinv s ->
  exists wh', k_threads (lent w wh p s) = <[w := wh']> (k_threads s) /\
    th_current_priority wh' = Z.min p (th_current_priority wh) /\ th_stat wh' = th_stat wh.
Proof.
  intros Hw Hl I. unfold lent. destruct (Z.ltb_spec p (th_current_priority wh)).
  - eexists. rewrite repriority_threads. split; [done|]. simpl. split; [lia|done].
  - exists wh. rewrite insert_id by done. split; [done|]. split; [lia|done].
Qed.

(** ** The mutex invariant *)

(** Either free (value 1, no owner, no hold, nobody waits), or held: value 0,
    a positive hold count, an original priority that is a table index, and a
    live owner that does not itself wait for the mutex. *)
Inductive mutex_held (s : kstate) (o : nat) (mx : rt_mutex) : Prop :=
| mutex_is_free :
    mx_value mx = 1 -> mx_owner mx = None -> mx_hold mx = 0 -> tl s (mutex_head o) = [] -> mutex_held s o mx
| mutex_is_held w wh :
    mx_value mx = 0 -> mx_owner mx = Some w -> 0 < mx_hold mx < 256 ->
    0 <= mx_original_priority mx < 32 ->
    k_threads s !! w = Some wh -> live wh -> w ∉ tl s (mutex_head o) -> mutex_held s o mx.

Record mutex_ok (o : nat) (st : mutex_state) : Prop := {
  mo_inv : kinv st.2;
  mo_held : exists mx, st.1 !! o = Some mx /\ ipc_flag (mx_flag mx) /\ mutex_held st.2 o mx
}.

Lemma live_stat th th' : th_stat th' = th_stat th -> live th -> live th'.
Proof. unfold live, state_of. by intros ->. Qed.

Lemma mutex_held_set_error s o mx t th e :
  mutex_held s o mx -> k_threads s !! t = Some th ->
  mutex_held (set_k_threads (<[t := set_th_error e th]>) s) o mx.
Proof.
  intros [? ? ? ?|w wh ? ? ? ? Hw Hl ?] Ht; [by constructor|].
  destruct (decide (t = w)) as [->|Hne].
  - simplify_eq. apply (mutex_is_held _ _ _ w (set_th_error e wh)); try done. apply lookup_insert_eq.
  - apply (mutex_is_held _ _ _ w wh); try done. simpl. by rewrite lookup_insert_ne.
Qed.

Lemma mutex_head_waiting o : waiting_head (mutex_head o).
Proof. done. Qed.

(** Waiting for a mutex held by [w]: [w] inherits the priority of the caller. *)
Lemma run_mutex_wait m s o mx t th w wh time :
  m !! o = Some mx -> ipc_flag (mx_flag mx) -> mx_value mx = 0 -> mx_owner mx = Some w ->
  k_threads s !! w = Some wh -> live wh -> w ≠ t -> w ∉ tl s (mutex_head o) ->
  0 < mx_hold mx < 256 -> 0 <= mx_original_priority mx < 32 ->
  blocking_ctx s t th -> th_error th = RT_EOK -> time ≠ 0 -> time < RT_TICK_MAX / 2 ->
  exists s', mutex_again o t time (m, s) = Ok (Waiting t) (m, s') /\
    entered_wait (mutex_head o) t th (mx_flag mx) time (lent w wh (th_current_priority th) s) s' /\
    mutex_ok o (m, s') /\
    exists wh', k_threads s' !! w = Some wh' /\
      th_current_priority wh' = Z.min (th_current_priority th) (th_current_priority wh).
Proof.
  intros Hs Hf Hv Ho Hw Hl Hne Hnw Hh Hop B He Ht0 Htime.
  pose proof (proj1 (bc_ready _ _ _ B)) as Ht. pose proof (bc_inv _ _ _ B) as I.
  destruct (inv_prio _ I _ _ Ht) as [Hp _]; [left; apply B|].
  set (p := th_current_priority th) in *.
  assert (blocking_ctx (lent w wh p s) t th) as B1.
  { unfold lent. destruct (_ <? _); [|done]. by apply blocking_ctx_repriority. }
  destruct (lent_threads s w wh p Hw Hl I) as (wh' & Eth & Hwp & Hws).
  destruct (run_wait_entered _ (mutex_head o) t th (mx_flag mx) time B1 He (mutex_head_waiting o) Hf Htime)
    as (s' & Hr & He').
  exists s'.
  assert (k_threads s' !! w = Some wh') as Hw'.
  { rewrite (ew_others _ _ _ _ _ _ _ He') by done. rewrite Eth. apply lookup_insert_eq. }
  split_and!; [|done| |by exists wh'].
  - unfold mutex_again. run_step (run_get_obj m s o mx Hs). rewrite Hv. simpl.
    rewrite (proj2 (Z.eqb_neq _ _) Ht0). unfold deref at 1. rewrite Ho. erewrite bind_Ok by reflexivity.
    run_step (run_on_snd _ m _ _ _ (run_get_thread _ _ _ Ht)). run_step (run_on_snd _ m _ _ _ (run_get_thread _ _ _ Hw)).
    fold p. run_step (run_on_snd _ m _ _ _ (run_lend _ _ _ _ I Hw Hp)). by run_step (run_on_snd _ m _ _ _ Hr).
  - split; [apply He'|]. exists mx. split_and!; [done|done|].
    apply (mutex_is_held _ _ _ w wh'); try done; [by eapply live_stat|].
    simpl. rewrite (ew_list _ _ _ _ _ _ _ He'), queue_insert_perm, elem_of_cons. intros [|Hin]; [done|]. apply Hnw.
    unfold lent in Hin. destruct (_ <? _); [|done]. by rewrite repriority_tl in Hin.
Qed.

Section mutex.
Context (m : gmap nat rt_mutex) (s : kstate) (o : nat) (mx : rt_mutex).
Context (Hs : m !! o = Some mx) (Hok : mutex_ok o (m, s)).
Context (t : nat) (th : rt_thread) (B : blocking_ctx s t th).

Let th0 := set_th_error RT_EOK th.
Let s0 := set_k_threads (<[t := th0]>) s.

(** C6: [rt_mutex_take] keeps the mutex invariant (at most one owner, value
    and hold count consistent with it).  The owner takes it again by counting
    its holds, of which there are fewer than 255; a free mutex becomes the caller's; a held one is refused at once
    without waiting time, and otherwise the owner inherits the caller's
    priority if that is better and the caller joins the waiting list. *)
Theorem rt_mutex_take_correct time :
  mx_hold mx < 255 -> time < RT_TICK_MAX / 2 ->
  wp (rt_mutex_take o time) (fun r st' =>
    mutex_ok o st' /\
    if decide (mx_owner mx = Some t) then
      r = Return RT_EOK /\ st' = (<[o := set_mx_hold (mx_hold mx + 1) mx]> m, s0)
    else match mx_owner mx with
    | None =>
        r = Return RT_EOK /\
        st' = (<[o := mk_mutex 0 (th_current_priority th) 1 (Some t) (mx_flag mx)]> m, s0)
    | Some w =>
        if decide (time = 0) then
          r = Return (- RT_ETIMEOUT) /\ st' = (m, set_k_threads (<[t := set_th_error (- RT_ETIMEOUT) th0]>) s0)
        else
          r = Waiting t /\ st'.1 = m /\ exists wh wh',
            k_threads s !! w = Some wh /\ k_threads st'.2 !! w = Some wh' /\
            th_current_priority wh' = Z.min (th_current_priority th) (th_current_priority wh) /\
            entered_wait (mutex_head o) t th0 (mx_flag mx) time (lent w wh (th_current_priority th) s0) st'.2
    end) (m, s).
Proof.
  intros Hh Htime. destruct Hok as [I (mx' & Hs' & Hf & Hheld)]. simpl in *.
  rewrite Hs in Hs'. injection Hs' as <-. pose proof (proj1 (bc_ready _ _ _ B)) as Ht.
  pose proof (proj2 (bc_ready _ _ _ B)) as Hst.
  pose proof (blocking_ctx_set_error _ _ _ RT_EOK B) as B0. fold th0 s0 in B0.
  pose proof (mutex_held_set_error _ _ _ _ _ RT_EOK Hheld Ht) as Hheld0. fold th0 s0 in Hheld0.
  pose proof (bc_inv _ _ _ B0) as I0. assert (k_threads s0 !! t = Some th0) as Ht0 by apply lookup_insert_eq.
  destruct (inv_prio _ I _ _ Ht) as [Hp _]; [by left|].
  unfold rt_mutex_take, wp. run_step (run_on_snd _ m _ _ _ (run_in_thread_context _ _ _ B)).
  run_step (run_on_snd _ m _ _ _ (run_thread_self _ _ (bc_current _ _ _ B))).
  run_step (run_on_snd _ m _ _ _ (run_upd_thread s t (set_th_error RT_EOK) th Ht)). fold th0 s0.
  run_step (run_get_obj m s0 o mx Hs).
  destruct Hheld0 as [Hv Ho Hh0 Hnw|w wh Hv Ho Hh0 Hop Hw Hl Hnw]; rewrite Ho.
  - rewrite bool_decide_eq_false_2 by done. unfold mutex_again.
    run_step (run_get_obj m s0 o mx Hs). rewrite Hv. simpl.
    run_step (run_on_snd _ m _ _ _ (run_get_thread _ _ _ Ht0)). rewrite Hh0. simpl.
    split; [|done]. split; [done|]. eexists. split; [apply lookup_insert_eq|]. split; [done|].
    apply (mutex_is_held _ _ _ t th0); try done; [by left|]. simpl. rewrite Hnw. set_solver.
  - destruct (decide (w = t)) as [->|Hne].
    + rewrite bool_decide_eq_true_2 by done. simpl. rewrite u8_small by lia. rewrite decide_True by done.
      split; [|done]. split; [done|]. eexists. split; [apply lookup_insert_eq|]. split; [done|].
      apply (mutex_is_held _ _ _ t wh); simpl; try done; lia.
    + rewrite bool_decide_eq_false_2 by congruence. destruct (decide (time = 0)) as [Hz|Hz].
      * subst time. unfold mutex_again. run_step (run_get_obj m s0 o mx Hs). rewrite Hv.
        change (0 <? 0) with false. change (0 =? 0) with true. cbv iota.
        run_step (run_on_snd _ m _ _ _ (run_upd_thread s0 t (set_th_error (- RT_ETIMEOUT)) th0 Ht0)).
        unfold mret, M_ret; cbv beta iota. rewrite decide_False by congruence. split; [|done]. split; [by apply kinv_set_error|]. exists mx. split_and!; [done|done|].
        apply mutex_held_set_error; [|done]. by apply (mutex_is_held _ _ _ w wh).
      * destruct (run_mutex_wait m s0 o mx t th0 w wh time) as (s' & Hr & He & Hk & wh' & Hw' & Hp'); try done.
        rewrite Hr, decide_False by congruence. split; [done|]. split; [done|]. split; [done|]. exists wh, wh'. split; [|done].
        simpl in Hw. by rewrite lookup_insert_ne in Hw.
Qed.
End mutex.

(** ** Release *)

Definition restored (t : nat) (th : rt_thread) (p : Z) (s : kstate) : kstate :=
  if negb (p =? th_current_priority th) then repriority t th p s else s.

Lemma run_restore s t th p :
  kinv s -> k_threads s !! t = Some th -> 0 <= p < 32 ->
  when (negb (p =? th_current_priority th))
    (rt_thread_control t (RT_THREAD_CTRL_CHANGE_PRIORITY p);; mret tt) s = Ok tt (restored t th p s).
Proof.
  intros I Hw Hp. unfold when, restored. destruct (negb _); [|done].
  by run_step (run_change_priority _ _ _ _ I Hw Hp).
Qed.

Lemma restored_spec s t th p :
  kinv s -> ready s t th -> 0 <= p < 32 ->
  kinv (restored t th p s) /\
  (forall h, waiting_head h -> tl (restored t th p s) h = tl s h) /\
  (forall u, u ≠ t -> k_threads (restored t th p s) !! u = k_threads s !! u) /\
  exists th', ready (restored t th p s) t th' /\ th_current_priority th' = p.
Proof.
  intros I [Ht Hst] Hp. unfold restored. destruct (Z.eqb_spec p (th_current_priority th)); simpl.
  - split_and!; [done|done|done|]. exists th. by split_and!.
  - split_and!.
    + by apply kinv_repriority; [| |left|].
    + intros h Hh. by apply repriority_tl.
    + intros u Hne. by rewrite repriority_threads, lookup_insert_ne.
    + eexists. split; [split; [rewrite repriority_threads; apply lookup_insert_eq|exact Hst]|done].
Qed.

Section mutex_release.
Context (m : gmap nat rt_mutex) (s : kstate) (o : nat) (mx : rt_mutex).
Context (Hs : m !! o = Some mx) (Hok : mutex_ok o (m, s)).
Context (t : nat) (th : rt_thread) (B : blocking_ctx s t th).

(** The last release, by the owner. *)
Lemma run_release_last :
  mx_value mx = 0 -> mx_owner mx = Some t -> mx_hold mx = 1 -> 0 <= mx_original_priority mx < 32 ->
  t ∉ tl s (mutex_head o) -> ipc_flag (mx_flag mx) ->
  exists s1 th1, s1 = restored t th (mx_original_priority mx) s /\
    ready s1 t th1 /\ th_current_priority th1 = mx_original_priority mx /\
    exists st', rt_mutex_release o (m, s) = Ok RT_EOK st' /\ mutex_ok o st' /\
      match tl s (mutex_head o) with
      | [] => st' = (<[o := free_mutex (mx_flag mx)]> m, s1)
      | w :: l => exists wh,
          k_threads s !! w = Some wh /\
          st'.1 = <[o := mk_mutex 0 (th_current_priority wh) 1 (Some w) (mx_flag mx)]> m /\
          woke_first (mutex_head o) w wh l s1 st'.2
      end.
Proof.
  intros Hv Ho Hh Hop Hnw Hf. pose proof (bc_inv _ _ _ B) as I. pose proof (bc_ready _ _ _ B) as Hr.
  destruct (restored_spec s t th _ I Hr Hop) as (I1 & Etl & Eth & th1 & Hr1 & Hp1).
  exists (restored t th (mx_original_priority mx) s), th1. split; [done|]. split; [done|]. split; [done|].
  set (s1 := restored t th (mx_original_priority mx) s) in *.
  unfold rt_mutex_release. run_step (run_on_snd _ m _ _ _ (run_in_thread_context _ _ _ B)).
  run_step (run_on_snd _ m _ _ _ (run_thread_self _ _ (bc_current _ _ _ B))).
  run_step (run_get_obj m s o mx Hs). rewrite Ho, bool_decide_eq_true_2 by done.
  change (negb true) with false. cbv iota.
  run_step (run_upd_obj m s o (set_mx_hold (u8 (mx_hold mx - 1))) mx Hs). rewrite Hh.
  change (u8 (1 - 1) =? 0) with true. cbv iota. set (m1 := <[o := set_mx_hold _ mx]> m).
  run_step (run_on_snd _ m1 _ _ _ (run_get_thread _ _ _ (proj1 Hr))).
  run_step (run_on_snd _ m1 _ _ _ (run_restore _ _ _ _ I (proj1 Hr) Hop)). fold s1.
  unfold get at 1. erewrite bind_Ok by reflexivity. cbv beta. cbn [snd].
  pose proof (Etl _ (mutex_head_waiting o)) as El. rewrite El.
  destruct (tl s (mutex_head o)) as [|w l] eqn:E.
  - eexists. split; [reflexivity|]. unfold m1. simpl. rewrite insert_insert_eq, Hv.
    split; [|done]. split; [done|]. eexists. split; [apply lookup_insert_eq|]. split; [done|].
    by apply mutex_is_free.
  - destruct (waiting_first _ _ _ _ I (mutex_head_waiting o) E) as (wh & Hw & Hws).
    assert (w ≠ t) as Hwt by (intros ->; set_solver).
    assert (k_threads s1 !! w = Some wh) as Hw1 by by rewrite Eth.
    run_step (run_on_snd _ m1 _ _ _ (run_get_thread _ _ _ Hw1)).
    destruct (run_ipc_wake _ _ _ _ _ I1 (mutex_head_waiting o) El Hw1) as (s' & Hr' & Hwf).
    erewrite bind_Ok by reflexivity. run_step (run_on_snd _ (<[o := mk_mutex (mx_value mx) (th_current_priority wh)
      (u8 (u8 (1 - 1) + 1)) (Some w) (mx_flag mx)]> m1) _ _ _ Hr').
    eexists. split; [reflexivity|]. unfold m1. simpl. rewrite insert_insert_eq, Hv.
    split; [|by exists wh]. split; [apply Hwf|]. eexists. split; [apply lookup_insert_eq|]. split; [done|].
    pose proof (inv_nodup _ I (mutex_head o)) as Hnd. rewrite E in Hnd. apply NoDup_cons in Hnd as [Hnin _].
    destruct (inv_prio _ I _ _ Hw) as [Hwp _]; [by right|].
    eapply (mutex_is_held _ _ _ w); simpl; try done.
    + apply (wf_ready _ _ _ _ _ _ Hwf).
    + left. apply state_ready.
    + by rewrite (wf_list _ _ _ _ _ _ Hwf).
Qed.

(** C7: [rt_mutex_release] keeps the mutex invariant.  A thread that is not the
    owner is refused; an inner release only counts down; the last one restores
    the priority the owner had when it took the mutex and passes the mutex to
    the first waiting thread, or frees it when nobody waits. *)
Theorem rt_mutex_release_correct :
  exists r st', rt_mutex_release o (m, s) = Ok r st' /\ mutex_ok o st' /\
    if decide (mx_owner mx = Some t) then
      r = RT_EOK /\
      if decide (1 < mx_hold mx) then st' = (<[o := set_mx_hold (mx_hold mx - 1) mx]> m, s)
      else exists s1 th1,
        s1 = restored t th (mx_original_priority mx) s /\
        ready s1 t th1 /\ th_current_priority th1 = mx_original_priority mx /\
        match tl s (mutex_head o) with
        | [] => st' = (<[o := free_mutex (mx_flag mx)]> m, s1)
        | w :: l => exists wh,
            k_threads s !! w = Some wh /\
            st'.1 = <[o := mk_mutex 0 (th_current_priority wh) 1 (Some w) (mx_flag mx)]> m /\
            woke_first (mutex_head o) w wh l s1 st'.2
        end
    else r = - RT_ERROR /\ st' = (m, set_k_threads (<[t := set_th_error (- RT_ERROR) th]>) s).
Proof.
  destruct Hok as [I (mx' & Hs' & Hf & Hheld)]. simpl in *.
  rewrite Hs in Hs'. injection Hs' as <-. pose proof (proj1 (bc_ready _ _ _ B)) as Ht.
  destruct (decide (mx_owner mx = Some t)) as [Ho|Ho].
  - destruct Hheld as [? Hn _ _|w wh Hv Hw Hh Hop Hwl Hl Hnw]; [congruence|].
    rewrite Ho in Hw. injection Hw as <-. case_decide as Hgt.
    + exists RT_EOK. eexists. split; [|split; [|split; [done|done]]].
      * unfold rt_mutex_release. run_step (run_on_snd _ m _ _ _ (run_in_thread_context _ _ _ B)).
        run_step (run_on_snd _ m _ _ _ (run_thread_self _ _ (bc_current _ _ _ B))).
        run_step (run_get_obj m s o mx Hs). rewrite Ho, bool_decide_eq_true_2 by done.
        change (negb true) with false. cbv iota.
        run_step (run_upd_obj m s o (set_mx_hold (u8 (mx_hold mx - 1))) mx Hs).
        rewrite u8_small by lia. rewrite (proj2 (Z.eqb_neq _ _)) by lia. reflexivity.
      * split; [done|]. eexists. split; [apply lookup_insert_eq|]. split; [done|].
        apply (mutex_is_held _ _ _ t wh); simpl; try done; lia.
    + destruct run_release_last as (s1 & th1 & ? & ? & ? & st' & ? & ? & ?); try done; [lia|].
      exists RT_EOK, st'. split; [done|]. split; [done|]. split; [done|]. by exists s1, th1.
  - exists (- RT_ERROR). eexists. split; [|split; [|split; [done|done]]].
    + unfold rt_mutex_release. run_step (run_on_snd _ m _ _ _ (run_in_thread_context _ _ _ B)).
      run_step (run_on_snd _ m _ _ _ (run_thread_self _ _ (bc_current _ _ _ B))).
      run_step (run_get_obj m s o mx Hs). rewrite bool_decide_eq_false_2 by done.
      change (negb false) with true. cbv iota.
      by run_step (run_on_snd _ m _ _ _ (run_upd_thread s t (set_th_error (- RT_ERROR)) th Ht)).
    + split; [by apply kinv_set_error|]. exists mx. split; [done|]. split; [done|]. by apply mutex_held_set_error.
Qed.
End mutex_release.

(** ** Initialisation, bounds and the retry path *)

(** [rt_mutex_init] establishes the invariant with a free mutex. *)
Lemma mutex_init_ok m s o name flag :
  kinv s -> tl s (mutex_head o) = [] -> ipc_flag flag ->
  exists st0, rt_mutex_init o name flag (m, s) = Ok RT_EOK st0 /\ mutex_ok o st0.
Proof.
  intros I E Hf. unfold rt_mutex_init.
  destruct (run_object_init s (mutex_ref o) name I) as (s1 & Hr & I1 & Et & _); [set_solver|].
  run_step (run_on_snd _ m _ _ _ Hr). eexists. split; [reflexivity|].
  split; simpl; [apply kinv_set_empty; [done|by rewrite Et]|].
  exists (free_mutex flag). rewrite lookup_insert_eq. split_and!; [done|done|].
  apply mutex_is_free; try done. by rewrite tl_set_insert, decide_True.
Qed.

(** A thread that holds the mutex and is handed the retry path of
    [rt_mutex_take] ([thread->error] still [-RT_EINTR], which the retry does
    not clear) suspends itself on the mutex it owns. *)
Theorem mutex_retry_self_deadlock m s o mx t th time :
  m !! o = Some mx -> ipc_flag (mx_flag mx) -> mx_value mx = 0 -> mx_owner mx = Some t ->
  blocking_ctx s t th -> th_error th = - RT_EINTR -> time ≠ 0 -> time < RT_TICK_MAX / 2 ->
  exists s', rt_mutex_take_resume o t time (m, s) = Ok (Waiting t) (m, s') /\
    t ∈ tl s' (mutex_head o) /\ kinv s'.
Proof.
  intros Hs Hf Hv Ho [I Hc [Ht Hst] Hn (u & uh & Hne & Hu)] He Hz Htime.
  exists (scheduled (waiting_state s (mutex_head o) t th (mx_flag mx) time)). split_and!.
  - unfold rt_mutex_take_resume. run_step (run_on_snd _ m _ _ _ (run_get_thread _ _ _ Ht)). rewrite He.
    change (negb (- RT_EINTR =? RT_EOK)) with true. change (- RT_EINTR =? - RT_EINTR) with true. cbv iota.
    unfold mutex_again. run_step (run_get_obj m s o mx Hs). rewrite Hv, (proj2 (Z.eqb_neq _ _) Hz).
    change (0 <? 0) with false. cbv iota. unfold deref at 1. rewrite Ho. erewrite bind_Ok by reflexivity.
    run_step (run_on_snd _ m _ _ _ (run_get_thread _ _ _ Ht)). run_step (run_on_snd _ m _ _ _ (run_get_thread _ _ _ Ht)).
    rewrite Z.ltb_irrefl. erewrite bind_Ok by reflexivity.
    pose proof (run_wait_on s (mutex_head o) t th (mx_flag mx) I Ht Hst (mutex_head_waiting o) time u uh Hf Htime Hne Hu) as Hr.
    by run_step (run_on_snd _ m _ _ _ Hr).
  - rewrite tl_scheduled, tl_waiting_state, tl_blocked, decide_True by done. rewrite queue_insert_perm. left.
  - by apply kinv_scheduled, kinv_waiting_state.
Qed.

Definition demo_mutex (mx : rt_mutex) : gmap nat rt_mutex := {[1%nat := mx]}.

Fixpoint repeat_take (n : nat) : M mutex_state unit :=
  match n with O => mret tt | S n => rt_mutex_take 1 0;; repeat_take n end.

(** The hold counter is 8 bits wide and not checked: after 257 nested takes
    one release frees the mutex, although 256 are outstanding. *)
Theorem mutex_hold_wraps :
  ret (repeat_take 257;; _ ← rt_mutex_release 1; get_obj 1) (demo_mutex (free_mutex RT_IPC_FLAG_FIFO), demo)
  = Some (free_mutex RT_IPC_FLAG_FIFO).
Proof. vm_compute. reflexivity. Qed.

(** ** Witnesses *)

(** Threads 1 and 2 (priority 10) after thread 3 (priority 20) took mutex 1:
    thread 3 owns it and thread 1 runs. *)
Definition owned_by_3 : rt_mutex := mk_mutex 0 20 1 (Some 3%nat) RT_IPC_FLAG_PRIO.
Definition owned_by_1 : rt_mutex := mk_mutex 0 20 1 (Some 1%nat) RT_IPC_FLAG_PRIO.

Lemma owned_ok s mx t :
  kinv s -> mx_owner mx = Some t -> mx_value mx = 0 -> mx_hold mx = 1 -> mx_original_priority mx = 20 ->
  ipc_flag (mx_flag mx) -> has_state s RT_THREAD_READY t = true -> t ∉ tl s (mutex_head 1) ->
  mutex_ok 1 (demo_mutex mx, s).
Proof.
  intros I Ho Hv Hh Hp Hf (th & Ht & Hst)%has_state_spec Hn. split; [done|]. exists mx.
  split; [apply lookup_singleton_eq|]. split; [done|]. apply (mutex_is_held _ _ _ t th); try done; [lia|lia|by left].
Qed.

Lemma rt_mutex_take_correct_witness :
  wp (rt_mutex_take 1 100) (fun r st' => mutex_ok 1 st' /\ r = Waiting 1%nat /\
    exists wh', k_threads st'.2 !! 3%nat = Some wh' /\ th_current_priority wh' = 10) (demo_mutex owned_by_3, demo).
Proof.
  eapply wp_mono; [|apply (rt_mutex_take_correct (demo_mutex owned_by_3) demo 1 owned_by_3 eq_refl) with
    (time := 100) (t := 1%nat) (th := thread_at demo 1)].
  - intros r st' (Hm & Hr). destruct (decide _) as [E|_]; [discriminate E|]. simpl in Hr.
    destruct Hr as (-> & _ & wh & wh' & Hw & Hw' & Hp & _). split; [assumption|]. split; [reflexivity|].
    exists wh'. split; [assumption|]. rewrite Hp.
    assert (wh = thread_at demo 3) as -> by (unfold thread_at; rewrite Hw; reflexivity).
    vm_compute. reflexivity.
  - apply (owned_ok demo owned_by_3 3); [apply demo_kinv|reflexivity..|by right|vm_compute; reflexivity|].
    replace (tl demo (mutex_head 1)) with (@nil nat) by (vm_compute; reflexivity). apply not_elem_of_nil.
  - apply demo_ctx.
  - reflexivity.
  - reflexivity.
Defined.

(** Thread 3 waits for mutex 1, which thread 1 owns. *)
Definition demo_mutex_waits : kstate :=
  run (rt_ipc_list_suspend (mutex_head 1) 3 RT_IPC_FLAG_PRIO) demo.

Lemma rt_mutex_release_correct_witness :
  exists r st', rt_mutex_release 1 (demo_mutex owned_by_1, demo_mutex_waits) = Ok r st' /\ mutex_ok 1 st' /\
    exists mx', st'.1 !! 1%nat = Some mx' /\ mx_owner mx' = Some 3%nat.
Proof.
  destruct (rt_mutex_release_correct (demo_mutex owned_by_1) demo_mutex_waits 1 owned_by_1 eq_refl) with
    (t := 1%nat) (th := thread_at demo_mutex_waits 1) as (r & st' & Hr & Hok & Hc).
  - apply (owned_ok demo_mutex_waits owned_by_1 1);
      [apply kinvb_kinv; vm_compute; reflexivity|reflexivity..|by right|vm_compute; reflexivity|].
    replace (tl demo_mutex_waits (mutex_head 1)) with [3%nat] by (vm_compute; reflexivity).
    intros H%list_elem_of_singleton. discriminate H.
  - apply (blocking_ctxb_ctx _ _ 4). vm_compute. reflexivity.
  - exists r, st'. split; [exact Hr|]. split; [exact Hok|].
    destruct (decide _) as [_|E]; [|exfalso; apply E; reflexivity].
    destruct Hc as [_ Hc]. destruct (decide _) as [E|_]; [discriminate E|].
    destruct Hc as (s1 & th1 & _ & _ & _ & Hc).
    replace (tl demo_mutex_waits (mutex_head 1)) with [3%nat] in Hc by (vm_compute; reflexivity).
    destruct Hc as (wh & _ & E & _). rewrite E. eexists. split; [apply lookup_insert_eq|reflexivity].
Defined.
