(* ===== verification/Event.v ===== *)
(** * Events: the event part of src/ipc.c

    Sets of 32 event flags; a thread waits for all (AND) or some (OR) of the
    flags it asks for, optionally clearing them. *)

From S2P Require Import Prelude Kernel Object Timer Scheduler Thread KInv ThreadSpec Ipc Semaphore.

Definition RT_EVENT_FLAG_AND : Z := 0x01.
Definition RT_EVENT_FLAG_OR : Z := 0x02.
Definition RT_EVENT_FLAG_CLEAR : Z := 0x04.

(** [struct rt_event] *)
Record rt_event := mk_event { ev_set : Z; ev_flag : Z }.
Definition set_ev_set (v : Z) (x : rt_event) : rt_event := mk_event v (ev_flag x).

Definition event_state : Type := gmap nat rt_event * kstate.
Definition event_ref (o : nat) : obj_ref := Obj RT_Object_Class_Event o.
Definition event_head (o : nat) : tlist_head := HSuspend RT_Object_Class_Event o.

Definition has_flag (v flag : Z) : bool := negb (Z.land v flag =? 0).

Definition rt_event_init (o : nat) (name : list Z) (flag : Z) : M event_state Z :=
  on_snd (rt_object_init (event_ref o) name);;
  on_snd (rt_ipc_object_init (event_head o));;
  put_obj o (mk_event 0 flag);;
  mret RT_EOK.

Definition rt_event_detach (o : nat) : M event_state Z :=
  on_snd (rt_ipc_list_resume_all (event_head o));;
  on_snd (rt_object_detach (event_ref o));;
  mret RT_EOK.

Definition rt_event_create (mem : option nat) (name : list Z) (flag : Z) : M event_state (option nat) :=
  on_snd RT_DEBUG_NOT_IN_INTERRUPT;;
  r ← on_snd (rt_object_allocate RT_Object_Class_Event mem name);
  match r with
  | None => mret None
  | Some o =>
      on_snd (rt_ipc_object_init (event_head o));;
      put_obj o (mk_event 0 flag);;
      mret (Some o)
  end.

Definition rt_event_delete (o : nat) : M event_state Z :=
  on_snd RT_DEBUG_NOT_IN_INTERRUPT;;
  on_snd (rt_ipc_list_resume_all (event_head o));;
  on_snd (rt_object_delete (event_ref o));;
  del_obj o;;
  mret RT_EOK.

(** The test on [event_info] and [event_set], which [rt_event_send] and
    [rt_event_recv] share. *)
Definition satisfied (info want set : Z) : bool :=
  if has_flag info RT_EVENT_FLAG_AND then Z.land want set =? want
  else if has_flag info RT_EVENT_FLAG_OR then negb (Z.land want set =? 0)
  else false.

(** The [while] loop of [rt_event_send] over the nodes [l] still to visit; the
    next node is read before the thread is resumed, so the nodes visited are
    those of the list at the start.  The result is [need_schedule]. *)
Fixpoint event_wake (l : list nat) (o : nat) : M event_state bool :=
  match l with
  | [] => mret false
  | t :: l =>
      th ← on_snd (get_thread t);
      ev ← get_obj o;
      if satisfied (th_event_info th) (th_event_set th) (ev_set ev) then
        on_snd (when (negb (has_flag (th_event_info th) RT_EVENT_FLAG_AND))
          (upd_thread t (set_th_event_set (Z.land (th_event_set th) (ev_set ev)))));;
        th' ← on_snd (get_thread t);
        when (has_flag (th_event_info th') RT_EVENT_FLAG_CLEAR)
          (upd_obj o (set_ev_set (Z.land (ev_set ev) (Z.lnot (th_event_set th')))));;
        on_snd (rt_thread_resume t);;
        event_wake l o;;
        mret true
      else event_wake l o
  end.

Definition rt_event_send (o : nat) (set : Z) : M event_state Z :=
  if set =? 0 then mret (- RT_ERROR)
  else
    upd_obj o (fun ev => set_ev_set (Z.lor (ev_set ev) set) ev);;
    st ← get;
    need_schedule ← event_wake (tl st.2 (event_head o)) o;
    on_snd (when need_schedule rt_schedule);;
    mret RT_EOK.

(** Up to the call of [rt_schedule]: the error code and the value written to
    [*recved], or the waiting thread. *)
Definition rt_event_recv (o : nat) (set opt timeout : Z) : M event_state (call nat (Z * option Z)) :=
  on_snd RT_DEBUG_IN_THREAD_CONTEXT;;
  if set =? 0 then mret (Return (- RT_ERROR, None))
  else
    t ← on_snd rt_thread_self;
    on_snd (upd_thread t (set_th_error RT_EOK));;
    rt_assert (has_flag opt RT_EVENT_FLAG_AND || has_flag opt RT_EVENT_FLAG_OR);;
    ev ← get_obj o;
    if satisfied opt set (ev_set ev) then
      when (has_flag opt RT_EVENT_FLAG_CLEAR)
        (upd_obj o (set_ev_set (Z.land (ev_set ev) (Z.lnot set))));;
      th ← on_snd (get_thread t);
      mret (Return (th_error th, Some (Z.land (ev_set ev) set)))
    else if timeout =? 0 then
      on_snd (upd_thread t (set_th_error (- RT_ETIMEOUT)));;
      th ← on_snd (get_thread t);
      mret (Return (th_error th, None))
    else
      on_snd (upd_thread t (fun th => set_th_event_info opt (set_th_event_set set th)));;
      on_snd (wait_on (event_head o) t (ev_flag ev) timeout);;
      mret (Waiting t).

(** From the return of [rt_schedule] on. *)
Definition rt_event_recv_resume (t : nat) : M event_state (call nat (Z * option Z)) :=
  th ← on_snd (get_thread t);
  if negb (th_error th =? RT_EOK) then mret (Return (th_error th, None))
  else mret (Return (th_error th, Some (th_event_set th))).

Definition rt_event_control (o : nat) (cmd arg : Z) : M event_state Z :=
  if cmd =? RT_IPC_CMD_RESET then
    on_snd (rt_ipc_list_resume_all (event_head o));;
    upd_obj o (set_ev_set 0);;
    on_snd rt_schedule;;
    mret RT_EOK
  else mret (- RT_ERROR).

(** ** Subsets of flags *)

Definition flags_subset (a b : Z) : Prop := Z.land a b = a.

Lemma flags_subset_refl a : flags_subset a a.
Proof. apply Z.land_diag. Qed.
Lemma flags_subset_trans a b c : flags_subset a b -> flags_subset b c -> flags_subset a c.
Proof. unfold flags_subset. intros H1 H2. rewrite <- H1 at 1. by rewrite <- Z.land_assoc, H2. Qed.
Lemma flags_subset_clear a x : flags_subset (Z.land a x) a.
Proof. unfold flags_subset. by rewrite <- Z.land_assoc, (Z.land_comm x), Z.land_assoc, Z.land_diag. Qed.
#[export] Hint Resolve flags_subset_refl flags_subset_clear : kernel.

(** More flags satisfy more waiting threads. *)
Lemma satisfied_mono info want a b : flags_subset a b -> satisfied info want a = true -> satisfied info want b = true.
Proof.
  unfold flags_subset, satisfied. intros Hs. destruct (has_flag info RT_EVENT_FLAG_AND).
  - rewrite !Z.eqb_eq. intros H. rewrite <- H at 1. by rewrite <- Z.land_assoc, Hs.
  - destruct (has_flag info RT_EVENT_FLAG_OR); [|done]. rewrite !negb_true_iff, !Z.eqb_neq.
    intros H Hb. apply H. rewrite <- Hs, (Z.land_comm a b), Z.land_assoc, Hb. apply Z.land_0_l.
Qed.

Lemma unsatisfied_anti info want a b : flags_subset a b -> satisfied info want b = false -> satisfied info want a = false.
Proof. intros Hs Hb. destruct (satisfied info want a) eqn:E; [|done]. by rewrite (satisfied_mono _ _ _ _ Hs E) in Hb. Qed.

(** The flags a satisfied thread receives. *)
Definition received (info want set : Z) : Z :=
  if has_flag info RT_EVENT_FLAG_AND then want else Z.land want set.

(** A thread that is ready with these flags. *)
Definition woken (th : rt_thread) (flags : Z) : rt_thread :=
  set_th_stat (with_state RT_THREAD_READY (th_stat th)) (set_th_event_set flags th).

(** What a round of the loop does to the event and to the thread it wakes. *)
Definition after_wake (th : rt_thread) (ev : rt_event) : rt_event :=
  if has_flag (th_event_info th) RT_EVENT_FLAG_CLEAR then
    set_ev_set (Z.land (ev_set ev) (Z.lnot (received (th_event_info th) (th_event_set th) (ev_set ev)))) ev
  else ev.

Lemma after_wake_subset th ev : flags_subset (ev_set (after_wake th ev)) (ev_set ev).
Proof. unfold after_wake. destruct (has_flag _ _); simpl; auto with kernel. Qed.

Lemma after_wake_flag th ev : ev_flag (after_wake th ev) = ev_flag ev.
Proof. unfold after_wake. by destruct (has_flag _ _). Qed.

(** ** Reference: who gets which flags

    Bit 0 of the option asks for all of the wanted flags, else bit 1 for some of
    them; bit 2 consumes what was received. *)

Definition meets (info want set : Z) : bool :=
  if Z.testbit info 0 then Z.ldiff want set =? 0 else Z.testbit info 1 && negb (Z.land want set =? 0).
Definition gets_flags (info want set : Z) : Z := if Z.testbit info 0 then want else Z.land want set.

(** The waiting threads, in the order of the list, against the flags that are
    left: the threads to be woken with the flags each receives, the threads that
    stay, and the flags that remain.  [req] gives what a thread waits for. *)
Fixpoint dispatch (req : nat -> Z * Z) (l : list nat) (set : Z) : list (nat * Z) * list nat * Z :=
  match l with
  | [] => ([], [], set)
  | t :: l =>
      let '(info, want) := req t in
      if meets info want set then
        let got := gets_flags info want set in
        let '(w, k, rest) := dispatch req l (if Z.testbit info 2 then Z.ldiff set got else set) in
        ((t, got) :: w, k, rest)
      else let '(w, k, rest) := dispatch req l set in (w, t :: k, rest)
  end.

Definition request_of (s : kstate) (t : nat) : Z * Z :=
  match k_threads s !! t with Some th => (th_event_info th, th_event_set th) | None => (0, 0) end.

Lemma has_flag_bit v n : 0 <= n -> has_flag v (2 ^ n) = Z.testbit v n.
Proof.
  intros Hn. unfold has_flag. destruct (Z.testbit v n) eqn:E.
  - apply negb_true_iff, Z.eqb_neq. intros H. apply (f_equal (fun z => Z.testbit z n)) in H.
    by rewrite Z.land_spec, E, Z.pow2_bits_true, Z.bits_0 in H.
  - apply negb_false_iff, Z.eqb_eq, Z.bits_inj'. intros i Hi. rewrite Z.land_spec, Z.bits_0.
    destruct (decide (i = n)) as [->|]; [by rewrite E|]. by rewrite Z.pow2_bits_false, andb_false_r.
Qed.

Lemma land_covers want set : (Z.land want set =? want) = (Z.ldiff want set =? 0).
Proof.
  apply eq_iff_eq_true. rewrite !Z.eqb_eq. split; intros H.
  - rewrite <- H at 1. apply Z.bits_inj'. intros i Hi. rewrite Z.ldiff_spec, Z.land_spec, Z.bits_0.
    destruct (Z.testbit want i), (Z.testbit set i); done.
  - apply Z.bits_inj'. intros i Hi. apply (f_equal (fun z => Z.testbit z i)) in H.
    rewrite Z.ldiff_spec, Z.bits_0 in H. rewrite Z.land_spec.
    destruct (Z.testbit want i), (Z.testbit set i); done.
Qed.

Lemma flag_bits info :
  has_flag info RT_EVENT_FLAG_AND = Z.testbit info 0 /\ has_flag info RT_EVENT_FLAG_OR = Z.testbit info 1 /\
  has_flag info RT_EVENT_FLAG_CLEAR = Z.testbit info 2.
Proof. split_and!; [apply (has_flag_bit info 0)|apply (has_flag_bit info 1)|apply (has_flag_bit info 2)]; lia. Qed.

Lemma satisfied_meets info want set : satisfied info want set = meets info want set.
Proof.
  unfold satisfied, meets. destruct (flag_bits info) as (-> & -> & _). rewrite land_covers.
  by destruct (Z.testbit info 0), (Z.testbit info 1).
Qed.

Lemma received_gets info want set : received info want set = gets_flags info want set.
Proof. unfold received, gets_flags. by destruct (flag_bits info) as (-> & _). Qed.

Lemma dispatch_ext req req' l : forall set, (forall t, t ∈ l -> req t = req' t) -> dispatch req l set = dispatch req' l set.
Proof.
  induction l as [|t l IH]; intros set H; [done|]. simpl. rewrite <- (H t) by left.
  destruct (req t) as [info want]. by rewrite !IH by (intros; apply H; by right).
Qed.

Lemma dispatch_wake s t th l ev :
  k_threads s !! t = Some th -> satisfied (th_event_info th) (th_event_set th) (ev_set ev) = true ->
  dispatch (request_of s) (t :: l) (ev_set ev) =
    let '(w, k, rest) := dispatch (request_of s) l (ev_set (after_wake th ev)) in
    ((t, received (th_event_info th) (th_event_set th) (ev_set ev)) :: w, k, rest).
Proof.
  intros Ht Hsat. cbn [dispatch]. unfold request_of at 1. rewrite Ht, <- satisfied_meets, Hsat, <- received_gets.
  unfold after_wake. destruct (flag_bits (th_event_info th)) as (_ & _ & ->).
  destruct (Z.testbit (th_event_info th) 2); cbn [set_ev_set ev_set]; [rewrite Z.ldiff_land|]; reflexivity.
Qed.

Lemma dispatch_skip s t th l set :
  k_threads s !! t = Some th -> satisfied (th_event_info th) (th_event_set th) set = false ->
  dispatch (request_of s) (t :: l) set = let '(w, k, rest) := dispatch (request_of s) l set in (w, t :: k, rest).
Proof. intros Ht Hsat. cbn [dispatch]. unfold request_of at 1. by rewrite Ht, <- satisfied_meets, Hsat. Qed.

Section wake.
Context (o : nat).

(** One satisfied thread: its record gets the received flags and it is
    resumed; the flags are cleared if it asks for that. *)
Lemma run_wake_one m s ev t th l :
  m !! o = Some ev -> kinv s -> k_threads s !! t = Some th -> state_of th = RT_THREAD_SUSPEND ->
  satisfied (th_event_info th) (th_event_set th) (ev_set ev) = true ->
  exists s1, event_wake (t :: l) o (m, s) =
      (event_wake l o;; mret true) (<[o := after_wake th ev]> m, s1) /\
    kinv s1 /\ k_threads s1 = <[t := woken th (received (th_event_info th) (th_event_set th) (ev_set ev))]> (k_threads s) /\
    (forall h, waiting_head h -> tl s1 h = filter (fun u => u ≠ t) (tl s h)).
Proof.
  intros Hm I Ht Hst Hsat.
  set (th1 := set_th_event_set (received (th_event_info th) (th_event_set th) (ev_set ev)) th).
  set (s0 := set_k_threads (<[t := th1]>) s).
  assert (kinv s0) as I0 by by apply (kinv_thread_frame _ _ th).
  assert (k_threads s0 !! t = Some th1) as Ht0 by apply lookup_insert_eq.
  assert (when (negb (has_flag (th_event_info th) RT_EVENT_FLAG_AND))
    (upd_thread t (set_th_event_set (Z.land (th_event_set th) (ev_set ev)))) s = Ok tt s0) as E1.
  { unfold when, s0, th1, received. destruct (has_flag (th_event_info th) RT_EVENT_FLAG_AND); simpl.
    - replace (set_th_event_set (th_event_set th) th) with th by by destruct th. by rewrite set_threads_id.
    - by apply run_upd_thread. }
  assert (when (has_flag (th_event_info th1) RT_EVENT_FLAG_CLEAR)
    (upd_obj o (set_ev_set (Z.land (ev_set ev) (Z.lnot (th_event_set th1))))) (m, s0)
    = Ok tt (<[o := after_wake th ev]> m, s0)) as E2.
  { unfold when, after_wake. change (th_event_info th1) with (th_event_info th).
    destruct (has_flag _ RT_EVENT_FLAG_CLEAR).
    - by apply (run_upd_obj m s0).
    - by rewrite insert_id. }
  exists (resumed t th1 s0). split_and!.
  - simpl. run_step (run_on_snd _ m _ _ _ (run_get_thread _ _ _ Ht)). run_step (run_get_obj m s o ev Hm).
    rewrite Hsat. run_step (run_on_snd _ m _ _ _ E1). run_step (run_on_snd _ m _ _ _ (run_get_thread _ _ _ Ht0)).
    run_step E2. by run_step (run_on_snd _ (<[o := after_wake th ev]> m) _ _ _ (run_thread_resume _ _ _ I0 Ht0 Hst)).
  - by apply kinv_resumed.
  - rewrite resumed_lookup. simpl. by rewrite insert_insert_eq.
  - intros h Hh. rewrite resumed_tl, decide_False by (by intros <-). done.
Qed.

(** The loop over the nodes [l], with the threads [a] already passed over: it
    dispatches the flags as the reference does; the threads [l'] stay,
    unsatisfied; those of [w] are woken with the flags they received. *)
Record scanned (a l : list nat) (w : list (nat * Z)) (l' : list nat) (ev ev' : rt_event) (s s' : kstate) : Prop := {
  sc_dispatch : dispatch (request_of s) l (ev_set ev) = (w, l', ev_set ev');
  sc_inv : kinv s';
  sc_list : tl s' (event_head o) = a ++ l';
  sc_sub : forall t, t ∈ w.*1 \/ t ∈ l' -> t ∈ l;
  sc_flags : flags_subset (ev_set ev') (ev_set ev);
  sc_flag : ev_flag ev' = ev_flag ev;
  sc_left : forall t, t ∈ l' -> exists th, k_threads s' !! t = Some th /\ k_threads s !! t = Some th /\
    satisfied (th_event_info th) (th_event_set th) (ev_set ev') = false;
  sc_woken : forall t f th, (t, f) ∈ w -> k_threads s !! t = Some th -> k_threads s' !! t = Some (woken th f);
  sc_others : forall t, t ∉ w.*1 -> k_threads s' !! t = k_threads s !! t;
  sc_lists : forall h, waiting_head h -> h ≠ event_head o -> tl s' h = tl s h
}.

Lemma event_head_waiting : waiting_head (event_head o).
Proof. done. Qed.

(** The first node is woken: what the rest of the loop gives is extended. *)
Lemma scanned_wake a t th l w l' ev ev' s s1 s' :
  kinv s -> tl s (event_head o) = a ++ t :: l -> k_threads s !! t = Some th ->
  satisfied (th_event_info th) (th_event_set th) (ev_set ev) = true ->
  k_threads s1 = <[t := woken th (received (th_event_info th) (th_event_set th) (ev_set ev))]> (k_threads s) ->
  (forall h, waiting_head h -> tl s1 h = filter (fun u => u ≠ t) (tl s h)) ->
  scanned a l w l' (after_wake th ev) ev' s1 s' ->
  scanned a (t :: l) ((t, received (th_event_info th) (th_event_set th) (ev_set ev)) :: w) l' ev ev' s s'.
Proof.
  intros I E Ht Hsat Eth Etl [Hd Hi Hl Hsub Hfl Hfg Hleft Hw Ho Hls].
  pose proof (inv_nodup _ I (event_head o)) as Hnd. rewrite E in Hnd.
  apply NoDup_app in Hnd as (_ & _ & [Htl _]%NoDup_cons).
  assert (forall u, u ∈ l -> k_threads s1 !! u = k_threads s !! u) as Hsame.
  { intros u Hu. rewrite Eth, lookup_insert_ne; [done|]. by intros ->. }
  split; try done.
  - rewrite (dispatch_wake _ _ th) by done.
    rewrite (dispatch_ext (request_of s) (request_of s1)), Hd; [done|]. intros u Hu. unfold request_of. by rewrite Hsame.
  - intros u. cbn [fmap list_fmap fst]. rewrite !elem_of_cons. specialize (Hsub u). tauto.
  - eapply flags_subset_trans; [done|apply after_wake_subset].
  - by rewrite Hfg, after_wake_flag.
  - intros u Hu. destruct (Hleft u Hu) as (uh & ? & ? & ?). exists uh. split_and!; [done| |done].
    rewrite <- Hsame; [done|]. apply Hsub. by right.
  - intros u f uh [[= -> ->]|Hin]%elem_of_cons Hu.
    + simplify_eq. rewrite Ho, Eth; [apply lookup_insert_eq|]. intros Hin. apply Htl, Hsub. by left.
    + assert (u ∈ l) as Hul by (apply Hsub; left; apply list_elem_of_fmap; by exists (u, f)).
      apply Hw; [done|]. by rewrite Hsame.
  - intros u [Hne Hn]%not_elem_of_cons. rewrite Ho, Eth by done. by apply lookup_insert_ne.
  - intros h Hh Hne. rewrite Hls, Etl by done. apply filter_ne_notin. intros Hin. apply Hne.
    apply (inv_uniq _ I _ _ t); [done|]. rewrite E. set_solver.
Qed.

(** The first node stays. *)
Lemma scanned_skip a t th l w l' ev ev' s s' :
  kinv s -> tl s (event_head o) = a ++ t :: l -> k_threads s !! t = Some th ->
  satisfied (th_event_info th) (th_event_set th) (ev_set ev) = false ->
  scanned (a ++ [t]) l w l' ev ev' s s' -> scanned a (t :: l) w (t :: l') ev ev' s s'.
Proof.
  intros I E Ht Hsat [Hd Hi Hl Hsub Hfl Hfg Hleft Hw Ho Hls].
  pose proof (inv_nodup _ I (event_head o)) as Hnd. rewrite E in Hnd.
  apply NoDup_app in Hnd as (_ & _ & [Htl _]%NoDup_cons).
  split; try done.
  - by rewrite (dispatch_skip _ _ th), Hd.
  - by rewrite Hl, <- app_assoc.
  - intros u. rewrite !elem_of_cons. specialize (Hsub u). tauto.
  - intros u [->|Hu]%elem_of_cons; [|by apply Hleft].
    exists th. rewrite Ho by (intros Hin; apply Htl, Hsub; by left). split_and!; [done|done|]. by eapply unsatisfied_anti.
Qed.

Lemma run_event_wake l : forall a m s (ev : rt_event),
  m !! o = Some ev -> kinv s -> tl s (event_head o) = a ++ l ->
  exists w l' (ev' : rt_event) (s' : kstate),
    event_wake l o (m, s) = Ok (negb (bool_decide (w = []))) (<[o := ev']> m, s') /\
    scanned a l w l' ev ev' s s'.
Proof.
  induction l as [|t l IH]; intros a m s ev Hm I E.
  - exists [], [], ev, s. rewrite insert_id by done. split; [done|].
    split; try done; auto with kernel; intros *; set_solver.
  - destruct (inv_waiting _ I (event_head o) t event_head_waiting) as (th & Ht & Hst); [rewrite E; set_solver|].
    pose proof (inv_nodup _ I (event_head o)) as Hnd. rewrite E in Hnd.
    destruct (satisfied (th_event_info th) (th_event_set th) (ev_set ev)) eqn:Hsat.
    + destruct (run_wake_one m s ev t th l Hm I Ht Hst Hsat) as (s1 & Hr & I1 & Eth & Etl).
      destruct (IH a (<[o := after_wake th ev]> m) s1 (after_wake th ev)) as (w & l' & ev' & s' & Hr' & Hsc).
      * apply lookup_insert_eq.
      * done.
      * by rewrite Etl, E, filter_ne_split.
      * eexists _, l', ev', s'. split; [|by eapply scanned_wake].
        rewrite Hr. run_step Hr'. by rewrite insert_insert_eq.
    + destruct (IH (a ++ [t]) m s ev) as (w & l' & ev' & s' & Hr' & Hsc); [done|done|by rewrite <- app_assoc|].
      exists w, (t :: l'), ev', s'. split; [|by eapply scanned_skip].
      simpl. run_step (run_on_snd _ m _ _ _ (run_get_thread _ _ _ Ht)). run_step (run_get_obj m s o ev Hm).
      by rewrite Hsat, Hr'.
Qed.
End wake.

(** ** The operations *)

(** No thread waits for flags that are already there. *)
Record event_ok (o : nat) (st : event_state) : Prop := {
  eo_inv : kinv st.2;
  eo_event : exists ev, st.1 !! o = Some ev /\ ipc_flag (ev_flag ev) /\
    forall t th, t ∈ tl st.2 (event_head o) -> k_threads st.2 !! t = Some th ->
      satisfied (th_event_info th) (th_event_set th) (ev_set ev) = false
}.

Lemma event_ok_intro o m s ev :
  kinv s -> m !! o = Some ev -> ipc_flag (ev_flag ev) ->
  (forall t th, t ∈ tl s (event_head o) -> k_threads s !! t = Some th ->
     satisfied (th_event_info th) (th_event_set th) (ev_set ev) = false) -> event_ok o (m, s).
Proof. intros. split; [done|]. by exists ev. Qed.

(** The threads [w] are ready with their flags, the threads [k] wait as before,
    and no other thread has changed. *)
Record dispatched (o : nat) (w : list (nat * Z)) (k : list nat) (s s' : kstate) : Prop := {
  dp_inv : kinv s';
  dp_list : tl s' (event_head o) = k;
  dp_woken : forall t f th, (t, f) ∈ w -> k_threads s !! t = Some th -> ready s' t (woken th f);
  dp_others : forall t, t ∉ w.*1 -> k_threads s' !! t = k_threads s !! t;
  dp_lists : forall h, waiting_head h -> h ≠ event_head o -> tl s' h = tl s h
}.

Lemma woken_ready th f : state_of (woken th f) = RT_THREAD_READY.
Proof. apply (state_ready (set_th_event_set f th)). Qed.

Lemma scanned_dispatched o l w k ev ev' s s' : scanned o [] l w k ev ev' s s' -> dispatched o w k s s'.
Proof. intros []. split; try done. intros t f th Hin Ht. split; [eauto|apply woken_ready]. Qed.

Lemma dispatched_scheduled o w k s s' : dispatched o w k s s' -> dispatched o w k s (scheduled s').
Proof.
  intros [Hi Hl Hw Ho Hls]. split.
  - by apply kinv_scheduled.
  - by rewrite tl_scheduled.
  - intros t f th Hin Ht. destruct (Hw t f th Hin Ht). split; [by rewrite scheduled_threads|done].
  - intros t Hn. rewrite scheduled_threads. by apply Ho.
  - intros h Hh Hne. rewrite tl_scheduled. by apply Hls.
Qed.

Section event.
Context (m : gmap nat rt_event) (s : kstate) (o : nat) (ev : rt_event).
Context (Hm : m !! o = Some ev) (Hok : event_ok o (m, s)).

(** C35: [rt_event_send] refuses the empty set.  Otherwise the flags are added
    and dispatched to the waiting threads in the order of the list, each against
    the flags that those before it have left: a thread whose condition holds
    becomes ready with the flags it receives, and consumes them if it asked for
    that; the other threads stay in order.  Exactly the flags that nobody
    consumed remain, and no thread is left waiting for flags that are set.  The
    scheduler runs when a thread was woken; threads that do not wait on the event
    are not touched. *)
Theorem rt_event_send_correct set :
  exists r st', rt_event_send o set (m, s) = Ok r st' /\ event_ok o st' /\
    if decide (set = 0) then r = - RT_ERROR /\ st' = (m, s)
    else
      let '(w, k, rest) := dispatch (request_of s) (tl s (event_head o)) (Z.lor (ev_set ev) set) in
      r = RT_EOK /\ st'.1 = <[o := set_ev_set rest ev]> m /\
      exists s1, dispatched o w k s s1 /\ st'.2 = (if decide (w = []) then s1 else scheduled s1).
Proof.
  destruct Hok as [I (ev0 & Hm0 & Hf & Hun)]. simpl in *. rewrite Hm in Hm0. injection Hm0 as <-.
  unfold rt_event_send. case_decide as Hz; [subst; by eexists _, _|]. rewrite (proj2 (Z.eqb_neq _ _) Hz).
  run_step (run_upd_obj m s o (fun ev => set_ev_set (Z.lor (ev_set ev) set) ev) ev Hm).
  set (ev1 := set_ev_set (Z.lor (ev_set ev) set) ev). unfold get at 1. erewrite bind_Ok by reflexivity. cbn [snd].
  destruct (run_event_wake o (tl s (event_head o)) [] (<[o := ev1]> m) s ev1) as (w & k & ev' & s1 & Hr & Hsc).
  { apply lookup_insert_eq. } { done. } { done. }
  pose proof (scanned_dispatched _ _ _ _ _ _ _ _ Hsc) as Hdp.
  run_step Hr. rewrite insert_insert_eq.
  set (s2 := if decide (w = []) then s1 else scheduled s1).
  assert (dispatched o w k s s2) as Hdp2 by (unfold s2; case_decide; [done|by apply dispatched_scheduled]).
  assert (on_snd (when (negb (bool_decide (w = []))) rt_schedule) (<[o := ev']> m, s1) = Ok tt (<[o := ev']> m, s2)) as E.
  { apply run_on_snd. unfold s2. case_decide as E; [by rewrite bool_decide_eq_true_2|].
    rewrite bool_decide_eq_false_2 by done. simpl. destruct w as [|[t f] w]; [done|].
    destruct (inv_waiting _ I (event_head o) t) as (th & Ht & _); [done|apply (sc_sub _ _ _ _ _ _ _ _ _ Hsc); left; left|].
    eapply run_schedule; [apply Hsc|]. apply (dp_woken _ _ _ _ _ Hdp t f th); [left|done]. }
  run_step E. pose proof (sc_dispatch _ _ _ _ _ _ _ _ _ Hsc) as Ed. cbn [ev1 set_ev_set ev_set] in Ed. rewrite Ed.
  pose proof (sc_flag _ _ _ _ _ _ _ _ _ Hsc) as Efl.
  eexists _, _. split; [reflexivity|]. split.
  - apply (event_ok_intro _ _ _ ev'); [apply Hdp2|apply lookup_insert_eq|by rewrite Efl|].
    intros t th Hin Ht. rewrite (dp_list _ _ _ _ _ Hdp2) in Hin.
    destruct (sc_left _ _ _ _ _ _ _ _ _ Hsc t Hin) as (th' & Ht' & _ & ?).
    assert (k_threads s2 = k_threads s1) as E2 by (unfold s2; case_decide; [done|by rewrite scheduled_threads]).
    rewrite E2 in Ht. by simplify_eq.
  - split; [done|]. split; [|by exists s1]. simpl. f_equal. destruct ev'. simpl in Efl. by subst.
Qed.

Lemma event_waiters_error t th e :
  k_threads s !! t = Some th ->
  event_ok o (m, set_k_threads (<[t := set_th_error e th]>) s).
Proof.
  intros Ht. destruct Hok as [I (ev0 & Hm0 & Hf & Hun)]. simpl in *.
  apply (event_ok_intro _ _ _ ev0); [by apply kinv_set_error|done|done|].
  simpl. intros u uh Hin [[<- <-]|[_ Hu]]%lookup_insert_Some; [|by eapply Hun]. exact (Hun t th Hin Ht).
Qed.

Context (t : nat) (th : rt_thread) (B : blocking_ctx s t th).
Let th0 := set_th_error RT_EOK th.
Let s0 := set_k_threads (<[t := th0]>) s.

(** The call waits: the caller's flags are recorded and it joins the list. *)
Lemma run_event_wait set opt timeout :
  let th1 := set_th_event_info opt (set_th_event_set set th0) in
  let s1 := set_k_threads (<[t := th1]>) s0 in
  satisfied opt set (ev_set ev) = false -> timeout < RT_TICK_MAX / 2 ->
  exists s', (upd_thread t (fun th => set_th_event_info opt (set_th_event_set set th));;
              wait_on (event_head o) t (ev_flag ev) timeout) s0 = Ok tt s' /\
    entered_wait (event_head o) t th1 (ev_flag ev) timeout s1 s' /\ event_ok o (m, s').
Proof.
  intros th1 s1 Hsat Htime. destruct Hok as [I (ev0 & Hm0 & Hf & Hun)]. simpl in *.
  rewrite Hm in Hm0. injection Hm0 as <-. pose proof (proj1 (bc_ready _ _ _ B)) as Ht.
  assert (k_threads s0 !! t = Some th0) as Ht0 by apply lookup_insert_eq.
  assert (blocking_ctx s1 t th1) as B1
    by (apply (blocking_ctx_frame _ _ th0); [by apply blocking_ctx_set_error|done]).
  destruct (run_wait_entered s1 (event_head o) t th1 (ev_flag ev) timeout B1 eq_refl (event_head_waiting o) Hf Htime)
    as (s' & Hr & He).
  exists s'. split_and!; [|done|].
  - by run_step (run_upd_thread s0 t (fun th => set_th_event_info opt (set_th_event_set set th)) _ Ht0).
  - apply (event_ok_intro _ _ _ ev); [apply He|done|done|]. intros u uh.
    rewrite (ew_list _ _ _ _ _ _ _ He), queue_insert_perm, elem_of_cons.
    destruct (decide (u = t)) as [->|Hne].
    + intros _. rewrite (ew_thread _ _ _ _ _ _ _ He). by intros [= <-].
    + rewrite (ew_others _ _ _ _ _ _ _ He) by done. intros [|Hin] Hu; [done|]. apply (Hun u uh Hin).
      simpl in Hu. by rewrite !lookup_insert_ne in Hu.
Qed.

(** [rt_event_recv] refuses the empty set; when the condition holds it
    returns the flags that are set and were asked for, and clears the flags
    asked for if told to; otherwise it fails at once without a waiting time, or
    records what is asked for and waits.  No thread is left waiting for flags
    that are set. *)
Theorem rt_event_recv_correct set opt timeout :
  has_flag opt RT_EVENT_FLAG_AND || has_flag opt RT_EVENT_FLAG_OR = true -> timeout < RT_TICK_MAX / 2 ->
  exists r st', rt_event_recv o set opt timeout (m, s) = Ok r st' /\ event_ok o st' /\
    if decide (set = 0) then r = Return (- RT_ERROR, None) /\ st' = (m, s)
    else if satisfied opt set (ev_set ev) then
      r = Return (RT_EOK, Some (Z.land (ev_set ev) set)) /\
      st' = (if has_flag opt RT_EVENT_FLAG_CLEAR
             then <[o := set_ev_set (Z.land (ev_set ev) (Z.lnot set)) ev]> m else m, s0)
    else if decide (timeout = 0) then
      r = Return (- RT_ETIMEOUT, None) /\
      st' = (m, set_k_threads (<[t := set_th_error (- RT_ETIMEOUT) th0]>) s0)
    else
      let th1 := set_th_event_info opt (set_th_event_set set th0) in
      r = Waiting t /\ st'.1 = m /\
      entered_wait (event_head o) t th1 (ev_flag ev) timeout (set_k_threads (<[t := th1]>) s0) st'.2.
Proof.
  intros Hopt Htime. pose proof Hok as [I (ev0 & Hm0 & Hf & Hun)]. simpl in *.
  rewrite Hm in Hm0. injection Hm0 as <-. pose proof (proj1 (bc_ready _ _ _ B)) as Ht.
  assert (k_threads s0 !! t = Some th0) as Ht0 by apply lookup_insert_eq.
  unfold rt_event_recv. run_step (run_on_snd _ m _ _ _ (run_in_thread_context _ _ _ B)).
  case_decide as Hz; [subst set; by eexists _, _|]. rewrite (proj2 (Z.eqb_neq _ _) Hz).
  run_step (run_on_snd _ m _ _ _ (run_thread_self _ _ (bc_current _ _ _ B))).
  run_step (run_on_snd _ m _ _ _ (run_upd_thread s t (set_th_error RT_EOK) th Ht)). fold th0 s0.
  rewrite Hopt. erewrite bind_Ok by reflexivity. run_step (run_get_obj m s0 o ev Hm).
  destruct (satisfied opt set (ev_set ev)) eqn:Hsat.
  - exists (Return (RT_EOK, Some (Z.land (ev_set ev) set))). eexists. split; [|split; [|by split]].
    + destruct (has_flag opt RT_EVENT_FLAG_CLEAR); unfold when.
      * run_step (run_upd_obj m s0 o (set_ev_set (Z.land (ev_set ev) (Z.lnot set))) ev Hm).
        by run_step (run_on_snd _ (<[o := set_ev_set (Z.land (ev_set ev) (Z.lnot set)) ev]> m) _ _ _ (run_get_thread _ _ _ Ht0)).
      * erewrite bind_Ok by reflexivity. by run_step (run_on_snd _ m _ _ _ (run_get_thread _ _ _ Ht0)).
    + destruct (event_waiters_error t th RT_EOK Ht) as [I0 (ev1 & Hm1 & Hf1 & Hun1)]. simpl in Hm1.
      rewrite Hm in Hm1. injection Hm1 as <-. destruct (has_flag opt RT_EVENT_FLAG_CLEAR).
      * eapply event_ok_intro; [exact I0|apply lookup_insert_eq|exact Hf1|]. intros u uh Hin Hu.
        eapply unsatisfied_anti; [|by eapply Hun1]. simpl. auto with kernel.
      * by apply (event_ok_intro _ _ _ ev).
  - case_decide as Htz.
    + subst timeout. exists (Return (- RT_ETIMEOUT, None)). eexists. split; [|split; [|by split]].
      * change (0 =? 0) with true. cbv iota.
        run_step (run_on_snd _ m _ _ _ (run_upd_thread s0 t (set_th_error (- RT_ETIMEOUT)) th0 Ht0)).
        by run_step (run_on_snd _ m _ _ _ (run_get_thread (set_k_threads (<[t := set_th_error (- RT_ETIMEOUT) th0]>) s0)
          t (set_th_error (- RT_ETIMEOUT) th0) (lookup_insert_eq _ _ _))).
      * replace (set_k_threads _ s0) with (set_k_threads (<[t := set_th_error (- RT_ETIMEOUT) th]>) s)
          by (unfold s0, set_k_threads; simpl; by rewrite insert_insert_eq).
        by apply event_waiters_error.
    + rewrite (proj2 (Z.eqb_neq _ _) Htz).
      destruct (run_event_wait set opt timeout Hsat Htime) as (s' & Hr & He & Hk).
      exists (Waiting t), (m, s'). split; [|by split].
      revert Hr. run_step (run_upd_thread s0 t (fun th => set_th_event_info opt (set_th_event_set set th)) _ Ht0).
      intros Hr. run_step (run_on_snd _ m _ _ _ (run_upd_thread s0 t (fun th => set_th_event_info opt (set_th_event_set set th)) _ Ht0)).
      by run_step (run_on_snd _ m _ _ _ Hr).
Qed.
End event.

(** ** Witnesses *)

(** Thread 1 waits for flags 0 and 2 of event 1, both of them. *)
Definition demo_event (set : Z) : gmap nat rt_event := {[1%nat := mk_event set RT_IPC_FLAG_FIFO]}.

Lemma demo_event_ok s v : kinv s -> tl s (event_head 1) = [] -> event_ok 1 (demo_event v, s).
Proof.
  intros I E. eapply event_ok_intro; [done|apply lookup_singleton_eq|by left|]. rewrite E. set_solver.
Qed.

Lemma demo_no_event_waiter : tl demo (event_head 1) = [].
Proof. vm_compute. reflexivity. Qed.

Lemma rt_event_recv_correct_witness :
  exists r st', rt_event_recv 1 5 RT_EVENT_FLAG_AND 100 (demo_event 4, demo) = Ok r st' /\ event_ok 1 st' /\
    r = Waiting 1%nat.
Proof.
  destruct (rt_event_recv_correct (demo_event 4) demo 1 (mk_event 4 RT_IPC_FLAG_FIFO) eq_refl) with
    (t := 1%nat) (th := thread_at demo 1) (set := 5) (opt := RT_EVENT_FLAG_AND) (timeout := 100) as (r & st' & E & Hk & H).
  - apply demo_event_ok; [apply demo_kinv|apply demo_no_event_waiter].
  - apply demo_ctx.
  - reflexivity.
  - reflexivity.
  - exists r, st'. split; [exact E|]. split; [exact Hk|]. destruct H as [H _]. exact H.
Defined.

Definition demo_event_waits : event_state := run (rt_event_recv 1 5 RT_EVENT_FLAG_AND 100) (demo_event 4, demo).

Lemma rt_event_send_correct_witness :
  exists r st', rt_event_send 1 1 (demo_event_waits.1, demo_event_waits.2) = Ok r st' /\ event_ok 1 st' /\ r = RT_EOK /\
    exists s1, dispatched 1 [(1%nat, 5)] [] demo_event_waits.2 s1.
Proof.
  destruct (rt_event_send_correct demo_event_waits.1 demo_event_waits.2 1 (mk_event 4 RT_IPC_FLAG_FIFO)) with
    (set := 1) as (r & st' & E & Hk & H).
  - vm_compute. reflexivity.
  - eapply event_ok_intro.
    + apply kinvb_kinv. vm_compute. reflexivity.
    + vm_compute. reflexivity.
    + by left.
    + replace (tl demo_event_waits.2 (event_head 1)) with [1%nat] by (vm_compute; reflexivity).
      intros t th ->%list_elem_of_singleton Ht.
      assert (th = thread_at demo_event_waits.2 1) as -> by (unfold thread_at; rewrite Ht; reflexivity).
      vm_compute. reflexivity.
  - exists r, st'. split; [exact E|]. split; [exact Hk|]. rewrite decide_False in H by discriminate.
    assert (dispatch (request_of demo_event_waits.2) (tl demo_event_waits.2 (event_head 1)) (Z.lor 4 1) = ([(1%nat, 5)], [], 5)) as Ed
      by (vm_compute; reflexivity).
    cbn [ev_set] in H. rewrite Ed in H. destruct H as (Hr & _ & s1 & Hd & _). split; [exact Hr|]. exists s1. exact Hd.
Defined.
