(* ===== verification/Mailbox.v ===== *)
(** * Mailboxes: the mailbox part of src/ipc.c

    A ring of 32-bit mails with a list of waiting receivers and one of waiting
    senders.  The sending and receiving loops are split at [rt_schedule]: the
    locals they carry over it are the calling thread, the remaining timeout and
    the tick at which the wait began. *)

From S2P Require Import Prelude Kernel Object Timer Scheduler Thread KInv ThreadSpec Ipc Semaphore.

(** [struct rt_mailbox]; [mb_pool] is the memory behind [msg_pool]. *)
Record rt_mailbox := mk_mb {
  mb_pool : list Z;
  mb_size : Z;
  mb_entry : Z;
  mb_in : Z;
  mb_out : Z;
  mb_flag : Z
}.

Definition mb_state : Type := gmap nat rt_mailbox * kstate.
Definition mb_ref (o : nat) : obj_ref := Obj RT_Object_Class_MailBox o.
Definition mb_head (o : nat) : tlist_head := HSuspend RT_Object_Class_MailBox o.
Definition mb_senders (o : nat) : tlist_head := HSender o.

Definition empty_mb (pool : list Z) (size flag : Z) : rt_mailbox := mk_mb pool size 0 0 0 flag.

(** [pool] is the memory the caller passes, of [size] mails. *)
Definition rt_mb_init (o : nat) (name : list Z) (pool : list Z) (size flag : Z) : M mb_state Z :=
  on_snd (rt_object_init (mb_ref o) name);;
  on_snd (rt_ipc_object_init (mb_head o));;
  put_obj o (empty_mb pool (u16 size) flag);;
  on_snd (modify (set_k_tlists (<[mb_senders o := []]>)));;
  mret RT_EOK.

Definition rt_mb_detach (o : nat) : M mb_state Z :=
  on_snd (rt_ipc_list_resume_all (mb_head o));;
  on_snd (rt_ipc_list_resume_all (mb_senders o));;
  on_snd (rt_object_detach (mb_ref o));;
  mret RT_EOK.

(** [mem] and [pool] are the results of the two allocations. *)
Definition rt_mb_create (mem : option nat) (pool : option (list Z)) (name : list Z) (size flag : Z)
    : M mb_state (option nat) :=
  on_snd RT_DEBUG_NOT_IN_INTERRUPT;;
  r ← on_snd (rt_object_allocate RT_Object_Class_MailBox mem name);
  match r with
  | None => mret None
  | Some o =>
      on_snd (rt_ipc_object_init (mb_head o));;
      match pool with
      | None => on_snd (rt_object_delete (mb_ref o));; mret None
      | Some pool =>
          put_obj o (empty_mb pool (u16 size) flag);;
          on_snd (modify (set_k_tlists (<[mb_senders o := []]>)));;
          mret (Some o)
      end
  end.

Definition rt_mb_delete (o : nat) : M mb_state Z :=
  on_snd RT_DEBUG_NOT_IN_INTERRUPT;;
  on_snd (rt_ipc_list_resume_all (mb_head o));;
  on_snd (rt_ipc_list_resume_all (mb_senders o));;
  on_snd (rt_object_delete (mb_ref o));;
  del_obj o;;
  mret RT_EOK.

(** The locals of a call that waits. *)
Record wait_locals := mk_wait { wl_thread : nat; wl_timeout : Z; wl_tick : Z }.

(** [timeout -= tick_delta; if (timeout < 0) timeout = 0;] with
    [tick_delta = rt_tick_get() - tick_delta], in 32-bit arithmetic. *)
Definition remaining_timeout (timeout start now : Z) : Z :=
  if 0 <? timeout then
    let timeout := s32 (timeout - u32 (now - start)) in
    if timeout <? 0 then 0 else timeout
  else timeout.

(** [++offset; if (offset >= size) offset = 0;] on [rt_uint16_t]. *)
Definition next_offset (offset size : Z) : Z :=
  if size <=? u16 (offset + 1) then 0 else u16 (offset + 1).

(** From [set ptr] to the end of [rt_mb_send_wait]. *)
Definition mb_put (o : nat) (value : Z) : M mb_state Z :=
  mb ← get_obj o;
  rt_assert (Z.to_nat (mb_in mb) <? length (mb_pool mb))%nat;;
  put_obj o (mk_mb (<[Z.to_nat (mb_in mb) := value]> (mb_pool mb)) (mb_size mb) (u16 (mb_entry mb + 1))
               (next_offset (mb_in mb) (mb_size mb)) (mb_out mb) (mb_flag mb));;
  st ← get;
  (if negb (bool_decide (tl st.2 (mb_head o) = [])) then
     on_snd (rt_ipc_list_resume (mb_head o);; rt_schedule)
   else mret tt);;
  mret RT_EOK.

(** The [while] loop of [rt_mb_send_wait], up to its next [rt_schedule]; [c] is
    [rt_thread_self()], which is used only when the mailbox is full. *)
Definition mb_send_loop (o : nat) (c : option nat) (value timeout : Z) : M mb_state (call wait_locals Z) :=
  mb ← get_obj o;
  if mb_entry mb =? mb_size mb then
    t ← deref (fun _ => c);
    on_snd (upd_thread t (set_th_error RT_EOK));;
    if timeout =? 0 then mret (Return (- RT_EFULL))
    else
      on_snd RT_DEBUG_IN_THREAD_CONTEXT;;
      now ← on_snd rt_tick_get;
      on_snd (wait_on (mb_senders o) t (mb_flag mb) timeout);;
      mret (Waiting (mk_wait t timeout (if 0 <? timeout then now else 0)))
  else
    r ← mb_put o value; mret (Return r).

Definition rt_mb_send_wait (o : nat) (value timeout : Z) : M mb_state (call wait_locals Z) :=
  c ← on_snd (gets k_current);
  mb ← get_obj o;
  if (mb_entry mb =? mb_size mb) && (timeout =? 0) then mret (Return (- RT_EFULL))
  else mb_send_loop o c value timeout.

(** From the return of [rt_schedule] on. *)
Definition rt_mb_send_wait_resume (o : nat) (value : Z) (w : wait_locals) : M mb_state (call wait_locals Z) :=
  th ← on_snd (get_thread (wl_thread w));
  if negb (th_error th =? RT_EOK) then mret (Return (th_error th))
  else
    now ← on_snd rt_tick_get;
    mb_send_loop o (Some (wl_thread w)) value (remaining_timeout (wl_timeout w) (wl_tick w) now).

Definition rt_mb_send (o : nat) (value : Z) : M mb_state (call wait_locals Z) := rt_mb_send_wait o value 0.

(** From [fill ptr] to the end of [rt_mb_recv]; the value is [*value]. *)
Definition mb_get (o : nat) : M mb_state (Z * option Z) :=
  mb ← get_obj o;
  value ← deref (fun _ => mb_pool mb !! Z.to_nat (mb_out mb));
  put_obj o (mk_mb (mb_pool mb) (mb_size mb) (u16 (mb_entry mb - 1)) (mb_in mb)
               (next_offset (mb_out mb) (mb_size mb)) (mb_flag mb));;
  st ← get;
  (if negb (bool_decide (tl st.2 (mb_senders o) = [])) then
     on_snd (rt_ipc_list_resume (mb_senders o);; rt_schedule)
   else mret tt);;
  mret (RT_EOK, Some value).

(** The [while] loop of [rt_mb_recv], up to its next [rt_schedule]. *)
Definition mb_recv_loop (o : nat) (c : option nat) (timeout : Z)
    : M mb_state (call wait_locals (Z * option Z)) :=
  mb ← get_obj o;
  if mb_entry mb =? 0 then
    t ← deref (fun _ => c);
    on_snd (upd_thread t (set_th_error RT_EOK));;
    if timeout =? 0 then
      on_snd (upd_thread t (set_th_error (- RT_ETIMEOUT)));;
      mret (Return (- RT_ETIMEOUT, None))
    else
      on_snd RT_DEBUG_IN_THREAD_CONTEXT;;
      now ← on_snd rt_tick_get;
      on_snd (wait_on (mb_head o) t (mb_flag mb) timeout);;
      mret (Waiting (mk_wait t timeout (if 0 <? timeout then now else 0)))
  else
    r ← mb_get o; mret (Return r).

Definition rt_mb_recv (o : nat) (timeout : Z) : M mb_state (call wait_locals (Z * option Z)) :=
  c ← on_snd (gets k_current);
  mb ← get_obj o;
  if (mb_entry mb =? 0) && (timeout =? 0) then mret (Return (- RT_ETIMEOUT, None))
  else mb_recv_loop o c timeout.

Definition rt_mb_recv_resume (o : nat) (w : wait_locals) : M mb_state (call wait_locals (Z * option Z)) :=
  th ← on_snd (get_thread (wl_thread w));
  if negb (th_error th =? RT_EOK) then mret (Return (th_error th, None))
  else
    now ← on_snd rt_tick_get;
    mb_recv_loop o (Some (wl_thread w)) (remaining_timeout (wl_timeout w) (wl_tick w) now).

Definition rt_mb_control (o : nat) (cmd arg : Z) : M mb_state Z :=
  if cmd =? RT_IPC_CMD_RESET then
    on_snd (rt_ipc_list_resume_all (mb_head o));;
    on_snd (rt_ipc_list_resume_all (mb_senders o));;
    upd_obj o (fun mb => empty_mb (mb_pool mb) (mb_size mb) (mb_flag mb));;
    on_snd rt_schedule;;
    mret RT_EOK
  else mret (- RT_ERROR).

(** ** The ring as a queue *)

Record mb_wf (mb : rt_mailbox) : Prop := {
  mw_size : 0 < mb_size mb < 65536;
  mw_pool : Z.of_nat (length (mb_pool mb)) = mb_size mb;
  mw_entry : 0 <= mb_entry mb <= mb_size mb;
  mw_out : 0 <= mb_out mb < mb_size mb;
  mw_in : mb_in mb = (mb_out mb + mb_entry mb) mod mb_size mb
}.

(** The mails in order, oldest first. *)
Definition mb_contents (mb : rt_mailbox) : list Z :=
  ring_contents (mb_pool mb) (mb_out mb) (Z.to_nat (mb_entry mb)).

Lemma next_offset_mod x n : 0 <= x < n -> n < 65536 -> next_offset x n = (x + 1) mod n.
Proof.
  intros Hx Hn. unfold next_offset. rewrite u16_small by lia. destruct (Z.leb_spec n (x + 1)).
  - assert (x + 1 = n) as -> by lia. by rewrite Z.mod_same by lia.
  - by rewrite Z.mod_small by lia.
Qed.

Lemma mb_in_range mb : mb_wf mb -> (Z.to_nat (mb_in mb) < length (mb_pool mb))%nat.
Proof.
  intros [Hs Hp _ _ ->]. pose proof (Z.mod_pos_bound (mb_out mb + mb_entry mb) (mb_size mb)). lia.
Qed.

(** Sending appends a mail to the queue. *)
Lemma mb_put_contents mb v :
  mb_wf mb -> mb_entry mb < mb_size mb ->
  let mb' := mk_mb (<[Z.to_nat (mb_in mb) := v]> (mb_pool mb)) (mb_size mb) (u16 (mb_entry mb + 1))
               (next_offset (mb_in mb) (mb_size mb)) (mb_out mb) (mb_flag mb) in
  mb_wf mb' /\ mb_contents mb' = mb_contents mb ++ [v].
Proof.
  intros W Hlt mb'. pose proof W as [Hs Hp He Ho Hi].
  pose proof (Z.mod_pos_bound (mb_out mb + mb_entry mb) (mb_size mb) ltac:(lia)) as Hr.
  split.
  - split; simpl; [done|by rewrite length_insert|rewrite u16_small; lia|done|].
    rewrite next_offset_mod, Hi, u16_small by lia. rewrite Zplus_mod_idemp_l. f_equal. lia.
  - unfold mb_contents. simpl. rewrite u16_small, Z2Nat.inj_add, Nat.add_1_r by lia.
    rewrite <- ring_contents_push by lia. unfold ring_slot. by rewrite Hp, Z2Nat.id, <- Hi by lia.
Qed.

(** Receiving takes the oldest mail off the queue. *)
Lemma mb_get_contents mb :
  mb_wf mb -> 0 < mb_entry mb ->
  let mb' := mk_mb (mb_pool mb) (mb_size mb) (u16 (mb_entry mb - 1)) (mb_in mb)
               (next_offset (mb_out mb) (mb_size mb)) (mb_flag mb) in
  exists v, mb_pool mb !! Z.to_nat (mb_out mb) = Some v /\
    mb_wf mb' /\ mb_contents mb = v :: mb_contents mb'.
Proof.
  intros W Hlt mb'. pose proof W as [Hs Hp He Ho Hi].
  destruct (lookup_lt_is_Some_2 (mb_pool mb) (Z.to_nat (mb_out mb))) as [v Hv]; [lia|].
  exists v. split; [done|]. split.
  - split; simpl; [done|done|rewrite u16_small; lia|rewrite next_offset_mod by lia; apply Z.mod_pos_bound; lia|].
    rewrite next_offset_mod, Hi, u16_small, Zplus_mod_idemp_l by lia. f_equal. lia.
  - unfold mb_contents. simpl. rewrite u16_small by lia.
    replace (Z.to_nat (mb_entry mb)) with (S (Z.to_nat (mb_entry mb - 1))) by lia.
    rewrite ring_contents_pop, next_offset_mod, <- Hp, ring_contents_mod by lia. f_equal.
    unfold ring_slot. rewrite Z.mod_small by lia. by apply list_lookup_total_correct.
Qed.

(** ** Sending *)

Lemma mb_head_waiting o : waiting_head (mb_head o).
Proof. done. Qed.
Lemma mb_senders_waiting o : waiting_head (mb_senders o).
Proof. done. Qed.

(** The first thread of the list [h] was woken, if there is one. *)
Definition woke_one (h : tlist_head) (s s' : kstate) : Prop :=
  match tl s h with
  | [] => s' = s
  | t :: l => exists th, k_threads s !! t = Some th /\ woke_first h t th l s s'
  end.

Lemma woke_one_kinv h s s' : kinv s -> woke_one h s s' -> kinv s'.
Proof.
  intros I. unfold woke_one. destruct (tl s h); [by intros ->|]. intros (th & _ & W). apply W.
Qed.

Lemma run_wake_one_of {X} (m : gmap nat X) s h :
  kinv s -> waiting_head h ->
  exists s', (if negb (bool_decide (tl s h = [])) then on_snd (rt_ipc_list_resume h;; rt_schedule)
              else mret tt) (m, s) = Ok tt (m, s') /\ woke_one h s s'.
Proof.
  intros I Hh. unfold woke_one. destruct (tl s h) as [|t l] eqn:E.
  - by exists s.
  - destruct (waiting_first _ _ _ _ I Hh E) as (th & Ht & _).
    destruct (run_ipc_wake _ _ _ _ _ I Hh E Ht) as (s' & Hr & Hw). exists s'.
    rewrite bool_decide_eq_false_2 by done. split; [exact (run_on_snd _ m _ _ _ Hr)|]. eauto.
Qed.

Section mailbox.
Context (m : gmap nat rt_mailbox) (s : kstate) (o : nat) (mb : rt_mailbox).
Context (Hm : m !! o = Some mb) (W : mb_wf mb) (I : kinv s).

(** What a successful send leaves: one more mail, at the end, and the first
    waiting receiver woken. *)
Definition mail_sent (v : Z) (st' : mb_state) : Prop :=
  exists mb', st'.1 = <[o := mb']> m /\ mb_wf mb' /\ mb_contents mb' = mb_contents mb ++ [v] /\
    mb_flag mb' = mb_flag mb /\ mb_size mb' = mb_size mb /\ woke_one (mb_head o) s st'.2.

Lemma run_mb_put v :
  mb_entry mb < mb_size mb -> exists st', mb_put o v (m, s) = Ok RT_EOK st' /\ mail_sent v st'.
Proof.
  intros Hlt. destruct (mb_put_contents mb v W Hlt) as [W' Hc]. simpl in W', Hc.
  unfold mb_put. run_step (run_get_obj m s o mb Hm).
  rewrite (proj2 (Nat.ltb_lt _ _) (mb_in_range _ W)). erewrite bind_Ok by reflexivity.
  unfold put_obj at 1. erewrite bind_Ok by reflexivity. unfold get at 1. erewrite bind_Ok by reflexivity.
  cbn [fst snd]. set (mb' := mk_mb _ _ _ _ _ _) in *.
  destruct (run_wake_one_of (<[o := mb']> m) s (mb_head o) I (mb_head_waiting o)) as (s' & Hr & Hw).
  run_step Hr. eexists. split; [reflexivity|]. exists mb'. by split_and!.
Qed.

(** [rt_mb_send_wait]: with room the mail is appended to the queue and the
    first waiting receiver, if any, becomes ready; a full mailbox refuses with
    [-RT_EFULL] when there is no waiting time, changing nothing, and otherwise
    puts the caller to sleep in the senders' list. *)
Theorem rt_mb_send_correct v timeout t th :
  (mb_entry mb = mb_size mb -> timeout ≠ 0 ->
     blocking_ctx s t th /\ ipc_flag (mb_flag mb) /\ timeout < RT_TICK_MAX / 2) ->
  exists r st', rt_mb_send_wait o v timeout (m, s) = Ok r st' /\
    if decide (mb_entry mb < mb_size mb) then r = Return RT_EOK /\ mail_sent v st'
    else if decide (timeout = 0) then r = Return (- RT_EFULL) /\ st' = (m, s)
    else r = Waiting (mk_wait t timeout (if 0 <? timeout then k_tick s else 0)) /\ st'.1 = m /\
      entered_wait (mb_senders o) t (set_th_error RT_EOK th) (mb_flag mb) timeout
        (set_k_threads (<[t := set_th_error RT_EOK th]>) s) st'.2.
Proof.
  intros Hb. pose proof (mw_entry _ W) as He. unfold rt_mb_send_wait.
  erewrite bind_Ok by reflexivity. run_step (run_get_obj m s o mb Hm). case_decide as Hlt.
  - rewrite (proj2 (Z.eqb_neq (mb_entry mb) (mb_size mb))) by lia. simpl. unfold mb_send_loop.
    run_step (run_get_obj m s o mb Hm). rewrite (proj2 (Z.eqb_neq (mb_entry mb) (mb_size mb))) by lia.
    destruct (run_mb_put v Hlt) as (st' & Hr & Hs). run_step Hr. eexists _, _. split; [reflexivity|]. done.
  - assert (mb_entry mb = mb_size mb) as Heq by lia. rewrite (proj2 (Z.eqb_eq _ _) Heq). simpl.
    case_decide as Hz; [subst; by eexists _, _|]. rewrite (proj2 (Z.eqb_neq _ _) Hz).
    destruct (Hb Heq Hz) as (B & Hf & Htime). pose proof (proj1 (bc_ready _ _ _ B)) as Ht.
    unfold mb_send_loop. run_step (run_get_obj m s o mb Hm). rewrite (proj2 (Z.eqb_eq _ _) Heq).
    unfold deref at 1. rewrite (bc_current _ _ _ B). erewrite bind_Ok by reflexivity.
    run_step (run_on_snd _ m _ _ _ (run_upd_thread s t (set_th_error RT_EOK) th Ht)).
    rewrite (proj2 (Z.eqb_neq _ _) Hz). pose proof (blocking_ctx_set_error _ _ _ RT_EOK B) as B0.
    run_step (run_on_snd _ m _ _ _ (run_in_thread_context _ _ _ B0)). erewrite bind_Ok by reflexivity.
    destruct (run_wait_entered _ (mb_senders o) t _ (mb_flag mb) timeout B0 eq_refl (mb_senders_waiting o) Hf Htime)
      as (s' & Hr & Hw). run_step (run_on_snd _ m _ _ _ Hr). eexists _, _. split; [reflexivity|]. done.
Qed.

(** What a successful receive leaves: the oldest mail is gone, and the first
    waiting sender woken. *)
Definition mail_received (v : Z) (st' : mb_state) : Prop :=
  exists mb', st'.1 = <[o := mb']> m /\ mb_wf mb' /\ mb_contents mb = v :: mb_contents mb' /\
    mb_flag mb' = mb_flag mb /\ mb_size mb' = mb_size mb /\ woke_one (mb_senders o) s st'.2.

Lemma run_mb_get :
  0 < mb_entry mb -> exists v st', mb_get o (m, s) = Ok (RT_EOK, Some v) st' /\ mail_received v st'.
Proof.
  intros Hlt. destruct (mb_get_contents mb W Hlt) as (v & Hv & W' & Hc). exists v.
  unfold mb_get. run_step (run_get_obj m s o mb Hm). unfold deref at 1. rewrite Hv.
  erewrite bind_Ok by reflexivity. unfold put_obj at 1. erewrite bind_Ok by reflexivity.
  unfold get at 1. erewrite bind_Ok by reflexivity. cbn [fst snd]. set (mb' := mk_mb _ _ _ _ _ _) in *.
  destruct (run_wake_one_of (<[o := mb']> m) s (mb_senders o) I (mb_senders_waiting o)) as (s' & Hr & Hw).
  run_step Hr. eexists. split; [reflexivity|]. exists mb'. by split_and!.
Qed.

(** [rt_mb_recv]: with a mail in the box the oldest one is returned and the
    first waiting sender, if any, becomes ready; an empty mailbox refuses with
    [-RT_ETIMEOUT] when there is no waiting time, changing nothing, and
    otherwise puts the caller to sleep in the receivers' list. *)
Theorem rt_mb_recv_correct timeout t th :
  (mb_entry mb = 0 -> timeout ≠ 0 ->
     blocking_ctx s t th /\ ipc_flag (mb_flag mb) /\ timeout < RT_TICK_MAX / 2) ->
  exists r st', rt_mb_recv o timeout (m, s) = Ok r st' /\
    if decide (0 < mb_entry mb) then exists v, r = Return (RT_EOK, Some v) /\ mail_received v st'
    else if decide (timeout = 0) then r = Return (- RT_ETIMEOUT, None) /\ st' = (m, s)
    else r = Waiting (mk_wait t timeout (if 0 <? timeout then k_tick s else 0)) /\ st'.1 = m /\
      entered_wait (mb_head o) t (set_th_error RT_EOK th) (mb_flag mb) timeout
        (set_k_threads (<[t := set_th_error RT_EOK th]>) s) st'.2.
Proof.
  intros Hb. pose proof (mw_entry _ W) as He. unfold rt_mb_recv.
  erewrite bind_Ok by reflexivity. run_step (run_get_obj m s o mb Hm). case_decide as Hlt.
  - rewrite (proj2 (Z.eqb_neq (mb_entry mb) 0)) by lia. simpl. unfold mb_recv_loop.
    run_step (run_get_obj m s o mb Hm). rewrite (proj2 (Z.eqb_neq (mb_entry mb) 0)) by lia.
    destruct (run_mb_get Hlt) as (v & st' & Hr & Hs). run_step Hr. eexists _, _. split; [reflexivity|]. by exists v.
  - assert (mb_entry mb = 0) as Heq by lia. rewrite (proj2 (Z.eqb_eq _ _) Heq). simpl.
    case_decide as Hz; [subst; by eexists _, _|]. rewrite (proj2 (Z.eqb_neq _ _) Hz).
    destruct (Hb Heq Hz) as (B & Hf & Htime). pose proof (proj1 (bc_ready _ _ _ B)) as Ht.
    unfold mb_recv_loop. run_step (run_get_obj m s o mb Hm). rewrite (proj2 (Z.eqb_eq _ _) Heq).
    unfold deref at 1. rewrite (bc_current _ _ _ B). erewrite bind_Ok by reflexivity.
    run_step (run_on_snd _ m _ _ _ (run_upd_thread s t (set_th_error RT_EOK) th Ht)).
    rewrite (proj2 (Z.eqb_neq _ _) Hz). pose proof (blocking_ctx_set_error _ _ _ RT_EOK B) as B0.
    run_step (run_on_snd _ m _ _ _ (run_in_thread_context _ _ _ B0)). erewrite bind_Ok by reflexivity.
    destruct (run_wait_entered _ (mb_head o) t _ (mb_flag mb) timeout B0 eq_refl (mb_head_waiting o) Hf Htime)
      as (s' & Hr & Hw). run_step (run_on_snd _ m _ _ _ Hr). eexists _, _. split; [reflexivity|]. done.
Qed.
End mailbox.

(** The timeout that remains after a wake-up, for waits of less than 2^31
    ticks: the part of the waiting time that has not passed, never negative. *)
Lemma remaining_timeout_spec timeout start now :
  0 < timeout < 2 ^ 31 -> u32 (now - start) < 2 ^ 31 ->
  remaining_timeout timeout start now = Z.max 0 (timeout - u32 (now - start)).
Proof.
  intros Ht Hd. unfold remaining_timeout. rewrite (proj2 (Z.ltb_lt 0 timeout)) by lia.
  pose proof (u32_range (now - start)). rewrite s32_small by lia.
  destruct (Z.ltb_spec (timeout - u32 (now - start)) 0); lia.
Qed.

(** ** First in, first out, over any interleaving

    The calls of any number of senders and receivers, at any phase, and
    arbitrary kernel steps in between. *)

Inductive mb_event := Sent (v : Z) | Got (v : Z) | Idle.

Definition send_event (v : Z) (r : call wait_locals Z) : mb_event :=
  match r with Return e => if e =? RT_EOK then Sent v else Idle | Waiting _ => Idle end.
Definition recv_event (r : call wait_locals (Z * option Z)) : mb_event :=
  match r with Return (_, Some v) => Got v | _ => Idle end.

Inductive mb_step (o : nat) : mb_state -> mb_event -> mb_state -> Prop :=
| mb_step_send v timeout st r st' :
    rt_mb_send_wait o v timeout st = Ok r st' -> mb_step o st (send_event v r) st'
| mb_step_send_resume v w st r st' :
    rt_mb_send_wait_resume o v w st = Ok r st' -> mb_step o st (send_event v r) st'
| mb_step_recv timeout st r st' :
    rt_mb_recv o timeout st = Ok r st' -> mb_step o st (recv_event r) st'
| mb_step_recv_resume w st r st' :
    rt_mb_recv_resume o w st = Ok r st' -> mb_step o st (recv_event r) st'
| mb_step_kernel m s s' : mb_step o (m, s) Idle (m, s').

Inductive mb_steps (o : nat) : mb_state -> list mb_event -> mb_state -> Prop :=
| mb_steps_nil st : mb_steps o st [] st
| mb_steps_snoc st st' st'' tr e :
    mb_steps o st tr st' -> mb_step o st' e st'' -> mb_steps o st (tr ++ [e]) st''.

Definition sent_of (e : mb_event) : list Z := match e with Sent v => [v] | _ => [] end.
Definition got_of (e : mb_event) : list Z := match e with Got v => [v] | _ => [] end.
Definition all_sent (tr : list mb_event) : list Z := tr ≫= sent_of.
Definition all_got (tr : list mb_event) : list Z := tr ≫= got_of.

(** The queue after one step. *)
Definition queue_step (e : mb_event) (mb mb' : rt_mailbox) : Prop :=
  mb_contents mb ++ sent_of e = got_of e ++ mb_contents mb'.

Lemma mb_put_inv o v st r st' mb :
  mb_put o v st = Ok r st' -> st.1 !! o = Some mb -> mb_wf mb -> mb_entry mb < mb_size mb ->
  r = RT_EOK /\ exists mb', st'.1 !! o = Some mb' /\ mb_wf mb' /\ mb_contents mb' = mb_contents mb ++ [v].
Proof.
  intros H Hm W Hlt. destruct (mb_put_contents mb v W Hlt) as [W' Hc].
  unfold mb_put in H. run_inv H. apply get_obj_inv in E as [-> E]. rewrite Hm in E. injection E as <-.
  run_inv H. rewrite (proj2 (Nat.ltb_lt _ _) (mb_in_range _ W)) in E. injection E as _ <-.
  run_inv H. injection E as _ <-. run_inv H. injection E as <- <-. run_inv H. injection H as <- <-.
  split; [done|]. eexists. split; [|split; [exact W'|exact Hc]].
  destruct (negb _); [apply on_snd_inv in E as [-> _]|injection E as _ <-]; apply lookup_insert_eq.
Qed.

Lemma mb_get_inv o st r st' mb :
  mb_get o st = Ok r st' -> st.1 !! o = Some mb -> mb_wf mb -> 0 < mb_entry mb ->
  exists v mb', r = (RT_EOK, Some v) /\ st'.1 !! o = Some mb' /\ mb_wf mb' /\ mb_contents mb = v :: mb_contents mb'.
Proof.
  intros H Hm W Hlt. destruct (mb_get_contents mb W Hlt) as (v & Hv & W' & Hc).
  unfold mb_get in H. run_inv H. apply get_obj_inv in E as [-> E]. rewrite Hm in E. injection E as <-.
  run_inv H. unfold deref in E. rewrite Hv in E. injection E as <- <-.
  run_inv H. injection E as _ <-. run_inv H. injection E as <- <-. run_inv H. injection H as <- <-.
  exists v. eexists. split; [done|]. split; [|split; [exact W'|exact Hc]].
  destruct (negb _); [apply on_snd_inv in E as [-> _]|injection E as _ <-]; apply lookup_insert_eq.
Qed.

(** The store after the waiting path of a loop is the store before it. *)
Lemma mb_send_loop_inv o c v timeout st r st' mb :
  mb_send_loop o c v timeout st = Ok r st' -> st.1 !! o = Some mb -> mb_wf mb ->
  exists mb', st'.1 !! o = Some mb' /\ mb_wf mb' /\ queue_step (send_event v r) mb mb'.
Proof.
  intros H Hm W. pose proof (mw_entry _ W). unfold mb_send_loop in H. run_inv H.
  apply get_obj_inv in E as [-> E]. rewrite Hm in E. injection E as <-. destruct (Z.eqb_spec (mb_entry mb) (mb_size mb)).
  - exists mb. unfold queue_step. run_inv H. unfold deref in E. destruct c; [|done]. injection E as <- <-.
    run_inv H. apply on_snd_inv in E as [E1 _]. destruct (timeout =? 0).
    + injection H as <- <-. rewrite E1, app_nil_r. done.
    + run_inv H. apply on_snd_inv in E as [E2 _]. run_inv H. apply on_snd_inv in E as [E3 _].
      run_inv H. apply on_snd_inv in E as [E4 _]. injection H as <- <-.
      rewrite E4, E3, E2, E1, app_nil_r. done.
  - run_inv H. destruct (mb_put_inv o v st a st0 mb E Hm W ltac:(lia)) as (-> & mb' & Hl & W' & Hc).
    injection H as <- <-. exists mb'. split_and!; [done|done|]. unfold queue_step. by rewrite Hc.
Qed.

Lemma mb_recv_loop_inv o c timeout st r st' mb :
  mb_recv_loop o c timeout st = Ok r st' -> st.1 !! o = Some mb -> mb_wf mb ->
  exists mb', st'.1 !! o = Some mb' /\ mb_wf mb' /\ queue_step (recv_event r) mb mb'.
Proof.
  intros H Hm W. pose proof (mw_entry _ W). unfold mb_recv_loop in H. run_inv H.
  apply get_obj_inv in E as [-> E]. rewrite Hm in E. injection E as <-. destruct (Z.eqb_spec (mb_entry mb) 0).
  - exists mb. unfold queue_step. run_inv H. unfold deref in E. destruct c; [|done]. injection E as <- <-.
    run_inv H. apply on_snd_inv in E as [E1 _]. destruct (timeout =? 0).
    + run_inv H. apply on_snd_inv in E as [E2 _]. injection H as <- <-. rewrite E2, E1, app_nil_r. done.
    + run_inv H. apply on_snd_inv in E as [E2 _]. run_inv H. apply on_snd_inv in E as [E3 _].
      run_inv H. apply on_snd_inv in E as [E4 _]. injection H as <- <-.
      rewrite E4, E3, E2, E1, app_nil_r. done.
  - run_inv H. destruct (mb_get_inv o st a st0 mb E Hm W ltac:(lia)) as (v & mb' & -> & Hl & W' & Hc).
    injection H as <- <-. exists mb'. split_and!; [done|done|]. unfold queue_step. simpl. by rewrite Hc, app_nil_r.
Qed.

Lemma mb_step_queue o st e st' mb :
  mb_step o st e st' -> st.1 !! o = Some mb -> mb_wf mb ->
  exists mb', st'.1 !! o = Some mb' /\ mb_wf mb' /\ queue_step e mb mb'.
Proof.
  intros Hst Hm W.
  assert (exists mb', st.1 !! o = Some mb' /\ mb_wf mb' /\ queue_step Idle mb mb') as Hid.
  { exists mb. unfold queue_step. by rewrite app_nil_r. }
  destruct Hst as [v timeout st r st' H|v w st r st' H|timeout st r st' H|w st r st' H|m s s'].
  - unfold rt_mb_send_wait in H. run_inv H. apply on_snd_inv in E as [E _]. rewrite <- E in Hm, Hid.
    run_inv H. apply get_obj_inv in E0 as [-> E0]. destruct (_ && _); [by injection H as <- <-|].
    by eapply mb_send_loop_inv.
  - unfold rt_mb_send_wait_resume in H. run_inv H. apply on_snd_inv in E as [E E']. rewrite <- E in Hm, Hid.
    destruct (Z.eqb_spec (th_error a) RT_EOK) as [|Hne]; simpl in H.
    + run_inv H. apply on_snd_inv in E0 as [E0 _]. rewrite <- E0 in Hm. by eapply mb_send_loop_inv.
    + injection H as <- <-. simpl. by rewrite (proj2 (Z.eqb_neq _ _) Hne).
  - unfold rt_mb_recv in H. run_inv H. apply on_snd_inv in E as [E _]. rewrite <- E in Hm, Hid.
    run_inv H. apply get_obj_inv in E0 as [-> E0]. destruct (_ && _); [by injection H as <- <-|].
    by eapply mb_recv_loop_inv.
  - unfold rt_mb_recv_resume in H. run_inv H. apply on_snd_inv in E as [E E']. rewrite <- E in Hm, Hid.
    destruct (negb _) in H.
    + by injection H as <- <-.
    + run_inv H. apply on_snd_inv in E0 as [E0 _]. rewrite <- E0 in Hm. by eapply mb_recv_loop_inv.
  - done.
Qed.

(** C8: whatever sends and receives, blocking or not, are interleaved, the mails
    received so far followed by the mails in the box are the initial mails
    followed by the mails sent, in that order: none is lost, duplicated or
    overtaken. *)
Theorem mailbox_fifo o st0 tr st mb0 :
  st0.1 !! o = Some mb0 -> mb_wf mb0 -> mb_steps o st0 tr st ->
  exists mb, st.1 !! o = Some mb /\ mb_wf mb /\
    mb_contents mb0 ++ all_sent tr = all_got tr ++ mb_contents mb.
Proof.
  intros Hm W Hst. induction Hst as [st|st st' st'' tr e Hs IH He].
  - exists mb0. split_and!; [done|done|]. by rewrite app_nil_r.
  - destruct (IH Hm) as (mb & Hl & W1 & Hq). destruct (mb_step_queue _ _ _ _ _ He Hl W1) as (mb' & Hl' & W' & Hq').
    exists mb'. split_and!; [done|done|]. unfold all_sent, all_got in *. rewrite !bind_app. simpl.
    rewrite !app_nil_r, app_assoc, Hq, <- !app_assoc. f_equal. exact Hq'.
Qed.

(** ** Witnesses *)

Definition demo_box (n : nat) : rt_mailbox :=
  match n with
  | O => empty_mb [0; 0] 2 RT_IPC_FLAG_FIFO
  | S O => mk_mb [0; 8] 2 1 0 1 RT_IPC_FLAG_FIFO
  | _ => mk_mb [9; 8] 2 2 1 1 RT_IPC_FLAG_FIFO
  end.
Definition demo_mb (n : nat) : gmap nat rt_mailbox := {[1%nat := demo_box n]}.

Lemma demo_box_wf n : mb_wf (demo_box n).
Proof. destruct n as [|[|n]]; split; simpl; (reflexivity || lia). Qed.

Lemma rt_mb_send_correct_witness :
  exists r st', rt_mb_send_wait 1 7 50 (demo_mb 2, demo) = Ok r st' /\
    entered_wait (mb_senders 1) 1 (set_th_error RT_EOK (thread_at demo 1)) RT_IPC_FLAG_FIFO 50
      (set_k_threads (<[1%nat := set_th_error RT_EOK (thread_at demo 1)]>) demo) st'.2.
Proof.
  destruct (rt_mb_send_correct (demo_mb 2) demo 1 (demo_box 2) eq_refl (demo_box_wf 2) demo_kinv 7 50 1
    (thread_at demo 1)) as (r & st' & E & H).
  - intros _ _. split; [apply demo_ctx|]. split; [left; reflexivity|reflexivity].
  - exists r, st'. split; [exact E|]. destruct H as (_ & _ & H). exact H.
Defined.

Lemma rt_mb_recv_correct_witness :
  exists st', rt_mb_recv 1 0 (demo_mb 2, demo) = Ok (Return (RT_EOK, Some 8)) st' /\
    exists mb', st'.1 !! 1%nat = Some mb' /\ mb_contents mb' = [9].
Proof.
  destruct (rt_mb_recv_correct (demo_mb 2) demo 1 (demo_box 2) eq_refl (demo_box_wf 2) demo_kinv 0 1
    (thread_at demo 1)) as (r & st' & E & H).
  - intros E. discriminate E.
  - exists st'. destruct H as (v & -> & mb' & E1 & _ & Hc & _).
    change (mb_contents (demo_box 2)) with [8; 9] in Hc. injection Hc as <- Hc. split; [exact E|].
    exists mb'. rewrite E1. split; [apply lookup_insert_eq|]. symmetry. exact Hc.
Defined.

(** Send 7 to a box that holds 8, then receive: 8 comes out, 7 is left. *)
Definition demo_mb_sent : mb_state := run (rt_mb_send 1 7) (demo_mb 1, demo).
Definition demo_mb_got : mb_state := run (rt_mb_recv 1 0) demo_mb_sent.

Lemma mailbox_fifo_witness :
  exists mb, demo_mb_got.1 !! 1%nat = Some mb /\ mb_wf mb /\ mb_contents mb = [7].
Proof.
  destruct (mailbox_fifo 1 (demo_mb 1, demo) [Sent 7; Got 8] demo_mb_got (demo_box 1) eq_refl (demo_box_wf 1))
    as (mb & Hl & W & H).
  - apply (mb_steps_snoc _ _ demo_mb_sent _ [Sent 7] (Got 8)).
    + apply (mb_steps_snoc _ _ (demo_mb 1, demo) _ [] (Sent 7)); [constructor|].
      apply (mb_step_send 1 7 0 _ (Return RT_EOK)). apply (ret_Ok (rt_mb_send 1 7)). vm_compute. reflexivity.
    + apply (mb_step_recv 1 0 _ (Return (RT_EOK, Some 8))). apply (ret_Ok (rt_mb_recv 1 0)). vm_compute. reflexivity.
  - exists mb. split; [exact Hl|]. split; [exact W|].
    change (mb_contents (demo_box 1)) with [8] in H. change (all_sent _) with [7] in H. change (all_got _) with [8] in H.
    simpl in H. injection H as H. symmetry. exact H.
Defined.
