(* ===== verification/Completion.v ===== *)
(** * Completions: components/drivers/src/completion.c

    A flag that one thread waits for and another thread or an interrupt sets. *)

From S2P Require Import Prelude Kernel Object Timer Scheduler Thread KInv ThreadSpec Ipc TimerSpec Mailbox.

Definition RT_COMPLETED : Z := 1.
Definition RT_UNCOMPLETED : Z := 0.

(** [completion->flag] by address, next to the kernel state. *)
Definition comp_state : Type := gmap nat Z * kstate.

Definition rt_completion_init (o : nat) : M comp_state unit :=
  put_obj o RT_UNCOMPLETED;;
  on_snd (modify (set_k_tlists (<[HCompletion o := []]>))).

(** From [rt_thread_suspend] to [rt_schedule]; the thread is already linked
    when the context is checked. *)
Definition suspend_on (o t : nat) (timeout : Z) : M kstate unit :=
  rt_ipc_list_suspend (HCompletion o) t RT_IPC_FLAG_FIFO;;
  RT_DEBUG_NOT_IN_INTERRUPT;;
  when (0 <? timeout) (arm_thread_timer t timeout);;
  rt_schedule.

Definition rt_completion_wait (o : nat) (timeout : Z) : M comp_state (call nat Z) :=
  c ← on_snd (gets k_current);
  flag ← get_obj o;
  if negb (flag =? RT_COMPLETED) then
    st ← get;
    rt_assert (bool_decide (tl st.2 (HCompletion o) = []));;
    if timeout =? 0 then mret (Return (- RT_ETIMEOUT))
    else
      t ← deref (fun _ => c);
      on_snd (upd_thread t (set_th_error RT_EOK));;
      on_snd (suspend_on o t timeout);;
      mret (Waiting t)
  else
    put_obj o RT_UNCOMPLETED;;
    mret (Return RT_EOK).

(** From the return of [rt_schedule] on. *)
Definition rt_completion_wait_resume (o t : nat) : M comp_state (call nat Z) :=
  th ← on_snd (get_thread t);
  put_obj o RT_UNCOMPLETED;;
  mret (Return (th_error th)).

Definition rt_completion_done (o : nat) : M comp_state unit :=
  flag ← get_obj o;
  if flag =? RT_COMPLETED then mret tt
  else
    put_obj o RT_COMPLETED;;
    st ← get;
    if negb (bool_decide (tl st.2 (HCompletion o) = [])) then on_snd (rt_ipc_list_resume (HCompletion o);; rt_schedule)
    else mret tt.

(** ** The calls on every branch *)

Lemma blocked_int h t th flag s : k_int_nest (blocked h t th flag s) = k_int_nest s.
Proof. unfold blocked, suspended, timer_stopped, dequeued, clear_group. simpl. by repeat (case_match || case_decide). Qed.

Lemma run_suspend_on s o t th timeout :
  blocking_ctx s t th -> suspend_on o t timeout s = wait_on (HCompletion o) t RT_IPC_FLAG_FIFO timeout s.
Proof.
  intros [I Hc [Ht Hst] Hn _]. unfold suspend_on, wait_on.
  rewrite !(bind_Ok _ _ _ _ _ (run_ipc_list_suspend s (HCompletion o) t th RT_IPC_FLAG_FIFO I Ht Hst ltac:(done) ltac:(by left))).
  erewrite bind_Ok; [reflexivity|]. unfold RT_DEBUG_NOT_IN_INTERRUPT, gets, mbind, M_bind. by rewrite blocked_int, Hn.
Qed.

Section completion.
Context (m : gmap nat Z) (s : kstate) (o : nat) (flag : Z) (Hm : m !! o = Some flag) (I : kinv s).

(** [rt_completion_wait]: a set flag is taken at once; without waiting time the
    call fails and changes nothing; otherwise the caller is the one thread
    asleep on the completion. *)
Theorem rt_completion_wait_correct timeout t th :
  (flag ≠ RT_COMPLETED -> tl s (HCompletion o) = []) ->
  (flag ≠ RT_COMPLETED -> timeout ≠ 0 -> blocking_ctx s t th /\ timeout < RT_TICK_MAX / 2) ->
  exists r st', rt_completion_wait o timeout (m, s) = Ok r st' /\
    if decide (flag = RT_COMPLETED) then r = Return RT_EOK /\ st' = (<[o := RT_UNCOMPLETED]> m, s)
    else if decide (timeout = 0) then r = Return (- RT_ETIMEOUT) /\ st' = (m, s)
    else r = Waiting t /\ st'.1 = m /\ tl st'.2 (HCompletion o) = [t] /\
      entered_wait (HCompletion o) t th RT_IPC_FLAG_FIFO timeout s st'.2.
Proof.
  intros Hone Hb. unfold rt_completion_wait. erewrite bind_Ok by reflexivity. cbn [snd].
  run_step (run_get_obj m s o flag Hm). destruct (Z.eqb_spec flag RT_COMPLETED) as [E|E]; simpl; case_decide as D; try done.
  - by eexists _, _.
  - unfold get at 1. erewrite bind_Ok by reflexivity. cbn [snd]. rewrite bool_decide_eq_true_2 by auto.
    erewrite bind_Ok by reflexivity. case_decide as Hz; [subst; by eexists _, _|]. rewrite (proj2 (Z.eqb_neq _ _) Hz).
    destruct (Hb E Hz) as (B & Htime). pose proof (proj1 (bc_ready _ _ _ B)) as Ht.
    unfold deref at 1. rewrite (bc_current _ _ _ B). erewrite bind_Ok by reflexivity.
    destruct (run_enter_wait s (HCompletion o) t th RT_IPC_FLAG_FIFO timeout B ltac:(done) ltac:(by left) Htime) as (s' & Hr & Hw).
    pose proof (run_upd_thread s t (set_th_error RT_EOK) th Ht) as Hu.
    rewrite (bind_Ok _ _ _ _ _ Hu), <- (run_suspend_on _ o t _ timeout (blocking_ctx_set_error _ _ _ RT_EOK B)) in Hr.
    run_step (run_on_snd _ m _ _ _ Hu). run_step (run_on_snd _ m _ _ _ Hr). eexists _, _. split; [reflexivity|].
    split_and!; try done. simpl. rewrite (ew_list _ _ _ _ _ _ _ Hw), (Hone E). done.
Qed.

(** [rt_completion_done]: the flag is set once, and the waiting thread, if there
    is one, becomes ready. *)
Theorem rt_completion_done_correct :
  exists st', rt_completion_done o (m, s) = Ok tt st' /\ kinv st'.2 /\
    if decide (flag = RT_COMPLETED) then st' = (m, s)
    else st'.1 = <[o := RT_COMPLETED]> m /\ woke_one (HCompletion o) s st'.2.
Proof.
  unfold rt_completion_done. run_step (run_get_obj m s o flag Hm).
  destruct (Z.eqb_spec flag RT_COMPLETED) as [E|E]; case_decide as D; try done.
  - by eexists.
  - unfold put_obj at 1. erewrite bind_Ok by reflexivity. unfold get at 1. erewrite bind_Ok by reflexivity. cbn [fst snd].
    destruct (run_wake_one_of (<[o := RT_COMPLETED]> m) s (HCompletion o) I ltac:(done)) as (s' & Hr & Hw).
    rewrite Hr. eexists. split; [reflexivity|]. split; [by eapply woke_one_kinv|done].
Qed.
End completion.

(** A thread that waits for a completion and the [rt_completion_done] that
    follows: the waiter, asleep after the first call, is ready after the second
    and its call returns success, with the flag taken and no one left waiting. *)
Theorem completion_handshake m s o t th timeout :
  m !! o = Some RT_UNCOMPLETED -> blocking_ctx s t th -> tl s (HCompletion o) = [] ->
  timeout ≠ 0 -> timeout < RT_TICK_MAX / 2 ->
  exists s1 s2, rt_completion_wait o timeout (m, s) = Ok (Waiting t) (m, s1) /\
    (exists th1, k_threads s1 !! t = Some th1 /\ state_of th1 = RT_THREAD_SUSPEND) /\
    rt_completion_done o (m, s1) = Ok tt (<[o := RT_COMPLETED]> m, s2) /\
    (exists th2, ready s2 t th2) /\ tl s2 (HCompletion o) = [] /\ kinv s2 /\
    rt_completion_wait_resume o t (<[o := RT_COMPLETED]> m, s2) = Ok (Return RT_EOK) (<[o := RT_UNCOMPLETED]> m, s2).
Proof.
  intros Hm B Hnone Hz Htime.
  destruct (rt_completion_wait_correct m s o _ Hm timeout t th) as (r & [m1 s1] & E1 & H1); [done|done|].
  rewrite !decide_False in H1 by done. destruct H1 as (-> & Em & Hl & Hw). simpl in *. subst m1.
  destruct (rt_completion_done_correct m s1 o _ Hm (ew_inv _ _ _ _ _ _ _ Hw)) as ([m2 s2] & E2 & I2 & H2).
  rewrite decide_False in H2 by done. destruct H2 as [Em H2]. simpl in *. subst m2.
  unfold woke_one in H2. rewrite Hl in H2. destruct H2 as (th1 & Ht1 & W).
  pose proof (ew_thread _ _ _ _ _ _ _ Hw) as Hth. simpl in Hth. rewrite Ht1 in Hth. injection Hth as ->.
  exists s1, s2. split_and!; try done.
  - eexists. split; [exact Ht1|]. apply (state_suspend (set_th_error RT_EOK th)).
  - eexists. exact (wf_ready _ _ _ _ _ _ W).
  - exact (wf_list _ _ _ _ _ _ W).
  - unfold rt_completion_wait_resume. destruct (wf_ready _ _ _ _ _ _ W) as [Hx _].
    rewrite (bind_Ok _ _ _ _ _ (run_on_snd _ _ _ _ _ (run_get_thread s2 t _ Hx))).
    unfold put_obj. erewrite bind_Ok by reflexivity. simpl. by rewrite insert_insert_eq.
Qed.

(** A completion that arrives after the timeout of the waiter and before the
    waiter has run again is lost: the waiter reports the timeout and clears the
    flag. *)
Theorem completion_after_timeout_lost m s o t th :
  m !! o = Some RT_UNCOMPLETED -> kinv s -> k_threads s !! t = Some th -> th_error th = - RT_ETIMEOUT ->
  tl s (HCompletion o) = [] ->
  exists st, (rt_completion_done o;; rt_completion_wait_resume o t) (m, s) = Ok (Return (- RT_ETIMEOUT)) st /\
    st = (<[o := RT_UNCOMPLETED]> m, s).
Proof.
  intros Hm I Ht He Hl. destruct (rt_completion_done_correct m s o _ Hm I) as ([m1 s1] & E & _ & H).
  rewrite decide_False in H by done. destruct H as [Em H]. simpl in *. subst m1. unfold woke_one in H. rewrite Hl in H. subst s1.
  run_step E. unfold rt_completion_wait_resume. rewrite (bind_Ok _ _ _ _ _ (run_on_snd _ _ _ _ _ (run_get_thread s t _ Ht))).
  unfold put_obj. erewrite bind_Ok by reflexivity. simpl. rewrite insert_insert_eq, He. by eexists.
Qed.

(** ** Witnesses *)

Definition demo_completion : gmap nat Z := {[1%nat := RT_UNCOMPLETED]}.

Lemma completion_handshake_witness :
  exists s1 s2, rt_completion_wait 1 50 (demo_completion, demo) = Ok (Waiting 1%nat) (demo_completion, s1) /\
    rt_completion_done 1 (demo_completion, s1) = Ok tt (<[1%nat := RT_COMPLETED]> demo_completion, s2) /\
    exists th2, ready s2 1 th2.
Proof.
  destruct (completion_handshake demo_completion demo 1 1 (thread_at demo 1) 50) as (s1 & s2 & E1 & _ & E2 & H & _).
  - reflexivity.
  - exact demo_ctx.
  - vm_compute. reflexivity.
  - lia.
  - reflexivity.
  - exists s1, s2. split; [exact E1|]. split; [exact E2|exact H].
Defined.

(** Thread 1 has timed out and not yet run again. *)
Definition demo_timed_out : kstate :=
  set_k_threads (<[1%nat := set_th_error (- RT_ETIMEOUT) (thread_at demo 1)]>) demo.

Lemma completion_after_timeout_lost_witness :
  exists st, (rt_completion_done 1;; rt_completion_wait_resume 1 1) (demo_completion, demo_timed_out)
    = Ok (Return (- RT_ETIMEOUT)) st.
Proof.
  destruct (completion_after_timeout_lost demo_completion demo_timed_out 1 1 (set_th_error (- RT_ETIMEOUT) (thread_at demo 1)))
    as (st & E & _).
  - reflexivity.
  - unfold demo_timed_out. apply kinv_set_error; [exact demo_kinv|vm_compute; reflexivity].
  - vm_compute. reflexivity.
  - reflexivity.
  - vm_compute. reflexivity.
  - exists st. exact E.
Defined.
