(* ===== verification/WaitQueue.v ===== *)
(** * Wait queues: components/drivers/src/waitqueue.c

    A list of nodes, each with a thread and a function that decides whether an
    event is for it.  A waiting thread is in no list of the kernel: the node, a
    local variable of the call, is what the queue holds. *)

From S2P Require Import Prelude Kernel Object Timer Scheduler Thread Clock KInv ThreadSpec Ipc.

(** [struct rt_wqueue_node] without its list node; functions by address, 0 is
    [__wqueue_default_wake]. *)
Record rt_wqueue_node := mk_wnode { polling_thread : nat; wn_wakeup : nat; wn_key : Z }.

(** Queues as sequences of nodes, the nodes, and the kernel. *)
Definition wait_state : Type := gmap nat (list nat) * (gmap nat rt_wqueue_node * kstate).

Definition kern {A} (m : M kstate A) : M wait_state A := on_snd (on_snd m).

(** [rt_list_insert_before] of a node that is linked would break its list. *)
Definition rt_wqueue_add (o n : nat) : M wait_state unit :=
  st ← get;
  rt_assert (bool_decide (map_Forall (fun _ l => n ∉ l) st.1));;
  upd_obj o (fun l => l ++ [n]).

Definition rt_wqueue_remove (n : nat) : M wait_state unit :=
  on_snd (get_obj n);;
  modify (fun st => (filter (fun x => x ≠ n) <$> st.1, st.2)).

Definition __wqueue_default_wake (n : nat) (key : Z) : M (gmap nat rt_wqueue_node * kstate) Z := mret 0.

Section wakeup.
(** The functions of the users; they do not change the lists of the queues. *)
Context (user_wakeup : nat -> nat -> Z -> M (gmap nat rt_wqueue_node * kstate) Z).

(** [entry->wakeup(entry, key)] *)
Definition call_wakeup (n : nat) (key : Z) : M (gmap nat rt_wqueue_node * kstate) Z :=
  entry ← get_obj n;
  match wn_wakeup entry with O => __wqueue_default_wake n key | f => user_wakeup f n key end.

(** The [for] loop over the nodes; the result is [need_schedule]. *)
Fixpoint wake_loop (nodes : list nat) (key : Z) : M wait_state bool :=
  match nodes with
  | [] => mret false
  | n :: nodes =>
      r ← on_snd (call_wakeup n key);
      if r =? 0 then
        entry ← on_snd (get_obj n);
        kern (rt_thread_resume (polling_thread entry));;
        rt_wqueue_remove n;;
        mret true
      else wake_loop nodes key
  end.

Definition rt_wqueue_wakeup (o : nat) (key : Z) : M wait_state unit :=
  l ← get_obj o;
  if bool_decide (l = []) then mret tt
  else
    l ← get_obj o;
    need_schedule ← wake_loop l key;
    when need_schedule (kern rt_schedule).
End wakeup.

(** The node [n] is the local variable [__wait]; up to [rt_wqueue_add]. *)
Definition wait_enter (o n t : nat) : M wait_state unit :=
  on_snd (put_obj n (mk_wnode t 0 0));;
  rt_wqueue_add o n.

(** From there to [rt_schedule]. *)
Definition wait_suspend (t : nat) (tick : Z) : M wait_state unit :=
  kern (RT_DEBUG_NOT_IN_INTERRUPT;;
        rt_thread_suspend t;;
        when (negb (tick =? RT_WAITING_FOREVER)) (arm_thread_timer t tick);;
        rt_schedule).

Definition rt_wqueue_wait (o n : nat) (condition msec : Z) : M wait_state (call nat Z) :=
  tid ← kern (gets k_current);
  let tick := rt_tick_from_millisecond msec in
  if negb (condition =? 0) || (tick =? 0) then mret (Return 0)
  else
    t ← deref (fun _ => tid);
    wait_enter o n t;;
    wait_suspend t tick;;
    mret (Waiting t).

(** From the return of [rt_schedule] on. *)
Definition rt_wqueue_wait_resume (n : nat) : M wait_state (call nat Z) :=
  rt_wqueue_remove n;; mret (Return 0).

(** ** Waking *)

Lemma run_wqueue_remove (qs : gmap nat (list nat)) (ns : gmap nat rt_wqueue_node) (s : kstate) n e :
  ns !! n = Some e -> rt_wqueue_remove n (qs, (ns, s)) = Ok tt (filter (fun x => x ≠ n) <$> qs, (ns, s)).
Proof.
  intros Hn. unfold rt_wqueue_remove. by rewrite (bind_Ok _ _ _ _ _ (run_on_snd _ qs _ _ _ (run_get_obj ns s n e Hn))).
Qed.

(** The thread of a node after the attempt to resume it. *)
Definition woken (s : kstate) (t : nat) (th : rt_thread) : kstate :=
  if decide (state_of th = RT_THREAD_SUSPEND) then resumed t th s else s.

Lemma run_resume_woken s t th :
  kinv s -> k_threads s !! t = Some th -> exists r, rt_thread_resume t s = Ok r (woken s t th) /\ kinv (woken s t th).
Proof.
  intros I Ht. unfold woken. case_decide as Hst.
  - eexists. split; [by apply run_thread_resume|by apply kinv_resumed].
  - eexists. split; [by eapply run_thread_resume_not_suspended|done].
Qed.

Section waking.
Context (user_wakeup : nat -> nat -> Z -> M (gmap nat rt_wqueue_node * kstate) Z) (key : Z) (accepts : nat -> bool).
Context (qs : gmap nat (list nat)) (ns : gmap nat rt_wqueue_node) (s : kstate).

(** A node of a known thread whose function decides by [accepts] and changes
    nothing. *)
Definition answers (n : nat) : Prop :=
  exists e th r, ns !! n = Some e /\ k_threads s !! polling_thread e = Some th /\
    call_wakeup user_wakeup n key (ns, s) = Ok r (ns, s) /\ (r = 0 <-> accepts n = true).

Lemma run_wake_loop l :
  kinv s -> Forall answers l ->
  match list_find accepts l with
  | Some (_, n) => exists e th, ns !! n = Some e /\ k_threads s !! polling_thread e = Some th /\
      wake_loop user_wakeup l key (qs, (ns, s)) = Ok true (filter (fun x => x ≠ n) <$> qs, (ns, woken s (polling_thread e) th))
  | None => wake_loop user_wakeup l key (qs, (ns, s)) = Ok false (qs, (ns, s))
  end.
Proof.
  intros I Hl. induction Hl as [|n l (e & th & r & He & Ht & Er & Hr) _ IH]; [done|]. cbn [list_find wake_loop].
  rewrite (bind_Ok _ _ _ _ _ (run_on_snd _ qs _ _ _ Er)). destruct (decide (accepts n)) as [Ha|Ha].
  - exists e, th. split_and!; [done|done|]. rewrite (proj2 (Z.eqb_eq r 0)) by (by apply Hr, Is_true_true).
    rewrite (bind_Ok _ _ _ _ _ (run_on_snd _ qs _ _ _ (run_get_obj ns s n e He))).
    destruct (run_resume_woken s _ th I Ht) as (r' & Er' & _). unfold kern.
    rewrite (bind_Ok _ _ _ _ _ (run_on_snd _ qs _ _ _ (run_on_snd _ ns _ _ _ Er'))).
    by rewrite (bind_Ok _ _ _ _ _ (run_wqueue_remove qs ns _ n e He)).
  - rewrite (proj2 (Z.eqb_neq r 0)) by (rewrite Hr; intros E; apply Ha; by apply Is_true_true).
    destruct (list_find accepts l) as [[i x]|]; exact IH.
Qed.

(** [rt_wqueue_wakeup]: the first node of the queue whose function accepts the key
    leaves the queue and its thread, if it sleeps, becomes ready; without such a
    node nothing happens. *)
Theorem rt_wqueue_wakeup_correct o l u uh :
  kinv s -> ready s u uh -> qs !! o = Some l -> Forall answers l ->
  exists st', rt_wqueue_wakeup user_wakeup o key (qs, (ns, s)) = Ok tt st' /\ kinv st'.2.2 /\
    match list_find accepts l with
    | Some (_, n) => exists e th, ns !! n = Some e /\ k_threads s !! polling_thread e = Some th /\
        st' = (filter (fun x => x ≠ n) <$> qs, (ns, scheduled (woken s (polling_thread e) th)))
    | None => st' = (qs, (ns, s))
    end.
Proof.
  intros I Hu Hq Hl. unfold rt_wqueue_wakeup. run_step (run_get_obj qs (ns, s) o l Hq).
  pose proof (run_wake_loop l I Hl) as H. case_bool_decide as El; [subst l; by eexists|].
  run_step (run_get_obj qs (ns, s) o l Hq). destruct (list_find accepts l) as [[i n]|].
  - destruct H as (e & th & He & Ht & E). run_step E. destruct (run_resume_woken s _ th I Ht) as (r & _ & I').
    assert (exists v vh, ready (woken s (polling_thread e) th) v vh) as (v & vh & Hv).
    { unfold woken. case_decide; [eexists _, _; apply resumed_ready|by eexists _, _]. }
    eexists. split; [cbn [when]; unfold kern; apply run_on_snd, run_on_snd; by eapply run_schedule|].
    split; [by apply kinv_scheduled|]. by exists e, th.
  - run_step H. by eexists.
Qed.
End waking.

(** ** Waiting *)

Lemma run_wait_suspend (qs : gmap nat (list nat)) (ns : gmap nat rt_wqueue_node) s t th tick :
  blocking_ctx s t th -> tick = RT_WAITING_FOREVER \/ 0 < tick < RT_TICK_MAX / 2 ->
  let s1 := armed t tick (suspended t th s) in
  wait_suspend t tick (qs, (ns, s)) = Ok tt (qs, (ns, scheduled s1)) /\ kinv s1 /\
  k_threads s1 !! t = Some (set_th_stat (with_state RT_THREAD_SUSPEND (th_stat th)) th).
Proof.
  intros [I Hc [Ht Hst] Hn (u & uh & Hne & Hu & Hus)] Htick s1.
  pose proof (kinv_suspended _ _ _ I Ht Hst) as I0. set (th' := set_th_stat (with_state RT_THREAD_SUSPEND (th_stat th)) th).
  assert (k_threads (suspended t th s) !! t = Some th') as Ht' by (rewrite suspended_threads; apply lookup_insert_eq).
  assert (kinv s1) as I1 by (apply (kinv_armed _ _ th'); [done|done|apply state_suspend]).
  assert (ready s1 u uh) as Hu1 by (split; [|done]; unfold s1; by rewrite armed_threads, suspended_threads, lookup_insert_ne).
  split; [|split; [done|by unfold s1; rewrite armed_threads]]. unfold wait_suspend, kern. apply run_on_snd, run_on_snd.
  assert (RT_DEBUG_NOT_IN_INTERRUPT s = Ok tt s) as E0 by (unfold RT_DEBUG_NOT_IN_INTERRUPT, gets, mbind, M_bind; by rewrite Hn).
  run_step E0. run_step (run_thread_suspend s t th I Ht Hst).
  assert (when (negb (tick =? RT_WAITING_FOREVER)) (arm_thread_timer t tick) (suspended t th s) = Ok tt s1) as E1.
  { destruct Htick as [->|Htick]; [done|]. rewrite (proj2 (Z.eqb_neq _ _)) by (unfold RT_WAITING_FOREVER; lia).
    destruct (inv_timer _ I0 _ _ Ht') as (tm & Htm & _). apply (run_arm_thread_timer _ _ tm); [done|lia]. }
  run_step E1. by apply (run_schedule s1 u uh).
Qed.

(** The queues without and with one node that is in no queue. *)
Lemma unlinked_forall (qs : gmap nat (list nat)) n :
  (forall o l, qs !! o = Some l -> n ∉ l) -> map_Forall (fun _ l => n ∉ l) qs.
Proof. intros H o l. apply H. Qed.

Lemma remove_added (qs : gmap nat (list nat)) o n l :
  (forall o l, qs !! o = Some l -> n ∉ l) -> qs !! o = Some l -> filter (fun x => x ≠ n) <$> <[o := l ++ [n]]> qs = qs.
Proof.
  intros H Hl. apply map_eq. intros i. rewrite lookup_fmap. destruct (decide (o = i)) as [<-|Hne].
  - rewrite lookup_insert_eq, Hl. simpl. f_equal. rewrite filter_app, filter_cons_False, filter_ne_notin by naive_solver. apply app_nil_r.
  - rewrite lookup_insert_ne by done. destruct (qs !! i) as [k|] eqn:E; [|done]. simpl. f_equal. by apply filter_ne_notin, (H i).
Qed.

(** A node that was already taken out is taken out again without effect. *)
Lemma remove_absent (qs : gmap nat (list nat)) n :
  (forall o l, qs !! o = Some l -> n ∉ l) -> filter (fun x => x ≠ n) <$> qs = qs.
Proof.
  intros H. apply map_eq. intros i. rewrite lookup_fmap. destruct (qs !! i) as [k|] eqn:E; [|done]. simpl. f_equal. by apply filter_ne_notin, (H i).
Qed.

Lemma run_wait_enter (qs : gmap nat (list nat)) (ns : gmap nat rt_wqueue_node) (s : kstate) o n t l :
  (forall o l, qs !! o = Some l -> n ∉ l) -> qs !! o = Some l ->
  wait_enter o n t (qs, (ns, s)) = Ok tt (<[o := l ++ [n]]> qs, (<[n := mk_wnode t 0 0]> ns, s)).
Proof.
  intros H Hl. unfold wait_enter. unfold put_obj at 1. erewrite bind_Ok by reflexivity. unfold rt_wqueue_add, get.
  erewrite bind_Ok by reflexivity. cbn [fst snd]. rewrite bool_decide_eq_true_2 by by apply unlinked_forall.
  erewrite bind_Ok by reflexivity. by apply (run_upd_obj qs _ o (fun l => l ++ [n]) l).
Qed.

(** A thread that waits on an empty queue sleeps, with its node in the queue;
    whatever the kernel does while it sleeps, the next [rt_wqueue_wakeup] makes it
    ready, and its call returns with the queue as it was before. *)
Theorem wqueue_handshake user_wakeup qs ns s o n t th msec :
  blocking_ctx s t th -> qs !! o = Some [] -> (forall o' l, qs !! o' = Some l -> n ∉ l) ->
  - 2 ^ 31 <= msec <= 2147482 -> msec ≠ 0 ->
  let qs1 := <[o := [n]]> qs in let ns1 := <[n := mk_wnode t 0 0]> ns in
  exists s1, rt_wqueue_wait o n 0 msec (qs, (ns, s)) = Ok (Waiting t) (qs1, (ns1, s1)) /\ kinv s1 /\
    (exists th1, k_threads s1 !! t = Some th1 /\ state_of th1 = RT_THREAD_SUSPEND) /\
    forall s2 th2 key u uh, kinv s2 -> k_threads s2 !! t = Some th2 -> state_of th2 = RT_THREAD_SUSPEND -> ready s2 u uh ->
    exists s3, rt_wqueue_wakeup user_wakeup o key (qs1, (ns1, s2)) = Ok tt (qs, (ns1, s3)) /\ kinv s3 /\
      (exists th3, ready s3 t th3) /\
      rt_wqueue_wait_resume n (qs, (ns1, s3)) = Ok (Return 0) (qs, (ns1, s3)).
Proof.
  intros B Hq Hn Hms Hz qs1 ns1. pose proof (bc_current _ _ _ B) as Hc.
  destruct (rt_tick_from_millisecond_correct msec Hms) as [Et _].
  assert (rt_tick_from_millisecond msec = RT_WAITING_FOREVER \/ 0 < rt_tick_from_millisecond msec < RT_TICK_MAX / 2) as Htick.
  { rewrite Et. destruct (Z.ltb_spec msec 0); [by left|right]. change (RT_TICK_MAX / 2) with 2147483647. lia. }
  destruct (run_wait_suspend qs1 ns1 s t th _ B Htick) as (E & I1 & Ht1). eexists. split; [|split; [by apply kinv_scheduled|split]].
  - unfold rt_wqueue_wait. unfold kern at 1, gets. erewrite bind_Ok by reflexivity. cbn [snd]. change (negb (0 =? 0)) with false.
    rewrite (proj2 (Z.eqb_neq _ _)) by (unfold RT_WAITING_FOREVER in Htick; lia). cbv iota. cbn [orb].
    erewrite bind_Ok by (apply run_deref; exact Hc). run_step (run_wait_enter qs ns s o n t [] Hn Hq). run_step E. reflexivity.
  - rewrite scheduled_threads. eexists. split; [exact Ht1|apply state_suspend].
  - intros s2 th2 key u uh I2 Ht2 Hs2 Hu.
    assert (ns1 !! n = Some (mk_wnode t 0 0)) as He by apply lookup_insert_eq.
    assert (Forall (answers user_wakeup key (fun _ => true) ns1 s2) [n]) as Hans.
    { constructor; [|constructor]. exists (mk_wnode t 0 0), th2, 0. split_and!; try done.
      unfold call_wakeup. by run_step (run_get_obj ns1 s2 n _ He). }
    destruct (rt_wqueue_wakeup_correct user_wakeup key (fun _ => true) qs1 ns1 s2 o [n] u uh I2 Hu ltac:(apply lookup_insert_eq) Hans)
      as (st3 & E3 & _ & e & th2' & He' & Ht2' & ->).
    rewrite He in He'. injection He' as <-. simpl in Ht2'. rewrite Ht2 in Ht2'. injection Ht2' as <-.
    unfold woken in E3. simpl in E3. rewrite decide_True in E3 by done. pose proof (remove_added qs o n [] Hn Hq) as Er.
    change (<[o := [] ++ [n]]> qs) with qs1 in Er. rewrite Er in E3. exists (scheduled (resumed t th2 s2)). split; [exact E3|].
    split; [by apply kinv_scheduled, kinv_resumed|]. split.
    + eexists. split; [rewrite scheduled_threads, resumed_lookup; apply lookup_insert_eq|apply state_ready].
    + unfold rt_wqueue_wait_resume. run_step (run_wqueue_remove qs ns1 (scheduled (resumed t th2 s2)) n _ He).
      by rewrite (remove_absent qs n Hn).
Qed.

(** ** Limits of the code *)

Definition demo_wait : wait_state := ({[1%nat := []]}, (∅, demo)).

(** An event between the entry of the node and the suspension finds the node but
    no sleeping thread: the node is gone, the thread then sleeps for ever. *)
Theorem wqueue_lost_wakeup :
  let st := run (wait_enter 1 7 1;; rt_wqueue_wakeup (fun _ _ _ => mret 1) 1 0;; wait_suspend 1 RT_WAITING_FOREVER) demo_wait in
  st.1 !! 1%nat = Some [] /\ has_state st.2.2 RT_THREAD_SUSPEND 1 = true /\ is_linkedb st.2.2 1 = false /\
  TThread 1 ∉ k_timer_list st.2.2.
Proof. vm_compute. split_and!; try reflexivity. set_solver. Qed.

(** ** Witnesses *)

Lemma wqueue_handshake_witness :
  exists s1, rt_wqueue_wait 1 7 0 (-1) demo_wait = Ok (Waiting 1%nat) (<[1%nat := [7%nat]]> {[1%nat := []]}, (<[7%nat := mk_wnode 1 0 0]> ∅, s1)) /\
    kinv s1.
Proof.
  destruct (wqueue_handshake (fun _ _ _ => mret 1) {[1%nat := []]} ∅ demo 1 7 1 (thread_at demo 1) (-1)) as (s1 & E & I & _).
  - exact demo_ctx.
  - reflexivity.
  - intros o' l [_ <-]%lookup_singleton_Some. set_solver.
  - lia.
  - lia.
  - exists s1. split; [exact E|exact I].
Defined.
