(* ===== verification/WorkQueue.v ===== *)
(** * Work queues: components/drivers/src/workqueue.c

    A thread that runs the works other threads and interrupts hand to it, one
    after the other, and the semaphore with which a caller waits for the end of
    the running work.  The loop of the thread is cut into the phases between
    which other code can run. *)

From S2P Require Import Prelude Kernel Object Timer Scheduler Thread KInv ThreadSpec Ipc Semaphore.

(** [struct rt_work] without its list node, which is a number in a list. *)
Record rt_work := mk_work { work_func : nat; work_data : Z }.

(** [struct rt_workqueue]; its semaphore is the semaphore with the number of the
    queue. *)
Record rt_workqueue := mk_wq {
  work_list : list nat;
  work_current : option nat;
  work_thread : option nat
}.

Definition set_work_list (f : list nat -> list nat) (q : rt_workqueue) : rt_workqueue :=
  mk_wq (f (work_list q)) (work_current q) (work_thread q).
Definition set_work_current (c : option nat) (q : rt_workqueue) : rt_workqueue :=
  mk_wq (work_list q) c (work_thread q).
Definition set_work_thread (t : option nat) (q : rt_workqueue) : rt_workqueue :=
  mk_wq (work_list q) (work_current q) t.

(** Queues, works, semaphores and the kernel. *)
Definition wq_state : Type := gmap nat rt_workqueue * (gmap nat rt_work * sem_state).

Definition on_works {A} (m : M (gmap nat rt_work * sem_state) A) : M wq_state A := on_snd m.
Definition on_sem {A} (m : M sem_state A) : M wq_state A := on_snd (on_snd m).
Definition on_kernel {A} (m : M kstate A) : M wq_state A := on_snd (on_snd (on_snd m)).

(** [rt_list_remove(&(work->list))]: out of whatever list it is in.  The node of a
    work that was never initialised is no node. *)
Definition unlink_work (w : nat) : M wq_state unit :=
  on_works (get_obj w);;
  modify (fun st => (set_work_list (filter (fun v => v ≠ w)) <$> st.1, st.2)).

(** [rt_list_init] on a node that is linked would break its list. *)
Definition rt_work_init (w func : nat) (data : Z) : M wq_state unit :=
  st ← get;
  rt_assert (bool_decide (map_Forall (fun _ q => w ∉ work_list q) st.1));;
  on_works (put_obj w (mk_work func data)).

(** ** The work thread *)

(** Each round takes one unit, or wakes a waiting thread, or adds the unit that the
    next round takes. *)
Fixpoint completion_loop (fuel : nat) (o : nat) : M sem_state Z :=
  match fuel with
  | O => fault
  | S fuel =>
      result ← rt_sem_trytake o;
      match result with
      | Waiting _ => fault
      | Return result =>
          if result =? - RT_ETIMEOUT then rt_sem_release o;; completion_loop fuel o
          else if result =? RT_EOK then mret RT_EOK
          else mret (- RT_ERROR)
      end
  end.

Definition _workqueue_work_completion (o : nat) : M wq_state Z :=
  on_kernel rt_enter_critical;;
  result ← on_sem (st ← get; completion_loop (length (tl st.2 (sem_head o)) + 2) o);
  on_kernel rt_exit_critical;;
  mret result.

(** [rt_list_isempty(&(queue->work_list))] *)
Definition worker_check (o : nat) : M wq_state bool := q ← get_obj o; mret (bool_decide (work_list q = [])).

(** The thread suspends itself; it goes on with [worker_take]. *)
Definition worker_sleep : M wq_state unit :=
  on_kernel (t ← rt_thread_self; rt_thread_suspend t;; rt_schedule).

(** The first critical section; [next] of an empty list is the head, which is no
    work. *)
Definition worker_take (o : nat) : M wq_state nat :=
  q ← get_obj o;
  w ← deref (fun _ => head (work_list q));
  unlink_work w;;
  upd_obj o (set_work_current (Some w));;
  mret w.

(** The second critical section. *)
Definition worker_clean (o : nat) : M wq_state unit := upd_obj o (set_work_current None).

Section entry.
(** [work->work_func(work, work->work_data)], by the address of the function. *)
Context (call_work : nat -> nat -> Z -> M wq_state unit).

Definition worker_run (w : nat) : M wq_state unit :=
  x ← on_works (get_obj w); call_work (work_func x) w (work_data x).

(** One round of the loop behind the test of the list. *)
Definition worker_round (o : nat) : M wq_state unit :=
  w ← worker_take o;
  worker_run w;;
  worker_clean o;;
  _workqueue_work_completion o;;
  mret tt.

(** The loop up to the point where the thread suspends itself; [false] when the
    fuel is used up before. *)
Fixpoint _workqueue_thread_entry (fuel : nat) (o : nat) : M wq_state bool :=
  empty ← worker_check o;
  if (empty : bool) then worker_sleep;; mret true
  else
    match fuel with
    | O => mret false
    | S fuel => worker_round o;; _workqueue_thread_entry fuel o
    end.
End entry.

(** ** Operations of the users *)

(** [mem], [tmem] and [stack] are the results of the three allocations. *)
Definition rt_workqueue_create (mem tmem : option nat) (stack : option Z) (name : list Z) (stack_size priority : Z)
    : M wq_state (option nat) :=
  match mem with
  | None => mret None
  | Some o =>
      put_obj o (mk_wq [] None None);;
      on_sem (rt_sem_init o [119; 113; 117; 101; 117; 101] 0 RT_IPC_FLAG_FIFO);;
      t ← on_kernel (rt_thread_create tmem stack name stack_size priority 10);
      upd_obj o (set_work_thread t);;
      match t with
      | None => del_obj o;; on_sem (del_obj o);; mret None
      | Some t => on_kernel (rt_thread_startup t);; mret (Some o)
      end
  end.

(** The memory of the queue holds its semaphore. *)
Definition rt_workqueue_destroy (o : nat) : M wq_state Z :=
  q ← get_obj o;
  t ← deref (fun _ => work_thread q);
  on_kernel (rt_thread_delete t);;
  del_obj o;;
  on_sem (del_obj o);;
  mret RT_EOK.

(** The critical section of [rt_workqueue_dowork]: [None] for a work that runs,
    otherwise whether the thread has to be woken. *)
Definition queue_work (o w : nat) : M wq_state (option bool) :=
  q ← get_obj o;
  if bool_decide (work_current q = Some w) then mret None
  else
    unlink_work w;;
    upd_obj o (set_work_list (fun l => l ++ [w]));;
    mret (Some (bool_decide (work_current q = None))).

(** [rt_thread_resume(queue->work_thread); rt_schedule();] *)
Definition kick_worker (o : nat) : M wq_state unit :=
  q ← get_obj o;
  t ← deref (fun _ => work_thread q);
  on_kernel (rt_thread_resume t;; rt_schedule).

Definition rt_workqueue_dowork (o w : nat) : M wq_state Z :=
  r ← queue_work o w;
  match r with
  | None => mret (- RT_EBUSY)
  | Some idle => when idle (kick_worker o);; mret RT_EOK
  end.

(** The same text as [rt_workqueue_dowork]. *)
Definition rt_workqueue_critical_work (o w : nat) : M wq_state Z :=
  r ← queue_work o w;
  match r with
  | None => mret (- RT_EBUSY)
  | Some idle => when idle (kick_worker o);; mret RT_EOK
  end.

Definition rt_workqueue_cancel_work (o w : nat) : M wq_state Z :=
  q ← get_obj o;
  if bool_decide (work_current q = Some w) then mret (- RT_EBUSY)
  else unlink_work w;; mret RT_EOK.

(** Up to the [rt_schedule] of [rt_sem_take], whose result is not looked at. *)
Definition rt_workqueue_cancel_work_sync (o w : nat) : M wq_state (call nat Z) :=
  q ← get_obj o;
  if bool_decide (work_current q = Some w) then
    r ← on_sem (rt_sem_take o RT_WAITING_FOREVER);
    match r with Waiting t => mret (Waiting t) | Return _ => mret (Return RT_EOK) end
  else unlink_work w;; mret (Return RT_EOK).

Definition rt_workqueue_cancel_work_sync_resume (t : nat) : M wq_state (call nat Z) :=
  on_sem (rt_sem_take_resume t);; mret (Return RT_EOK).

(** [next] is read before the node is removed, so the loop visits the nodes that
    were in the list.  The loop locks the scheduler and not the interrupts: it is
    the loop without an interrupt that changes the list while it runs. *)
Fixpoint cancel_loop (nodes : list nat) : M wq_state unit :=
  match nodes with [] => mret tt | w :: nodes => unlink_work w;; cancel_loop nodes end.

Definition rt_workqueue_cancel_all_work (o : nat) : M wq_state Z :=
  on_kernel rt_enter_critical;;
  q ← get_obj o;
  cancel_loop (work_list q);;
  on_kernel rt_exit_critical;;
  mret RT_EOK.

(** ** The acknowledgement of the end of a work *)

(** Every thread of the list was made ready. *)
Record all_woke (h : tlist_head) (l : list nat) (s s' : kstate) : Prop := {
  aw_inv : kinv s';
  aw_list : tl s' h = [];
  aw_lists : forall h', waiting_head h' -> h' ≠ h -> tl s' h' = tl s h';
  aw_ready : forall t th, t ∈ l -> k_threads s !! t = Some th ->
    ready s' t (set_th_stat (with_state RT_THREAD_READY (th_stat th)) th);
  aw_others : forall t, t ∉ l -> k_threads s' !! t = k_threads s !! t
}.

Lemma all_woke_nil h s : kinv s -> tl s h = [] -> all_woke h [] s s.
Proof. intros I E. split; try done. intros t th Hin. set_solver. Qed.

Lemma all_woke_cons h t th l s s1 s2 :
  NoDup (t :: l) -> k_threads s !! t = Some th -> woke_first h t th l s s1 -> all_woke h l s1 s2 -> all_woke h (t :: l) s s2.
Proof.
  intros [Hn _]%NoDup_cons Ht [_ _ Hls Hr _ Ho] [I E Hls' Hr' Ho']. split; [done|done|..].
  - intros h' H1 H2. by rewrite Hls', Hls.
  - intros u uh [->|Hu]%elem_of_cons Hlu.
    + simplify_eq. split; [|by apply Hr]. rewrite (Ho' t Hn). by apply Hr.
    + apply Hr'; [done|]. rewrite Ho; [done|]. by intros ->.
  - intros u [Hne Hu]%not_elem_of_cons. by rewrite Ho', Ho.
Qed.

(** Moving from the states around a critical section to those inside. *)
Lemma all_woke_frame h l s0 s s' s1 :
  all_woke h l s s' -> kinv s1 -> (forall h', tl s h' = tl s0 h') -> k_threads s = k_threads s0 ->
  (forall h', tl s1 h' = tl s' h') -> k_threads s1 = k_threads s' -> all_woke h l s0 s1.
Proof.
  intros [I E Hls Hr Ho] I1 Et Eth Et1 Eth1. split; [done|by rewrite Et1| | |].
  - intros h' H1 H2. by rewrite Et1, <- Et, Hls.
  - intros t th Hin Ht. rewrite <- Eth in Ht. destruct (Hr t th Hin Ht). split; [by rewrite Eth1|done].
  - intros t Hn. by rewrite Eth1, Ho, Eth.
Qed.

Lemma run_sem_trytake m s o sem :
  m !! o = Some sem ->
  rt_sem_trytake o (m, s) =
    if 0 <? sem_value sem then Ok (Return RT_EOK) (<[o := set_sem_value (sem_value sem - 1) sem]> m, s)
    else Ok (Return (- RT_ETIMEOUT)) (m, s).
Proof.
  intros Hs. unfold rt_sem_trytake, rt_sem_take. run_step (run_get_obj m s o sem Hs). destruct (_ <? _); [|done].
  by run_step (run_upd_obj m s o (fun x => set_sem_value (sem_value x - 1) x) sem Hs).
Qed.

(** Without units and waiting threads the loop adds a unit and takes it back. *)
Lemma run_completion_idle m s o sem fuel :
  m !! o = Some sem -> sem_value sem = 0 -> kinv s -> tl s (sem_head o) = [] -> (2 <= fuel)%nat ->
  completion_loop fuel o (m, s) = Ok RT_EOK (m, s).
Proof.
  intros Hs Hv I E Hf. destruct fuel as [|[|fuel]]; [lia..|]. cbn [completion_loop].
  assert (rt_sem_trytake o (m, s) = Ok (Return (- RT_ETIMEOUT)) (m, s)) as E1 by (by rewrite (run_sem_trytake m s o sem Hs), Hv).
  run_step E1. destruct (proj1 (wp_run _ _ _) (sem_release_spec m s o sem Hs I)) as (r & st & E2 & -> & Est).
  rewrite E in Est. subst st. change (- RT_ETIMEOUT =? - RT_ETIMEOUT) with true. cbv iota. run_step E2.
  rewrite Hv. change (u16 (0 + 1)) with 1.
  assert (rt_sem_trytake o (<[o := set_sem_value 1 sem]> m, s) = Ok (Return RT_EOK) (m, s)) as E3.
  { rewrite (run_sem_trytake _ s o (set_sem_value 1 sem)) by apply lookup_insert_eq. simpl. rewrite insert_insert_eq.
    rewrite insert_id; [done|]. rewrite Hs. destruct sem; simpl in *; by subst. }
  by run_step E3.
Qed.

(** Without units the loop hands one to every waiting thread. *)
Lemma run_completion_loop m o sem : m !! o = Some sem -> sem_value sem = 0 ->
  forall l fuel s, kinv s -> tl s (sem_head o) = l -> (length l + 2 <= fuel)%nat ->
  exists s', completion_loop fuel o (m, s) = Ok RT_EOK (m, s') /\ all_woke (sem_head o) l s s'.
Proof.
  intros Hs Hv. induction l as [|t l IH]; intros fuel s I E Hf; simpl in Hf.
  - exists s. split; [by eapply run_completion_idle|by apply all_woke_nil].
  - destruct fuel as [|fuel]; [lia|]. cbn [completion_loop].
    assert (rt_sem_trytake o (m, s) = Ok (Return (- RT_ETIMEOUT)) (m, s)) as E1 by (by rewrite (run_sem_trytake m s o sem Hs), Hv).
    run_step E1. destruct (proj1 (wp_run _ _ _) (sem_release_spec m s o sem Hs I)) as (r & [m1 s1] & E2 & -> & W).
    rewrite E in W. destruct W as (Em & th & Ht & W). simpl in Em, W. subst m1.
    change (- RT_ETIMEOUT =? - RT_ETIMEOUT) with true. cbv iota. run_step E2.
    destruct (IH fuel s1 (wf_inv _ _ _ _ _ _ W) (wf_list _ _ _ _ _ _ W) ltac:(lia)) as (s2 & E3 & W2).
    exists s2. split; [exact E3|]. eapply all_woke_cons; [|done..]. rewrite <- E. apply I.
Qed.

Section completion.
Context (qs : gmap nat rt_workqueue) (ws : gmap nat rt_work) (m : gmap nat rt_semaphore) (o : nat) (sem : rt_semaphore).
Context (Hs : m !! o = Some sem).

(** What is left of the section around the loop. *)
Lemma run_completion_around s m1 s1 s2 :
  completion_loop (length (tl s (sem_head o)) + 2) o (m, set_k_lock_nest (fun n => s16 (n + 1)) s) = Ok RT_EOK (m1, s1) ->
  rt_exit_critical s1 = Ok tt s2 ->
  _workqueue_work_completion o (qs, (ws, (m, s))) = Ok RT_EOK (qs, (ws, (m1, s2))).
Proof.
  intros E1 E2. unfold _workqueue_work_completion, on_kernel, on_sem.
  unfold rt_enter_critical at 1. erewrite bind_Ok by reflexivity.
  erewrite bind_Ok; [|by apply run_on_snd, run_on_snd; erewrite bind_Ok by reflexivity; apply E1].
  by erewrite bind_Ok by (by apply run_on_snd, run_on_snd, run_on_snd).
Qed.

Lemma run_work_completion s u uh :
  sem_value sem = 0 -> kinv s -> ready s u uh ->
  exists s', _workqueue_work_completion o (qs, (ws, (m, s))) = Ok RT_EOK (qs, (ws, (m, s'))) /\
    all_woke (sem_head o) (tl s (sem_head o)) s s'.
Proof.
  intros Hv I [Hu Hus]. set (s0 := set_k_lock_nest (fun n => s16 (n + 1)) s).
  assert (kinv s0) as I0 by by apply (kinv_same s).
  destruct (run_completion_loop m o sem Hs Hv (tl s (sem_head o)) (length (tl s (sem_head o)) + 2) s0 I0 eq_refl ltac:(lia)) as (s1 & E1 & W).
  assert (exists v vh, ready s1 v vh) as (v & vh & Hr).
  { destruct (decide (u ∈ tl s (sem_head o))) as [Hin|Hn].
    - eexists _, _. exact (aw_ready _ _ _ _ W u uh Hin Hu).
    - exists u, uh. split; [|done]. by rewrite (aw_others _ _ _ _ W u Hn). }
  destruct (run_exit_critical_frame s1 v vh (aw_inv _ _ _ _ W) Hr) as (s2 & E2 & I2 & Et & Eth).
  exists s2. split; [|by eapply all_woke_frame]. by apply (run_completion_around s m s1 s2).
Qed.

(** A unit that is left over is taken, and nobody is woken. *)
Lemma run_work_completion_unit s u uh :
  0 < sem_value sem -> kinv s -> ready s u uh ->
  exists s' : kstate, _workqueue_work_completion o (qs, (ws, (m, s)))
      = Ok RT_EOK (qs, (ws, (<[o := set_sem_value (sem_value sem - 1) sem]> m, s'))) /\
    kinv s' /\ (forall h, tl s' h = tl s h) /\ k_threads s' = k_threads s.
Proof.
  intros Hv I Hr. set (s0 := set_k_lock_nest (fun n => s16 (n + 1)) s).
  assert (kinv s0) as I0 by by apply (kinv_same s).
  destruct (run_exit_critical_frame s0 u uh I0 Hr) as (s2 & E2 & I2 & Et & Eth). exists s2. split; [|done].
  apply (run_completion_around s _ s0 s2); [|done]. rewrite Nat.add_comm. cbn [Nat.add completion_loop].
  erewrite bind_Ok; [|by rewrite (run_sem_trytake m _ o sem Hs), (proj2 (Z.ltb_lt _ _) Hv)]. done.
Qed.

(** [_workqueue_work_completion] ends whatever waits for the end of the work:
    every thread that sleeps in [rt_workqueue_cancel_work_sync] becomes ready, no
    other thread changes and no unit of the semaphore is left; only a unit that
    was there before is taken instead of waking. *)
Theorem work_completion_correct s u uh :
  0 <= sem_value sem -> kinv s -> ready s u uh ->
  exists m' s', _workqueue_work_completion o (qs, (ws, (m, s))) = Ok RT_EOK (qs, (ws, (m', s'))) /\ kinv s' /\
    if decide (sem_value sem = 0) then m' = m /\ all_woke (sem_head o) (tl s (sem_head o)) s s'
    else m' = <[o := set_sem_value (sem_value sem - 1) sem]> m /\ (forall h, tl s' h = tl s h) /\ k_threads s' = k_threads s.
Proof.
  intros Hv I Hr. case_decide as E.
  - destruct (run_work_completion s u uh E I Hr) as (s' & E1 & W). exists m, s'. split; [done|]. split; [by apply W|done].
  - destruct (run_work_completion_unit s u uh ltac:(lia) I Hr) as (s' & E1 & I' & H). eexists _, s'. split; [exact E1|]. by split.
Qed.
End completion.

(** ** Any interleaving of the users and the work thread *)

Inductive wq_event := Queued (w : nat) | Started (w : nat) | Finished (w : nat) | Removed (w : nat) | Cleared | Silent.

(** The abstract queue: the works that wait and the work that runs. *)
Definition spec_step (a : list nat * option nat) (e : wq_event) : option (list nat * option nat) :=
  match e with
  | Queued w => if bool_decide (a.2 = Some w) then None else Some (filter (fun v => v ≠ w) a.1 ++ [w], a.2)
  | Started w =>
      match a with
      | (v :: l, None) => if bool_decide (v = w) then Some (l, Some w) else None
      | _ => None
      end
  | Finished w => if bool_decide (a.2 = Some w) then Some (a.1, None) else None
  | Removed w => Some (filter (fun v => v ≠ w) a.1, a.2)
  | Cleared => Some ([], a.2)
  | Silent => Some a
  end.

Fixpoint spec_run (a : list nat * option nat) (tr : list wq_event) : option (list nat * option nat) :=
  match tr with
  | [] => Some a
  | e :: tr => a' ← spec_step a e; spec_run a' tr
  end.

(** Where the work thread is: outside of a work, or in the function of one. *)
Inductive wq_phase := Free | Running (w : nat).

(** What a cancelling call does to the list. *)
Definition cancel_event (st : wq_state) (o w : nat) : wq_event :=
  if bool_decide (work_current <$> st.1 !! o = Some (Some w)) then Silent else Removed w.

Inductive wq_step (o : nat) : wq_phase * wq_state -> wq_event -> wq_phase * wq_state -> Prop :=
| wq_start st w st' : worker_take o st = Ok w st' -> wq_step o (Free, st) (Started w) (Running w, st')
| wq_finish w st r st' : worker_clean o st = Ok r st' -> wq_step o (Running w, st) (Finished w) (Free, st')
| wq_ack ph st r st' : _workqueue_work_completion o st = Ok r st' -> wq_step o (ph, st) Silent (ph, st')
| wq_sleep ph st r st' : worker_sleep st = Ok r st' -> wq_step o (ph, st) Silent (ph, st')
| wq_queue ph w st b st' : queue_work o w st = Ok (Some b) st' -> wq_step o (ph, st) (Queued w) (ph, st')
| wq_busy ph w st st' : queue_work o w st = Ok None st' -> wq_step o (ph, st) Silent (ph, st')
| wq_kick ph st r st' : kick_worker o st = Ok r st' -> wq_step o (ph, st) Silent (ph, st')
| wq_move ph o' w st b st' : o' ≠ o -> queue_work o' w st = Ok (Some b) st' -> wq_step o (ph, st) (Removed w) (ph, st')
| wq_cancel ph o' w st r st' : rt_workqueue_cancel_work o' w st = Ok r st' -> wq_step o (ph, st) (cancel_event st o' w) (ph, st')
| wq_cancel_sync ph o' w st r st' :
    rt_workqueue_cancel_work_sync o' w st = Ok r st' -> wq_step o (ph, st) (cancel_event st o' w) (ph, st')
| wq_cancel_all ph st r st' : rt_workqueue_cancel_all_work o st = Ok r st' -> wq_step o (ph, st) Cleared (ph, st')
| wq_others ph qs x x' : wq_step o (ph, (qs, x)) Silent (ph, (qs, x')).

Inductive wq_steps (o : nat) : wq_phase * wq_state -> list wq_event -> wq_phase * wq_state -> Prop :=
| wq_steps_nil c : wq_steps o c [] c
| wq_steps_cons c c1 c2 e tr : wq_step o c e c1 -> wq_steps o c1 tr c2 -> wq_steps o c (e :: tr) c2.

Definition running (ph : wq_phase) : option nat := match ph with Free => None | Running w => Some w end.

(** No work is in the list twice, or both in the list and running. *)
Record wq_wf (ph : wq_phase) (q : rt_workqueue) : Prop := {
  ww_nodup : NoDup (work_list q);
  ww_current : work_current q = running ph;
  ww_apart : forall w, work_current q = Some w -> w ∉ work_list q
}.

Definition view (q : rt_workqueue) : list nat * option nat := (work_list q, work_current q).

(** *** What each operation does to the queues *)

Lemma unlink_work_inv w (st st' : wq_state) r :
  unlink_work w st = Ok r st' -> st'.1 = set_work_list (filter (fun v => v ≠ w)) <$> st.1.
Proof. intros H. unfold unlink_work, on_works in H. run_inv H. apply on_snd_inv in E as [E _]. injection H as _ <-. simpl. by rewrite E. Qed.

Lemma queue_work_inv o w (st st' : wq_state) r :
  queue_work o w st = Ok r st' -> exists q, st.1 !! o = Some q /\
    if decide (work_current q = Some w) then r = None /\ st' = st
    else is_Some r /\ st'.1 = <[o := set_work_list (fun l => l ++ [w]) (set_work_list (filter (fun v => v ≠ w)) q)]>
                                (set_work_list (filter (fun v => v ≠ w)) <$> st.1).
Proof.
  intros H. unfold queue_work in H. run_inv H. apply get_obj_inv in E as [-> E]. exists a. split; [done|].
  case_decide as Hc; [rewrite bool_decide_eq_true_2 in H by done; by injection H as <- <-|].
  rewrite bool_decide_eq_false_2 in H by done. run_inv H. apply unlink_work_inv in E0.
  run_inv H. apply upd_obj_inv in E1 as (x & Hx & ->). injection H as <- <-. split; [by eexists|].
  rewrite E0, lookup_fmap, E in Hx. injection Hx as <-. simpl. by rewrite E0.
Qed.

Lemma cancel_work_inv o w (st st' : wq_state) r :
  rt_workqueue_cancel_work o w st = Ok r st' ->
  st'.1 = match cancel_event st o w with Silent => st.1 | _ => set_work_list (filter (fun v => v ≠ w)) <$> st.1 end.
Proof.
  intros H. unfold rt_workqueue_cancel_work in H. run_inv H. apply get_obj_inv in E as [-> E]. unfold cancel_event. rewrite E. simpl.
  case_bool_decide as Hc; [rewrite bool_decide_eq_true_2 by congruence; by injection H as _ <-|].
  rewrite bool_decide_eq_false_2 by congruence. run_inv H. apply unlink_work_inv in E0. by injection H as _ <-.
Qed.

Lemma cancel_work_sync_inv o w (st st' : wq_state) r :
  rt_workqueue_cancel_work_sync o w st = Ok r st' ->
  st'.1 = match cancel_event st o w with Silent => st.1 | _ => set_work_list (filter (fun v => v ≠ w)) <$> st.1 end.
Proof.
  intros H. unfold rt_workqueue_cancel_work_sync in H. run_inv H. apply get_obj_inv in E as [-> E]. unfold cancel_event. rewrite E. simpl.
  case_bool_decide as Hc.
  - rewrite bool_decide_eq_true_2 by congruence. run_inv H. apply on_snd_inv in E0 as [E0 _]. by destruct a0; injection H as _ <-.
  - rewrite bool_decide_eq_false_2 by congruence. run_inv H. apply unlink_work_inv in E0. by injection H as _ <-.
Qed.

Lemma cancel_loop_inv nodes : forall (st st' : wq_state) r,
  cancel_loop nodes st = Ok r st' -> st'.1 = set_work_list (filter (fun v => v ∉ nodes)) <$> st.1.
Proof.
  induction nodes as [|w nodes IH]; intros st st' r H; cbn [cancel_loop] in H.
  - injection H as _ <-. symmetry. etransitivity; [|apply map_fmap_id]. apply map_fmap_ext. intros o q _. destruct q as [l c t].
    unfold set_work_list. simpl. by rewrite filter_every by (intros; set_solver).
  - run_inv H. apply unlink_work_inv in E. rewrite (IH _ _ _ H), E, <- map_fmap_compose. apply map_fmap_ext.
    intros o q _. unfold set_work_list. simpl. f_equal. rewrite list_filter_filter. apply list_filter_iff. intros v. set_solver.
Qed.

Lemma cancel_all_inv o q (st st' : wq_state) r :
  rt_workqueue_cancel_all_work o st = Ok r st' -> st.1 !! o = Some q -> st'.1 !! o = Some (set_work_list (fun _ => []) q).
Proof.
  intros H Hq. unfold rt_workqueue_cancel_all_work in H. run_inv H. apply on_snd_inv in E as [E _]. run_inv H.
  apply get_obj_inv in E0 as [-> E0]. rewrite E, Hq in E0. injection E0 as <-. run_inv H. apply cancel_loop_inv in E0. run_inv H.
  apply on_snd_inv in E1 as [E1 _]. injection H as _ <-. rewrite E1, E0, E, lookup_fmap, Hq. simpl. f_equal.
  unfold set_work_list. f_equal. apply filter_noone. naive_solver.
Qed.

(** *** The simulation *)

Definition refined (o : nat) (ph : wq_phase) (q : rt_workqueue) (e : wq_event) (st' : wq_state) : Prop :=
  exists q', st'.1 !! o = Some q' /\ wq_wf ph q' /\ spec_step (view q) e = Some (view q').

Lemma refined_silent o ph q st' : wq_wf ph q -> st'.1 !! o = Some q -> refined o ph q Silent st'.
Proof. intros W H. by exists q. Qed.

(** A work leaves the list, or was not in it. *)
Lemma refined_removed o ph q w (st st' : wq_state) :
  wq_wf ph q -> st.1 !! o = Some q -> st'.1 !! o = (set_work_list (filter (fun v => v ≠ w)) <$> st.1) !! o ->
  refined o ph q (Removed w) st'.
Proof.
  intros [Hn Hc Ha] Hq E. rewrite lookup_fmap, Hq in E. eexists. split; [exact E|]. split; [|done].
  split; simpl; [by apply NoDup_filter|done|]. intros v Hv Hin%list_elem_of_filter. by apply (Ha v Hv), Hin.
Qed.

Lemma refined_queued o ph q w b (st st' : wq_state) :
  wq_wf ph q -> st.1 !! o = Some q -> queue_work o w st = Ok (Some b) st' -> refined o ph q (Queued w) st'.
Proof.
  intros [Hn Hc Ha] Hq E. apply queue_work_inv in E as (x & Hx & H). rewrite Hq in Hx. injection Hx as <-.
  case_decide as Hw; [by destruct H|]. destruct H as [_ E]. eexists. rewrite E, lookup_insert_eq. split; [done|].
  split; [|simpl; by rewrite bool_decide_eq_false_2]. split; simpl; [|done|].
  - apply NoDup_app. split; [by apply NoDup_filter|]. split; [|apply NoDup_singleton].
    intros v [? _]%list_elem_of_filter ->%list_elem_of_singleton. done.
  - intros v Hv [[_ Hin]%list_elem_of_filter| ->%list_elem_of_singleton]%elem_of_app; [by apply (Ha v)|done].
Qed.

Lemma refined_moved o o' ph q w b (st st' : wq_state) :
  o' ≠ o -> wq_wf ph q -> st.1 !! o = Some q -> queue_work o' w st = Ok (Some b) st' -> refined o ph q (Removed w) st'.
Proof.
  intros Hne W Hq E. apply queue_work_inv in E as (x & Hx & H). case_decide as Hw; [by destruct H|]. destruct H as [_ E].
  eapply refined_removed; [done|exact Hq|]. by rewrite E, lookup_insert_ne.
Qed.

Lemma refined_cancelled o o' ph q w (st st' : wq_state) :
  wq_wf ph q -> st.1 !! o = Some q ->
  st'.1 = match cancel_event st o' w with Silent => st.1 | _ => set_work_list (filter (fun v => v ≠ w)) <$> st.1 end ->
  refined o ph q (cancel_event st o' w) st'.
Proof.
  intros W Hq E. unfold cancel_event in *. case_bool_decide.
  - apply refined_silent; [done|by rewrite E].
  - eapply refined_removed; [done|exact Hq|by rewrite E].
Qed.

Lemma refined_started o q w (st st' : wq_state) :
  wq_wf Free q -> st.1 !! o = Some q -> worker_take o st = Ok w st' -> refined o (Running w) q (Started w) st'.
Proof.
  intros [Hn Hc Ha] Hq E. unfold worker_take in E. run_inv E. apply get_obj_inv in E0 as [-> E0]. rewrite Hq in E0. injection E0 as <-.
  run_inv E. unfold deref in E0. destruct (work_list q) as [|v l] eqn:El; [done|]. injection E0 as <- <-. run_inv E.
  apply unlink_work_inv in E0. run_inv E. apply upd_obj_inv in E1 as (x & Hx & ->). injection E as -> <-.
  rewrite E0, lookup_fmap, Hq in Hx. injection Hx as <-. apply NoDup_cons in Hn as [Hn1 Hn2].
  eexists. simpl. rewrite lookup_insert_eq. split; [done|]. unfold view, set_work_list. simpl. rewrite El, Hc.
  rewrite filter_cons_False by naive_solver. rewrite filter_ne_notin by done. simpl.
  split; [|by rewrite bool_decide_eq_true_2]. split; simpl; [done|done|by intros ? [= <-]].
Qed.

Lemma refined_finished o q w r (st st' : wq_state) :
  wq_wf (Running w) q -> st.1 !! o = Some q -> worker_clean o st = Ok r st' -> refined o Free q (Finished w) st'.
Proof.
  intros [Hn Hc Ha] Hq E. apply upd_obj_inv in E as (x & Hx & ->). rewrite Hq in Hx. injection Hx as <-.
  eexists. simpl. rewrite lookup_insert_eq. split; [done|]. split; [by split|]. rewrite Hc. simpl. by rewrite bool_decide_eq_true_2.
Qed.

Lemma completion_queues o (st st' : wq_state) r : _workqueue_work_completion o st = Ok r st' -> st'.1 = st.1.
Proof.
  intros H. unfold _workqueue_work_completion in H. run_inv H. apply on_snd_inv in E as [E _].
  run_inv H. apply on_snd_inv in E0 as [E0 _]. run_inv H. apply on_snd_inv in E1 as [E1 _]. injection H as _ <-. by rewrite E1, E0, E.
Qed.

Lemma sleep_queues (st st' : wq_state) r : worker_sleep st = Ok r st' -> st'.1 = st.1.
Proof. intros H. by apply on_snd_inv in H as [? _]. Qed.

Lemma kick_queues o (st st' : wq_state) r : kick_worker o st = Ok r st' -> st'.1 = st.1.
Proof.
  intros H. unfold kick_worker in H. run_inv H. apply get_obj_inv in E as [-> E]. run_inv H.
  unfold deref in E0. destruct (work_thread a); [|done]. injection E0 as <- <-. by apply on_snd_inv in H as [? _].
Qed.

Lemma busy_queues o w (st st' : wq_state) : queue_work o w st = Ok None st' -> st'.1 = st.1.
Proof. intros H. apply queue_work_inv in H as (q & _ & H). case_decide; [by destruct H as [_ ->]|by destruct H as [[] _]]. Qed.

Create HintDb workqueue.
#[export] Hint Resolve refined_started refined_finished refined_queued refined_moved : workqueue.

Lemma wq_step_refines o ph st e ph' st' q :
  wq_step o (ph, st) e (ph', st') -> wq_wf ph q -> st.1 !! o = Some q -> refined o ph' q e st'.
Proof.
  intros H W Hq. inversion H; subst; eauto with workqueue.
  - apply refined_silent; [done|]. by erewrite completion_queues.
  - apply refined_silent; [done|]. by erewrite sleep_queues.
  - apply refined_silent; [done|]. by erewrite busy_queues.
  - apply refined_silent; [done|]. by erewrite kick_queues.
  - apply refined_cancelled; [done..|]. by eapply cancel_work_inv.
  - apply refined_cancelled; [done..|]. by eapply cancel_work_sync_inv.
  - eexists. split; [by eapply cancel_all_inv|]. split; [|done]. destruct W. split; simpl; [constructor|done|set_solver].
  - by apply refined_silent.
Qed.

(** Works in the order in which they were handed in and in which they ran. *)
Definition queued (tr : list wq_event) : list nat := tr ≫= fun e => match e with Queued w => [w] | _ => [] end.
Definition started (tr : list wq_event) : list nat := tr ≫= fun e => match e with Started w => [w] | _ => [] end.
Definition keeps (e : wq_event) : Prop := match e with Removed _ | Cleared => False | _ => True end.

Lemma spec_fifo tr : forall a a', spec_run a tr = Some a' -> Forall keeps tr -> NoDup (a.1 ++ queued tr) ->
  a.1 ++ queued tr = started tr ++ a'.1.
Proof.
  induction tr as [|e tr IH]; intros a a' H Hk Hn; simpl in H.
  - injection H as <-. simpl. by rewrite app_nil_r.
  - apply bind_Some in H as (b & Hb & H). apply Forall_cons in Hk as [Hk1 Hk]. destruct e as [w|w|w|w| |]; try done; simpl in Hb.
    + case_bool_decide; [done|]. injection Hb as <-. assert (w ∉ a.1) as Hw.
      { intros Hin. apply NoDup_app in Hn as (_ & Hn & _). apply (Hn w Hin). left. }
      specialize (IH _ _ H Hk). simpl in IH. rewrite filter_ne_notin, <- app_assoc in IH by done. by apply IH.
    + destruct a as [[|v l] [c|]]; try done. case_bool_decide; [|done]. injection Hb as <-. subst v.
      simpl in *. f_equal. apply (IH _ _ H Hk). by apply NoDup_cons in Hn as [_ Hn].
    + case_bool_decide; [|done]. injection Hb as <-. by apply (IH _ _ H Hk).
    + injection Hb as <-. by apply (IH _ _ H Hk).
Qed.

(** C19: the users of a queue, its work thread, other queues and other code in any
    order: the queue behaves as the abstract one, in which a work is in the list
    once, is not accepted while it runs, at most one work runs, and the first of
    the list is the next to run; so works that were handed in once and not taken
    back start in the order in which they were handed in. *)
Theorem workqueue_refines o ph st tr ph' st' q :
  wq_steps o (ph, st) tr (ph', st') -> st.1 !! o = Some q -> wq_wf ph q ->
  exists q', st'.1 !! o = Some q' /\ wq_wf ph' q' /\ spec_run (view q) tr = Some (view q') /\
    (Forall keeps tr -> NoDup (work_list q ++ queued tr) -> work_list q ++ queued tr = started tr ++ work_list q').
Proof.
  intros H Hq W. cut (exists q', st'.1 !! o = Some q' /\ wq_wf ph' q' /\ spec_run (view q) tr = Some (view q')).
  { intros (q' & H1 & H2 & H3). exists q'. split_and!; try done. intros Hk Hn. by apply (spec_fifo tr (view q) (view q')). }
  remember (ph, st) as c eqn:Ec. remember (ph', st') as c' eqn:Ec'. revert ph st q Ec Hq W.
  induction H as [c|c [ph1 st1] c2 e tr Hs _ IH]; intros ph st q -> Hq W.
  - injection Ec' as <- <-. by exists q.
  - destruct (wq_step_refines _ _ _ _ _ _ _ Hs W Hq) as (q1 & Hq1 & W1 & E1).
    destruct (IH Ec' ph1 st1 q1 eq_refl Hq1 W1) as (q' & H1 & H2 & H3). exists q'. split_and!; try done. simpl. by rewrite E1.
Qed.

(** ** The work thread left alone *)

(** The work thread [t] is the current one and no better thread is ready; nobody
    waits for the end of a work. *)
Record undisturbed (o t : nat) (st : wq_state) : Prop := {
  un_ctx : exists th, blocking_ctx st.2.2.2 t th;
  un_lock : k_lock_nest st.2.2.2 = 0;
  un_top : top_ready st.2.2.2 = Some t;
  un_sem : exists sem, st.2.2.1 !! o = Some sem /\ sem_value sem = 0;
  un_nobody : tl st.2.2.2 (sem_head o) = []
}.

Lemma undisturbed_queues o t qs qs' x : undisturbed o t (qs, x) -> undisturbed o t (qs', x).
Proof. by intros []. Qed.

(** Then the acknowledgement leaves the state as it is. *)
Lemma run_completion_undisturbed o t st :
  undisturbed o t st -> _workqueue_work_completion o st = Ok RT_EOK st.
Proof.
  destruct st as [qs [ws [m s]]]. intros [[th B] Hl Ht (sem & Hs & Hv) Hn]. simpl in *.
  set (s0 := set_k_lock_nest (fun n => s16 (n + 1)) s). assert (kinv s0) as I0 by (apply (kinv_same s); try done; apply B).
  apply (run_completion_around _ _ _ _ s m s0 s); [apply (run_completion_idle _ _ _ sem); try done; lia|].
  rewrite (run_exit_critical s0 t th I0); [|simpl; by rewrite Hl|apply B].
  replace (set_k_lock_nest (fun _ => 0) s0) with s by (destruct s; simpl in *; subst; done).
  unfold scheduled. rewrite Hl, Ht. simpl. by rewrite decide_True by apply B.
Qed.

Lemma run_worker_take o q w l (st : wq_state) :
  st.1 !! o = Some q -> work_list q = w :: l -> is_Some (st.2.1 !! w) ->
  worker_take o st = Ok w (<[o := set_work_current (Some w) (set_work_list (filter (fun v => v ≠ w)) q)]>
                             (set_work_list (filter (fun v => v ≠ w)) <$> st.1), st.2).
Proof.
  destruct st as [qs [ws y]]. simpl. intros Hq El [x Hw]. unfold worker_take.
  run_step (run_get_obj qs (ws, y) o q Hq). erewrite bind_Ok by (apply run_deref; by rewrite El).
  unfold unlink_work, on_works.
  erewrite bind_Ok; [|by erewrite bind_Ok by (by apply run_on_snd, run_get_obj)]. cbn [fst snd].
  erewrite bind_Ok; [reflexivity|]. apply run_upd_obj. by rewrite lookup_fmap, Hq.
Qed.

Section drain.
Context (call_work : nat -> nat -> Z -> M wq_state unit) (o t : nat).

(** The state in which the function of [w] is called: [w] is out of every list and
    is the current work; and the state after its end. *)
Definition begun (w : nat) (st : wq_state) : wq_state :=
  (alter (set_work_current (Some w)) o (set_work_list (filter (fun v => v ≠ w)) <$> st.1), st.2).
Definition ended (st : wq_state) : wq_state := (alter (set_work_current None) o st.1, st.2).

(** The functions of the works were called, in this order, each on itself and its
    data while it was the current work, and nothing else happened: the state at
    the end is the one these calls leave. *)
Inductive executed : list nat -> wq_state -> wq_state -> Prop :=
| executed_nil st : executed [] st st
| executed_cons w x l st st1 st' :
    st.2.1 !! w = Some x -> call_work (work_func x) w (work_data x) (begun w st) = Ok tt st1 ->
    executed l (ended st1) st' -> executed (w :: l) st st'.

(** The functions of the works return and leave the queues and the works as they
    are; what they hand to this queue while they run is refused. *)
Hypothesis call_returns : forall f w d st, undisturbed o t st ->
  exists st', call_work f w d st = Ok tt st' /\ undisturbed o t st' /\ st'.1 = st.1 /\ st'.2.1 = st.2.1.

Lemma run_worker_run w x (st : wq_state) :
  st.2.1 !! w = Some x -> worker_run call_work w st = call_work (work_func x) w (work_data x) st.
Proof. destruct st as [qs [ws y]]. intros Hx. unfold worker_run, on_works. by rewrite (bind_Ok _ _ _ _ _ (run_on_snd _ qs _ _ _ (run_get_obj ws y w x Hx))). Qed.

Lemma insert_alter {A} (f : A -> A) (m : gmap nat A) i x : m !! i = Some x -> <[i := f x]> m = alter f i m.
Proof. intros H. apply map_eq. intros j. destruct (decide (i = j)) as [<-|]; simplify_map_eq; done. Qed.

Lemma run_worker_begun q w l (st : wq_state) :
  st.1 !! o = Some q -> work_list q = w :: l -> is_Some (st.2.1 !! w) -> worker_take o st = Ok w (begun w st).
Proof.
  intros Hq El Hw. rewrite (run_worker_take o q w l st Hq El Hw). unfold begun. do 2 f_equal.
  apply (insert_alter (set_work_current (Some w))). by rewrite lookup_fmap, Hq.
Qed.

Lemma run_worker_clean q (st : wq_state) : st.1 !! o = Some q -> worker_clean o st = Ok tt (ended st).
Proof.
  destruct st as [qs x]. intros Hq. unfold worker_clean, ended. simpl in *.
  rewrite (run_upd_obj qs x o (set_work_current None) q Hq). by rewrite insert_alter.
Qed.

Lemma run_worker_round q w l (st : wq_state) :
  undisturbed o t st -> st.1 !! o = Some q -> wq_wf Free q -> work_list q = w :: l -> is_Some (st.2.1 !! w) ->
  exists x st1 q', st.2.1 !! w = Some x /\ call_work (work_func x) w (work_data x) (begun w st) = Ok tt st1 /\
    worker_round call_work o st = Ok tt (ended st1) /\ undisturbed o t (ended st1) /\ (ended st1).2.1 = st.2.1 /\
    (ended st1).1 !! o = Some q' /\ wq_wf Free q' /\ work_list q' = l.
Proof.
  intros U Hq [Hn Hc Ha] El Hw. unfold worker_round. run_step (run_worker_begun q w l st Hq El Hw).
  assert (undisturbed o t (begun w st)) as U1 by (destruct st; by eapply undisturbed_queues).
  destruct Hw as [x Hx].
  destruct (call_returns (work_func x) w (work_data x) (begun w st) U1) as (st2 & E2 & U2 & Eq & Ew).
  exists x, st2. pose proof E2 as E1. rewrite <- (run_worker_run w x (begun w st) Hx) in E1. run_step E1.
  rewrite El in Hn. apply NoDup_cons in Hn as [Hn1 Hn2].
  set (q1 := set_work_current (Some w) (set_work_list (filter (fun v => v ≠ w)) q)).
  assert (st2.1 !! o = Some q1) as Hq1 by (rewrite Eq; unfold begun; simpl; by rewrite lookup_alter_eq, lookup_fmap, Hq).
  run_step (run_worker_clean q1 st2 Hq1).
  assert (undisturbed o t (ended st2)) as U3 by (destruct st2; by eapply undisturbed_queues).
  run_step (run_completion_undisturbed o t _ U3). exists (set_work_current None q1).
  split_and!; [done|done|done|done|done|unfold ended; simpl; by rewrite lookup_alter_eq, Hq1|..].
  all: assert (work_list (set_work_current None q1) = l) as E3
    by (simpl; rewrite El, filter_cons_False by naive_solver; by apply filter_ne_notin).
  - split; [by rewrite E3|done|done].
  - done.
Qed.

Lemma run_worker_sleep (st : wq_state) :
  undisturbed o t st -> exists s', worker_sleep st = Ok tt (st.1, (st.2.1, (st.2.2.1, s'))) /\ kinv s' /\
    (exists th, k_threads s' !! t = Some th /\ state_of th = RT_THREAD_SUSPEND) /\ k_current s' ≠ Some t.
Proof.
  destruct st as [qs [ws [m s]]]. intros [[th [I Hc [Ht Hst] _ (u & uh & Hne & Hu & Hus)]] Hl _ _ _]. simpl in *.
  set (s1 := suspended t th s). assert (kinv s1) as I1 by by apply kinv_suspended.
  assert (k_threads s1 !! t = Some (set_th_stat (with_state RT_THREAD_SUSPEND (th_stat th)) th)) as Ht1
    by (unfold s1; rewrite suspended_threads; apply lookup_insert_eq).
  assert (ready s1 u uh) as Hu1 by (split; [|done]; unfold s1; by rewrite suspended_threads, lookup_insert_ne).
  exists (scheduled s1). split_and!.
  - unfold worker_sleep, on_kernel. do 3 apply run_on_snd. run_step (run_thread_self s t Hc).
    run_step (run_thread_suspend s t th I Ht Hst). by apply (run_schedule s1 u uh).
  - by apply kinv_scheduled.
  - rewrite scheduled_threads. eexists. split; [exact Ht1|apply state_suspend].
  - assert (k_lock_nest s1 = 0) as Hl1.
    { unfold s1, suspended. rewrite timer_stopped_lock. unfold dequeued, clear_group. by case_decide. }
    destruct (scheduled_current s1 u uh I1 Hu1 Hl1) as (v & vh & -> & [Hv Hvs] & _). intros [= ->].
    rewrite Ht1 in Hv. injection Hv as <-. pose proof (eq_trans (eq_sym (state_suspend th)) Hvs). done.
Qed.

Lemma run_worker_check {A} q (st : wq_state) (k : bool -> M wq_state A) :
  st.1 !! o = Some q -> (worker_check o ≫= k) st = k (bool_decide (work_list q = [])) st.
Proof.
  destruct st as [qs x]. intros Hq. apply bind_Ok. unfold worker_check. by run_step (run_get_obj qs x o q Hq).
Qed.

(** The works were executed and the thread sleeps. *)
Definition drained (ws : list nat) (st : wq_state) (r : res wq_state bool) : Prop :=
  exists st1 st', executed ws st st1 /\ worker_sleep st1 = Ok tt st' /\ r = Ok true st' /\
    (exists q', st'.1 !! o = Some q' /\ view q' = ([], None)) /\ kinv st'.2.2.2 /\
    (exists th, k_threads st'.2.2.2 !! t = Some th /\ state_of th = RT_THREAD_SUSPEND) /\ k_current st'.2.2.2 ≠ Some t.

Lemma entry_sleeps fuel q (st : wq_state) :
  undisturbed o t st -> st.1 !! o = Some q -> wq_wf Free q -> work_list q = [] -> drained [] st (_workqueue_thread_entry call_work fuel o st).
Proof.
  intros U Hq W El. destruct (run_worker_sleep st U) as (s' & E & Hs).
  exists st, (st.1, (st.2.1, (st.2.2.1, s'))). split; [constructor|]. split; [exact E|]. split; [|split; [|exact Hs]].
  - destruct fuel; cbn [_workqueue_thread_entry]; rewrite (run_worker_check q st), bool_decide_eq_true_2 by done; by run_step E.
  - exists q. split; [done|]. unfold view. by rewrite El, (ww_current _ _ W).
Qed.

(** C20: the loop of the work thread, left alone, with works whose functions return
    and leave the queue alone, calls [work_func] of every work of the list once and
    in order, with its data and while it is the current work, and then suspends the
    thread with nothing left to do: the state is the one that these calls and the
    suspension leave. *)
Theorem workqueue_drains fuel : forall q (st : wq_state),
  undisturbed o t st -> st.1 !! o = Some q -> wq_wf Free q -> (forall w, w ∈ work_list q -> is_Some (st.2.1 !! w)) ->
  (length (work_list q) <= fuel)%nat ->
  drained (work_list q) st (_workqueue_thread_entry call_work fuel o st).
Proof.
  induction fuel as [|fuel IH]; intros q st U Hq W Hw Hf; destruct (work_list q) as [|w l] eqn:El; simpl in Hf; try lia.
  1, 2: by apply (entry_sleeps _ q).
  destruct (run_worker_round q w l st U Hq W El (Hw w ltac:(left))) as (x & st1 & q1 & Hx & Ec & E1 & U1 & Ew & Hq1 & W1 & El1).
  destruct (IH q1 (ended st1) U1 Hq1 W1) as (st2 & st3 & Hex & Hsl & E2 & H2);
    [rewrite El1, Ew; intros v Hv; apply Hw; by right|rewrite El1; lia|].
  exists st2, st3. rewrite El1 in Hex. split; [by econstructor|]. split; [done|]. split; [|exact H2].
  cbn [_workqueue_thread_entry]. rewrite (run_worker_check q st _ Hq), El.
  rewrite (bool_decide_eq_false_2 (w :: l = [])) by done. by run_step E1.
Qed.
End drain.

(** ** The calls of the users *)

Section calls.
Context (qs : gmap nat rt_workqueue) (ws : gmap nat rt_work) (m : gmap nat rt_semaphore) (o w : nat) (q : rt_workqueue).
Context (Hq : qs !! o = Some q).

Definition with_work : gmap nat rt_workqueue :=
  <[o := set_work_list (fun l => l ++ [w]) (set_work_list (filter (fun v => v ≠ w)) q)]>
    (set_work_list (filter (fun v => v ≠ w)) <$> qs).

Lemma run_queue_work y :
  is_Some (ws !! w) -> queue_work o w (qs, (ws, y)) =
    if decide (work_current q = Some w) then Ok None (qs, (ws, y))
    else Ok (Some (bool_decide (work_current q = None))) (with_work, (ws, y)).
Proof.
  intros [x Hw]. unfold queue_work. run_step (run_get_obj qs (ws, y) o q Hq).
  case_decide as Hc; [by rewrite bool_decide_eq_true_2|]. rewrite bool_decide_eq_false_2 by done.
  unfold unlink_work, on_works. erewrite bind_Ok; [|by erewrite bind_Ok by (by apply run_on_snd, run_get_obj)]. cbn [fst snd].
  erewrite bind_Ok; [reflexivity|]. apply run_upd_obj. by rewrite lookup_fmap, Hq.
Qed.

(** The state in which the work thread has been woken. *)
Definition kicked (s : kstate) (t : nat) (th : rt_thread) : kstate :=
  scheduled (if decide (state_of th = RT_THREAD_SUSPEND) then resumed t th s else s).

Lemma run_kick qs' q' y s t th :
  qs' !! o = Some q' -> work_thread q' = Some t -> kinv s -> k_threads s !! t = Some th -> (exists u uh, ready s u uh) ->
  kick_worker o (qs', (y, (m, s))) = Ok tt (qs', (y, (m, kicked s t th))) /\ kinv (kicked s t th).
Proof.
  intros Hq' Et I Ht (u & uh & Hu). unfold kick_worker. run_step (run_get_obj qs' (y, (m, s)) o q' Hq').
  erewrite bind_Ok by (apply run_deref; exact Et). unfold on_kernel, kicked. case_decide as Hst.
  - split; [|by apply kinv_scheduled, kinv_resumed]. do 3 apply run_on_snd. run_step (run_thread_resume s t th I Ht Hst).
    eapply run_schedule; [by apply kinv_resumed|apply resumed_ready].
  - split; [|by apply kinv_scheduled]. do 3 apply run_on_snd. run_step (run_thread_resume_not_suspended s t th Ht Hst).
    by eapply run_schedule.
Qed.

(** [rt_workqueue_dowork]: a work that runs is refused; any other goes to the end
    of the list, from wherever it was, and when no work runs a sleeping work
    thread becomes ready. *)
Theorem rt_workqueue_dowork_correct s t th :
  kinv s -> work_thread q = Some t -> k_threads s !! t = Some th -> (exists u uh, ready s u uh) -> is_Some (ws !! w) ->
  exists r qs' s', rt_workqueue_dowork o w (qs, (ws, (m, s))) = Ok r (qs', (ws, (m, s'))) /\ kinv s' /\
    if decide (work_current q = Some w) then r = - RT_EBUSY /\ qs' = qs /\ s' = s
    else r = RT_EOK /\ view <$> qs' !! o = Some (filter (fun v => v ≠ w) (work_list q) ++ [w], work_current q) /\
      s' = if decide (work_current q = None) then kicked s t th else s.
Proof.
  intros I Et Ht Hu Hw. unfold rt_workqueue_dowork. pose proof (run_queue_work (m, s) Hw) as E. case_decide as Hc.
  - run_step E. by eexists _, _, _.
  - run_step E. set (q' := set_work_list (fun l => l ++ [w]) (set_work_list (filter (fun v => v ≠ w)) q)).
    assert (with_work !! o = Some q') as Hq' by apply lookup_insert_eq.
    assert (view <$> with_work !! o = Some (filter (fun v => v ≠ w) (work_list q) ++ [w], work_current q)) as Hv by by rewrite Hq'.
    case_decide as Hn; [rewrite bool_decide_eq_true_2 by done|rewrite bool_decide_eq_false_2 by done; by eexists _, _, _].
    destruct (run_kick with_work q' ws s t th Hq' Et I Ht Hu) as [E2 I2]. cbn [when]. run_step E2. by eexists _, _, _.
Qed.

(** C24: a thread that cancels the running work with [rt_workqueue_cancel_work_sync]
    sleeps; whatever happens while it waits, when the work thread has finished
    the work the caller is ready, its call returns, and the work does not run any
    more. *)
Theorem cancel_sync_waits s sem t th :
  work_current q = Some w -> m !! o = Some sem -> sem_value sem = 0 -> ipc_flag (sem_flag sem) -> blocking_ctx s t th ->
  exists s1, rt_workqueue_cancel_work_sync o w (qs, (ws, (m, s))) = Ok (Waiting t) (qs, (ws, (m, s1))) /\
    entered_wait (sem_head o) t th (sem_flag sem) RT_WAITING_FOREVER s s1 /\
    forall s2 u uh, kinv s2 -> t ∈ tl s2 (sem_head o) -> ready s2 u uh ->
    exists s3 th3, (worker_clean o;; _workqueue_work_completion o) (qs, (ws, (m, s2)))
        = Ok RT_EOK (<[o := set_work_current None q]> qs, (ws, (m, s3))) /\ kinv s3 /\ ready s3 t th3 /\
      rt_workqueue_cancel_work_sync_resume t (<[o := set_work_current None q]> qs, (ws, (m, s3)))
        = Ok (Return RT_EOK) (<[o := set_work_current None q]> qs, (ws, (m, s3))).
Proof.
  intros Hc Hs Hv Hf B.
  destruct (proj1 (wp_run _ _ _) (rt_sem_take_correct m s o sem Hs RT_WAITING_FOREVER t th B Hf ltac:(done))) as (r & [m1 s1] & E & H).
  rewrite decide_False in H by lia. rewrite decide_False in H by done. destruct H as (-> & Em & He). simpl in Em, He. subst m1.
  exists s1. split; [|split; [done|]].
  - unfold rt_workqueue_cancel_work_sync. run_step (run_get_obj qs (ws, (m, s)) o q Hq). rewrite bool_decide_eq_true_2 by done.
    unfold on_sem. by rewrite (bind_Ok _ _ _ _ _ (run_on_snd _ qs _ _ _ (run_on_snd _ ws _ _ _ E))).
  - intros s2 u uh I2 Hin Hu. destruct (inv_waiting _ I2 (sem_head o) t ltac:(done) Hin) as (th2 & Ht2 & _).
    set (qs' := <[o := set_work_current None q]> qs).
    destruct (run_work_completion qs' ws m o sem Hs s2 u uh Hv I2 Hu) as (s3 & E3 & W).
    pose proof (aw_ready _ _ _ _ W t th2 Hin Ht2) as Hr. eexists s3, _. split; [|split; [by apply W|split; [exact Hr|]]].
    + unfold worker_clean. by rewrite (bind_Ok _ _ _ _ _ (run_upd_obj qs (ws, (m, s2)) o (set_work_current None) q Hq)).
    + unfold rt_workqueue_cancel_work_sync_resume, on_sem.
      assert (exists r, rt_sem_take_resume t (m, s3) = Ok r (m, s3)) as [r Er].
      { unfold rt_sem_take_resume. rewrite (bind_Ok _ _ _ _ _ (run_on_snd _ m _ _ _ (run_get_thread s3 t _ (proj1 Hr)))).
        destruct (negb _); eauto. }
      by rewrite (bind_Ok _ _ _ _ _ (run_on_snd _ qs' _ _ _ (run_on_snd _ ws _ _ _ Er))).
Qed.
End calls.

(** ** Limits of the code *)

(** A queue with a work thread of priority [prio] and two works, in the kernel of
    [ThreadSpec], and the same after the thread has found the list empty. *)
Definition demo_wq (prio : Z) : wq_state :=
  run (rt_workqueue_create (Some 5%nat) (Some 9%nat) (Some 0x20008000) [119] 1024 prio;;
       rt_work_init 20 1 0;; rt_work_init 21 1 0) (∅, (∅, (∅, demo))).
Definition demo_wq_asleep : wq_state :=
  run (on_kernel (rt_thread_suspend 1;; rt_thread_suspend 2;; rt_schedule);;
       worker_check 5;; worker_sleep;;
       on_kernel (rt_thread_resume 1;; rt_schedule)) (demo_wq 15).

Definition list_of (st : wq_state) (o : nat) : option (list nat) := work_list <$> st.1 !! o.

(** A work that an interrupt hands in between the test of the list and the
    suspension is left in the list of a sleeping thread. *)
Theorem workqueue_lost_wakeup :
  let st := run (worker_check 5;; rt_workqueue_dowork 5 20;; worker_sleep) (demo_wq 5) in
  ret (worker_check 5) (demo_wq 5) = Some true /\ k_current (demo_wq 5).2.2.2 = Some 9%nat /\
  list_of st 5 = Some [20%nat] /\ has_state st.2.2.2 RT_THREAD_SUSPEND 9 = true /\ is_linkedb st.2.2.2 9 = false.
Proof. vm_compute. split_and!; reflexivity. Qed.

(** A work that is taken back before the woken thread has run leaves that thread
    with an empty list, whose head it takes for a work. *)
Theorem workqueue_cancel_faults :
  ret (rt_workqueue_dowork 5 20;; rt_workqueue_cancel_work 5 20) demo_wq_asleep = Some RT_EOK /\
  has_state (run (rt_workqueue_dowork 5 20;; rt_workqueue_cancel_work 5 20) demo_wq_asleep).2.2.2 RT_THREAD_READY 9 = true /\
  (rt_workqueue_dowork 5 20;; rt_workqueue_cancel_work 5 20;; worker_take 5) demo_wq_asleep = Fault.
Proof. vm_compute. split_and!; reflexivity. Qed.

(** The semaphore inside of a destroyed queue stays in the list of its class. *)
Theorem workqueue_destroy_leaves_semaphore :
  let st := run (rt_workqueue_destroy 5) (demo_wq 15) in
  ret (rt_workqueue_destroy 5) (demo_wq 15) = Some RT_EOK /\
  st.1 !! 5%nat = None /\ st.2.2.1 !! 5%nat = None /\ sem_ref 5 ∈ objs st.2.2.2 RT_Object_Class_Semaphore.
Proof. vm_compute. split_and!; try reflexivity. left. Qed.

(** ** Witnesses *)

Definition demo_queue (l : list nat) (c : option nat) (t : nat) : gmap nat rt_workqueue := {[1%nat := mk_wq l c (Some t)]}.
Definition demo_works : gmap nat rt_work := {[20%nat := mk_work 1 0; 21%nat := mk_work 1 0]}.
Definition demo_qsem : gmap nat rt_semaphore := {[1%nat := mk_sem 0 RT_IPC_FLAG_FIFO]}.

Lemma work_completion_correct_witness :
  exists m' s', _workqueue_work_completion 1 (demo_queue [] None 3, (demo_works, (demo_qsem, demo_waits (sem_head 1) RT_IPC_FLAG_FIFO (-1))))
    = Ok RT_EOK (demo_queue [] None 3, (demo_works, (m', s'))) /\ kinv s'.
Proof.
  destruct (work_completion_correct (demo_queue [] None 3) demo_works demo_qsem 1 (mk_sem 0 RT_IPC_FLAG_FIFO) eq_refl
    (demo_waits (sem_head 1) RT_IPC_FLAG_FIFO (-1)) 4 (thread_at (demo_waits (sem_head 1) RT_IPC_FLAG_FIFO (-1)) 4)) as (m' & s' & E & I & _).
  - simpl. lia.
  - apply kinvb_kinv. vm_compute. reflexivity.
  - split; vm_compute; reflexivity.
  - exists m', s'. split; [exact E|exact I].
Defined.

Definition demo_wq0 : wq_state := (demo_queue [] None 3, (demo_works, (demo_qsem, demo))).
Definition demo_wq1 : wq_state := run (queue_work 1 20) demo_wq0.
Definition demo_wq2 : wq_state := run (worker_take 1) demo_wq1.

Lemma workqueue_refines_witness :
  exists q', demo_wq2.1 !! 1%nat = Some q' /\ wq_wf (Running 20) q' /\ spec_run ([], None) [Queued 20; Started 20] = Some (view q').
Proof.
  destruct (workqueue_refines 1 Free demo_wq0 [Queued 20; Started 20] (Running 20) demo_wq2 (mk_wq [] None (Some 3%nat)))
    as (q' & H1 & H2 & H3 & _).
  - eapply wq_steps_cons; [|eapply wq_steps_cons; [|apply wq_steps_nil]].
    + apply (wq_queue 1 Free 20 demo_wq0 true demo_wq1), ret_Ok. vm_compute. reflexivity.
    + apply wq_start, ret_Ok. vm_compute. reflexivity.
  - reflexivity.
  - split; [constructor|reflexivity|discriminate].
  - exists q'. split; [exact H1|]. split; [exact H2|exact H3].
Defined.

Definition demo_wq_busy : wq_state := (demo_queue [20; 21]%nat None 1, (demo_works, (demo_qsem, demo))).

Lemma demo_undisturbed : undisturbed 1 1 demo_wq_busy.
Proof.
  split; try (vm_compute; reflexivity).
  - exists (thread_at demo 1). exact demo_ctx.
  - exists (mk_sem 0 RT_IPC_FLAG_FIFO). split; reflexivity.
Qed.

(** A function that leaves a mark: semaphore [100 + w] with the data as value. *)
Definition demo_func (f w : nat) (d : Z) : M wq_state unit := on_sem (put_obj (100 + w)%nat (mk_sem d RT_IPC_FLAG_FIFO)).

Lemma workqueue_drains_witness :
  drained demo_func 1 1 [20; 21]%nat demo_wq_busy (_workqueue_thread_entry demo_func 2 1 demo_wq_busy).
Proof.
  apply (workqueue_drains demo_func 1 1) with (q := mk_wq [20; 21]%nat None (Some 1%nat)).
  - intros f w d [qs [ws [m s]]] [Hx Hl Ht (sem & Hs & Hv) Hn]. eexists. split; [reflexivity|].
    split; [|split; reflexivity]. split; try assumption. exists sem. split; [|exact Hv]. simpl in *.
    rewrite lookup_insert_ne by discriminate. exact Hs.
  - exact demo_undisturbed.
  - reflexivity.
  - split; [apply (bool_decide_unpack (NoDup [20; 21]%nat)); vm_compute; exact I|reflexivity|discriminate].
  - intros w [->|[->|Hn]%elem_of_cons]%elem_of_cons; [eexists; reflexivity..|set_solver].
  - simpl. lia.
Defined.

Lemma cancel_sync_waits_witness :
  exists s1, rt_workqueue_cancel_work_sync 1 20 (demo_queue [] (Some 20%nat) 3, (demo_works, (demo_qsem, demo)))
    = Ok (Waiting 1%nat) (demo_queue [] (Some 20%nat) 3, (demo_works, (demo_qsem, s1))).
Proof.
  destruct (cancel_sync_waits (demo_queue [] (Some 20%nat) 3) demo_works demo_qsem 1 20 (mk_wq [] (Some 20%nat) (Some 3%nat)) eq_refl
    demo (mk_sem 0 RT_IPC_FLAG_FIFO) 1 (thread_at demo 1)) as (s1 & E & _).
  - reflexivity.
  - reflexivity.
  - reflexivity.
  - left. reflexivity.
  - exact demo_ctx.
  - exists s1. exact E.
Defined.
