(* ===== verification/DataQueue.v ===== *)
(** * Data queues: components/drivers/src/dataqueue.c

    A ring of (pointer, size) pairs between device drivers and threads.  The
    indices count pushes and pops in 16 bits and are reduced modulo the size at
    each access.  The loops are split at [rt_schedule], as those of mailboxes. *)

From S2P Require Import Prelude Kernel Object Timer Scheduler Thread KInv ThreadSpec Ipc Semaphore Mailbox.

Definition RT_DATAQUEUE_EVENT_POP : Z := 1.
Definition RT_DATAQUEUE_EVENT_PUSH : Z := 2.
Definition RT_DATAQUEUE_EVENT_LWM : Z := 3.

Record rt_data_item := mk_item { data_ptr : Z; data_size : Z }.
#[global] Instance data_item_inhabited : Inhabited rt_data_item := populate (mk_item 0 0).

(** [struct rt_data_queue] without [waiting_lwm], which no code uses;
    [dq_notify] is [evt_notify != RT_NULL]. *)
Record rt_data_queue := mk_dq {
  dq_size : Z;
  dq_lwm : Z;
  dq_get_index : Z;
  dq_put_index : Z;
  dq_queue : list rt_data_item;
  dq_notify : bool
}.

Definition dq_state : Type := gmap nat rt_data_queue * kstate.

(** The calling thread while it waits for room or data, and the item of a pop
    that has made a waiting pusher ready and has not yet been scheduled again. *)
Inductive dq_wait := WaitIn (t : nat) | Taken (x : rt_data_item).

Section data_queue.
(** [queue->evt_notify(queue, event)], code of the driver. *)
Context (evt_notify : nat -> Z -> M dq_state unit).

(** [queue] is the result of [rt_malloc]. *)
Definition rt_data_queue_init (o : nat) (size lwm : Z) (notify : bool) (queue : option (list rt_data_item))
    : M dq_state Z :=
  put_obj o (mk_dq (u16 size) (u16 lwm) 0 0 (default [] queue) notify);;
  on_snd (modify (set_k_tlists (<[HPush o := []]>)));;
  on_snd (modify (set_k_tlists (<[HPop o := []]>)));;
  mret (if queue is Some _ then RT_EOK else - RT_ENOMEM).

(** The tests of the loops, on [int] after the promotion of the indices. *)
Definition dq_full (q : rt_data_queue) : bool := dq_put_index q - dq_get_index q =? dq_size q.
Definition dq_empty (q : rt_data_queue) : bool := dq_get_index q =? dq_put_index q.

(** [queue->queue[i % queue->size]]; a size of 0 never gets here. *)
Definition dq_slot (q : rt_data_queue) (i : Z) : nat := Z.to_nat (i mod dq_size q).

Definition stored (x : rt_data_item) (q : rt_data_queue) : rt_data_queue :=
  mk_dq (dq_size q) (dq_lwm q) (dq_get_index q) (u16 (dq_put_index q + 1))
    (<[dq_slot q (dq_put_index q) := x]> (dq_queue q)) (dq_notify q).
Definition popped (q : rt_data_queue) : rt_data_queue :=
  mk_dq (dq_size q) (dq_lwm q) (u16 (dq_get_index q + 1)) (dq_put_index q) (dq_queue q) (dq_notify q).

(** From the writes to the slot to the end of [rt_data_queue_push]. *)
Definition dq_store (o : nat) (x : rt_data_item) : M dq_state Z :=
  q ← get_obj o;
  rt_assert (dq_slot q (dq_put_index q) <? length (dq_queue q))%nat;;
  put_obj o (stored x q);;
  st ← get;
  if negb (bool_decide (tl st.2 (HPop o) = [])) then
    on_snd (rt_ipc_list_resume (HPop o);; rt_schedule);; mret RT_EOK
  else
    when (dq_notify q) (evt_notify o RT_DATAQUEUE_EVENT_PUSH);; mret RT_EOK.

(** The [while] loop of [rt_data_queue_push], up to its next [rt_schedule]. *)
Definition dq_push_loop (o : nat) (c : option nat) (x : rt_data_item) (timeout : Z) : M dq_state (call nat Z) :=
  q ← get_obj o;
  if dq_full q then
    if timeout =? 0 then mret (Return (- RT_ETIMEOUT))
    else
      on_snd RT_DEBUG_NOT_IN_INTERRUPT;;
      t ← deref (fun _ => c);
      on_snd (upd_thread t (set_th_error RT_EOK));;
      on_snd (wait_on (HPush o) t RT_IPC_FLAG_FIFO timeout);;
      mret (Waiting t)
  else
    r ← dq_store o x; mret (Return r).

Definition rt_data_queue_push (o : nat) (x : rt_data_item) (timeout : Z) : M dq_state (call nat Z) :=
  c ← on_snd (gets k_current);
  dq_push_loop o c x timeout.

(** From the return of [rt_schedule] on; the timeout is used again in full. *)
Definition rt_data_queue_push_resume (o : nat) (x : rt_data_item) (timeout : Z) (t : nat)
    : M dq_state (call nat Z) :=
  th ← on_snd (get_thread t);
  if negb (th_error th =? RT_EOK) then mret (Return (th_error th))
  else dq_push_loop o (Some t) x timeout.

(** From the reads of the slot on; [Taken] when a waiting pusher was woken,
    with [rt_schedule] before the notification. *)
Definition dq_take (o : nat) : M dq_state (call dq_wait (Z * option rt_data_item)) :=
  q ← get_obj o;
  x ← deref (fun _ => dq_queue q !! dq_slot q (dq_get_index q));
  let q := popped q in
  put_obj o q;;
  if dq_put_index q - dq_get_index q <=? dq_lwm q then
    st ← get;
    if negb (bool_decide (tl st.2 (HPush o) = [])) then
      on_snd (rt_ipc_list_resume (HPush o);; rt_schedule);; mret (Waiting (Taken x))
    else
      when (dq_notify q) (evt_notify o RT_DATAQUEUE_EVENT_LWM);; mret (Return (RT_EOK, Some x))
  else
    when (dq_notify q) (evt_notify o RT_DATAQUEUE_EVENT_POP);; mret (Return (RT_EOK, Some x)).

Definition dq_pop_loop (o : nat) (c : option nat) (timeout : Z)
    : M dq_state (call dq_wait (Z * option rt_data_item)) :=
  q ← get_obj o;
  if dq_empty q then
    if timeout =? 0 then mret (Return (- RT_ETIMEOUT, None))
    else
      on_snd RT_DEBUG_NOT_IN_INTERRUPT;;
      t ← deref (fun _ => c);
      on_snd (upd_thread t (set_th_error RT_EOK));;
      on_snd (wait_on (HPop o) t RT_IPC_FLAG_FIFO timeout);;
      mret (Waiting (WaitIn t))
  else dq_take o.

Definition rt_data_queue_pop (o : nat) (timeout : Z) : M dq_state (call dq_wait (Z * option rt_data_item)) :=
  c ← on_snd (gets k_current);
  dq_pop_loop o c timeout.

Definition rt_data_queue_pop_resume (o : nat) (timeout : Z) (w : dq_wait)
    : M dq_state (call dq_wait (Z * option rt_data_item)) :=
  match w with
  | WaitIn t =>
      th ← on_snd (get_thread t);
      if negb (th_error th =? RT_EOK) then mret (Return (th_error th, None))
      else dq_pop_loop o (Some t) timeout
  | Taken x =>
      q ← get_obj o;
      when (dq_notify q) (evt_notify o RT_DATAQUEUE_EVENT_LWM);;
      mret (Return (RT_EOK, Some x))
  end.

Definition rt_data_queue_peak (o : nat) : M dq_state (Z * option rt_data_item) :=
  q ← get_obj o;
  if dq_empty q then mret (- RT_EEMPTY, None)
  else
    x ← deref (fun _ => dq_queue q !! dq_slot q (dq_get_index q));
    mret (RT_EOK, Some x).

(** The two loops are the loop of [rt_ipc_list_resume_all]; the indices stay. *)
Definition rt_data_queue_reset (o : nat) : M dq_state unit :=
  on_snd (
    rt_enter_critical;;
    rt_ipc_list_resume_all (HPop o);;
    rt_ipc_list_resume_all (HPush o);;
    rt_exit_critical;;
    rt_schedule).

(** ** The ring as a queue *)

(** While the indices have not wrapped. *)
Record dq_wf (q : rt_data_queue) : Prop := {
  dw_size : 0 < dq_size q < 65536;
  dw_pool : Z.of_nat (length (dq_queue q)) = dq_size q;
  dw_get : 0 <= dq_get_index q <= dq_put_index q;
  dw_put : dq_put_index q < 65536;
  dw_count : dq_put_index q - dq_get_index q <= dq_size q
}.

(** The items in order, oldest first. *)
Definition dq_contents (q : rt_data_queue) : list rt_data_item :=
  ring_contents (dq_queue q) (dq_get_index q) (Z.to_nat (dq_put_index q - dq_get_index q)).

Lemma dq_slot_ring q i : dq_wf q -> dq_slot q i = ring_slot (dq_queue q) i.
Proof. intros W. unfold dq_slot, ring_slot. by rewrite (dw_pool _ W). Qed.

Lemma dq_slot_range q i : dq_wf q -> (dq_slot q i < length (dq_queue q))%nat.
Proof.
  intros W. rewrite dq_slot_ring by done. apply ring_slot_range. pose proof (dw_size _ W). pose proof (dw_pool _ W). lia.
Qed.

Lemma dq_full_spec q : dq_full q = true <-> dq_put_index q - dq_get_index q = dq_size q.
Proof. apply Z.eqb_eq. Qed.

Lemma dq_empty_contents q : dq_wf q -> dq_empty q = true <-> dq_contents q = [].
Proof.
  intros W. unfold dq_empty. rewrite Z.eqb_eq, <- length_zero_iff_nil. unfold dq_contents.
  rewrite ring_contents_length. pose proof (dw_get _ W). lia.
Qed.

(** A push appends, as long as the put index does not wrap. *)
Lemma stored_contents q x :
  dq_wf q -> dq_full q = false -> dq_put_index q < 65535 ->
  dq_wf (stored x q) /\ dq_contents (stored x q) = dq_contents q ++ [x].
Proof.
  intros W Hf Hp. pose proof W as [Hs Hl Hg _ Hc]. apply Z.eqb_neq in Hf. split.
  - split; simpl; rewrite ?length_insert, ?u16_small; lia.
  - unfold dq_contents. simpl. rewrite dq_slot_ring, u16_small by (done || lia).
    set (n := Z.to_nat (dq_put_index q - dq_get_index q)).
    replace (Z.to_nat (dq_put_index q + 1 - dq_get_index q)) with (S n) by lia.
    rewrite <- ring_contents_push by lia. do 3 f_equal. lia.
Qed.

(** A pop takes the oldest item off. *)
Lemma popped_contents q :
  dq_wf q -> dq_empty q = false ->
  exists x, dq_queue q !! dq_slot q (dq_get_index q) = Some x /\
    dq_wf (popped q) /\ dq_contents q = x :: dq_contents (popped q).
Proof.
  intros W He. pose proof W as [Hs Hl Hg Hp Hc]. apply Z.eqb_neq in He.
  destruct (lookup_lt_is_Some_2 _ _ (dq_slot_range q (dq_get_index q) W)) as [x Hx].
  exists x. split; [done|]. split.
  - split; simpl; rewrite ?u16_small; lia.
  - unfold dq_contents. simpl. rewrite u16_small by lia.
    replace (Z.to_nat (dq_put_index q - dq_get_index q)) with (S (Z.to_nat (dq_put_index q - (dq_get_index q + 1)))) by lia.
    rewrite ring_contents_pop, <- dq_slot_ring by done. f_equal. by apply list_lookup_total_correct.
Qed.

(** ** First in, first out, over any interleaving

    Any calls of any threads at any phase, and arbitrary kernel steps in
    between. *)

Inductive dq_event := Pushed (x : rt_data_item) | Popped (x : rt_data_item) | Quiet.

Definition push_event (x : rt_data_item) (r : call nat Z) : dq_event :=
  match r with Return e => if e =? RT_EOK then Pushed x else Quiet | Waiting _ => Quiet end.
Definition pop_event (r : call dq_wait (Z * option rt_data_item)) : dq_event :=
  match r with Return (_, Some x) | Waiting (Taken x) => Popped x | _ => Quiet end.

Inductive dq_step (o : nat) : dq_state -> dq_event -> dq_state -> Prop :=
| dq_step_push x timeout st r st' :
    rt_data_queue_push o x timeout st = Ok r st' -> dq_step o st (push_event x r) st'
| dq_step_push_resume x timeout t st r st' :
    rt_data_queue_push_resume o x timeout t st = Ok r st' -> dq_step o st (push_event x r) st'
| dq_step_pop timeout st r st' :
    rt_data_queue_pop o timeout st = Ok r st' -> dq_step o st (pop_event r) st'
| dq_step_pop_resume timeout t st r st' :
    rt_data_queue_pop_resume o timeout (WaitIn t) st = Ok r st' -> dq_step o st (pop_event r) st'
| dq_step_pop_notify timeout x st r st' :
    rt_data_queue_pop_resume o timeout (Taken x) st = Ok r st' -> dq_step o st Quiet st'
| dq_step_peak st r st' : rt_data_queue_peak o st = Ok r st' -> dq_step o st Quiet st'
| dq_step_reset st r st' : rt_data_queue_reset o st = Ok r st' -> dq_step o st Quiet st'
| dq_step_kernel m s s' : dq_step o (m, s) Quiet (m, s').

Inductive dq_steps (o : nat) : dq_state -> list dq_event -> dq_state -> Prop :=
| dq_steps_nil st : dq_steps o st [] st
| dq_steps_snoc st st' st'' tr e :
    dq_steps o st tr st' -> dq_step o st' e st'' -> dq_steps o st (tr ++ [e]) st''.

Definition pushed_of (e : dq_event) : list rt_data_item := match e with Pushed x => [x] | _ => [] end.
Definition popped_of (e : dq_event) : list rt_data_item := match e with Popped x => [x] | _ => [] end.
Definition all_pushed (tr : list dq_event) : list rt_data_item := tr ≫= pushed_of.
Definition all_popped (tr : list dq_event) : list rt_data_item := tr ≫= popped_of.

Lemma all_pushed_snoc tr e : all_pushed (tr ++ [e]) = all_pushed tr ++ pushed_of e.
Proof. unfold all_pushed. rewrite bind_app. simpl. by rewrite app_nil_r. Qed.
Lemma all_popped_snoc tr e : all_popped (tr ++ [e]) = all_popped tr ++ popped_of e.
Proof. unfold all_popped. rewrite bind_app. simpl. by rewrite app_nil_r. Qed.

Section fifo.
(** The callback does not change the store of the queues. *)
Hypothesis notify_keeps : forall o e st a st', evt_notify o e st = Ok a st' -> st'.1 = st.1.

(** The queue after one step, and its put index. *)
Definition dq_queue_step (e : dq_event) (q q' : rt_data_queue) : Prop :=
  dq_wf q' /\ dq_contents q ++ pushed_of e = popped_of e ++ dq_contents q' /\
  dq_put_index q' = dq_put_index q + Z.of_nat (length (pushed_of e)).

Definition fits (e : dq_event) (q : rt_data_queue) : Prop :=
  dq_put_index q + Z.of_nat (length (pushed_of e)) < 65536.

Lemma dq_quiet q : dq_wf q -> dq_queue_step Quiet q q.
Proof. intros W. split; [done|]. rewrite app_nil_r. split; [done|]. simpl. lia. Qed.

Lemma when_notify_keeps b o e st a st' : when b (evt_notify o e) st = Ok a st' -> st'.1 = st.1.
Proof. destruct b; simpl; intros H; [by eapply notify_keeps|by injection H as _ <-]. Qed.

Lemma dq_wait_inv {A} (o : nat -> A) h t timeout (st : dq_state) r (st' : dq_state) :
  (on_snd RT_DEBUG_NOT_IN_INTERRUPT;;
   t' ← deref (fun _ => t);
   on_snd (upd_thread t' (set_th_error RT_EOK));;
   on_snd (wait_on h t' RT_IPC_FLAG_FIFO timeout);; mret (o t') : M dq_state A) st = Ok r st' ->
  st'.1 = st.1 /\ exists t', r = o t'.
Proof.
  intros H. run_inv H. apply on_snd_inv in E as [E1 _]. run_inv H. unfold deref in E.
  destruct t; [|done]. injection E as <- <-.
  run_inv H. apply on_snd_inv in E as [E2 _]. run_inv H. apply on_snd_inv in E as [E3 _].
  injection H as <- <-. rewrite E3, E2, E1. eauto.
Qed.

Lemma dq_store_inv o x st r st' q :
  dq_store o x st = Ok r st' -> st.1 !! o = Some q -> dq_wf q ->
  r = RT_EOK /\ st'.1 !! o = Some (stored x q).
Proof.
  intros H Hm W. unfold dq_store in H. run_inv H. apply get_obj_inv in E as [-> E]. rewrite Hm in E. injection E as <-.
  run_inv H. rewrite (proj2 (Nat.ltb_lt _ _) (dq_slot_range _ _ W)) in E. injection E as _ <-.
  run_inv H. injection E as _ <-. run_inv H. injection E as <- <-. destruct (negb _); run_inv H.
  - apply on_snd_inv in E as [E _]. injection H as <- <-. split; [done|]. rewrite E. apply lookup_insert_eq.
  - apply when_notify_keeps in E. injection H as <- <-. split; [done|]. rewrite E. apply lookup_insert_eq.
Qed.

Lemma dq_take_inv o st r st' q :
  dq_take o st = Ok r st' -> st.1 !! o = Some q ->
  exists x, dq_queue q !! dq_slot q (dq_get_index q) = Some x /\ pop_event r = Popped x /\
    st'.1 !! o = Some (popped q).
Proof.
  intros H Hm. unfold dq_take in H. run_inv H. apply get_obj_inv in E as [-> E]. rewrite Hm in E. injection E as <-.
  run_inv H. unfold deref in E. destruct (dq_queue q !! _) as [x|] eqn:Hx; [|done]. injection E as <- <-.
  exists x. split; [done|]. run_inv H. injection E as _ <-. destruct (_ <=? _).
  - run_inv H. injection E as <- <-. destruct (negb _); run_inv H; injection H as <- <-; (split; [done|]);
      [apply on_snd_inv in E as [E _]|apply when_notify_keeps in E]; rewrite E; apply lookup_insert_eq.
  - run_inv H. apply when_notify_keeps in E. injection H as <- <-. split; [done|]. rewrite E. apply lookup_insert_eq.
Qed.

Lemma dq_push_loop_inv o c x timeout st r st' q :
  dq_push_loop o c x timeout st = Ok r st' -> st.1 !! o = Some q -> dq_wf q -> fits (push_event x r) q ->
  exists q', st'.1 !! o = Some q' /\ dq_queue_step (push_event x r) q q'.
Proof.
  intros H Hm W Hfit. unfold dq_push_loop in H. run_inv H. apply get_obj_inv in E as [-> E]. rewrite Hm in E.
  injection E as <-. destruct (dq_full q) eqn:Hf.
  - exists q. destruct (timeout =? 0); [injection H as <- <-|apply dq_wait_inv in H as [-> (t & ->)]];
      split; (done || by apply dq_quiet).
  - run_inv H. injection H as <- <-. destruct (dq_store_inv _ _ _ _ _ _ E Hm W) as [-> Hl].
    unfold fits in Hfit. simpl in Hfit. destruct (stored_contents q x W Hf ltac:(lia)) as [W' Hc].
    exists (stored x q). split; [done|]. split; [done|]. split; [done|]. simpl. rewrite u16_small; [done|].
    pose proof (dw_get _ W). lia.
Qed.

Lemma dq_pop_loop_inv o c timeout st r st' q :
  dq_pop_loop o c timeout st = Ok r st' -> st.1 !! o = Some q -> dq_wf q ->
  exists q', st'.1 !! o = Some q' /\ dq_queue_step (pop_event r) q q'.
Proof.
  intros H Hm W. unfold dq_pop_loop in H. run_inv H. apply get_obj_inv in E as [-> E]. rewrite Hm in E.
  injection E as <-. destruct (dq_empty q) eqn:He.
  - exists q. destruct (timeout =? 0); [injection H as <- <-|apply dq_wait_inv in H as [-> (t & ->)]];
      split; (done || by apply dq_quiet).
  - destruct (dq_take_inv _ _ _ _ _ H Hm) as (x & Hx & Hev & Hl).
    destruct (popped_contents q W He) as (x' & Hx' & W' & Hc). assert (x' = x) as -> by congruence.
    exists (popped q). split; [done|]. rewrite Hev. split; [done|]. simpl. rewrite app_nil_r. split; [done|]. lia.
Qed.

Lemma dq_step_queue o st e st' q :
  dq_step o st e st' -> st.1 !! o = Some q -> dq_wf q -> fits e q ->
  exists q', st'.1 !! o = Some q' /\ dq_queue_step e q q'.
Proof.
  intros Hst Hm W Hfit. assert (st'.1 = st.1 -> e = Quiet -> exists q', st'.1 !! o = Some q' /\ dq_queue_step e q q') as Hq.
  { intros -> ->. exists q. split; [done|]. by apply dq_quiet. }
  destruct Hst as [x timeout st r st' H|x timeout t st r st' H|timeout st r st' H|timeout t st r st' H
    |timeout x st r st' H|st r st' H|st r st' H|m s s'].
  - unfold rt_data_queue_push in H. run_inv H. apply on_snd_inv in E as [E _]. rewrite <- E in Hm.
    by eapply dq_push_loop_inv.
  - unfold rt_data_queue_push_resume in H. run_inv H. apply on_snd_inv in E as [E _].
    destruct (Z.eqb_spec (th_error a) RT_EOK) as [|Hne]; simpl in H.
    + rewrite <- E in Hm. by eapply dq_push_loop_inv.
    + injection H as <- <-. apply Hq; [done|]. simpl. by rewrite (proj2 (Z.eqb_neq _ _) Hne).
  - unfold rt_data_queue_pop in H. run_inv H. apply on_snd_inv in E as [E _]. rewrite <- E in Hm.
    by eapply dq_pop_loop_inv.
  - unfold rt_data_queue_pop_resume in H. run_inv H. apply on_snd_inv in E as [E _]. destruct (negb _) in H.
    + injection H as <- <-. by apply Hq.
    + rewrite <- E in Hm. by eapply dq_pop_loop_inv.
  - unfold rt_data_queue_pop_resume in H. run_inv H. apply get_obj_inv in E as [-> _].
    run_inv H. apply when_notify_keeps in E. injection H as _ <-. by apply Hq.
  - unfold rt_data_queue_peak in H. run_inv H. apply get_obj_inv in E as [-> _]. destruct (dq_empty a).
    + injection H as _ <-. by apply Hq.
    + run_inv H. unfold deref in E. destruct (_ !! _); [|done]. injection E as _ <-. injection H as _ <-. by apply Hq.
  - unfold rt_data_queue_reset in H. apply on_snd_inv in H as [H _]. by apply Hq.
  - by apply Hq.
Qed.

(** C9: as long as fewer than 65536 items have ever been pushed, whatever pushes,
    pops, peeks, resets, timeouts and callbacks are interleaved, the items
    popped so far followed by those in the queue are the initial ones followed
    by those pushed: none is lost, duplicated or overtaken. *)
Theorem data_queue_fifo o st0 tr st q0 :
  st0.1 !! o = Some q0 -> dq_wf q0 -> dq_steps o st0 tr st ->
  dq_put_index q0 + Z.of_nat (length (all_pushed tr)) < 65536 ->
  exists q, st.1 !! o = Some q /\ dq_wf q /\
    dq_contents q0 ++ all_pushed tr = all_popped tr ++ dq_contents q.
Proof.
  intros Hm W Hst Hlen.
  cut (exists q, st.1 !! o = Some q /\ dq_wf q /\ dq_contents q0 ++ all_pushed tr = all_popped tr ++ dq_contents q /\
         dq_put_index q = dq_put_index q0 + Z.of_nat (length (all_pushed tr))).
  { intros (q & H1 & H2 & H3 & _). by exists q. }
  induction Hst as [st|st st' st'' tr e Hs IH He].
  - exists q0. rewrite app_nil_r. split_and!; try done. simpl. lia.
  - rewrite all_pushed_snoc, all_popped_snoc, length_app in *. destruct IH as (q & Hl & W1 & Hq & Hp); [done|lia|].
    destruct (dq_step_queue _ _ _ _ _ He Hl W1) as (q' & Hl' & W' & Hq' & Hp'); [unfold fits; lia|].
    exists q'. split_and!; [done|done| |lia]. rewrite app_assoc, Hq, <- !app_assoc. f_equal. exact Hq'.
Qed.
End fifo.

(** ** Each call, on every branch *)

Section calls.
(** The callback returns and keeps the kernel invariant. *)
Hypothesis notify_ok : forall o e m s, kinv s -> exists s', evt_notify o e (m, s) = Ok tt (m, s') /\ kinv s'.
Context (m : gmap nat rt_data_queue) (s : kstate) (o : nat) (q : rt_data_queue).
Context (Hm : m !! o = Some q) (W : dq_wf q) (I : kinv s).

Lemma run_when_notify b m' s0 e :
  kinv s0 -> exists s', when b (evt_notify o e) (m', s0) = Ok tt (m', s') /\ kinv s' /\ (b = false -> s' = s0).
Proof.
  intros I0. destruct b; [|by exists s0]. destruct (notify_ok o e m' s0 I0) as (s' & Hr & I'). exists s'. by split.
Qed.

(** Either the first thread waiting in [h] was woken or the callback, if there
    is one, ran. *)
Definition woke_or_notified (h : tlist_head) (s' : kstate) : Prop :=
  kinv s' /\ (tl s h ≠ [] -> woke_one h s s') /\ (tl s h = [] -> dq_notify q = false -> s' = s).

Lemma run_dq_store x :
  exists s', dq_store o x (m, s) = Ok RT_EOK (<[o := stored x q]> m, s') /\ woke_or_notified (HPop o) s'.
Proof.
  unfold dq_store. run_step (run_get_obj m s o q Hm).
  rewrite (proj2 (Nat.ltb_lt _ _) (dq_slot_range _ _ W)). erewrite bind_Ok by reflexivity.
  unfold put_obj at 1. erewrite bind_Ok by reflexivity. unfold get at 1. erewrite bind_Ok by reflexivity. cbn [fst snd].
  destruct (bool_decide_reflect (tl s (HPop o) = [])) as [E|E]; simpl.
  - destruct (run_when_notify (dq_notify q) (<[o := stored x q]> m) s RT_DATAQUEUE_EVENT_PUSH I) as (s' & Hr & I' & Hs).
    run_step Hr. exists s'. split; [done|]. by split_and!.
  - destruct (run_wake_one_of (<[o := stored x q]> m) s (HPop o) I ltac:(done)) as (s' & Hr & Hw).
    rewrite bool_decide_eq_false_2 in Hr by done. run_step Hr. exists s'. split; [done|].
    split_and!; [by eapply woke_one_kinv|done|done].
Qed.

(** The part of the loops that puts the caller to sleep. *)
Lemma run_dq_wait {A} (k : nat -> A) h t th timeout :
  blocking_ctx s t th -> waiting_head h -> timeout < RT_TICK_MAX / 2 ->
  exists s', (on_snd RT_DEBUG_NOT_IN_INTERRUPT;;
     t' ← deref (fun _ => k_current s);
     on_snd (upd_thread t' (set_th_error RT_EOK));;
     on_snd (wait_on h t' RT_IPC_FLAG_FIFO timeout);; mret (k t') : M dq_state A) (m, s) = Ok (k t) (m, s') /\
    entered_wait h t (set_th_error RT_EOK th) RT_IPC_FLAG_FIFO timeout
      (set_k_threads (<[t := set_th_error RT_EOK th]>) s) s'.
Proof.
  intros B Hh Htime. pose proof (proj1 (bc_ready _ _ _ B)) as Ht.
  erewrite bind_Ok by (apply run_on_snd; unfold RT_DEBUG_NOT_IN_INTERRUPT, gets, mbind, M_bind;
    rewrite (bc_thread _ _ _ B); reflexivity).
  unfold deref at 1. rewrite (bc_current _ _ _ B). erewrite bind_Ok by reflexivity.
  run_step (run_on_snd _ m _ _ _ (run_upd_thread s t (set_th_error RT_EOK) th Ht)).
  pose proof (blocking_ctx_set_error _ _ _ RT_EOK B) as B0.
  destruct (run_wait_entered _ h t _ RT_IPC_FLAG_FIFO timeout B0 eq_refl Hh ltac:(by left) Htime) as (s' & Hr & Hw).
  run_step (run_on_snd _ m _ _ _ Hr). by exists s'.
Qed.

(** [rt_data_queue_push]: with room the item is appended and either the first
    thread waiting for data becomes ready or the callback runs; a full queue
    refuses with [-RT_ETIMEOUT] when there is no waiting time, changing
    nothing, and otherwise puts the caller to sleep. *)
Theorem rt_data_queue_push_correct x timeout t th :
  dq_put_index q < 65535 ->
  (dq_full q = true -> timeout ≠ 0 -> blocking_ctx s t th /\ timeout < RT_TICK_MAX / 2) ->
  exists r st', rt_data_queue_push o x timeout (m, s) = Ok r st' /\
    if dq_full q then
      if decide (timeout = 0) then r = Return (- RT_ETIMEOUT) /\ st' = (m, s)
      else r = Waiting t /\ st'.1 = m /\
        entered_wait (HPush o) t (set_th_error RT_EOK th) RT_IPC_FLAG_FIFO timeout
          (set_k_threads (<[t := set_th_error RT_EOK th]>) s) st'.2
    else r = Return RT_EOK /\ woke_or_notified (HPop o) st'.2 /\
      exists q', st'.1 = <[o := q']> m /\ dq_wf q' /\ dq_contents q' = dq_contents q ++ [x].
Proof.
  intros Hp Hb. unfold rt_data_queue_push. erewrite bind_Ok by reflexivity. simpl. unfold dq_push_loop.
  run_step (run_get_obj m s o q Hm). destruct (dq_full q) eqn:Hf.
  - case_decide as Hz; [subst; by eexists _, _|]. rewrite (proj2 (Z.eqb_neq _ _) Hz).
    destruct (Hb eq_refl Hz) as (B & Htime).
    destruct (run_dq_wait (A := call nat Z) Waiting (HPush o) t th timeout B ltac:(done) Htime) as (s' & Hr & Hw).
    eexists _, _. split; [exact Hr|]. done.
  - destruct (run_dq_store x) as (s' & Hr & Hw). run_step Hr. eexists _, _. split; [reflexivity|].
    split; [done|]. split; [done|]. exists (stored x q). split; [done|]. by apply stored_contents.
Qed.

Lemma run_dq_take :
  dq_empty q = false ->
  exists x r s', dq_take o (m, s) = Ok r (<[o := popped q]> m, s') /\ pop_event r = Popped x /\
    dq_contents q = x :: dq_contents (popped q) /\ dq_wf (popped q) /\ kinv s' /\
    (dq_put_index q - dq_get_index q - 1 <= dq_lwm q -> tl s (HPush o) ≠ [] -> r = Waiting (Taken x) /\ woke_one (HPush o) s s').
Proof.
  intros He. destruct (popped_contents q W He) as (x & Hx & W' & Hc). exists x.
  unfold dq_take. run_step (run_get_obj m s o q Hm). unfold deref at 1. rewrite Hx. erewrite bind_Ok by reflexivity.
  unfold put_obj at 1. erewrite bind_Ok by reflexivity. cbn [fst snd].
  assert (dq_put_index (popped q) - dq_get_index (popped q) = dq_put_index q - dq_get_index q - 1) as ->.
  { pose proof (dw_get _ W). pose proof (dw_put _ W). apply Z.eqb_neq in He. simpl. rewrite u16_small; lia. }
  change (dq_lwm (popped q)) with (dq_lwm q). change (dq_notify (popped q)) with (dq_notify q).
  destruct (Z.leb_spec (dq_put_index q - dq_get_index q - 1) (dq_lwm q)) as [Hl|Hl].
  - unfold get at 1. erewrite bind_Ok by reflexivity. cbn [snd].
    destruct (bool_decide_reflect (tl s (HPush o) = [])) as [E|E]; simpl.
    + destruct (run_when_notify (dq_notify q) (<[o := popped q]> m) s RT_DATAQUEUE_EVENT_LWM I) as (s' & Hr & I' & _).
      run_step Hr. by eexists _, s'.
    + destruct (run_wake_one_of (<[o := popped q]> m) s (HPush o) I ltac:(done)) as (s' & Hr & Hw).
      rewrite bool_decide_eq_false_2 in Hr by done. run_step Hr. eexists _, s'. split_and!; try done.
      by eapply woke_one_kinv.
  - destruct (run_when_notify (dq_notify q) (<[o := popped q]> m) s RT_DATAQUEUE_EVENT_POP I) as (s' & Hr & I' & _).
    run_step Hr. eexists _, s'. split_and!; try done. lia.
Qed.

(** [rt_data_queue_pop]: the oldest item is taken off; when the queue has sunk
    to its low water mark the first waiting pusher becomes ready; an empty
    queue refuses or puts the caller to sleep. *)
Theorem rt_data_queue_pop_correct timeout t th :
  (dq_empty q = true -> timeout ≠ 0 -> blocking_ctx s t th /\ timeout < RT_TICK_MAX / 2) ->
  exists r st', rt_data_queue_pop o timeout (m, s) = Ok r st' /\
    if dq_empty q then
      if decide (timeout = 0) then r = Return (- RT_ETIMEOUT, None) /\ st' = (m, s)
      else r = Waiting (WaitIn t) /\ st'.1 = m /\
        entered_wait (HPop o) t (set_th_error RT_EOK th) RT_IPC_FLAG_FIFO timeout
          (set_k_threads (<[t := set_th_error RT_EOK th]>) s) st'.2
    else exists x q', pop_event r = Popped x /\ st'.1 = <[o := q']> m /\ dq_wf q' /\
      dq_contents q = x :: dq_contents q' /\ kinv st'.2 /\
      (dq_put_index q - dq_get_index q - 1 <= dq_lwm q -> tl s (HPush o) ≠ [] -> woke_one (HPush o) s st'.2).
Proof.
  intros Hb. unfold rt_data_queue_pop. erewrite bind_Ok by reflexivity. simpl. unfold dq_pop_loop.
  run_step (run_get_obj m s o q Hm). destruct (dq_empty q) eqn:He.
  - case_decide as Hz; [subst; by eexists _, _|]. rewrite (proj2 (Z.eqb_neq _ _) Hz).
    destruct (Hb eq_refl Hz) as (B & Htime).
    destruct (run_dq_wait (A := call dq_wait (Z * option rt_data_item)) (fun t => Waiting (WaitIn t)) (HPop o) t th timeout
      B ltac:(done) Htime) as (s' & Hr & Hw).
    eexists _, _. split; [exact Hr|]. done.
  - destruct (run_dq_take He) as (x & r & s' & Hr & Hev & Hc & W' & I' & Hw). eexists _, _. split; [exact Hr|].
    exists x, (popped q). split_and!; try done. intros. by apply Hw.
Qed.
End calls.

(** ** Reset *)

Lemma all_failed_ready h s s' u uh : kinv s -> waiting_head h -> all_failed h (tl s h) s s' -> ready s u uh -> ready s' u uh.
Proof.
  intros I Hh F [Hu Hst]. split; [|done]. rewrite (af_others _ _ _ _ F); [done|].
  intros Hin. by pose proof (kinv_only_ready _ _ _ _ I Hu Hst Hin) as ->.
Qed.

(** [rt_data_queue_reset] ends, and every thread that waited for room or data is
    ready with the error [-RT_ERROR]; the items stay in the queue. *)
Theorem rt_data_queue_reset_correct o m s u uh :
  kinv s -> ready s u uh ->
  exists s', rt_data_queue_reset o (m, s) = Ok tt (m, s') /\ kinv s' /\
    tl s' (HPop o) = [] /\ tl s' (HPush o) = [] /\
    (forall t th, t ∈ tl s (HPop o) ++ tl s (HPush o) -> k_threads s !! t = Some th ->
       ready s' t (set_th_stat (with_state RT_THREAD_READY (th_stat th)) (set_th_error (- RT_ERROR) th))) /\
    (forall t, t ∉ tl s (HPop o) ++ tl s (HPush o) -> k_threads s' !! t = k_threads s !! t).
Proof.
  intros I Hr. unfold rt_data_queue_reset. set (s0 := set_k_lock_nest (fun n => s16 (n + 1)) s).
  assert (kinv s0) as I0 by by apply (kinv_same s).
  destruct (run_ipc_list_resume_all s0 (HPop o) I0 ltac:(done)) as (s1 & E1 & F1).
  pose proof (af_inv _ _ _ _ F1) as I1.
  destruct (run_ipc_list_resume_all s1 (HPush o) I1 ltac:(done)) as (s2 & E2 & F2).
  pose proof (af_inv _ _ _ _ F2) as I2.
  assert (ready s2 u uh) as Hr2.
  { eapply (all_failed_ready (HPush o)); [exact I1|done|exact F2|].
    by eapply (all_failed_ready (HPop o)); [exact I0|done|exact F1|]. }
  destruct (run_exit_critical_frame s2 u uh I2 Hr2) as (s3 & E3 & I3 & Etl & Eth).
  assert (ready s3 u uh) as Hr3 by (unfold ready; by rewrite Eth).
  exists (scheduled s3). split.
  { apply run_on_snd. unfold rt_enter_critical. erewrite bind_Ok by reflexivity.
    run_step E1. run_step E2. run_step E3. by eapply run_schedule. }
  assert (tl s1 (HPush o) = tl s (HPush o)) as El by by apply (af_lists _ _ _ _ F1).
  split; [by apply kinv_scheduled|]. unfold ready. autorewrite with sched. rewrite !Etl, Eth. split_and!.
  - rewrite (af_lists _ _ _ _ F2) by done. apply F1.
  - apply F2.
  - intros t th Hin Ht. apply elem_of_app in Hin as [Hin|Hin].
    + rewrite (af_others _ _ _ _ F2); [by apply F1|]. rewrite El. intros Hin'.
      by pose proof (inv_uniq _ I _ _ _ Hin Hin').
    + apply F2; [by rewrite El|]. rewrite (af_others _ _ _ _ F1); [done|]. intros Hin'.
      by pose proof (inv_uniq _ I (HPop o) (HPush o) t Hin' Hin).
  - intros t Hin. rewrite not_elem_of_app in Hin. destruct Hin as [H1 H2].
    rewrite (af_others _ _ _ _ F2) by by rewrite El. by rewrite (af_others _ _ _ _ F1).
Qed.

(** ** When the put index wraps

    The test for a full queue compares [put_index - get_index], computed as
    [int], with the size.  Once the put index has wrapped and the get index has
    not, the difference is negative and the queue never looks full. *)

Section wrap.
Context (o : nat) (m0 : gmap nat rt_data_queue) (s : kstate) (n lwm : Z).
Context (Hn : 0 < n < 65536) (Hdiv : (n | 65536)).
Context (Hpush : tl s (HPush o) = []) (Hpop : tl s (HPop o) = []).
Local Abbreviation at_ g p l := (<[o := mk_dq n lwm g p l false]> m0, s).
Local Abbreviation full_pool l := (Z.of_nat (length l) = n).

Lemma push_wraps g p l x :
  full_pool l -> 0 <= p -> p - g ≠ n -> dq_step o (at_ g p l) (Pushed x) (at_ g (u16 (p + 1)) (<[Z.to_nat (p mod n) := x]> l)).
Proof.
  intros Hl Hp Hne. apply (dq_step_push o x 0 _ (Return RT_EOK)). unfold rt_data_queue_push.
  erewrite bind_Ok by reflexivity. unfold dq_push_loop.
  erewrite bind_Ok by (apply run_get_obj, lookup_insert_eq). unfold dq_full. simpl.
  rewrite (proj2 (Z.eqb_neq _ _) Hne). unfold dq_store.
  erewrite bind_Ok; [reflexivity|]. erewrite bind_Ok by (apply run_get_obj, lookup_insert_eq).
  pose proof (Z.mod_pos_bound p n ltac:(lia)). unfold dq_slot. simpl.
  rewrite (proj2 (Nat.ltb_lt _ _)) by lia. erewrite bind_Ok by reflexivity.
  unfold put_obj at 1. erewrite bind_Ok by reflexivity. unfold get at 1. erewrite bind_Ok by reflexivity. cbn [fst snd].
  rewrite Hpop. simpl. unfold stored, dq_slot. simpl. by rewrite insert_insert_eq.
Qed.

Lemma pop_wraps g p l x :
  g ≠ p -> l !! Z.to_nat (g mod n) = Some x -> dq_step o (at_ g p l) (Popped x) (at_ (u16 (g + 1)) p l).
Proof.
  intros Hne Hx. apply (dq_step_pop o 0 _ (Return (RT_EOK, Some x))). unfold rt_data_queue_pop.
  erewrite bind_Ok by reflexivity. unfold dq_pop_loop.
  erewrite bind_Ok by (apply run_get_obj, lookup_insert_eq). unfold dq_empty. simpl.
  rewrite (proj2 (Z.eqb_neq _ _) Hne). unfold dq_take.
  erewrite bind_Ok by (apply run_get_obj, lookup_insert_eq). unfold dq_slot, deref at 1. simpl. rewrite Hx.
  erewrite bind_Ok by reflexivity. unfold put_obj at 1. erewrite bind_Ok by reflexivity. cbn [fst snd].
  unfold popped. simpl. rewrite insert_insert_eq. destruct (_ <=? _); [|done].
  unfold get at 1. erewrite bind_Ok by reflexivity. cbn [snd]. by rewrite Hpush.
Qed.

(** [k] rounds of one push and one pop. *)
Lemma rounds l a k :
  full_pool l -> Z.of_nat k <= 65535 ->
  exists tr l', dq_steps o (at_ 0 0 l) tr (at_ (Z.of_nat k) (Z.of_nat k) l') /\ full_pool l' /\
    all_pushed tr = replicate k a /\ all_popped tr = replicate k a.
Proof.
  intros Hl. induction k as [|k IH]; intros Hk.
  - exists [], l. split; [constructor|done].
  - destruct IH as (tr & l1 & Hs & Hl1 & E1 & E2); [lia|]. set (l2 := <[Z.to_nat (Z.of_nat k mod n) := a]> l1).
    assert (full_pool l2) as Hl2 by (unfold l2; by rewrite length_insert).
    pose proof (Z.mod_pos_bound (Z.of_nat k) n ltac:(lia)).
    exists ((tr ++ [Pushed a]) ++ [Popped a]), l2. rewrite !all_pushed_snoc, !all_popped_snoc, E1, E2. simpl.
    rewrite !app_nil_r, <- replicate_S_end. split_and!; try done. eapply dq_steps_snoc.
    + eapply dq_steps_snoc; [exact Hs|]. apply push_wraps; [done|lia|lia].
    + pose proof (pop_wraps (Z.of_nat k) (u16 (Z.of_nat k + 1)) l2 a) as Hp. rewrite !u16_small in * by lia.
      replace (Z.of_nat (S k)) with (Z.of_nat k + 1) by lia. apply Hp; [lia|]. apply list_lookup_insert_eq. lia.
Qed.

(** Pushes behind the wrapped index, as many as fit into the queue. *)
Lemma pushes_behind st0 tr0 l c k :
  full_pool l -> Z.of_nat k < n -> dq_steps o st0 tr0 (at_ 65535 0 l) ->
  exists tr l', dq_steps o st0 (tr0 ++ tr) (at_ 65535 (Z.of_nat k) l') /\ full_pool l' /\
    all_pushed tr = replicate k c /\ all_popped tr = [].
Proof.
  intros Hl Hk Hs0. induction k as [|k IH].
  - exists [], l. rewrite app_nil_r. done.
  - destruct IH as (tr & l1 & Hs & Hl1 & E1 & E2); [lia|].
    exists (tr ++ [Pushed c]), (<[Z.to_nat (Z.of_nat k mod n) := c]> l1).
    rewrite all_pushed_snoc, all_popped_snoc, E1, E2, length_insert. simpl. rewrite <- replicate_S_end.
    split_and!; try done. rewrite app_assoc. eapply dq_steps_snoc; [exact Hs|].
    replace (Z.of_nat (S k)) with (u16 (Z.of_nat k + 1)) by (rewrite u16_small; lia).
    apply push_wraps; [done|lia|lia].
Qed.

(** The indices of a data queue wrap after 65536 pushes, and then the queue
    is no queue any more: on a fresh queue of any size that divides 65536 there
    is a sequence of non-blocking pushes and pops in which the item that is
    popped after the wrap is not the one that was pushed, because a push onto
    the full queue succeeded and overwrote the oldest item. *)
Theorem data_queue_wrap_loses l (a b c d : rt_data_item) :
  full_pool l -> b ≠ d ->
  exists tr st, dq_steps o (at_ 0 0 l) tr st /\ ¬ all_popped tr `prefix_of` all_pushed tr.
Proof.
  intros Hl Hbd. destruct (rounds l a (Z.to_nat 65535) Hl ltac:(lia)) as (tr1 & l1 & H1 & Hl1 & P1 & Q1).
  rewrite Z2Nat.id in H1 by lia. set (k := Z.to_nat 65535) in *. clearbody k.
  assert (65535 mod n = n - 1) as Em.
  { destruct Hdiv as [z Hz]. symmetry. apply (Z.mod_unique_pos _ _ (z - 1)); lia. }
  assert (n ≠ 65535) as Hn' by (intros ->; destruct Hdiv as [z Hz]; lia).
  assert (full_pool (<[Z.to_nat (65535 mod n) := b]> l1)) as Hl1' by by rewrite length_insert.
  pose proof (dq_steps_snoc _ _ _ _ _ _ H1 (push_wraps 65535 65535 l1 b Hl1 ltac:(lia) ltac:(lia))) as H2.
  change (u16 (65535 + 1)) with 0 in H2.
  destruct (pushes_behind _ _ _ c (Z.to_nat (n - 1)) Hl1' ltac:(lia) H2) as (tr3 & l3 & H3 & Hl3 & P3 & Q3).
  rewrite Z2Nat.id in H3 by lia.
  pose proof (dq_steps_snoc _ _ _ _ _ _ H3 (push_wraps 65535 (n - 1) l3 d Hl3 ltac:(lia) ltac:(lia))) as H4.
  rewrite (Z.mod_small (n - 1) n), u16_small in H4 by lia.
  eexists _, _. split.
  - eapply dq_steps_snoc; [exact H4|]. apply (pop_wraps _ _ _ d); [lia|]. rewrite Em. apply list_lookup_insert_eq. lia.
  - unfold all_popped, all_pushed in *. rewrite !bind_app, P1, Q1, P3, Q3. simpl. rewrite !app_nil_r.
    rewrite <- !app_assoc. intros H%prefix_app_inv. by apply prefix_cons_inv_1 in H.
Qed.
End wrap.
End data_queue.

(** ** Witnesses *)

Definition silent (o : nat) (e : Z) : M dq_state unit := mret tt.
Lemma silent_keeps o e st a st' : silent o e st = Ok a st' -> st'.1 = st.1.
Proof. intros H. by injection H as _ <-. Qed.
Lemma silent_ok o e m s : kinv s -> exists s', silent o e (m, s) = Ok tt (m, s') /\ kinv s'.
Proof. intros I. by exists s. Qed.

Definition item (p : Z) : rt_data_item := mk_item p 4.
Definition demo_queue : rt_data_queue := mk_dq 2 1 0 1 [item 8; item 0] true.
Definition demo_dq : gmap nat rt_data_queue := {[1%nat := demo_queue]}.
Lemma demo_queue_wf : dq_wf demo_queue.
Proof. split; simpl; lia. Qed.

(** Push 7 onto a queue that holds 8, then pop: 8 comes out, 7 is left. *)
Definition demo_dq_pushed : dq_state := run (rt_data_queue_push silent 1 (item 7) 0) (demo_dq, demo).
Definition demo_dq_popped : dq_state := run (rt_data_queue_pop silent 1 0) demo_dq_pushed.

Lemma data_queue_fifo_witness :
  exists q, demo_dq_popped.1 !! 1%nat = Some q /\ dq_wf q /\ dq_contents q = [item 7].
Proof.
  destruct (data_queue_fifo silent silent_keeps 1 (demo_dq, demo) [Pushed (item 7); Popped (item 8)] demo_dq_popped
    demo_queue eq_refl demo_queue_wf) as (q & Hl & W & H).
  - apply (dq_steps_snoc silent _ _ demo_dq_pushed _ [Pushed (item 7)] (Popped (item 8))).
    + apply (dq_steps_snoc silent _ _ (demo_dq, demo) _ [] (Pushed (item 7))); [constructor|].
      apply (dq_step_push silent 1 (item 7) 0 _ (Return RT_EOK)).
      apply (ret_Ok (rt_data_queue_push silent 1 (item 7) 0)). vm_compute. reflexivity.
    + apply (dq_step_pop silent 1 0 _ (Return (RT_EOK, Some (item 8)))).
      apply (ret_Ok (rt_data_queue_pop silent 1 0)). vm_compute. reflexivity.
  - reflexivity.
  - exists q. split; [exact Hl|]. split; [exact W|]. change (dq_contents demo_queue) with [item 8] in H.
    change (all_pushed _) with [item 7] in H. change (all_popped _) with [item 8] in H.
    simpl in H. injection H as H. symmetry. exact H.
Defined.

Lemma data_queue_wrap_loses_witness :
  exists tr st, dq_steps silent 1 (<[1%nat := mk_dq 2 0 0 0 [item 0; item 0] false]> ∅, demo) tr st /\
    ¬ all_popped tr `prefix_of` all_pushed tr.
Proof.
  apply (data_queue_wrap_loses silent 1 ∅ demo 2 0 ltac:(lia)) with (a := item 1) (b := item 2) (c := item 3) (d := item 4).
  - exists 32768. reflexivity.
  - vm_compute. reflexivity.
  - vm_compute. reflexivity.
  - reflexivity.
  - intros H. discriminate H.
Defined.

Lemma rt_data_queue_push_correct_witness :
  exists st', rt_data_queue_push silent 1 (item 7) 0 (demo_dq, demo) = Ok (Return RT_EOK) st' /\
    exists q', st'.1 = <[1%nat := q']> demo_dq /\ dq_contents q' = [item 8; item 7].
Proof.
  destruct (rt_data_queue_push_correct silent silent_ok demo_dq demo 1 demo_queue eq_refl demo_queue_wf demo_kinv
    (item 7) 0 1 (thread_at demo 1)) as (r & st' & E & H).
  - reflexivity.
  - intros H. discriminate H.
  - destruct H as (-> & _ & q' & E1 & _ & Hc). exists st'. split; [exact E|]. exists q'. split; [exact E1|]. exact Hc.
Defined.
