(* ===== verification/MsgQueue.v ===== *)
(** * Message queues: the message queue part of src/ipc.c

    Messages live in the slots of a pool, each with a [next] pointer: a list of
    queued messages with head and tail, and a list of free slots.  Sending and
    receiving enable the interrupts while they copy the message, so the
    operations are modelled as the phases between two such points
    ([mq_alloc], [mq_fill], [mq_link], [mq_link_head]; [mq_unlink],
    [mq_release]), and [rt_mq_send], [rt_mq_urgent] and [rt_mq_recv] as their
    sequences. *)

From S2P Require Import Prelude Kernel Object Timer Scheduler Thread KInv ThreadSpec Ipc Semaphore Mailbox.

(** [struct rt_mq_message] and the bytes after it; slot [i] of the pool. *)
Record mq_message := mk_msg { mm_next : option nat; mm_data : list Z }.
Definition set_mm_next (v : option nat) (x : mq_message) : mq_message := mk_msg v (mm_data x).
Definition set_mm_data (v : list Z) (x : mq_message) : mq_message := mk_msg (mm_next x) v.

(** [struct rt_messagequeue] *)
Record rt_messagequeue := mk_mq {
  mq_pool : gmap nat mq_message;
  mq_msg_size : Z;
  mq_max_msgs : Z;
  mq_entry : Z;
  mq_qhead : option nat;         (**  msg_queue_head *)
  mq_qtail : option nat;         (**  msg_queue_tail *)
  mq_qfree : option nat;         (**  msg_queue_free *)
  mq_flag : Z
}.

Definition set_mq_pool (f : gmap nat mq_message -> gmap nat mq_message) (x : rt_messagequeue) : rt_messagequeue :=
  mk_mq (f (mq_pool x)) (mq_msg_size x) (mq_max_msgs x) (mq_entry x) (mq_qhead x) (mq_qtail x) (mq_qfree x) (mq_flag x).
Definition set_mq_entry (v : Z) (x : rt_messagequeue) : rt_messagequeue :=
  mk_mq (mq_pool x) (mq_msg_size x) (mq_max_msgs x) v (mq_qhead x) (mq_qtail x) (mq_qfree x) (mq_flag x).
Definition set_mq_qhead (v : option nat) (x : rt_messagequeue) : rt_messagequeue :=
  mk_mq (mq_pool x) (mq_msg_size x) (mq_max_msgs x) (mq_entry x) v (mq_qtail x) (mq_qfree x) (mq_flag x).
Definition set_mq_qtail (v : option nat) (x : rt_messagequeue) : rt_messagequeue :=
  mk_mq (mq_pool x) (mq_msg_size x) (mq_max_msgs x) (mq_entry x) (mq_qhead x) v (mq_qfree x) (mq_flag x).
Definition set_mq_qfree (v : option nat) (x : rt_messagequeue) : rt_messagequeue :=
  mk_mq (mq_pool x) (mq_msg_size x) (mq_max_msgs x) (mq_entry x) (mq_qhead x) (mq_qtail x) v (mq_flag x).

Definition mq_state : Type := gmap nat rt_messagequeue * kstate.
Definition mq_ref (o : nat) : obj_ref := Obj RT_Object_Class_MessageQueue o.
Definition mq_head (o : nat) : tlist_head := HSuspend RT_Object_Class_MessageQueue o.

Definition sizeof_mq_message : Z := 4.
Definition RT_ALIGN_SIZE : Z := 4.

(** The loop that chains the slots into the free list; [mem i] is what the
    memory of slot [i] holds. *)
Fixpoint mq_free_list (mem : nat -> list Z) (n : nat) : gmap nat mq_message * option nat :=
  match n with
  | O => (∅, None)
  | S n => let '(pool, free) := mq_free_list mem n in (<[n := mk_msg free (mem n)]> pool, Some n)
  end.

Definition empty_mq (mem : nat -> list Z) (msg_size max_msgs flag : Z) : rt_messagequeue :=
  let '(pool, free) := mq_free_list mem (Z.to_nat max_msgs) in
  mk_mq pool msg_size max_msgs 0 None None free flag.

Definition mq_aligned_size (msg_size : Z) : Z := u16 (RT_ALIGN msg_size RT_ALIGN_SIZE).

Definition rt_mq_init (o : nat) (name : list Z) (mem : nat -> list Z) (msg_size pool_size flag : Z) : M mq_state Z :=
  on_snd (rt_object_init (mq_ref o) name);;
  on_snd (rt_ipc_object_init (mq_head o));;
  put_obj o (empty_mq mem (mq_aligned_size msg_size)
    (u16 (pool_size / (mq_aligned_size msg_size + sizeof_mq_message))) flag);;
  mret RT_EOK.

Definition rt_mq_detach (o : nat) : M mq_state Z :=
  on_snd (rt_ipc_list_resume_all (mq_head o));;
  on_snd (rt_object_detach (mq_ref o));;
  mret RT_EOK.

Definition rt_mq_delete (o : nat) : M mq_state Z :=
  on_snd RT_DEBUG_NOT_IN_INTERRUPT;;
  on_snd (rt_ipc_list_resume_all (mq_head o));;
  on_snd (rt_object_delete (mq_ref o));;
  del_obj o;;
  mret RT_EOK.

(** [mem] and [pool] are the results of the two allocations. *)
Definition rt_mq_create (mem : option nat) (pool : option (nat -> list Z)) (name : list Z)
    (msg_size max_msgs flag : Z) : M mq_state (option nat) :=
  on_snd RT_DEBUG_NOT_IN_INTERRUPT;;
  r ← on_snd (rt_object_allocate RT_Object_Class_MessageQueue mem name);
  match r with
  | None => mret None
  | Some o =>
      on_snd (rt_ipc_object_init (mq_head o));;
      match pool with
      | None => rt_mq_delete o;; mret None
      | Some pool =>
          put_obj o (empty_mq pool (mq_aligned_size msg_size) (u16 max_msgs) flag);; mret (Some o)
      end
  end.

(** ** The phases *)

Definition upd_msg (o i : nat) (f : mq_message -> mq_message) : M mq_state unit :=
  mq ← get_obj o;
  msg ← deref (fun _ => mq_pool mq !! i);
  upd_obj o (set_mq_pool (<[i := f msg]>)).

(** First critical section of a send: a free slot, or [None] when the queue is
    full. *)
Definition mq_alloc (o : nat) : M mq_state (option nat) :=
  mq ← get_obj o;
  match mq_qfree mq with
  | None => mret None
  | Some i =>
      msg ← deref (fun _ => mq_pool mq !! i);
      upd_obj o (set_mq_qfree (mm_next msg));;
      mret (Some i)
  end.

(** [rt_memcpy(msg + 1, buffer, size)] with the interrupts enabled. *)
Definition mq_fill (o i : nat) (buffer : list Z) : M mq_state unit :=
  upd_msg o i (fun msg => set_mm_data (buffer ++ drop (length buffer) (mm_data msg)) msg).

(** Resume a waiting receiver and schedule, at the end of a send. *)
Definition mq_notify (o : nat) : M mq_state Z :=
  st ← get;
  (if negb (bool_decide (tl st.2 (mq_head o) = [])) then
     on_snd (rt_ipc_list_resume (mq_head o);; rt_schedule)
   else mret tt);;
  mret RT_EOK.

(** Second critical section of [rt_mq_send]: link at the tail. *)
Definition mq_link (o i : nat) : M mq_state Z :=
  mq ← get_obj o;
  match mq_qtail mq with
  | Some j => upd_msg o j (set_mm_next (Some i))
  | None => mret tt
  end;;
  upd_obj o (set_mq_qtail (Some i));;
  (if bool_decide (mq_qhead mq = None) then upd_obj o (set_mq_qhead (Some i)) else mret tt);;
  upd_obj o (set_mq_entry (u16 (mq_entry mq + 1)));;
  mq_notify o.

(** Second critical section of [rt_mq_urgent]: link at the head. *)
Definition mq_link_head (o i : nat) : M mq_state Z :=
  mq ← get_obj o;
  upd_msg o i (set_mm_next (mq_qhead mq));;
  upd_obj o (set_mq_qhead (Some i));;
  (if bool_decide (mq_qtail mq = None) then upd_obj o (set_mq_qtail (Some i)) else mret tt);;
  upd_obj o (set_mq_entry (u16 (mq_entry mq + 1)));;
  mq_notify o.

Definition rt_mq_send (o : nat) (buffer : list Z) : M mq_state Z :=
  rt_assert (negb (bool_decide (buffer = [])));;
  mq ← get_obj o;
  if mq_msg_size mq <? Z.of_nat (length buffer) then mret (- RT_ERROR)
  else
    r ← mq_alloc o;
    match r with
    | None => mret (- RT_EFULL)
    | Some i =>
        upd_msg o i (set_mm_next None);;
        mq_fill o i buffer;;
        mq_link o i
    end.

Definition rt_mq_urgent (o : nat) (buffer : list Z) : M mq_state Z :=
  rt_assert (negb (bool_decide (buffer = [])));;
  mq ← get_obj o;
  if mq_msg_size mq <? Z.of_nat (length buffer) then mret (- RT_ERROR)
  else
    r ← mq_alloc o;
    match r with
    | None => mret (- RT_EFULL)
    | Some i => mq_fill o i buffer;; mq_link_head o i
    end.

(** The critical section of [rt_mq_recv] that unlinks the first message. *)
Definition mq_unlink (o : nat) : M mq_state nat :=
  mq ← get_obj o;
  i ← deref (fun _ => mq_qhead mq);
  msg ← deref (fun _ => mq_pool mq !! i);
  upd_obj o (set_mq_qhead (mm_next msg));;
  (if bool_decide (mq_qtail mq = Some i) then upd_obj o (set_mq_qtail None) else mret tt);;
  upd_obj o (set_mq_entry (u16 (mq_entry mq - 1)));;
  mret i.

(** [rt_memcpy(buffer, msg + 1, size > msg_size ? msg_size : size)] *)
Definition mq_copy (o i : nat) (size : Z) : M mq_state (list Z) :=
  mq ← get_obj o;
  msg ← deref (fun _ => mq_pool mq !! i);
  mret (take (Z.to_nat (if mq_msg_size mq <? size then mq_msg_size mq else size)) (mm_data msg)).

(** The last critical section: the slot goes back to the free list. *)
Definition mq_release (o i : nat) : M mq_state unit :=
  mq ← get_obj o;
  upd_msg o i (set_mm_next (mq_qfree mq));;
  upd_obj o (set_mq_qfree (Some i)).

(** The [while] loop of [rt_mq_recv], up to its next [rt_schedule]. *)
Definition mq_recv_loop (o : nat) (c : option nat) (size timeout : Z)
    : M mq_state (call wait_locals (Z * option (list Z))) :=
  mq ← get_obj o;
  if mq_entry mq =? 0 then
    on_snd RT_DEBUG_IN_THREAD_CONTEXT;;
    t ← deref (fun _ => c);
    on_snd (upd_thread t (set_th_error RT_EOK));;
    if timeout =? 0 then
      on_snd (upd_thread t (set_th_error (- RT_ETIMEOUT)));;
      mret (Return (- RT_ETIMEOUT, None))
    else
      now ← on_snd rt_tick_get;
      on_snd (wait_on (mq_head o) t (mq_flag mq) timeout);;
      mret (Waiting (mk_wait t timeout (if 0 <? timeout then now else 0)))
  else
    i ← mq_unlink o;
    data ← mq_copy o i size;
    mq_release o i;;
    mret (Return (RT_EOK, Some data)).

Definition rt_mq_recv (o : nat) (size timeout : Z) : M mq_state (call wait_locals (Z * option (list Z))) :=
  rt_assert (negb (size =? 0));;
  c ← on_snd (gets k_current);
  mq ← get_obj o;
  if (mq_entry mq =? 0) && (timeout =? 0) then mret (Return (- RT_ETIMEOUT, None))
  else mq_recv_loop o c size timeout.

Definition rt_mq_recv_resume (o : nat) (size : Z) (w : wait_locals)
    : M mq_state (call wait_locals (Z * option (list Z))) :=
  th ← on_snd (get_thread (wl_thread w));
  if negb (th_error th =? RT_EOK) then mret (Return (th_error th, None))
  else
    now ← on_snd rt_tick_get;
    mq_recv_loop o (Some (wl_thread w)) size (remaining_timeout (wl_timeout w) (wl_tick w) now).

(** The loop of [rt_mq_control] that frees the queued messages; a list longer
    than the pool is cyclic and the loop does not end. *)
Fixpoint mq_flush (fuel : nat) (o : nat) : M mq_state unit :=
  mq ← get_obj o;
  match mq_qhead mq, fuel with
  | None, _ => mret tt
  | Some _, O => fault
  | Some i, S fuel =>
      msg ← deref (fun _ => mq_pool mq !! i);
      upd_obj o (set_mq_qhead (mm_next msg));;
      (if bool_decide (mq_qtail mq = Some i) then upd_obj o (set_mq_qtail None) else mret tt);;
      upd_msg o i (set_mm_next (mq_qfree mq));;
      upd_obj o (set_mq_qfree (Some i));;
      mq_flush fuel o
  end.

Definition rt_mq_control (o : nat) (cmd arg : Z) : M mq_state Z :=
  if cmd =? RT_IPC_CMD_RESET then
    on_snd (rt_ipc_list_resume_all (mq_head o));;
    mq ← get_obj o;
    mq_flush (Z.to_nat (mq_max_msgs mq)) o;;
    upd_obj o (set_mq_entry 0);;
    on_snd rt_schedule;;
    mret RT_EOK
  else mret (- RT_ERROR).

(** ** Chains of messages *)

Fixpoint chain (pool : gmap nat mq_message) (p : option nat) (l : list nat) : Prop :=
  match l with
  | [] => p = None
  | i :: l => p = Some i /\ exists msg, pool !! i = Some msg /\ chain pool (mm_next msg) l
  end.

Lemma chain_head pool p l : chain pool p l -> p = head l.
Proof. destruct l; [done|]. by intros [-> _]. Qed.

Lemma chain_other pool p l i x : i ∉ l -> chain pool p l -> chain (<[i := x]> pool) p l.
Proof.
  revert p. induction l as [|j l IH]; intros p Hn; [done|]. apply not_elem_of_cons in Hn as [Hij Hn].
  intros [-> (msg & Hm & Hc)]. split; [done|]. exists msg. rewrite lookup_insert_ne by done. eauto.
Qed.

(** Only the links matter. *)
Lemma chain_same_next pool p l i msg x :
  pool !! i = Some msg -> mm_next x = mm_next msg -> chain pool p l -> chain (<[i := x]> pool) p l.
Proof.
  intros Hi Hx. revert p. induction l as [|j l IH]; intros p; [done|].
  intros [-> (n & Hn & Hc)]. split; [done|]. destruct (decide (i = j)) as [->|Hne].
  - exists x. rewrite lookup_insert_eq. simplify_eq. rewrite Hx. eauto.
  - exists n. rewrite lookup_insert_ne by done. eauto.
Qed.

(** Linking [i] behind the last message [j]. *)
Lemma chain_snoc pool p l j i mj mi :
  chain pool p (l ++ [j]) -> NoDup (l ++ [j]) -> pool !! j = Some mj ->
  pool !! i = Some mi -> mm_next mi = None -> i ∉ l ++ [j] ->
  chain (<[j := set_mm_next (Some i) mj]> pool) p ((l ++ [j]) ++ [i]).
Proof.
  revert p. induction l as [|k l IH]; intros p Hc Hnd Hj Hi Hni Hn; simpl in *.
  - destruct Hc as [-> _]. split; [done|]. exists (set_mm_next (Some i) mj). rewrite lookup_insert_eq.
    split; [done|]. simpl. split; [done|]. exists mi. rewrite lookup_insert_ne by set_solver. done.
  - destruct Hc as [-> (n & Hk & Hc)]. apply NoDup_cons in Hnd as [Hkn Hnd]. split; [done|].
    exists n. rewrite lookup_insert_ne by set_solver. split; [done|]. apply IH; set_solver.
Qed.

(** ** The invariant

    [q] is the queue, [fr] the free list, [held] the slots that senders and
    receivers hold between two critical sections: together, every slot once. *)
Record mq_inv (mq : rt_messagequeue) (q fr held : list nat) : Prop := {
  mi_queue : chain (mq_pool mq) (mq_qhead mq) q;
  mi_tail : mq_qtail mq = last q;
  mi_free : chain (mq_pool mq) (mq_qfree mq) fr;
  mi_slots : q ++ fr ++ held ≡ₚ seq 0 (Z.to_nat (mq_max_msgs mq));
  mi_pool : forall i, i ∈ seq 0 (Z.to_nat (mq_max_msgs mq)) -> is_Some (mq_pool mq !! i);
  mi_entry : mq_entry mq = Z.of_nat (length q);
  mi_max : 0 <= mq_max_msgs mq < 65536
}.

Definition mq_data (mq : rt_messagequeue) (i : nat) : list Z :=
  match mq_pool mq !! i with Some msg => mm_data msg | None => [] end.
(** The queued messages, oldest first. *)
Definition mq_contents (mq : rt_messagequeue) (q : list nat) : list (list Z) := mq_data mq <$> q.

Section mq_inv.
Context (mq : rt_messagequeue) (q fr held : list nat) (W : mq_inv mq q fr held).

Lemma mq_nodup : NoDup (q ++ fr ++ held).
Proof. rewrite (mi_slots _ _ _ _ W). apply NoDup_seq. Qed.

Lemma mq_slot i : i ∈ q ++ fr ++ held -> exists msg, mq_pool mq !! i = Some msg.
Proof. rewrite (mi_slots _ _ _ _ W). apply (mi_pool _ _ _ _ W). Qed.

Lemma mq_entry_max : Z.of_nat (length q) + Z.of_nat (length fr) + Z.of_nat (length held) = mq_max_msgs mq.
Proof.
  pose proof (Permutation_length (mi_slots _ _ _ _ W)) as H. rewrite !length_app, length_seq in H.
  pose proof (mi_max _ _ _ _ W). lia.
Qed.

Lemma mq_held_notin i : i ∈ held -> (i ∉ q) /\ (i ∉ fr).
Proof.
  intros Hi. pose proof mq_nodup as (_ & Hq & (_ & Hf & _)%NoDup_app)%NoDup_app.
  split; intros Hn; [apply (Hq i Hn); set_solver|by apply (Hf i Hn)].
Qed.

(** Writing to a slot that is held changes neither list. *)
Lemma mq_inv_write i x : i ∈ held ->
  mq_inv (set_mq_pool (<[i := x]>) mq) q fr held /\
  mq_contents (set_mq_pool (<[i := x]>) mq) q = mq_contents mq q.
Proof.
  intros Hi. destruct (mq_held_notin i Hi) as [Hq Hf]. split.
  - destruct W. split; simpl; try done; [by apply chain_other|by apply chain_other|].
    intros j Hj. destruct (decide (i = j)) as [->|]; [rewrite lookup_insert_eq; eauto|]. rewrite lookup_insert_ne; eauto.
  - apply list_fmap_ext. intros k j Hj%list_elem_of_lookup_2. unfold mq_data. simpl.
    by rewrite lookup_insert_ne by (by intros ->).
Qed.

Lemma mq_inv_held held' : held ≡ₚ held' -> mq_inv mq q fr held'.
Proof. intros Hp. destruct W. split; try done. by rewrite <- Hp. Qed.
End mq_inv.

Lemma run_upd_msg m s o mq i msg f :
  m !! o = Some mq -> mq_pool mq !! i = Some msg ->
  upd_msg o i f (m, s) = Ok tt (<[o := set_mq_pool (<[i := f msg]>) mq]> m, s).
Proof.
  intros Hm Hi. unfold upd_msg. run_step (run_get_obj m s o mq Hm). unfold deref. rewrite Hi.
  erewrite bind_Ok by reflexivity. by apply run_upd_obj.
Qed.

(** *** Allocating a slot *)
Lemma run_mq_alloc m s o mq q fr held :
  m !! o = Some mq -> mq_inv mq q fr held ->
  match fr with
  | [] => mq_alloc o (m, s) = Ok None (m, s)
  | i :: fr' => exists mq', mq_alloc o (m, s) = Ok (Some i) (<[o := mq']> m, s) /\
      mq_inv mq' q fr' (i :: held) /\ mq_contents mq' q = mq_contents mq q /\
      mq_msg_size mq' = mq_msg_size mq /\ mq_flag mq' = mq_flag mq /\ mq_pool mq' = mq_pool mq
  end.
Proof.
  intros Hm W. unfold mq_alloc. run_step (run_get_obj m s o mq Hm). pose proof (mi_free _ _ _ _ W) as Hf.
  destruct fr as [|i fr']; simpl in Hf; [by rewrite Hf|]. destruct Hf as [-> (msg & Hi & Hc)].
  unfold deref. rewrite Hi. erewrite bind_Ok by reflexivity.
  run_step (run_upd_obj m s o (set_mq_qfree (mm_next msg)) mq Hm).
  exists (set_mq_qfree (mm_next msg) mq). split; [done|]. split; [|done].
  destruct W. split; simpl; try done. rewrite <- mi_slots0. apply Permutation_app_head. simpl.
  symmetry. apply Permutation_middle.
Qed.

(** *** Linking at the tail *)
Definition linked_tail (i : nat) (mq : rt_messagequeue) : rt_messagequeue :=
  let mq1 := match mq_qtail mq with
             | Some j => match mq_pool mq !! j with
                         | Some mj => set_mq_pool (<[j := set_mm_next (Some i) mj]>) mq
                         | None => mq
                         end
             | None => mq
             end in
  let mq2 := set_mq_qtail (Some i) mq1 in
  let mq3 := if bool_decide (mq_qhead mq = None) then set_mq_qhead (Some i) mq2 else mq2 in
  set_mq_entry (u16 (mq_entry mq + 1)) mq3.

Lemma linked_tail_data i mq j : mq_data (linked_tail i mq) j = mq_data mq j.
Proof.
  unfold linked_tail, mq_data. destruct (mq_qtail mq) as [k|]; [|by destruct (bool_decide _)].
  destruct (mq_pool mq !! k) as [mk|] eqn:Ek; [|by destruct (bool_decide _)].
  assert ((<[k := set_mm_next (Some i) mk]> (mq_pool mq)) !! j = None <-> mq_pool mq !! j = None).
  { destruct (decide (k = j)) as [->|]; [by rewrite lookup_insert_eq, Ek|by rewrite lookup_insert_ne]. }
  destruct (bool_decide _); simpl; (destruct (decide (k = j)) as [->|];
    [by rewrite lookup_insert_eq, Ek|by rewrite lookup_insert_ne]).
Qed.

Lemma linked_tail_inv mq q fr held i msg :
  mq_inv mq q fr (i :: held) -> mq_pool mq !! i = Some msg -> mm_next msg = None ->
  mq_inv (linked_tail i mq) (q ++ [i]) fr held.
Proof.
  intros W Hi Hn. pose proof (mq_nodup _ _ _ _ W) as Hnd. pose proof (mq_entry_max _ _ _ _ W) as Hmax.
  destruct (mq_held_notin _ _ _ _ W i) as [Hiq Hif]; [left|]. destruct W as [Hq Ht Hf Hsl Hp He Hm].
  assert (u16 (mq_entry mq + 1) = Z.of_nat (length (q ++ [i]))) as Ee.
  { rewrite length_app, He. simpl in *. rewrite u16_small; lia. }
  assert (q ++ fr ++ i :: held ≡ₚ (q ++ [i]) ++ fr ++ held) as Es.
  { rewrite <- app_assoc. apply Permutation_app_head. simpl. symmetry. apply Permutation_middle. }
  unfold linked_tail. rewrite Ht. destruct q as [|j q'] using rev_ind.
  - simpl in *. rewrite Hq. simpl. split; simpl; try done.
    + split; [done|]. by exists msg.
    + by rewrite <- Hsl, <- Es.
  - clear IHq'. rewrite last_snoc.
    destruct (Hp j) as [mj Hj]; [rewrite <- Hsl; set_solver|]. rewrite Hj.
    apply NoDup_app in Hnd as (Hndq & Hd & _).
    rewrite bool_decide_eq_false_2 by (rewrite (chain_head _ _ _ Hq); by destruct q').
    split; simpl; try done.
    + by eapply chain_snoc.
    + by rewrite last_snoc.
    + apply chain_other; [|done]. intros Hjf. apply (Hd j); set_solver.
    + by rewrite <- Hsl, <- Es.
    + intros k Hk. destruct (decide (j = k)) as [->|]; [rewrite lookup_insert_eq; eauto|]. rewrite lookup_insert_ne; eauto.
Qed.

Lemma linked_tail_run m s o mq q fr held i :
  m !! o = Some mq -> mq_inv mq q fr (i :: held) ->
  mq_link o i (m, s) = mq_notify o (<[o := linked_tail i mq]> m, s).
Proof.
  intros Hm W. unfold mq_link. run_step (run_get_obj m s o mq Hm). unfold linked_tail.
  set (m0 := mq) at 3 4 5 6 7.
  assert (exists mq1, match mq_qtail mq with
     | Some j => upd_msg o j (set_mm_next (Some i)) | None => mret tt end (m, s) = Ok tt (<[o := mq1]> m, s) /\
     mq1 = match mq_qtail mq with
       | Some j => match mq_pool mq !! j with
                   | Some mj => set_mq_pool (<[j := set_mm_next (Some i) mj]>) mq | None => mq end
       | None => mq end) as (mq1 & E1 & Emq1).
  { destruct (mq_qtail mq) as [j|] eqn:Ht.
    - destruct (mq_slot _ _ _ _ W j) as [mj Hj].
      { rewrite (mi_tail _ _ _ _ W) in Ht. apply last_Some_elem_of in Ht. set_solver. }
      rewrite Hj. eexists. split; [|done]. by apply run_upd_msg.
    - exists mq. by rewrite insert_id. }
  run_step E1. rewrite <- Emq1. unfold m0.
  run_step (run_upd_obj (<[o := mq1]> m) s o (set_mq_qtail (Some i)) mq1 (lookup_insert_eq _ _ _)).
  rewrite insert_insert_eq. destruct (bool_decide (mq_qhead mq = None)).
  - run_step (run_upd_obj (<[o := set_mq_qtail (Some i) mq1]> m) s o (set_mq_qhead (Some i)) _ (lookup_insert_eq _ _ _)).
    rewrite insert_insert_eq.
    run_step (run_upd_obj (<[o := set_mq_qhead (Some i) (set_mq_qtail (Some i) mq1)]> m) s o
      (set_mq_entry (u16 (mq_entry mq + 1))) _ (lookup_insert_eq _ _ _)). by rewrite insert_insert_eq.
  - erewrite bind_Ok by reflexivity.
    run_step (run_upd_obj (<[o := set_mq_qtail (Some i) mq1]> m) s o
      (set_mq_entry (u16 (mq_entry mq + 1))) _ (lookup_insert_eq _ _ _)). by rewrite insert_insert_eq.
Qed.

(** *** Linking at the head *)
Definition linked_head (i : nat) (msg : mq_message) (mq : rt_messagequeue) : rt_messagequeue :=
  let mq1 := set_mq_pool (<[i := set_mm_next (mq_qhead mq) msg]>) mq in
  let mq2 := set_mq_qhead (Some i) mq1 in
  let mq3 := if bool_decide (mq_qtail mq = None) then set_mq_qtail (Some i) mq2 else mq2 in
  set_mq_entry (u16 (mq_entry mq + 1)) mq3.

Lemma linked_head_data mq i msg j :
  mq_pool mq !! i = Some msg -> mq_data (linked_head i msg mq) j = mq_data mq j.
Proof.
  intros Hi. unfold linked_head, mq_data. destruct (bool_decide _); simpl;
    (destruct (decide (i = j)) as [->|]; [by rewrite lookup_insert_eq, Hi|by rewrite lookup_insert_ne]).
Qed.

Lemma linked_head_inv mq q fr held i msg :
  mq_inv mq q fr (i :: held) -> mq_pool mq !! i = Some msg ->
  mq_inv (linked_head i msg mq) (i :: q) fr held.
Proof.
  intros W Hi. pose proof (mq_entry_max _ _ _ _ W) as Hmax. pose proof (mi_max _ _ _ _ W).
  destruct (mq_held_notin _ _ _ _ W i) as [Hiq Hif]; [left|].
  assert (u16 (mq_entry mq + 1) = Z.of_nat (length (i :: q))) as Ee.
  { rewrite (mi_entry _ _ _ _ W). simpl in *. rewrite u16_small; lia. }
  assert (mq_inv (set_mq_pool (<[i := set_mm_next (mq_qhead mq) msg]>) mq) q fr (i :: held)) as [Hq Ht Hf Hsl Hp He Hm]
    by (apply mq_inv_write; [done|left]).
  simpl in *.
  assert (i :: q ++ fr ++ held ≡ₚ seq 0 (Z.to_nat (mq_max_msgs mq))) as Es.
  { rewrite <- Hsl, (app_assoc q fr (i :: held)), app_assoc. apply Permutation_middle. }
  assert (chain (<[i := set_mm_next (mq_qhead mq) msg]> (mq_pool mq)) (Some i) (i :: q)) as Hc.
  { split; [done|]. exists (set_mm_next (mq_qhead mq) msg). by rewrite lookup_insert_eq. }
  unfold linked_head. rewrite Ht. destruct q as [|j q'].
  - simpl. by split.
  - rewrite bool_decide_eq_false_2 by (simpl; by destruct q' using rev_ind; rewrite ?app_comm_cons, ?last_snoc).
    by split.
Qed.

Lemma linked_head_run m s o mq i msg :
  m !! o = Some mq -> mq_pool mq !! i = Some msg ->
  mq_link_head o i (m, s) = mq_notify o (<[o := linked_head i msg mq]> m, s).
Proof.
  intros Hm Hi. unfold mq_link_head, linked_head. run_step (run_get_obj m s o mq Hm).
  run_step (run_upd_msg m s o mq i msg (set_mm_next (mq_qhead mq)) Hm Hi).
  set (mq1 := set_mq_pool _ mq).
  run_step (run_upd_obj (<[o := mq1]> m) s o (set_mq_qhead (Some i)) mq1 (lookup_insert_eq _ _ _)).
  rewrite insert_insert_eq. destruct (bool_decide (mq_qtail mq = None)).
  - run_step (run_upd_obj (<[o := set_mq_qhead (Some i) mq1]> m) s o (set_mq_qtail (Some i)) _ (lookup_insert_eq _ _ _)).
    rewrite insert_insert_eq.
    run_step (run_upd_obj (<[o := set_mq_qtail (Some i) (set_mq_qhead (Some i) mq1)]> m) s o
      (set_mq_entry (u16 (mq_entry mq + 1))) _ (lookup_insert_eq _ _ _)). by rewrite insert_insert_eq.
  - erewrite bind_Ok by reflexivity.
    run_step (run_upd_obj (<[o := set_mq_qhead (Some i) mq1]> m) s o
      (set_mq_entry (u16 (mq_entry mq + 1))) _ (lookup_insert_eq _ _ _)). by rewrite insert_insert_eq.
Qed.

Lemma mq_head_waiting o : waiting_head (mq_head o).
Proof. done. Qed.

Lemma run_mq_notify m s o :
  kinv s -> exists s', mq_notify o (m, s) = Ok RT_EOK (m, s') /\ woke_one (mq_head o) s s'.
Proof.
  intros I. unfold mq_notify. unfold get at 1. erewrite bind_Ok by reflexivity. cbn [snd].
  destruct (run_wake_one_of m s (mq_head o) I (mq_head_waiting o)) as (s' & Hr & Hw). run_step Hr. eauto.
Qed.

(** *** Unlinking the first message *)
Definition unlinked_first (i : nat) (msg : mq_message) (mq : rt_messagequeue) : rt_messagequeue :=
  let mq1 := set_mq_qhead (mm_next msg) mq in
  let mq2 := if bool_decide (mq_qtail mq = Some i) then set_mq_qtail None mq1 else mq1 in
  set_mq_entry (u16 (mq_entry mq - 1)) mq2.

Lemma unlinked_first_pool i msg mq : mq_pool (unlinked_first i msg mq) = mq_pool mq.
Proof. unfold unlinked_first. by destruct (bool_decide _). Qed.

Lemma unlinked_first_inv mq i q fr held msg :
  mq_inv mq (i :: q) fr held -> mq_pool mq !! i = Some msg ->
  mq_inv (unlinked_first i msg mq) q fr (i :: held).
Proof.
  intros W Hi. pose proof (mq_nodup _ _ _ _ W) as Hnd. pose proof (mq_entry_max _ _ _ _ W) as Hmax.
  destruct W as [[Eh (msg' & Hi' & Hc)] Ht Hf Hsl Hp He Hm]. rewrite Hi in Hi'. injection Hi' as <-.
  assert (u16 (mq_entry mq - 1) = Z.of_nat (length q)) as Ee.
  { rewrite He. simpl in *. rewrite u16_small; lia. }
  assert (q ++ fr ++ i :: held ≡ₚ seq 0 (Z.to_nat (mq_max_msgs mq))) as Es.
  { rewrite <- Hsl. symmetry. rewrite (app_assoc q fr (i :: held)), <- app_comm_cons, app_assoc. apply Permutation_middle. }
  unfold unlinked_first. destruct q as [|j q'].
  - simpl in Ht. rewrite Ht, bool_decide_eq_true_2 by done. by split.
  - rewrite bool_decide_eq_false_2; [split; simpl; try done|].
    rewrite Ht. change (last (i :: j :: q')) with (last (j :: q')). intros [= E].
    apply last_Some_elem_of in E. apply NoDup_cons in Hnd as [Hn _]. apply Hn. set_solver.
Qed.

Lemma run_mq_unlink m s o mq i q fr held msg :
  m !! o = Some mq -> mq_inv mq (i :: q) fr held -> mq_pool mq !! i = Some msg ->
  mq_unlink o (m, s) = Ok i (<[o := unlinked_first i msg mq]> m, s).
Proof.
  intros Hm W Hi. unfold mq_unlink, unlinked_first. run_step (run_get_obj m s o mq Hm).
  assert (deref (fun _ => mq_qhead mq) (m, s) = Ok i (m, s)) as E1
    by (unfold deref; by rewrite (chain_head _ _ _ (mi_queue _ _ _ _ W))).
  assert (deref (fun _ => mq_pool mq !! i) (m, s) = Ok msg (m, s)) as E2 by (unfold deref; by rewrite Hi).
  run_step E1. run_step E2. run_step (run_upd_obj m s o (set_mq_qhead (mm_next msg)) mq Hm).
  set (mq1 := set_mq_qhead _ mq). destruct (bool_decide _).
  - run_step (run_upd_obj (<[o := mq1]> m) s o (set_mq_qtail None) _ (lookup_insert_eq _ _ _)).
    rewrite insert_insert_eq.
    run_step (run_upd_obj (<[o := set_mq_qtail None mq1]> m) s o
      (set_mq_entry (u16 (mq_entry mq - 1))) _ (lookup_insert_eq _ _ _)). by rewrite insert_insert_eq.
  - erewrite bind_Ok by reflexivity.
    run_step (run_upd_obj (<[o := mq1]> m) s o
      (set_mq_entry (u16 (mq_entry mq - 1))) _ (lookup_insert_eq _ _ _)). by rewrite insert_insert_eq.
Qed.

(** *** Giving a slot back *)
Definition released (i : nat) (msg : mq_message) (mq : rt_messagequeue) : rt_messagequeue :=
  set_mq_qfree (Some i) (set_mq_pool (<[i := set_mm_next (mq_qfree mq) msg]>) mq).

Lemma released_inv mq q fr held i msg :
  mq_inv mq q fr (i :: held) -> mq_pool mq !! i = Some msg ->
  mq_inv (released i msg mq) q (i :: fr) held /\ mq_contents (released i msg mq) q = mq_contents mq q.
Proof.
  intros W Hi.
  destruct (mq_inv_write _ _ _ _ W i (set_mm_next (mq_qfree mq) msg)) as [[Hq Ht Hf Hsl Hp He Hm] Hc]; [left|].
  split; [|exact Hc]. split; simpl in *; try done.
  - split; [done|]. exists (set_mm_next (mq_qfree mq) msg). by rewrite lookup_insert_eq.
  - rewrite <- Hsl. apply Permutation_app_head. simpl. apply Permutation_middle.
Qed.

Lemma run_mq_release m s o mq i msg :
  m !! o = Some mq -> mq_pool mq !! i = Some msg ->
  mq_release o i (m, s) = Ok tt (<[o := released i msg mq]> m, s).
Proof.
  intros Hm Hi. unfold mq_release. run_step (run_get_obj m s o mq Hm).
  run_step (run_upd_msg m s o mq i msg (set_mm_next (mq_qfree mq)) Hm Hi). set (mq1 := set_mq_pool _ mq).
  rewrite (run_upd_obj (<[o := mq1]> m) s o (set_mq_qfree (Some i)) _ (lookup_insert_eq _ _ _)).
  by rewrite insert_insert_eq.
Qed.

(** ** The whole operations *)

Lemma contents_app mq q1 q2 : mq_contents mq (q1 ++ q2) = mq_contents mq q1 ++ mq_contents mq q2.
Proof. apply fmap_app. Qed.
Lemma contents_ext mq mq' q : (forall j, mq_data mq' j = mq_data mq j) -> mq_contents mq' q = mq_contents mq q.
Proof. intros H. apply list_fmap_ext. intros ? ? _. apply H. Qed.

(** Writing the held slot [i]: the invariant and the queued messages stay. *)
Lemma run_mq_write m s o mq q fr held i f :
  m !! o = Some mq -> mq_inv mq q fr (i :: held) ->
  exists msg mq', mq_pool mq !! i = Some msg /\ upd_msg o i f (m, s) = Ok tt (<[o := mq']> m, s) /\
    mq' = set_mq_pool (<[i := f msg]>) mq /\ mq_pool mq' !! i = Some (f msg) /\
    mq_inv mq' q fr (i :: held) /\ mq_contents mq' q = mq_contents mq q.
Proof.
  intros Hm W. destruct (mq_slot _ _ _ _ W i) as [msg Hi]; [set_solver|].
  exists msg, (set_mq_pool (<[i := f msg]>) mq). split_and!; [done|by apply run_upd_msg|done| |..].
  - simpl. apply lookup_insert_eq.
  - apply mq_inv_write; [done|left].
  - by apply (mq_inv_write _ _ _ _ W i); left.
Qed.

Lemma list_cases {A} (l : list A) : l = [] \/ exists x l', l = x :: l'.
Proof. destruct l; eauto. Qed.

Section mq.
Context (m : gmap nat rt_messagequeue) (s : kstate) (o : nat) (mq : rt_messagequeue).
Context (q fr held : list nat).
Context (Hm : m !! o = Some mq) (W : mq_inv mq q fr held) (I : kinv s).

(** A message was queued, at the end or at the front ([urgent]); its first
    bytes are the buffer, and the first waiting receiver was woken. *)
Definition message_queued (urgent : bool) (buffer : list Z) (st' : mq_state) : Prop :=
  exists mq' i fr' d, fr = i :: fr' /\ st'.1 = <[o := mq']> m /\
    mq_inv mq' (if urgent then i :: q else q ++ [i]) fr' held /\
    take (length buffer) d = buffer /\
    mq_contents mq' (if urgent then i :: q else q ++ [i])
      = (if urgent then d :: mq_contents mq q else mq_contents mq q ++ [d]) /\
    mq_msg_size mq' = mq_msg_size mq /\ woke_one (mq_head o) s st'.2.

(** [rt_mq_send] refuses a buffer larger than a message and a full queue,
    changing nothing; otherwise it appends the message to the queue, keeps the
    slot invariant, and wakes the first waiting receiver. *)
Theorem rt_mq_send_correct buffer :
  buffer ≠ [] ->
  exists r st', rt_mq_send o buffer (m, s) = Ok r st' /\
    if decide (mq_msg_size mq < Z.of_nat (length buffer)) then r = - RT_ERROR /\ st' = (m, s)
    else if decide (fr = []) then r = - RT_EFULL /\ st' = (m, s)
    else r = RT_EOK /\ message_queued false buffer st'.
Proof.
  intros Hb. unfold rt_mq_send. rewrite (bool_decide_eq_false_2 _ Hb). erewrite bind_Ok by reflexivity.
  run_step (run_get_obj m s o mq Hm). destruct (Z.ltb_spec (mq_msg_size mq) (Z.of_nat (length buffer))).
  { eexists _, _. split; [reflexivity|]. by case_decide; [|lia]. }
  case_decide; [lia|]. pose proof (run_mq_alloc m s o mq q fr held Hm W) as Ha.
  destruct (list_cases fr) as [Efr|(i & fr' & Efr)]; rewrite Efr in Ha.
  { run_step Ha. eexists _, _. split; [reflexivity|]. by case_decide. }
  case_decide; [congruence|].
  destruct Ha as (mq1 & Hr1 & W1 & Hc1 & Hs1 & Hf1 & Hp1). run_step Hr1.
  destruct (run_mq_write (<[o := mq1]> m) s o mq1 q fr' held i (set_mm_next None) (lookup_insert_eq _ _ _) W1)
    as (msg & mq2 & Hi1 & Hr2 & E2 & Hi2 & W2 & Hc2). run_step Hr2. rewrite insert_insert_eq.
  destruct (run_mq_write (<[o := mq2]> m) s o mq2 q fr' held i
    (fun msg => set_mm_data (buffer ++ drop (length buffer) (mm_data msg)) msg) (lookup_insert_eq _ _ _) W2)
    as (msg2 & mq3 & Hi2' & Hr3 & E3 & Hi3 & W3 & Hc3). unfold mq_fill. run_step Hr3. rewrite insert_insert_eq.
  rewrite (linked_tail_run _ s o mq3 q fr' held i (lookup_insert_eq _ _ _) W3), insert_insert_eq.
  destruct (run_mq_notify (<[o := linked_tail i mq3]> m) s o I) as (s' & Hr4 & Hw). rewrite Hr4.
  eexists _, _. split; [reflexivity|]. split; [done|].
  rewrite Hi2 in Hi2'. injection Hi2' as <-.
  exists (linked_tail i mq3), i, fr', (buffer ++ drop (length buffer) (mm_data msg)). split_and!; try done.
  - by eapply linked_tail_inv.
  - by rewrite take_app_length.
  - rewrite (contents_ext mq3) by (intros; apply linked_tail_data). rewrite contents_app, Hc3, Hc2, Hc1.
    f_equal. unfold mq_contents, mq_data. simpl. by rewrite Hi3.
  - subst mq3 mq2. unfold linked_tail. simpl. repeat case_match; done.
Qed.

(** [rt_mq_urgent] refuses as [rt_mq_send] does, and otherwise puts the
    message in front of all queued ones. *)
Theorem rt_mq_urgent_correct buffer :
  buffer ≠ [] ->
  exists r st', rt_mq_urgent o buffer (m, s) = Ok r st' /\
    if decide (mq_msg_size mq < Z.of_nat (length buffer)) then r = - RT_ERROR /\ st' = (m, s)
    else if decide (fr = []) then r = - RT_EFULL /\ st' = (m, s)
    else r = RT_EOK /\ message_queued true buffer st'.
Proof.
  intros Hb. unfold rt_mq_urgent. rewrite (bool_decide_eq_false_2 _ Hb). erewrite bind_Ok by reflexivity.
  run_step (run_get_obj m s o mq Hm). destruct (Z.ltb_spec (mq_msg_size mq) (Z.of_nat (length buffer))).
  { eexists _, _. split; [reflexivity|]. by case_decide; [|lia]. }
  case_decide; [lia|]. pose proof (run_mq_alloc m s o mq q fr held Hm W) as Ha.
  destruct (list_cases fr) as [Efr|(i & fr' & Efr)]; rewrite Efr in Ha.
  { run_step Ha. eexists _, _. split; [reflexivity|]. by case_decide. }
  case_decide; [congruence|].
  destruct Ha as (mq1 & Hr1 & W1 & Hc1 & Hs1 & Hf1 & Hp1). run_step Hr1.
  destruct (run_mq_write (<[o := mq1]> m) s o mq1 q fr' held i
    (fun msg => set_mm_data (buffer ++ drop (length buffer) (mm_data msg)) msg) (lookup_insert_eq _ _ _) W1)
    as (msg & mq2 & Hi1 & Hr2 & E2 & Hi2 & W2 & Hc2). unfold mq_fill. run_step Hr2. rewrite insert_insert_eq.
  rewrite (linked_head_run _ s o mq2 i _ (lookup_insert_eq _ _ _) Hi2), insert_insert_eq.
  set (msg2 := set_mm_data _ msg) in *.
  destruct (run_mq_notify (<[o := linked_head i msg2 mq2]> m) s o I) as (s' & Hr3 & Hw). rewrite Hr3.
  eexists _, _. split; [reflexivity|]. split; [done|].
  exists (linked_head i msg2 mq2), i, fr', (buffer ++ drop (length buffer) (mm_data msg)). split_and!; try done.
  - by eapply linked_head_inv.
  - by rewrite take_app_length.
  - rewrite (contents_ext mq2) by (intros; by apply linked_head_data).
    change (mq_contents mq2 (i :: q)) with (mq_data mq2 i :: mq_contents mq2 q).
    rewrite Hc2, Hc1. f_equal. unfold mq_data. by rewrite Hi2.
  - subst mq2. unfold linked_head. simpl. repeat case_match; done.
Qed.

(** The first message was taken off the queue and its slot freed. *)
Definition message_taken (size : Z) (data : list Z) (st' : mq_state) : Prop :=
  exists mq' i q' d, q = i :: q' /\ st' = (<[o := mq']> m, s) /\ mq_inv mq' q' (i :: fr) held /\
    mq_contents mq q = d :: mq_contents mq' q' /\ data = take (Z.to_nat (Z.min size (mq_msg_size mq))) d.

Lemma run_mq_take size i q' :
  q = i :: q' ->
  exists data st', (i ← mq_unlink o; data ← mq_copy o i size; mq_release o i;; mret (Return (RT_EOK, Some data)))
      (m, s) = Ok (@Return wait_locals _ (RT_EOK, Some data)) st' /\ message_taken size data st'.
Proof.
  intros Eq. pose proof W as W0. rewrite Eq in W0. destruct (mq_slot _ _ _ _ W0 i) as [msg Hi]; [set_solver|].
  run_step (run_mq_unlink m s o mq i q' fr held msg Hm W0 Hi).
  pose proof (unlinked_first_inv _ _ _ _ _ _ W0 Hi) as W1. set (mq1 := unlinked_first i msg mq) in *.
  assert (mq_pool mq1 !! i = Some msg) as Hi1 by (unfold mq1; by rewrite unlinked_first_pool).
  assert (mq_msg_size mq1 = mq_msg_size mq) as Hsz by (unfold mq1, unlinked_first; by destruct (bool_decide _)).
  assert (mq_copy o i size (<[o := mq1]> m, s)
    = Ok (take (Z.to_nat (if mq_msg_size mq <? size then mq_msg_size mq else size)) (mm_data msg)) (<[o := mq1]> m, s)) as Ec.
  { unfold mq_copy. run_step (run_get_obj (<[o := mq1]> m) s o mq1 (lookup_insert_eq _ _ _)).
    unfold deref. rewrite Hi1. by rewrite Hsz. }
  run_step Ec. run_step (run_mq_release (<[o := mq1]> m) s o mq1 i msg (lookup_insert_eq _ _ _) Hi1).
  rewrite insert_insert_eq. destruct (released_inv _ _ _ _ _ _ W1 Hi1) as [W2 Hc].
  eexists _, _. split; [reflexivity|]. exists (released i msg mq1), i, q', (mm_data msg). split_and!; try done.
  - rewrite Hc, Eq. unfold mq_contents. simpl. f_equal; [unfold mq_data; by rewrite Hi|].
    apply list_fmap_ext. intros ? ? _. unfold mq_data, mq1. by rewrite unlinked_first_pool.
  - do 2 f_equal. destruct (Z.ltb_spec (mq_msg_size mq) size); lia.
Qed.

(** [rt_mq_recv] returns the first message of the queue (as many bytes as
    both the message and the buffer have) and frees its slot; an empty queue
    refuses with [-RT_ETIMEOUT] when there is no waiting time, changing
    nothing, and otherwise puts the caller to sleep. *)
Theorem rt_mq_recv_correct size timeout t th :
  size ≠ 0 ->
  (q = [] -> timeout ≠ 0 -> blocking_ctx s t th /\ ipc_flag (mq_flag mq) /\ timeout < RT_TICK_MAX / 2) ->
  exists r st', rt_mq_recv o size timeout (m, s) = Ok r st' /\
    if decide (q = []) then
      if decide (timeout = 0) then r = Return (- RT_ETIMEOUT, None) /\ st' = (m, s)
      else r = Waiting (mk_wait t timeout (if 0 <? timeout then k_tick s else 0)) /\ st'.1 = m /\
        entered_wait (mq_head o) t (set_th_error RT_EOK th) (mq_flag mq) timeout
          (set_k_threads (<[t := set_th_error RT_EOK th]>) s) st'.2
    else exists data, r = Return (RT_EOK, Some data) /\ message_taken size data st'.
Proof.
  intros Hsz Hb. pose proof (mi_entry _ _ _ _ W) as He. unfold rt_mq_recv.
  rewrite (proj2 (Z.eqb_neq _ _) Hsz). erewrite bind_Ok by reflexivity. erewrite bind_Ok by reflexivity.
  run_step (run_get_obj m s o mq Hm). case_decide as Hq.
  - assert ((mq_entry mq =? 0) = true) as E0 by (apply Z.eqb_eq; by rewrite He, Hq). rewrite E0. simpl.
    case_decide as Hz; [subst timeout; by eexists _, _|]. rewrite (proj2 (Z.eqb_neq _ _) Hz).
    destruct (Hb Hq Hz) as (B & Hf & Htime). pose proof (proj1 (bc_ready _ _ _ B)) as Ht.
    unfold mq_recv_loop. run_step (run_get_obj m s o mq Hm). rewrite E0.
    run_step (run_on_snd _ m _ _ _ (run_in_thread_context _ _ _ B)).
    unfold deref at 1. rewrite (bc_current _ _ _ B). erewrite bind_Ok by reflexivity.
    run_step (run_on_snd _ m _ _ _ (run_upd_thread s t (set_th_error RT_EOK) th Ht)).
    rewrite (proj2 (Z.eqb_neq _ _) Hz). pose proof (blocking_ctx_set_error _ _ _ RT_EOK B) as B0.
    erewrite bind_Ok by reflexivity.
    destruct (run_wait_entered _ (mq_head o) t _ (mq_flag mq) timeout B0 eq_refl (mq_head_waiting o) Hf Htime)
      as (s' & Hr & Hw). run_step (run_on_snd _ m _ _ _ Hr). eexists _, _. split; [reflexivity|]. done.
  - assert ((mq_entry mq =? 0) = false) as E0
      by (apply Z.eqb_neq; rewrite He; destruct (list_cases q) as [?|(? & ? & ->)]; [done|simpl; lia]). rewrite E0. simpl.
    unfold mq_recv_loop. run_step (run_get_obj m s o mq Hm). rewrite E0.
    destruct (list_cases q) as [?|(i & q' & Eq)]; [done|]. destruct (run_mq_take size i q' Eq) as (data & st' & Hr & Ht).
    eexists _, _. split; [exact Hr|]. by exists data.
Qed.
End mq.

(** ** Initialisation and reset *)

Lemma mq_free_list_chain mem n :
  chain (mq_free_list mem n).1 (mq_free_list mem n).2 (rev (seq 0 n)) /\
  (forall i, i ∈ seq 0 n -> is_Some ((mq_free_list mem n).1 !! i)).
Proof.
  induction n as [|n [IHc IHp]]; [split; [done|set_solver]|].
  rewrite seq_S, rev_app_distr. simpl. destruct (mq_free_list mem n) as [pool free]. simpl in *. split.
  - split; [done|]. exists (mk_msg free (mem n)). rewrite lookup_insert_eq. split; [done|]. simpl.
    apply chain_other; [|done]. rewrite list_elem_of_In, <- in_rev, <- list_elem_of_In, elem_of_seq. lia.
  - intros i Hi. destruct (decide (n = i)) as [->|Hne]; [rewrite lookup_insert_eq; eauto|].
    rewrite lookup_insert_ne by done. apply IHp. rewrite elem_of_app, elem_of_seq in Hi. rewrite elem_of_seq. set_solver by lia.
Qed.

(** A new queue: no message, every slot free. *)
Lemma empty_mq_inv mem msg_size max flag :
  0 <= max < 65536 -> mq_inv (empty_mq mem msg_size max flag) [] (rev (seq 0 (Z.to_nat max))) [].
Proof.
  intros Hm. destruct (mq_free_list_chain mem (Z.to_nat max)) as [Hc Hp]. unfold empty_mq.
  destruct (mq_free_list mem (Z.to_nat max)) as [pool free]. simpl in *. split; simpl; try done.
  rewrite app_nil_r. symmetry. apply Permutation_rev.
Qed.

(** One round of the loop of [rt_mq_control]; the entry count is only reset
    after the loop. *)
Definition flushed_first (i : nat) (msg : mq_message) (mq : rt_messagequeue) : rt_messagequeue :=
  set_mq_entry (mq_entry mq) (released i msg (unlinked_first i msg mq)).

Lemma run_mq_flush_round m s o mq i msg fuel :
  m !! o = Some mq -> mq_qhead mq = Some i -> mq_pool mq !! i = Some msg ->
  mq_flush (S fuel) o (m, s) = mq_flush fuel o (<[o := flushed_first i msg mq]> m, s).
Proof.
  intros Hm Hh Hi. simpl mq_flush at 1. run_step (run_get_obj m s o mq Hm). rewrite Hh.
  assert (deref (fun _ => mq_pool mq !! i) (m, s) = Ok msg (m, s)) as E1 by (unfold deref; by rewrite Hi).
  run_step E1. run_step (run_upd_obj m s o (set_mq_qhead (mm_next msg)) mq Hm).
  unfold flushed_first, released, unlinked_first. set (mq1 := set_mq_qhead (mm_next msg) mq).
  assert (exists mq2, (if bool_decide (mq_qtail mq = Some i) then upd_obj o (set_mq_qtail None) else mret tt)
      (<[o := mq1]> m, s) = Ok tt (<[o := mq2]> m, s) /\
    mq2 = if bool_decide (mq_qtail mq = Some i) then set_mq_qtail None mq1 else mq1) as (mq2 & E2 & Emq2).
  { destruct (bool_decide _); [|by exists mq1]. eexists. split; [|done].
    rewrite (run_upd_obj (<[o := mq1]> m) s o (set_mq_qtail None) mq1 (lookup_insert_eq _ _ _)).
    by rewrite insert_insert_eq. }
  run_step E2. rewrite <- Emq2.
  assert (mq_pool mq2 !! i = Some msg) as Hi2 by (rewrite Emq2; by destruct (bool_decide _)).
  assert (mq_entry mq2 = mq_entry mq /\ mq_qfree mq2 = mq_qfree mq) as [Ee Ef] by (rewrite Emq2; by destruct (bool_decide _)).
  run_step (run_upd_msg (<[o := mq2]> m) s o mq2 i msg (set_mm_next (mq_qfree mq)) (lookup_insert_eq _ _ _) Hi2).
  rewrite insert_insert_eq. set (mq3 := set_mq_pool _ mq2).
  run_step (run_upd_obj (<[o := mq3]> m) s o (set_mq_qfree (Some i)) mq3 (lookup_insert_eq _ _ _)).
  rewrite insert_insert_eq. do 3 f_equal. unfold mq3. rewrite <- Ef. clear - Ee. destruct mq2. simpl in *. by subst.
Qed.

(** Emptying the queue ends, and moves every queued slot to the free list. *)
Lemma run_mq_flush q : forall m s o mq fr held fuel,
  m !! o = Some mq -> mq_inv (set_mq_entry (Z.of_nat (length q)) mq) q fr held -> (length q <= fuel)%nat ->
  exists mq' fr', mq_flush fuel o (m, s) = Ok tt (<[o := mq']> m, s) /\ mq_inv (set_mq_entry 0 mq') [] fr' held.
Proof.
  induction q as [|i q IH]; intros m s o mq fr held fuel Hm W Hlen.
  - exists mq, fr. rewrite insert_id by done. split; [|exact W].
    destruct fuel; simpl; run_step (run_get_obj m s o mq Hm); by rewrite (mi_queue _ _ _ _ W : mq_qhead mq = None).
  - destruct fuel as [|fuel]; [simpl in Hlen; lia|].
    destruct (mq_slot _ _ _ _ W i) as [msg Hi]; [set_solver|]. simpl in Hi.
    rewrite (run_mq_flush_round m s o mq i msg fuel Hm (chain_head _ _ _ (mi_queue _ _ _ _ W)) Hi).
    pose proof (unlinked_first_inv _ _ _ _ _ _ W Hi) as W1.
    destruct (released_inv _ _ _ _ _ msg W1) as [W2 _]; [by rewrite unlinked_first_pool|].
    destruct (IH (<[o := flushed_first i msg mq]> m) s o (flushed_first i msg mq) (i :: fr) held fuel) as (mq' & fr' & Hr & W').
    + apply lookup_insert_eq.
    + assert (set_mq_entry (Z.of_nat (length q)) (flushed_first i msg mq)
        = released i msg (unlinked_first i msg (set_mq_entry (Z.of_nat (length (i :: q))) mq))) as ->; [|exact W2].
      pose proof (mi_entry _ _ _ _ W1) as He. rewrite <- He.
      unfold flushed_first, released, unlinked_first in *. simpl in *. by destruct (bool_decide _).
    + simpl in Hlen. lia.
    + exists mq', fr'. rewrite Hr, insert_insert_eq. done.
Qed.

(** Resetting a message queue ends with every waiting thread failed, no
    message queued and every slot free or held. *)
Theorem rt_mq_control_correct m s o mq q fr held cmd arg u uh :
  m !! o = Some mq -> mq_inv mq q fr held -> kinv s -> ready s u uh ->
  exists r st', rt_mq_control o cmd arg (m, s) = Ok r st' /\
    if decide (cmd = RT_IPC_CMD_RESET) then
      r = RT_EOK /\ exists mq' fr' s1, st' = (<[o := mq']> m, scheduled s1) /\
        mq_inv mq' [] fr' held /\ all_failed (mq_head o) (tl s (mq_head o)) s s1
    else r = - RT_ERROR /\ st' = (m, s).
Proof.
  intros Hm W I [Hu Hus]. unfold rt_mq_control. case_decide as Hc.
  2:{ rewrite (proj2 (Z.eqb_neq _ _) Hc). by eexists _, _. }
  rewrite (proj2 (Z.eqb_eq _ _) Hc).
  destruct (run_ipc_list_resume_all s (mq_head o) I (mq_head_waiting o)) as (s1 & Hr & Ha).
  run_step (run_on_snd _ m _ _ _ Hr). run_step (run_get_obj m s1 o mq Hm).
  destruct (run_mq_flush q m s1 o mq fr held (Z.to_nat (mq_max_msgs mq)) Hm) as (mq' & fr' & Hf & W').
  { rewrite <- (mi_entry _ _ _ _ W). by destruct mq. }
  { pose proof (mq_entry_max _ _ _ _ W). lia. }
  run_step Hf. run_step (run_upd_obj (<[o := mq']> m) s1 o (set_mq_entry 0) mq' (lookup_insert_eq _ _ _)).
  rewrite insert_insert_eq.
  assert (exists u' uh', ready s1 u' uh') as (u' & uh' & Hu').
  { destruct (decide (u ∈ tl s (mq_head o))) as [Hin|Hn].
    - eexists _, _. by apply (af_woken _ _ _ _ Ha u uh).
    - exists u, uh. split; [|done]. by rewrite (af_others _ _ _ _ Ha). }
  run_step (run_on_snd _ (<[o := set_mq_entry 0 mq']> m) _ _ _ (run_schedule _ _ _ (af_inv _ _ _ _ Ha) Hu')).
  eexists _, _. split; [reflexivity|]. split; [done|]. by exists (set_mq_entry 0 mq'), fr', s1.
Qed.

(** ** Interleaved senders and receivers

    Any number of senders and receivers run their phases in any order; a slot
    between two phases belongs to the call that holds it, which writes it as it
    likes.  [held] records those slots. *)

Inductive mq_event := Enq (d : list Z) | EnqHead (d : list Z) | Deq (d : list Z) | Quiet.

Definition mq_conf : Type := mq_state * list nat.

Inductive mq_step (o : nat) : mq_conf -> mq_event -> mq_conf -> Prop :=
| mq_step_alloc st held i st' :
    mq_alloc o st = Ok (Some i) st' -> mq_step o (st, held) Quiet (st', i :: held)
| mq_step_full st held st' :
    mq_alloc o st = Ok None st' -> mq_step o (st, held) Quiet (st', held)
| mq_step_write st held i f st' :
    upd_msg o i f st = Ok tt st' -> mq_step o (st, i :: held) Quiet (st', i :: held)
| mq_step_link st held i mq msg r st' :
    st.1 !! o = Some mq -> mq_pool mq !! i = Some msg -> mm_next msg = None ->
    mq_link o i st = Ok r st' -> mq_step o (st, i :: held) (Enq (mm_data msg)) (st', held)
| mq_step_link_head st held i mq msg r st' :
    st.1 !! o = Some mq -> mq_pool mq !! i = Some msg ->
    mq_link_head o i st = Ok r st' -> mq_step o (st, i :: held) (EnqHead (mm_data msg)) (st', held)
| mq_step_unlink st held i mq msg st' :
    st.1 !! o = Some mq -> mq_pool mq !! i = Some msg -> mq_entry mq ≠ 0 ->
    mq_unlink o st = Ok i st' -> mq_step o (st, held) (Deq (mm_data msg)) (st', i :: held)
| mq_step_release st held i st' :
    mq_release o i st = Ok tt st' -> mq_step o (st, i :: held) Quiet (st', held)
| mq_step_swap st held held' : held ≡ₚ held' -> mq_step o (st, held) Quiet (st, held')
| mq_step_kernel m s s' held : mq_step o ((m, s), held) Quiet ((m, s'), held).

Inductive mq_steps (o : nat) : mq_conf -> list mq_event -> mq_conf -> Prop :=
| mq_steps_nil c : mq_steps o c [] c
| mq_steps_snoc c c' c'' tr e :
    mq_steps o c tr c' -> mq_step o c' e c'' -> mq_steps o c (tr ++ [e]) c''.

(** The abstract queue. *)
Definition queue_event (e : mq_event) (c : list (list Z)) : option (list (list Z)) :=
  match e with
  | Enq d => Some (c ++ [d])
  | EnqHead d => Some (d :: c)
  | Deq d => match c with x :: c => if decide (x = d) then Some c else None | [] => None end
  | Quiet => Some c
  end.
Definition replay (tr : list mq_event) (c : list (list Z)) : option (list (list Z)) :=
  foldl (fun oc e => oc ≫= queue_event e) (Some c) tr.

Lemma mq_notify_store o st r st' : mq_notify o st = Ok r st' -> st'.1 = st.1.
Proof.
  unfold mq_notify. intros H. run_inv H. injection E as <- <-. run_inv H. injection H as <- <-.
  destruct (negb _); [by apply on_snd_inv in E as [-> _]|by injection E as _ <-].
Qed.

(** Every phase keeps the invariant and does to the contents what the abstract
    queue does. *)
Lemma mq_step_refines o c e c' mq q fr :
  mq_step o c e c' -> c.1.1 !! o = Some mq -> mq_inv mq q fr c.2 ->
  exists mq' q' fr', c'.1.1 !! o = Some mq' /\ mq_inv mq' q' fr' c'.2 /\
    queue_event e (mq_contents mq q) = Some (mq_contents mq' q').
Proof.
  intros Hst Hm W.
  destruct Hst as [[m s] held i st' H|[m s] held st' H|[m s] held i f st' H|[m s] held i mq' msg r st' Hm' Hi Hn H
    |[m s] held i mq' msg r st' Hm' Hi H|[m s] held i mq' msg st' Hm' Hi He H|[m s] held i st' H|[m s] held held' Hp|m s s' held];
    simpl in *; try (rewrite Hm in Hm'; injection Hm' as <-).
  - pose proof (run_mq_alloc m s o mq q fr held Hm W) as Ha. destruct fr as [|j fr']; [congruence|].
    destruct Ha as (mq1 & Hr & W1 & Hc & _). rewrite H in Hr. injection Hr as -> ->.
    exists mq1, q, fr'. rewrite Hc. split; [apply lookup_insert_eq|done].
  - pose proof (run_mq_alloc m s o mq q fr held Hm W) as Ha. destruct fr as [|j fr'].
    + rewrite H in Ha. injection Ha as ->. by exists mq, q, [].
    + destruct Ha as (mq1 & Hr & _). congruence.
  - destruct (run_mq_write m s o mq q fr held i f Hm W) as (msg & mq1 & _ & Hr & _ & _ & W1 & Hc).
    rewrite H in Hr. injection Hr as ->. exists mq1, q, fr. rewrite Hc. split; [apply lookup_insert_eq|done].
  - rewrite (linked_tail_run m s o mq q fr held i Hm W) in H. apply mq_notify_store in H. simpl in H. rewrite H.
    exists (linked_tail i mq), (q ++ [i]), fr. split; [apply lookup_insert_eq|]. split; [by eapply linked_tail_inv|].
    f_equal. rewrite (contents_ext mq (linked_tail i mq)) by (intros; apply linked_tail_data). rewrite contents_app. f_equal.
    unfold mq_contents, mq_data. simpl. by rewrite Hi.
  - rewrite (linked_head_run m s o mq i msg Hm Hi) in H. apply mq_notify_store in H. simpl in H. rewrite H.
    exists (linked_head i msg mq), (i :: q), fr. split; [apply lookup_insert_eq|]. split; [by eapply linked_head_inv|].
    f_equal. rewrite (contents_ext mq (linked_head i msg mq)) by (intros; by apply linked_head_data). unfold mq_contents. simpl. f_equal.
    unfold mq_data. by rewrite Hi.
  - rewrite (mi_entry _ _ _ _ W) in He. destruct q as [|j q']; [done|].
    destruct (mq_slot _ _ _ _ W j) as [mj Hj]; [set_solver|].
    rewrite (run_mq_unlink m s o mq j q' fr held mj Hm W Hj) in H. injection H as <- <-. rewrite Hi in Hj. injection Hj as <-.
    exists (unlinked_first j msg mq), q', fr. split; [apply lookup_insert_eq|]. split; [by eapply unlinked_first_inv|].
    unfold mq_contents. simpl. rewrite decide_True by (unfold mq_data; by rewrite Hi). f_equal.
    apply list_fmap_ext. intros ? ? _. unfold mq_data. by rewrite unlinked_first_pool.
  - destruct (mq_slot _ _ _ _ W i) as [msg Hi]; [set_solver|].
    rewrite (run_mq_release m s o mq i msg Hm Hi) in H. injection H as <-.
    destruct (released_inv _ _ _ _ _ _ W Hi) as [W1 Hc]. exists (released i msg mq), q, (i :: fr).
    rewrite Hc. split; [apply lookup_insert_eq|done].
  - exists mq, q, fr. split; [done|]. split; [by eapply mq_inv_held|done].
  - by exists mq, q, fr.
Qed.

(** C10: whatever the interleaving of the phases of senders and receivers, every
    slot is queued, free or held exactly once, head, tail and entry count agree
    with the queue, and the queue holds exactly the messages that the abstract
    queue holds after the same events: messages leave in the order in which
    they were linked, urgent ones in front. *)
Theorem mq_interleaving o c0 tr c mq0 q0 fr0 :
  c0.1.1 !! o = Some mq0 -> mq_inv mq0 q0 fr0 c0.2 -> mq_steps o c0 tr c ->
  exists mq q fr, c.1.1 !! o = Some mq /\ mq_inv mq q fr c.2 /\
    replay tr (mq_contents mq0 q0) = Some (mq_contents mq q).
Proof.
  intros Hm W Hst. induction Hst as [c|c c' c'' tr e Hs IH He].
  - by exists mq0, q0, fr0.
  - destruct (IH Hm W) as (mq & q & fr & Hl & W1 & Hr).
    destruct (mq_step_refines _ _ _ _ _ _ _ He Hl W1) as (mq' & q' & fr' & Hl' & W' & Hq).
    exists mq', q', fr'. split; [done|]. split; [done|]. unfold replay in *. rewrite foldl_app. simpl. by rewrite Hr.
Qed.

(** ** Witnesses *)

Definition demo_queue : rt_messagequeue := empty_mq (fun _ => [0; 0; 0; 0]) 4 2 RT_IPC_FLAG_FIFO.
Definition demo_mq : gmap nat rt_messagequeue := {[1%nat := demo_queue]}.

Lemma demo_queue_inv : mq_inv demo_queue [] [1%nat; 0%nat] [].
Proof. apply (empty_mq_inv _ 4 2). lia. Qed.

Lemma rt_mq_send_correct_witness :
  exists st', rt_mq_send 1 [7; 8] (demo_mq, demo) = Ok RT_EOK st' /\ exists mq' d, st'.1 !! 1%nat = Some mq' /\
    mq_contents mq' [1%nat] = [d] /\ take 2 d = [7; 8].
Proof.
  destruct (rt_mq_send_correct demo_mq demo 1 demo_queue [] [1%nat; 0%nat] [] eq_refl demo_queue_inv demo_kinv [7; 8])
    as (r & st' & E & H); [discriminate|].
  destruct (decide _) as [Hlt|_]; [exfalso; revert Hlt; vm_compute; discriminate|]. simpl in H.
  destruct H as (-> & mq' & i & fr' & d & Ef & E1 & W & Hd & Hc & _). injection Ef as <- <-.
  exists st'. split; [exact E|]. exists mq', d. rewrite E1. split; [apply lookup_insert_eq|]. split; [exact Hc|exact Hd].
Defined.

Lemma rt_mq_urgent_correct_witness :
  exists st', rt_mq_urgent 1 [7; 8] (demo_mq, demo) = Ok RT_EOK st'.
Proof.
  destruct (rt_mq_urgent_correct demo_mq demo 1 demo_queue [] [1%nat; 0%nat] [] eq_refl demo_queue_inv demo_kinv [7; 8])
    as (r & st' & E & H); [discriminate|].
  destruct (decide _) as [Hlt|_]; [exfalso; revert Hlt; vm_compute; discriminate|]. simpl in H.
  destruct H as (-> & _). exists st'. exact E.
Defined.

Lemma rt_mq_recv_correct_witness :
  exists st', rt_mq_recv 1 4 (-1) (demo_mq, demo) = Ok (Waiting (mk_wait 1 (-1) 0)) st'.
Proof.
  destruct (rt_mq_recv_correct demo_mq demo 1 demo_queue [] [1%nat; 0%nat] [] eq_refl demo_queue_inv demo_kinv 4 (-1) 1
    (thread_at demo 1)) as (r & st' & E & H).
  - discriminate.
  - intros _ _. split; [apply demo_ctx|]. split; [left; reflexivity|reflexivity].
  - simpl in H. destruct H as (-> & _). exists st'. exact E.
Defined.

(** Two senders interleave: both allocate, the second links first. *)
Definition demo_link (i : nat) : M mq_state unit := upd_msg 1 i (set_mm_next None).
Definition demo_c1 : mq_state := run (mq_alloc 1) (demo_mq, demo).
Definition demo_c2 : mq_state := run (mq_alloc 1) demo_c1.
Definition demo_c3 : mq_state := run (demo_link 0) demo_c2.
Definition demo_c4 : mq_state := run (mq_link 1 0) demo_c3.

Lemma mq_interleaving_witness :
  exists mq q fr, demo_c4.1 !! 1%nat = Some mq /\ mq_inv mq q fr [1%nat] /\ mq_contents mq q = [[0; 0; 0; 0]].
Proof.
  destruct (mq_interleaving 1 ((demo_mq, demo), []) [Quiet; Quiet; Quiet; Enq [0; 0; 0; 0]] (demo_c4, [1%nat])
    demo_queue [] [1%nat; 0%nat] eq_refl demo_queue_inv) as (mq & q & fr & Hl & W & Hr).
  - apply (mq_steps_snoc _ _ (demo_c3, [0%nat; 1%nat]) _ [Quiet; Quiet; Quiet] (Enq [0; 0; 0; 0])).
    + apply (mq_steps_snoc _ _ (demo_c2, [0%nat; 1%nat]) _ [Quiet; Quiet] Quiet).
      * apply (mq_steps_snoc _ _ (demo_c1, [1%nat]) _ [Quiet] Quiet).
        -- apply (mq_steps_snoc _ _ ((demo_mq, demo), []) _ [] Quiet); [constructor|].
           apply mq_step_alloc. apply (ret_Ok (mq_alloc 1)). vm_compute. reflexivity.
        -- apply mq_step_alloc. apply (ret_Ok (mq_alloc 1)). vm_compute. reflexivity.
      * eapply mq_step_write. apply (ret_Ok (demo_link 0)). vm_compute. reflexivity.
    + apply (mq_step_link 1 demo_c3 [1%nat] 0 (default demo_queue (demo_c3.1 !! 1%nat)) (mk_msg None [0; 0; 0; 0]) RT_EOK).
      * vm_compute. reflexivity.
      * vm_compute. reflexivity.
      * reflexivity.
      * apply (ret_Ok (mq_link 1 0) demo_c3). vm_compute. reflexivity.
  - exists mq, q, fr. split; [exact Hl|]. split; [exact W|]. simpl in Hr. injection Hr as Hr. symmetry. exact Hr.
Defined.
