(* ===== verification/Mempool.v ===== *)
(** * Memory pools: src/mempool.c

    Blocks of equal size, each with a header word: the next free block while
    the block is free, the pool while it is allocated.  Threads wait for a
    block in the list of the pool. *)

From S2P Require Import Prelude Kernel Object Timer Scheduler Thread KInv ThreadSpec Ipc Semaphore Mailbox MsgQueue TimerSpec.

(** The header word of a block; blocks are named by their index. *)
Inductive mp_header :=
| FreeNext (next : option nat)
| PoolOf (o : nat).

(** [struct rt_mempool]; the waiting list is [mp_head]. *)
Record rt_mempool := mk_mp {
  mp_blocks : gmap nat mp_header;       (**  the memory at start_address *)
  mp_size : Z;
  mp_block_size : Z;
  mp_block_list : option nat;
  mp_total_count : Z;
  mp_free_count : Z;
  mp_suspend_count : Z
}.

Definition set_mp_suspend_count (v : Z) (x : rt_mempool) : rt_mempool :=
  mk_mp (mp_blocks x) (mp_size x) (mp_block_size x) (mp_block_list x) (mp_total_count x) (mp_free_count x) v.

Definition mp_state : Type := gmap nat rt_mempool * kstate.
Definition mp_ref (o : nat) : obj_ref := Obj RT_Object_Class_MemPool o.
Definition mp_head (o : nat) : tlist_head := HSuspend RT_Object_Class_MemPool o.

Definition sizeof_ptr : Z := 4.

(** The loop that links every block to the one behind it, then the store that
    ends the list: with no block it writes in front of the pool. *)
Definition mp_free_list (total : nat) : gmap nat mp_header :=
  foldr (fun i m => <[i := FreeNext (Some (S i))]> m) ∅ (seq 0 total).
Definition mp_link_blocks (total : Z) : M mp_state (gmap nat mp_header) :=
  rt_assert (0 <? total);;
  mret (<[Z.to_nat (total - 1) := FreeNext None]> (mp_free_list (Z.to_nat total))).

Definition new_mp (blocks : gmap nat mp_header) (size block_size total : Z) : rt_mempool :=
  mk_mp blocks size block_size (Some 0%nat) total total 0.

Definition rt_mp_init (o : nat) (name : list Z) (size block_size : Z) : M mp_state Z :=
  on_snd (rt_object_init (mp_ref o) name);;
  let size := RT_ALIGN_DOWN size RT_ALIGN_SIZE in
  let block_size := RT_ALIGN block_size RT_ALIGN_SIZE in
  let total := size / u32 (block_size + sizeof_ptr) in
  on_snd (rt_ipc_object_init (mp_head o));;
  blocks ← mp_link_blocks total;
  put_obj o (new_mp blocks size block_size total);;
  mret RT_EOK.

(** The loop that wakes every waiting thread, which [rt_mp_detach] and
    [rt_mp_delete] share; more rounds than threads mean that it does not end. *)
Fixpoint mp_wake_all (fuel : nat) (o : nat) : M mp_state unit :=
  st ← get;
  match tl st.2 (mp_head o), fuel with
  | [], _ => mret tt
  | _ :: _, O => fault
  | t :: _, S fuel =>
      on_snd (upd_thread t (set_th_error (- RT_ERROR)));;
      on_snd (rt_thread_resume t);;
      upd_obj o (fun mp => set_mp_suspend_count (u32 (mp_suspend_count mp - 1)) mp);;
      mp_wake_all fuel o
  end.

Definition rt_mp_detach (o : nat) : M mp_state Z :=
  st ← get;
  mp_wake_all (length (tl st.2 (mp_head o))) o;;
  on_snd (rt_object_detach (mp_ref o));;
  mret RT_EOK.

(** [mem] and [pool] are the results of the two allocations. *)
Definition rt_mp_create (mem : option nat) (pool : bool) (name : list Z) (block_count block_size : Z)
    : M mp_state (option nat) :=
  on_snd RT_DEBUG_NOT_IN_INTERRUPT;;
  r ← on_snd (rt_object_allocate RT_Object_Class_MemPool mem name);
  match r with
  | None => mret None
  | Some o =>
      let block_size := RT_ALIGN block_size RT_ALIGN_SIZE in
      let size := u32 (u32 (block_size + sizeof_ptr) * block_count) in
      if negb pool then on_snd (rt_object_delete (mp_ref o));; mret None
      else
        on_snd (rt_ipc_object_init (mp_head o));;
        blocks ← mp_link_blocks block_count;
        put_obj o (new_mp blocks size block_size block_count);;
        mret (Some o)
  end.

Definition rt_mp_delete (o : nat) : M mp_state Z :=
  on_snd RT_DEBUG_NOT_IN_INTERRUPT;;
  st ← get;
  mp_wake_all (length (tl st.2 (mp_head o))) o;;
  on_snd (rt_object_delete (mp_ref o));;
  del_obj o;;
  mret RT_EOK.

(** After the loop of [rt_mp_alloc]: take the first free block. *)
Definition mp_take (o : nat) : M mp_state nat :=
  mp ← get_obj o;
  i ← deref (fun _ => mp_block_list mp);
  next ← deref (fun _ => match mp_blocks mp !! i with Some (FreeNext n) => Some n | _ => None end);
  put_obj o (mk_mp (<[i := PoolOf o]> (mp_blocks mp)) (mp_size mp) (mp_block_size mp) next
               (mp_total_count mp) (u32 (mp_free_count mp - 1)) (mp_suspend_count mp));;
  mret i.

(** The [while] loop of [rt_mp_alloc], up to its next [rt_schedule]; the new
    waiting thread goes to the front of the list. *)
Definition mp_alloc_loop (o : nat) (c : option nat) (time : Z) : M mp_state (call wait_locals (option nat)) :=
  mp ← get_obj o;
  if mp_free_count mp =? 0 then
    if time =? 0 then
      on_snd (rt_set_errno (- RT_ETIMEOUT));; mret (Return None)
    else
      on_snd RT_DEBUG_NOT_IN_INTERRUPT;;
      t ← deref (fun _ => c);
      on_snd (upd_thread t (set_th_error RT_EOK));;
      on_snd (rt_thread_suspend t);;
      on_snd (tlist_push (mp_head o) t);;
      upd_obj o (fun mp => set_mp_suspend_count (u32 (mp_suspend_count mp + 1)) mp);;
      now ← on_snd rt_tick_get;
      on_snd (when (0 <? time) (arm_thread_timer t time));;
      on_snd rt_schedule;;
      mret (Waiting (mk_wait t time (if 0 <? time then now else 0)))
  else
    i ← mp_take o; mret (Return (Some i)).

Definition rt_mp_alloc (o : nat) (time : Z) : M mp_state (call wait_locals (option nat)) :=
  c ← on_snd (gets k_current); mp_alloc_loop o c time.

(** From the return of [rt_schedule] on. *)
Definition rt_mp_alloc_resume (o : nat) (w : wait_locals) : M mp_state (call wait_locals (option nat)) :=
  th ← on_snd (get_thread (wl_thread w));
  if negb (th_error th =? RT_EOK) then mret (Return None)
  else
    now ← on_snd rt_tick_get;
    mp_alloc_loop o (Some (wl_thread w)) (remaining_timeout (wl_timeout w) (wl_tick w) now).

(** [rt_mp_free] on block [i] of the memory of pool [o]: the pool is found
    through the header. *)
Definition rt_mp_free (o i : nat) : M mp_state unit :=
  mp ← get_obj o;
  p ← deref (fun _ => match mp_blocks mp !! i with Some (PoolOf p) => Some p | _ => None end);
  rt_assert (bool_decide (p = o));;
  put_obj o (mk_mp (<[i := FreeNext (mp_block_list mp)]> (mp_blocks mp)) (mp_size mp) (mp_block_size mp) (Some i)
               (mp_total_count mp) (u32 (mp_free_count mp + 1)) (mp_suspend_count mp));;
  if 0 <? mp_suspend_count mp then
    t ← on_snd (deref (fun s => head (tl s (mp_head o))));
    on_snd (upd_thread t (set_th_error RT_EOK));;
    on_snd (rt_thread_resume t);;
    upd_obj o (fun mp => set_mp_suspend_count (u32 (mp_suspend_count mp - 1)) mp);;
    on_snd rt_schedule
  else mret tt.

(** ** The free list and the invariant *)

Fixpoint bchain (blocks : gmap nat mp_header) (p : option nat) (l : list nat) : Prop :=
  match l with
  | [] => p = None
  | i :: l => p = Some i /\ exists n, blocks !! i = Some (FreeNext n) /\ bchain blocks n l
  end.

Lemma bchain_other blocks p l i x : i ∉ l -> bchain blocks p l -> bchain (<[i := x]> blocks) p l.
Proof.
  revert p. induction l as [|j l IH]; intros p Hn; [done|]. apply not_elem_of_cons in Hn as [Hij Hn].
  intros [-> (n & Hm & Hc)]. split; [done|]. exists n. rewrite lookup_insert_ne by done. eauto.
Qed.

(** [fr] are the free blocks in list order, [used] the allocated ones: every
    block is one or the other, once, and the counters agree. *)
Record mp_inv (o : nat) (mp : rt_mempool) (fr used : list nat) (s : kstate) : Prop := {
  mpi_free : bchain (mp_blocks mp) (mp_block_list mp) fr;
  mpi_used : forall i, i ∈ used -> mp_blocks mp !! i = Some (PoolOf o);
  mpi_all : fr ++ used ≡ₚ seq 0 (Z.to_nat (mp_total_count mp));
  mpi_total : 0 <= mp_total_count mp < 2 ^ 32;
  mpi_count : mp_free_count mp = Z.of_nat (length fr);
  mpi_waiting : mp_suspend_count mp = Z.of_nat (length (tl s (mp_head o)));
  mpi_wait_range : mp_suspend_count mp < 2 ^ 32 - 1
}.

Lemma mp_inv_nodup o mp fr used s : mp_inv o mp fr used s -> NoDup (fr ++ used).
Proof. intros W. rewrite (mpi_all _ _ _ _ _ W). apply NoDup_seq. Qed.

Lemma mp_inv_lengths o mp fr used s :
  mp_inv o mp fr used s -> Z.of_nat (length fr) + Z.of_nat (length used) = mp_total_count mp.
Proof.
  intros W. pose proof (Permutation_length (mpi_all _ _ _ _ _ W)) as H. rewrite length_app, length_seq in H.
  pose proof (mpi_total _ _ _ _ _ W). lia.
Qed.

(** The list that [rt_mp_init] builds. *)
Lemma mp_free_list_lookup k n i :
  foldr (fun i m => <[i := FreeNext (Some (S i))]> m) (∅ : gmap nat mp_header) (seq k n) !! i
  = if decide (k <= i < k + n)%nat then Some (FreeNext (Some (S i))) else None.
Proof.
  revert k. induction n as [|n IH]; intros k; simpl.
  - rewrite decide_False by lia. apply lookup_empty.
  - destruct (decide (k = i)) as [->|Hne].
    + rewrite lookup_insert_eq, decide_True by lia. done.
    + rewrite lookup_insert_ne, IH by done. repeat case_decide; try done; lia.
Qed.

Lemma mp_init_chain (n k : nat) (blocks : gmap nat mp_header) :
  (forall i, (k <= i < k + n)%nat -> blocks !! i = Some (FreeNext (if decide (S i = k + n)%nat then None else Some (S i)))) ->
  (0 < n)%nat -> bchain blocks (Some k) (seq k n).
Proof.
  revert k. induction n as [|n IH]; intros k Hb Hn; [lia|]. simpl. split; [done|].
  rewrite Hb by lia. eexists. split; [done|]. case_decide as E.
  - assert (n = 0)%nat as -> by lia. done.
  - apply IH; [|lia]. intros i Hi. rewrite Hb by lia. do 2 f_equal. repeat case_decide; try done; lia.
Qed.

(** A new pool: every block is free. *)
Lemma new_mp_inv o s size block_size total :
  0 < total < 2 ^ 32 -> tl s (mp_head o) = [] ->
  mp_inv o (new_mp (<[Z.to_nat (total - 1) := FreeNext None]> (mp_free_list (Z.to_nat total))) size block_size total)
    (seq 0 (Z.to_nat total)) [] s.
Proof.
  intros Ht Hw. split; simpl; [|set_solver|by rewrite app_nil_r|lia|rewrite length_seq; lia|by rewrite Hw|lia].
  apply mp_init_chain; [|lia]. intros i Hi. destruct (decide (Z.to_nat (total - 1) = i)) as [<-|Hne].
  - rewrite lookup_insert_eq. case_decide; [done|lia].
  - rewrite lookup_insert_ne by done. unfold mp_free_list. rewrite mp_free_list_lookup, decide_True by lia.
    case_decide; [lia|done].
Qed.

(** ** Allocation *)

Lemma mp_head_waiting o : waiting_head (mp_head o).
Proof. done. Qed.

Section mp.
Context (m : gmap nat rt_mempool) (s : kstate) (o : nat) (mp : rt_mempool) (fr used : list nat).
Context (Hm : m !! o = Some mp) (W : mp_inv o mp fr used s).

Lemma run_mp_take i fr' :
  fr = i :: fr' ->
  exists mp', mp_take o (m, s) = Ok i (<[o := mp']> m, s) /\ mp_inv o mp' fr' (i :: used) s.
Proof.
  intros Efr. pose proof (mp_inv_nodup _ _ _ _ _ W) as Hnd. pose proof (mp_inv_lengths _ _ _ _ _ W) as Hlen.
  destruct W as [Hf Hu Ha Ht Hc Hw Hwr]. rewrite Efr in *. simpl in Hf. destruct Hf as [Eb (n & Hi & Hf)].
  unfold mp_take. run_step (run_get_obj m s o mp Hm). run_step (run_deref (fun _ => mp_block_list mp) (m, s) i Eb).
  assert (match mp_blocks mp !! i with Some (FreeNext n) => Some n | _ => None end = Some n) as En by by rewrite Hi.
  run_step (run_deref (fun _ => match mp_blocks mp !! i with Some (FreeNext n) => Some n | _ => None end) (m, s) n En).
  eexists. split; [reflexivity|].
  simpl in Hnd. apply NoDup_cons in Hnd as [Hni Hnd].
  split; simpl; try done.
  - apply bchain_other; [set_solver|done].
  - intros j [->|Hj]%elem_of_cons; [apply lookup_insert_eq|]. rewrite lookup_insert_ne; [by apply Hu|].
    intros <-. apply Hni. set_solver.
  - rewrite <- Ha. simpl. symmetry. apply Permutation_middle.
  - rewrite Hc. simpl in *. rewrite u32_small; lia.
Qed.
End mp.

(** The waiting thread of [rt_mp_alloc]: pushed to the front of the list. *)
Definition pushed (h : tlist_head) (t : nat) (th : rt_thread) (s : kstate) : kstate :=
  set_k_tlists (<[h := t :: tl s h]>) (suspended t th s).

Lemma run_push_wait s h t th time :
  blocking_ctx s t th -> th_error th = RT_EOK -> waiting_head h -> time < RT_TICK_MAX / 2 ->
  (rt_thread_suspend t;; tlist_push h t) s = Ok tt (pushed h t th s) /\
  when (0 <? time) (arm_thread_timer t time) (pushed h t th s) = Ok tt (armed t time (pushed h t th s)) /\
  rt_schedule (armed t time (pushed h t th s)) = Ok tt (scheduled (armed t time (pushed h t th s))) /\
  kinv (scheduled (armed t time (pushed h t th s))) /\
  tl (scheduled (armed t time (pushed h t th s))) h = t :: tl s h.
Proof.
  intros [I Hc [Ht Hst] _ (u & uh & Hne & [Hu Hus])] He Hh Htime.
  assert (kinv (pushed h t th s)) as I1.
  { apply (kinv_wait _ t (set_th_stat (with_state RT_THREAD_SUSPEND (th_stat th)) th)); [by apply kinv_suspended| |
      apply state_suspend|apply suspended_not_linked|done|by rewrite suspended_tl_waiting].
    by rewrite suspended_lookup, lookup_insert_eq. }
  assert (k_threads (pushed h t th s) = <[t := set_th_stat (with_state RT_THREAD_SUSPEND (th_stat th)) th]> (k_threads s)) as Eth
    by apply suspended_lookup.
  assert (k_threads (pushed h t th s) !! t = Some (set_th_stat (with_state RT_THREAD_SUSPEND (th_stat th)) th)) as Ht1
    by (rewrite Eth; apply lookup_insert_eq).
  assert (kinv (armed t time (pushed h t th s))) as I2 by (eapply kinv_armed; [done|exact Ht1|apply state_suspend]).
  assert (ready (armed t time (pushed h t th s)) u uh) as Hr
    by (split; [by rewrite armed_threads, Eth, lookup_insert_ne|done]).
  split_and!.
  - run_step (run_thread_suspend _ _ _ I Ht Hst).
    enough (wp (tlist_push h t) (fun a s' => a = tt /\ s' = pushed h t th s) (suspended t th s)) as
      (a & s' & -> & -> & ->)%wp_run by done.
    unfold tlist_push. wp_steps. apply wp_require_unlinked; [apply suspended_not_linked|]. wp_steps.
    split; [done|]. unfold pushed. by rewrite (suspended_tl_waiting s t th).
  - unfold when, armed. destruct (Z.ltb_spec 0 time); [|done].
    destruct (inv_timer _ I1 _ _ Ht1) as (tm & Htm & _).
    rewrite (run_arm_thread_timer _ _ tm); [|done|lia]. unfold armed. by rewrite (proj2 (Z.ltb_lt 0 time)) by lia.
  - by eapply run_schedule.
  - by apply kinv_scheduled.
  - rewrite tl_scheduled, armed_tl. unfold pushed. by rewrite tl_set_insert, decide_True.
Qed.

Section mp_ops.
Context (m : gmap nat rt_mempool) (s : kstate) (o : nat) (mp : rt_mempool) (fr used : list nat).
Context (Hm : m !! o = Some mp) (W : mp_inv o mp fr used s) (I : kinv s).

(** [rt_mp_alloc] hands out the first free block, which no one else has;
    with no free block it returns [RT_NULL] at once without a waiting time
    (setting the caller's error code), and otherwise suspends the caller and
    counts it.  The pool invariant is kept: every block free or used, once. *)
Theorem rt_mp_alloc_correct time t th :
  k_current s = Some t -> k_threads s !! t = Some th -> k_int_nest s = 0 ->
  (fr = [] -> time ≠ 0 -> blocking_ctx s t th /\ time < RT_TICK_MAX / 2 /\ mp_suspend_count mp < 2 ^ 32 - 2) ->
  exists r st', rt_mp_alloc o time (m, s) = Ok r st' /\ kinv st'.2 /\
    match fr with
    | i :: fr' => r = Return (Some i) /\ (i ∉ used) /\
        exists mp', st' = (<[o := mp']> m, s) /\ mp_inv o mp' fr' (i :: used) s
    | [] =>
        if decide (time = 0) then
          r = Return None /\ st' = (m, set_k_threads (<[t := set_th_error (- RT_ETIMEOUT) th]>) s)
        else
          r = Waiting (mk_wait t time (if 0 <? time then k_tick s else 0)) /\
          tl st'.2 (mp_head o) = t :: tl s (mp_head o) /\
          exists mp', st'.1 = <[o := mp']> m /\ mp_inv o mp' [] used st'.2
    end.
Proof.
  intros Hc Ht Hn Hb. unfold rt_mp_alloc. erewrite bind_Ok by reflexivity. unfold mp_alloc_loop.
  run_step (run_get_obj m s o mp Hm). pose proof (mpi_count _ _ _ _ _ W) as Hcnt.
  destruct (list_cases fr) as [Efr|(i & fr' & Efr)]; rewrite Efr.
  2:{ rewrite (proj2 (Z.eqb_neq _ _)) by (rewrite Hcnt, Efr; simpl; lia).
      destruct (run_mp_take m s o mp fr used Hm W i fr' Efr) as (mp' & Hr & W'). run_step Hr.
      eexists _, _. split; [reflexivity|]. split; [done|]. split; [done|]. split; [|by exists mp'].
      pose proof (mp_inv_nodup _ _ _ _ _ W) as Hnd. rewrite Efr in Hnd. apply NoDup_cons in Hnd as [Hni _]. set_solver. }
  rewrite (proj2 (Z.eqb_eq _ _)) by (by rewrite Hcnt, Efr). destruct (decide (time = 0)) as [->|Hz].
  - assert (rt_set_errno (- RT_ETIMEOUT) s = Ok tt (set_k_threads (<[t := set_th_error (- RT_ETIMEOUT) th]>) s)) as E.
    { unfold rt_set_errno, gets. erewrite bind_Ok by reflexivity. rewrite Hn. change (negb (0 =? 0)) with false. cbv iota.
      unfold rt_thread_self, gets. erewrite bind_Ok by reflexivity. rewrite Hc. by apply run_upd_thread. }
    change (0 =? 0) with true. cbv iota. run_step (run_on_snd _ m _ _ _ E). eexists _, _. split; [reflexivity|].
    split; [by apply kinv_set_error|done].
  - rewrite (proj2 (Z.eqb_neq _ _) Hz). destruct (Hb Efr Hz) as (B & Htime & Hmax).
    set (th0 := set_th_error RT_EOK th). set (s0 := set_k_threads (<[t := th0]>) s).
    pose proof (blocking_ctx_set_error _ _ _ RT_EOK B) as B0. fold th0 s0 in B0.
    destruct (run_push_wait s0 (mp_head o) t th0 time B0 eq_refl (mp_head_waiting o) Htime) as (Hr1 & Hr2 & Hr3 & Ik & Etl).
    assert (RT_DEBUG_NOT_IN_INTERRUPT s = Ok tt s) as E0
      by (unfold RT_DEBUG_NOT_IN_INTERRUPT, gets; erewrite bind_Ok by reflexivity; by rewrite Hn).
    run_step (run_on_snd _ m _ _ _ E0). run_step (run_deref (fun _ => k_current s) (m, s) t Hc).
    run_step (run_on_snd _ m _ _ _ (run_upd_thread s t (set_th_error RT_EOK) th Ht)). fold th0 s0.
    apply bind_Ok_inv in Hr1 as (a & s1 & Ha & Hr1).
    run_step (run_on_snd _ m _ _ _ Ha). run_step (run_on_snd _ m _ _ _ Hr1).
    run_step (run_upd_obj m (pushed (mp_head o) t th0 s0) o (fun mp => set_mp_suspend_count (u32 (mp_suspend_count mp + 1)) mp) mp Hm).
    erewrite bind_Ok by reflexivity. set (m1 := <[o := _]> m).
    run_step (run_on_snd _ m1 _ _ _ Hr2). run_step (run_on_snd _ m1 _ _ _ Hr3).
    eexists _, _. split; [reflexivity|]. split; [done|]. simpl. split.
    { do 2 f_equal. unfold pushed, suspended. simpl. unfold timer_stopped. repeat case_match; try done;
        unfold dequeued, clear_group; case_decide; done. }
    split; [done|]. eexists. split; [done|]. pose proof (mpi_waiting _ _ _ _ _ W) as Hw.
    destruct W. split; simpl; try done; [by rewrite Efr in *..| |].
    + rewrite Etl. simpl. change (tl s0 (mp_head o)) with (tl s (mp_head o)). rewrite u32_small by lia. lia.
    + rewrite u32_small by lia. lia.
Qed.

(** [rt_mp_free] puts an allocated block back in front of the free list;
    when threads wait, the first of them becomes ready with its error code
    cleared and is no longer counted.  The pool invariant is kept. *)
Theorem rt_mp_free_correct i used' :
  used ≡ₚ i :: used' ->
  exists st' mp', rt_mp_free o i (m, s) = Ok tt st' /\ st'.1 = <[o := mp']> m /\ kinv st'.2 /\
    mp_inv o mp' (i :: fr) used' st'.2 /\
    match tl s (mp_head o) with
    | [] => st'.2 = s
    | t :: l => exists th, k_threads s !! t = Some th /\
        woke_first (mp_head o) t (set_th_error RT_EOK th) l (set_k_threads (<[t := set_th_error RT_EOK th]>) s) st'.2
    end.
Proof.
  intros Hu. pose proof (mp_inv_nodup _ _ _ _ _ W) as Hnd. pose proof (mp_inv_lengths _ _ _ _ _ W) as Hlen.
  pose proof W as [Hf Hus Ha Htot Hc Hw Hwr].
  assert (mp_blocks mp !! i = Some (PoolOf o)) as Hi by (apply Hus; rewrite Hu; left).
  assert (length used = S (length used')) as Hul by (by rewrite Hu).
  rewrite Hu in Hnd. apply NoDup_app in Hnd as (_ & Hd & [Hiu _]%NoDup_cons).
  set (mp1 := mk_mp (<[i := FreeNext (mp_block_list mp)]> (mp_blocks mp)) (mp_size mp) (mp_block_size mp) (Some i)
               (mp_total_count mp) (u32 (mp_free_count mp + 1)) (mp_suspend_count mp)).
  assert (forall c s', c = Z.of_nat (length (tl s' (mp_head o))) -> c < 2 ^ 32 - 1 ->
    mp_inv o (set_mp_suspend_count c mp1) (i :: fr) used' s') as W1.
  { intros c s' Ec Hcr. split; simpl; try done.
    - split; [done|]. exists (mp_block_list mp). rewrite lookup_insert_eq. split; [done|].
      apply bchain_other; [|done]. intros Hif. by apply (Hd i Hif); left.
    - intros j Hj. rewrite lookup_insert_ne by (by intros ->). apply Hus. rewrite Hu. by right.
    - rewrite <- Ha, Hu. apply Permutation_middle.
    - rewrite Hc, u32_small; lia. }
  assert (match mp_blocks mp !! i with Some (PoolOf p) => Some p | _ => None end = Some o) as Eo by by rewrite Hi.
  unfold rt_mp_free. run_step (run_get_obj m s o mp Hm).
  run_step (run_deref (fun _ => match mp_blocks mp !! i with Some (PoolOf p) => Some p | _ => None end) (m, s) o Eo).
  rewrite bool_decide_eq_true_2 by done. erewrite bind_Ok by reflexivity. unfold put_obj at 1.
  erewrite bind_Ok by reflexivity. cbn [fst snd]. fold mp1. destruct (tl s (mp_head o)) as [|t l] eqn:E.
  - rewrite Hw. simpl. eexists _, mp1. split; [reflexivity|]. split; [done|]. split; [done|].
    split; [|done]. apply (W1 (mp_suspend_count mp) s); [by rewrite E|done].
  - rewrite (proj2 (Z.ltb_lt 0 _)) by (rewrite Hw; simpl; lia).
    destruct (waiting_first _ _ _ _ I (mp_head_waiting o) E) as (th & Ht & Hst).
    set (th0 := set_th_error RT_EOK th). set (s0 := set_k_threads (<[t := th0]>) s).
    assert (kinv s0) as I0 by by apply kinv_set_error. assert (k_threads s0 !! t = Some th0) as Ht0 by apply lookup_insert_eq.
    assert (head (tl s (mp_head o)) = Some t) as Eh by by rewrite E.
    run_step (run_on_snd _ (<[o := mp1]> m) _ _ _ (run_deref (fun s => head (tl s (mp_head o))) s t Eh)).
    run_step (run_on_snd _ (<[o := mp1]> m) _ _ _ (run_upd_thread s t (set_th_error RT_EOK) th Ht)). fold th0 s0.
    run_step (run_on_snd _ (<[o := mp1]> m) _ _ _ (run_thread_resume _ _ _ I0 Ht0 Hst)).
    run_step (run_upd_obj (<[o := mp1]> m) (resumed t th0 s0) o
      (fun mp => set_mp_suspend_count (u32 (mp_suspend_count mp - 1)) mp) mp1 (lookup_insert_eq _ _ _)).
    rewrite insert_insert_eq.
    pose proof (resumed_woke_first s0 (mp_head o) t th0 l I0 (mp_head_waiting o) E Ht0 Hst) as Hwf.
    rewrite (run_on_snd _ (<[o := set_mp_suspend_count (u32 (mp_suspend_count mp1 - 1)) mp1]> m) _ _ _
      (run_schedule _ _ _ (kinv_resumed _ _ _ I0 Ht0 Hst) (resumed_ready s0 t th0))).
    apply woke_first_scheduled in Hwf.
    eexists _, _. split; [reflexivity|]. split; [done|]. split; [apply Hwf|]. split; [|by exists th].
    cbn [snd]. pose proof (wf_list _ _ _ _ _ _ Hwf) as El. simpl in Hw.
    apply W1; simpl; [rewrite El|]; rewrite u32_small; lia.
Qed.
End mp_ops.

(** ** A timeout is not counted *)

(** A pool with one block: thread 1 allocates it, then waits for a second one
    until its timer expires. *)
Definition timeout_scenario : M mp_state (Z * list nat) :=
  rt_mp_init 1 [109] 8 4;;
  rt_mp_alloc 1 0;;
  rt_mp_alloc 1 10;;
  on_snd (_rt_timer_remove (TThread 1);; rt_thread_timeout 1);;
  mp ← get_obj 1;
  st ← get;
  mret (mp_suspend_count mp, tl st.2 (mp_head 1)).

(** When the wait of [rt_mp_alloc] times out, [suspend_thread_count] is not
    decremented: the count is 1 with nobody waiting, and the next [rt_mp_free]
    takes the head of the empty list for a thread. *)
Theorem mp_timeout_then_free_faults :
  ret timeout_scenario (∅, demo) = Some (1, []) /\
  ret (timeout_scenario;; rt_mp_free 1 0) (∅, demo) = None.
Proof. split; vm_compute; reflexivity. Qed.

(** A pool too small for one block makes [rt_mp_init] store through
    [block_list - 1], in front of the pool. *)
Theorem mp_init_without_block_faults o name size block_size m s :
  RT_ALIGN_DOWN size RT_ALIGN_SIZE < u32 (RT_ALIGN block_size RT_ALIGN_SIZE + sizeof_ptr) -> 0 <= RT_ALIGN_DOWN size RT_ALIGN_SIZE ->
  rt_mp_init o name size block_size (m, s) = Fault.
Proof.
  intros Hlt Hpos. unfold rt_mp_init, mp_link_blocks. rewrite Z.div_small by lia.
  unfold mbind, M_bind. destruct (on_snd (rt_object_init (mp_ref o) name) (m, s)) as [a st|]; [|done].
  destruct (on_snd (rt_ipc_object_init (mp_head o)) st); done.
Qed.

(** ** Witnesses *)

Definition demo_pool : rt_mempool :=
  new_mp (<[Z.to_nat (2 - 1) := FreeNext None]> (mp_free_list (Z.to_nat 2))) 16 4 2.
Definition demo_mp : gmap nat rt_mempool := {[1%nat := demo_pool]}.

Lemma demo_pool_inv : mp_inv 1 demo_pool [0%nat; 1%nat] [] demo.
Proof. apply (new_mp_inv 1 demo 16 4 2); [lia|vm_compute; reflexivity]. Qed.

Lemma rt_mp_alloc_correct_witness :
  exists st' mp', rt_mp_alloc 1 0 (demo_mp, demo) = Ok (Return (Some 0%nat)) st' /\
    st'.1 = <[1%nat := mp']> demo_mp /\ mp_inv 1 mp' [1%nat] [0%nat] demo.
Proof.
  destruct (rt_mp_alloc_correct demo_mp demo 1 demo_pool [0%nat; 1%nat] [] eq_refl demo_pool_inv demo_kinv 0 1
    (thread_at demo 1)) as (r & st' & E & _ & -> & _ & mp' & -> & W).
  - vm_compute. reflexivity.
  - vm_compute. reflexivity.
  - vm_compute. reflexivity.
  - intros H. discriminate H.
  - exists (<[1%nat := mp']> demo_mp, demo), mp'. split; [exact E|]. split; [reflexivity|exact W].
Defined.

(** The same pool with block 0 allocated. *)
Definition demo_pool_used : rt_mempool :=
  mk_mp {[0%nat := PoolOf 1; 1%nat := FreeNext None]} 16 4 (Some 1%nat) 2 1 0.

Lemma demo_pool_used_inv : mp_inv 1 demo_pool_used [1%nat] [0%nat] demo.
Proof.
  split; simpl; try lia.
  - split; [done|]. exists None. done.
  - intros i ->%list_elem_of_singleton. done.
  - apply perm_swap.
  - vm_compute. reflexivity.
Qed.

Lemma rt_mp_free_correct_witness :
  exists st' mp', rt_mp_free 1 0 ({[1%nat := demo_pool_used]}, demo) = Ok tt st' /\ mp_inv 1 mp' [0%nat; 1%nat] [] st'.2.
Proof.
  destruct (rt_mp_free_correct {[1%nat := demo_pool_used]} demo 1 demo_pool_used [1%nat] [0%nat]
    (lookup_insert_eq ∅ 1%nat demo_pool_used) demo_pool_used_inv demo_kinv 0 []) as (st' & mp' & E & _ & _ & W & _).
  - reflexivity.
  - exists st', mp'. split; [exact E|exact W].
Defined.

Lemma mp_init_without_block_faults_witness : rt_mp_init 1 [109] 7 4 (∅, demo) = Fault.
Proof. apply mp_init_without_block_faults; vm_compute; [reflexivity|discriminate]. Defined.
