(* ===== verification/RoboModule.v ===== *)
(** * The motor driver bus: bsp/stm32f40x/hardware/can.c

    Every command of the RoboModule drivers is one standard data frame of 8
    bytes; the drivers answer with frames that the receive interrupt stores.
    The frame that a command hands to [CAN_Transmit] is recorded; the transmit
    interrupt is an input of the model. *)

From S2P Require Import Prelude.

(** [CanTxMsg] and [CanRxMsg] of the CAN peripheral, as far as can.c uses them. *)
Record can_msg := mk_msg {
  StdId : Z;
  IDE : Z;
  RTR : Z;
  DLC : Z;
  Data : list Z
}.

Definition CAN_ID_STD : Z := 0.
Definition CAN_RTR_DATA : Z := 0.

(** ** Transmission *)

Record can_state := mk_can {
  can_sent : list can_msg;          (**  handed to [CAN_Transmit] *)
  can_tx_success_flag : Z;
  CAN_Time_Out : Z
}.

Definition set_tx_flag (v : Z) (s : can_state) : can_state := mk_can (can_sent s) v (CAN_Time_Out s).
Definition set_time_out (v : Z) (s : can_state) : can_state := mk_can (can_sent s) (can_tx_success_flag s) v.

Definition CAN1_TX_IRQHandler (pending : bool) : M can_state unit :=
  when pending (modify (set_tx_flag 1)).

(** The hand-over of a frame to the peripheral, not its acceptance: [CAN_Transmit] of
    stm32f4xx_can.c answers [CAN_TxStatus_NoMailBox] when no mailbox is free, and can.c
    does not look at the answer. *)
Definition CAN_Transmit (m : can_msg) : M can_state unit :=
  modify (fun s => mk_can (can_sent s ++ [m]) (can_tx_success_flag s) (CAN_Time_Out s)).

Section drv.
(** [tx_irq n]: the transmit interrupt is pending in round [n] of the wait. *)
Context (tx_irq : nat -> bool).

(** The loop behind every transmission; it gives up after 101 rounds. *)
Fixpoint wait_tx (fuel round : nat) : M can_state unit :=
  flag ← gets can_tx_success_flag;
  if negb (flag =? 0) then mret tt
  else match fuel with
  | O => fault
  | S fuel =>
      CAN1_TX_IRQHandler (tx_irq round);;
      modify (fun s => set_time_out (u32 (CAN_Time_Out s + 1)) s);;
      n ← gets CAN_Time_Out;
      if 100 <? n then mret tt else wait_tx fuel (S round)
  end.

Definition can_id (base Group Number : Z) : option Z :=
  if (Group <=? 7) && (Number <=? 15)
  then Some (u16 (Z.lor (Z.lor base (Z.shiftl Group 8)) (Z.shiftl Number 4)))
  else None.

(** What all commands share: the frame header, the check of the address, the
    transmission and the wait. *)
Definition drv_send (base Group Number : Z) (data : list Z) : M can_state unit :=
  match can_id base Group Number with
  | None => mret tt
  | Some id =>
      modify (set_tx_flag 0);;
      CAN_Transmit (mk_msg id CAN_ID_STD CAN_RTR_DATA 8 data);;
      modify (set_time_out 0);;
      wait_tx 101 0
  end.

Definition hi8 (x : Z) : Z := Z.land (Z.shiftr x 8) 255.
Definition lo8 (x : Z) : Z := Z.land x 255.
Definition be16 (x : Z) : list Z := [hi8 x; lo8 x].
Definition be32 (x : Z) : list Z :=
  [Z.land (Z.shiftr x 24) 255; Z.land (Z.shiftr x 16) 255; Z.land (Z.shiftr x 8) 255; Z.land x 255].
Definition pad (n : nat) : list Z := replicate n 85.

Definition limit_pwm (x : Z) : Z := if 5000 <? x then 5000 else if x <? -5000 then -5000 else x.

(** [if (x < 0) x = abs(x);] on a [short]. *)
Definition abs_if_negative (x : Z) : Z := if x <? 0 then s16 (if 0 <? x then x else - x) else x.

Definition CAN_RoboModule_DRV_Reset (Group Number : Z) : M can_state unit :=
  drv_send 0x000 Group Number (pad 8).

Definition CAN_RoboModule_DRV_Mode_Choice (Group Number Mode : Z) : M can_state unit :=
  drv_send 0x001 Group Number ([Mode] ++ pad 7).

Definition CAN_RoboModule_DRV_OpenLoop_Mode (Group Number Temp_PWM : Z) : M can_state unit :=
  drv_send 0x002 Group Number (be16 (limit_pwm Temp_PWM) ++ pad 6).

Definition CAN_RoboModule_DRV_Current_Mode (Group Number Temp_PWM Temp_Current : Z) : M can_state unit :=
  drv_send 0x003 Group Number (be16 (abs_if_negative (limit_pwm Temp_PWM)) ++ be16 Temp_Current ++ pad 4).

Definition CAN_RoboModule_DRV_Velocity_Mode (Group Number Temp_PWM Temp_Velocity : Z) : M can_state unit :=
  drv_send 0x004 Group Number (be16 (abs_if_negative (limit_pwm Temp_PWM)) ++ be16 Temp_Velocity ++ pad 4).

Definition CAN_RoboModule_DRV_Position_Mode (Group Number Temp_PWM Temp_Position : Z) : M can_state unit :=
  drv_send 0x005 Group Number (be16 (abs_if_negative (limit_pwm Temp_PWM)) ++ pad 2 ++ be32 Temp_Position).

Definition CAN_RoboModule_DRV_Velocity_Position_Mode (Group Number Temp_PWM Temp_Velocity Temp_Position : Z)
    : M can_state unit :=
  drv_send 0x006 Group Number
    (be16 (abs_if_negative (limit_pwm Temp_PWM)) ++ be16 (abs_if_negative Temp_Velocity) ++ be32 Temp_Position).

Definition CAN_RoboModule_DRV_Current_Velocity_Mode (Group Number Temp_Current Temp_Velocity : Z)
    : M can_state unit :=
  drv_send 0x007 Group Number (be16 (abs_if_negative Temp_Current) ++ be16 Temp_Velocity ++ pad 4).

Definition CAN_RoboModule_DRV_Current_Position_Mode (Group Number Temp_Current Temp_Position : Z)
    : M can_state unit :=
  drv_send 0x008 Group Number (be16 (abs_if_negative Temp_Current) ++ pad 2 ++ be32 Temp_Position).

Definition CAN_RoboModule_DRV_Current_Velocity_Position_Mode (Group Number Temp_Current Temp_Velocity Temp_Position : Z)
    : M can_state unit :=
  drv_send 0x009 Group Number
    (be16 (abs_if_negative Temp_Current) ++ be16 (abs_if_negative Temp_Velocity) ++ be32 Temp_Position).

Definition CAN_RoboModule_DRV_Config (Group Number Temp_Time1 Temp_Time2 : Z) : M can_state unit :=
  drv_send 0x00A Group Number ([Temp_Time1; Temp_Time2] ++ pad 6).

Definition CAN_RoboModule_DRV_Online_Check (Group Number : Z) : M can_state unit :=
  drv_send 0x00F Group Number (pad 8).
End drv.

(** ** Reception *)

(** The values of the four drivers of group 0. *)
Record drv_values := mk_values {
  Real_Current_Value : list Z;
  Real_Velocity_Value : list Z;
  Real_Position_Value : list Z;
  Real_Online : list Z;
  Real_Ctl1_Value : list Z;
  Real_Ctl2_Value : list Z
}.

Definition byte_at (m : can_msg) (i : nat) : Z := nth i (Data m) 0.
Definition read16 (hi lo : Z) : Z := s16 (Z.lor (Z.shiftl hi 8) lo).
Definition read32 (a b c d : Z) : Z :=
  s32 (Z.lor (Z.lor (Z.lor (Z.shiftl a 24) (Z.shiftl b 16)) (Z.shiftl c 8)) d).

Definition store_feedback (k : nat) (m : can_msg) (v : drv_values) : drv_values :=
  mk_values
    (<[k := read16 (byte_at m 0) (byte_at m 1)]> (Real_Current_Value v))
    (<[k := read16 (byte_at m 2) (byte_at m 3)]> (Real_Velocity_Value v))
    (<[k := read32 (byte_at m 4) (byte_at m 5) (byte_at m 6) (byte_at m 7)]> (Real_Position_Value v))
    (Real_Online v) (Real_Ctl1_Value v) (Real_Ctl2_Value v).
Definition store_online (k : nat) (v : drv_values) : drv_values :=
  mk_values (Real_Current_Value v) (Real_Velocity_Value v) (Real_Position_Value v)
    (<[k := 1]> (Real_Online v)) (Real_Ctl1_Value v) (Real_Ctl2_Value v).
Definition store_ctl (k : nat) (m : can_msg) (v : drv_values) : drv_values :=
  mk_values (Real_Current_Value v) (Real_Velocity_Value v) (Real_Position_Value v) (Real_Online v)
    (<[k := byte_at m 0]> (Real_Ctl1_Value v)) (<[k := byte_at m 1]> (Real_Ctl2_Value v)).

(** [pending] is the receive interrupt flag, [m] what [CAN_Receive] reads.  The
    test compares [IDE] twice, as the code does. *)
Definition CAN1_RX0_IRQHandler (pending : bool) (m : can_msg) (v : drv_values) : drv_values :=
  if pending && (IDE m =? CAN_ID_STD) && (IDE m =? CAN_RTR_DATA) && (DLC m =? 8) then
    if StdId m =? 0x1B then store_feedback 0 m v
    else if StdId m =? 0x2B then store_feedback 1 m v
    else if StdId m =? 0x3B then store_feedback 2 m v
    else if StdId m =? 0x4B then store_feedback 3 m v
    else if StdId m =? 0x1F then store_online 0 v
    else if StdId m =? 0x2F then store_online 1 v
    else if StdId m =? 0x3F then store_online 2 v
    else if StdId m =? 0x4F then store_online 3 v
    else if StdId m =? 0x1C then store_ctl 0 m v
    else if StdId m =? 0x2C then store_ctl 1 m v
    else if StdId m =? 0x3C then store_ctl 2 m v
    else if StdId m =? 0x4C then store_ctl 3 m v
    else v
  else v.

(** ** Bytes *)

Lemma be16_bytes x : be16 x = [x / 256 mod 256; x mod 256].
Proof. unfold be16, hi8, lo8. by rewrite !land_255, Z.shiftr_div_pow2. Qed.

Lemma be32_bytes x :
  be32 x = [x / 2 ^ 24 mod 256; x / 2 ^ 16 mod 256; x / 2 ^ 8 mod 256; x mod 256].
Proof. unfold be32. by rewrite !land_255, !Z.shiftr_div_pow2. Qed.

Lemma read16_bytes hi lo : 0 <= lo < 256 -> read16 hi lo = s16 (hi * 256 + lo).
Proof. intros. unfold read16. by rewrite lor_shift. Qed.

Lemma read32_bytes a b c d :
  0 <= b < 256 -> 0 <= c < 256 -> 0 <= d < 256 ->
  read32 a b c d = s32 (((a * 256 + b) * 256 + c) * 256 + d).
Proof.
  intros. unfold read32.
  replace (Z.lor (Z.shiftl a 24) (Z.shiftl b 16)) with (Z.shiftl (a * 2 ^ 8 + b) 16)
    by (rewrite <- lor_shift by lia; by rewrite Z.shiftl_lor, Z.shiftl_shiftl).
  replace (Z.lor (Z.shiftl (a * 2 ^ 8 + b) 16) (Z.shiftl c 8)) with (Z.shiftl ((a * 2 ^ 8 + b) * 2 ^ 8 + c) 8)
    by (rewrite <- lor_shift by lia; by rewrite Z.shiftl_lor, Z.shiftl_shiftl).
  by rewrite lor_shift.
Qed.

(** What the drivers read from the bytes of a 16-bit or 32-bit value. *)
Lemma read_be16 x : - 2 ^ 15 <= x < 2 ^ 15 -> read16 (x / 256 mod 256) (x mod 256) = x.
Proof.
  intros. rewrite read16_bytes by (apply Z.mod_pos_bound; lia). unfold s16.
  Z.to_euclidean_division_equations. lia.
Qed.

Lemma read_be32 x : - 2 ^ 31 <= x < 2 ^ 31 ->
  read32 (x / 2 ^ 24 mod 256) (x / 2 ^ 16 mod 256) (x / 2 ^ 8 mod 256) (x mod 256) = x.
Proof.
  intros. rewrite read32_bytes by (apply Z.mod_pos_bound; lia). unfold s32.
  Z.to_euclidean_division_equations. lia.
Qed.

(** ** The commands as the drivers read them *)

(** The requests of the protocol, with their set points. *)
Inductive request :=
| Reset
| ModeChoice (mode : Z)
| OpenLoop (pwm : Z)
| Current (pwm current : Z)
| Velocity (pwm velocity : Z)
| Position (pwm position : Z)
| VelocityPosition (pwm velocity position : Z)
| CurrentVelocity (current velocity : Z)
| CurrentPosition (current position : Z)
| CurrentVelocityPosition (current velocity position : Z)
| Config (time1 time2 : Z)
| OnlineCheck.

Definition issue (tx_irq : nat -> bool) (g n : Z) (r : request) : M can_state unit :=
  match r with
  | Reset => CAN_RoboModule_DRV_Reset tx_irq g n
  | ModeChoice m => CAN_RoboModule_DRV_Mode_Choice tx_irq g n m
  | OpenLoop p => CAN_RoboModule_DRV_OpenLoop_Mode tx_irq g n p
  | Current p c => CAN_RoboModule_DRV_Current_Mode tx_irq g n p c
  | Velocity p v => CAN_RoboModule_DRV_Velocity_Mode tx_irq g n p v
  | Position p x => CAN_RoboModule_DRV_Position_Mode tx_irq g n p x
  | VelocityPosition p v x => CAN_RoboModule_DRV_Velocity_Position_Mode tx_irq g n p v x
  | CurrentVelocity c v => CAN_RoboModule_DRV_Current_Velocity_Mode tx_irq g n c v
  | CurrentPosition c x => CAN_RoboModule_DRV_Current_Position_Mode tx_irq g n c x
  | CurrentVelocityPosition c v x => CAN_RoboModule_DRV_Current_Velocity_Position_Mode tx_irq g n c v x
  | Config a b => CAN_RoboModule_DRV_Config tx_irq g n a b
  | OnlineCheck => CAN_RoboModule_DRV_Online_Check tx_irq g n
  end.

(** The receiver's side: address and request of a frame. *)
Definition decode (m : can_msg) : option (Z * Z * request) :=
  let d := byte_at m in
  let w i := read16 (d i) (d (S i)) in
  let x := read32 (d 4%nat) (d 5%nat) (d 6%nat) (d 7%nat) in
  let request :=
    match StdId m mod 16 with
    | 0 => Some Reset
    | 1 => Some (ModeChoice (d 0%nat))
    | 2 => Some (OpenLoop (w 0%nat))
    | 3 => Some (Current (w 0%nat) (w 2%nat))
    | 4 => Some (Velocity (w 0%nat) (w 2%nat))
    | 5 => Some (Position (w 0%nat) x)
    | 6 => Some (VelocityPosition (w 0%nat) (w 2%nat) x)
    | 7 => Some (CurrentVelocity (w 0%nat) (w 2%nat))
    | 8 => Some (CurrentPosition (w 0%nat) x)
    | 9 => Some (CurrentVelocityPosition (w 0%nat) (w 2%nat) x)
    | 10 => Some (Config (d 0%nat) (d 1%nat))
    | 15 => Some OnlineCheck
    | _ => None
    end in
  (fun r => (StdId m / 256, StdId m / 16 mod 16, r)) <$> request.

(** The documented ranges: the pwm within 5000, and no sign where the command
    takes a magnitude. *)
Definition clamp (lo hi x : Z) : Z := Z.max lo (Z.min hi x).
Definition limited (r : request) : request :=
  match r with
  | OpenLoop p => OpenLoop (clamp (-5000) 5000 p)
  | Current p c => Current (Z.min 5000 (Z.abs p)) c
  | Velocity p v => Velocity (Z.min 5000 (Z.abs p)) v
  | Position p x => Position (Z.min 5000 (Z.abs p)) x
  | VelocityPosition p v x => VelocityPosition (Z.min 5000 (Z.abs p)) (Z.abs v) x
  | CurrentVelocity c v => CurrentVelocity (Z.abs c) v
  | CurrentPosition c x => CurrentPosition (Z.abs c) x
  | CurrentVelocityPosition c v x => CurrentVelocityPosition (Z.abs c) (Z.abs v) x
  | r => r
  end.

(** Arguments within their C types; a magnitude is not the value -32768, whose
    absolute value is not a [short]. *)
Definition is_u8 (x : Z) : Prop := 0 <= x < 2 ^ 8.
Definition is_s16 (x : Z) : Prop := - 2 ^ 15 <= x < 2 ^ 15.
Definition is_s32 (x : Z) : Prop := - 2 ^ 31 <= x < 2 ^ 31.
Definition magnitude (x : Z) : Prop := - 2 ^ 15 < x < 2 ^ 15.
Definition args_ok (r : request) : Prop :=
  match r with
  | Reset | OnlineCheck => True
  | ModeChoice m => is_u8 m
  | OpenLoop p => is_s16 p
  | Current p a | Velocity p a => is_s16 p /\ is_s16 a
  | Position p x => is_s16 p /\ is_s32 x
  | VelocityPosition p v x => is_s16 p /\ magnitude v /\ is_s32 x
  | CurrentVelocity c v => magnitude c /\ is_s16 v
  | CurrentPosition c x => magnitude c /\ is_s32 x
  | CurrentVelocityPosition c v x => magnitude c /\ magnitude v /\ is_s32 x
  | Config a b => is_u8 a /\ is_u8 b
  end.

Lemma limit_pwm_clamp x : limit_pwm x = clamp (-5000) 5000 x.
Proof. unfold limit_pwm, clamp. repeat case_match; to_prop; lia. Qed.

Lemma abs_if_negative_abs x : magnitude x -> abs_if_negative x = Z.abs x.
Proof.
  unfold abs_if_negative, magnitude. intros. destruct (Z.ltb_spec x 0); [|lia].
  rewrite (proj2 (Z.ltb_ge 0 x)) by lia. rewrite s16_small; lia.
Qed.

Lemma abs_limit_pwm x : abs_if_negative (limit_pwm x) = Z.min 5000 (Z.abs x).
Proof. rewrite limit_pwm_clamp, abs_if_negative_abs; unfold magnitude, clamp; lia. Qed.

(** The identifier of a frame: command, number and group side by side. *)
Lemma can_id_parts base g n :
  0 <= base < 16 -> 0 <= g <= 7 -> 0 <= n <= 15 ->
  can_id base g n = Some (g * 256 + n * 16 + base).
Proof.
  intros Hb Hg Hn. unfold can_id. rewrite (proj2 (Z.leb_le g 7)), (proj2 (Z.leb_le n 15)) by lia. cbn [andb].
  f_equal. rewrite (Z.lor_comm base), <- Z.lor_assoc, (Z.lor_comm base), (lor_shift n base 4), (lor_shift g) by lia.
  rewrite u16_small; lia.
Qed.

(** The wait after a transmission ends after at most 101 rounds. *)
Lemma run_wait_tx irq fuel round s :
  0 <= CAN_Time_Out s -> CAN_Time_Out s + Z.of_nat fuel = 101 -> (0 < fuel)%nat ->
  exists s', wait_tx irq fuel round s = Ok tt s' /\ can_sent s' = can_sent s /\ CAN_Time_Out s' <= 101.
Proof.
  revert round s. induction fuel as [|fuel IH]; intros round s H0 Hf Hp; [lia|].
  cbn [wait_tx]. erewrite bind_Ok by reflexivity. destruct (can_tx_success_flag s =? 0).
  2:{ exists s. split; [done|]. split; [done|lia]. }
  cbn [negb]. unfold CAN1_TX_IRQHandler.
  set (s1 := if irq round then set_tx_flag 1 s else s).
  assert (when (irq round) (modify (set_tx_flag 1)) s = Ok tt s1) as E1 by (unfold when, s1; by destruct (irq round)).
  run_step E1. erewrite bind_Ok by reflexivity. erewrite bind_Ok by reflexivity.
  assert (can_sent s1 = can_sent s /\ CAN_Time_Out s1 = CAN_Time_Out s) as [Es Et] by (unfold s1; by destruct (irq round)).
  clearbody s1. cbn [set_time_out CAN_Time_Out]. rewrite Et, u32_small by lia. destruct (Z.ltb_spec 100 (CAN_Time_Out s + 1)).
  - eexists. split; [reflexivity|]. simpl. split; [done|lia].
  - destruct (IH (S round) (set_time_out (CAN_Time_Out s + 1) s1)) as (s' & -> & H1 & H2); simpl; [lia..|].
    exists s'. split; [done|]. by rewrite H1.
Qed.

Lemma run_drv_send irq base g n d s :
  0 <= base < 16 -> is_u8 g -> is_u8 n ->
  exists s', drv_send irq base g n d s = Ok tt s' /\
    if decide (g <= 7 /\ n <= 15) then
      can_sent s' = can_sent s ++ [mk_msg (g * 256 + n * 16 + base) CAN_ID_STD CAN_RTR_DATA 8 d] /\ CAN_Time_Out s' <= 101
    else s' = s.
Proof.
  unfold is_u8. intros Hb Hg Hn. unfold drv_send. case_decide as D.
  - rewrite can_id_parts by lia. do 3 erewrite bind_Ok by reflexivity.
    destruct (run_wait_tx irq 101 0 (set_time_out 0 (mk_can (can_sent s ++
      [mk_msg (g * 256 + n * 16 + base) CAN_ID_STD CAN_RTR_DATA 8 d]) 0 (CAN_Time_Out s)))) as (s' & E & H1 & H2);
      [done|done|lia|]. exists s'. by split.
  - exists s. split; [|done]. unfold can_id. destruct (Z.leb_spec g 7), (Z.leb_spec n 15); try done. lia.
Qed.

Lemma id_parts g n base : 0 <= base < 16 -> 0 <= n <= 15 ->
  (g * 256 + n * 16 + base) mod 16 = base /\
  (g * 256 + n * 16 + base) / 256 = g /\ (g * 256 + n * 16 + base) / 16 mod 16 = n.
Proof. intros. Z.to_euclidean_division_equations. lia. Qed.

(** The frame that a request becomes. *)
Definition frame_of (g n : Z) (r : request) : can_msg :=
  let m base d := mk_msg (g * 256 + n * 16 + base) CAN_ID_STD CAN_RTR_DATA 8 d in
  match r with
  | Reset => m 0 (pad 8)
  | ModeChoice x => m 1 ([x] ++ pad 7)
  | OpenLoop p => m 2 (be16 p ++ pad 6)
  | Current p c => m 3 (be16 p ++ be16 c ++ pad 4)
  | Velocity p v => m 4 (be16 p ++ be16 v ++ pad 4)
  | Position p x => m 5 (be16 p ++ pad 2 ++ be32 x)
  | VelocityPosition p v x => m 6 (be16 p ++ be16 v ++ be32 x)
  | CurrentVelocity c v => m 7 (be16 c ++ be16 v ++ pad 4)
  | CurrentPosition c x => m 8 (be16 c ++ pad 2 ++ be32 x)
  | CurrentVelocityPosition c v x => m 9 (be16 c ++ be16 v ++ be32 x)
  | Config a b => m 10 ([a; b] ++ pad 6)
  | OnlineCheck => m 15 (pad 8)
  end.

Definition in_types (r : request) : Prop :=
  match r with
  | Reset | OnlineCheck => True
  | ModeChoice m => is_u8 m
  | OpenLoop p => is_s16 p
  | Current p a | Velocity p a | CurrentVelocity p a => is_s16 p /\ is_s16 a
  | Position p x | CurrentPosition p x => is_s16 p /\ is_s32 x
  | VelocityPosition p v x | CurrentVelocityPosition p v x => is_s16 p /\ is_s16 v /\ is_s32 x
  | Config a b => is_u8 a /\ is_u8 b
  end.

(** Encoding and decoding agree on every request within the C types. *)
Lemma decode_frame g n r :
  0 <= g <= 7 -> 0 <= n <= 15 -> in_types r -> decode (frame_of g n r) = Some (g, n, r).
Proof.
  intros Hg Hn Hr. unfold decode.
  assert (forall base d, 0 <= base < 16 -> let m := mk_msg (g * 256 + n * 16 + base) CAN_ID_STD CAN_RTR_DATA 8 d in
    StdId m mod 16 = base /\ StdId m / 256 = g /\ StdId m / 16 mod 16 = n) as Hid
    by (intros base d Hb; simpl; by apply id_parts).
  destruct r; simpl in Hr; unfold frame_of; rewrite ?be16_bytes, ?be32_bytes;
    match goal with |- context [mk_msg (_ + ?b) _ _ _ ?d] => destruct (Hid b d) as (E1 & E2 & E3); [lia|] end;
    cbv zeta; rewrite E1, E2, E3; unfold byte_at; cbn [Data nth app pad replicate fmap option_fmap option_map];
    unfold is_s16, is_s32 in Hr; rewrite ?read_be16, ?read_be32 by (destruct_and?; lia); done.
Qed.

Lemma issue_frame irq g n r s :
  is_u8 g -> is_u8 n -> args_ok r ->
  exists s', issue irq g n r s = Ok tt s' /\
    if decide (g <= 7 /\ n <= 15) then
      can_sent s' = can_sent s ++ [frame_of g n (limited r)] /\ CAN_Time_Out s' <= 101
    else s' = s.
Proof.
  intros Hg Hn Hr. destruct r; simpl in Hr; destruct_and?; unfold issue,
    CAN_RoboModule_DRV_Reset, CAN_RoboModule_DRV_Mode_Choice, CAN_RoboModule_DRV_OpenLoop_Mode,
    CAN_RoboModule_DRV_Current_Mode, CAN_RoboModule_DRV_Velocity_Mode, CAN_RoboModule_DRV_Position_Mode,
    CAN_RoboModule_DRV_Velocity_Position_Mode, CAN_RoboModule_DRV_Current_Velocity_Mode,
    CAN_RoboModule_DRV_Current_Position_Mode, CAN_RoboModule_DRV_Current_Velocity_Position_Mode,
    CAN_RoboModule_DRV_Config, CAN_RoboModule_DRV_Online_Check;
    rewrite ?abs_limit_pwm, ?abs_if_negative_abs, ?limit_pwm_clamp by done; by apply run_drv_send.
Qed.

Lemma limited_in_types r : args_ok r -> in_types (limited r).
Proof. destruct r; simpl; unfold is_u8, is_s16, is_s32, magnitude, clamp; lia. Qed.

(** C31: every command addressed to a driver of the bus is one standard data
    frame of 8 bytes from which the driver reads back its group, its number
    and the request with the documented limits applied (pwm within 5000,
    magnitudes without a sign); a command to any other address sends nothing.
    The wait for the transmit interrupt ends after at most 101 rounds,
    whenever and whether the interrupt comes. *)
Theorem drv_command_roundtrip irq g n r s :
  is_u8 g -> is_u8 n -> args_ok r ->
  exists s', issue irq g n r s = Ok tt s' /\
    if decide (g <= 7 /\ n <= 15) then
      CAN_Time_Out s' <= 101 /\ exists m, can_sent s' = can_sent s ++ [m] /\
        IDE m = CAN_ID_STD /\ RTR m = CAN_RTR_DATA /\ DLC m = 8 /\ length (Data m) = 8%nat /\ 0 <= StdId m < 2 ^ 11 /\
        decode m = Some (g, n, limited r)
    else s' = s.
Proof.
  intros Hg Hn Hr. destruct (issue_frame irq g n r s Hg Hn Hr) as (s' & E & H). exists s'. split; [done|].
  case_decide as D; [|done]. destruct H as [Es Ht]. split; [done|]. eexists. split; [exact Es|].
  rewrite decode_frame by (unfold is_u8 in *; first [lia|by apply limited_in_types]).
  unfold is_u8 in *. destruct r; simpl; split_and!; done || lia.
Qed.

Lemma drv_command_roundtrip_witness :
  exists s', issue (fun _ => false) 0 1 (CurrentVelocity 6000 (-1800)) (mk_can [] 0 0) = Ok tt s' /\
    CAN_Time_Out s' <= 101 /\ exists m, can_sent s' = [m] /\ decode m = Some (0, 1, CurrentVelocity 6000 (-1800)).
Proof.
  destruct (drv_command_roundtrip (fun _ => false) 0 1 (CurrentVelocity 6000 (-1800)) (mk_can [] 0 0))
    as (s' & E & Ht & m & Es & _ & _ & _ & _ & _ & Hd).
  - unfold is_u8. lia.
  - unfold is_u8. lia.
  - unfold args_ok, magnitude, is_s16. lia.
  - exists s'. split; [exact E|]. split; [exact Ht|]. exists m. split; [exact Es|exact Hd].
Defined.

(** ** Feedback *)

(** A driver's report: current, velocity and position. *)
Definition feedback (k : nat) (c v x : Z) : can_msg :=
  mk_msg (16 * (Z.of_nat k + 1) + 11) CAN_ID_STD CAN_RTR_DATA 8 (be16 c ++ be16 v ++ be32 x).

Definition four_drivers (v : drv_values) : Prop :=
  length (Real_Current_Value v) = 4%nat /\ length (Real_Velocity_Value v) = 4%nat /\
  length (Real_Position_Value v) = 4%nat /\ length (Real_Online v) = 4%nat /\
  length (Real_Ctl1_Value v) = 4%nat /\ length (Real_Ctl2_Value v) = 4%nat.

Lemma rx_feedback_stores k m v :
  (k < 4)%nat -> StdId m = 16 * (Z.of_nat k + 1) + 11 -> IDE m = CAN_ID_STD -> DLC m = 8 ->
  CAN1_RX0_IRQHandler true m v = store_feedback k m v.
Proof.
  intros Hk Hid Hide Hd. unfold CAN1_RX0_IRQHandler. rewrite Hid, Hide, Hd.
  do 4 (destruct k as [|k]; [reflexivity|]). lia.
Qed.

(** C32: the report of driver [k] is stored at its place with signs, as the
    driver sent it; the values of the other drivers stay as they are. *)
Theorem rx_feedback_roundtrip k c v x vals :
  (k < 4)%nat -> four_drivers vals -> is_s16 c -> is_s16 v -> is_s32 x ->
  let vals' := CAN1_RX0_IRQHandler true (feedback k c v x) vals in
  four_drivers vals' /\
  Real_Current_Value vals' !! k = Some c /\ Real_Velocity_Value vals' !! k = Some v /\
  Real_Position_Value vals' !! k = Some x /\
  (forall j, j ≠ k -> Real_Current_Value vals' !! j = Real_Current_Value vals !! j /\
    Real_Velocity_Value vals' !! j = Real_Velocity_Value vals !! j /\
    Real_Position_Value vals' !! j = Real_Position_Value vals !! j) /\
  Real_Online vals' = Real_Online vals /\
  Real_Ctl1_Value vals' = Real_Ctl1_Value vals /\ Real_Ctl2_Value vals' = Real_Ctl2_Value vals.
Proof.
  intros Hk (L1 & L2 & L3 & L4 & L5 & L6) Hc Hv Hx vals'. unfold vals'.
  rewrite (rx_feedback_stores k _ _ Hk) by done. unfold store_feedback, byte_at, feedback. cbn [Data].
  rewrite !be16_bytes, be32_bytes. cbn [app nth]. rewrite !read_be16, read_be32 by done.
  cbn [Real_Current_Value Real_Velocity_Value Real_Position_Value Real_Online Real_Ctl1_Value Real_Ctl2_Value].
  split; [by unfold four_drivers; simpl; rewrite !length_insert|].
  rewrite !list_lookup_insert_eq by lia. do 3 (split; [done|]).
  split; [|done]. intros j Hj. by rewrite !list_lookup_insert_ne.
Qed.

Definition no_values : drv_values :=
  mk_values (replicate 4 0) (replicate 4 0) (replicate 4 0) (replicate 4 0) (replicate 4 0) (replicate 4 0).

Lemma rx_feedback_roundtrip_witness :
  Real_Velocity_Value (CAN1_RX0_IRQHandler true (feedback 0 120 (-1800) (-70000)) no_values) !! 0%nat = Some (-1800).
Proof.
  refine (proj1 (proj2 (proj2 (rx_feedback_roundtrip 0 120 (-1800) (-70000) no_values _ _ _ _ _)))).
  - lia.
  - repeat split.
  - unfold is_s16. lia.
  - unfold is_s16. lia.
  - unfold is_s32. lia.
Defined.

(** The handler means to accept data frames only, but compares [IDE] where
    it means [RTR]: a remote frame, which carries no data, is stored as a
    report as well. *)
Theorem rx_accepts_remote_frames k m rtr v :
  CAN1_RX0_IRQHandler k m v = CAN1_RX0_IRQHandler k (mk_msg (StdId m) (IDE m) rtr (DLC m) (Data m)) v.
Proof. reflexivity. Qed.

(** The set point -32768 of a command that takes a magnitude is sent with
    its sign: its absolute value does not fit in a [short]. *)
Theorem magnitude_min_keeps_sign irq v s :
  is_s16 v ->
  exists s' m, CAN_RoboModule_DRV_Current_Velocity_Mode irq 0 1 (-32768) v s = Ok tt s' /\
    can_sent s' = can_sent s ++ [m] /\ decode m = Some (0, 1, CurrentVelocity (-32768) v).
Proof.
  intros Hv. unfold CAN_RoboModule_DRV_Current_Velocity_Mode.
  destruct (run_drv_send irq 7 0 1 (be16 (abs_if_negative (-32768)) ++ be16 v ++ pad 4) s) as (s' & E & H);
    [lia|unfold is_u8; lia..|]. rewrite decide_True in H by lia. eexists s', _. split; [exact E|]. split; [apply H|].
  apply (decode_frame 0 1 (CurrentVelocity (-32768) v)); [lia..|]. split; [unfold is_s16; lia|done].
Qed.

Lemma magnitude_min_keeps_sign_witness :
  exists s' m, CAN_RoboModule_DRV_Current_Velocity_Mode (fun _ => true) 0 1 (-32768) 5 (mk_can [] 0 0) = Ok tt s' /\
    can_sent s' = [m] /\ decode m = Some (0, 1, CurrentVelocity (-32768) 5).
Proof. apply (magnitude_min_keeps_sign (fun _ => true) 5 (mk_can [] 0 0)). unfold is_s16. lia. Defined.
