(* ===== verification/Modbus.v ===== *)
(** * Modbus RTU: bsp/stm32f40x/hardware/modbus.c, master.c and uart.c

    The check sum of a frame, the requests that the master builds and sends
    over the second serial port, the interrupt that sends and receives the
    bytes, and the analysis of the answer. *)

From S2P Require Import Prelude.

(** ** The check sum: crc16 of modbus.c *)

Definition auchCRCHi : list Z := [
  0x00; 0xC1; 0x81; 0x40; 0x01; 0xC0; 0x80; 0x41; 0x01; 0xC0; 0x80; 0x41; 0x00; 0xC1; 0x81; 0x40; 0x01; 0xC0; 0x80; 0x41;
  0x00; 0xC1; 0x81; 0x40; 0x00; 0xC1; 0x81; 0x40; 0x01; 0xC0; 0x80; 0x41; 0x01; 0xC0; 0x80; 0x41; 0x00; 0xC1; 0x81; 0x40;
  0x00; 0xC1; 0x81; 0x40; 0x01; 0xC0; 0x80; 0x41; 0x00; 0xC1; 0x81; 0x40; 0x01; 0xC0; 0x80; 0x41; 0x01; 0xC0; 0x80; 0x41;
  0x00; 0xC1; 0x81; 0x40; 0x01; 0xC0; 0x80; 0x41; 0x00; 0xC1; 0x81; 0x40; 0x00; 0xC1; 0x81; 0x40; 0x01; 0xC0; 0x80; 0x41;
  0x00; 0xC1; 0x81; 0x40; 0x01; 0xC0; 0x80; 0x41; 0x01; 0xC0; 0x80; 0x41; 0x00; 0xC1; 0x81; 0x40; 0x00; 0xC1; 0x81; 0x40;
  0x01; 0xC0; 0x80; 0x41; 0x01; 0xC0; 0x80; 0x41; 0x00; 0xC1; 0x81; 0x40; 0x01; 0xC0; 0x80; 0x41; 0x00; 0xC1; 0x81; 0x40;
  0x00; 0xC1; 0x81; 0x40; 0x01; 0xC0; 0x80; 0x41; 0x01; 0xC0; 0x80; 0x41; 0x00; 0xC1; 0x81; 0x40; 0x00; 0xC1; 0x81; 0x40;
  0x01; 0xC0; 0x80; 0x41; 0x00; 0xC1; 0x81; 0x40; 0x01; 0xC0; 0x80; 0x41; 0x01; 0xC0; 0x80; 0x41; 0x00; 0xC1; 0x81; 0x40;
  0x00; 0xC1; 0x81; 0x40; 0x01; 0xC0; 0x80; 0x41; 0x01; 0xC0; 0x80; 0x41; 0x00; 0xC1; 0x81; 0x40; 0x01; 0xC0; 0x80; 0x41;
  0x00; 0xC1; 0x81; 0x40; 0x00; 0xC1; 0x81; 0x40; 0x01; 0xC0; 0x80; 0x41; 0x00; 0xC1; 0x81; 0x40; 0x01; 0xC0; 0x80; 0x41;
  0x01; 0xC0; 0x80; 0x41; 0x00; 0xC1; 0x81; 0x40; 0x01; 0xC0; 0x80; 0x41; 0x00; 0xC1; 0x81; 0x40; 0x00; 0xC1; 0x81; 0x40;
  0x01; 0xC0; 0x80; 0x41; 0x01; 0xC0; 0x80; 0x41; 0x00; 0xC1; 0x81; 0x40; 0x00; 0xC1; 0x81; 0x40; 0x01; 0xC0; 0x80; 0x41;
  0x00; 0xC1; 0x81; 0x40; 0x01; 0xC0; 0x80; 0x41; 0x01; 0xC0; 0x80; 0x41; 0x00; 0xC1; 0x81; 0x40].

Definition auchCRCLo : list Z := [
  0x00; 0xC0; 0xC1; 0x01; 0xC3; 0x03; 0x02; 0xC2; 0xC6; 0x06; 0x07; 0xC7; 0x05; 0xC5; 0xC4; 0x04; 0xCC; 0x0C; 0x0D; 0xCD;
  0x0F; 0xCF; 0xCE; 0x0E; 0x0A; 0xCA; 0xCB; 0x0B; 0xC9; 0x09; 0x08; 0xC8; 0xD8; 0x18; 0x19; 0xD9; 0x1B; 0xDB; 0xDA; 0x1A;
  0x1E; 0xDE; 0xDF; 0x1F; 0xDD; 0x1D; 0x1C; 0xDC; 0x14; 0xD4; 0xD5; 0x15; 0xD7; 0x17; 0x16; 0xD6; 0xD2; 0x12; 0x13; 0xD3;
  0x11; 0xD1; 0xD0; 0x10; 0xF0; 0x30; 0x31; 0xF1; 0x33; 0xF3; 0xF2; 0x32; 0x36; 0xF6; 0xF7; 0x37; 0xF5; 0x35; 0x34; 0xF4;
  0x3C; 0xFC; 0xFD; 0x3D; 0xFF; 0x3F; 0x3E; 0xFE; 0xFA; 0x3A; 0x3B; 0xFB; 0x39; 0xF9; 0xF8; 0x38; 0x28; 0xE8; 0xE9; 0x29;
  0xEB; 0x2B; 0x2A; 0xEA; 0xEE; 0x2E; 0x2F; 0xEF; 0x2D; 0xED; 0xEC; 0x2C; 0xE4; 0x24; 0x25; 0xE5; 0x27; 0xE7; 0xE6; 0x26;
  0x22; 0xE2; 0xE3; 0x23; 0xE1; 0x21; 0x20; 0xE0; 0xA0; 0x60; 0x61; 0xA1; 0x63; 0xA3; 0xA2; 0x62; 0x66; 0xA6; 0xA7; 0x67;
  0xA5; 0x65; 0x64; 0xA4; 0x6C; 0xAC; 0xAD; 0x6D; 0xAF; 0x6F; 0x6E; 0xAE; 0xAA; 0x6A; 0x6B; 0xAB; 0x69; 0xA9; 0xA8; 0x68;
  0x78; 0xB8; 0xB9; 0x79; 0xBB; 0x7B; 0x7A; 0xBA; 0xBE; 0x7E; 0x7F; 0xBF; 0x7D; 0xBD; 0xBC; 0x7C; 0xB4; 0x74; 0x75; 0xB5;
  0x77; 0xB7; 0xB6; 0x76; 0x72; 0xB2; 0xB3; 0x73; 0xB1; 0x71; 0x70; 0xB0; 0x50; 0x90; 0x91; 0x51; 0x93; 0x53; 0x52; 0x92;
  0x96; 0x56; 0x57; 0x97; 0x55; 0x95; 0x94; 0x54; 0x9C; 0x5C; 0x5D; 0x9D; 0x5F; 0x9F; 0x9E; 0x5E; 0x5A; 0x9A; 0x9B; 0x5B;
  0x99; 0x59; 0x58; 0x98; 0x88; 0x48; 0x49; 0x89; 0x4B; 0x8B; 0x8A; 0x4A; 0x4E; 0x8E; 0x8F; 0x4F; 0x8D; 0x4D; 0x4C; 0x8C;
  0x44; 0x84; 0x85; 0x45; 0x87; 0x47; 0x46; 0x86; 0x82; 0x42; 0x43; 0x83; 0x41; 0x81; 0x80; 0x40].

(** One round of the loop of [crc16]: the two halves of the sum. *)
Definition crc_step (c : Z * Z) (b : Z) : Z * Z :=
  let uIndex := Z.to_nat (Z.lxor c.1 b) in
  (Z.lxor c.2 (nth uIndex auchCRCHi 0), nth uIndex auchCRCLo 0).

Definition crc_loop (c : Z * Z) (msg : list Z) : Z * Z := foldl crc_step c msg.

(** [crc16(puchMsg, usDataLen)] on the [usDataLen] bytes that it reads. *)
Definition crc16 (msg : list Z) : Z :=
  let c := crc_loop (0xFF, 0xFF) msg in Z.lor (Z.shiftl c.1 8) c.2.

(** ** The check sum as its definition: a shift register of 16 bits with the
    polynomial 0xA001, one bit at a time *)

Definition crc_bit (r : Z) : Z :=
  if Z.odd r then Z.lxor (Z.shiftr r 1) 0xA001 else Z.shiftr r 1.
Definition crc_byte (r b : Z) : Z := Nat.iter 8 crc_bit (Z.lxor r b).
Definition crc_reference (msg : list Z) : Z := foldl crc_byte 0xFFFF msg.
Definition swap_bytes (r : Z) : Z := (r mod 256) * 256 + r / 256.

(** ** The master: master.c and the second serial port of uart.c *)

Definition READ_COIL : Z := 1.
Definition READ_DI : Z := 2.
Definition READ_HLD_REG : Z := 3.
Definition READ_AI : Z := 4.
Definition SET_HLD_REG : Z := 6.
Definition NEIZU_CAIJI : Z := 7.
Definition PROTOCOL_EXCEPTION : Z := 0x81.
Definition PROTOCOL_ERR : Z := 1.

(** The globals; [wire] are the bytes given to [USART_SendData], [tim2_on] says
    that the timer that ends a frame runs.  Both buffers hold 32 bytes. *)
Record modbus := mk_modbus {
  sendBuf2 : list Z;
  sendCount2 : Z;
  sendPosi2 : Z;
  receBuf2 : list Z;
  receCount2 : Z;
  checkoutError2 : Z;
  modbus_com2_over : Z;
  slaveraddr : Z;
  wire : list Z;
  tim2_on : bool
}.

Definition set_send (buf : list Z) (count : Z) (m : modbus) : modbus :=
  mk_modbus buf count (sendPosi2 m) (receBuf2 m) (receCount2 m) (checkoutError2 m) (modbus_com2_over m) (slaveraddr m)
    (wire m) (tim2_on m).
Definition set_sendPosi2 (v : Z) (m : modbus) : modbus :=
  mk_modbus (sendBuf2 m) (sendCount2 m) v (receBuf2 m) (receCount2 m) (checkoutError2 m) (modbus_com2_over m)
    (slaveraddr m) (wire m) (tim2_on m).
Definition set_rece (buf : list Z) (count : Z) (m : modbus) : modbus :=
  mk_modbus (sendBuf2 m) (sendCount2 m) (sendPosi2 m) buf count (checkoutError2 m) (modbus_com2_over m) (slaveraddr m)
    (wire m) (tim2_on m).
Definition set_checkoutError2 (v : Z) (m : modbus) : modbus :=
  mk_modbus (sendBuf2 m) (sendCount2 m) (sendPosi2 m) (receBuf2 m) (receCount2 m) v (modbus_com2_over m) (slaveraddr m)
    (wire m) (tim2_on m).
Definition set_over (v : Z) (m : modbus) : modbus :=
  mk_modbus (sendBuf2 m) (sendCount2 m) (sendPosi2 m) (receBuf2 m) (receCount2 m) (checkoutError2 m) v (slaveraddr m)
    (wire m) (tim2_on m).
Definition set_tim2 (b : bool) (m : modbus) : modbus :=
  mk_modbus (sendBuf2 m) (sendCount2 m) (sendPosi2 m) (receBuf2 m) (receCount2 m) (checkoutError2 m)
    (modbus_com2_over m) (slaveraddr m) (wire m) b.

(** Reads and writes through a buffer fault outside of it. *)
Definition USART_SendData (f : modbus -> option Z) : M modbus unit :=
  b ← deref f;
  modify (fun m => mk_modbus (sendBuf2 m) (sendCount2 m) (sendPosi2 m) (receBuf2 m) (receCount2 m) (checkoutError2 m)
    (modbus_com2_over m) (slaveraddr m) (wire m ++ [b]) (tim2_on m)).

Definition beginSend2 : M modbus unit :=
  modify (set_sendPosi2 0);;
  n ← gets sendCount2;
  when (1 <? n) (modify (fun m => set_send (sendBuf2 m) (n - 1) m));;
  USART_SendData (fun m => sendBuf2 m !! 0%nat).

(** [construct_rtu_frm] with [com_buf] the send buffer, as in every call: the
    sum is stored behind the [lenth] bytes of [src], then all are copied. *)
Definition construct_rtu_frm (dst src : list Z) (lenth : nat) : option (list Z) :=
  let crc_tmp := crc16 (take lenth src) in
  if Nat.leb (lenth + 2) (length src) && Nat.leb (lenth + 2) (length dst) then
    let src := <[(lenth + 1)%nat := Z.land crc_tmp 255]> (<[lenth := Z.shiftr crc_tmp 8]> src) in
    Some (take (lenth + 2) src ++ drop (lenth + 2) dst)
  else None.

Definition HI (n : Z) : Z := u8 (Z.shiftr n 8).
Definition LOW (n : Z) : Z := Z.land n 255.

(** The local [tmp[32]] with its first six bytes set. *)
Definition request_bytes (board_adr code a b : Z) : list Z :=
  [board_adr; code; HI a; LOW a; HI b; LOW b] ++ replicate 26 0.

Definition rtu_request (board_adr code a b : Z) : M modbus Z :=
  buf ← deref (fun m => construct_rtu_frm (sendBuf2 m) (request_bytes board_adr code a b) 6);
  modify (set_send buf 8);;
  beginSend2;;
  mret 8.

Definition rtu_neizu_order (board_adr start_address lenth : Z) : M modbus Z :=
  rtu_request board_adr NEIZU_CAIJI start_address lenth.
Definition rtu_read_hldreg (board_adr start_address lenth : Z) : M modbus Z :=
  rtu_request board_adr READ_HLD_REG start_address lenth.
Definition rtu_set_hldreg (board_adr start_address value : Z) : M modbus Z :=
  rtu_request board_adr SET_HLD_REG start_address value.

Definition Timer2_enable : M modbus unit := modify (set_tim2 true).
Definition Timer2_disable : M modbus unit := modify (set_tim2 false).

(** The interrupt of the serial port: [rxne] is the byte received, if any, [tc]
    the end of a transmission. *)
Definition USART2_IRQHandler (rxne : option Z) (tc : bool) : M modbus unit :=
  match rxne with
  | Some b =>
      m ← get;
      rt_assert (receCount2 m <? Z.of_nat (length (receBuf2 m)));;
      modify (set_rece (<[Z.to_nat (receCount2 m) := b]> (receBuf2 m)) (u8 (receCount2 m + 1)));;
      Timer2_enable
  | None =>
      when tc (
        m ← get;
        if sendPosi2 m <? sendCount2 m then
          modify (set_sendPosi2 (u8 (sendPosi2 m + 1)));;
          USART_SendData (fun m => sendBuf2 m !! Z.to_nat (sendPosi2 m))
        else
          modify (set_rece (receBuf2 m) 0);; modify (set_checkoutError2 0))
  end.

(** The timer of timer1.c that runs out when a frame has ended. *)
Definition TIM2_IRQHandler (update : bool) : M modbus unit :=
  when update (Timer2_disable;; modify (set_over 2)).

(** The destination of the analysis, next to the globals. *)
Definition dest_write (i : nat) (v : Z) : M (list Z * modbus) unit :=
  st ← get; rt_assert (Nat.ltb i (length st.1));; modify (fun st => (<[i := v]> st.1, st.2)).
Definition src_at (i : nat) : M (list Z * modbus) Z := deref (fun st => receBuf2 st.2 !! i).
Definition src_write (i : nat) (v : Z) : M (list Z * modbus) unit :=
  modify (fun st => (st.1, set_rece (<[i := v]> (receBuf2 st.2)) (receCount2 st.2) st.2)).

(** The two nested loops of the coil cases: every bit is taken from byte 3,
    which is shifted down. *)
Fixpoint coil_bits (n : nat) (pos : nat) : M (list Z * modbus) unit :=
  match n with
  | O => mret tt
  | S n =>
      b ← src_at 3;
      dest_write pos (Z.land 1 b);;
      src_write 3 (Z.shiftr b 1);;
      coil_bits n (S pos)
  end.
Fixpoint coil_bytes (n : nat) (pos : nat) : M (list Z * modbus) unit :=
  match n with O => mret tt | S n => coil_bits 8 pos;; coil_bytes n (pos + 8) end.

(** The loop of the register cases; [tmp1] is an [u8], so the bound 255 is
    never reached: the model stops at the end of the buffer. *)
Fixpoint register_loop (fuel : nat) (tmp1 bound : Z) (start : nat) : M (list Z * modbus) unit :=
  if tmp1 <? bound then
    match fuel with
    | O => fault
    | S fuel =>
        h ← src_at (Z.to_nat (tmp1 + 3));
        l ← src_at (Z.to_nat (tmp1 + 4));
        dest_write (start + Z.to_nat (tmp1 / 2)) (u16 (h * 256 + l));;
        register_loop fuel (u8 (tmp1 + 2)) bound start
    end
  else mret tt.

(** [rtu_data_anlys(dest_p, receBuf2, data_start_address, fr_lenth)]. *)
Definition rtu_data_anlys (start fr_lenth : nat) : M (list Z * modbus) Z :=
  a ← src_at (fr_lenth - 2);
  b ← src_at (fr_lenth - 1);
  st ← get;
  if u16 (a * 256 + b) =? crc16 (take (fr_lenth - 2) (receBuf2 st.2)) then
    code ← src_at 1;
    n ← src_at 2;
    if (code =? READ_COIL) || (code =? READ_DI) then
      coil_bytes (Z.to_nat n) start;;
      modify (fun st => (st.1, set_rece (receBuf2 st.2) 0 st.2));; mret 0
    else if (code =? READ_HLD_REG) || (code =? READ_AI) then
      register_loop 128 0 n start;;
      modify (fun st => (st.1, set_rece (receBuf2 st.2) 0 st.2));; mret 0
    else mret (- PROTOCOL_ERR)
  else mret 0.

Definition modbus_set_pwm (pwm : Z) : M modbus unit :=
  a ← gets slaveraddr; rtu_set_hldreg a 0x40 (u16 pwm);; mret tt.

(** The request is sent; the answer to an earlier one is analysed. *)
Definition modbus_read_current : M modbus Z :=
  a ← gets slaveraddr;
  rtu_read_hldreg a 0x11 0x01;;
  m ← get;
  b ← deref (fun m => receBuf2 m !! 0%nat);
  if (modbus_com2_over m =? 2) && (b =? a) then
    modify (set_over 0);;
    m ← get;
    match rtu_data_anlys 0 7 ([0], m) with
    | Ok _ (dest, m') => put m';; deref (fun _ => dest !! 0%nat)
    | Fault => fault
    end
  else mret 0.

(** ** The table computes the reference *)

Lemma crc_bit_lxor x y : crc_bit (Z.lxor x (2 * y)) = Z.lxor (crc_bit x) y.
Proof.
  unfold crc_bit.
  assert (Z.odd (Z.lxor x (2 * y)) = Z.odd x) as ->
    by (rewrite <- !Z.bit0_odd, Z.lxor_spec, !Z.bit0_odd, Z.odd_mul; simpl; apply xorb_false_r).
  assert (Z.shiftr (Z.lxor x (2 * y)) 1 = Z.lxor (Z.shiftr x 1) y) as ->.
  { rewrite Z.shiftr_lxor. f_equal. rewrite Z.shiftr_div_pow2, Z.mul_comm by lia. apply Z.div_mul. lia. }
  destruct (Z.odd x); [|done]. by rewrite !Z.lxor_assoc, (Z.lxor_comm y).
Qed.

Lemma crc_bits_lxor n x y :
  Nat.iter n crc_bit (Z.lxor x (Z.shiftl y (Z.of_nat n))) = Z.lxor (Nat.iter n crc_bit x) y.
Proof.
  revert x y. induction n as [|n IH]; intros x y; [by rewrite Z.shiftl_0_r|].
  replace (Z.shiftl y (Z.of_nat (S n))) with (Z.shiftl (2 * y) (Z.of_nat n)).
  2:{ rewrite !Z.shiftl_mul_pow2, Nat2Z.inj_succ, Z.pow_succ_r by lia. ring. }
  cbn [Nat.iter nat_rect]. change (crc_bit (Nat.iter n crc_bit (Z.lxor x (Z.shiftl (2 * y) (Z.of_nat n))))
    = Z.lxor (crc_bit (Nat.iter n crc_bit x)) y). by rewrite IH, crc_bit_lxor.
Qed.

(** The sum as one register: [uchCRCHi] is its low byte. *)
Definition crc_register (c : Z * Z) : Z := Z.lxor c.1 (Z.shiftl c.2 8).
Definition crc_bytes (c : Z * Z) : Prop := is_byte c.1 /\ is_byte c.2.

Definition table_ok (i : nat) : bool :=
  let hi := nth i auchCRCHi 0 in let lo := nth i auchCRCLo 0 in
  (0 <=? hi) && (hi <? 256) && (0 <=? lo) && (lo <? 256) &&
  (crc_register (hi, lo) =? Nat.iter 8 crc_bit (Z.of_nat i)).

Lemma table_entry i :
  (i < 256)%nat -> crc_bytes (nth i auchCRCHi 0, nth i auchCRCLo 0) /\
    crc_register (nth i auchCRCHi 0, nth i auchCRCLo 0) = Nat.iter 8 crc_bit (Z.of_nat i).
Proof.
  intros Hi. assert (forallb table_ok (seq 0 256) = true) as H by (vm_compute; reflexivity).
  rewrite forallb_forall in H. specialize (H i). rewrite in_seq in H. specialize (H ltac:(lia)).
  unfold table_ok in H. cbv zeta in H. to_prop. unfold crc_bytes, is_byte. cbn [fst snd]. split_and!; done.
Qed.

Lemma crc_index c b : crc_bytes c -> is_byte b -> (Z.to_nat (Z.lxor c.1 b) < 256)%nat /\ 0 <= Z.lxor c.1 b.
Proof. intros [H1 H2] Hb. pose proof (lxor_byte _ _ H1 Hb) as Hx. unfold is_byte in Hx. lia. Qed.

Lemma crc_step_bytes c b : crc_bytes c -> is_byte b -> crc_bytes (crc_step c b).
Proof.
  intros Hc Hb. destruct (table_entry _ (proj1 (crc_index c b Hc Hb))) as [[H1 H2] _].
  split; [apply lxor_byte; [apply Hc|done]|done].
Qed.

Lemma crc_loop_bytes c msg : crc_bytes c -> Forall is_byte msg -> crc_bytes (crc_loop c msg).
Proof.
  unfold crc_loop. revert c. induction msg as [|b msg IH]; intros c Hc Hm; [done|].
  apply Forall_cons in Hm as [Hb Hm]. apply IH; [by apply crc_step_bytes|done].
Qed.

Lemma crc_step_register c b :
  crc_bytes c -> is_byte b -> crc_register (crc_step c b) = crc_byte (crc_register c) b.
Proof.
  intros Hc Hb. destruct (crc_index c b Hc Hb) as [Hi Hp]. destruct (table_entry _ Hi) as [_ Ht].
  unfold crc_step, crc_byte. unfold crc_register at 2.
  rewrite (Z.lxor_comm (Z.lxor c.1 _) b), <- Z.lxor_assoc, (Z.lxor_comm b c.1).
  change 8 with (Z.of_nat 8). rewrite crc_bits_lxor.
  replace (Z.lxor c.1 b) with (Z.of_nat (Z.to_nat (Z.lxor c.1 b))) at 3 by lia. rewrite <- Ht.
  unfold crc_register. cbn [fst snd]. rewrite (Z.lxor_comm c.2), !Z.lxor_assoc. f_equal. apply Z.lxor_comm.
Qed.

Lemma crc_loop_register c msg :
  crc_bytes c -> Forall is_byte msg -> crc_register (crc_loop c msg) = foldl crc_byte (crc_register c) msg.
Proof.
  unfold crc_loop. revert c. induction msg as [|b msg IH]; intros c Hc Hm; [done|].
  apply Forall_cons in Hm as [Hb Hm]. cbn [foldl]. rewrite IH, crc_step_register by (done || by apply crc_step_bytes).
  done.
Qed.

Lemma crc_init_bytes : crc_bytes (0xFF, 0xFF).
Proof. split; unfold is_byte; simpl; lia. Qed.

(** C29: the table-driven [crc16] computes the CRC-16 of Modbus, the remainder
    that the bitwise shift register defines, with its two bytes in the order in
    which they are sent. *)
Theorem crc16_is_reference msg : Forall is_byte msg -> crc16 msg = swap_bytes (crc_reference msg).
Proof.
  intros Hm. unfold crc16, crc_reference. change 0xFFFF with (crc_register (0xFF, 0xFF)).
  rewrite <- crc_loop_register by (done || apply crc_init_bytes).
  destruct (crc_loop_bytes _ _ crc_init_bytes Hm) as [H1 H2]. unfold is_byte in *.
  cbv zeta. unfold crc_register, swap_bytes. rewrite lor_shift, lxor_shift by lia.
  change (2 ^ 8) with 256. Z.to_euclidean_division_equations. lia.
Qed.

Lemma crc16_is_reference_witness : crc16 [1; 3; 0; 17; 0; 1] = swap_bytes (crc_reference [1; 3; 0; 17; 0; 1]).
Proof. apply crc16_is_reference. repeat constructor; done. Defined.

(** ** What the check sum detects *)

(** A check sum by a state machine over bytes: a step loses nothing of the
    state and nothing of the byte, and two steps lose nothing of two bytes. *)
Class ByteSum {S : Type} (valid : S -> Prop) (step : S -> Z -> S) : Prop := {
  sum_valid c b : valid c -> is_byte b -> valid (step c b);
  sum_inj_state c c' b : valid c -> valid c' -> is_byte b -> step c b = step c' b -> c = c';
  sum_inj_bytes c a b a' b' : valid c -> is_byte a -> is_byte b -> is_byte a' -> is_byte b' ->
    step (step c a) b = step (step c a') b' -> a = a' /\ b = b'
}.

Section byte_sum.
Context {S : Type} {valid : S -> Prop} {step : S -> Z -> S} `{!ByteSum valid step}.

Lemma sum_run_valid c msg : valid c -> Forall is_byte msg -> valid (foldl step c msg).
Proof.
  revert c. induction msg as [|b msg IH]; intros c Hc Hm; [done|]. apply Forall_cons in Hm as [Hb Hm].
  apply IH; [by apply sum_valid|done].
Qed.

(** The bytes behind an error do not repair the sum. *)
Lemma sum_run_inj c c' msg :
  valid c -> valid c' -> Forall is_byte msg -> foldl step c msg = foldl step c' msg -> c = c'.
Proof.
  revert c c'. induction msg as [|b msg IH]; intros c c' Hc Hc' Hm E; [done|]. apply Forall_cons in Hm as [Hb Hm].
  apply (sum_inj_state c c' b); [done..|]. apply IH; [by apply sum_valid|by apply sum_valid|done|done].
Qed.

Lemma sum_detects c p q a b a' b' :
  valid c -> Forall is_byte p -> Forall is_byte q -> is_byte a -> is_byte b -> is_byte a' -> is_byte b' ->
  foldl step c (p ++ a :: b :: q) = foldl step c (p ++ a' :: b' :: q) -> a = a' /\ b = b'.
Proof.
  intros Hc Hp Hq Ha Hb Ha' Hb'. rewrite !foldl_app. cbn [foldl]. intros E.
  pose proof (sum_run_valid c p Hc Hp) as Hv.
  apply sum_run_inj in E; [|by repeat apply sum_valid..|done].
  by apply (sum_inj_bytes (foldl step c p)).
Qed.
End byte_sum.

Definition lo_inverse (v : Z) : nat :=
  default 0%nat (fst <$> list_find (fun x => x = v) auchCRCLo).

Lemma crc_lo_inj i j : (i < 256)%nat -> (j < 256)%nat -> nth i auchCRCLo 0 = nth j auchCRCLo 0 -> i = j.
Proof.
  intros Hi Hj E.
  assert (forallb (fun i => Nat.eqb (lo_inverse (nth i auchCRCLo 0)) i) (seq 0 256) = true) as H by (vm_compute; reflexivity).
  rewrite forallb_forall in H.
  pose proof (H i) as H1. pose proof (H j) as H2. rewrite in_seq, Nat.eqb_eq in H1, H2.
  rewrite <- (H1 ltac:(lia)), <- (H2 ltac:(lia)). by rewrite E.
Qed.

Lemma lxor_cancel_l a b c : Z.lxor a b = Z.lxor a c -> b = c.
Proof. intros E. apply (f_equal (Z.lxor a)) in E. by rewrite <- !Z.lxor_assoc, Z.lxor_nilpotent, !Z.lxor_0_l in E. Qed.

Lemma lxor_cancel_r a b c : Z.lxor b a = Z.lxor c a -> b = c.
Proof. rewrite (Z.lxor_comm b), (Z.lxor_comm c). apply lxor_cancel_l. Qed.

Lemma crc_step_inj c c' b b' :
  crc_bytes c -> crc_bytes c' -> is_byte b -> is_byte b' -> crc_step c b = crc_step c' b' ->
  Z.lxor c.1 b = Z.lxor c'.1 b' /\ c.2 = c'.2.
Proof.
  intros Hc Hc' Hb Hb' E. unfold crc_step in E. injection E as E1 E2.
  destruct (crc_index c b Hc Hb) as [Hi Hp], (crc_index c' b' Hc' Hb') as [Hi' Hp'].
  apply crc_lo_inj in E2; [|done..]. rewrite E2 in E1. apply lxor_cancel_r in E1. split; [lia|done].
Qed.

#[global] Instance crc_byte_sum : ByteSum crc_bytes crc_step.
Proof.
  split.
  - apply crc_step_bytes.
  - intros c c' b Hc Hc' Hb E. apply crc_step_inj in E as [E1 E2]; [|done..]. apply lxor_cancel_r in E1.
    destruct c, c'. by simpl in *; subst.
  - intros c a b a' b' Hc Ha Hb Ha' Hb' E. apply crc_step_inj in E as [E1 E2]; [|by try apply crc_step_bytes..].
    apply crc_lo_inj in E2; [|by apply crc_index..].
    pose proof (crc_index c a Hc Ha). pose proof (crc_index c a' Hc Ha').
    assert (a = a') as -> by (apply (lxor_cancel_l c.1); lia). split; [done|]. by apply lxor_cancel_l in E1.
Qed.

(** ** Frames *)

(** The bytes of a message followed by its check sum, high byte first. *)
Definition with_crc (msg : list Z) : list Z := msg ++ [Z.shiftr (crc16 msg) 8; Z.land (crc16 msg) 255].

(** The comparison of [rtu_data_anlys]: the last two bytes against the sum of
    the bytes before them. *)
Definition frame_ok (f : list Z) : bool :=
  let n := (length f - 2)%nat in u16 (nth n f 0 * 256 + nth (n + 1) f 0) =? crc16 (take n f).

Lemma crc16_halves msg :
  Forall is_byte msg ->
  let c := crc_loop (0xFF, 0xFF) msg in
  crc16 msg = c.1 * 256 + c.2 /\ Z.shiftr (crc16 msg) 8 = c.1 /\ Z.land (crc16 msg) 255 = c.2.
Proof.
  intros Hm c. destruct (crc_loop_bytes _ _ crc_init_bytes Hm) as [H1 H2]. unfold is_byte in *. fold c in H1, H2.
  assert (crc16 msg = c.1 * 256 + c.2) as -> by (unfold crc16; cbv zeta; fold c; by rewrite lor_shift).
  rewrite land_255, Z.shiftr_div_pow2 by lia. split; [done|]. change (2 ^ 8) with 256.
  split; Z.to_euclidean_division_equations; lia.
Qed.

(** A byte equal to the first half of the sum shifts it out. *)
Lemma crc_step_self h l : is_byte h -> crc_step (h, l) h = (l, 0).
Proof. intros Hh. unfold crc_step. cbn [fst snd]. by rewrite Z.lxor_nilpotent, Z.lxor_0_r. Qed.

(** A frame passes the check exactly when the sum of all its bytes is zero. *)
Lemma frame_ok_residue msg a b :
  Forall is_byte msg -> is_byte a -> is_byte b ->
  frame_ok (msg ++ [a; b]) = true <-> crc_loop (0xFF, 0xFF) (msg ++ [a; b]) = (0, 0).
Proof.
  intros Hm Ha Hb. destruct (crc16_halves msg Hm) as [E _]. set (c := crc_loop (0xFF, 0xFF) msg) in *.
  pose proof (crc_loop_bytes _ _ crc_init_bytes Hm) as Hc. fold c in Hc.
  assert (frame_ok (msg ++ [a; b]) = true <-> (a, b) = c) as ->.
  { unfold frame_ok. rewrite length_app. cbn [length]. replace (length msg + 2 - 2)%nat with (length msg) by lia.
    rewrite take_app_length, !app_nth2 by lia. replace (length msg - length msg)%nat with 0%nat by lia.
    replace (length msg + 1 - length msg)%nat with 1%nat by lia. cbn [nth]. rewrite E. unfold is_byte in *.
    rewrite u16_small, Z.eqb_eq by lia. destruct Hc as [H1 H2], c as [h l]. unfold is_byte in *. simpl in *.
    split; [intros; f_equal; lia|by intros [= -> ->]]. }
  unfold crc_loop. rewrite foldl_app. fold (crc_loop (0xFF, 0xFF) msg). fold c. cbn [foldl].
  assert (crc_step (crc_step c c.1) c.2 = (0, 0)) as Hz.
  { destruct c as [h l], Hc as [H1 H2]. cbn [fst snd] in *. by rewrite (crc_step_self h l), (crc_step_self l 0). }
  split; [by intros <-|]. rewrite <- Hz. intros E2.
  destruct (sum_inj_bytes c a b c.1 c.2 Hc Ha Hb (proj1 Hc) (proj2 Hc) E2) as [-> ->]. by destruct c.
Qed.

Lemma with_crc_ok msg : Forall is_byte msg -> frame_ok (with_crc msg) = true.
Proof.
  intros Hm. unfold with_crc. destruct (crc16_halves msg Hm) as (_ & -> & ->).
  destruct (crc_loop_bytes _ _ crc_init_bytes Hm) as [H1 H2].
  apply frame_ok_residue; [done..|]. unfold crc_loop. rewrite foldl_app. fold (crc_loop (0xFF, 0xFF) msg).
  destruct (crc_loop (0xFF, 0xFF) msg) as [h l]. cbn [foldl fst snd] in *.
  by rewrite (crc_step_self h l), (crc_step_self l 0).
Qed.

Lemma last_two (f : list Z) : (2 <= length f)%nat -> exists msg a b, f = msg ++ [a; b].
Proof.
  intros Hl. induction f as [|b f _] using rev_ind; [simpl in Hl; lia|].
  induction f as [|a f _] using rev_ind; [simpl in Hl; lia|]. exists f, a, b. by rewrite <- app_assoc.
Qed.

Lemma frame_ok_zero f :
  Forall is_byte f -> (2 <= length f)%nat -> frame_ok f = true <-> crc_loop (0xFF, 0xFF) f = (0, 0).
Proof.
  intros Hf (msg & a & b & ->)%last_two. apply Forall_app in Hf as [Hm [Ha [Hb _]%Forall_cons]%Forall_cons].
  by apply frame_ok_residue.
Qed.

(** A frame that passes the check and is then damaged within two neighbouring
    bytes, check sum included, does not pass it any more. *)
Lemma frame_damage_rejected p q a b a' b' :
  Forall is_byte p -> Forall is_byte q -> is_byte a -> is_byte b -> is_byte a' -> is_byte b' ->
  frame_ok (p ++ a :: b :: q) = true -> (a, b) ≠ (a', b') -> frame_ok (p ++ a' :: b' :: q) = false.
Proof.
  intros Hp Hq Ha Hb Ha' Hb' Hok Hne. apply not_true_iff_false. intros Hok'.
  assert (forall x y, is_byte x -> is_byte y -> Forall is_byte (p ++ x :: y :: q) /\ (2 <= length (p ++ x :: y :: q))%nat) as Hf
    by (intros x y Hx Hy; split; [by apply Forall_app; split; [|repeat (constructor; [done|])]|rewrite length_app; simpl; lia]).
  apply frame_ok_zero in Hok; [|by apply Hf..]. apply frame_ok_zero in Hok'; [|by apply Hf..].
  unfold crc_loop in *. rewrite <- Hok' in Hok.
  destruct (sum_detects (step := crc_step) (0xFF, 0xFF) p q a b a' b' crc_init_bytes Hp Hq Ha Hb Ha' Hb' Hok) as [-> ->].
  done.
Qed.

(** ** Sending *)

Fixpoint tc_irqs (k : nat) : M modbus unit :=
  match k with O => mret tt | S k => USART2_IRQHandler None true;; tc_irqs k end.

Definition request_frame (board_adr code a b : Z) : list Z :=
  with_crc [board_adr; code; HI a; LOW a; HI b; LOW b].

Lemma HI_byte n : is_byte (HI n).
Proof. apply u8_range. Qed.
Lemma LOW_byte n : is_byte (LOW n).
Proof. unfold LOW. rewrite land_255. apply Z.mod_pos_bound. lia. Qed.

Lemma length_with_crc msg : length (with_crc msg) = (length msg + 2)%nat.
Proof. unfold with_crc. by rewrite length_app. Qed.

Definition sent_byte (b : Z) (p : Z) (m : modbus) : modbus :=
  mk_modbus (sendBuf2 m) (sendCount2 m) p (receBuf2 m) (receCount2 m) (checkoutError2 m)
    (modbus_com2_over m) (slaveraddr m) (wire m ++ [b]) (tim2_on m).
Definition send_ended (m : modbus) : modbus := set_checkoutError2 0 (set_rece (receBuf2 m) 0 m).

Lemma run_tc_send m b :
  sendPosi2 m < sendCount2 m -> 0 <= sendPosi2 m < 255 -> sendBuf2 m !! Z.to_nat (sendPosi2 m + 1) = Some b ->
  USART2_IRQHandler None true m = Ok tt (sent_byte b (sendPosi2 m + 1) m).
Proof.
  intros Hlt Hr Hb. unfold USART2_IRQHandler, when. erewrite bind_Ok by reflexivity.
  rewrite (proj2 (Z.ltb_lt _ _) Hlt), u8_small by lia. erewrite bind_Ok by reflexivity.
  unfold USART_SendData. by run_step (run_deref (fun m => sendBuf2 m !! Z.to_nat (sendPosi2 m)) (set_sendPosi2 (sendPosi2 m + 1) m) b Hb).
Qed.

Lemma run_tc_done m : sendCount2 m <= sendPosi2 m -> USART2_IRQHandler None true m = Ok tt (send_ended m).
Proof.
  intros Hle. unfold USART2_IRQHandler, when. erewrite bind_Ok by reflexivity.
  by rewrite (proj2 (Z.ltb_ge _ _) Hle).
Qed.

(** Sending from position [p] on: each interrupt puts the next byte of the
    frame on the wire, until all eight are sent; the one after it clears the
    count of received bytes. *)
Lemma run_tc_irqs f rest k m p :
  length f = 8%nat -> sendBuf2 m = f ++ rest -> sendCount2 m = 7 -> sendPosi2 m = Z.of_nat p -> (p <= 7)%nat ->
  exists m', tc_irqs k m = Ok tt m' /\ wire m' = wire m ++ take k (drop (S p) f) /\
    (receCount2 m = 0 \/ (7 - p < k)%nat -> receCount2 m' = 0).
Proof.
  intros Hf. revert m p. induction k as [|k IH]; intros m p Hb Hc Hp Hle.
  { exists m. split; [done|]. rewrite app_nil_r. split; [done|lia]. }
  cbn [tc_irqs]. destruct (decide (p = 7%nat)) as [->|Hne].
  - run_step (run_tc_done m ltac:(lia)). destruct (IH (send_ended m) 7%nat) as (m' & -> & Hw & Hr); [done..|].
    exists m'. split; [done|]. split; [|intros _; apply Hr; by left].
    rewrite Hw, (drop_ge f 8), !take_nil by lia. done.
  - destruct (lookup_lt_is_Some_2 f (S p)) as [b Hfb]; [lia|].
    assert (sendBuf2 m !! Z.to_nat (sendPosi2 m + 1) = Some b) as Hl.
    { rewrite Hb, Hp. replace (Z.to_nat (Z.of_nat p + 1)) with (S p) by lia. by apply lookup_app_l_Some. }
    run_step (run_tc_send m b ltac:(lia) ltac:(lia) Hl).
    destruct (IH (sent_byte b (sendPosi2 m + 1) m) (S p)) as (m' & -> & Hw & Hr); [done|done|simpl; lia|lia|].
    exists m'. split; [done|]. split; [|intros H; apply Hr; simpl; lia].
    rewrite Hw. cbn [sent_byte wire]. rewrite <- app_assoc. f_equal.
    by rewrite (drop_S f b (S p) Hfb).
Qed.

Lemma run_rtu_request m addr code a b :
  length (sendBuf2 m) = 32%nat -> is_byte addr -> is_byte code ->
  exists rest, rtu_request addr code a b m = Ok 8
    (sent_byte addr 0 (set_send (request_frame addr code a b ++ rest) 7 m)).
Proof.
  intros Hl Ha Hc. exists (drop 8 (sendBuf2 m)). unfold rtu_request.
  assert (construct_rtu_frm (sendBuf2 m) (request_bytes addr code a b) 6
    = Some (request_frame addr code a b ++ drop 8 (sendBuf2 m))) as E.
  { unfold construct_rtu_frm. rewrite Hl. reflexivity. }
  run_step (run_deref (fun m => construct_rtu_frm (sendBuf2 m) (request_bytes addr code a b) 6) m _ E). reflexivity.
Qed.

(** A request of the master puts exactly the eight bytes of its frame on
    the wire, address, code, two 16-bit arguments high byte first and the check
    sum, in order, one for the request and one per transmit interrupt, and
    nothing after them; a receiver that checks the sum accepts the frame. *)
Theorem rtu_request_on_wire m addr code a b k :
  length (sendBuf2 m) = 32%nat -> is_byte addr -> is_byte code ->
  frame_ok (request_frame addr code a b) = true /\
  exists m', (rtu_request addr code a b;; tc_irqs k) m = Ok tt m' /\
    wire m' = wire m ++ take (S k) (request_frame addr code a b) /\
    ((8 <= k)%nat -> receCount2 m' = 0).
Proof.
  intros Hl Ha Hc. split.
  { apply with_crc_ok. repeat constructor; first [apply HI_byte|apply LOW_byte|apply Ha|apply Hc]. }
  destruct (run_rtu_request m addr code a b Hl Ha Hc) as (rest & E). run_step E.
  destruct (run_tc_irqs (request_frame addr code a b) rest k
    (sent_byte addr 0 (set_send (request_frame addr code a b ++ rest) 7 m)) 0) as (m' & -> & Hw & Hr);
    [apply length_with_crc|done|done|done|lia|].
  exists m'. split; [done|]. split; [|intros; apply Hr; lia]. rewrite Hw. simpl. by rewrite <- app_assoc.
Qed.

(** ** Receiving *)

Fixpoint rx_irqs (bytes : list Z) : M modbus unit :=
  match bytes with [] => mret tt | b :: bytes => USART2_IRQHandler (Some b) false;; rx_irqs bytes end.

Definition received_bytes (bytes : list Z) (m : modbus) : modbus :=
  set_tim2 (match bytes with [] => tim2_on m | _ => true end)
    (set_rece (list_inserts (Z.to_nat (receCount2 m)) bytes (receBuf2 m)) (receCount2 m + Z.of_nat (length bytes)) m).

Lemma run_rx m b :
  0 <= receCount2 m < Z.of_nat (length (receBuf2 m)) -> Z.of_nat (length (receBuf2 m)) <= 255 ->
  USART2_IRQHandler (Some b) false m
  = Ok tt (set_tim2 true (set_rece (<[Z.to_nat (receCount2 m) := b]> (receBuf2 m)) (receCount2 m + 1) m)).
Proof.
  intros Hr Hl. unfold USART2_IRQHandler. erewrite bind_Ok by reflexivity.
  rewrite (proj2 (Z.ltb_lt _ _) (proj2 Hr)). erewrite bind_Ok by reflexivity. by rewrite u8_small by lia.
Qed.

Lemma run_rx_irqs bytes m :
  0 <= receCount2 m -> Z.of_nat (length (receBuf2 m)) <= 255 ->
  rx_irqs bytes m =
    if decide (receCount2 m + Z.of_nat (length bytes) <= Z.of_nat (length (receBuf2 m)) \/ bytes = [])
    then Ok tt (received_bytes bytes m) else Fault.
Proof.
  revert m. induction bytes as [|b bytes IH]; intros m H0 Hl.
  { rewrite decide_True by auto. unfold received_bytes. cbn [rx_irqs list_inserts length]. unfold mret, M_ret.
    f_equal. rewrite Z.add_0_r. by destruct m. }
  cbn [rx_irqs]. destruct (decide (receCount2 m < Z.of_nat (length (receBuf2 m)))) as [Hlt|Hge].
  - run_step (run_rx m b (conj H0 Hlt) Hl). rewrite IH by (simpl; rewrite ?length_insert; lia).
    cbn [receCount2 receBuf2 set_tim2 set_rece]. rewrite length_insert. cbn [length].
    destruct (decide (receCount2 m + 1 + Z.of_nat (length bytes) <= Z.of_nat (length (receBuf2 m)) \/ bytes = [])) as [D|D].
    + rewrite decide_True by (left; destruct D as [D| ->]; simpl; lia). f_equal.
      unfold received_bytes, set_tim2, set_rece. simpl. f_equal.
      * replace (Z.to_nat (receCount2 m + 1)) with (S (Z.to_nat (receCount2 m))) by lia.
        symmetry. apply list_insert_inserts_lt. lia.
      * lia.
      * by destruct bytes.
    + rewrite decide_False; [done|]. intros [H|H]; [|done]. apply D. left. lia.
  - rewrite decide_False by (intros [H|H]; [simpl in H; lia|done]).
    unfold USART2_IRQHandler, mbind, M_bind, get. cbv beta iota.
    by rewrite (proj2 (Z.ltb_ge _ _)) by lia.
Qed.

(** The bytes of an answer are stored in the order in which they arrive,
    behind the ones already there, and the timer that ends the frame runs.
    There is no check of the buffer: one byte more than it holds is stored
    behind its end. *)
Theorem rx_stores_in_order bytes m :
  length (receBuf2 m) = 32%nat -> receCount2 m = 0 -> bytes ≠ [] ->
  if decide (length bytes <= 32)%nat then
    exists m', rx_irqs bytes m = Ok tt m' /\ receBuf2 m' = bytes ++ drop (length bytes) (receBuf2 m) /\
      receCount2 m' = Z.of_nat (length bytes) /\ tim2_on m' = true /\ wire m' = wire m
  else rx_irqs bytes m = Fault.
Proof.
  intros Hl H0 Hne. rewrite run_rx_irqs by lia. rewrite H0, Hl. case_decide as D.
  - rewrite decide_True by lia. eexists. split; [reflexivity|]. cbn [received_bytes set_tim2 set_rece receBuf2 receCount2 tim2_on wire].
    rewrite H0. split_and!; [|lia|by destruct bytes|done]. change (Z.to_nat 0) with 0%nat.
    rewrite <- (take_drop (length bytes) (receBuf2 m)) at 1. apply list_inserts_0_r. rewrite length_take. lia.
  - rewrite decide_False; [done|]. intros [H|H]; [lia|done].
Qed.

(** ** The analysis of an answer *)

Definition words (vals : list Z) : list Z := flat_map (fun v => [HI v; LOW v]) vals.

(** The answer of a slave to a request for registers. *)
Definition register_answer (addr code : Z) (vals : list Z) : list Z :=
  with_crc ([addr; code; 2 * Z.of_nat (length vals)] ++ words vals).

Definition is_u16 (v : Z) : Prop := 0 <= v < 65536.

Lemma word_value v : is_u16 v -> u16 (HI v * 256 + LOW v) = v.
Proof.
  unfold is_u16, HI, LOW, u8, u16. intros. rewrite land_255, Z.shiftr_div_pow2 by lia.
  Z.to_euclidean_division_equations. lia.
Qed.

Lemma length_words vals : length (words vals) = (2 * length vals)%nat.
Proof. induction vals; simpl; [done|]. unfold words in *. lia. Qed.

Lemma words_bytes vals : Forall is_byte (words vals).
Proof. induction vals as [|v vals IH]; simpl; [done|]. repeat constructor; [apply HI_byte..|apply LOW_byte|apply LOW_byte|apply IH]. Qed.

Lemma run_src_at i v dest m : receBuf2 m !! i = Some v -> src_at i (dest, m) = Ok v (dest, m).
Proof. intros. by apply (run_deref (fun st : list Z * modbus => receBuf2 st.2 !! i)). Qed.

Lemma run_dest_write i v dest m :
  (i < length dest)%nat -> dest_write i v (dest, m) = Ok tt (<[i := v]> dest, m).
Proof.
  intros Hi. unfold dest_write. erewrite bind_Ok by reflexivity. cbn [fst].
  by rewrite (proj2 (Nat.ltb_lt _ _) Hi).
Qed.

Lemma run_register_loop vals : forall fuel i start dest m pre rest,
  receBuf2 m = pre ++ words vals ++ rest -> length pre = (3 + 2 * i)%nat -> Forall is_u16 vals ->
  (2 * (i + length vals) <= 254)%nat -> (start + i + length vals <= length dest)%nat -> (length vals <= fuel)%nat ->
  register_loop fuel (2 * Z.of_nat i) (2 * Z.of_nat (i + length vals)) start (dest, m)
  = Ok tt (list_inserts (start + i) vals dest, m).
Proof.
  induction vals as [|v vals IH]; intros fuel i start dest m pre rest Hb Hp Hv Hn Hd Hf.
  { cbn [length]. destruct fuel; cbn [register_loop]; rewrite (proj2 (Z.ltb_ge _ _)) by lia; done. }
  apply Forall_cons in Hv as [Hv Hvs]. destruct fuel as [|fuel]; [simpl in Hf; lia|].
  cbn [length] in *. cbn [register_loop]. rewrite (proj2 (Z.ltb_lt _ _)) by lia.
  assert (receBuf2 m !! Z.to_nat (2 * Z.of_nat i + 3) = Some (HI v)) as H1.
  { rewrite Hb, lookup_app_r by lia. by replace (Z.to_nat _ - length pre)%nat with 0%nat by lia. }
  assert (receBuf2 m !! Z.to_nat (2 * Z.of_nat i + 4) = Some (LOW v)) as H2.
  { rewrite Hb, lookup_app_r by lia. by replace (Z.to_nat _ - length pre)%nat with 1%nat by lia. }
  run_step (run_src_at _ _ dest m H1). run_step (run_src_at _ _ dest m H2).
  rewrite (word_value v Hv). replace (2 * Z.of_nat i / 2) with (Z.of_nat i) by (rewrite Z.mul_comm, Z.div_mul; lia).
  rewrite Nat2Z.id. run_step (run_dest_write (start + i) v dest m ltac:(lia)).
  rewrite u8_small by lia.
  replace (2 * Z.of_nat i + 2) with (2 * Z.of_nat (S i)) by lia.
  replace (i + S (length vals))%nat with (S i + length vals)%nat by lia.
  rewrite (IH fuel (S i) start _ m (pre ++ [HI v; LOW v]) rest); [|by rewrite Hb, <- app_assoc|
    rewrite length_app; simpl; lia|done|lia|rewrite length_insert; lia|lia].
  f_equal. f_equal. cbn [list_inserts]. replace (start + S i)%nat with (S (start + i)) by lia.
  symmetry. apply list_insert_inserts_lt. lia.
Qed.

(** The answer is the frame [f] at the front of the buffer. *)
Lemma anlys_test f rest :
  (2 <= length f)%nat ->
  (f ++ rest) !! (length f - 2)%nat = Some (nth (length f - 2) f 0) /\
  (f ++ rest) !! (length f - 1)%nat = Some (nth (length f - 2 + 1) f 0) /\
  take (length f - 2) (f ++ rest) = take (length f - 2) f.
Proof.
  intros Hl. rewrite !lookup_app_l by lia. replace (length f - 2 + 1)%nat with (length f - 1)%nat by lia.
  rewrite take_app_le by lia. split_and!; [..|done].
  - destruct (nth_lookup_or_length f (length f - 2) 0); [done|lia].
  - destruct (nth_lookup_or_length f (length f - 1) 0); [done|lia].
Qed.

Section answer.
Context (f rest dest : list Z) (m : modbus) (start : nat).
Context (Hb : receBuf2 m = f ++ rest) (Hl : (3 <= length f)%nat).

Lemma run_anlys_rejected : frame_ok f = false -> rtu_data_anlys start (length f) (dest, m) = Ok 0 (dest, m).
Proof.
  intros Hf. destruct (anlys_test f rest ltac:(lia)) as (H1 & H2 & H3). rewrite <- Hb in H1, H2, H3.
  unfold rtu_data_anlys. run_step (run_src_at _ _ dest m H1). run_step (run_src_at _ _ dest m H2).
  erewrite bind_Ok by reflexivity. cbn [snd]. rewrite H3. unfold frame_ok in Hf. cbv zeta in Hf. by rewrite Hf.
Qed.

Lemma run_anlys_registers code vals :
  frame_ok f = true -> code = READ_HLD_REG \/ code = READ_AI -> f !! 1%nat = Some code ->
  f !! 2%nat = Some (2 * Z.of_nat (length vals)) ->
  register_loop 128 0 (2 * Z.of_nat (length vals)) start (dest, m) = Ok tt (list_inserts start vals dest, m) ->
  rtu_data_anlys start (length f) (dest, m) = Ok 0 (list_inserts start vals dest, set_rece (receBuf2 m) 0 m).
Proof.
  intros Hf Hcode H4 H5 Hr. destruct (anlys_test f rest ltac:(lia)) as (H1 & H2 & H3).
  rewrite <- (lookup_app_l f rest) in H4, H5 by lia. rewrite <- Hb in *.
  unfold rtu_data_anlys. run_step (run_src_at _ _ dest m H1). run_step (run_src_at _ _ dest m H2).
  erewrite bind_Ok by reflexivity. cbn [snd]. rewrite H3. unfold frame_ok in Hf. cbv zeta in Hf. rewrite Hf.
  run_step (run_src_at _ _ dest m H4). run_step (run_src_at _ _ dest m H5).
  destruct Hcode as [-> | ->]; cbn; by run_step Hr.
Qed.
End answer.

Lemma answer_bytes addr code vals :
  is_byte addr -> code = READ_HLD_REG \/ code = READ_AI -> (length vals <= 13)%nat ->
  Forall is_byte ([addr; code; 2 * Z.of_nat (length vals)] ++ words vals).
Proof.
  intros Ha Hcode Hn. apply Forall_app. split; [|apply words_bytes].
  repeat constructor; try (apply Ha || (destruct Hcode as [-> | ->]; done)). all: unfold is_byte; lia.
Qed.

Lemma run_anlys_answer addr code vals rest dest m start :
  is_byte addr -> code = READ_HLD_REG \/ code = READ_AI -> Forall is_u16 vals -> (length vals <= 13)%nat ->
  receBuf2 m = register_answer addr code vals ++ rest -> (start + length vals <= length dest)%nat ->
  rtu_data_anlys start (length (register_answer addr code vals)) (dest, m)
  = Ok 0 (list_inserts start vals dest, set_rece (receBuf2 m) 0 m).
Proof.
  intros Ha Hcode Hv Hn Hb Hd. apply (run_anlys_registers _ rest) with (code := code); [done|..].
  - unfold register_answer. rewrite length_with_crc. simpl. lia.
  - by apply with_crc_ok, answer_bytes.
  - done.
  - done.
  - done.
  - rewrite <- (Nat.add_0_r start) at 2. apply (run_register_loop vals 128 0 start dest m [addr; code; 2 * Z.of_nat (length vals)]
      ([Z.shiftr (crc16 ([addr; code; 2 * Z.of_nat (length vals)] ++ words vals)) 8;
        Z.land (crc16 ([addr; code; 2 * Z.of_nat (length vals)] ++ words vals)) 255] ++ rest));
      [|done|done|lia|lia|lia].
    rewrite Hb. unfold register_answer, with_crc. by rewrite <- !app_assoc.
Qed.

(** The registers of an answer with a correct check sum are stored in the
    destination from the start address on, each from its two bytes, nothing
    else is changed, and the count of received bytes is cleared; at most 13
    registers fit in the receive buffer. *)
Theorem rtu_registers_roundtrip addr code vals rest dest m start :
  is_byte addr -> code = READ_HLD_REG \/ code = READ_AI -> Forall is_u16 vals -> (length vals <= 13)%nat ->
  receBuf2 m = register_answer addr code vals ++ rest -> (start + length vals <= length dest)%nat ->
  exists dest' m', rtu_data_anlys start (length (register_answer addr code vals)) (dest, m) = Ok 0 (dest', m') /\
    dest' = take start dest ++ vals ++ drop (start + length vals) dest /\
    receBuf2 m' = receBuf2 m /\ receCount2 m' = 0.
Proof.
  intros Ha Hcode Hv Hn Hb Hd. rewrite (run_anlys_answer addr code vals rest dest m start) by done.
  eexists _, _. split; [reflexivity|]. split; [|done].
  rewrite <- (take_drop start dest) at 1. rewrite <- (Nat.add_0_r start) at 1.
  replace (start + 0)%nat with (length (take start dest) + 0)%nat by (rewrite length_take; lia).
  rewrite list_inserts_app_r. f_equal. rewrite <- (take_drop (length vals) (drop start dest)) at 1.
  rewrite list_inserts_0_r, drop_drop by (rewrite length_take, length_drop; lia). done.
Qed.

(** C30: an answer that was damaged on its way within two neighbouring bytes
    leaves the destination and the buffers as they were. *)
Theorem rtu_damaged_answer_ignored addr code vals rest dest m start p q a b a' b' :
  is_byte addr -> code = READ_HLD_REG \/ code = READ_AI -> (length vals <= 13)%nat ->
  register_answer addr code vals = p ++ a :: b :: q -> is_byte a' -> is_byte b' -> (a, b) ≠ (a', b') ->
  receBuf2 m = (p ++ a' :: b' :: q) ++ rest ->
  rtu_data_anlys start (length (p ++ a' :: b' :: q)) (dest, m) = Ok 0 (dest, m).
Proof.
  intros Ha Hcode Hn Hf Ha' Hb' Hne Hb.
  pose proof (answer_bytes addr code vals Ha Hcode Hn) as Hbytes.
  pose proof (with_crc_ok _ Hbytes) as Hok. fold (register_answer addr code vals) in Hok.
  assert (Forall is_byte (register_answer addr code vals)) as Hall.
  { apply Forall_app. split; [done|]. destruct (crc16_halves _ Hbytes) as (_ & -> & ->).
    destruct (crc_loop_bytes _ _ crc_init_bytes Hbytes) as [H1 H2].
    constructor; [done|]. by constructor. }
  rewrite Hf in Hok, Hall. apply Forall_app in Hall as [Hp [Hxa [Hxb Hq]%Forall_cons]%Forall_cons].
  assert (length (p ++ a' :: b' :: q) = length (register_answer addr code vals)) as El by (rewrite Hf, !length_app; done).
  apply (run_anlys_rejected _ rest); [done| |by apply (frame_damage_rejected p q a b)].
  rewrite El. unfold register_answer. rewrite length_with_crc. simpl. lia.
Qed.

(** The whole exchange: the answer of the drive arrives byte by byte, the
    timer ends the frame, and the next call returns it: the current that [modbus_read_current] returns is the one that the
    drive sent in the answer that arrived since the last call. *)
Theorem read_current_roundtrip v m :
  is_u16 v -> is_byte (slaveraddr m) -> length (sendBuf2 m) = 32%nat -> length (receBuf2 m) = 32%nat -> receCount2 m = 0 ->
  exists m', (rx_irqs (register_answer (slaveraddr m) READ_HLD_REG [v]);; TIM2_IRQHandler true;; modbus_read_current) m
    = Ok v m' /\ receCount2 m' = 0 /\ modbus_com2_over m' = 0 /\ tim2_on m' = false /\
    wire m' = wire m ++ [slaveraddr m].
Proof.
  intros Hv Ha Hls Hlr H0. set (f := register_answer (slaveraddr m) READ_HLD_REG [v]).
  assert (rx_irqs f m = Ok tt (received_bytes f m)) as E1.
  { rewrite run_rx_irqs by lia. rewrite decide_True; [done|]. left. rewrite H0, Hlr. simpl. lia. }
  run_step E1. erewrite bind_Ok by reflexivity. set (m1 := set_over 2 _). unfold modbus_read_current.
  erewrite bind_Ok by reflexivity. change (slaveraddr m1) with (slaveraddr m).
  destruct (run_rtu_request m1 (slaveraddr m) READ_HLD_REG 17 1) as (rest & E2); [done|done|done|].
  unfold rtu_read_hldreg. run_step E2. erewrite bind_Ok by reflexivity. set (m2 := sent_byte _ _ _).
  assert (receBuf2 m2 = f ++ drop 7 (receBuf2 m)) as Hb.
  { change (receBuf2 m2) with (list_inserts (Z.to_nat (receCount2 m)) f (receBuf2 m)). rewrite H0. change (Z.to_nat 0) with 0%nat.
    rewrite <- (take_drop 7 (receBuf2 m)) at 1. apply list_inserts_0_r. rewrite length_take, Hlr. done. }
  assert (receBuf2 m2 !! 0%nat = Some (slaveraddr m)) as Hh by (by rewrite Hb).
  run_step (run_deref (fun m => receBuf2 m !! 0%nat) m2 _ Hh). rewrite (Z.eqb_refl (slaveraddr m)).
  change (modbus_com2_over m2 =? 2) with true. cbn [andb]. cbv iota. do 2 erewrite bind_Ok by reflexivity.
  assert (rtu_data_anlys 0 7 ([0], set_over 0 m2) = Ok 0 ([v], set_rece (receBuf2 m2) 0 (set_over 0 m2))) as E3
    by (apply (run_anlys_answer (slaveraddr m) READ_HLD_REG [v] (drop 7 (receBuf2 m)) [0] (set_over 0 m2) 0);
        [done|by left|by constructor|simpl; lia|done|simpl; lia]).
  rewrite E3.
  erewrite bind_Ok by reflexivity. eexists. split; [reflexivity|]. split_and!; done.
Qed.

(** ** Coils *)

(** An answer of two bytes of coils, the first eight off, the others as in [d]. *)
Definition coil_answer (d : Z) : list Z := with_crc [1; READ_COIL; 2; 0; d].

Definition idle_modbus (rece : list Z) : modbus :=
  mk_modbus (replicate 32 0) 0 0 (rece ++ replicate (32 - length rece) 0) 0 0 0 1 [] false.

(** The coils behind the first eight are always read as off: the loops take
    every bit from the first data byte, which is zero after eight shifts. *)
Theorem coils_beyond_first_byte_lost :
  ret (rtu_data_anlys 0 7;; gets (fun st => st.1)) (replicate 16 9, idle_modbus (coil_answer 255)) = Some (replicate 16 0) /\
  frame_ok (coil_answer 255) = true.
Proof. split; vm_compute; reflexivity. Qed.

(** ** Witnesses *)

Definition demo_modbus : modbus := idle_modbus [].

Lemma rtu_request_on_wire_witness :
  exists m', (rtu_request 1 SET_HLD_REG 0x40 500;; tc_irqs 9) demo_modbus = Ok tt m' /\
    wire m' = [1; 6; 0; 64; 1; 244; 136; 9].
Proof.
  destruct (rtu_request_on_wire demo_modbus 1 SET_HLD_REG 0x40 500 9) as (_ & m' & E & W & _).
  - reflexivity.
  - done.
  - done.
  - exists m'. split; [exact E|]. rewrite W. vm_compute. reflexivity.
Defined.

Lemma rx_stores_in_order_witness :
  exists m', rx_irqs [1; 3; 2] demo_modbus = Ok tt m' /\ receCount2 m' = 3.
Proof.
  pose proof (rx_stores_in_order [1; 3; 2] demo_modbus eq_refl eq_refl ltac:(discriminate)) as H.
  rewrite decide_True in H by (simpl; lia). destruct H as (m' & E & _ & Hc & _).
  exists m'. split; [exact E|exact Hc].
Defined.

Lemma rtu_registers_roundtrip_witness :
  exists m', rtu_data_anlys 1 9 ([0; 0; 0; 0], idle_modbus (register_answer 1 READ_HLD_REG [513; 70]))
    = Ok 0 ([0; 513; 70; 0], m').
Proof.
  destruct (rtu_registers_roundtrip 1 READ_HLD_REG [513; 70] (replicate 23 0) [0; 0; 0; 0]
    (idle_modbus (register_answer 1 READ_HLD_REG [513; 70])) 1) as (dest' & m' & E & -> & _).
  - done.
  - left. reflexivity.
  - repeat constructor; done.
  - simpl. lia.
  - vm_compute. reflexivity.
  - simpl. lia.
  - exists m'. exact E.
Defined.

Lemma rtu_damaged_answer_ignored_witness :
  rtu_data_anlys 0 7 ([5], idle_modbus [1; 3; 2; 2; 2; 120; 228]) = Ok 0 ([5], idle_modbus [1; 3; 2; 2; 2; 120; 228]).
Proof.
  apply (rtu_damaged_answer_ignored 1 READ_HLD_REG [513] (replicate 25 0) [5] (idle_modbus [1; 3; 2; 2; 2; 120; 228]) 0
    [1; 3; 2] [120; 228] 2 1 2 2).
  - done.
  - left. reflexivity.
  - simpl. lia.
  - vm_compute. reflexivity.
  - done.
  - done.
  - intros [=].
  - vm_compute. reflexivity.
Defined.

Lemma read_current_roundtrip_witness :
  exists m', (rx_irqs (register_answer (slaveraddr demo_modbus) READ_HLD_REG [742]);; TIM2_IRQHandler true;; modbus_read_current)
    demo_modbus = Ok 742 m'.
Proof.
  destruct (read_current_roundtrip 742 demo_modbus) as (m' & E & _).
  - done.
  - done.
  - reflexivity.
  - reflexivity.
  - reflexivity.
  - exists m'. exact E.
Defined.
