(* ===== verification/Mem.v ===== *)
(** * The dynamic heap: src/mem.c (RT_USING_SMALL_MEM)

    The memory between [heap_ptr] and [heap_end] is cut into blocks, each with
    a header that names its neighbours by offset; allocation is first fit from
    the lowest free block, a freed block is merged with free neighbours. *)

From Stdlib Require Import Sorting.Sorted.
From S2P Require Import Prelude Kernel MsgQueue.

(** [struct heap_mem] *)
Record heap_mem := mk_hm {
  hm_magic : Z;
  hm_used : Z;
  hm_next : Z;
  hm_prev : Z
}.

Definition set_used (v : Z) (x : heap_mem) : heap_mem := mk_hm (hm_magic x) v (hm_next x) (hm_prev x).
Definition set_magic (v : Z) (x : heap_mem) : heap_mem := mk_hm v (hm_used x) (hm_next x) (hm_prev x).
Definition set_next (v : Z) (x : heap_mem) : heap_mem := mk_hm (hm_magic x) (hm_used x) v (hm_prev x).
Definition set_prev (v : Z) (x : heap_mem) : heap_mem := mk_hm (hm_magic x) (hm_used x) (hm_next x) v.

(** The globals of mem.c.  Headers and blocks are named by their offset from
    [heap_ptr]; a header stays in the map when its block is merged into
    another one, as it stays in memory.  [h_data] are the bytes of the blocks,
    [h_sem] the value of [heap_sem]: a body runs while the semaphore is taken,
    and a contended take waits as rt_sem_take does. *)
Record heap := mk_heap {
  h_base : Z;                     (**  [heap_ptr] *)
  h_mem : gmap Z heap_mem;
  h_data : gmap Z Z;
  h_end : Z;                      (**  offset of [heap_end] *)
  h_lfree : Z;                    (**  offset of [lfree] *)
  h_size : Z;                     (**  [mem_size_aligned] *)
  h_used : Z;                     (**  [used_mem] *)
  h_max : Z;                      (**  [max_mem] *)
  h_sem : Z                       (**  value of [heap_sem] *)
}.

Definition set_h_mem (f : gmap Z heap_mem -> gmap Z heap_mem) (h : heap) : heap :=
  mk_heap (h_base h) (f (h_mem h)) (h_data h) (h_end h) (h_lfree h) (h_size h) (h_used h) (h_max h) (h_sem h).
Definition set_h_data (f : gmap Z Z -> gmap Z Z) (h : heap) : heap :=
  mk_heap (h_base h) (h_mem h) (f (h_data h)) (h_end h) (h_lfree h) (h_size h) (h_used h) (h_max h) (h_sem h).
Definition set_h_lfree (v : Z) (h : heap) : heap :=
  mk_heap (h_base h) (h_mem h) (h_data h) (h_end h) v (h_size h) (h_used h) (h_max h) (h_sem h).
Definition set_h_stats (used mx : Z) (h : heap) : heap :=
  mk_heap (h_base h) (h_mem h) (h_data h) (h_end h) (h_lfree h) (h_size h) used mx (h_sem h).
Definition set_h_sem (v : Z) (h : heap) : heap :=
  mk_heap (h_base h) (h_mem h) (h_data h) (h_end h) (h_lfree h) (h_size h) (h_used h) (h_max h) v.

Definition HEAP_MAGIC : Z := 0x1ea0.
Definition MIN_SIZE : Z := 12.
Definition MIN_SIZE_ALIGNED : Z := RT_ALIGN MIN_SIZE RT_ALIGN_SIZE.
Definition SIZEOF_STRUCT_MEM : Z := RT_ALIGN 12 RT_ALIGN_SIZE.

Definition hdr (p : Z) : M heap heap_mem := deref (fun h => h_mem h !! p).
Definition put_hdr (p : Z) (x : heap_mem) : M heap unit := modify (set_h_mem (<[p := x]>)).
Definition upd_hdr (p : Z) (f : heap_mem -> heap_mem) : M heap unit := x ← hdr p; put_hdr p (f x).

Definition heap_take : M heap unit :=
  v ← gets h_sem; rt_assert (0 <? v);; modify (set_h_sem (v - 1)).
Definition heap_release : M heap unit := modify (fun h => set_h_sem (h_sem h + 1) h).

(** [used_mem += n; if (max_mem < used_mem) max_mem = used_mem;] *)
Definition count_used (n : Z) : M heap unit :=
  modify (fun h => let u := u32 (h_used h + n) in set_h_stats u (if h_max h <? u then u else h_max h) h).
Definition uncount_used (n : Z) : M heap unit :=
  modify (fun h => set_h_stats (u32 (h_used h - n)) (h_max h) h).

(** Both halves of [plug_holes] join the block at [p], whose header is [x], with
    the block at [q] behind it, which ends at [e]. *)
Definition join_blocks (p q e : Z) (x : heap_mem) : M heap unit :=
  h ← get;
  when (h_lfree h =? q) (modify (set_h_lfree p));;
  put_hdr p (set_next e x);;
  upd_hdr e (set_prev p).

Definition plug_forward (mem : Z) : M heap unit :=
  h ← get;
  m ← hdr mem;
  let nmem := hm_next m in
  n ← hdr nmem;
  when (negb (mem =? nmem) && (hm_used n =? 0) && negb (nmem =? h_end h)) (join_blocks mem nmem (hm_next n) m).

Definition plug_backward (mem : Z) : M heap unit :=
  m ← hdr mem;
  let pmem := hm_prev m in
  p ← hdr pmem;
  when (negb (pmem =? mem) && (hm_used p =? 0)) (join_blocks pmem mem (hm_next m) p).

Definition plug_holes (mem : Z) : M heap unit :=
  h ← get;
  rt_assert (0 <=? mem);;
  rt_assert (mem <? h_end h);;
  m ← hdr mem;
  rt_assert (hm_used m =? 0);;
  plug_forward mem;;
  plug_backward mem.

(** The heap that [rt_system_heap_init] builds; [None] when the space does not
    hold two headers. *)
Definition rt_system_heap_init (begin_addr end_addr : Z) : option heap :=
  let begin_align := RT_ALIGN begin_addr RT_ALIGN_SIZE in
  let end_align := RT_ALIGN_DOWN end_addr RT_ALIGN_SIZE in
  if (2 * SIZEOF_STRUCT_MEM <? end_align) && (begin_align <=? end_align - 2 * SIZEOF_STRUCT_MEM) then
    let size := end_align - begin_align - 2 * SIZEOF_STRUCT_MEM in
    let e := size + SIZEOF_STRUCT_MEM in
    Some (mk_heap begin_align {[0 := mk_hm HEAP_MAGIC 0 e 0; e := mk_hm HEAP_MAGIC 1 e e]} ∅ e 0 size 0 0 1)
  else None.

(** [while (lfree->used && lfree != heap_end) lfree = next;] *)
Fixpoint lfree_loop (fuel : nat) : M heap unit :=
  h ← get;
  l ← hdr (h_lfree h);
  if negb (hm_used l =? 0) && negb (h_lfree h =? h_end h) then
    match fuel with
    | O => fault
    | S fuel => modify (set_h_lfree (hm_next l));; lfree_loop fuel
    end
  else mret tt.

(** The split in [rt_malloc] and [rt_realloc]: the header of the remainder at
    [ptr2] goes between the one at [ptr] and its next one. *)
Definition split_block (ptr ptr2 : Z) (used : option Z) : M heap unit :=
  mem ← hdr ptr;
  h ← get;
  put_hdr ptr2 (mk_hm HEAP_MAGIC 0 (hm_next mem) ptr);;
  upd_hdr ptr (set_next ptr2);;
  match used with Some u => upd_hdr ptr (set_used u) | None => mret tt end;;
  when (negb (hm_next mem =? u32 (h_size h + SIZEOF_STRUCT_MEM))) (upd_hdr (hm_next mem) (set_prev ptr2)).

(** What [rt_malloc] does with a block that fits. *)
Definition take_block (fuel : nat) (ptr size : Z) : M heap unit :=
  mem ← hdr ptr;
  (if u32 (size + SIZEOF_STRUCT_MEM + MIN_SIZE_ALIGNED) <=? u32 (hm_next mem - (ptr + SIZEOF_STRUCT_MEM)) then
     split_block ptr (u32 (ptr + SIZEOF_STRUCT_MEM + size)) (Some 1);;
     count_used (size + SIZEOF_STRUCT_MEM)
   else
     upd_hdr ptr (set_used 1);;
     count_used (hm_next mem - ptr));;
  upd_hdr ptr (set_magic HEAP_MAGIC);;
  h ← get;
  when (ptr =? h_lfree h) (
    lfree_loop fuel;;
    h ← get;
    l ← hdr (h_lfree h);
    rt_assert ((h_lfree h =? h_end h) || (hm_used l =? 0)));;
  heap_release;;
  h ← get;
  rt_assert (u32 (h_base h + ptr) + SIZEOF_STRUCT_MEM + size <=? h_base h + h_end h);;
  rt_assert ((h_base h + ptr + SIZEOF_STRUCT_MEM) mod RT_ALIGN_SIZE =? 0);;
  rt_assert (Z.land (h_base h + ptr) (RT_ALIGN_SIZE - 1) =? 0).

(** The search loop; the result is the offset of the block's data. *)
Fixpoint malloc_loop (fuel : nat) (ptr size : Z) : M heap (option Z) :=
  h ← get;
  if ptr <? u32 (h_size h - size) then
    match fuel with
    | O => fault
    | S fuel' =>
        mem ← hdr ptr;
        if (hm_used mem =? 0) && (size <=? u32 (hm_next mem - (ptr + SIZEOF_STRUCT_MEM))) then
          take_block fuel ptr size;; mret (Some (ptr + SIZEOF_STRUCT_MEM))
        else malloc_loop fuel' (hm_next mem) size
    end
  else heap_release;; mret None.

(** A pointer into the heap is its offset; [None] is [RT_NULL].  No path
    visits a block twice, so the number of headers is fuel enough. *)
Definition rt_malloc (size : Z) : M heap (option Z) :=
  if size =? 0 then mret None
  else
    let size := RT_ALIGN size RT_ALIGN_SIZE in
    h ← get;
    if h_size h <? size then mret None
    else
      let size := if size <? MIN_SIZE_ALIGNED then MIN_SIZE_ALIGNED else size in
      heap_take;;
      malloc_loop (S (base.size (h_mem h))) (h_lfree h) size.

Definition rt_free (rmem : option Z) : M heap unit :=
  match rmem with
  | None => mret tt
  | Some p =>
      h ← get;
      rt_assert (Z.land (h_base h + p) (RT_ALIGN_SIZE - 1) =? 0);;
      rt_assert ((0 <=? p) && (p <? h_end h));;
      let mem := p - SIZEOF_STRUCT_MEM in
      heap_take;;
      m ← hdr mem;
      rt_assert (negb (hm_used m =? 0));;
      rt_assert (hm_magic m =? HEAP_MAGIC);;
      put_hdr mem (mk_hm HEAP_MAGIC 0 (hm_next m) (hm_prev m));;
      when (mem <? h_lfree h) (modify (set_h_lfree mem));;
      uncount_used (hm_next m - mem);;
      plug_holes mem;;
      heap_release
  end.

(** [rt_memcpy] and [rt_memset] on the data of the heap; a byte never written
    reads as no byte. *)
Fixpoint copy_bytes (n : nat) (dst src : Z) (d : gmap Z Z) : gmap Z Z :=
  match n with
  | O => d
  | S n => copy_bytes n (dst + 1) (src + 1) (partial_alter (fun _ => d !! src) dst d)
  end.
Fixpoint fill_bytes (n : nat) (dst v : Z) (d : gmap Z Z) : gmap Z Z :=
  match n with O => d | S n => fill_bytes n (dst + 1) v (<[dst := v]> d) end.

Definition rt_realloc (rmem : option Z) (newsize : Z) : M heap (option Z) :=
  let newsize := RT_ALIGN newsize RT_ALIGN_SIZE in
  h ← get;
  if h_size h <? newsize then mret None
  else if newsize =? 0 then rt_free rmem;; mret None
  else match rmem with
  | None => rt_malloc newsize
  | Some p =>
      heap_take;;
      if (p <? 0) || (h_end h <=? p) then heap_release;; mret (Some p)
      else
        let ptr := p - SIZEOF_STRUCT_MEM in
        mem ← hdr ptr;
        let size := u32 (hm_next mem - ptr - SIZEOF_STRUCT_MEM) in
        if size =? newsize then heap_release;; mret (Some p)
        else if u32 (newsize + SIZEOF_STRUCT_MEM + MIN_SIZE) <? size then
          uncount_used (size - newsize);;
          let ptr2 := u32 (ptr + SIZEOF_STRUCT_MEM + newsize) in
          split_block ptr ptr2 None;;
          plug_holes ptr2;;
          heap_release;;
          mret (Some p)
        else
          heap_release;;
          nmem ← rt_malloc newsize;
          match nmem with
          | None => mret None
          | Some q =>
              modify (set_h_data (copy_bytes (Z.to_nat (if size <? newsize then size else newsize)) q p));;
              rt_free (Some p);;
              mret (Some q)
          end
  end.

Definition rt_calloc (count size : Z) : M heap (option Z) :=
  p ← rt_malloc (u32 (count * size));
  match p with
  | None => mret None
  | Some q => modify (set_h_data (fill_bytes (Z.to_nat (u32 (count * size))) q 0));; mret (Some q)
  end.

Definition rt_memory_info : M heap (Z * Z * Z) := gets (fun h => (h_size h, h_used h, h_max h)).

(** ** Blocks

    The specification sees the heap as a list of blocks, each with its size,
    header included, and whether it is allocated. *)

Record blk := mk_blk { b_size : Z; b_used : bool }.

Definition span (bs : list blk) : Z := foldr (fun b n => b_size b + n) 0 bs.
Fixpoint last_off (prev p : Z) (bs : list blk) : Z :=
  match bs with [] => prev | b :: bs => last_off p (p + b_size b) bs end.

Definition flag (u : bool) : Z := if u then 1 else 0.
Definition hdr_of (b : blk) (p prev : Z) : heap_mem := mk_hm HEAP_MAGIC (flag (b_used b)) (p + b_size b) prev.

(** The headers of the blocks [bs] from offset [p] on, the first one behind the
    block at [prev]. *)
Fixpoint seg (m : gmap Z heap_mem) (prev p : Z) (bs : list blk) : Prop :=
  match bs with
  | [] => True
  | b :: bs => m !! p = Some (hdr_of b p prev) /\ seg m p (p + b_size b) bs
  end.

Definition block_ok (b : blk) : Prop := 16 <= b_size b /\ b_size b mod 4 = 0.

(** [l] is the offset of a free block of [bs], which starts at [p]. *)
Fixpoint free_at (p : Z) (bs : list blk) (l : Z) : Prop :=
  match bs with [] => False | b :: bs => (l = p /\ b_used b = false) \/ free_at (p + b_size b) bs l end.

(** The segment that ends at [heap_end], whose header has no use for [prev]. *)
Definition tail (m : gmap Z heap_mem) (prev p : Z) (bs : list blk) (e : Z) : Prop :=
  seg m prev p bs /\ p + span bs = e /\ exists pr, m !! e = Some (mk_hm HEAP_MAGIC 1 e pr).

Definition used_span (bs : list blk) : Z := foldr (fun b n => (if b_used b then b_size b else 0) + n) 0 bs.

(** The heap consists of the blocks [bs]; [lfree] is at a free block or at the
    end, and the statistics count the used blocks. *)
Record heap_core (h : heap) (bs : list blk) : Prop := {
  hc_tail : tail (h_mem h) 0 0 bs (h_end h);
  hc_size : h_end h = h_size h + 12;
  hc_blocks : Forall block_ok bs;
  hc_lfree : free_at 0 bs (h_lfree h) \/ h_lfree h = h_end h;
  hc_base : 0 <= h_base h /\ h_base h mod 4 = 0 /\ h_base h + h_end h + 12 < 2 ^ 32;
  hc_used : h_used h = used_span bs
}.

(** No two neighbouring free blocks. *)
Fixpoint merged (bs : list blk) : Prop :=
  match bs with
  | a :: ((b :: _) as bs') => (b_used a = true \/ b_used b = true) /\ merged bs'
  | _ => True
  end.

(** Between two operations: the semaphore is free and the holes are plugged. *)
Record heap_inv (h : heap) (bs : list blk) : Prop := {
  hi_core : heap_core h bs;
  hi_merged : merged bs;
  hi_sem : h_sem h = 1
}.

(** No free block below [lfree]. *)
Definition lowest (h : heap) (bs : list blk) : Prop := forall l, free_at 0 bs l -> h_lfree h <= l.

(** The allocations: data offset and size of every used block. *)
Fixpoint live (p : Z) (bs : list blk) : list (Z * Z) :=
  match bs with
  | [] => []
  | b :: bs => (if b_used b then [(p + 12, b_size b - 12)] else []) ++ live (p + b_size b) bs
  end.

(** ** Lemmas on block lists *)

Lemma span_app a b : span (a ++ b) = span a + span b.
Proof. induction a as [|x a IH]; simpl; [done|]. rewrite IH. lia. Qed.

Lemma used_span_app a b : used_span (a ++ b) = used_span a + used_span b.
Proof. induction a as [|x a IH]; simpl; [done|]. rewrite IH. lia. Qed.

Lemma live_app p a b : live p (a ++ b) = live p a ++ live (p + span a) b.
Proof.
  revert p. induction a as [|x a IH]; intros p; simpl; [by rewrite Z.add_0_r|].
  by rewrite IH, <- app_assoc, Z.add_assoc.
Qed.

Lemma last_off_snoc prev p a b : last_off prev p (a ++ [b]) = p + span a.
Proof. revert prev p. induction a as [|x a IH]; intros prev p; simpl; [lia|]. rewrite IH. lia. Qed.

Lemma seg_app m prev p a b :
  seg m prev p (a ++ b) <-> seg m prev p a /\ seg m (last_off prev p a) (p + span a) b.
Proof.
  revert prev p. induction a as [|x a IH]; intros prev p; simpl; [rewrite Z.add_0_r; naive_solver|].
  rewrite IH, Z.add_assoc. naive_solver.
Qed.

Lemma span_nonneg bs : Forall block_ok bs -> 0 <= span bs.
Proof. induction 1 as [|b bs [Hb _] _ IH]; simpl; lia. Qed.

Lemma span_aligned bs : Forall block_ok bs -> span bs mod 4 = 0.
Proof.
  induction 1 as [|b bs [_ Hb] _ IH]; simpl; [done|]. rewrite Z.add_mod, Hb, IH by lia. done.
Qed.

Lemma used_span_bounds bs : Forall block_ok bs -> 0 <= used_span bs <= span bs.
Proof. induction 1 as [|b bs [Hb _] _ IH]; simpl; [lia|]. destruct (b_used b); lia. Qed.

(** Only the headers inside of a segment matter to it. *)
Lemma seg_frame m m' prev p bs :
  Forall block_ok bs -> (forall q, p <= q < p + span bs -> m' !! q = m !! q) -> seg m prev p bs -> seg m' prev p bs.
Proof.
  intros Hb. revert prev p. induction Hb as [|b bs [Hb _] Hbs IH]; intros prev p Hq; [done|].
  simpl in *. pose proof (span_nonneg bs Hbs). intros [H1 H2]. split; [rewrite Hq; [done|lia]|].
  apply IH; [|done]. intros q Hr. apply Hq. lia.
Qed.

Lemma seg_insert_out m prev p bs q x :
  Forall block_ok bs -> q < p \/ p + span bs <= q -> seg m prev p bs -> seg (<[q := x]> m) prev p bs.
Proof. intros Hb Hq. apply seg_frame; [done|]. intros q' Hr. apply lookup_insert_ne. lia. Qed.

(** The block behind a segment learns its new predecessor. *)
Lemma seg_set_prev m prev prev' p b bs :
  Forall block_ok (b :: bs) -> seg m prev p (b :: bs) -> seg (<[p := hdr_of b p prev']> m) prev' p (b :: bs).
Proof.
  intros [[Hb _] Hbs]%Forall_cons [H1 H2]. split; [apply lookup_insert_eq|].
  apply seg_insert_out; [done|lia|done].
Qed.

Lemma free_at_app p a b l : free_at p (a ++ b) l <-> free_at p a l \/ free_at (p + span a) b l.
Proof.
  revert p. induction a as [|x a IH]; intros p; simpl; [rewrite Z.add_0_r; tauto|].
  rewrite IH, Z.add_assoc. tauto.
Qed.

Lemma free_at_range p bs l : Forall block_ok bs -> free_at p bs l -> p <= l < p + span bs.
Proof.
  intros Hb. revert p. induction Hb as [|b bs [Hb _] Hbs IH]; intros p; simpl; [done|].
  pose proof (span_nonneg bs Hbs) as Hn. intros [[-> _]|H%IH]; lia.
Qed.

Lemma tail_app m prev p a b e :
  tail m prev p (a ++ b) e <-> seg m prev p a /\ tail m (last_off prev p a) (p + span a) b e.
Proof. unfold tail. rewrite seg_app, span_app, Z.add_assoc. tauto. Qed.

Lemma tail_insert_out m prev p bs e q x :
  Forall block_ok bs -> q < p -> tail m prev p bs e -> tail (<[q := x]> m) prev p bs e.
Proof.
  intros Hb Hq (Hs & He & pr & Hr). pose proof (span_nonneg bs Hb).
  split; [by apply seg_insert_out; [|left|]|]. split; [done|]. exists pr. rewrite lookup_insert_ne by lia. done.
Qed.

(** Whether the block at the front of a tail is in use; the end counts as used. *)
Definition head_used (bs : list blk) : bool := match bs with [] => true | b :: _ => b_used b end.

(** The header at the front of a tail can be read, and told a new predecessor. *)
Lemma tail_front m prev p bs e :
  Forall block_ok bs -> tail m prev p bs e ->
  exists x, m !! p = Some x /\ hm_used x = flag (head_used bs) /\ hm_next x = p + match bs with [] => 0 | b :: _ => b_size b end /\
    forall prev', tail (<[p := set_prev prev' x]> m) prev' p bs e.
Proof.
  intros Hb (Hs & He & pr & Hr). destruct bs as [|b bs]; simpl in *.
  - assert (p = e) as -> by lia. eexists. split; [exact Hr|]. split; [done|]. split; [simpl; lia|]. intros prev'. split; [done|].
    split; [simpl; lia|]. exists prev'. apply lookup_insert_eq.
  - destruct Hs as [H1 H2]. eexists. split; [exact H1|]. split; [done|]. split; [done|]. intros prev'.
    assert (16 <= b_size b /\ 0 <= span bs) as [Hb16 Hsp]
      by (apply Forall_cons in Hb as [[? _] ?%span_nonneg]; done).
    split; [by apply (seg_set_prev m prev prev' p b bs)|]. split; [done|]. exists pr. rewrite lookup_insert_ne by lia. done.
Qed.

Lemma merged_app a x b : merged (a ++ x :: b) <-> merged (a ++ [x]) /\ merged (x :: b).
Proof.
  induction a as [|y a IH]; [simpl; tauto|]. destruct a as [|z a]; [simpl; tauto|].
  cbn [app merged] in *. tauto.
Qed.

Lemma merged_app_l a b : merged (a ++ b) -> merged a.
Proof.
  induction a as [|y a IH]; [done|]. destruct a as [|z a]; [done|]. cbn [app merged] in *. tauto.
Qed.

Lemma merged_cons x b : merged b -> b_used x = true \/ head_used b = true -> merged (x :: b).
Proof. destruct b; simpl; tauto. Qed.

Lemma merged_snoc_used a x y : b_used x = b_used y -> merged (a ++ [x]) -> merged (a ++ [y]).
Proof.
  intros E. induction a as [|z a IH]; [done|]. destruct a as [|w a]; cbn [app merged] in *; rewrite ?E in *; tauto.
Qed.

Lemma merged_snoc a x :
  merged a -> b_used x = true \/ (forall y, last a = Some y -> b_used y = true) -> merged (a ++ [x]).
Proof.
  induction a as [|z a IH]; [done|]. destruct a as [|w a]; cbn [app merged].
  - intros _ [H|H]; split; try done; [by right|left; by apply H].
  - intros [H1 H2] H3. split; [done|]. by apply IH.
Qed.

(** ** Plugging holes *)

Lemma run_hdr h p x : h_mem h !! p = Some x -> hdr p h = Ok x h.
Proof. apply (run_deref (fun h => h_mem h !! p)). Qed.

Lemma run_upd_hdr h p f x : h_mem h !! p = Some x -> upd_hdr p f h = Ok tt (set_h_mem (<[p := f x]>) h).
Proof. intros H. unfold upd_hdr. by run_step (run_hdr h p x H). Qed.

(** What the two halves of [plug_holes] leave alone. *)
Record same_globals (h h' : heap) : Prop := {
  sg_base : h_base h' = h_base h;
  sg_data : h_data h' = h_data h;
  sg_end : h_end h' = h_end h;
  sg_size : h_size h' = h_size h;
  sg_used : h_used h' = h_used h;
  sg_max : h_max h' = h_max h;
  sg_sem : h_sem h' = h_sem h
}.

#[global] Instance same_globals_preorder : PreOrder same_globals.
Proof.
  split; [by intros h|]. intros h1 h2 h3 [] []. split; congruence.
Qed.

Definition join_blk (a b : blk) : blk := mk_blk (b_size a + b_size b) false.

Definition merge_next (b : blk) (post : list blk) : blk * list blk :=
  match post with
  | n :: post' => if b_used n then (b, post) else (join_blk b n, post')
  | [] => (b, [])
  end.

(** The part of the core invariant that is about the headers alone. *)
Record heap_shape (h : heap) (bs : list blk) : Prop := {
  hs_tail : tail (h_mem h) 0 0 bs (h_end h);
  hs_size : h_end h = h_size h + 12;
  hs_blocks : Forall block_ok bs;
  hs_base : 0 <= h_base h /\ h_base h mod 4 = 0 /\ h_base h + h_end h + 12 < 2 ^ 32
}.

Lemma core_shape h bs : heap_core h bs -> heap_shape h bs.
Proof. by intros []. Qed.

(** The invariant, told from the block at [span pre] on. *)
Lemma shape_at h pre b post :
  heap_shape h (pre ++ b :: post) ->
  Forall block_ok pre /\ block_ok b /\ Forall block_ok post /\ 0 <= span pre /\
  seg (h_mem h) 0 0 pre /\ h_mem h !! span pre = Some (hdr_of b (span pre) (last_off 0 0 pre)) /\
  tail (h_mem h) (span pre) (span pre + b_size b) post (h_end h).
Proof.
  intros C. pose proof (hs_blocks _ _ C) as [Hp [Hb Hq]%Forall_cons]%Forall_app.
  pose proof (hs_tail _ _ C) as [Hs Ht]%tail_app. destruct Ht as ([H1 H2] & He & Hr).
  split_and!; try done; [by apply span_nonneg|]. split; [done|]. split; [|done]. simpl in *. lia.
Qed.

Lemma core_at h pre b post :
  heap_core h (pre ++ b :: post) ->
  Forall block_ok pre /\ block_ok b /\ Forall block_ok post /\ 0 <= span pre /\
  seg (h_mem h) 0 0 pre /\ h_mem h !! span pre = Some (hdr_of b (span pre) (last_off 0 0 pre)) /\
  tail (h_mem h) (span pre) (span pre + b_size b) post (h_end h).
Proof. intros C%core_shape. by apply shape_at. Qed.

(** Joining two neighbouring free blocks. *)
Lemma run_join h pre a n post :
  heap_core h (pre ++ a :: n :: post) -> b_used a = false -> b_used n = false ->
  exists h', join_blocks (span pre) (span pre + b_size a) (span pre + b_size a + b_size n)
      (hdr_of a (span pre) (last_off 0 0 pre)) h = Ok tt h' /\ same_globals h h' /\
    heap_core h' (pre ++ join_blk a n :: post) /\
    (lowest h (pre ++ a :: n :: post) -> lowest h' (pre ++ join_blk a n :: post)).
Proof.
  intros C Ha Hn. destruct (core_at _ _ _ _ C) as (Hp & [Ha16 Ha4] & [[Hn16 Hn4] Hq]%Forall_cons & H0 & Hs & H1 & Ht).
  destruct Ht as ([_ Hs2] & He & Hr). simpl in He. set (p := span pre) in *. set (q := p + b_size a) in *.
  assert (tail (h_mem h) q (q + b_size n) post (h_end h)) as Ht by (split; [done|]; split; [lia|done]).
  destruct (tail_front _ _ _ _ _ Hq Ht) as (y & Hy & _ & _ & Hup). set (e := q + b_size n) in *.
  pose proof (span_nonneg post Hq) as Hsp.
  unfold join_blocks. erewrite bind_Ok by reflexivity.
  set (h1 := if h_lfree h =? q then set_h_lfree p h else h).
  assert (when (h_lfree h =? q) (modify (set_h_lfree p)) h = Ok tt h1) as E1
    by (unfold h1, when; by destruct (h_lfree h =? q)).
  run_step E1. erewrite bind_Ok by reflexivity.
  assert (h_mem h1 = h_mem h /\ same_globals h h1) as [Em1 G1] by (unfold h1; by destruct (h_lfree h =? q)).
  rewrite (run_upd_hdr _ e _ y) by (simpl; rewrite Em1, lookup_insert_ne by lia; exact Hy).
  eexists. split; [reflexivity|].
  assert (forall l, free_at 0 (pre ++ join_blk a n :: post) l <-> free_at 0 pre l \/ l = p \/ free_at e post l) as Fnew.
  { intros l. rewrite free_at_app. cbn [free_at join_blk b_used b_size]. rewrite Z.add_0_l. fold p.
    replace (p + (b_size a + b_size n)) with e by lia. tauto. }
  assert (forall l, free_at 0 (pre ++ a :: n :: post) l <-> free_at 0 pre l \/ l = p \/ l = q \/ free_at e post l) as Fold.
  { intros l. rewrite free_at_app. cbn [free_at]. rewrite Z.add_0_l. fold p q e. tauto. }
  assert (h_lfree h1 = if h_lfree h =? q then p else h_lfree h) as El by (unfold h1; by destruct (h_lfree h =? q)).
  split; [by destruct G1; split|]. split.
  - destruct C as [_ Csz _ Clf Cb Cu]. destruct G1 as [B1 B2 B3 B4 B5 B6 B7]. split; simpl.
    + apply tail_app. rewrite Z.add_0_l. fold p. rewrite Em1, B3.
      split; [apply seg_insert_out, seg_insert_out; [done|simpl; lia|done|simpl; lia|done]|].
      specialize (Hup p). apply (tail_insert_out _ _ _ _ _ p (set_next e (hdr_of a p (last_off 0 0 pre)))) in Hup; [|done|lia].
      rewrite insert_insert_ne in Hup by lia. destruct Hup as (U1 & U2 & U3).
      split; [|split; [simpl; lia|done]]. cbn [seg join_blk b_size]. replace (p + (b_size a + b_size n)) with e by lia.
      split; [|done]. rewrite lookup_insert_ne, lookup_insert_eq by lia. unfold hdr_of, set_next. cbn. rewrite Ha. do 2 f_equal. lia.
    + congruence.
    + apply Forall_app. split; [done|]. constructor; [|done]. split; simpl; [lia|]. rewrite Z.add_mod, Ha4, Hn4 by lia. done.
    + rewrite B3, El. destruct (Z.eqb_spec (h_lfree h) q); [left; apply Fnew; tauto|].
      destruct Clf as [F%Fold|]; [left; apply Fnew; tauto|by right].
    + by rewrite B1, B3.
    + rewrite B5, Cu, !used_span_app. simpl. rewrite Ha, Hn. lia.
  - intros L l F%Fnew. simpl. rewrite El. pose proof (L l) as L1. pose proof (L p) as L2. rewrite Fold in L1, L2.
    destruct (Z.eqb_spec (h_lfree h) q) as [Eq|]; [|destruct F as [F|[->|F]]; tauto].
    specialize (L2 ltac:(tauto)). lia.
Qed.

Lemma flag_zero u : (flag u =? 0) = negb u.
Proof. by destruct u. Qed.

Lemma run_plug_forward h pre b post :
  heap_core h (pre ++ b :: post) -> b_used b = false ->
  let r := merge_next b post in
  exists h', plug_forward (span pre) h = Ok tt h' /\ same_globals h h' /\
    heap_core h' (pre ++ r.1 :: r.2) /\ (lowest h (pre ++ b :: post) -> lowest h' (pre ++ r.1 :: r.2)).
Proof.
  intros C Hu r. destruct (core_at _ _ _ _ C) as (Hp & [Hb _] & Hq & H0 & Hs & H1 & Ht).
  destruct (tail_front _ _ _ _ _ Hq Ht) as (x & Hx & Hxu & Hxn & _).
  unfold plug_forward. erewrite bind_Ok by reflexivity. run_step (run_hdr _ _ _ H1). cbn [hdr_of hm_next].
  run_step (run_hdr _ _ _ Hx). rewrite Hxu, flag_zero, Hxn, (proj2 (Z.eqb_neq _ _)) by lia. subst r. cbn [negb andb].
  destruct post as [|n post]; cbn [head_used merge_next]; [|destruct (b_used n) eqn:En]; cbn [negb andb fst snd].
  - exists h. split; [done|]. split; [done|]. by split.
  - exists h. split; [done|]. split; [done|]. by split.
  - destruct Ht as (_ & He & _). simpl in He. apply Forall_cons in Hq as [[Hn _] Hq%span_nonneg].
    rewrite (proj2 (Z.eqb_neq _ (h_end h))) by lia. by apply run_join.
Qed.

Definition merge_prev (pre : list blk) (b : blk) : list blk * blk :=
  match reverse pre with
  | a :: r => if b_used a then (pre, b) else (reverse r, join_blk a b)
  | [] => (pre, b)
  end.

Lemma run_plug_backward h pre b post :
  heap_core h (pre ++ b :: post) -> b_used b = false ->
  let r := merge_prev pre b in
  exists h', plug_backward (span pre) h = Ok tt h' /\ same_globals h h' /\
    heap_core h' (r.1 ++ r.2 :: post) /\ (lowest h (pre ++ b :: post) -> lowest h' (r.1 ++ r.2 :: post)).
Proof.
  intros C Hu r. destruct (core_at _ _ _ _ C) as (Hp & [Hb _] & Hq & H0 & Hs & H1 & Ht).
  unfold plug_backward. run_step (run_hdr _ _ _ H1). cbn [hdr_of hm_prev hm_next]. subst r. unfold merge_prev.
  induction pre as [|a pre _] using rev_ind.
  - cbn [last_off reverse rev_append]. run_step (run_hdr _ _ _ H1). cbn. exists h. split; [done|]. split; [done|]. by split.
  - rewrite last_off_snoc, reverse_snoc, Z.add_0_l. rewrite <- app_assoc in C. cbn [app] in C.
    destruct (core_at _ _ _ _ C) as (_ & [Ha _] & _ & _ & _ & H2 & _). run_step (run_hdr _ _ _ H2).
    rewrite !span_app. cbn [span foldr hdr_of hm_used]. rewrite flag_zero, Z.add_0_r, (proj2 (Z.eqb_neq _ _)) by lia.
    destruct (b_used a) eqn:Ea; cbn [negb andb fst snd].
    + exists h. split; [done|]. rewrite <- !app_assoc. by split.
    + rewrite reverse_involutive, <- app_assoc. by apply run_join.
Qed.

(** What [plug_holes] makes of a free block and its neighbours. *)
Definition plugged (pre : list blk) (b : blk) (post : list blk) : list blk :=
  let r := merge_next b post in let l := merge_prev pre r.1 in l.1 ++ l.2 :: r.2.

Lemma merge_next_free b post : b_used b = false -> b_used (merge_next b post).1 = false.
Proof. intros H. destruct post as [|n post]; simpl; [done|]. by destruct (b_used n). Qed.

Lemma run_plug_holes h pre b post :
  heap_core h (pre ++ b :: post) -> b_used b = false ->
  exists h', plug_holes (span pre) h = Ok tt h' /\ same_globals h h' /\ heap_core h' (plugged pre b post) /\
    (lowest h (pre ++ b :: post) -> lowest h' (plugged pre b post)).
Proof.
  intros C Hu. destruct (core_at _ _ _ _ C) as (_ & [Hb _] & Hq & H0 & _ & H1 & _ & He & _).
  apply span_nonneg in Hq. unfold plug_holes. erewrite bind_Ok by reflexivity.
  rewrite (proj2 (Z.leb_le 0 _)), (proj2 (Z.ltb_lt _ (h_end h))) by lia. do 2 erewrite bind_Ok by reflexivity.
  run_step (run_hdr _ _ _ H1). cbn [hdr_of hm_used]. rewrite Hu. erewrite bind_Ok by reflexivity.
  destruct (run_plug_forward h pre b post C Hu) as (h1 & E1 & G1 & C1 & L1). run_step E1.
  destruct (run_plug_backward h1 _ _ _ C1 (merge_next_free b post Hu)) as (h2 & E2 & G2 & C2 & L2). rewrite E2.
  exists h2. split; [done|]. split; [by etrans|]. split; [done|]. auto.
Qed.

(** The result has no neighbouring free blocks. *)
Lemma plugged_merged pre b post :
  merged pre -> merged post -> b_used b = false -> merged (plugged pre b post).
Proof.
  intros Hp Hq Hu. unfold plugged.
  assert (merged ((merge_next b post).1 :: (merge_next b post).2)) as Hr.
  { destruct post as [|n post]; [done|]. unfold merge_next. destruct (b_used n) eqn:En.
    - apply merged_cons; [done|by right].
    - destruct post as [|c post]; [done|]. cbn [merged fst snd] in *. rewrite En in Hq.
      destruct Hq as [[?|?] ?]; [done|]. split; [by right|done]. }
  set (r := merge_next b post) in *. assert (b_used r.1 = false) as Hu1 by by apply merge_next_free.
  apply merged_app. unfold merge_prev. destruct (reverse pre) as [|a l] eqn:El.
  - assert (pre = []) as -> by (by rewrite <- (reverse_involutive pre), El). by split.
  - assert (pre = reverse l ++ [a]) as -> by (by rewrite <- (reverse_involutive pre), El, reverse_cons).
    destruct (b_used a) eqn:Ea; simpl.
    + split; [|done]. apply merged_snoc; [done|]. right. intros y. rewrite last_snoc. by intros [= ->].
    + split; [by apply (merged_snoc_used _ a)|]. destruct (r.2) as [|c post'] eqn:E2; [done|].
      cbn [merged] in *. rewrite Hu1 in Hr. simpl. tauto.
Qed.

(** The hole takes in the free blocks [l] in front and [r] behind. *)
Lemma plugged_shape pre b post :
  exists pre' l r post', pre = pre' ++ l /\ post = r ++ post' /\ Forall (fun x => b_used x = false) (l ++ r) /\
    (b_used b = false -> plugged pre b post = pre' ++ mk_blk (span l + b_size b + span r) false :: post').
Proof.
  assert (exists r post', post = r ++ post' /\ Forall (fun x => b_used x = false) r /\
    (b_used b = false -> merge_next b post = (mk_blk (b_size b + span r) false, post'))) as (r & post' & Er & Fr & Hr).
  { destruct post as [|n post].
    - exists [], []. split_and!; [done..|]. intros Hu. simpl. rewrite Z.add_0_r. destruct b; simpl in *; by subst.
    - destruct (b_used n) eqn:En.
      + exists [], (n :: post). split_and!; [done..|]. intros Hu. simpl. rewrite En, Z.add_0_r. destruct b; simpl in *; by subst.
      + exists [n], post. split_and!; [done|by constructor|]. intros Hu. simpl. rewrite En, Z.add_0_r. done. }
  unfold plugged, merge_prev. destruct (reverse pre) as [|a l] eqn:El.
  - assert (pre = []) as -> by (by rewrite <- (reverse_involutive pre), El).
    exists [], [], r, post'. split_and!; try done. intros Hu. by rewrite (Hr Hu).
  - assert (pre = reverse l ++ [a]) as -> by (by rewrite <- (reverse_involutive pre), El, reverse_cons).
    destruct (b_used a) eqn:Ea.
    + exists (reverse l ++ [a]), [], r, post'. rewrite app_nil_r. split_and!; try done. intros Hu. by rewrite (Hr Hu).
    + exists (reverse l), [a], r, post'. split_and!; try done; [by constructor|]. intros Hu. rewrite (Hr Hu). simpl.
      unfold join_blk. simpl. by rewrite Z.add_0_r, Z.add_assoc.
Qed.

Lemma live_free p l : Forall (fun x => b_used x = false) l -> live p l = [].
Proof. intros H. revert p. induction H as [|x l Hx _ IH]; intros p; simpl; [done|]. by rewrite Hx, IH. Qed.

Lemma used_span_free l : Forall (fun x => b_used x = false) l -> used_span l = 0.
Proof. induction 1 as [|x l Hx _ IH]; simpl; [done|]. by rewrite Hx, IH. Qed.

(** Plugging holes moves no allocation. *)
Lemma plugged_live pre b post : b_used b = false ->
  live 0 (plugged pre b post) = live 0 pre ++ live (span pre + b_size b) post.
Proof.
  intros Hu. destruct (plugged_shape pre b post) as (pre' & l & r & post' & -> & -> & [Fl Fr]%Forall_app & E). rewrite (E Hu).
  rewrite !live_app. cbn [live b_used b_size app]. rewrite (live_free _ l), (live_free _ r), span_app, app_nil_r by done.
  cbn [app]. do 2 f_equal. lia.
Qed.

Lemma plugged_used pre b post : b_used b = false -> used_span (plugged pre b post) = used_span pre + used_span post.
Proof.
  intros Hu. destruct (plugged_shape pre b post) as (pre' & l & r & post' & -> & -> & [Fl Fr]%Forall_app & E). rewrite (E Hu).
  rewrite !used_span_app, (used_span_free l), (used_span_free r) by done. simpl. lia.
Qed.

(** ** Freeing *)

Lemma land_3 x : Z.land x 3 = x mod 4.
Proof. change 3 with (Z.ones 2). by rewrite Z.land_ones. Qed.

(** Marking a block in the header and in the statistics. *)
Lemma core_mark h pre b post u lf mx sem :
  heap_core h (pre ++ b :: post) ->
  let b' := mk_blk (b_size b) u in
  free_at 0 (pre ++ b' :: post) lf \/ lf = h_end h ->
  heap_core (mk_heap (h_base h) (<[span pre := hdr_of b' (span pre) (last_off 0 0 pre)]> (h_mem h)) (h_data h) (h_end h) lf
    (h_size h) (used_span (pre ++ b' :: post)) mx sem) (pre ++ b' :: post).
Proof.
  intros C b' Hlf. destruct (core_at _ _ _ _ C) as (Hp & Hb & Hq & H0 & Hs & H1 & Ht).
  destruct C as [_ Csz _ _ Cb _]. split; simpl; try done.
  - apply tail_app. rewrite Z.add_0_l. split; [apply seg_insert_out; [done|simpl; lia|done]|].
    apply (tail_insert_out _ _ _ _ _ (span pre) (hdr_of b' (span pre) (last_off 0 0 pre))) in Ht as (T1 & T2 & T3);
      [|done|destruct Hb; lia].
    split; [split; [apply lookup_insert_eq|done]|]. split; [simpl; lia|done].
  - apply Forall_app. split; [done|]. by constructor.
Qed.

(** Plugging holes changes no used flag, also not in headers that are merged away. *)
Lemma join_blocks_used p q e x h u h' :
  h_mem h !! p = Some x -> join_blocks p q e x h = Ok u h' ->
  forall i, hm_used <$> h_mem h' !! i = hm_used <$> h_mem h !! i.
Proof.
  intros Hx E i. unfold join_blocks in E. run_inv E. injection E0 as <- <-. run_inv E.
  assert (h_mem st = h_mem h) as Em by (revert E0; unfold when; destruct (h_lfree h =? q); by intros [= <- <-]).
  run_inv E. injection E1 as <- <-. unfold upd_hdr in E. run_inv E. unfold hdr, deref in E1.
  destruct (h_mem _ !! e) as [y|] eqn:Ey in E1; [|done]. injection E1 as <- <-. injection E as _ <-. simpl in *. rewrite Em in *.
  destruct (decide (i = e)) as [->|Hie].
  - rewrite lookup_insert_eq. destruct (decide (p = e)) as [->|Hpe].
    + rewrite lookup_insert_eq in Ey. injection Ey as <-. by rewrite Hx.
    + rewrite lookup_insert_ne in Ey by done. by rewrite Ey.
  - rewrite lookup_insert_ne by done. destruct (decide (i = p)) as [->|Hip]; [by rewrite lookup_insert_eq, Hx|].
    by rewrite lookup_insert_ne.
Qed.

Lemma hdr_inv p h x h' : hdr p h = Ok x h' -> h' = h /\ h_mem h !! p = Some x.
Proof. unfold hdr, deref. destruct (h_mem h !! p) eqn:E; [|done]. by intros [= -> ->]. Qed.

Lemma plug_holes_used p h h' :
  plug_holes p h = Ok tt h' -> forall i, hm_used <$> h_mem h' !! i = hm_used <$> h_mem h !! i.
Proof.
  intros E i. unfold plug_holes in E. run_inv E. injection E0 as <- <-.
  run_inv E. assert (st = h) as -> by (revert E0; unfold rt_assert; case_match; [by intros [= _ <-]|done]). clear E0.
  run_inv E. assert (st = h) as -> by (revert E0; unfold rt_assert; case_match; [by intros [= _ <-]|done]). clear E0.
  run_inv E. apply hdr_inv in E0 as [-> _].
  run_inv E. assert (st = h) as -> by (revert E0; unfold rt_assert; case_match; [by intros [= _ <-]|done]). clear E0.
  run_inv E. rename st into h1.
  transitivity (hm_used <$> h_mem h1 !! i).
  - clear E0. unfold plug_backward in E. run_inv E. apply hdr_inv in E0 as [-> Hx]. run_inv E. apply hdr_inv in E0 as [-> Hy].
    revert E. unfold when. case_match; [|by intros [= <-]]. intros E. by eapply join_blocks_used.
  - unfold plug_forward in E0. run_inv E0. injection E1 as <- <-. run_inv E0. apply hdr_inv in E1 as [-> Hx].
    run_inv E0. apply hdr_inv in E1 as [-> Hy].
    revert E0. unfold when. case_match; [|by intros [= _ <-]]. intros E0. eapply join_blocks_used; [exact Hx|exact E0].
Qed.

Definition freed (b : blk) : blk := mk_blk (b_size b) false.

Lemma free_at_mark pre b post l :
  free_at 0 (pre ++ b :: post) l -> free_at 0 (pre ++ freed b :: post) l.
Proof. rewrite !free_at_app. simpl. tauto. Qed.

Lemma free_at_unmark pre b post l : b_used b = true ->
  free_at 0 (pre ++ freed b :: post) l <-> l = span pre \/ free_at 0 (pre ++ b :: post) l.
Proof. intros Hu. rewrite !free_at_app. simpl. rewrite Hu. naive_solver. Qed.

Lemma run_rt_free h pre b post :
  heap_inv h (pre ++ b :: post) -> b_used b = true ->
  exists h', rt_free (Some (span pre + 12)) h = Ok tt h' /\ heap_inv h' (plugged pre (freed b) post) /\
    h_data h' = h_data h /\ h_size h' = h_size h /\
    (lowest h (pre ++ b :: post) -> lowest h' (plugged pre (freed b) post)) /\
    hm_used <$> h_mem h' !! span pre = Some 0.
Proof.
  intros [C Hm Hsem] Hu. destruct (core_at _ _ _ _ C) as (Hp & Hb & Hq & H0 & Hs & H1 & Ht).
  pose proof (hc_base _ _ C) as (B0 & B4 & Bm). destruct Ht as (_ & He & _).
  pose proof (used_span_bounds _ Hp) as Up. pose proof (used_span_bounds _ Hq) as Uq.
  pose proof (span_aligned pre Hp) as Hal. unfold rt_free. erewrite bind_Ok by reflexivity.
  change (RT_ALIGN_SIZE - 1) with 3. rewrite land_3.
  assert (((h_base h + (span pre + 12)) mod 4 =? 0) = true) as -> by (apply Z.eqb_eq; Z.to_euclidean_division_equations; lia).
  erewrite bind_Ok by reflexivity. destruct Hb as [Hb Hb4].
  rewrite (proj2 (Z.leb_le 0 _)), (proj2 (Z.ltb_lt _ (h_end h))) by lia. erewrite bind_Ok by reflexivity.
  assert (heap_take h = Ok tt (set_h_sem 0 h)) as Etake
    by (unfold heap_take; erewrite bind_Ok by reflexivity; by rewrite Hsem).
  run_step Etake. change SIZEOF_STRUCT_MEM with 12. replace (span pre + 12 - 12) with (span pre) by lia.
  run_step (run_hdr (set_h_sem 0 h) (span pre) _ H1). cbn [hdr_of hm_used hm_magic hm_next hm_prev]. rewrite Hu.
  do 3 erewrite bind_Ok by reflexivity. cbn [when].
  set (lf := if span pre <? h_lfree h then span pre else h_lfree h).
  set (h1 := mk_heap (h_base h) (<[span pre := hdr_of (freed b) (span pre) (last_off 0 0 pre)]> (h_mem h)) (h_data h)
    (h_end h) lf (h_size h) (h_used h) (h_max h) 0).
  assert (when (span pre <? h_lfree h) (modify (set_h_lfree (span pre)))
    (set_h_mem (<[span pre := mk_hm HEAP_MAGIC 0 (span pre + b_size b) (last_off 0 0 pre)]>) (set_h_sem 0 h)) = Ok tt h1) as E1
    by (unfold when, h1, lf; by destruct (span pre <? h_lfree h)).
  run_step E1. erewrite bind_Ok by reflexivity.
  assert (u32 (h_used h1 - (span pre + b_size b - span pre)) = used_span (pre ++ freed b :: post)) as Eu.
  { cbn [h1 h_used]. rewrite (hc_used _ _ C), !used_span_app. simpl. rewrite Hu.
    rewrite u32_small; lia. }
  rewrite Eu.
  assert (heap_core (set_h_stats (used_span (pre ++ freed b :: post)) (h_max h1) h1) (pre ++ freed b :: post)) as C1.
  { apply (core_mark h pre b post false lf (h_max h) 0 C). unfold lf.
    destruct (Z.ltb_spec (span pre) (h_lfree h)); [left; apply free_at_unmark; [done|by left]|].
    destruct (hc_lfree _ _ C) as [F|]; [left; by apply free_at_mark|by right]. }
  destruct (run_plug_holes _ _ _ _ C1 eq_refl) as (h2 & E2 & [] & C2 & L2). run_step E2.
  eexists. split; [reflexivity|]. split_and!; try done; [| |cbn [set_h_sem h_mem]; rewrite (plug_holes_used _ _ _ E2);
    cbn [set_h_stats h_mem h1]; by rewrite lookup_insert_eq].
  - split; [by destruct C2; split| |simpl in *; lia].
    apply plugged_merged; [by eapply merged_app_l| |done]. apply merged_app in Hm as [_ Hm].
    destruct post; [done|apply Hm].
  - intros L. apply L2. intros l [->|F]%free_at_unmark; [|specialize (L l F)|done]; cbn [set_h_stats h_lfree h1]; unfold lf;
      destruct (Z.ltb_spec (span pre) (h_lfree h)); lia.
Qed.

(** ** Splitting *)

Lemma run_split h pre b post k u :
  heap_shape h (pre ++ b :: post) -> 16 <= k -> k mod 4 = 0 -> 16 <= b_size b - k ->
  u = Some 1 \/ u = None /\ b_used b = true ->
  exists m', split_block (span pre) (span pre + k) u h = Ok tt (set_h_mem (fun _ => m') h) /\
    tail m' 0 0 (pre ++ mk_blk k true :: mk_blk (b_size b - k) false :: post) (h_end h).
Proof.
  intros C Hk Hk4 Hr Hu. destruct (shape_at _ _ _ _ C) as (Hp & [Hb Hb4] & Hq & H0 & Hs & H1 & Ht).
  set (p := span pre) in *. set (x1 := mk_hm HEAP_MAGIC 0 (p + b_size b) p).
  set (x2 := mk_hm HEAP_MAGIC 1 (p + k) (last_off 0 0 pre)).
  unfold split_block. run_step (run_hdr _ _ _ H1). erewrite bind_Ok by reflexivity. cbn [hdr_of hm_next]. fold x1.
  erewrite bind_Ok by reflexivity.
  run_step (run_upd_hdr (set_h_mem (<[p + k := x1]>) h) p (set_next (p + k)) (hdr_of b p (last_off 0 0 pre))
    ltac:(simpl; rewrite lookup_insert_ne by lia; exact H1)).
  set (h2 := set_h_mem _ (set_h_mem _ h)).
  assert (match u with Some u => upd_hdr p (set_used u) | None => mret tt end h2
    = Ok tt (set_h_mem (fun _ => <[p := x2]> (<[p + k := x1]> (h_mem h))) h)) as E2.
  { destruct Hu as [->|[-> Hu]].
    - rewrite (run_upd_hdr h2 p _ _ (lookup_insert_eq _ _ _)). unfold h2, set_h_mem. cbn [h_mem h_base h_data h_end h_lfree h_size h_used h_max h_sem].
      by rewrite insert_insert_eq.
    - unfold h2, set_h_mem, hdr_of, set_next; simpl. by rewrite Hu. }
  run_step E2. cbn [set_h_mem h_size]. 
  assert (u32 (h_size h + SIZEOF_STRUCT_MEM) = h_end h) as ->.
  { pose proof (hs_size _ _ C). pose proof (hs_base _ _ C). change SIZEOF_STRUCT_MEM with 12.
    pose proof (span_nonneg post Hq). destruct Ht as (_ & He & _). rewrite u32_small; lia. }
  set (m2 := <[p := x2]> (<[p + k := x1]> (h_mem h))).
  assert (tail m2 p (p + b_size b) post (h_end h)) as Ht2 by (apply tail_insert_out, tail_insert_out; [done|lia|done|lia|done]).
  assert (seg m2 0 0 pre) as Hs2 by (apply seg_insert_out, seg_insert_out; [done|simpl; lia|done|simpl; lia|done]).
  assert (exists m', when (negb (p + b_size b =? h_end h)) (upd_hdr (p + b_size b) (set_prev (p + k))) (set_h_mem (fun _ => m2) h)
    = Ok tt (set_h_mem (fun _ => m') h) /\ tail m' (p + k) (p + b_size b) post (h_end h) /\
    (forall q, q < p + b_size b -> m' !! q = m2 !! q)) as (m' & E3 & Ht3 & Hlo).
  { destruct (tail_front _ _ _ _ _ Hq Ht2) as (y & Hy & _ & _ & Hup). unfold when.
    destruct (Z.eqb_spec (p + b_size b) (h_end h)) as [Ee|Ee]; cbn [negb].
    - exists m2. split; [done|]. split; [|done]. destruct post as [|c post]; [done|].
      apply Forall_cons in Hq as [[? _] ?%span_nonneg]. destruct Ht2 as (_ & He & _). simpl in He. lia.
    - exists (<[p + b_size b := set_prev (p + k) y]> m2). split; [by rewrite (run_upd_hdr _ _ _ y) by exact Hy|].
      split; [done|]. intros q Hq'. rewrite lookup_insert_ne by lia. done. }
  exists m'. split; [exact E3|]. apply tail_app. rewrite Z.add_0_l. fold p. split.
  { eapply seg_frame; [done| |exact Hs2]. intros q Hq'. apply Hlo. lia. }
  destruct Ht3 as (T1 & T2 & T3). split; [|split; [simpl; lia|done]]. cbn [seg b_size].
  replace (p + k + (b_size b - k)) with (p + b_size b) by lia. split_and!; [| |done].
  - rewrite Hlo by lia. apply lookup_insert_eq.
  - rewrite Hlo by lia. unfold m2. rewrite lookup_insert_ne, lookup_insert_eq by lia. unfold x1, hdr_of. simpl. do 2 f_equal. lia.
Qed.

(** ** Allocating *)

(** [lfree] moves to the first free block from the one it is at. *)
Lemma run_lfree_loop post : forall fuel pre h,
  tail (h_mem h) 0 0 (pre ++ post) (h_end h) -> Forall block_ok (pre ++ post) -> h_lfree h = span pre ->
  (length post <= fuel)%nat ->
  exists l, lfree_loop fuel h = Ok tt (set_h_lfree l h) /\ (free_at (span pre) post l \/ l = h_end h) /\
    span pre <= l /\ forall l', free_at (span pre) post l' -> l <= l'.
Proof.
  induction post as [|b post IH]; intros fuel pre h Ht Hb Hl Hf.
  - rewrite app_nil_r in *. destruct Ht as (_ & He & pr & Hr). simpl in He. exists (h_end h).
    split; [|split; [by right|split; [lia|done]]].
    assert (h_lfree h = h_end h) as El by lia. destruct fuel; cbn [lfree_loop]; erewrite bind_Ok by reflexivity;
      rewrite El; run_step (run_hdr _ _ _ Hr); rewrite Z.eqb_refl; cbn; by rewrite <- El; destruct h.
  - pose proof (proj1 (Forall_app _ _ _) Hb) as [Hp [Hb1 Hq]%Forall_cons].
    pose proof (proj1 (tail_app _ _ _ _ _ _) Ht) as [Hs ([H1 _] & He & _)]. simpl in He.
    pose proof (span_nonneg post Hq) as Hsp. pose proof (span_nonneg pre Hp) as Hspp. destruct Hb1 as [Hb1 _].
    rewrite Z.add_0_l in H1. rewrite <- Hl in H1.
    destruct (b_used b) eqn:Eu.
    + destruct fuel as [|fuel]; [simpl in Hf; lia|]. cbn [lfree_loop]. erewrite bind_Ok by reflexivity.
      run_step (run_hdr _ _ _ H1). cbn [hdr_of hm_used hm_next]. rewrite flag_zero, Eu, (proj2 (Z.eqb_neq _ (h_end h))) by lia.
      cbn [negb andb]. erewrite bind_Ok by reflexivity.
      destruct (IH fuel (pre ++ [b]) (set_h_lfree (h_lfree h + b_size b) h)) as (l & E & Hl1 & Hl2 & Hl3);
        [by rewrite <- app_assoc|by rewrite <- app_assoc|rewrite span_app; simpl; lia|simpl in Hf; lia|].
      rewrite span_app in Hl1, Hl2, Hl3. simpl in Hl1, Hl2, Hl3. rewrite Z.add_0_r in Hl1, Hl2, Hl3.
      exists l. split; [rewrite E; by destruct h|]. cbn [free_at]. rewrite Eu.
      split; [naive_solver|]. split; [lia|]. intros l' [[_ ?]|F]; [done|by apply Hl3].
    + exists (span pre). split; [|].
      * destruct fuel; cbn [lfree_loop]; erewrite bind_Ok by reflexivity; run_step (run_hdr _ _ _ H1);
          cbn [hdr_of hm_used]; rewrite flag_zero, Eu; cbn; by rewrite <- Hl; destruct h.
      * cbn [free_at]. split; [by left; left|]. split; [lia|]. intros l' [[-> _]|F%free_at_range]; lia || done.
Qed.

(** What becomes of a free block that [rt_malloc] takes. *)
Definition taken (size : Z) (b : blk) : list blk :=
  if size + 24 <=? b_size b - 12 then [mk_blk (size + 12) true; mk_blk (b_size b - (size + 12)) false]
  else [mk_blk (b_size b) true].

Definition request_ok (size : Z) (h : heap) : Prop := 12 <= size <= h_size h /\ size mod 4 = 0.

Lemma taken_span size b : span (taken size b) = b_size b.
Proof. unfold taken. case_match; simpl; lia. Qed.

Lemma taken_ok size h b : request_ok size h -> block_ok b -> size <= b_size b - 12 -> Forall block_ok (taken size b).
Proof.
  intros [Hs Hs4] [Hb Hb4] Hle. unfold taken. destruct (Z.leb_spec (size + 24) (b_size b - 12)); repeat constructor; simpl;
    Z.to_euclidean_division_equations; lia.
Qed.

Lemma taken_used size b : b_used b = false ->
  used_span (taken size b) = if size + 24 <=? b_size b - 12 then size + 12 else b_size b.
Proof. intros Hu. unfold taken. case_match; simpl; lia. Qed.

(** The header part of [take_block]: split or mark, with the statistics. *)
Lemma run_take_header h pre b post size :
  heap_core h (pre ++ b :: post) -> b_used b = false -> request_ok size h -> size <= b_size b - 12 ->
  exists m' mx,
    (mem ← hdr (span pre);
     (if u32 (size + SIZEOF_STRUCT_MEM + MIN_SIZE_ALIGNED) <=? u32 (hm_next mem - (span pre + SIZEOF_STRUCT_MEM)) then
        split_block (span pre) (u32 (span pre + SIZEOF_STRUCT_MEM + size)) (Some 1);;
        count_used (size + SIZEOF_STRUCT_MEM)
      else
        upd_hdr (span pre) (set_used 1);;
        count_used (hm_next mem - span pre));;
     upd_hdr (span pre) (set_magic HEAP_MAGIC)) h
    = Ok tt (mk_heap (h_base h) m' (h_data h) (h_end h) (h_lfree h) (h_size h) (used_span (pre ++ taken size b ++ post)) mx (h_sem h)) /\
    tail m' 0 0 (pre ++ taken size b ++ post) (h_end h).
Proof.
  intros C Hu [Hs Hs4] Hle. destruct (core_at _ _ _ _ C) as (Hp & [Hb Hb4] & Hq & H0 & Hsg & H1 & Ht).
  pose proof (hc_base _ _ C) as (B0 & _ & Bm). pose proof (hc_size _ _ C) as Csz.
  pose proof (used_span_bounds _ Hp) as Up. pose proof (used_span_bounds _ Hq) as Uq.
  destruct Ht as (T1 & T2 & T3).
  assert (forall n, 0 <= n <= b_size b -> u32 (h_used h + n) = used_span pre + n + used_span post) as Eu.
  { intros n Hn. rewrite (hc_used _ _ C), used_span_app. simpl. rewrite Hu, u32_small; lia. }
  run_step (run_hdr _ _ _ H1). cbn [hdr_of hm_next]. change SIZEOF_STRUCT_MEM with 12. change MIN_SIZE_ALIGNED with 12.
  rewrite !u32_small by lia. replace (span pre + b_size b - (span pre + 12)) with (b_size b - 12) by lia.
  replace (size + 12 + 12) with (size + 24) by lia. rewrite !used_span_app, (taken_used size b Hu). unfold taken.
  destruct (Z.leb_spec (size + 24) (b_size b - 12)) as [Hsp|Hsp].
  - replace (span pre + 12 + size) with (span pre + (size + 12)) by lia.
    destruct (run_split h pre b post (size + 12) (Some 1) (core_shape _ _ C)) as (m' & E & Ht'); [lia|Z.to_euclidean_division_equations; lia|lia|by left|].
    assert (m' !! span pre = Some (hdr_of (mk_blk (size + 12) true) (span pre) (last_off 0 0 pre))) as H2
      by (apply tail_app in Ht' as [_ ([H2 _] & _)]; by rewrite Z.add_0_l in H2).
    eexists m', _. split; [|exact Ht'].
    erewrite bind_Ok; [|run_step E; reflexivity].
    erewrite run_upd_hdr by exact H2. unfold set_h_mem, set_h_stats. cbn. rewrite Eu by lia.
    rewrite insert_id by exact H2. do 2 f_equal. lia.
  - eexists (<[span pre := hdr_of (mk_blk (b_size b) true) (span pre) (last_off 0 0 pre)]> (h_mem h)), _.
    split; [|apply tail_app; rewrite Z.add_0_l; split; [apply seg_insert_out; [done|simpl; lia|done]|]].
    + erewrite bind_Ok; [|run_step (run_upd_hdr h _ (set_used 1) _ H1); reflexivity].
      erewrite run_upd_hdr by apply lookup_insert_eq. unfold set_h_mem, set_h_stats. cbn. rewrite Eu by lia.
      rewrite insert_insert_eq. do 2 f_equal. lia.
    + cbn [app]. split; [split; [apply lookup_insert_eq|]|split; [simpl; lia|]].
      * apply seg_insert_out; [done|left; simpl; lia|done].
      * destruct T3 as (pr & T3). exists pr. rewrite lookup_insert_ne by lia. done.
Qed.

(** A free block makes place for a used one, with or without a remainder. *)
Lemma merged_replace pre b post c (d : option blk) :
  merged (pre ++ b :: post) -> b_used b = false -> b_used c = true -> merged (pre ++ c :: option_list d ++ post).
Proof.
  intros [H1 H2]%merged_app Hu Hc.
  assert (merged post /\ head_used post = true) as [Hq Hh].
  { destruct post as [|x post]; [done|]. cbn [merged] in H2. rewrite Hu in H2. simpl. naive_solver. }
  apply merged_app. split; [apply merged_snoc; [by eapply merged_app_l|by left]|].
  destruct d as [d|]; cbn [option_list app]; [|apply merged_cons; [done|by left]].
  apply merged_cons; [apply merged_cons; [done|by right]|by left].
Qed.

Lemma merged_taken pre b post size :
  merged (pre ++ b :: post) -> b_used b = false -> merged (pre ++ taken size b ++ post).
Proof.
  intros H Hu. unfold taken. case_match.
  - by apply (merged_replace _ b _ (mk_blk (size + 12) true) (Some (mk_blk (b_size b - (size + 12)) false))).
  - by apply (merged_replace _ b _ (mk_blk (b_size b) true) None).
Qed.

Lemma free_at_taken size b p l : 0 <= size -> free_at p (taken size b) l -> p < l.
Proof. intros H0. unfold taken. case_match; simpl; intros F; naive_solver lia. Qed.

Lemma seg_free_hdr m prev p bs l :
  seg m prev p bs -> free_at p bs l -> exists x, m !! l = Some x /\ hm_used x = 0.
Proof.
  revert prev p. induction bs as [|b bs IH]; intros prev p; simpl; [done|]. intros [H1 H2] [[-> Hu]|F]; [|by eapply IH].
  eexists. split; [exact H1|]. simpl. by rewrite Hu.
Qed.

(** The update of [lfree] when the lowest free block was taken. *)
Lemma run_take_lfree h h1 pre b post size fuel :
  heap_core h (pre ++ b :: post) -> b_used b = false -> 0 <= size -> (length post + 2 <= fuel)%nat ->
  tail (h_mem h1) 0 0 (pre ++ taken size b ++ post) (h_end h1) -> Forall block_ok (pre ++ taken size b ++ post) ->
  h_lfree h1 = h_lfree h -> h_end h1 = h_end h ->
  exists l, when (span pre =? h_lfree h1) (
      lfree_loop fuel;; h ← get; l ← hdr (h_lfree h); rt_assert ((h_lfree h =? h_end h) || (hm_used l =? 0))) h1
    = Ok tt (set_h_lfree l h1) /\ (free_at 0 (pre ++ taken size b ++ post) l \/ l = h_end h) /\
    (lowest h (pre ++ b :: post) -> forall l', free_at 0 (pre ++ taken size b ++ post) l' -> l <= l').
Proof.
  intros C Hu Hsz Hf Ht Hall Elf Eend. destruct (core_at _ _ _ _ C) as (Hp & [Hb _] & Hq & H0 & _).
  destruct (Z.eqb_spec (span pre) (h_lfree h1)) as [Eq|Ne].
  - destruct (run_lfree_loop (taken size b ++ post) fuel pre h1 Ht Hall (eq_sym Eq)) as (l & E & Hl & Hge & Hmin).
    { rewrite length_app. unfold taken. case_match; simpl; lia. }
    assert (free_at 0 (pre ++ taken size b ++ post) l \/ l = h_end h1) as Hl'
      by (destruct Hl as [Hl|Hl]; [left; apply free_at_app; by right|by right]).
    exists l. rewrite <- Eend. split_and!; [|done|].
    + cbn [when]. run_step E. erewrite bind_Ok by reflexivity. cbn [set_h_lfree h_lfree h_end].
      destruct Ht as (Hs & _ & pr & Hr). destruct Hl' as [F| ->].
      * destruct (seg_free_hdr _ _ _ _ _ Hs F) as (x & Hx & Hx0). run_step (run_hdr (set_h_lfree l h1) l x Hx).
        by rewrite Hx0, orb_true_r.
      * run_step (run_hdr (set_h_lfree (h_end h1) h1) _ _ Hr). by rewrite Z.eqb_refl.
    + intros L l' [F|F]%free_at_app; [|by apply Hmin].
      assert (free_at 0 (pre ++ b :: post) l') as F' by (apply free_at_app; by left).
      specialize (L l' F'). apply free_at_range in F; [lia|done].
  - exists (h_lfree h1). split; [by destruct h1|]. rewrite Elf in *. split.
    + destruct (hc_lfree _ _ C) as [F|]; [left|by right]. rewrite !free_at_app in *. rewrite taken_span. simpl in F. naive_solver.
    + intros L l'. rewrite !free_at_app, taken_span. intros F. destruct F as [F|[F|F]].
      * apply L, free_at_app. by left.
      * apply free_at_taken in F; [|done]. rewrite Z.add_0_l in F. etrans; [apply (L (span pre))|lia].
        apply free_at_app. right. left. by rewrite Z.add_0_l.
      * apply L, free_at_app. right. by right.
Qed.

Lemma run_take_block h pre b post size fuel :
  heap_core h (pre ++ b :: post) -> b_used b = false -> h_sem h = 0 -> request_ok size h -> size <= b_size b - 12 ->
  (length post + 2 <= fuel)%nat ->
  exists h', take_block fuel (span pre) size h = Ok tt h' /\ heap_core h' (pre ++ taken size b ++ post) /\
    h_sem h' = 1 /\ h_data h' = h_data h /\ h_size h' = h_size h /\
    (lowest h (pre ++ b :: post) -> lowest h' (pre ++ taken size b ++ post)).
Proof.
  intros C Hu Hsem Hreq Hle Hf. destruct (core_at _ _ _ _ C) as (Hp & Hb & Hq & H0 & Hsg & H1 & _ & He & _).
  pose proof (hc_base _ _ C) as (B0 & B4 & Bm). pose proof (hc_size _ _ C) as Csz. pose proof (span_nonneg _ Hq) as Hsq.
  destruct (run_take_header h pre b post size C Hu Hreq Hle) as (m' & mx & E & Ht').
  apply bind_Ok_inv in E as (x & h1 & E1 & E). apply bind_Ok_inv in E as ([] & h2 & E2 & E).
  unfold take_block. run_step E1. run_step E2. run_step E. clear E1 E2 E h1 h2 x.
  assert (Forall block_ok (pre ++ taken size b ++ post)) as Hall
    by (apply Forall_app; split; [done|]; apply Forall_app; split; [by eapply taken_ok|done]).
  set (h1 := mk_heap _ m' _ _ _ _ _ _ _). erewrite bind_Ok by reflexivity. destruct Hreq as [Hs Hs4], Hb as [Hb Hb4].
  destruct (run_take_lfree h h1 pre b post size fuel) as (l & E & Hl & Hlow); [done|done|lia|done|done|done|done|done|].
  run_step E. do 2 erewrite bind_Ok by reflexivity. cbn [set_h_sem set_h_lfree h_base h_end h1]. change SIZEOF_STRUCT_MEM with 12.
  pose proof (span_aligned pre Hp) as Hal.
  rewrite u32_small, (proj2 (Z.leb_le _ _)) by lia. erewrite bind_Ok by reflexivity.
  assert (((h_base h + span pre + 12) mod RT_ALIGN_SIZE =? 0) = true) as ->
    by (apply Z.eqb_eq; unfold RT_ALIGN_SIZE; Z.to_euclidean_division_equations; lia).
  erewrite bind_Ok by reflexivity. change (RT_ALIGN_SIZE - 1) with 3. rewrite land_3.
  assert (((h_base h + span pre) mod 4 =? 0) = true) as -> by (apply Z.eqb_eq; Z.to_euclidean_division_equations; lia).
  eexists. split; [reflexivity|]. split_and!; [by split|simpl; lia|done|done|]. done.
Qed.

(** Reference for the search: the offset of the first block, at or above
    [lfree], that is free, has room for [size] bytes, and starts below the
    bound [total - size] of the loop.  A free block at or above this bound has
    room only if it starts at the bound itself and ends the heap. *)
Definition fits (lfree total size p : Z) (b : blk) : bool :=
  (lfree <=? p) && (p <? total - size) && negb (b_used b) && (size <=? b_size b - 12).

Fixpoint first_fit (lfree total size p : Z) (bs : list blk) : option Z :=
  match bs with
  | [] => None
  | b :: bs => if fits lfree total size p b then Some p else first_fit lfree total size (p + b_size b) bs
  end.

(** The search starts at [lfree]. *)
Lemma first_fit_skip lo total size p pre post :
  Forall block_ok pre -> p + span pre <= lo ->
  first_fit lo total size p (pre ++ post) = first_fit lo total size (p + span pre) post.
Proof.
  intros Hp. revert p. induction Hp as [|b pre [Hb _] Hp IH]; intros p Hle; simpl in *; [by rewrite Z.add_0_r|].
  pose proof (span_nonneg pre Hp). unfold fits. rewrite (proj2 (Z.leb_gt lo p)) by lia. cbn [andb].
  rewrite IH by lia. f_equal. lia.
Qed.

(** It ends at the bound. *)
Lemma first_fit_past lo total size p bs :
  Forall block_ok bs -> total - size <= p -> first_fit lo total size p bs = None.
Proof.
  intros Hb. revert p. induction Hb as [|b bs [Hb _] Hbs IH]; intros p Hp; [done|]. simpl. unfold fits.
  rewrite (proj2 (Z.ltb_ge p (total - size))) by lia. rewrite andb_false_r. cbn [andb]. apply IH. lia.
Qed.

Lemma run_malloc_loop lo size post : forall fuel pre h, lo <= span pre ->
  heap_core h (pre ++ post) -> merged (pre ++ post) -> h_sem h = 0 -> request_ok size h -> (length post + 2 <= fuel)%nat ->
  exists r h', malloc_loop fuel (span pre) size h = Ok r h' /\
    r = (fun p => p + 12) <$> first_fit lo (h_size h) size (span pre) post /\
    match r with
    | None => h' = set_h_sem 1 h
    | Some q => exists p1 b p2, post = p1 ++ b :: p2 /\ b_used b = false /\ size <= b_size b - 12 /\
        q = span pre + span p1 + 12 /\ heap_inv h' (pre ++ p1 ++ taken size b ++ p2) /\
        h_data h' = h_data h /\ h_size h' = h_size h /\
        (lowest h (pre ++ post) -> lowest h' (pre ++ p1 ++ taken size b ++ p2))
    end.
Proof.
  induction post as [|b post IH]; intros fuel pre h Hlo C Hm Hsem Hreq Hf; pose proof Hreq as [Hs Hs4];
    pose proof (hc_tail _ _ C) as (_ & He & _); pose proof (hc_size _ _ C) as Csz; pose proof (hc_base _ _ C) as (B0 & _ & Bm);
    pose proof (proj1 (Forall_app _ _ _) (hc_blocks _ _ C)) as [Hp Hq]; rewrite span_app in He;
    pose proof (span_nonneg _ Hp) as H0; pose proof (span_nonneg _ Hq) as Hsq.
  - simpl in He. exists None, (set_h_sem 1 h). split; [|done].
    destruct fuel; cbn [malloc_loop]; erewrite bind_Ok by reflexivity; rewrite u32_small by lia;
      rewrite (proj2 (Z.ltb_ge _ _)) by lia; unfold heap_release; erewrite bind_Ok by reflexivity; by rewrite Hsem.
  - destruct fuel as [|fuel]; [simpl in Hf; lia|]. cbn [malloc_loop]. erewrite bind_Ok by reflexivity.
    rewrite u32_small by lia. destruct (Z.ltb_spec (span pre) (h_size h - size)) as [Hlt|Hge].
    2:{ exists None, (set_h_sem 1 h). split; [|split; [by rewrite first_fit_past|done]].
        unfold heap_release. erewrite bind_Ok by reflexivity. by rewrite Hsem. }
    destruct (core_at _ _ _ _ C) as (_ & [Hb Hb4] & Hqq & _ & _ & H1 & _). pose proof (span_nonneg _ Hqq).
    simpl in He, Hsq.
    run_step (run_hdr _ _ _ H1). cbn [hdr_of hm_used hm_next]. rewrite flag_zero. change SIZEOF_STRUCT_MEM with 12.
    rewrite u32_small by lia. replace (span pre + b_size b - (span pre + 12)) with (b_size b - 12) by lia.
    cbn [first_fit]. unfold fits. rewrite (proj2 (Z.leb_le lo _) Hlo), (proj2 (Z.ltb_lt _ _) Hlt). cbn [andb].
    destruct (negb (b_used b) && (size <=? b_size b - 12)) eqn:Efit.
    + apply andb_true_iff in Efit as [Eu%negb_true_iff Hle%Z.leb_le].
      destruct (run_take_block h pre b post size (S fuel) C Eu Hsem Hreq Hle) as (h' & E & C' & Hs' & Hd & Hsz & Hlow);
        [simpl in Hf; lia|].
      run_step E. eexists _, h'. split; [reflexivity|]. split; [done|]. exists [], b, post. simpl.
      split_and!; try done; [lia|]. split; [done|by apply merged_taken|done].
    + destruct (IH fuel (pre ++ [b]) h) as (r & h' & E & Er & Hr);
        [rewrite span_app; simpl; lia|by rewrite <- app_assoc|by rewrite <- app_assoc|done|done|simpl in Hf; lia|].
      rewrite span_app in E, Er, Hr. simpl in E, Er, Hr. rewrite Z.add_0_r in E, Er, Hr. exists r, h'.
      split; [exact E|]. split; [exact Er|]. clear Er. destruct r as [q|]; [|done].
      destruct Hr as (p1 & c & p2 & -> & Hu & Hle & -> & I & Hd & Hsz & Hlow).
      exists (b :: p1), c, p2. rewrite <- !app_assoc in *. simpl in *. split_and!; try done. lia.
Qed.

(** *** The number of headers is fuel enough *)

Fixpoint offsets (p : Z) (bs : list blk) : list Z :=
  match bs with [] => [p] | b :: bs => p :: offsets (p + b_size b) bs end.

Lemma offsets_ge p bs q : Forall block_ok bs -> q ∈ offsets p bs -> p <= q.
Proof.
  intros Hb. revert p. induction Hb as [|b bs [Hb _] Hbs IH]; intros p; simpl.
  - rewrite list_elem_of_singleton. lia.
  - intros [->|H%IH]%elem_of_cons; lia.
Qed.

Lemma offsets_nodup p bs : Forall block_ok bs -> NoDup (offsets p bs).
Proof.
  intros Hb. revert p. induction Hb as [|b bs [Hb _] Hbs IH]; intros p; simpl; [apply NoDup_singleton|].
  apply NoDup_cons. split; [|apply IH]. intros H%offsets_ge; [lia|done].
Qed.

Lemma offsets_dom m prev p bs e : tail m prev p bs e -> list_to_set (offsets p bs) ⊆ dom m.
Proof.
  revert prev p. induction bs as [|b bs IH]; intros prev p (Hs & He & pr & Hr); simpl in *.
  - assert (p = e) as -> by lia. assert (e ∈ dom m) by (apply elem_of_dom; eauto). set_solver.
  - destruct Hs as [H1 H2]. assert (p ∈ dom m) by (apply elem_of_dom; eauto).
    assert (list_to_set (offsets (p + b_size b) bs) ⊆ dom m)
      by (eapply IH; split; [exact H2|]; split; [lia|eauto]). set_solver.
Qed.

Lemma length_offsets p bs : length (offsets p bs) = S (length bs).
Proof. revert p. induction bs as [|b bs IH]; intros p; simpl; [done|]. by rewrite IH. Qed.

Lemma length_blocks h bs : heap_core h bs -> (length bs < base.size (h_mem h))%nat.
Proof.
  intros C. pose proof (offsets_dom _ _ _ _ _ (hc_tail _ _ C)) as Hd. apply subseteq_size in Hd.
  rewrite size_list_to_set in Hd by (apply offsets_nodup, (hc_blocks _ _ C)). rewrite size_dom in Hd.
  rewrite length_offsets in Hd. lia.
Qed.

(** [lfree] cuts the blocks in two. *)
Lemma free_at_split p bs l : free_at p bs l -> exists pre post, bs = pre ++ post /\ l = p + span pre.
Proof.
  revert p. induction bs as [|b bs IH]; intros p; simpl; [done|]. intros [[-> _]|(pre & post & -> & ->)%IH].
  - exists [], (b :: bs). split; [done|simpl; lia].
  - exists (b :: pre), post. split; [done|simpl; lia].
Qed.

Lemma lfree_split h bs : heap_core h bs -> exists pre post, bs = pre ++ post /\ h_lfree h = span pre.
Proof.
  intros C. destruct (hc_lfree _ _ C) as [(pre & post & -> & E)%free_at_split|E].
  - exists pre, post. split; [done|lia].
  - exists bs, []. rewrite app_nil_r. split; [done|]. pose proof (hc_tail _ _ C) as (_ & He & _). lia.
Qed.

(** The size that [rt_malloc] looks for. *)
Definition rounded (size : Z) : Z := Z.max 12 (RT_ALIGN size RT_ALIGN_SIZE).

Lemma align_down_4 x : 0 <= x < 2 ^ 32 -> Z.land x (not32 3) = x - x mod 4.
Proof. intros Hx. exact (land_not32_pow2 x 2 Hx ltac:(lia)). Qed.

Lemma align_4 size : 0 <= size <= 2 ^ 32 - 4 ->
  RT_ALIGN size RT_ALIGN_SIZE mod 4 = 0 /\ size <= RT_ALIGN size RT_ALIGN_SIZE < size + 4.
Proof.
  intros Hs. unfold RT_ALIGN, RT_ALIGN_SIZE. change (4 - 1) with 3. rewrite u32_small, align_down_4 by lia.
  Z.to_euclidean_division_equations. lia.
Qed.

(** What [rt_malloc] returns: nothing for 0 bytes or for more than the heap,
    otherwise the memory of the first block that fits. *)
Definition malloc_result (h : heap) (bs : list blk) (size : Z) : option Z :=
  if (size =? 0) || (h_size h <? RT_ALIGN size RT_ALIGN_SIZE) then None
  else (fun p => p + 12) <$> first_fit (h_lfree h) (h_size h) (rounded size) 0 bs.

Lemma run_rt_malloc h bs size :
  heap_inv h bs -> 12 <= h_size h -> 0 <= size <= 2 ^ 32 - 4 ->
  exists h', rt_malloc size h = Ok (malloc_result h bs size) h' /\
    match malloc_result h bs size with
    | None => h' = h
    | Some q => 0 < size /\ exists pre b post, bs = pre ++ b :: post /\ b_used b = false /\ rounded size <= b_size b - 12 /\
        q = span pre + 12 /\ heap_inv h' (pre ++ taken (rounded size) b ++ post) /\ h_data h' = h_data h /\ h_size h' = h_size h /\
        (lowest h bs -> lowest h' (pre ++ taken (rounded size) b ++ post))
    end.
Proof.
  intros [C Hm Hsem] H12 Hsize. unfold rt_malloc, malloc_result. destruct (Z.eqb_spec size 0) as [->|Hnz].
  { by exists h. }
  destruct (align_4 size Hsize) as [Hal Hal2]. erewrite bind_Ok by reflexivity. cbn [orb].
  destruct (Z.ltb_spec (h_size h) (RT_ALIGN size RT_ALIGN_SIZE)) as [Hbig|Hfit].
  { by exists h. }
  assert ((if RT_ALIGN size RT_ALIGN_SIZE <? MIN_SIZE_ALIGNED then MIN_SIZE_ALIGNED else RT_ALIGN size RT_ALIGN_SIZE)
    = rounded size) as ->.
  { unfold rounded. change MIN_SIZE_ALIGNED with 12. destruct (Z.ltb_spec (RT_ALIGN size RT_ALIGN_SIZE) 12); lia. }
  assert (heap_take h = Ok tt (set_h_sem 0 h)) as Etake
    by (unfold heap_take; erewrite bind_Ok by reflexivity; by rewrite Hsem).
  run_step Etake. destruct (lfree_split h bs C) as (pre & post & -> & El). rewrite El.
  pose proof (length_blocks h _ C) as Hlen. rewrite length_app in Hlen.
  assert (request_ok (rounded size) h) as Hreq.
  { unfold rounded, request_ok. split; [lia|]. destruct (Z.max_spec 12 (RT_ALIGN size RT_ALIGN_SIZE)) as [[_ ->]|[_ ->]]; done. }
  destruct (run_malloc_loop (span pre) (rounded size) post (S (base.size (h_mem h))) pre (set_h_sem 0 h)) as (r & h' & E & Er & Hr);
    [done|by destruct C; split|done|done|done|lia|].
  rewrite first_fit_skip, Z.add_0_l by (lia || apply (proj1 (Forall_app _ _ _) (hc_blocks _ _ C))).
  cbn [h_size set_h_sem] in Er. rewrite <- Er. exists h'. split; [exact E|]. clear Er. destruct r as [q|].
  - destruct Hr as (p1 & b & p2 & -> & Hu & Hle & -> & I & Hd & Hsz & Hlow). split; [lia|].
    exists (pre ++ p1), b, p2. rewrite <- !app_assoc, span_app. split_and!; done.
  - subst h'. destruct h; simpl in *; by subst.
Qed.

(** ** The allocations *)

(** The allocations lie inside of the heap, in order, with room for a header
    between any two of them. *)
Definition separate (e : Z) (l : list (Z * Z)) : Prop :=
  StronglySorted (fun x y => x.1 + x.2 + 12 <= y.1) l /\
  Forall (fun x => 12 <= x.1 /\ 4 <= x.2 /\ x.1 + x.2 <= e /\ x.1 mod 4 = 0) l.

Lemma live_bounds p bs :
  Forall block_ok bs -> p mod 4 = 0 ->
  Forall (fun x => p + 12 <= x.1 /\ 4 <= x.2 /\ x.1 + x.2 <= p + span bs /\ x.1 mod 4 = 0) (live p bs).
Proof.
  intros Hb. revert p. induction Hb as [|b bs [Hb Hb4] Hbs IH]; intros p Hp; simpl; [done|].
  pose proof (span_nonneg bs Hbs) as Hsp. specialize (IH (p + b_size b) ltac:(Z.to_euclidean_division_equations; lia)).
  apply Forall_app. split.
  - destruct (b_used b); [|done]. constructor; [|done]. simpl. split_and!; [lia..|]. Z.to_euclidean_division_equations. lia.
  - eapply Forall_impl; [exact IH|]. simpl. intros x Hx. lia.
Qed.

Lemma live_sorted p bs :
  Forall block_ok bs -> p mod 4 = 0 -> StronglySorted (fun x y => x.1 + x.2 + 12 <= y.1) (live p bs).
Proof.
  intros Hb. revert p. induction Hb as [|b bs [Hb Hb4] Hbs IH]; intros p Hp; simpl; [constructor|].
  assert ((p + b_size b) mod 4 = 0) as Hp' by (Z.to_euclidean_division_equations; lia).
  destruct (b_used b); [|by apply IH]. constructor; [by apply IH|].
  eapply Forall_impl; [by apply (live_bounds (p + b_size b))|]. simpl. intros x Hx. lia.
Qed.

Lemma live_separate h bs : heap_core h bs -> separate (h_end h) (live 0 bs).
Proof.
  intros C. pose proof (hc_tail _ _ C) as (_ & He & _). split; [by apply live_sorted; [apply (hc_blocks _ _ C)|]|].
  eapply Forall_impl; [by apply (live_bounds 0); [apply (hc_blocks _ _ C)|]|]. simpl. intros x Hx. lia.
Qed.

Lemma live_at p bs q n :
  (q, n) ∈ live p bs -> exists pre b post, bs = pre ++ b :: post /\ b_used b = true /\ q = p + span pre + 12 /\ n = b_size b - 12.
Proof.
  revert p. induction bs as [|b bs IH]; intros p; simpl; [by intros ?%elem_of_nil|].
  intros [H|H]%elem_of_app.
  - destruct (b_used b) eqn:Eu; [|by apply elem_of_nil in H]. apply list_elem_of_singleton in H as [= -> ->].
    exists [], b, bs. simpl. split_and!; [done|done|lia|done].
  - apply IH in H as (pre & c & post & -> & Hu & -> & ->). exists (b :: pre), c, post. simpl. split_and!; [done|done|lia|done].
Qed.

(** Taking a block adds one allocation. *)
Lemma live_taken pre b post size : b_used b = false ->
  exists n, size <= b_size b - 12 -> size <= n /\
    live 0 (pre ++ taken size b ++ post) ≡ₚ (span pre + 12, n) :: live 0 (pre ++ b :: post).
Proof.
  intros Hu. exists (if size + 24 <=? b_size b - 12 then size else b_size b - 12). intros Hle.
  rewrite !live_app, taken_span. cbn [live]. rewrite Hu, Z.add_0_l. cbn [app].
  unfold taken. destruct (Z.leb_spec (size + 24) (b_size b - 12)); (split; [lia|]); cbn [live b_used b_size app];
    rewrite ?app_nil_r; symmetry; etrans; [apply Permutation_middle| |apply Permutation_middle|]; try done.
  replace (size + 12 - 12) with size by lia. done.
Qed.

Lemma live_freed pre b post : b_used b = true ->
  live 0 (pre ++ b :: post) ≡ₚ (span pre + 12, b_size b - 12) :: live 0 (plugged pre (freed b) post).
Proof.
  intros Hu. rewrite plugged_live, live_app by done. cbn [live freed b_size]. rewrite Hu, Z.add_0_l. cbn [app].
  symmetry. apply Permutation_middle.
Qed.

(** C11: on a heap whose invariant holds, and for a request of at most 2^32-4
    bytes, [rt_malloc] ends, keeps the invariant and releases the lock, and is
    a first fit: it refuses 0 bytes and a request larger than the heap, and
    otherwise returns the memory of the first free block with room for the
    rounded request among the blocks that start at or above [lfree] and below
    the bound [mem_size_aligned - size] of the loop, or none when there is no
    such block (so the last block of the heap is refused when the request fits
    it exactly).  A returned block is one new allocation of at least the
    requested size, aligned, inside of the heap and apart from every other
    allocation and every header; nothing else changes.  A refusal changes
    nothing.  If [lfree] was at or below every free block, it still is. *)
Theorem rt_malloc_correct h bs size :
  heap_inv h bs -> 12 <= h_size h -> 0 <= size <= 2 ^ 32 - 4 ->
  exists h' bs', rt_malloc size h = Ok (malloc_result h bs size) h' /\ heap_inv h' bs' /\
    (lowest h bs -> lowest h' bs') /\ separate (h_end h') (live 0 bs') /\
    match malloc_result h bs size with
    | Some q => exists n, size <= n /\ live 0 bs' ≡ₚ (q, n) :: live 0 bs /\ h_data h' = h_data h
    | None => h' = h /\ bs' = bs
    end.
Proof.
  intros I H12 Hs. destruct (run_rt_malloc h bs size I H12 Hs) as (h' & E & Hr). exists h'.
  destruct (malloc_result h bs size) as [q|] eqn:Eq.
  - destruct Hr as (Hpos & pre & b & post & -> & Hu & Hle & -> & I' & Hd & _ & Hlow).
    exists (pre ++ taken (rounded size) b ++ post). split_and!; try done; [apply live_separate, I'|].
    destruct (live_taken pre b post (rounded size) Hu) as (n & Hn). destruct (Hn Hle) as [Hge Hp]. exists n.
    split_and!; try done. destruct (align_4 size Hs). unfold rounded in Hge. lia.
  - subst h'. exists bs. split_and!; try done. apply live_separate, I.
Qed.

(** C12: freeing an allocation keeps the invariant, releases the lock and takes
    away exactly this allocation: the others stay where they are, with their
    data, and the freed memory is merged with the free memory around it. *)
Theorem rt_free_correct h bs q n :
  heap_inv h bs -> lowest h bs -> (q, n) ∈ live 0 bs ->
  exists h' bs', rt_free (Some q) h = Ok tt h' /\ heap_inv h' bs' /\ lowest h' bs' /\
    live 0 bs ≡ₚ (q, n) :: live 0 bs' /\ h_data h' = h_data h /\ h_used h' = h_used h - (n + 12).
Proof.
  intros I L (pre & b & post & -> & Hu & -> & ->)%live_at.
  destruct (run_rt_free h pre b post I Hu) as (h' & E & I' & Hd & _ & Hlow & _).
  exists h', (plugged pre (freed b) post). rewrite Z.add_0_l. split_and!; try done; [by apply Hlow|by apply live_freed|].
  rewrite (hc_used _ _ (hi_core _ _ I')), (hc_used _ _ (hi_core _ _ I)), plugged_used, used_span_app by done.
  simpl. rewrite Hu. lia.
Qed.

(** *** Allocating and freeing again *)

Lemma plugged_id pre b post : merged (pre ++ b :: post) -> b_used b = false -> plugged pre b post = pre ++ b :: post.
Proof.
  intros [H1 H2]%merged_app Hu. unfold plugged.
  assert (merge_next b post = (b, post)) as ->.
  { destruct post as [|n post]; [done|]. cbn [merged] in H2. rewrite Hu in H2. destruct H2 as [[?|Hn] _]; [done|].
    simpl. by rewrite Hn. }
  unfold merge_prev. cbn [fst snd]. destruct (reverse pre) as [|a l] eqn:El; [done|].
  assert (pre = reverse l ++ [a]) as -> by (by rewrite <- (reverse_involutive pre), El, reverse_cons).
  rewrite <- app_assoc in H1. apply merged_app in H1 as [_ [[Ha|?] _]]; [by rewrite Ha|congruence].
Qed.

Lemma taken_split size b : exists c rest, taken size b = c :: rest /\ b_used c = true /\
  forall post, b_used b = false -> head_used post = true -> merge_next (freed c) (rest ++ post) = merge_next b post.
Proof.
  unfold taken. destruct (Z.leb_spec (size + 24) (b_size b - 12)); eexists _, _; (split; [done|]); (split; [done|]);
    intros post Hu Hh; destruct b as [sz u]; simpl in *; subst u.
  - destruct post as [|n post]; simpl in *; rewrite ?Hh; unfold join_blk; simpl; do 2 f_equal; lia.
  - done.
Qed.

(** A block that is allocated and freed at once leaves the heap cut into the
    same blocks as before. *)
Theorem malloc_free_roundtrip h bs size q h1 :
  heap_inv h bs -> 12 <= h_size h -> 0 <= size <= 2 ^ 32 - 4 -> rt_malloc size h = Ok (Some q) h1 ->
  exists h2, rt_free (Some q) h1 = Ok tt h2 /\ heap_inv h2 bs /\ h_data h2 = h_data h.
Proof.
  intros I H12 Hs E. destruct (run_rt_malloc h bs size I H12 Hs) as (h' & E' & Hr). rewrite E in E'.
  injection E' as Er <-. rewrite <- Er in Hr. destruct Hr as (_ & pre & b & post & -> & Hu & Hle & -> & I1 & Hd & _ & _).
  destruct (taken_split (rounded size) b) as (c & rest & Ec & Hc & Hm). rewrite Ec in I1. cbn [app] in I1.
  destruct (run_rt_free h1 pre c (rest ++ post) I1 Hc) as (h2 & E2 & I2 & Hd2 & _). exists h2. split; [done|].
  split; [|congruence].
  enough (plugged pre (freed c) (rest ++ post) = pre ++ b :: post) as <- by done.
  rewrite <- (plugged_id pre b post) by (done || apply I). unfold plugged. rewrite Hm; [done|done|].
  pose proof (hi_merged _ _ I) as [_ Hmp]%merged_app. destruct post as [|n post]; [done|].
  cbn [merged] in Hmp. rewrite Hu in Hmp. simpl. naive_solver.
Qed.

(** *** Freeing twice *)

Lemma rt_free_unused h p x : h_mem h !! (p - 12) = Some x -> hm_used x = 0 -> rt_free (Some p) h = Fault.
Proof.
  intros Hx H0. unfold rt_free. erewrite bind_Ok by reflexivity.
  destruct (Z.land (h_base h + p) (RT_ALIGN_SIZE - 1) =? 0); [|done]. erewrite bind_Ok by reflexivity.
  destruct ((0 <=? p) && (p <? h_end h)); [|done]. erewrite bind_Ok by reflexivity.
  unfold heap_take. destruct (0 <? h_sem h) eqn:Es.
  - assert ((v ← gets h_sem; rt_assert (0 <? v);; modify (set_h_sem (v - 1))) h = Ok tt (set_h_sem (h_sem h - 1) h)) as E
      by (erewrite bind_Ok by reflexivity; by rewrite Es).
    run_step E. change SIZEOF_STRUCT_MEM with 12. run_step (run_hdr (set_h_sem (h_sem h - 1) h) _ _ Hx). by rewrite H0.
  - unfold mbind, M_bind, gets. cbv beta iota. by rewrite Es.
Qed.

(** C14: freeing an allocation twice is caught: the first call succeeds, keeps
    the invariant, takes the allocation away and leaves the memory in front of
    it marked as not in use; in the state it leaves, the second call stops, at
    the assertion that the block is in use, whether or not the block has been
    merged with its neighbours. *)
Theorem double_free_caught h bs q n :
  heap_inv h bs -> (q, n) ∈ live 0 bs ->
  exists h' bs', rt_free (Some q) h = Ok tt h' /\ heap_inv h' bs' /\ live 0 bs ≡ₚ (q, n) :: live 0 bs' /\
    (Z.land (h_base h' + q) (RT_ALIGN_SIZE - 1) = 0 /\ 0 <= q < h_end h' /\ 0 < h_sem h' /\
     hm_used <$> h_mem h' !! (q - SIZEOF_STRUCT_MEM) = Some 0) /\
    rt_free (Some q) h' = Fault.
Proof.
  intros I Hin. pose proof (live_separate _ _ (hi_core _ _ I)) as [_ Hsep].
  rewrite Forall_forall in Hsep. specialize (Hsep _ Hin). simpl in Hsep.
  apply live_at in Hin as (pre & b & post & -> & Hu & -> & ->). rewrite Z.add_0_l in *.
  destruct (run_rt_free h pre b post I Hu) as (h' & E & I' & _ & Esz & _ & Hx).
  exists h', (plugged pre (freed b) post).
  change SIZEOF_STRUCT_MEM with 12. replace (span pre + 12 - 12) with (span pre) by lia.
  pose proof (hc_base _ _ (hi_core _ _ I')) as (_ & B4 & _).
  pose proof (hc_size _ _ (hi_core _ _ I')) as S'. pose proof (hc_size _ _ (hi_core _ _ I)) as S0.
  split_and!; [done|done|by apply live_freed| |lia|lia|by rewrite (hi_sem _ _ I')|done|].
  - change (RT_ALIGN_SIZE - 1) with 3. rewrite land_3. Z.to_euclidean_division_equations. lia.
  - destruct (h_mem h' !! span pre) as [x|] eqn:Ex; [|done]. injection Hx as Hx.
    apply (rt_free_unused h' _ x); [|done]. by replace (span pre + 12 - 12) with (span pre) by lia.
Qed.
