(* ===== verification/MemSpec.v ===== *)
(** * The dynamic heap, continued: initialisation, rt_realloc and rt_calloc

    What src/mem.c does with the data of the blocks, the heap that the system
    starts with, and the limits of the sizes. *)

From Stdlib Require Import Sorting.Sorted.
From S2P Require Import Prelude Kernel MsgQueue Mem.

(** ** Initialisation *)

(** A memory area with room for two headers and a word of data becomes a
    heap of one free block, with the lock free, and the invariant holds. *)
Theorem rt_system_heap_init_correct b e h :
  0 <= b -> b + 3 < 2 ^ 32 -> 0 <= e < 2 ^ 32 -> rt_system_heap_init b e = Some h -> 4 <= h_size h ->
  heap_inv h [mk_blk (h_size h + 12) false] /\ lowest h [mk_blk (h_size h + 12) false] /\
  b <= h_base h /\ h_base h + h_end h + 12 <= e /\ h_size h <= e - b - 24.
Proof.
  intros Hb Hb3 He. unfold rt_system_heap_init. destruct (_ && _) eqn:Ec; [|done]. intros [= <-]. cbn [h_size h_base h_end].
  apply andb_true_iff in Ec as [E1%Z.ltb_lt E2%Z.leb_le]. change SIZEOF_STRUCT_MEM with 12 in *.
  destruct (align_4 b) as [A1 A2]; [lia|]. set (ba := RT_ALIGN b RT_ALIGN_SIZE) in *.
  assert (RT_ALIGN_DOWN e RT_ALIGN_SIZE = e - e mod 4) as Ed by (unfold RT_ALIGN_DOWN, RT_ALIGN_SIZE; by apply align_down_4).
  rewrite Ed in *. set (ea := e - e mod 4) in *.
  assert (ea mod 4 = 0 /\ ea <= e) as [A3 A4] by (subst ea; split; Z.to_euclidean_division_equations; lia).
  intros Hs. set (sz := ea - ba - 2 * 12) in *.
  assert (sz mod 4 = 0) as A5 by (subst sz; Z.to_euclidean_division_equations; lia).
  split; [|split; [|split_and!; lia]].
  - split; [|done|done]. split; simpl; try lia.
    + split; [|split; [simpl; lia|]]; simpl.
      * split; [|done]. by rewrite lookup_insert_eq.
      * exists (sz + 12). by rewrite lookup_insert_ne, lookup_singleton_eq by lia.
    + constructor; [|done]. split; simpl; [lia|]. Z.to_euclidean_division_equations. lia.
  - intros l [[-> _]|[]]. simpl. lia.
Qed.

Lemma rt_system_heap_init_correct_witness :
  exists h, rt_system_heap_init 0x20001002 0x20020000 = Some h /\ heap_inv h [mk_blk (h_size h + 12) false].
Proof.
  destruct (rt_system_heap_init 0x20001002 0x20020000) as [h|] eqn:E; [|vm_compute in E; discriminate].
  exists h. split; [reflexivity|].
  refine (proj1 (rt_system_heap_init_correct 0x20001002 0x20020000 h _ _ _ E _)).
  - lia.
  - lia.
  - lia.
  - vm_compute in E. injection E as <-. simpl. lia.
Defined.

(** ** Data *)

Lemma copy_bytes_outside n dst src d i :
  i < dst \/ dst + Z.of_nat n <= i -> copy_bytes n dst src d !! i = d !! i.
Proof.
  revert dst src d. induction n as [|n IH]; intros dst src d Hi; [done|]. cbn [copy_bytes].
  rewrite IH by lia. apply lookup_partial_alter_ne. lia.
Qed.

(** A copy between two places that do not overlap. *)
Lemma copy_bytes_inside n dst src d i :
  src + Z.of_nat n <= dst \/ dst + Z.of_nat n <= src -> 0 <= i < Z.of_nat n ->
  copy_bytes n dst src d !! (dst + i) = d !! (src + i).
Proof.
  revert dst src d i. induction n as [|n IH]; intros dst src d i Hd Hi; [lia|]. cbn [copy_bytes].
  destruct (decide (i = 0)) as [->|Hne].
  - rewrite copy_bytes_outside by lia. rewrite !Z.add_0_r. apply lookup_partial_alter_eq.
  - replace (dst + i) with (dst + 1 + (i - 1)) by lia. rewrite IH by lia.
    rewrite lookup_partial_alter_ne by lia. f_equal. lia.
Qed.

Lemma fill_bytes_outside n dst v d i :
  i < dst \/ dst + Z.of_nat n <= i -> fill_bytes n dst v d !! i = d !! i.
Proof.
  revert dst d. induction n as [|n IH]; intros dst d Hi; [done|]. cbn [fill_bytes].
  rewrite IH by lia. apply lookup_insert_ne. lia.
Qed.

Lemma fill_bytes_inside n dst v d i : 0 <= i < Z.of_nat n -> fill_bytes n dst v d !! (dst + i) = Some v.
Proof.
  revert dst d i. induction n as [|n IH]; intros dst d i Hi; [lia|]. cbn [fill_bytes].
  destruct (decide (i = 0)) as [->|Hne].
  - rewrite fill_bytes_outside by lia. rewrite Z.add_0_r. apply lookup_insert_eq.
  - replace (dst + i) with (dst + 1 + (i - 1)) by lia. apply IH. lia.
Qed.

(** The data of the allocations in [l] are the same in both heaps. *)
Definition data_kept (l : list (Z * Z)) (h h' : heap) : Prop :=
  forall q n i, (q, n) ∈ l -> 0 <= i < n -> h_data h' !! (q + i) = h_data h !! (q + i).

(** Two allocations of one heap do not overlap. *)
Lemma separate_apart e l q n q' n' :
  separate e l -> (q, n) ∈ l -> (q', n') ∈ l -> (q, n) ≠ (q', n') -> q + n <= q' \/ q' + n' <= q.
Proof.
  intros [Hs _] H1 H2 Hne. induction Hs as [|x l Hs IH Hx]; [by apply elem_of_nil in H1|].
  rewrite Forall_forall in Hx. apply elem_of_cons in H1 as [E1|H1]; apply elem_of_cons in H2 as [E2|H2].
  - congruence.
  - specialize (Hx _ H2). rewrite <- E1 in Hx. simpl in Hx. lia.
  - specialize (Hx _ H1). rewrite <- E2 in Hx. simpl in Hx. lia.
  - by apply IH.
Qed.

Lemma separate_nodup e l : separate e l -> NoDup l.
Proof.
  intros [Hs Hb]. induction Hs as [|x l Hs IH Hx]; [constructor|]. apply Forall_cons in Hb as [Hb Hbs].
  apply NoDup_cons. split; [|by apply IH]. intros H. rewrite Forall_forall in Hx. specialize (Hx _ H). lia.
Qed.

(** ** rt_realloc *)

(** Shrinking in place: the block keeps [ns] bytes, the rest becomes free. *)
Definition shrunk (pre : list blk) (b : blk) (post : list blk) (ns : Z) : list blk :=
  plugged (pre ++ [mk_blk (ns + 12) true]) (mk_blk (b_size b - (ns + 12)) false) post.

Lemma run_shrink h pre b post ns :
  heap_inv h (pre ++ b :: post) -> b_used b = true -> 4 <= ns -> ns mod 4 = 0 -> ns + 24 < b_size b - 12 ->
  exists h', (uncount_used (b_size b - 12 - ns);; split_block (span pre) (span pre + (ns + 12)) None;;
      plug_holes (span pre + (ns + 12));; heap_release) (set_h_sem 0 h) = Ok tt h' /\
    heap_inv h' (shrunk pre b post ns) /\ h_data h' = h_data h.
Proof.
  intros [C Hm Hsem] Hu Hns Hns4 Hlt. destruct (core_at _ _ _ _ C) as (Hp & [Hb Hb4] & Hq & H0 & Hs & H1 & Ht).
  destruct Ht as (_ & He & _). pose proof (hc_base _ _ C) as (B0 & B4 & Bm).
  pose proof (used_span_bounds _ Hp) as Up. pose proof (used_span_bounds _ Hq) as Uq.
  set (bs1 := pre ++ mk_blk (ns + 12) true :: mk_blk (b_size b - (ns + 12)) false :: post).
  erewrite bind_Ok by reflexivity. cbn [set_h_sem h_used h_max].
  assert (u32 (h_used h - (b_size b - 12 - ns)) = used_span bs1) as ->.
  { rewrite (hc_used _ _ C). unfold bs1. rewrite !used_span_app. simpl. rewrite Hu, u32_small; lia. }
  set (h1 := set_h_stats (used_span bs1) (h_max h) (set_h_sem 0 h)).
  destruct (run_split h1 pre b post (ns + 12) None) as (m' & E & Ht');
    [by destruct C; split|lia|Z.to_euclidean_division_equations; lia|lia|by right|]. fold bs1 in Ht'.
  run_step E.
  assert (heap_core (set_h_mem (fun _ => m') h1) ((pre ++ [mk_blk (ns + 12) true]) ++ mk_blk (b_size b - (ns + 12)) false :: post)) as C1.
  { rewrite <- app_assoc. cbn [app]. fold bs1. split; simpl; try done; [apply (hc_size _ _ C)| |].
    - unfold bs1. apply Forall_app. split; [done|]. repeat (constructor; [split; simpl; [lia|Z.to_euclidean_division_equations; lia]|]). done.
    - destruct (hc_lfree _ _ C) as [F|]; [left|by right]. unfold bs1. rewrite free_at_app in *. cbn [free_at b_used b_size] in *.
      rewrite Hu, Z.add_0_l in *. replace (span pre + (ns + 12) + (b_size b - (ns + 12))) with (span pre + b_size b) by lia.
      destruct F as [F|[[_ F]|F]]; [by left|done|by right; right; right]. }
  destruct (run_plug_holes _ _ _ _ C1 eq_refl) as (h2 & E2 & [] & C2 & _).
  rewrite span_app in E2. cbn [span foldr b_size] in E2. rewrite Z.add_0_r in E2. run_step E2.
  eexists. split; [reflexivity|]. split; [|done]. split; [by destruct C2; split| |simpl in *; lia].
  apply merged_app in Hm as [Hm1 Hm2]. apply plugged_merged; [by apply (merged_snoc_used _ b)| |done].
  destruct post; [done|apply Hm2].
Qed.

Lemma live_shrunk pre b post ns : b_used b = true ->
  live 0 (shrunk pre b post ns) = live 0 pre ++ (span pre + 12, ns) :: live (span pre + b_size b) post /\
  live 0 (pre ++ b :: post) = live 0 pre ++ (span pre + 12, b_size b - 12) :: live (span pre + b_size b) post.
Proof.
  intros Hu. unfold shrunk. rewrite plugged_live, !live_app, span_app by done. cbn [live span foldr b_size b_used app].
  rewrite Hu, !Z.add_0_l, <- app_assoc. cbn [app]. split; [|done]. do 2 f_equal; [f_equal; lia|]. f_equal. lia.
Qed.

Lemma heap_inv_data h bs f : heap_inv h bs -> heap_inv (set_h_data f h) bs.
Proof. by intros [[] ? ?]. Qed.

Lemma release_taken h : h_sem h = 1 -> heap_release (set_h_sem 0 h) = Ok tt h.
Proof. intros H. unfold heap_release, modify, set_h_sem; simpl. by destruct h; simpl in *; subst. Qed.

(** Moving to a new block: allocate, copy, free the old one. *)
Lemma run_move h bs q n ns :
  heap_inv h bs -> (q, n) ∈ live 0 bs -> 12 <= h_size h -> 0 < ns <= 2 ^ 32 - 4 -> ns mod 4 = 0 ->
  exists r h' bs', (nmem ← rt_malloc ns;
      match nmem with
      | None => mret None
      | Some q' => modify (set_h_data (copy_bytes (Z.to_nat (if n <? ns then n else ns)) q' q));; rt_free (Some q);; mret (Some q')
      end) h = Ok r h' /\ heap_inv h' bs' /\
    match r with
    | None => h' = h /\ bs' = bs
    | Some q' => exists n' l, live 0 bs ≡ₚ (q, n) :: l /\ live 0 bs' ≡ₚ (q', n') :: l /\ ns <= n' /\ data_kept l h h' /\
        forall i, 0 <= i < Z.min n ns -> h_data h' !! (q' + i) = h_data h !! (q + i)
    end.
Proof.
  intros I Hq H12 Hns Hns4. destruct (run_rt_malloc h bs ns I H12 ltac:(lia)) as (h1 & E & Hr). run_step E.
  destruct (malloc_result h bs ns) as [q'|].
  2:{ exists None, h1, bs. by subst h1. }
  destruct Hr as (_ & pre & b & post & -> & Hu & Hle & -> & I1 & Hd & _ & _).
  destruct (live_taken pre b post (rounded ns) Hu) as (n' & Hn). destruct (Hn Hle) as [Hge Hlive]. clear Hn.
  set (bs := pre ++ b :: post) in *. set (bs1 := pre ++ taken (rounded ns) b ++ post) in *. set (q' := span pre + 12) in *.
  assert (ns <= n') as Hnn by (destruct (align_4 ns ltac:(lia)); unfold rounded in Hge; lia).
  pose proof (live_separate _ _ (hi_core _ _ I1)) as Hsep. pose proof (separate_nodup _ _ Hsep) as Hnd. rewrite Hlive in Hnd.
  apply NoDup_cons in Hnd as [Hnin Hnd].
  assert ((q, n) ∈ live 0 bs1) as Hq1 by (rewrite Hlive; by right).
  assert ((q', n') ∈ live 0 bs1) as Hq1' by (rewrite Hlive; by left).
  assert ((q, n) ≠ (q', n')) as Hne by (intros E'; apply Hnin; by rewrite <- E').
  pose proof (separate_apart _ _ _ _ _ _ Hsep Hq1 Hq1' Hne) as Hap.
  set (c := if n <? ns then n else ns). assert (c = Z.min n ns) as Ec by (unfold c; destruct (Z.ltb_spec n ns); lia).
  erewrite bind_Ok by reflexivity. apply (heap_inv_data _ _ (copy_bytes (Z.to_nat c) q' q)) in I1.
  apply live_at in Hq1 as (pre1 & b1 & post1 & Ebs & Hu1 & Eq & En).
  rewrite Ebs in I1. destruct (run_rt_free _ pre1 b1 post1 I1 Hu1) as (h2 & E2 & I2 & Hd2 & _). rewrite Z.add_0_l in Eq. rewrite <- Eq in E2.
  run_step E2. eexists _, h2, _. split; [reflexivity|]. split; [exact I2|].
  apply elem_of_Permutation in Hq as [l Hl]. exists n', l. split; [done|].
  assert (live 0 (plugged pre1 (freed b1) post1) ≡ₚ (q', n') :: l) as Hl2.
  { apply (Permutation_cons_inv (a := (q, n))). transitivity (live 0 bs1).
    - rewrite Ebs, Eq, En. symmetry. by apply live_freed.
    - rewrite Hlive, Hl. apply perm_swap. }
  split; [done|]. split; [done|]. rewrite Hl in Hnd, Hnin. apply NoDup_cons in Hnd as [_ Hnd].
  cbn [set_h_data h_data] in Hd2. rewrite Hd in Hd2.
  assert (0 <= n) as Hn0 by (destruct (hi_core _ _ I1); destruct Hsep as [_ Hf]; rewrite Forall_forall in Hf;
    destruct (Hf (q, n) ltac:(rewrite Hlive, Hl; right; left)) as (_ & ? & _); simpl in *; lia).
  split.
  - intros q2 n2 i H2 Hi. rewrite Hd2. apply copy_bytes_outside.
    assert ((q2, n2) ∈ live 0 bs1) as H2' by (rewrite Hlive, Hl; by right; right).
    assert ((q2, n2) ≠ (q', n')) as Hne2 by (intros [= -> ->]; apply Hnin; by right).
    destruct (separate_apart _ _ _ _ _ _ Hsep H2' Hq1' Hne2); lia.
  - intros i Hi. rewrite Hd2. apply copy_bytes_inside; lia.
Qed.

(** C13: [rt_realloc] on an allocation keeps the invariant.  It fails only by
    leaving the heap as it is; otherwise the result is an allocation of at least
    the new size, at the old place or at a new one, in place of the old one, with
    the old data up to the smaller of the two sizes; all other allocations keep
    their place and their data. *)
Theorem rt_realloc_correct h bs q n newsize :
  heap_inv h bs -> (q, n) ∈ live 0 bs -> 12 <= h_size h -> 0 < newsize <= 2 ^ 32 - 4 ->
  exists r h' bs', rt_realloc (Some q) newsize h = Ok r h' /\ heap_inv h' bs' /\
    match r with
    | None => h' = h /\ bs' = bs
    | Some q' => exists n' l, live 0 bs ≡ₚ (q, n) :: l /\ live 0 bs' ≡ₚ (q', n') :: l /\ newsize <= n' /\ data_kept l h h' /\
        forall i, 0 <= i < Z.min n newsize -> h_data h' !! (q' + i) = h_data h !! (q + i)
    end.
Proof.
  intros I Hq H12 Hns. destruct (align_4 newsize ltac:(lia)) as [Hal Hge]. unfold rt_realloc.
  set (ns := RT_ALIGN newsize RT_ALIGN_SIZE) in *. erewrite bind_Ok by reflexivity.
  destruct (Z.ltb_spec (h_size h) ns); [by exists None, h, bs|]. rewrite (proj2 (Z.eqb_neq ns 0)) by lia.
  pose proof (hi_sem _ _ I) as Hsem.
  assert (heap_take h = Ok tt (set_h_sem 0 h)) as Etake
    by (unfold heap_take; erewrite bind_Ok by reflexivity; by rewrite Hsem).
  run_step Etake. destruct (live_at _ _ _ _ Hq) as (pre & b & post & -> & Hu & -> & ->). rewrite Z.add_0_l in *.
  destruct (core_at _ _ _ _ (hi_core _ _ I)) as (_ & [Hb Hb4] & Hqq & H0 & _ & H1 & _ & He & _).
  pose proof (span_nonneg _ Hqq). pose proof (hc_base _ _ (hi_core _ _ I)) as (B0 & _ & Bm). pose proof (hc_size _ _ (hi_core _ _ I)).
  rewrite (proj2 (Z.ltb_ge (span pre + 12) 0)), (proj2 (Z.leb_gt (h_end h) _)) by lia. cbn [orb].
  change SIZEOF_STRUCT_MEM with 12. replace (span pre + 12 - 12) with (span pre) by lia.
  run_step (run_hdr (set_h_sem 0 h) _ _ H1). cbn [hdr_of hm_next].
  replace (span pre + b_size b - span pre - 12) with (b_size b - 12) by lia. rewrite (u32_small (b_size b - 12)) by lia.
  apply elem_of_Permutation in Hq as Hl. destruct Hl as [l Hl].
  destruct (Z.eqb_spec (b_size b - 12) ns) as [Es|Es].
  { run_step (release_taken h Hsem). eexists _, h, _. split; [reflexivity|]. split; [done|].
    exists (b_size b - 12), l. split_and!; try done. lia. }
  change MIN_SIZE with 12. rewrite (u32_small (ns + 12 + 12)) by lia.
  destruct (Z.ltb_spec (ns + 12 + 12) (b_size b - 12)) as [Hlt|Hnlt].
  - rewrite (u32_small (span pre + 12 + ns)) by lia. replace (span pre + 12 + ns) with (span pre + (ns + 12)) by lia.
    destruct (run_shrink h pre b post ns I Hu) as (h' & E & I' & Hd); [Z.to_euclidean_division_equations; lia|done|lia|].
    apply bind_Ok_inv in E as ([] & h1 & E1 & E). apply bind_Ok_inv in E as ([] & h2 & E2 & E).
    apply bind_Ok_inv in E as ([] & h3 & E3 & E). run_step E1. run_step E2. run_step E3. run_step E.
    eexists _, h', _. split; [reflexivity|]. split; [exact I'|]. destruct (live_shrunk pre b post ns Hu) as [El1 El2].
    exists ns, (live 0 pre ++ live (span pre + b_size b) post). rewrite El1, El2.
    split_and!; [by rewrite Permutation_middle|by rewrite Permutation_middle|lia| |intros; by rewrite Hd].
    intros q2 n2 i _ _. by rewrite Hd.
  - run_step (release_taken h Hsem).
    destruct (run_move h _ _ _ ns I Hq H12) as (r & h' & bs' & E & I' & Hr); [lia|done|].
    rewrite E. exists r, h', bs'. split; [done|]. split; [done|]. destruct r as [q'|]; [|done].
    destruct Hr as (n' & l' & R1 & R2 & R3 & R4 & R5). exists n', l'. split_and!; try done; [lia|].
    intros i Hi. apply R5. lia.
Qed.

(** ** Limits *)

(** A heap of 1000 bytes of data at address 0x20000000. *)
Definition demo_heap : heap := default (mk_heap 0 ∅ ∅ 0 0 0 0 0 0) (rt_system_heap_init 0x20000000 0x20000400).

Lemma demo_heap_inv : heap_inv demo_heap [mk_blk 1012 false] /\ lowest demo_heap [mk_blk 1012 false].
Proof.
  assert (h_lfree demo_heap = 0) as El by (vm_compute; reflexivity).
  assert (h_end demo_heap = 1012) as Ee by (vm_compute; reflexivity).
  assert (h_base demo_heap = 0x20000000) as Eb by (vm_compute; reflexivity).
  split.
  - split; [|simpl; tauto|vm_compute; reflexivity]. split.
    + split; [|split; [by rewrite Ee|]].
      * split; [vm_compute; reflexivity|done].
      * exists 1012. vm_compute. reflexivity.
    + vm_compute. reflexivity.
    + by repeat constructor.
    + rewrite El. left. left. done.
    + rewrite Eb, Ee. done.
    + vm_compute. reflexivity.
  - intros l [[-> _]|[]]. by rewrite El.
Qed.

(** The size is rounded up in 32 bits without a check: a request for the
    largest sizes becomes a request for nothing, and succeeds with a block of
    12 bytes. *)
Theorem rt_malloc_size_wraps h bs size :
  heap_inv h bs -> 12 <= h_size h -> 2 ^ 32 - 3 <= size < 2 ^ 32 -> rt_malloc size h = rt_malloc 12 h.
Proof.
  intros I H12 Hs. unfold rt_malloc. rewrite (proj2 (Z.eqb_neq size 0)) by lia. change (12 =? 0) with false. cbv iota.
  assert (RT_ALIGN size RT_ALIGN_SIZE = 0) as ->.
  { unfold RT_ALIGN, RT_ALIGN_SIZE. change (4 - 1) with 3.
    assert (u32 (size + 4 - 1) = size - (2 ^ 32 - 3)) as E by (unfold u32; Z.to_euclidean_division_equations; lia).
    rewrite E, align_down_4 by lia. Z.to_euclidean_division_equations. lia. }
  change (RT_ALIGN 12 RT_ALIGN_SIZE) with 12. do 2 erewrite (bind_Ok get) by reflexivity.
  rewrite (proj2 (Z.ltb_ge (h_size h) 0)), (proj2 (Z.ltb_ge (h_size h) 12)) by lia. done.
Qed.

Lemma rt_malloc_size_wraps_witness :
  rt_malloc 0xFFFFFFFF demo_heap = rt_malloc 12 demo_heap /\ ret (rt_malloc 0xFFFFFFFF) demo_heap = Some (Some 12).
Proof.
  split; [|vm_compute; reflexivity]. apply (rt_malloc_size_wraps demo_heap [mk_blk 1012 false]).
  - apply demo_heap_inv.
  - vm_compute. discriminate.
  - lia.
Defined.

(** [rt_calloc] multiplies in 32 bits without a check: a request for 2^30 + 1
    objects of 4 bytes succeeds with 12 bytes, of which 4 are cleared. *)
Theorem rt_calloc_overflows :
  ret (p ← rt_calloc (2 ^ 30 + 1) 4; d ← gets h_data; m ← gets h_mem; mret (p, (fun i => d !! i) <$> [12; 15; 16; 4097], hm_next <$> m !! 0)) demo_heap
  = Some (Some 12, [Some 0; Some 0; None; None], Some 24).
Proof. vm_compute. reflexivity. Qed.

(** [rt_realloc] does not move [lfree] down when it cuts off the end of a
    block in front of it: the memory that a shrunk block gives back is not found
    by [rt_malloc] any more, so a request fails although there is room. *)
Theorem rt_realloc_hides_memory :
  ret (rt_malloc 900;; rt_malloc 40;; rt_realloc (Some 12) 40;; rt_malloc 400) demo_heap = Some None /\
  ret (rt_malloc 900;; rt_malloc 40;; rt_free (Some 12);; rt_malloc 40;; rt_malloc 400) demo_heap = Some (Some 64).
Proof. split; vm_compute; reflexivity. Qed.

(** The bound of the search excludes an exact fit at the end: the whole of a
    fresh heap, which is advertised as its size, cannot be allocated. *)
Theorem rt_malloc_exact_fit_refused :
  h_size demo_heap = 1000 /\ ret (rt_malloc 1000) demo_heap = Some None /\ ret (rt_malloc 996) demo_heap = Some (Some 12).
Proof. vm_compute. done. Qed.

(** ** Witnesses *)

Lemma rt_malloc_correct_witness :
  exists h' bs', rt_malloc 100 demo_heap = Ok (Some 12) h' /\ heap_inv h' bs' /\ exists n, 100 <= n /\ live 0 bs' ≡ₚ [(12, n)].
Proof.
  destruct (rt_malloc_correct demo_heap [mk_blk 1012 false] 100) as (h' & bs' & E & I & _ & _ & Hr).
  - apply demo_heap_inv.
  - vm_compute. discriminate.
  - lia.
  - assert (malloc_result demo_heap [mk_blk 1012 false] 100 = Some 12) as Er by (vm_compute; reflexivity).
    rewrite Er in E, Hr. exists h', bs'. split; [exact E|]. split; [exact I|].
    destruct Hr as (n & Hn & Hp & _). exists n. split; [exact Hn|exact Hp].
Defined.

(** The same heap with one block of 900 bytes allocated. *)
Definition demo_blocks : list blk := [mk_blk 912 true; mk_blk 100 false].
Definition demo_heap1 : heap := run (rt_malloc 900) demo_heap.

Lemma demo_heap1_inv : heap_inv demo_heap1 demo_blocks /\ lowest demo_heap1 demo_blocks.
Proof.
  assert (h_lfree demo_heap1 = 912) as El by (vm_compute; reflexivity).
  assert (h_end demo_heap1 = 1012) as Ee by (vm_compute; reflexivity).
  assert (h_base demo_heap1 = 0x20000000) as Eb by (vm_compute; reflexivity).
  split.
  - split; [|simpl; tauto|vm_compute; reflexivity]. split.
    + split; [|split; [by rewrite Ee|]].
      * split; [vm_compute; reflexivity|]. split; [vm_compute; reflexivity|done].
      * exists 1012. vm_compute. reflexivity.
    + vm_compute. reflexivity.
    + by repeat constructor.
    + rewrite El. left. right. left. done.
    + rewrite Eb, Ee. done.
    + vm_compute. reflexivity.
  - intros l [[_ ?]|[[-> _]|[]]]; [done|]. by rewrite El.
Qed.

Lemma rt_free_correct_witness :
  exists h' bs', rt_free (Some 12) demo_heap1 = Ok tt h' /\ heap_inv h' bs' /\ live 0 bs' = [].
Proof.
  destruct (rt_free_correct demo_heap1 demo_blocks 12 900) as (h' & bs' & E & I & _ & Hp & _).
  - apply demo_heap1_inv.
  - apply demo_heap1_inv.
  - left.
  - exists h', bs'. split; [exact E|]. split; [exact I|]. apply Permutation_nil.
    apply (Permutation_cons_inv (a := (12, 900))). exact Hp.
Defined.

Lemma double_free_caught_witness :
  exists h', rt_free (Some 12) demo_heap1 = Ok tt h' /\ rt_free (Some 12) h' = Fault.
Proof.
  destruct (double_free_caught demo_heap1 demo_blocks 12 900) as (h' & bs' & E & _ & _ & _ & F).
  - apply demo_heap1_inv.
  - left.
  - exists h'. split; [exact E|exact F].
Defined.

Lemma malloc_free_roundtrip_witness :
  exists h2, rt_free (Some 12) demo_heap1 = Ok tt h2 /\ heap_inv h2 [mk_blk 1012 false].
Proof.
  destruct (malloc_free_roundtrip demo_heap [mk_blk 1012 false] 900 12 demo_heap1) as (h2 & E & I & _).
  - apply demo_heap_inv.
  - vm_compute. discriminate.
  - lia.
  - apply ret_Ok. vm_compute. reflexivity.
  - exists h2. split; [exact E|exact I].
Defined.

Lemma rt_realloc_correct_witness :
  exists r h' bs', rt_realloc (Some 12) 40 demo_heap1 = Ok r h' /\ heap_inv h' bs'.
Proof.
  destruct (rt_realloc_correct demo_heap1 demo_blocks 12 900 40) as (r & h' & bs' & E & I & _).
  - apply demo_heap1_inv.
  - left.
  - vm_compute. discriminate.
  - lia.
  - exists r, h', bs'. split; [exact E|exact I].
Defined.
