(* ===== verification/Allocator.v ===== *)
(** * What the clients of the dynamic heap rely on

    The components that allocate ([rt_ringbuffer_create], [rt_data_queue_init])
    are verified against the contract of an allocator, not against the block
    lists of mem.c; the heap of mem.c is an instance of the contract, and so is
    a heap of memheap.c ([MemHeapRealloc]). *)

From S2P Require Import Prelude Kernel MsgQueue Mem.

(** [owns s l]: in state [s] the allocations are [l], each an address and the
    number of its bytes. *)
Class Allocator {S : Type} (malloc : Z -> M S (option Z)) (free : option Z -> M S unit)
    (owns : S -> list (Z * Z) -> Prop) : Prop := {
  alloc_nodup : forall s l, owns s l -> NoDup l.*1;
  alloc_malloc : forall s l size, owns s l -> 0 <= size <= 2 ^ 32 - 4 ->
    exists r s', malloc size s = Ok r s' /\
      match r with
      | Some q => exists n l', size <= n /\ owns s' l' /\ l' ≡ₚ (q, n) :: l
      | None => s' = s
      end;
  alloc_free : forall s l q n, owns s l -> (q, n) ∈ l ->
    exists s' l', free (Some q) s = Ok tt s' /\ owns s' l' /\ l ≡ₚ (q, n) :: l'
}.

(** mem.c refuses a request for 0 bytes, memheap.c serves it. *)
Class RefusesZero {S : Type} (malloc : Z -> M S (option Z)) : Prop := alloc_zero : forall s, malloc 0 s = Ok None s.

(** The allocations of a heap of mem.c. *)
Definition heap_owns (h : heap) (l : list (Z * Z)) : Prop :=
  exists bs, heap_inv h bs /\ lowest h bs /\ 12 <= h_size h /\ l = live 0 bs.

Lemma separate_addresses e l : separate e l -> NoDup l.*1.
Proof.
  intros [Hs Hf]. induction Hs as [|x l Hs IH Hx]; simpl; [constructor|].
  apply Forall_cons in Hf as [Hx1 Hf]. constructor; [|by apply IH].
  intros (y & Ey & Hy)%list_elem_of_fmap. rewrite Forall_forall in Hx. apply Hx in Hy as Hxy. lia.
Qed.

#[global] Instance small_mem_allocator : Allocator rt_malloc rt_free heap_owns.
Proof.
  split.
  - intros h l (bs & I & _ & _ & ->). eapply separate_addresses, live_separate, I.
  - intros h l size (bs & I & L & H12 & ->) Hs. destruct (run_rt_malloc h bs size I H12 Hs) as (h' & E & Hr).
    eexists _, h'. split; [exact E|]. destruct (malloc_result h bs size) as [q|]; [|done].
    destruct Hr as (_ & pre & b & post & -> & Hu & Hle & -> & I' & _ & Hz & Hlow). specialize (Hlow L) as L'.
    destruct (live_taken pre b post (rounded size) Hu) as (n & Hn). destruct (Hn Hle) as [Hge Hp].
    exists n, (live 0 (pre ++ taken (rounded size) b ++ post)). split_and!; [|eexists; split_and!; [done|done|lia|done]|done].
    destruct (align_4 size Hs). unfold rounded in Hge. lia.
  - intros h l q n (bs & I & L & H12 & ->) (pre & b & post & -> & Hu & -> & ->)%live_at.
    destruct (run_rt_free h pre b post I Hu) as (h' & E & I' & _ & Hz & Hlow & _). rewrite Z.add_0_l.
    exists h', (live 0 (plugged pre (freed b) post)). split_and!; [done| |by apply live_freed].
    eexists. split_and!; [done|by apply Hlow|lia|done].
Qed.

#[global] Instance small_mem_refuses_zero : RefusesZero rt_malloc.
Proof. done. Qed.
