(* ===== verification/MemHeap.v ===== *)
(** * Memory heaps: src/memheap.c

    A heap is an area of memory cut into items, each with a header of six words
    in front of its data.  The headers are linked twice: every header to its
    neighbours in the area, the headers of free items also in a list of their
    own.  The headers live in the byte memory of [KString], where the users of
    the heap keep their data too. *)

From S2P Require Import Prelude Kernel MsgQueue KString.

Definition RT_MEMHEAP_MAGIC : Z := 0x1ea01ea0.
Definition RT_MEMHEAP_MASK : Z := 0xfffffffe.
Definition RT_MEMHEAP_USED : Z := 1.
Definition RT_MEMHEAP_MINIALLOC : Z := 12.
(** [sizeof(struct rt_memheap_item)]: six words. *)
Definition RT_MEMHEAP_SIZE : Z := RT_ALIGN 24 RT_ALIGN_SIZE.

(** [struct rt_memheap]; [mh_free_header] is the address of the member of this
    name, [mh_lock] the value of the semaphore: a body runs while it is taken,
    and a contended take waits as [rt_sem_take] does. *)
Record rt_memheap := mk_mh {
  mh_start_addr : Z;
  mh_pool_size : Z;
  mh_available_size : Z;
  mh_max_used_size : Z;
  mh_block_list : Z;
  mh_free_list : Z;
  mh_free_header : Z;
  mh_lock : Z
}.

Definition set_mh_sizes (available max_used : Z) (h : rt_memheap) : rt_memheap :=
  mk_mh (mh_start_addr h) (mh_pool_size h) available max_used (mh_block_list h) (mh_free_list h) (mh_free_header h) (mh_lock h).
Definition set_mh_lock (v : Z) (h : rt_memheap) : rt_memheap :=
  mk_mh (mh_start_addr h) (mh_pool_size h) (mh_available_size h) (mh_max_used_size h) (mh_block_list h) (mh_free_list h)
    (mh_free_header h) v.

(** The heaps by address, the object list of the class of memory heaps, the
    memory. *)
Definition mh_state : Type := gmap nat rt_memheap * (list nat * memory).

Definition ld (a : Z) : M mh_state Z := on_snd (on_snd (load32 a)).
Definition st (a v : Z) : M mh_state unit := on_snd (on_snd (store32 a v)).

(** The members of [struct rt_memheap_item]. *)
Definition pool_ptr (p : Z) : Z := p + 4.
Definition next (p : Z) : Z := p + 8.
Definition prev (p : Z) : Z := p + 12.
Definition next_free (p : Z) : Z := p + 16.
Definition prev_free (p : Z) : Z := p + 20.

Definition IS_USED (i : Z) : M mh_state bool := magic ← ld i; mret (negb (Z.land magic RT_MEMHEAP_USED =? 0)).
Definition MEMITEM_SIZE (i : Z) : M mh_state Z := n ← ld (next i); mret (u32 (n - i - RT_MEMHEAP_SIZE)).

(** [rt_sem_take(&(heap->lock), RT_WAITING_FOREVER)] and its release. *)
Definition mh_take (o : nat) : M mh_state unit :=
  h ← get_obj o; rt_assert (0 <? mh_lock h);; put_obj o (set_mh_lock (mh_lock h - 1) h).
Definition mh_release (o : nat) : M mh_state unit := upd_obj o (fun h => set_mh_lock (mh_lock h + 1) h).

(** [heap->available_size += n] *)
Definition mh_give (o : nat) (n : Z) : M mh_state unit :=
  upd_obj o (fun h => set_mh_sizes (u32 (mh_available_size h + n)) (mh_max_used_size h) h).

(** [heap->available_size -= n], with the high-water mark. *)
Definition mh_spend (o : nat) (n : Z) : M mh_state unit :=
  upd_obj o (fun h =>
    let a := u32 (mh_available_size h - n) in
    let used := u32 (mh_pool_size h - a) in
    set_mh_sizes a (if mh_max_used_size h <? used then used else mh_max_used_size h) h).

(** The four statements that put a header in front of the free list. *)
Definition free_insert (o : nat) (p : Z) : M mh_state unit :=
  h ← get_obj o;
  let l := mh_free_list h in
  n ← ld (next_free l); st (next_free p) n;;
  st (prev_free p) l;;
  n ← ld (next_free l); st (prev_free n) p;;
  st (next_free l) p.

(** The two statements that take a header out of the free list. *)
Definition free_remove (p : Z) : M mh_state unit :=
  n ← ld (next_free p); v ← ld (prev_free p); st (prev_free n) v;;
  v ← ld (prev_free p); n ← ld (next_free p); st (next_free v) n.

Definition free_forget (p : Z) : M mh_state unit := st (next_free p) 0;; st (prev_free p) 0.

(** A new free header at [q] behind the header [p]: magic, pool and the four
    statements that break down the block list. *)
Definition split_item (o : nat) (p q : Z) : M mh_state unit :=
  st q RT_MEMHEAP_MAGIC;;
  st (pool_ptr q) (Z.of_nat o);;
  st (prev q) p;;
  n ← ld (next p); st (next q) n;;
  n ← ld (next p); st (prev n) q;;
  st (next p) q.

(** ** Initialisation *)

(** Six stores that set up one header. *)
Definition put_item (p magic pool nx pv nf pf : Z) : M mh_state unit :=
  st p magic;; st (pool_ptr p) pool;; st (next p) nx;; st (prev p) pv;; st (next_free p) nf;; st (prev_free p) pf.

(** [fh] is the address of [memheap->free_header]; the object goes to the
    front of the list of its class. *)
Definition rt_memheap_init (o : nat) (fh start_addr size : Z) : M mh_state Z :=
  modify (fun s => (s.1, (o :: s.2.1, s.2.2)));;
  let pool_size := RT_ALIGN_DOWN size RT_ALIGN_SIZE in
  let available_size := u32 (pool_size - 2 * RT_MEMHEAP_SIZE) in
  put_obj o (mk_mh start_addr pool_size available_size (u32 (pool_size - available_size)) start_addr fh fh 0);;
  put_item fh RT_MEMHEAP_MAGIC (Z.of_nat o) 0 0 fh fh;;
  put_item start_addr RT_MEMHEAP_MAGIC (Z.of_nat o) 0 0 start_addr start_addr;;
  st (next start_addr) (u32 (start_addr + available_size + RT_MEMHEAP_SIZE));;
  n ← ld (next start_addr);
  st (prev start_addr) n;;
  free_insert o start_addr;;
  item ← ld (next start_addr);
  put_item item (Z.lor RT_MEMHEAP_MAGIC RT_MEMHEAP_USED) (Z.of_nat o) start_addr start_addr 0 0;;
  upd_obj o (set_mh_lock 1);;
  mret RT_EOK.

(** The heap leaves the list of its class; the detach of the semaphore inside of
    the heap concerns only the object container, which is [Object]. *)
Definition rt_memheap_detach (o : nat) : M mh_state Z :=
  h ← get_obj o;
  modify (fun s => (s.1, (filter (fun x => x ≠ o) s.2.1, s.2.2)));;
  mret RT_EOK.

(** ** Allocation *)

(** The loop over the free list; every round but the last looks at another
    item. *)
Fixpoint search (fuel : nat) (l p free_size size : Z) : M mh_state (Z * Z) :=
  if negb (p =? l) && (free_size <? size) then
    match fuel with
    | O => fault
    | S fuel =>
        free_size ← MEMITEM_SIZE p;
        if free_size <? size then n ← ld (next_free p); search fuel l n free_size size
        else search fuel l p free_size size
    end
  else mret (p, free_size).

(** What becomes of the item that was found: split, or taken whole. *)
Definition take_item (o : nat) (p free_size size : Z) : M mh_state unit :=
  if u32 (size + RT_MEMHEAP_SIZE + RT_MEMHEAP_MINIALLOC) <=? free_size then
    let new_ptr := u32 (p + size + RT_MEMHEAP_SIZE) in
    split_item o p new_ptr;;
    free_remove p;;
    free_forget p;;
    free_insert o new_ptr;;
    mh_spend o (size + RT_MEMHEAP_SIZE)
  else
    mh_spend o free_size;;
    free_remove p;;
    free_forget p.

Definition request (size : Z) : Z :=
  let size := RT_ALIGN size RT_ALIGN_SIZE in
  if size <? RT_MEMHEAP_MINIALLOC then RT_MEMHEAP_MINIALLOC else size.

(** An item takes at least 36 bytes of the pool, which bounds the loop. *)
Definition search_fuel (h : rt_memheap) : nat := S (Z.to_nat (mh_pool_size h / 36)).

Definition rt_memheap_alloc (o : nat) (size : Z) : M mh_state (option Z) :=
  let size := request size in
  h ← get_obj o;
  if size <? mh_available_size h then
    mh_take o;;
    first ← ld (next_free (mh_free_list h));
    r ← search (search_fuel h) (mh_free_list h) first 0 size;
    if size <=? r.2 then
      take_item o r.1 r.2 size;;
      magic ← ld r.1;
      st r.1 (Z.lor magic RT_MEMHEAP_USED);;
      mh_release o;;
      mret (Some (r.1 + RT_MEMHEAP_SIZE))
    else mh_release o;; mret None
  else mret None.

(** ** Freeing *)

(** Merge with the item in front; the result is the header of the free item
    and whether it still has to go to the free list. *)
Definition merge_left (o : nat) (p : Z) : M mh_state (Z * bool) :=
  v ← ld (prev p);
  used ← IS_USED v;
  if negb used then
    mh_give o RT_MEMHEAP_SIZE;;
    n ← ld (next p); st (next v) n;;
    n ← ld (next p); v' ← ld (prev p); st (prev n) v';;
    v' ← ld (prev p);
    mret (v', false)
  else mret (p, true).

(** The free item [n] behind [p] becomes a part of it. *)
Definition absorb (p n : Z) : M mh_state unit :=
  nn ← ld (next n); st (prev nn) p;;
  nn ← ld (next n); st (next p) nn;;
  free_remove n.

Definition merge_right (o : nat) (p : Z) : M mh_state unit :=
  n ← ld (next p);
  used ← IS_USED n;
  if negb used then
    mh_give o RT_MEMHEAP_SIZE;;
    absorb p n
  else mret tt.

Definition rt_memheap_free (ptr : option Z) : M mh_state unit :=
  match ptr with
  | None => mret tt
  | Some q =>
      let p := q - RT_MEMHEAP_SIZE in
      magic ← ld p;
      rt_assert (Z.land magic RT_MEMHEAP_MASK =? RT_MEMHEAP_MAGIC);;
      rt_assert (negb (Z.land magic RT_MEMHEAP_USED =? 0));;
      n ← ld (next p);
      nmagic ← ld n;
      rt_assert (Z.land nmagic RT_MEMHEAP_MASK =? RT_MEMHEAP_MAGIC);;
      pool ← ld (pool_ptr p);
      let o := Z.to_nat pool in
      mh_take o;;
      magic ← ld p;
      st p (Z.land magic (not32 RT_MEMHEAP_USED));;
      size ← MEMITEM_SIZE p;
      mh_give o size;;
      r ← merge_left o p;
      merge_right o r.1;;
      when r.2 (free_insert o r.1);;
      mh_release o
  end.

(** ** Reallocation *)

(** A header is taken out of the block list. *)
Definition unlink_item (x : Z) : M mh_state unit :=
  n ← ld (next x); v ← ld (prev x); st (prev n) v;;
  v ← ld (prev x); n ← ld (next x); st (next v) n.

(** The free item behind the block gives what is missing. *)
Definition grow_item (o : nat) (q p nx oldsize newsize : Z) : M mh_state unit :=
  mh_spend o (newsize - oldsize);;
  free_remove nx;;
  unlink_item nx;;
  let nx := u32 (q + newsize) in
  split_item o p nx;;
  free_insert o nx.

(** The end of the block becomes a free item. *)
Definition shrink_item (o : nat) (p newsize : Z) : M mh_state unit :=
  let new_ptr := u32 (p + newsize + RT_MEMHEAP_SIZE) in
  split_item o p new_ptr;;
  n ← ld (next new_ptr);
  used ← IS_USED n;
  (if negb used then
     size ← MEMITEM_SIZE n;
     mh_give o (- size);;
     absorb new_ptr n
   else mret tt);;
  free_insert o new_ptr;;
  size ← MEMITEM_SIZE new_ptr;
  mh_give o size.

(** Allocate, copy, free. *)
Definition move_item (o : nat) (q oldsize newsize : Z) : M mh_state (option Z) :=
  r ← rt_memheap_alloc o newsize;
  match r with
  | None => mret None
  | Some q' =>
      on_snd (on_snd (rt_memcpy q' q (if oldsize <? newsize then oldsize else newsize)));;
      rt_memheap_free (Some q);;
      mret (Some q')
  end.

Definition rt_memheap_realloc (o : nat) (ptr : option Z) (newsize : Z) : M mh_state (option Z) :=
  if newsize =? 0 then rt_memheap_free ptr;; mret None
  else
    let newsize := request newsize in
    match ptr with
    | None => rt_memheap_alloc o newsize
    | Some q =>
        let p := q - RT_MEMHEAP_SIZE in
        oldsize ← MEMITEM_SIZE p;
        if oldsize <? newsize then
          mh_take o;;
          nx ← ld (next p);
          rt_assert (p <? nx);;
          used ← IS_USED nx;
          nextsize ← (if negb used then MEMITEM_SIZE nx else mret 0);
          if negb used && (u32 (newsize + RT_MEMHEAP_MINIALLOC) <? u32 (nextsize + oldsize)) then
            grow_item o q p nx oldsize newsize;;
            mh_release o;;
            mret (Some q)
          else
            mh_release o;;
            move_item o q oldsize newsize
        else if oldsize <=? u32 (newsize + RT_MEMHEAP_SIZE + RT_MEMHEAP_MINIALLOC) then mret (Some q)
        else
          mh_take o;;
          shrink_item o p newsize;;
          mh_release o;;
          mret (Some q)
    end.

(** ** The system heap (RT_USING_MEMHEAP_AS_HEAP)

    [sys] is the address of [_heap]. *)

Definition heap_init (sys : nat) (fh begin_addr end_addr : Z) : M mh_state Z :=
  rt_memheap_init sys fh begin_addr (u32 (end_addr - begin_addr)).

Fixpoint malloc_others (sys : nat) (heaps : list nat) (size : Z) : M mh_state (option Z) :=
  match heaps with
  | [] => mret None
  | o :: heaps =>
      if bool_decide (o = sys) then malloc_others sys heaps size
      else
        ptr ← rt_memheap_alloc o size;
        match ptr with Some q => mret (Some q) | None => malloc_others sys heaps size end
  end.

Definition heap_malloc (sys : nat) (size : Z) : M mh_state (option Z) :=
  ptr ← rt_memheap_alloc sys size;
  match ptr with
  | Some q => mret (Some q)
  | None => s ← get; malloc_others sys s.2.1 size
  end.

Definition heap_free (rmem : option Z) : M mh_state unit := rt_memheap_free rmem.

Definition heap_realloc (sys : nat) (rmem : option Z) (newsize : Z) : M mh_state (option Z) :=
  match rmem with
  | None => heap_malloc sys newsize
  | Some q =>
      if newsize =? 0 then heap_free (Some q);; mret None
      else
        let p := q - RT_MEMHEAP_SIZE in
        pool ← ld (pool_ptr p);
        new_ptr ← rt_memheap_realloc (Z.to_nat pool) (Some q) newsize;
        match new_ptr with
        | Some q' => mret (Some q')
        | None =>
            new_ptr ← heap_malloc sys newsize;
            match new_ptr with
            | None => mret None
            | Some q' =>
                oldsize ← MEMITEM_SIZE p;
                on_snd (on_snd (rt_memcpy q' q (if oldsize <? newsize then oldsize else newsize)));;
                heap_free (Some q);;
                mret (Some q')
            end
        end
  end.

Definition heap_calloc (sys : nat) (count size : Z) : M mh_state (option Z) :=
  let total_size := u32 (count * size) in
  ptr ← heap_malloc sys total_size;
  match ptr with
  | None => mret None
  | Some q => on_snd (on_snd (rt_memset q 0 total_size));; mret (Some q)
  end.
