(* ===== verification/MemHeapInv.v ===== *)
(** * Memory heaps: what the lists of src/memheap.c are

    Words in the byte memory, the free list as a chain of headers, the items of
    a heap as a list of blocks, and what the list operations of [MemHeap] do to
    them. *)

From S2P Require Import Prelude Kernel MsgQueue Mem KString MemHeap.

(** ** Words *)

(** The word [w] is stored at [a]. *)
Definition at32 (m : memory) (a w : Z) : Prop := 0 <= w < 2 ^ 32 /\ holds m a (bytes_of w).
Definition put32 (a w : Z) (m : memory) : memory := set_bytes a (bytes_of w) m.

Definition bytes_ok (m : memory) : Prop := forall a x, m !! a = Some x -> is_byte x.

Lemma word_of_bytes w : 0 <= w < 2 ^ 32 -> word_of (u8 w) (u8 (w / 256)) (u8 (w / 65536)) (u8 (w / 16777216)) = w.
Proof. intros Hw. unfold word_of, u8. change (2 ^ 8) with 256. Z.to_euclidean_division_equations. lia. Qed.

Lemma at32_put m a w : 0 <= w < 2 ^ 32 -> at32 (put32 a w m) a w.
Proof. intros Hw. split; [done|]. apply set_bytes_holds. Qed.

Lemma put32_byte m a w b : b < a \/ a + 4 <= b -> put32 a w m !! b = m !! b.
Proof. intros H. unfold put32. rewrite lookup_set_bytes, decide_False; [done|]. simpl. lia. Qed.

Lemma at32_mapped m a w : at32 m a w -> mapped m a 4.
Proof. intros [_ H]. exact (holds_mapped _ _ _ H). Qed.

Lemma mapped_in m s n a k : mapped m s n -> s <= a -> a + k <= s + n -> mapped m a k.
Proof. intros H H1 H2 i Hi. replace (a + i) with (s + (a - s + i)) by lia. apply H. lia. Qed.

(** A step of the code changes bytes only in the part from [lo] to [hi] of the
    headers [X]; no byte disappears and bytes stay bytes. *)
Record changes (lo hi : Z) (X : list Z) (m m' : memory) : Prop := {
  ch_same : forall a, (forall x, x ∈ X -> a < x + lo \/ x + hi <= a) -> m' !! a = m !! a;
  ch_mapped : forall a n, mapped m a n -> mapped m' a n;
  ch_bytes : bytes_ok m -> bytes_ok m'
}.

Lemma changes_refl lo hi X m : changes lo hi X m m.
Proof. by split. Qed.

Lemma changes_weaken lo hi X lo' hi' Y m m' :
  changes lo hi X m m' -> lo' <= lo -> hi <= hi' -> (forall x, x ∈ X -> x ∈ Y) -> changes lo' hi' Y m m'.
Proof. intros [H ? ?] Hl Hh Hs. split; [|done..]. intros a Ha. apply H. intros x Hx. specialize (Ha x (Hs x Hx)). lia. Qed.

Lemma changes_trans lo hi X m1 m2 m3 : changes lo hi X m1 m2 -> changes lo hi X m2 m3 -> changes lo hi X m1 m3.
Proof. intros [H1 ? ?] [H2 ? ?]. split; [|auto..]. intros a Ha. rewrite H2, H1; done. Qed.

Lemma changes_put lo hi X m m' s v x :
  changes lo hi X m m' -> x ∈ X -> x + lo <= s -> s + 4 <= x + hi -> changes lo hi X m (put32 s v m').
Proof.
  intros [H1 H2 H3] Hx Hl Hh. split.
  - intros a Ha. rewrite put32_byte by (specialize (Ha x Hx); lia). by apply H1.
  - intros a n Hm. by apply mapped_set_bytes, H2.
  - intros Hb a y. unfold put32. rewrite lookup_set_bytes. case_decide; [|by apply H3].
    intros Hy%list_elem_of_lookup_2. unfold bytes_of in Hy.
    rewrite !elem_of_cons, elem_of_nil in Hy. unfold is_byte. pose proof u8_range. naive_solver.
Qed.

Lemma at32_changes lo hi X m m' t w :
  changes lo hi X m m' -> (forall x, x ∈ X -> t + 4 <= x + lo \/ x + hi <= t) -> at32 m t w -> at32 m' t w.
Proof.
  intros C Ht [Hw H]. split; [done|]. intros i y Hy. pose proof (lookup_lt_Some _ _ _ Hy) as Hi. simpl in Hi.
  rewrite (ch_same _ _ _ _ _ C); [by apply H|]. intros x Hx. specialize (Ht x Hx). lia.
Qed.

Lemma at32_put_ne m s v t w : s + 4 <= t \/ t + 4 <= s -> at32 m t w -> at32 (put32 s v m) t w.
Proof.
  intros H. apply (at32_changes 0 4 [s]); [|set_solver by lia].
  apply (changes_put _ _ _ _ _ _ _ s); [apply changes_refl|set_solver|lia..].
Qed.

Lemma run_ld hs l m a w : at32 m a w -> ld a (hs, (l, m)) = Ok w (hs, (l, m)).
Proof.
  intros [Hw H]. unfold ld. do 2 apply run_on_snd. rewrite (run_load32 _ _ _ _ _ _ H). by rewrite word_of_bytes.
Qed.

Lemma run_st hs l m a w : mapped m a 4 -> st a w (hs, (l, m)) = Ok tt (hs, (l, put32 a w m)).
Proof. intros H. unfold st. do 2 apply run_on_snd. by apply run_store32. Qed.

(** ** Chains

    A chain of headers is linked by [next_free] and [prev_free]. *)

Definition link (m : memory) (p q : Z) : Prop := at32 m (next_free p) q /\ at32 m (prev_free q) p.

Fixpoint chain (m : memory) (l : list Z) : Prop :=
  match l with
  | p :: ((q :: _) as l') => link m p q /\ chain m l'
  | _ => True
  end.

Lemma chain_app m a p b : chain m (a ++ p :: b) <-> chain m (a ++ [p]) /\ chain m (p :: b).
Proof.
  induction a as [|x a IH]; [simpl; destruct b; naive_solver|].
  destruct a as [|y a]; cbn [app chain] in *; [destruct b; naive_solver|]. rewrite IH. tauto.
Qed.

(** A chain [l ++ [z]] reads the forward links of [l] and the backward links of
    all but its first member. *)
Lemma chain_mono m m' l z :
  (forall q w, q ∈ l -> at32 m (next_free q) w -> at32 m' (next_free q) w) ->
  (forall q w, q ∈ drop 1 (l ++ [z]) -> at32 m (prev_free q) w -> at32 m' (prev_free q) w) ->
  chain m (l ++ [z]) -> chain m' (l ++ [z]).
Proof.
  induction l as [|x l IH]; intros H1 H2; [done|].
  assert (exists y r, l ++ [z] = y :: r) as (y & r & E) by (destruct l; eauto).
  simpl in *. rewrite drop_0 in H2. rewrite E in *. intros [[Ha Hb] Hc]. split.
  - split; [apply H1; [left|done]|apply H2; [left|done]].
  - apply IH; [|simpl; rewrite drop_0|done].
    + intros q w Hq. apply H1. by right.
    + intros q w Hq. apply H2. by right.
Qed.

(** Any two of the headers are the same or do not overlap. *)
Definition spaced (X : list Z) : Prop := forall x y, x ∈ X -> y ∈ X -> x = y \/ x + 24 <= y \/ y + 24 <= x.

(** Changes to the block part of headers leave the chains among them alone. *)
Lemma chain_changes m m' X l z :
  changes 0 16 X m m' -> spaced (X ++ l ++ [z]) -> chain m (l ++ [z]) -> chain m' (l ++ [z]).
Proof.
  intros C Hs. assert (forall t w q, t = next_free q \/ t = prev_free q -> q ∈ l ++ [z] -> at32 m t w -> at32 m' t w) as Hk.
  { intros t w q Ht Hq. apply (at32_changes _ _ _ _ _ _ _ C). intros x Hx.
    destruct (Hs x q) as [->|Hd]; [set_solver..| |]; unfold next_free, prev_free in Ht; lia. }
  apply chain_mono; intros q w Hq.
  - apply (Hk _ w q); [by left|set_solver].
  - apply (Hk _ w q); [by right|]. destruct (l ++ [z]); set_solver.
Qed.

Section free_list.
Context (fh : Z).

(** The free list of the heap: its headers in order. *)
Definition free_chain (m : memory) (fl : list Z) : Prop := chain m (fh :: fl ++ [fh]).

Lemma free_chain_split m xs x ys :
  free_chain m (xs ++ x :: ys) -> chain m ((fh :: xs) ++ [x]) /\ chain m (x :: ys ++ [fh]).
Proof. unfold free_chain. rewrite <- app_assoc. cbn [app]. rewrite app_comm_cons. by rewrite chain_app. Qed.

(** The neighbours of a member, as the code finds them. *)
Lemma free_neighbours m xs x ys :
  free_chain m (xs ++ x :: ys) -> exists l1 p n l2, fh :: xs = l1 ++ [p] /\ ys ++ [fh] = n :: l2 /\
    at32 m (prev_free x) p /\ at32 m (next_free x) n /\ chain m (l1 ++ [p]) /\ chain m (n :: l2).
Proof.
  intros [H1 H2]%free_chain_split.
  destruct (exists_last (l := fh :: xs) ltac:(done)) as (l1 & p & E1). rewrite E1 in H1.
  destruct (ys ++ [fh]) as [|n l2] eqn:E2; [by destruct ys|]. destruct H2 as [[H2 _] H3].
  rewrite <- app_assoc in H1. cbn [app] in H1. apply chain_app in H1 as [H1 [[_ H0] _]].
  by exists l1, p, n, l2.
Qed.

(** Taking a member out. *)
Lemma run_free_remove hs l m xs x ys X :
  free_chain m (xs ++ x :: ys) -> NoDup (fh :: xs ++ x :: ys) -> spaced (fh :: xs ++ x :: ys) ->
  (forall y, y ∈ fh :: xs ++ ys -> y ∈ X) ->
  exists m', free_remove x (hs, (l, m)) = Ok tt (hs, (l, m')) /\ free_chain m' (xs ++ ys) /\ changes 16 24 X m m'.
Proof.
  intros Hc Hnd Hsp HX. destruct (free_neighbours _ _ _ _ Hc) as (l1 & p & n & l2 & E1 & E2 & Hp & Hn & C1 & C2).
  assert (p ∈ fh :: xs /\ n ∈ ys ++ [fh]) as [Ip In] by (rewrite E1, E2; set_solver).
  apply NoDup_cons in Hnd as [Hfh Hnd]. apply NoDup_app in Hnd as (Nx & Dx & Ny%NoDup_cons). destruct Ny as [Nxy Ny].
  assert (NoDup (fh :: xs)) as N1 by (apply NoDup_cons; set_solver).
  assert (NoDup (ys ++ [fh])) as N2.
  { apply NoDup_app. split; [done|]. split; [set_solver|apply NoDup_singleton]. }
  rewrite E1 in N1. rewrite E2 in N2. apply NoDup_app in N1 as (_ & N1 & _). apply NoDup_cons in N2 as [N2 _].
  assert (p ≠ x /\ n ≠ x) as [Dp Dn] by set_solver.
  assert (forall y z, y ∈ fh :: xs ++ x :: ys -> z ∈ fh :: xs ++ x :: ys -> y = z \/ y + 24 <= z \/ z + 24 <= y) as Hs by exact Hsp.
  assert (p ∈ fh :: xs ++ x :: ys /\ n ∈ fh :: xs ++ x :: ys /\ x ∈ fh :: xs ++ x :: ys) as (Jp & Jn & Jx) by set_solver.
  pose proof (Hs p x Jp Jx) as Spx. pose proof (Hs n x Jn Jx) as Snx. unfold prev_free, next_free in *.
  unfold free_remove, prev_free, next_free.
  assert (mapped m (n + 20) 4) as Mn.
  { clear -Hc E2. apply free_chain_split in Hc as [_ Hc]. rewrite E2 in Hc. destruct Hc as [[_ H] _]. by apply at32_mapped in H. }
  assert (mapped m (p + 16) 4) as Mp.
  { clear -Hc E1. apply free_chain_split in Hc as [Hc _]. rewrite E1, <- app_assoc in Hc. cbn [app] in Hc.
    apply chain_app in Hc as [_ [[H _] _]]. by apply at32_mapped in H. }
  run_step (run_ld hs l m _ _ Hn). run_step (run_ld hs l m _ _ Hp). run_step (run_st hs l m (n + 20) p Mn).
  set (m1 := put32 (n + 20) p m).
  assert (at32 m1 (x + 20) p) as Hp1 by (apply at32_put_ne; [lia|done]).
  assert (at32 m1 (x + 16) n) as Hn1 by (apply at32_put_ne; [lia|done]).
  run_step (run_ld hs l m1 _ _ Hp1). run_step (run_ld hs l m1 _ _ Hn1).
  rewrite (run_st hs l m1 (p + 16) n) by (by apply mapped_set_bytes).
  eexists. split; [reflexivity|]. set (m2 := put32 (p + 16) n m1). split.
  2:{ apply (changes_put _ _ _ _ _ _ _ p); [|apply HX; clear -Ip; set_solver|lia..].
      apply (changes_put _ _ _ _ _ _ _ n); [apply changes_refl|apply HX; clear -In; set_solver|lia..]. }
  assert (forall q w, q ∈ fh :: xs ++ x :: ys -> q ≠ p -> at32 m (q + 16) w -> at32 m2 (q + 16) w) as K1.
  { intros q w Hq Hne H. pose proof (Hs p q Jp Hq). pose proof (Hs n q Jn Hq).
    apply at32_put_ne; [lia|]. apply at32_put_ne; [lia|done]. }
  assert (forall q w, q ∈ fh :: xs ++ x :: ys -> q ≠ n -> at32 m (q + 20) w -> at32 m2 (q + 20) w) as K2.
  { intros q w Hq Hne H. pose proof (Hs p q Jp Hq). pose proof (Hs n q Jn Hq).
    apply at32_put_ne; [lia|]. apply at32_put_ne; [lia|done]. }
  unfold free_chain. rewrite <- app_assoc, E2, app_comm_cons, E1, <- app_assoc. cbn [app]. apply chain_app. split; [|split; [split|]].
  - apply (chain_mono m); [| |done].
    + intros q w Hq. apply K1; [|intros ->; apply (N1 p Hq); by left]. assert (q ∈ fh :: xs) as Hq' by (rewrite E1; clear -Hq; set_solver). clear -Hq'. set_solver.
    + rewrite <- E1. cbn [drop]. rewrite drop_0. intros q w Hq. apply K2; [clear -Hq; set_solver|]. intros ->. clear -Hq In Dx Hfh. set_solver.
  - apply at32_put. destruct Hn as [? _]. done.
  - apply at32_put_ne; [pose proof (Hs p n Jp Jn); unfold prev_free; lia|]. apply at32_put. destruct Hp as [? _]. done.
  - rewrite <- E2 in C2 |- *. apply (chain_mono m); [| |done].
    + intros q w Hq. apply K1; [clear -Hq; set_solver|]. intros ->. clear -Hq Ip Dx Hfh. set_solver.
    + rewrite E2. cbn [drop]. rewrite drop_0. intros q w Hq. apply K2; [|by intros ->].
      assert (q ∈ ys ++ [fh]) as Hq' by (rewrite E2; by right). clear -Hq'. set_solver.
Qed.

(** Putting a new member in front. *)
Lemma run_free_insert hs l m o h x fl X :
  hs !! o = Some h -> mh_free_list h = fh -> free_chain m fl -> NoDup (x :: fh :: fl) -> spaced (x :: fh :: fl) ->
  mapped m x 24 -> 0 <= x < 2 ^ 32 -> 0 <= fh < 2 ^ 32 -> (forall y, y ∈ x :: fh :: fl -> y ∈ X) ->
  exists m', free_insert o x (hs, (l, m)) = Ok tt (hs, (l, m')) /\ free_chain m' (x :: fl) /\ changes 16 24 X m m'.
Proof.
  intros Ho Hl Hc [Nx [Nf Nl]%NoDup_cons]%NoDup_cons Hs Mx Rx Rf HX.
  destruct (fl ++ [fh]) as [|n l2] eqn:E; [by destruct fl|]. unfold free_chain in Hc. rewrite E in Hc.
  destruct Hc as [[Hn Hb] Hc]. assert (n ∈ fl ++ [fh]) as In by (rewrite E; left).
  assert (n ∈ x :: fh :: fl) as Jn by (clear -In; set_solver).
  assert (NoDup (fl ++ [fh])) as N2.
  { apply NoDup_app. split; [done|]. split; [clear -Nf; set_solver|apply NoDup_singleton]. }
  rewrite E in N2. apply NoDup_cons in N2 as [N2 _].
  assert (n ≠ x) as Dn by (intros ->; clear -In Nx; set_solver).
  assert (fh ≠ x) as Df by (intros ->; clear -Nx; set_solver).
  assert (x ∈ x :: fh :: fl /\ fh ∈ x :: fh :: fl) as [Jx Jf] by (clear; set_solver).
  pose proof (Hs x n Jx Jn) as Sn. pose proof (Hs x fh Jx Jf) as Sf. pose proof (Hs n fh Jn Jf) as Snf.
  unfold free_insert. run_step (run_get_obj hs (l, m) o h Ho). rewrite Hl. unfold prev_free, next_free in *.
  run_step (run_ld hs l m _ _ Hn). run_step (run_st hs l m (x + 16) n ltac:(apply (mapped_in m x 24); [done|lia..])).
  set (m1 := put32 (x + 16) n m).
  run_step (run_st hs l m1 (x + 20) fh ltac:(apply mapped_set_bytes, (mapped_in m x 24); [done|lia..])).
  set (m2 := put32 (x + 20) fh m1).
  assert (at32 m2 (fh + 16) n) as Hn2 by (apply at32_put_ne; [lia|]; apply at32_put_ne; [lia|done]).
  run_step (run_ld hs l m2 _ _ Hn2).
  run_step (run_st hs l m2 (n + 20) x ltac:(do 2 apply mapped_set_bytes; by apply at32_mapped in Hb)).
  set (m3 := put32 (n + 20) x m2).
  rewrite (run_st hs l m3 (fh + 16) x) by (do 3 apply mapped_set_bytes; by apply at32_mapped in Hn).
  eexists. split; [reflexivity|]. set (m4 := put32 (fh + 16) x m3). split.
  2:{ apply (changes_put _ _ _ _ _ _ _ fh); [|by apply HX|lia..]. apply (changes_put _ _ _ _ _ _ _ n); [|by apply HX|lia..].
      do 2 (apply (changes_put _ _ _ _ _ _ _ x); [|by apply HX|lia..]). apply changes_refl. }
  assert (forall t w, t + 4 <= x + 16 \/ x + 24 <= t -> t + 4 <= n + 20 \/ n + 24 <= t -> t + 4 <= fh + 16 \/ fh + 20 <= t ->
    at32 m t w -> at32 m4 t w) as K.
  { intros t w K1 K2 K3 H. repeat (apply at32_put_ne; [lia|]). done. }
  unfold free_chain. cbn [app]. rewrite E. cbn [chain]. split; [split|split; [split|]]; unfold next_free, prev_free.
  - by apply at32_put.
  - apply at32_put_ne; [lia|]. apply at32_put_ne; [lia|]. by apply at32_put.
  - destruct Hn as [? _]. do 3 (apply at32_put_ne; [lia|]). by apply at32_put.
  - apply at32_put_ne; [lia|]. by apply at32_put.
  - change (chain m4 (n :: l2)). change (chain m (n :: l2)) in Hc. rewrite <- E in Hc |- *.
    apply (chain_mono m); [| |done].
    + intros q w Hq. assert (q ∈ x :: fh :: fl) as Jq by (clear -Hq; set_solver).
      assert (q ≠ x /\ q ≠ fh) as [D1 D2] by (clear -Hq Nx Nf; set_solver).
      pose proof (Hs x q Jx Jq). pose proof (Hs n q Jn Jq). pose proof (Hs fh q Jf Jq).
      unfold next_free. apply K; lia.
    + rewrite E. cbn [drop]. rewrite drop_0. intros q w Hq. assert (q ∈ fl ++ [fh]) as Hq' by (rewrite E; by right).
      assert (q ∈ x :: fh :: fl) as Jq by (clear -Hq'; set_solver).
      assert (q ≠ x) as D1 by (clear -Hq' Nx; set_solver). assert (q ≠ n) as D2 by by intros ->.
      pose proof (Hs x q Jx Jq). pose proof (Hs n q Jn Jq). pose proof (Hs fh q Jf Jq).
      unfold prev_free. apply K; lia.
Qed.
End free_list.

(** ** Items *)

(** A header for at least 12 bytes of data. *)
Definition item_ok (b : blk) : Prop := 36 <= b_size b /\ b_size b mod 4 = 0.

(** The block part of the header at [p]. *)
Definition item_at (m : memory) (o : nat) (p : Z) (used : bool) (nx pv : Z) : Prop :=
  at32 m p (RT_MEMHEAP_MAGIC + flag used) /\ at32 m (pool_ptr p) (Z.of_nat o) /\ at32 m (next p) nx /\ at32 m (prev p) pv.

(** The items [bs] from [p] on, the first one behind the header [pv]. *)
Fixpoint items (m : memory) (o : nat) (pv p : Z) (bs : list blk) : Prop :=
  match bs with
  | [] => True
  | b :: bs => item_at m o p (b_used b) (p + b_size b) pv /\ items m o p (p + b_size b) bs
  end.

(** ... up to the tailer at [e], whose next header is the first one. *)
Definition items_to (m : memory) (o : nat) (s pv p : Z) (bs : list blk) (e : Z) : Prop :=
  items m o pv p bs /\ p + span bs = e /\ item_at m o e true s (last_off pv p bs).

(** The headers of the items and those of the free ones. *)
Fixpoint starts (p : Z) (bs : list blk) : list Z :=
  match bs with [] => [] | b :: bs => p :: starts (p + b_size b) bs end.
Fixpoint frees (p : Z) (bs : list blk) : list Z :=
  match bs with [] => [] | b :: bs => (if b_used b then [] else [p]) ++ frees (p + b_size b) bs end.

(** The bytes of data in free items, and the allocations with their sizes. *)
Definition free_size (bs : list blk) : Z := foldr (fun b n => (if b_used b then 0 else b_size b - 24) + n) 0 bs.
Fixpoint allocs (p : Z) (bs : list blk) : list (Z * Z) :=
  match bs with
  | [] => []
  | b :: bs => (if b_used b then [(p + 24, b_size b - 24)] else []) ++ allocs (p + b_size b) bs
  end.

Lemma item_ok_span bs : Forall item_ok bs -> 36 * Z.of_nat (length bs) <= span bs.
Proof. induction 1 as [|b bs [Hb _] _ IH]; cbn [length span foldr] in *; [done|]. fold (span bs). lia. Qed.

Lemma starts_app p a b : starts p (a ++ b) = starts p a ++ starts (p + span a) b.
Proof. revert p. induction a as [|x a IH]; intros p; simpl; [by rewrite Z.add_0_r|]. by rewrite IH, Z.add_assoc. Qed.

Lemma frees_app p a b : frees p (a ++ b) = frees p a ++ frees (p + span a) b.
Proof.
  revert p. induction a as [|x a IH]; intros p; simpl; [by rewrite Z.add_0_r|]. by rewrite IH, Z.add_assoc, app_assoc.
Qed.

Lemma allocs_app p a b : allocs p (a ++ b) = allocs p a ++ allocs (p + span a) b.
Proof.
  revert p. induction a as [|x a IH]; intros p; simpl; [by rewrite Z.add_0_r|]. by rewrite IH, Z.add_assoc, app_assoc.
Qed.

Lemma free_size_app a b : free_size (a ++ b) = free_size a + free_size b.
Proof. induction a as [|x a IH]; simpl; [done|]. rewrite IH. lia. Qed.

Lemma free_size_bounds bs : Forall item_ok bs -> 0 <= free_size bs <= span bs.
Proof. induction 1 as [|b bs [Hb _] _ IH]; simpl; [lia|]. destruct (b_used b); lia. Qed.

Lemma starts_range p bs q : Forall item_ok bs -> q ∈ starts p bs -> p <= q /\ q + 36 <= p + span bs.
Proof.
  intros Hb. revert p. induction Hb as [|b bs [Hb _] Hbs IH]; intros p; simpl; [by intros ?%elem_of_nil|].
  pose proof (item_ok_span bs Hbs) as Hsp. intros [->|H%IH]%elem_of_cons; lia.
Qed.

Lemma frees_starts p bs q : q ∈ frees p bs -> q ∈ starts p bs.
Proof.
  revert p. induction bs as [|b bs IH]; intros p; simpl; [done|]. intros [H|H]%elem_of_app.
  - destruct (b_used b); set_solver.
  - right. by apply IH.
Qed.

Lemma starts_spaced p bs : Forall item_ok bs -> spaced (starts p bs) /\ NoDup (starts p bs).
Proof.
  intros Hb. revert p. induction Hb as [|b bs [Hb _] Hbs IH]; intros p; simpl; [split; [by intros ? ? ?%elem_of_nil|constructor]|].
  destruct (IH (p + b_size b)) as [Hs Hn]. split.
  - intros x y [->|Hx]%elem_of_cons [->|Hy]%elem_of_cons; [by left|..].
    + apply starts_range in Hy; [lia|done].
    + apply starts_range in Hx; [lia|done].
    + by apply Hs.
  - apply NoDup_cons. split; [|done]. intros H. apply starts_range in H; [lia|done].
Qed.

Lemma frees_nodup p bs : Forall item_ok bs -> NoDup (frees p bs).
Proof.
  intros Hb. revert p. induction Hb as [|b bs Hb Hbs IH]; intros p; simpl; [constructor|].
  destruct (b_used b); [apply IH|]. apply NoDup_cons. split; [|apply IH].
  intros H%frees_starts. apply starts_range in H; [destruct Hb; lia|done].
Qed.

(** Where the data of the allocations are. *)
Lemma allocs_range p bs q n : Forall item_ok bs -> (q, n) ∈ allocs p bs ->
  p + 24 <= q /\ 12 <= n /\ q + n <= p + span bs /\ n mod 4 = 0.
Proof.
  intros Hb. revert p. induction Hb as [|b bs [Hb Hb4] Hbs IH]; intros p; simpl; [by intros ?%elem_of_nil|].
  pose proof (item_ok_span bs Hbs). intros [H0|H0%IH]%elem_of_app; [|lia].
  destruct (b_used b); [|by apply elem_of_nil in H0]. apply list_elem_of_singleton in H0 as [= -> ->].
  split_and!; try lia. Z.to_euclidean_division_equations. lia.
Qed.

(** No allocation overlaps a header. *)
Lemma allocs_headers p bs q n x :
  Forall item_ok bs -> (q, n) ∈ allocs p bs -> x ∈ starts p bs \/ x = p + span bs -> x + 24 <= q \/ q + n <= x.
Proof.
  intros Hb. revert p. induction Hb as [|b bs Hb Hbs IH]; intros p; simpl; [by intros ?%elem_of_nil|].
  pose proof (item_ok_span bs Hbs). intros [Hq|Hq]%elem_of_app.
  - destruct (b_used b); [|by apply elem_of_nil in Hq]. apply list_elem_of_singleton in Hq as [= -> ->].
    intros [[->|Hx]%elem_of_cons| ->]; [lia| |lia]. apply starts_range in Hx; [lia|done].
  - pose proof (allocs_range _ _ _ _ Hbs Hq) as R. destruct Hb as [Hb _]. intros [[->|Hx]%elem_of_cons| ->]; [lia| |lia].
    apply (IH _ Hq). by left.
Qed.

(** Two allocations do not overlap. *)
Lemma allocs_apart p bs q n q' n' :
  Forall item_ok bs -> (q, n) ∈ allocs p bs -> (q', n') ∈ allocs p bs -> (q, n) = (q', n') \/ q + n + 24 <= q' \/ q' + n' + 24 <= q.
Proof.
  intros Hb. revert p. induction Hb as [|b bs [Hb _] Hbs IH]; intros p; simpl; [by intros ?%elem_of_nil|].
  intros [H1|H1]%elem_of_app [H2|H2]%elem_of_app; [| | |by apply (IH _ H1 H2)].
  - left. destruct (b_used b); [|by apply elem_of_nil in H1]. apply list_elem_of_singleton in H1, H2. congruence.
  - apply allocs_range in H2; [|done]. destruct (b_used b); [|by apply elem_of_nil in H1].
    apply list_elem_of_singleton in H1 as [= -> ->]. right. lia.
  - apply allocs_range in H1; [|done]. destruct (b_used b); [|by apply elem_of_nil in H2].
    apply list_elem_of_singleton in H2 as [= -> ->]. right. lia.
Qed.

Lemma allocs_nodup p bs : Forall item_ok bs -> NoDup (allocs p bs).
Proof.
  intros Hb. revert p. induction Hb as [|b bs [Hb _] Hbs IH]; intros p; simpl; [constructor|].
  destruct (b_used b); [|apply IH]. apply NoDup_cons. split; [|apply IH]. intros H%allocs_range; [lia|done].
Qed.

Lemma allocs_at p bs q n :
  (q, n) ∈ allocs p bs -> exists pre b post, bs = pre ++ b :: post /\ b_used b = true /\ q = p + span pre + 24 /\ n = b_size b - 24.
Proof.
  revert p. induction bs as [|b bs IH]; intros p; simpl; [by intros ?%elem_of_nil|].
  intros [H|H]%elem_of_app.
  - destruct (b_used b) eqn:Eu; [|by apply elem_of_nil in H]. apply list_elem_of_singleton in H as [= -> ->].
    exists [], b, bs. simpl. split_and!; [done|done|lia|done].
  - apply IH in H as (pre & c & post & -> & Hu & -> & ->). exists (b :: pre), c, post. simpl. split_and!; [done|done|lia|done].
Qed.

Lemma frees_at p bs x :
  x ∈ frees p bs -> exists pre b post, bs = pre ++ b :: post /\ b_used b = false /\ x = p + span pre.
Proof.
  revert p. induction bs as [|b bs IH]; intros p; simpl; [by intros ?%elem_of_nil|].
  intros [H|H]%elem_of_app.
  - destruct (b_used b) eqn:Eu; [by apply elem_of_nil in H|]. apply list_elem_of_singleton in H as ->.
    exists [], b, bs. simpl. split_and!; [done|done|lia].
  - apply IH in H as (pre & c & post & -> & Hu & ->). exists (b :: pre), c, post. simpl. split_and!; [done|done|lia].
Qed.

(** *** Frames *)

(** The words apart from [ts] are kept. *)
Definition others (ts : list Z) (m m' : memory) : Prop :=
  forall t w, Forall (fun s => s + 4 <= t \/ t + 4 <= s) ts -> at32 m t w -> at32 m' t w.

(** Solve that each address of a list is apart from something. *)
Ltac far := repeat (apply Forall_cons; split); try apply Forall_nil_2; cbv beta; lia.

Lemma others_nil m : others [] m m.
Proof. by intros t w _. Qed.

Lemma others_put ts m m' s v : others ts m m' -> others (s :: ts) m (put32 s v m').
Proof. intros H t w [Ht Hts]%Forall_cons Hw. apply at32_put_ne; [done|by apply H]. Qed.

Lemma others_changes lo hi X m m' : changes lo hi X m m' -> forall t w, (forall x, x ∈ X -> t + 4 <= x + lo \/ x + hi <= t) -> at32 m t w -> at32 m' t w.
Proof. intros C t w H. by apply (at32_changes lo hi X). Qed.

Lemma item_at_others ts m m' o p u nx pv :
  others ts m m' -> Forall (fun s => s + 4 <= p \/ p + 16 <= s) ts -> item_at m o p u nx pv -> item_at m' o p u nx pv.
Proof.
  intros H Hts (H1 & H2 & H3 & H4). unfold pool_ptr, next, prev in *.
  split_and!; (apply H; [|done]); (eapply Forall_impl; [exact Hts|]; simpl; intros s Hs; unfold pool_ptr, next, prev; lia).
Qed.

Lemma items_others ts m m' o pv p bs :
  others ts m m' -> Forall item_ok bs -> Forall (fun s => s + 4 <= p \/ p + span bs <= s) ts ->
  items m o pv p bs -> items m' o pv p bs.
Proof.
  intros H Hb. revert pv p. induction Hb as [|b bs [Hb _] Hbs IH]; intros pv p Hts; simpl in *; [done|].
  pose proof (item_ok_span bs Hbs). intros [H1 H2]. split.
  - apply (item_at_others ts m); [done| |done]. eapply Forall_impl; [exact Hts|]. simpl. intros s Hs. lia.
  - apply IH; [|done]. eapply Forall_impl; [exact Hts|]. simpl. intros s Hs. lia.
Qed.

Lemma items_to_others ts m m' o s pv p bs e :
  others ts m m' -> Forall item_ok bs -> Forall (fun t => t + 4 <= p) ts -> items_to m o s pv p bs e -> items_to m' o s pv p bs e.
Proof.
  intros H Hb Hts (H1 & He & H2). pose proof (item_ok_span bs Hb). split_and!; [|done|].
  - apply (items_others ts m); [done..| |done]. eapply Forall_impl; [exact Hts|]. simpl. intros t Ht. lia.
  - apply (item_at_others ts m); [done| |done]. eapply Forall_impl; [exact Hts|]. simpl. intros t Ht. lia.
Qed.

Lemma items_app m o pv p a b : items m o pv p (a ++ b) <-> items m o pv p a /\ items m o (last_off pv p a) (p + span a) b.
Proof.
  revert pv p. induction a as [|x a IH]; intros pv p; simpl; [rewrite Z.add_0_r; naive_solver|].
  rewrite IH, Z.add_assoc. tauto.
Qed.

Lemma last_off_app pv p a b : last_off pv p (a ++ b) = last_off (last_off pv p a) (p + span a) b.
Proof. revert pv p. induction a as [|x a IH]; intros pv p; simpl; [by rewrite Z.add_0_r|]. by rewrite IH, Z.add_assoc. Qed.

Lemma items_to_app m o s pv p a b e :
  items_to m o s pv p (a ++ b) e <-> items m o pv p a /\ items_to m o s (last_off pv p a) (p + span a) b e.
Proof. unfold items_to. rewrite items_app, span_app, last_off_app, Z.add_assoc. tauto. Qed.

Lemma items_to_cons m o s pv p b bs e :
  items_to m o s pv p (b :: bs) e <-> item_at m o p (b_used b) (p + b_size b) pv /\ items_to m o s p (p + b_size b) bs e.
Proof. unfold items_to. simpl. rewrite Z.add_assoc. tauto. Qed.

(** The header at the front of a tail, which may be the tailer. *)
Lemma items_to_front m o s pv p bs e :
  items_to m o s pv p bs e ->
  item_at m o p (head_used bs) (match bs with [] => s | b :: _ => p + b_size b end) pv.
Proof. intros (H1 & He & H2). destruct bs as [|b bs]; simpl in *; [by replace p with e by lia|apply H1]. Qed.

(** A tail that keeps everything but the [prev] of its first header. *)
Lemma items_to_prev ts m m' o s pv pv' p bs e :
  others ts m m' -> Forall item_ok bs -> Forall (fun t => t + 4 <= p \/ t = prev p) ts -> at32 m' (prev p) pv' ->
  items_to m o s pv p bs e -> items_to m' o s pv' p bs e.
Proof.
  intros H Hb Hts Hp (H1 & He & H2). unfold prev in *. destruct bs as [|b bs]; cbn [items span foldr last_off] in *.
  - rewrite Z.add_0_r in He. subst e. split_and!; [done|simpl; lia|]. destruct H2 as (A1 & A2 & A3 & A4).
    unfold item_at, pool_ptr, next, prev in *. split_and!; [..|done]; (apply H; [|done]);
      (eapply Forall_impl; [exact Hts|]; simpl; intros t Ht; lia).
  - apply Forall_cons in Hb as [[Hb _] Hbs]. pose proof (item_ok_span bs Hbs). fold (span bs) in He. destruct H1 as [(A1 & A2 & A3 & A4) H1].
    split_and!; cbn [span foldr items last_off]; fold (span bs); [split|lia|].
    + unfold item_at, pool_ptr, next, prev in *. split_and!; [..|done]; (apply H; [|done]);
        (eapply Forall_impl; [exact Hts|]; simpl; intros t Ht; lia).
    + apply (items_others ts m); [done..| |done]. eapply Forall_impl; [exact Hts|]. simpl. intros t Ht. lia.
    + apply (item_at_others ts m); [done| |done]. eapply Forall_impl; [exact Hts|]. simpl. intros t Ht. lia.
Qed.

(** *** The operations on the block list *)

Section blocks.
Context (o : nat) (s pv e : Z).

(** An item in the middle, with what surrounds it. *)
Lemma items_at m pre b post :
  items_to m o s pv s (pre ++ b :: post) e -> let p := s + span pre in
  items m o pv s pre /\ item_at m o p (b_used b) (p + b_size b) (last_off pv s pre) /\ items_to m o s p (p + b_size b) post e.
Proof. intros [H1 H2]%items_to_app p. apply items_to_cons in H2 as [H2 H3]. done. Qed.

Lemma items_bounds m pre b post :
  items_to m o s pv s (pre ++ b :: post) e -> Forall item_ok (pre ++ b :: post) ->
  Forall item_ok pre /\ item_ok b /\ Forall item_ok post /\ 0 <= span pre /\ 0 <= span post /\ s + span pre + b_size b + span post = e.
Proof.
  intros (_ & He & _) [Hp [Hb Hq]%Forall_cons]%Forall_app. pose proof (item_ok_span _ Hp). pose proof (item_ok_span _ Hq).
  rewrite span_app in He. simpl in He. fold (span post) in He. split_and!; [done..|lia|lia|lia].
Qed.

(** Two neighbours become one item. *)
Lemma items_join m m' pre a b post :
  items_to m o s pv s (pre ++ a :: b :: post) e -> Forall item_ok (pre ++ a :: b :: post) ->
  let p := s + span pre in let n := p + b_size a + b_size b in
  others [next p; prev n] m m' -> at32 m' (next p) n -> at32 m' (prev n) p ->
  items_to m' o s pv s (pre ++ mk_blk (b_size a + b_size b) (b_used a) :: post) e.
Proof.
  intros H Hok p n K K1 K2. destruct (items_bounds _ _ _ _ H Hok) as (Hp & [Ha _] & [[Hb _] Hq]%Forall_cons & H0 & _ & _).
  destruct (items_at _ _ _ _ H) as (H1 & (A1 & A2 & _ & A4) & [_ H3]%items_to_cons). fold p in A1, A2, A4, H3.
  apply items_to_app. split; [|apply items_to_cons; split]; cbn [b_size b_used].
  - apply (items_others [next p; prev n] m); [done..| |done]. unfold next, prev, n, p. far.
  - fold p. replace (p + (b_size a + b_size b)) with n by lia. unfold item_at, next, prev, pool_ptr in *.
    split_and!; try done; (apply K; [|done]); unfold n; far.
  - fold p. replace (p + (b_size a + b_size b)) with n by lia. fold n in H3.
    apply (items_to_prev [next p; prev n] m _ _ _ (p + b_size a)); [done..| |done|exact H3].
    apply Forall_cons. split; [left; unfold next, n; lia|]. apply Forall_singleton. by right.
Qed.

(** An item changes its state. *)
Lemma items_mark m pre b post u :
  items_to m o s pv s (pre ++ b :: post) e -> Forall item_ok (pre ++ b :: post) ->
  items_to (put32 (s + span pre) (RT_MEMHEAP_MAGIC + flag u) m) o s pv s (pre ++ mk_blk (b_size b) u :: post) e.
Proof.
  intros H Hok. destruct (items_bounds _ _ _ _ H Hok) as (Hp & [Hb _] & Hq & H0 & _ & _).
  destruct (items_at _ _ _ _ H) as (H1 & (A1 & A2 & A3 & A4) & H3). set (p := s + span pre) in *.
  assert (others [p] m (put32 p (RT_MEMHEAP_MAGIC + flag u) m)) as K by apply others_put, others_nil.
  apply items_to_app. split; [|apply items_to_cons; split]; cbn [b_size b_used].
  - apply (items_others [p] m); [done..| |done]. unfold p. far.
  - fold p. unfold item_at, next, prev, pool_ptr in *. split_and!.
    + apply at32_put. unfold RT_MEMHEAP_MAGIC. destruct u; simpl; lia.
    + apply K; [|done]. far.
    + apply K; [|done]. far.
    + apply K; [|done]. far.
  - fold p. apply (items_to_others [p] m); [done..| |done]. far.
Qed.

(** The first [k] bytes of an item become an item of their own; the rest is a
    free one. *)
Lemma run_split_item hs l m pre b post k :
  items_to m o s pv s (pre ++ b :: post) e -> Forall item_ok (pre ++ b :: post) -> 24 <= k -> k + 24 <= b_size b ->
  mapped m s (e + 24 - s) -> 0 <= s -> e + 24 < 2 ^ 32 -> Z.of_nat o < 2 ^ 32 ->
  let p := s + span pre in
  exists m', split_item o p (p + k) (hs, (l, m)) = Ok tt (hs, (l, m')) /\
    items_to m' o s pv s (pre ++ mk_blk k (b_used b) :: mk_blk (b_size b - k) false :: post) e /\
    changes 0 16 [p; p + k; p + b_size b] m m'.
Proof.
  intros H Hok Hk Hkb Hm Hs He Ho p. destruct (items_bounds _ _ _ _ H Hok) as (Hp & [Hb _] & Hq & H0 & Hq0 & Hsum).
  destruct (items_at _ _ _ _ H) as (H1 & (A1 & A2 & A3 & A4) & H3). fold p in A1, A2, A3, A4, H3.
  pose proof (items_to_front _ _ _ _ _ _ _ H3) as (_ & _ & _ & F4).
  assert (s <= p /\ p + b_size b + span post = e) as [Hps Hpe] by (unfold p; lia).
  set (n := p + b_size b) in *. set (q := p + k). assert (p + 24 <= q /\ q + 24 <= n) as [Hq1 Hq2] by (unfold q, n; lia).
  assert (n <= e) as Hne by (unfold n; lia). assert (b_size b - k = n - q) as Er by (unfold q, n; lia).
  assert (k = q - p) as Ek by (unfold q; lia). rewrite Er, Ek. assert (b_size b = n - p) as Eb by (unfold n; lia).
  clearbody n q. clear Hsum Ek.
  assert (forall t m', (forall a n, mapped m a n -> mapped m' a n) -> s <= t -> t + 4 <= e + 24 -> mapped m' t 4) as Mt.
  { intros t m' Hg L1 L2. apply Hg. apply (mapped_in m s (e + 24 - s)); [done|lia..]. }
  unfold split_item, pool_ptr, next, prev in *.
  run_step (run_st hs l m q RT_MEMHEAP_MAGIC ltac:(apply Mt; [done|lia..])).
  set (m1 := put32 q RT_MEMHEAP_MAGIC m).
  assert (changes 0 16 [p; q; n] m m1) as C1 by (apply (changes_put _ _ _ _ _ _ _ q); [apply changes_refl|set_solver|lia..]).
  run_step (run_st hs l m1 (q + 4) (Z.of_nat o) ltac:(apply Mt; [apply C1|lia..])). set (m2 := put32 (q + 4) (Z.of_nat o) m1).
  assert (changes 0 16 [p; q; n] m m2) as C2 by (apply (changes_put _ _ _ _ _ _ _ q); [done|set_solver|lia..]).
  run_step (run_st hs l m2 (q + 12) p ltac:(apply Mt; [apply C2|lia..])). set (m3 := put32 (q + 12) p m2).
  assert (changes 0 16 [p; q; n] m m3) as C3 by (apply (changes_put _ _ _ _ _ _ _ q); [done|set_solver|lia..]).
  assert (others [q + 12; q + 4; q] m m3) as O3 by (do 3 apply others_put; apply others_nil).
  assert (at32 m3 (p + 8) n) as N3 by (apply O3; [far|done]).
  run_step (run_ld hs l m3 _ _ N3).
  run_step (run_st hs l m3 (q + 8) n ltac:(apply Mt; [apply C3|lia..])). set (m4 := put32 (q + 8) n m3).
  assert (changes 0 16 [p; q; n] m m4) as C4 by (apply (changes_put _ _ _ _ _ _ _ q); [done|set_solver|lia..]).
  assert (at32 m4 (p + 8) n) as N4 by (apply at32_put_ne; [lia|done]).
  run_step (run_ld hs l m4 _ _ N4).
  run_step (run_st hs l m4 (n + 12) q ltac:(apply Mt; [apply C4|lia..])). set (m5 := put32 (n + 12) q m4).
  assert (changes 0 16 [p; q; n] m m5) as C5 by (apply (changes_put _ _ _ _ _ _ _ n); [done|set_solver|lia..]).
  rewrite (run_st hs l m5 (p + 8) q) by (apply Mt; [apply C5|lia..]). set (m6 := put32 (p + 8) q m5).
  assert (changes 0 16 [p; q; n] m m6) as C6 by (apply (changes_put _ _ _ _ _ _ _ p); [done|set_solver|lia..]).
  assert (others [p + 8; n + 12; q + 8; q + 12; q + 4; q] m m6) as O6 by (do 6 apply others_put; apply others_nil).
  eexists. split; [reflexivity|]. split; [|exact C6].
  apply items_to_app. split; [|apply items_to_cons; split; [|apply items_to_cons; split]]; cbn [b_size b_used]; fold p;
    replace (p + (q - p)) with q by lia; replace (q + (n - q)) with n by lia.
  - apply (items_others [p + 8; n + 12; q + 8; q + 12; q + 4; q] m); [done..| |done]. unfold p in *. far.
  - unfold item_at, pool_ptr, next, prev. split_and!.
    + apply O6; [far|done].
    + apply O6; [far|done].
    + apply at32_put. lia.
    + apply O6; [far|done].
  - unfold item_at, pool_ptr, next, prev. unfold m6, m5, m4, m3, m2, m1. split_and!; repeat (apply at32_put_ne; [lia|]); apply at32_put;
      cbn [flag]; unfold RT_MEMHEAP_MAGIC; lia.
  - apply (items_to_prev [p + 8; n + 12; q + 8; q + 12; q + 4; q] m _ _ _ p); [done..| | |done].
    + unfold prev. far.
    + unfold prev, m6. apply at32_put_ne; [lia|]. apply at32_put. lia.
Qed.
End blocks.

(** ** Both lists together *)

Lemma spaced_sub X Y : (forall x, x ∈ X -> x ∈ Y) -> spaced Y -> spaced X.
Proof. intros H HY x y Hx Hy. apply HY; auto. Qed.

(** Changes to the free part of headers leave the block list alone. *)
Lemma item_at_changes X m m' o p u nx pv :
  changes 16 24 X m m' -> spaced (p :: X) -> item_at m o p u nx pv -> item_at m' o p u nx pv.
Proof.
  intros C Hs (H1 & H2 & H3 & H4). unfold pool_ptr, next, prev in *.
  split_and!; (eapply at32_changes; [exact C| |done]); intros x Hx;
    (destruct (Hs p x) as [->|Hd]; [left|by right|..]; unfold pool_ptr, next, prev; lia).
Qed.

Lemma items_changes X m m' o pv p bs :
  changes 16 24 X m m' -> spaced (starts p bs ++ X) -> items m o pv p bs -> items m' o pv p bs.
Proof.
  intros C. revert pv p. induction bs as [|b bs IH]; intros pv p Hs; cbn [items starts] in *; [done|]. intros [H1 H2]. split.
  - apply (item_at_changes X m); [done| |done]. apply (spaced_sub _ _) with (2 := Hs). set_solver.
  - apply IH; [|done]. apply (spaced_sub _ _) with (2 := Hs). set_solver.
Qed.

(** A chain is not touched by changes to headers that are no members. *)
Lemma chain_apart X m m' l z :
  changes 0 24 X m m' -> (forall x y, x ∈ X -> y ∈ l ++ [z] -> x + 24 <= y \/ y + 24 <= x) ->
  chain m (l ++ [z]) -> chain m' (l ++ [z]).
Proof.
  intros C Hx. apply chain_mono; intros q w Hq; apply (at32_changes _ _ _ _ _ _ _ C); intros x Hx'; unfold next_free, prev_free.
  - destruct (Hx x q Hx'); [set_solver|lia..].
  - destruct (Hx x q Hx'); [|lia..]. destruct (l ++ [z]); set_solver.
Qed.

(** The lists of a heap at [s .. e + 24] with the header [fh] of the free list:
    the items [bs], the members [fl] of the free list. *)
Record shape (o : nat) (s e fh : Z) (m : memory) (bs : list blk) (fl : list Z) : Prop := {
  sh_items : items_to m o s e s bs e;
  sh_ok : Forall item_ok bs;
  sh_chain : free_chain fh m fl;
  sh_fl : forall x, x ∈ fl -> x ∈ starts s bs;
  sh_nodup : NoDup fl;
  sh_mapped : mapped m s (e + 24 - s);
  sh_bytes : bytes_ok m;
  sh_space : 0 <= s /\ e + 24 < 2 ^ 32 /\ 0 <= fh < 2 ^ 32 /\ (fh + 24 <= s \/ e + 24 <= fh);
  sh_heap : Z.of_nat o < 2 ^ 32
}.

(** All headers. *)
Definition headers (s e fh : Z) (bs : list blk) : list Z := fh :: starts s bs ++ [e].

Section shape.
Context (o : nat) (s e fh : Z).
Implicit Types (m : memory) (bs : list blk) (fl : list Z).

Lemma headers_spaced bs :
  Forall item_ok bs -> s + span bs = e -> fh + 24 <= s \/ e + 24 <= fh -> spaced (headers s e fh bs).
Proof.
  intros Hb He Hf. destruct (starts_spaced s bs Hb) as [Hs _].
  assert (forall x, x ∈ starts s bs ++ [e] -> x ∈ starts s bs \/ x = e) as Hin by set_solver.
  assert (forall x, x ∈ starts s bs -> s <= x /\ x + 36 <= e) as Hr by (intros x Hx; apply starts_range in Hx; [lia|done]).
  pose proof (item_ok_span bs Hb).
  intros x y [->|Hx]%elem_of_cons [->|Hy]%elem_of_cons; [by left|..].
  - destruct (Hin y Hy) as [?%Hr| ->]; lia.
  - destruct (Hin x Hx) as [?%Hr| ->]; lia.
  - destruct (Hin x Hx) as [Hx'| ->]; destruct (Hin y Hy) as [Hy'| ->].
    + by apply Hs.
    + apply Hr in Hx'. lia.
    + apply Hr in Hy'. lia.
    + by left.
Qed.

Lemma shape_spaced m bs fl : shape o s e fh m bs fl -> spaced (headers s e fh bs).
Proof. intros H. apply headers_spaced; [apply H| |apply H]. by destruct (sh_items _ _ _ _ _ _ _ H) as (_ & ? & _). Qed.

Lemma shape_members m bs fl x : shape o s e fh m bs fl -> x ∈ fh :: fl -> x ∈ headers s e fh bs.
Proof. intros H [->|Hx]%elem_of_cons; [left|]. apply (sh_fl _ _ _ _ _ _ _ H) in Hx. unfold headers. set_solver. Qed.

Lemma shape_fh m bs fl : shape o s e fh m bs fl -> fh ∉ starts s bs.
Proof.
  intros H Hf. apply starts_range in Hf; [|apply H]. destruct (sh_items _ _ _ _ _ _ _ H) as (_ & He & _).
  pose proof (sh_space _ _ _ _ _ _ _ H). pose proof (item_ok_span _ (sh_ok _ _ _ _ _ _ _ H)). lia.
Qed.

Lemma shape_nodup m bs fl : shape o s e fh m bs fl -> NoDup (fh :: fl).
Proof. intros H. apply NoDup_cons. split; [|apply H]. intros Hf%(sh_fl _ _ _ _ _ _ _ H). by apply (shape_fh _ _ _ H). Qed.

(** A step on the free part. *)
Lemma shape_free_step m m' bs fl fl' X :
  shape o s e fh m bs fl -> changes 16 24 X m m' -> (forall x, x ∈ X -> x ∈ headers s e fh bs) ->
  free_chain fh m' fl' -> NoDup fl' -> (forall x, x ∈ fl' -> x ∈ starts s bs) -> shape o s e fh m' bs fl'.
Proof.
  intros H C HX Hc Hn Hf. pose proof (shape_spaced _ _ _ H) as Hs. destruct H as [(I1 & I2 & I3) ? _ _ _ Hm Hb ? ?]. split; try done.
  - split_and!; [|done|].
    + apply (items_changes X m); [done| |done]. apply (spaced_sub _ _) with (2 := Hs). unfold headers in *. set_solver.
    + apply (item_at_changes X m); [done| |done]. apply (spaced_sub _ _) with (2 := Hs). unfold headers in *. set_solver.
  - apply C, Hm.
  - apply C, Hb.
Qed.

Lemma shape_remove hs l m bs xs x ys :
  shape o s e fh m bs (xs ++ x :: ys) -> exists m', free_remove x (hs, (l, m)) = Ok tt (hs, (l, m')) /\
    shape o s e fh m' bs (xs ++ ys) /\ changes 0 24 (headers s e fh bs) m m'.
Proof.
  intros H. pose proof (shape_nodup _ _ _ H) as Hn.
  assert (forall y, y ∈ fh :: xs ++ x :: ys -> y ∈ headers s e fh bs) as Hin by (intros y Hy; by apply (shape_members _ _ _ _ H)).
  destruct (run_free_remove fh hs l m xs x ys (headers s e fh bs)) as (m' & E & Hc & C).
  - apply H.
  - done.
  - apply (spaced_sub _ _ Hin), (shape_spaced _ _ _ H).
  - intros y Hy. apply Hin. set_solver.
  - exists m'. split; [done|]. split; [|by apply (changes_weaken _ _ _ _ _ _ _ _ C)].
    apply (shape_free_step m m' bs (xs ++ x :: ys) _ (headers s e fh bs)); try done.
    + pose proof (sh_nodup _ _ _ _ _ _ _ H) as Hd. apply NoDup_app in Hd as (? & Hd & [_ ?]%NoDup_cons). apply NoDup_app. set_solver.
    + intros y Hy. apply (sh_fl _ _ _ _ _ _ _ H). set_solver.
Qed.

Lemma shape_insert hs l m bs fl x h :
  shape o s e fh m bs fl -> hs !! o = Some h -> mh_free_list h = fh -> x ∈ starts s bs -> x ∉ fl ->
  exists m', free_insert o x (hs, (l, m)) = Ok tt (hs, (l, m')) /\
    shape o s e fh m' bs (x :: fl) /\ changes 0 24 (headers s e fh bs) m m'.
Proof.
  intros H Ho Hl Hx Hnx. pose proof (shape_nodup _ _ _ H) as Hn. pose proof (shape_fh _ _ _ H) as Hf.
  assert (x ∈ headers s e fh bs) as Jx by (unfold headers; set_solver).
  assert (forall y, y ∈ x :: fh :: fl -> y ∈ headers s e fh bs) as Hin.
  { intros y [->|Hy]%elem_of_cons; [done|by apply (shape_members _ _ _ _ H)]. }
  apply starts_range in Hx as Rx; [|apply H]. pose proof (sh_items _ _ _ _ _ _ _ H) as (_ & He & _). pose proof (sh_space _ _ _ _ _ _ _ H) as Sp.
  assert (x ≠ fh) as Dx by (intros ->; done).
  destruct (run_free_insert fh hs l m o h x fl (headers s e fh bs)) as (m' & E & Hc & C); try done.
  - apply H.
  - apply NoDup_cons. split; [set_solver|done].
  - apply (spaced_sub _ _ Hin), (shape_spaced _ _ _ H).
  - apply (mapped_in m s (e + 24 - s)); [apply H|lia..].
  - lia.
  - lia.
  - exists m'. split; [done|]. split; [|by apply (changes_weaken _ _ _ _ _ _ _ _ C)].
    apply (shape_free_step m m' bs fl _ (headers s e fh bs)); try done.
    + apply NoDup_cons. split; [done|apply H].
    + intros y [->|Hy]%elem_of_cons; [done|]. by apply (sh_fl _ _ _ _ _ _ _ H).
Qed.

(** [next_free] and [prev_free] of a header that is in no list. *)
Lemma shape_forget hs l m bs fl x :
  shape o s e fh m bs fl -> x ∈ starts s bs -> x ∉ fl ->
  exists m', free_forget x (hs, (l, m)) = Ok tt (hs, (l, m')) /\ shape o s e fh m' bs fl /\ changes 0 24 (headers s e fh bs) m m'.
Proof.
  intros H Hx Hnx. apply starts_range in Hx as Rx; [|apply H]. pose proof (sh_items _ _ _ _ _ _ _ H) as (_ & He & _).
  pose proof (shape_spaced _ _ _ H) as Hs. pose proof (shape_fh _ _ _ H) as Hf.
  assert (x ∈ headers s e fh bs) as Jx by (unfold headers; set_solver).
  assert (mapped m x 24) as Mx by (apply (mapped_in m s (e + 24 - s)); [apply H|lia..]).
  unfold free_forget, next_free, prev_free. run_step (run_st hs l m (x + 16) 0 ltac:(apply (mapped_in m x 24); [done|lia..])).
  rewrite (run_st hs l _ (x + 20) 0) by (apply mapped_set_bytes, (mapped_in m x 24); [done|lia..]).
  eexists. split; [reflexivity|].
  assert (changes 16 24 [x] m (put32 (x + 20) 0 (put32 (x + 16) 0 m))) as C.
  { do 2 (apply (changes_put _ _ _ _ _ _ _ x); [|by left|lia..]). apply changes_refl. }
  split; [|apply (changes_weaken _ _ _ _ _ _ _ _ C); [lia|lia|set_solver]].
  apply (shape_free_step m _ bs fl fl [x]); [done|done|set_solver| |apply H|apply H].
  unfold free_chain. rewrite app_comm_cons. apply (chain_apart [x] m); [by apply (changes_weaken _ _ _ _ _ _ _ _ C)| |apply H].
  intros y z ->%list_elem_of_singleton Hz. assert (z ∈ fh :: fl) as Hz' by set_solver.
  destruct (Hs x z Jx (shape_members _ _ _ _ H Hz')) as [<-|?]; [|done].
  apply elem_of_cons in Hz' as [->|?]; done.
Qed.

(** A step on the block part. *)
Lemma shape_block_step m m' bs bs' fl X :
  shape o s e fh m bs fl -> changes 0 16 X m m' -> items_to m' o s e s bs' e -> Forall item_ok bs' ->
  spaced (X ++ headers s e fh bs) -> (forall x, x ∈ fl -> x ∈ starts s bs') -> shape o s e fh m' bs' fl.
Proof.
  intros H C HI Hok Hs Hf. pose proof (fun x => shape_members _ _ _ x H) as Hin.
  destruct H as [_ _ Hc _ ? Hm Hb ? ?]. split; try done; [|apply C, Hm|apply C, Hb].
  unfold free_chain in *. rewrite app_comm_cons in *. apply (chain_changes m m' X); [done| |done].
  apply (spaced_sub _ _) with (2 := Hs). intros x [Hx|[Hx|Hx]%elem_of_app]%elem_of_app.
  - apply elem_of_app. by left.
  - apply elem_of_app. right. by apply Hin.
  - apply elem_of_app. right. apply list_elem_of_singleton in Hx as ->. left.
Qed.

Lemma mh_shape_at m pre b post fl :
  shape o s e fh m (pre ++ b :: post) fl -> let p := s + span pre in
  Forall item_ok pre /\ item_ok b /\ Forall item_ok post /\ 0 <= span pre /\ 0 <= span post /\ p + b_size b + span post = e /\
  item_at m o p (b_used b) (p + b_size b) (last_off e s pre) /\
  item_at m o (p + b_size b) (head_used post) (match post with [] => s | c :: _ => p + b_size b + b_size c end) p.
Proof.
  intros H p. destruct (items_bounds o s e e _ _ _ _ (sh_items _ _ _ _ _ _ _ H) (sh_ok _ _ _ _ _ _ _ H)) as (? & ? & ? & ? & ? & ?).
  destruct (items_at o s e e _ _ _ _ (sh_items _ _ _ _ _ _ _ H)) as (_ & ? & Hf). apply items_to_front in Hf. done.
Qed.

(** The header behind a list of items is one of the headers. *)
Lemma front_header p post e' : p + span post = e' -> p ∈ starts p post ++ [e'].
Proof. destruct post as [|c post]; simpl; [|left]. rewrite Z.add_0_r. intros ->. left. Qed.

Lemma header_at pre b post :
  s + span (pre ++ b :: post) = e ->
  s + span pre ∈ starts s (pre ++ b :: post) /\ s + span pre + b_size b ∈ headers s e fh (pre ++ b :: post).
Proof.
  intros He. rewrite span_app in He. cbn [span foldr] in He. fold (span post) in He.
  unfold headers. rewrite starts_app. cbn [starts]. split; [set_solver|].
  right. rewrite <- app_assoc. apply elem_of_app. right. cbn [app]. right. apply front_header. lia.
Qed.

Lemma shape_split hs l m pre b post fl k :
  shape o s e fh m (pre ++ b :: post) fl -> item_ok (mk_blk k true) -> item_ok (mk_blk (b_size b - k) false) ->
  let bs' := pre ++ mk_blk k (b_used b) :: mk_blk (b_size b - k) false :: post in
  exists m', split_item o (s + span pre) (s + span pre + k) (hs, (l, m)) = Ok tt (hs, (l, m')) /\
    shape o s e fh m' bs' fl /\ changes 0 24 (headers s e fh bs') m m'.
Proof.
  intros H [K1 K2] [K3 K4] bs'. cbn [b_size] in *. pose proof (sh_space _ _ _ _ _ _ _ H) as Sp.
  destruct (run_split_item o s e e hs l m pre b post k) as (m' & E & HI & C); try apply H; [lia..|].
  destruct (mh_shape_at _ _ _ _ _ H) as (Ok1 & Ok2 & Ok3 & _ & _ & He & _).
  assert (Forall item_ok bs') as Hok by (unfold bs'; apply Forall_app; split; [done|]; repeat constructor; done).
  assert (s + span bs' = e) as He' by (unfold bs'; rewrite span_app; simpl; fold (span post); lia).
  assert (forall x, x ∈ headers s e fh (pre ++ b :: post) -> x ∈ headers s e fh bs') as Hsub.
  { unfold headers, bs'. rewrite !starts_app. cbn [starts b_size]. replace (s + span pre + k + (b_size b - k)) with (s + span pre + b_size b) by lia.
    clear. set_solver. }
  assert (forall x, x ∈ [s + span pre; s + span pre + k; s + span pre + b_size b] -> x ∈ headers s e fh bs') as HX.
  { destruct (header_at pre b post) as [J1 J2]; [rewrite span_app; simpl; fold (span post); lia|].
    intros x [->|[->|[->|[]%elem_of_nil]%elem_of_cons]%elem_of_cons]%elem_of_cons.
    - apply Hsub. unfold headers. clear -J1. set_solver.
    - unfold headers, bs'. rewrite starts_app. cbn [starts b_size]. clear. set_solver.
    - by apply Hsub. }
  exists m'. split; [done|]. split; [|by apply (changes_weaken _ _ _ _ _ _ _ _ C)].
  apply (shape_block_step m m' _ _ _ _ H C HI Hok).
  - apply (spaced_sub _ (headers s e fh bs')); [|apply headers_spaced; [done|done|lia]].
    intros x [Hx|Hx]%elem_of_app; [by apply HX|by apply Hsub].
  - intros x Hx%(sh_fl _ _ _ _ _ _ _ H). revert Hx. unfold bs'. rewrite !starts_app. cbn [starts b_size].
    replace (s + span pre + k + (b_size b - k)) with (s + span pre + b_size b) by lia. clear. set_solver.
Qed.

Lemma shape_mark m pre b post fl u :
  shape o s e fh m (pre ++ b :: post) fl ->
  let m' := put32 (s + span pre) (RT_MEMHEAP_MAGIC + flag u) m in
  shape o s e fh m' (pre ++ mk_blk (b_size b) u :: post) fl /\ changes 0 24 (headers s e fh (pre ++ b :: post)) m m'.
Proof.
  intros H m'. destruct (mh_shape_at _ _ _ _ _ H) as (Ok1 & Ok2 & Ok3 & _ & _ & He & _).
  destruct (header_at pre b post) as [J1 _]; [rewrite span_app; simpl; fold (span post); lia|].
  assert (s + span pre ∈ headers s e fh (pre ++ b :: post)) as J2 by (unfold headers; clear -J1; set_solver).
  assert (changes 0 16 [s + span pre] m m') as C
    by (apply (changes_put _ _ _ _ _ _ _ (s + span pre)); [apply changes_refl|by left|lia..]).
  split; [|apply (changes_weaken _ _ _ _ _ _ _ _ C); [lia|lia|set_solver]].
  apply (shape_block_step m m' _ _ _ _ H C).
  - apply items_mark; apply H.
  - apply Forall_app. split; [done|]. by constructor.
  - apply (spaced_sub _ (headers s e fh (pre ++ b :: post))); [set_solver|by apply (shape_spaced m _ fl)].
  - intros x Hx%(sh_fl _ _ _ _ _ _ _ H). revert Hx. rewrite !starts_app. done.
Qed.

(** Two stores join an item with the one behind it. *)
Lemma shape_join m m' pre a b post fl :
  shape o s e fh m (pre ++ a :: b :: post) fl -> s + span pre + b_size a ∉ fl ->
  let p := s + span pre in let n := p + b_size a + b_size b in
  others [next p; prev n] m m' -> at32 m' (next p) n -> at32 m' (prev n) p -> changes 0 16 [p; n] m m' ->
  shape o s e fh m' (pre ++ mk_blk (b_size a + b_size b) (b_used a) :: post) fl /\
  changes 0 24 (headers s e fh (pre ++ a :: b :: post)) m m'.
Proof.
  intros H Hb p n K K1 K2 C. destruct (mh_shape_at _ _ _ _ _ H) as (Ok1 & [A1 A2] & [[B1 B2] Ok3]%Forall_cons & _ & _ & He & _).
  cbn [span foldr] in He. fold (span post) in He.
  assert (s + span (pre ++ a :: b :: post) = e) as He1 by (rewrite span_app; simpl; fold (span post); lia).
  destruct (header_at pre a (b :: post) He1) as [J1 _].
  assert (n ∈ headers s e fh (pre ++ a :: b :: post)) as J2.
  { pose proof (header_at (pre ++ [a]) b post) as J. rewrite <- app_assoc in J. cbn [app] in J. destruct (J He1) as [_ J2].
    rewrite span_app in J2. cbn [span foldr] in J2. unfold n, p. by replace (s + span pre + b_size a + b_size b) with (s + (span pre + (b_size a + 0)) + b_size b) by lia. }
  assert (forall x, x ∈ [p; n] -> x ∈ headers s e fh (pre ++ a :: b :: post)) as HX.
  { intros x [->|[->|[]%elem_of_nil]%elem_of_cons]%elem_of_cons; [unfold headers, p; clear -J1; set_solver|done]. }
  split; [|by apply (changes_weaken _ _ _ _ _ _ _ _ C)].
  apply (shape_block_step m m' _ _ _ _ H C).
  - by apply (items_join o s e e m m' pre a b post); [apply H|apply H|..].
  - apply Forall_app. split; [done|]. constructor; [|done]. split; simpl; [lia|]. Z.to_euclidean_division_equations. lia.
  - apply (spaced_sub _ (headers s e fh (pre ++ a :: b :: post))); [|by apply (shape_spaced m _ fl)].
    intros x [Hx|Hx]%elem_of_app; [by apply HX|done].
  - intros x Hx. pose proof (sh_fl _ _ _ _ _ _ _ H x Hx) as Hx'. revert Hx'. rewrite !starts_app. cbn [starts b_size].
    rewrite !Z.add_assoc. assert (x ≠ s + span pre + b_size a) as Hne by (intros ->; done). clear -Hne. set_solver.
Qed.

(** An item is taken out of the block list; the one in front takes it in. *)
Lemma shape_unlink hs l m pre a b post fl :
  let p := s + span pre in let q := p + b_size a in
  shape o s e fh m (pre ++ a :: b :: post) fl -> q ∉ fl ->
  exists m', unlink_item q (hs, (l, m)) = Ok tt (hs, (l, m')) /\
    shape o s e fh m' (pre ++ mk_blk (b_size a + b_size b) (b_used a) :: post) fl /\
    changes 0 24 (headers s e fh (pre ++ a :: b :: post)) m m'.
Proof.
  intros p q H Hq. pose proof H as H'. replace (pre ++ a :: b :: post) with ((pre ++ [a]) ++ b :: post) in H' by (by rewrite <- app_assoc).
  destruct (mh_shape_at _ _ _ _ _ H) as (_ & [A1 _] & _ & P0 & _).
  destruct (mh_shape_at _ _ _ _ _ H') as (_ & [B1 _] & _ & _ & Q0 & He & (_ & _ & Nx & Pv) & (_ & _ & _ & Nv)).
  rewrite last_off_snoc in Pv. assert (s + span (pre ++ [a]) = q) as Eq by (rewrite span_app; unfold q, p; simpl; lia).
  rewrite Eq in He, Nx, Pv, Nv. fold p in Pv, Nv. set (n := q + b_size b) in *. pose proof (sh_space _ _ _ _ _ _ _ H) as Sp.
  assert (s <= p /\ p + 36 <= q /\ q + 36 <= n /\ n <= e) as (L1 & L2 & L3 & L4) by (unfold n, q, p; lia).
  unfold unlink_item, next, prev in Nx, Pv, Nv |- *. run_step (run_ld hs l m _ _ Nx). run_step (run_ld hs l m _ _ Pv).
  run_step (run_st hs l m (n + 12) p (at32_mapped _ _ _ Nv)). set (m2 := put32 (n + 12) p m).
  assert (at32 m2 (q + 12) p) as Pv2 by (apply at32_put_ne; [lia|done]). assert (at32 m2 (q + 8) n) as Nx2 by (apply at32_put_ne; [lia|done]).
  run_step (run_ld hs l m2 _ _ Pv2). run_step (run_ld hs l m2 _ _ Nx2).
  rewrite (run_st hs l m2 (p + 8) n) by (apply mapped_set_bytes, (mapped_in m s (e + 24 - s)); [apply H|lia..]).
  eexists. split; [reflexivity|]. apply (shape_join m _ pre a b post fl H); fold p q n; [done|..].
  - apply others_put, others_put, others_nil.
  - apply at32_put. lia.
  - apply at32_put_ne; [unfold prev; lia|]. apply at32_put. lia.
  - apply (changes_put _ _ _ _ _ _ _ p); [|left|lia..]. apply (changes_put _ _ _ _ _ _ _ n); [apply changes_refl|right; left|lia..].
Qed.

(** The free item behind an item is absorbed: its header is taken out of both
    lists. *)
Lemma shape_absorb hs l m pre a b post xs ys :
  let p := s + span pre in let q := p + b_size a in
  shape o s e fh m (pre ++ a :: b :: post) (xs ++ q :: ys) ->
  exists m', absorb p q (hs, (l, m)) = Ok tt (hs, (l, m')) /\
    shape o s e fh m' (pre ++ mk_blk (b_size a + b_size b) (b_used a) :: post) (xs ++ ys) /\
    changes 0 24 (headers s e fh (pre ++ a :: b :: post)) m m'.
Proof.
  intros p q H. set (bs := pre ++ a :: b :: post) in *. set (bs' := pre ++ mk_blk _ _ :: post).
  destruct (mh_shape_at _ _ _ _ _ H) as (Ok1 & [A1 A2] & [[B1 B2] Ok3]%Forall_cons & P0 & _ & He & _).
  cbn [span foldr] in He. fold (span post) in He. pose proof (item_ok_span _ Ok3) as Q0.
  assert (bs = (pre ++ [a]) ++ b :: post) as Ebs by (unfold bs; by rewrite <- app_assoc).
  pose proof H as H2. rewrite Ebs in H2. destruct (mh_shape_at _ _ _ _ _ H2) as (_ & _ & _ & _ & _ & _ & (_ & _ & Nq & _) & (_ & _ & _ & Nn)).
  rewrite span_app in Nq, Nn. cbn [span foldr] in Nq, Nn. replace (s + (span pre + (b_size a + 0))) with q in Nq, Nn by (unfold q, p; lia).
  pose proof (sh_space _ _ _ _ _ _ _ H) as Sp. pose proof (sh_mapped _ _ _ _ _ _ _ H) as Hm. set (n := q + b_size b) in *.
  assert (p + 36 <= q /\ q + 36 <= n /\ n <= e /\ s <= p /\ n = p + b_size a + b_size b) as (L1 & L2 & L3 & L4 & En) by (unfold n, q, p; lia).
  unfold absorb. unfold next, prev in Nq, Nn |- *. run_step (run_ld hs l m _ _ Nq).
  run_step (run_st hs l m (n + 12) p (at32_mapped _ _ _ Nn)).
  assert (at32 (put32 (n + 12) p m) (q + 8) n) as Nq' by (apply at32_put_ne; [lia|done]). run_step (run_ld hs l _ _ _ Nq').
  run_step (run_st hs l (put32 (n + 12) p m) (p + 8) n ltac:(apply mapped_set_bytes, (mapped_in m s (e + 24 - s)); [done|lia..])).
  set (mj := put32 (p + 8) n (put32 (n + 12) p m)).
  assert (changes 0 16 [p; n] m mj) as Cj.
  { apply (changes_put _ _ _ _ _ _ _ p); [|left|lia..]. apply (changes_put _ _ _ _ _ _ _ n); [apply changes_refl|right; left|lia..]. }
  assert (items_to mj o s e s bs' e) as Ij.
  { apply (items_join o s e e m mj pre a b post); [apply H|apply H|..]; fold p; rewrite <- En.
    - apply others_put, others_put, others_nil.
    - apply at32_put. lia.
    - apply at32_put_ne; [unfold prev; lia|]. apply at32_put. lia. }
  pose proof (shape_spaced _ _ _ H) as Hs. pose proof (shape_nodup _ _ _ H) as Hn. pose proof (fun x => shape_members _ _ _ x H) as Hin.
  assert (forall x, x ∈ [p; n] -> x ∈ headers s e fh bs) as HX.
  { destruct (header_at (pre ++ [a]) b post) as [_ J2]; [rewrite <- Ebs; apply H|]. rewrite <- Ebs, span_app in J2. cbn [span foldr] in J2.
    replace (s + (span pre + (b_size a + 0)) + b_size b) with n in J2 by (unfold n, q, p; lia).
    destruct (header_at pre a (b :: post)) as [J1 _]; [apply H|]. fold p in J1. fold bs in J1.
    intros x [->|[->|[]%elem_of_nil]%elem_of_cons]%elem_of_cons; [unfold headers; clear -J1; set_solver|done]. }
  destruct (run_free_remove fh hs l mj xs q ys (headers s e fh bs)) as (m' & E & Hc & C); [|done| | |].
  - unfold free_chain. rewrite app_comm_cons. apply (chain_changes m mj [p; n]); [done| |rewrite <- app_comm_cons; apply H].
    apply (spaced_sub _ _) with (2 := Hs). intros x [Hx|[Hx|Hx%list_elem_of_singleton]%elem_of_app]%elem_of_app; [by apply HX|by apply Hin|subst x; left].
  - apply (spaced_sub _ _) with (2 := Hs). intros x Hx. by apply Hin.
  - intros x Hx. apply Hin. set_solver.
  - exists m'. split; [done|].
    assert (changes 0 24 (headers s e fh bs) m m') as Call.
    { apply (changes_trans _ _ _ _ mj); [by apply (changes_weaken _ _ _ _ _ _ _ _ Cj)|by apply (changes_weaken _ _ _ _ _ _ _ _ C)]. }
    split; [|done]. destruct H as [_ Hok _ Hfl Hnd _ Hb _ Ho].
    assert (forall x, x ∈ starts s bs' ++ e :: headers s e fh bs -> x ∈ headers s e fh bs) as Hsub.
    { unfold headers, bs', bs. rewrite !starts_app. cbn [starts b_size]. rewrite !Z.add_assoc. clear. set_solver. }
    split; try done.
    + destruct Ij as (I1 & I2 & I3). split_and!; [|done|].
      * apply (items_changes (headers s e fh bs) mj); [done| |done]. apply (spaced_sub _ _) with (2 := Hs). clear -Hsub. set_solver.
      * apply (item_at_changes (headers s e fh bs) mj); [done| |done]. apply (spaced_sub _ _) with (2 := Hs). clear -Hsub. set_solver.
    + unfold bs'. apply Forall_app. split; [done|]. constructor; [|done]. split; simpl; [lia|]. Z.to_euclidean_division_equations. lia.
    + intros x Hx. assert (x ≠ q) as Hne.
      { intros ->. rewrite <- Permutation_middle in Hnd. by apply NoDup_cons in Hnd as [? _]. }
      assert (x ∈ starts s bs) as Hx' by (apply Hfl; clear -Hx; set_solver). revert Hx'. unfold bs, bs'. rewrite !starts_app. cbn [starts b_size].
      rewrite !Z.add_assoc. fold p. fold q. clear -Hne. set_solver.
    + apply NoDup_app in Hnd as (? & Hd & [_ ?]%NoDup_cons). apply NoDup_app. split_and!; [done| |done]. clear -Hd. set_solver.
    + apply Call, Hm.
    + by apply Call.
Qed.
End shape.
