(* ===== verification/MemHeapSpec.v ===== *)
(** * Memory heaps: the theorems about src/memheap.c

    The invariant of a heap, what allocation, freeing and reallocation do to
    the allocations and to their data, and the allocator that tries one heap
    after the other. *)

From S2P Require Import Prelude Kernel MsgQueue Mem KString MemHeap MemHeapInv.

(** ** The invariant *)

Definition mh_end (h : rt_memheap) : Z := mh_start_addr h + mh_pool_size h - 24.

(** The heap [h] at address [o] consists of the items [bs]; the free list has
    the free items as its members, and the sizes count them. *)
Record mh_core (o : nat) (h : rt_memheap) (m : memory) (bs : list blk) (fl : list Z) : Prop := {
  mc_shape : shape o (mh_start_addr h) (mh_end h) (mh_free_header h) m bs fl;
  mc_fl : fl ≡ₚ frees (mh_start_addr h) bs;
  mc_list : mh_free_list h = mh_free_header h;
  mc_available : mh_available_size h = free_size bs;
  mc_max : mh_pool_size h - mh_available_size h <= mh_max_used_size h
}.

(** Between two operations: no two free neighbours, and the lock is free. *)
Record mh_inv (o : nat) (h : rt_memheap) (m : memory) (bs : list blk) : Prop := {
  mi_core : exists fl, mh_core o h m bs fl;
  mi_merged : merged bs;
  mi_lock : mh_lock h = 1
}.

(** What an operation on the heap [h] leaves alone: everything outside of the
    area of the heap and of the header of its free list, and the data of the
    allocations in [l]. *)
Definition outside (h : rt_memheap) (m m' : memory) : Prop :=
  forall a, a < mh_start_addr h \/ mh_start_addr h + mh_pool_size h <= a -> a < mh_free_header h \/ mh_free_header h + 24 <= a ->
    m' !! a = m !! a.
Definition kept (l : list (Z * Z)) (m m' : memory) : Prop :=
  forall q n i, (q, n) ∈ l -> 0 <= i < n -> m' !! (q + i) = m !! (q + i).

(** The fields of a heap that never change. *)
Record same_heap (h h' : rt_memheap) : Prop := {
  sm_start : mh_start_addr h' = mh_start_addr h;
  sm_pool : mh_pool_size h' = mh_pool_size h;
  sm_header : mh_free_header h' = mh_free_header h
}.

#[global] Instance same_heap_preorder : PreOrder same_heap.
Proof. split; [by split|]. intros a b c [] []. split; congruence. Qed.

Lemma core_pool o h m bs fl : mh_core o h m bs fl -> span bs + 24 = mh_pool_size h.
Proof. intros H. pose proof (sh_items _ _ _ _ _ _ _ (mc_shape _ _ _ _ _ H)) as (_ & He & _). unfold mh_end in He. lia. Qed.

(** Changes to headers of the items [bs] are changes inside of the heap. *)
Lemma changes_outside h m m' bs :
  Forall item_ok bs -> mh_start_addr h + span bs = mh_end h ->
  changes 0 24 (headers (mh_start_addr h) (mh_end h) (mh_free_header h) bs) m m' -> outside h m m'.
Proof.
  intros Hok He C a H1 H2. apply (ch_same _ _ _ _ _ C). unfold mh_end in *. pose proof (item_ok_span _ Hok).
  intros x [->|[Hx| ->%list_elem_of_singleton]%elem_of_app]%elem_of_cons; [lia| |lia].
  apply starts_range in Hx; [lia|done].
Qed.

Lemma changes_kept s e fh m m' bs l :
  Forall item_ok bs -> s + span bs = e -> fh + 24 <= s \/ e + 24 <= fh -> changes 0 24 (headers s e fh bs) m m' ->
  (forall q n, (q, n) ∈ l -> (q, n) ∈ allocs s bs) -> kept l m m'.
Proof.
  intros Hok He Hf C Hl q n i Hq%Hl Hi. apply (ch_same _ _ _ _ _ C).
  pose proof (allocs_range _ _ _ _ Hok Hq) as (R1 & _ & R2 & _).
  intros x [->|[Hx| ->%list_elem_of_singleton]%elem_of_app]%elem_of_cons; [lia| |lia].
  destruct (allocs_headers s bs q n x Hok Hq); [by left|lia..].
Qed.

(** ** Single statements *)

Lemma run_memitem_size hs l m o s e fh bs fl pre b post :
  shape o s e fh m bs fl -> bs = pre ++ b :: post ->
  MEMITEM_SIZE (s + span pre) (hs, (l, m)) = Ok (b_size b - 24) (hs, (l, m)).
Proof.
  intros H ->. destruct (mh_shape_at _ _ _ _ _ _ _ _ _ H) as (Ok1 & [B _] & Ok3 & P0 & Q0 & He & (_ & _ & Hn & _) & _).
  pose proof (sh_space _ _ _ _ _ _ _ H). unfold MEMITEM_SIZE. run_step (run_ld hs l m _ _ Hn).
  change RT_MEMHEAP_SIZE with 24. replace (s + span pre + b_size b - (s + span pre) - 24) with (b_size b - 24) by lia.
  by rewrite u32_small by lia.
Qed.

Lemma magic_used u : Z.land (RT_MEMHEAP_MAGIC + flag u) RT_MEMHEAP_USED = flag u.
Proof. by destruct u. Qed.

Lemma magic_mask u : Z.land (RT_MEMHEAP_MAGIC + flag u) RT_MEMHEAP_MASK = RT_MEMHEAP_MAGIC.
Proof. by destruct u. Qed.

Lemma run_is_used hs l m o p u nx pv : item_at m o p u nx pv -> IS_USED p (hs, (l, m)) = Ok u (hs, (l, m)).
Proof. intros (H & _). unfold IS_USED. run_step (run_ld hs l m _ _ H). rewrite magic_used. by destruct u. Qed.

Lemma run_mh_take hs s o h : hs !! o = Some h -> mh_lock h = 1 -> mh_take o (hs, s) = Ok tt (<[o := set_mh_lock 0 h]> hs, s).
Proof. intros Ho Hl. unfold mh_take. run_step (run_get_obj hs s o h Ho). by rewrite Hl. Qed.

Lemma run_mh_release hs (s : list nat * memory) o h :
  hs !! o = Some h -> mh_release o (hs, s) = Ok tt (<[o := set_mh_lock (mh_lock h + 1) h]> hs, s).
Proof. intros Ho. unfold mh_release. by rewrite (run_upd_obj hs s o _ h Ho). Qed.

(** ** Allocation *)

(** The request as a number. *)
Lemma request_ok size : 0 <= size <= 2 ^ 32 - 4 -> 12 <= request size /\ size <= request size < 2 ^ 32 /\ request size mod 4 = 0.
Proof.
  intros Hs. destruct (align_4 size Hs) as [H1 H2]. unfold request. change RT_MEMHEAP_MINIALLOC with 12.
  assert (RT_ALIGN size RT_ALIGN_SIZE < 2 ^ 32) by (Z.to_euclidean_division_equations; lia).
  destruct (Z.ltb_spec (RT_ALIGN size RT_ALIGN_SIZE) 12); [split_and!; done || lia|split_and!; done || lia].
Qed.

(** The address of an item determines it. *)
Lemma item_unique pre b post pre' b' post' :
  pre ++ b :: post = pre' ++ b' :: post' -> Forall item_ok (pre ++ b :: post) -> span pre = span pre' ->
  pre = pre' /\ b = b' /\ post = post'.
Proof.
  revert pre'. induction pre as [|a pre IH]; intros [|a' pre'] E Hok Es.
  - by injection E as -> ->.
  - rewrite E in Hok. apply Forall_app in Hok as [[[? _] Hp]%Forall_cons _]. pose proof (item_ok_span _ Hp).
    cbn [span foldr] in Es. fold (span pre') in Es. lia.
  - apply Forall_app in Hok as [[[? _] Hp]%Forall_cons _]. pose proof (item_ok_span _ Hp).
    cbn [span foldr] in Es. fold (span pre) in Es. lia.
  - injection E as -> E. apply Forall_cons in Hok as [_ Hok]. cbn [span foldr] in Es. fold (span pre) (span pre') in Es.
    destruct (IH pre' E Hok) as (-> & -> & ->); [lia|done].
Qed.

(** The loop finds the first member of the free list that is large enough. *)
Lemma run_search hs l m o s e fh bs fl size ys : forall fuel f,
  shape o s e fh m bs fl -> (forall y, y ∈ ys -> y ∈ frees s bs) -> chain m (ys ++ [fh]) -> fh ∉ ys ->
  (length ys <= fuel)%nat -> f < size ->
  exists r, search fuel fh (default fh (head ys)) f size (hs, (l, m)) = Ok r (hs, (l, m)) /\
    ((r.2 < size /\ forall pre b post, bs = pre ++ b :: post -> s + span pre ∈ ys -> b_size b - 24 < size) \/
     (exists pre b post, bs = pre ++ b :: post /\ b_used b = false /\ r.1 = s + span pre /\ s + span pre ∈ ys /\
        r.2 = b_size b - 24 /\ size <= r.2)).
Proof.
  induction ys as [|y ys IH]; intros fuel f H Hin Hc Hf Hlen Hfs; cbn [head from_option id] in *.
  - exists (fh, f). split; [destruct fuel; simpl; by rewrite Z.eqb_refl|]. left. split; [done|]. by intros ? ? ? _ ?%elem_of_nil.
  - destruct fuel as [|fuel]; [simpl in Hlen; lia|]. cbn [search].
    rewrite (proj2 (Z.eqb_neq y fh)) by (intros ->; apply Hf; left). rewrite (proj2 (Z.ltb_lt f size)) by done. cbn [negb andb].
    destruct (frees_at s bs y (Hin y ltac:(left))) as (pre & b & post & Ebs & Hu & Ey).
    pose proof (run_memitem_size hs l m o s e fh bs fl pre b post H Ebs) as Es. rewrite <- Ey in Es. run_step Es.
    destruct (Z.ltb_spec (b_size b - 24) size) as [Hlt|Hge].
    + assert (exists z r, ys ++ [fh] = z :: r /\ z = default fh (head ys)) as (z & r & Ez & ->) by (destruct ys; simpl; eauto).
      cbn [app] in Hc. rewrite Ez in Hc. destruct Hc as [[Hn _] Hc]. run_step (run_ld hs l m _ _ Hn).
      change (chain m (default fh (head ys) :: r)) in Hc. rewrite <- Ez in Hc.
      destruct (IH fuel (b_size b - 24) H) as (r' & E & Hr); [set_solver|done|set_solver|simpl in Hlen; lia|done|].
      exists r'. split; [done|]. destruct Hr as [[Hr1 Hr2]|(pre' & b' & post' & ? & ? & ? & ? & ? & ?)].
      * left. split; [done|]. intros pre' b' post' Ebs' [Hy|Hy]%elem_of_cons; [|by apply (Hr2 pre' b' post')].
        assert (b' = b) as ->; [|done]. pose proof (sh_ok _ _ _ _ _ _ _ H) as Hok. rewrite Ebs in Ebs', Hok.
        destruct (item_unique _ _ _ _ _ _ Ebs' Hok) as (_ & -> & _); [lia|done].
      * right. exists pre', b', post'. split_and!; try done. by right.
    + exists (y, b_size b - 24). split.
      * assert (forall fuel', search fuel' fh y (b_size b - 24) size (hs, (l, m)) = Ok (y, b_size b - 24) (hs, (l, m))) as ->; [|done].
        intros fuel'. destruct fuel'; cbn [search]; by rewrite (proj2 (Z.ltb_ge _ _) Hge), andb_false_r.
      * right. exists pre, b, post. split_and!; try done. rewrite <- Ey. left.
Qed.

(** What becomes of an item that is taken for [size] bytes. *)
Definition cut (used : bool) (size : Z) (b : blk) : list blk :=
  if size + 36 <=? b_size b - 24 then [mk_blk (size + 24) used; mk_blk (b_size b - (size + 24)) false]
  else [mk_blk (b_size b) used].

Lemma cut_span u size b : span (cut u size b) = b_size b.
Proof. unfold cut. case_match; simpl; lia. Qed.

Lemma cut_ok u size b : item_ok b -> 12 <= size -> size mod 4 = 0 -> Forall item_ok (cut u size b).
Proof.
  intros [H1 H2] Hs H4. unfold cut. destruct (Z.leb_spec (size + 36) (b_size b - 24)); repeat constructor; simpl; try lia;
    Z.to_euclidean_division_equations; lia.
Qed.

Lemma cut_first u size b : exists k r, cut u size b = mk_blk k u :: r /\ cut true size b = mk_blk k true :: r.
Proof. unfold cut. case_match; eauto. Qed.

(** [mh_spend] with the numbers of the invariant. *)
Lemma run_mh_spend hs (s : list nat * memory) o h n :
  hs !! o = Some h -> 0 <= n <= mh_available_size h -> mh_available_size h <= mh_pool_size h < 2 ^ 32 ->
  exists mx, mh_spend o n (hs, s) = Ok tt (<[o := set_mh_sizes (mh_available_size h - n) mx h]> hs, s) /\
    mh_pool_size h - (mh_available_size h - n) <= mx.
Proof.
  intros Ho Hn Hp. unfold mh_spend. rewrite (run_upd_obj hs s o _ h Ho). rewrite !(u32_small (_ - _)) by (rewrite ?u32_small; lia).
  eexists. split; [reflexivity|]. case_match; lia.
Qed.

Lemma run_mh_give hs (s : list nat * memory) o h n :
  hs !! o = Some h -> 0 <= mh_available_size h + n < 2 ^ 32 ->
  mh_give o n (hs, s) = Ok tt (<[o := set_mh_sizes (mh_available_size h + n) (mh_max_used_size h) h]> hs, s).
Proof. intros Ho Hn. unfold mh_give. by rewrite (run_upd_obj hs s o _ h Ho), u32_small. Qed.

(** Numbers of a heap in its invariant. *)
Lemma core_numbers o h m bs fl : mh_core o h m bs fl ->
  0 <= mh_available_size h <= span bs /\ span bs + 24 = mh_pool_size h /\ 0 <= mh_start_addr h /\ mh_start_addr h + mh_pool_size h < 2 ^ 32.
Proof.
  intros H. pose proof (core_pool _ _ _ _ _ H). destruct (mc_shape _ _ _ _ _ H). pose proof (free_size_bounds bs sh_ok).
  rewrite (mc_available _ _ _ _ _ H). unfold mh_end in *. lia.
Qed.

(** A member of the free list, and the rest of the list. *)
Lemma core_member o h m pre b post fl :
  mh_core o h m (pre ++ b :: post) fl -> b_used b = false -> let s := mh_start_addr h in
  exists xs ys, fl = xs ++ (s + span pre) :: ys /\ (s + span pre ∉ xs ++ ys) /\
    xs ++ ys ≡ₚ frees s pre ++ frees (s + span pre + b_size b) post.
Proof.
  intros H Hu s. pose proof (mc_fl _ _ _ _ _ H) as Hf. rewrite frees_app in Hf. cbn [frees] in Hf. rewrite Hu in Hf. cbn [app] in Hf.
  fold s in Hf. assert (s + span pre ∈ fl) as (xs & ys & ->)%list_elem_of_split by (rewrite Hf; set_solver).
  exists xs, ys. split; [done|]. split.
  - pose proof (sh_nodup _ _ _ _ _ _ _ (mc_shape _ _ _ _ _ H)) as Hn. rewrite <- Permutation_middle in Hn. by apply NoDup_cons in Hn as [? _].
  - apply (Permutation_cons_inv (a := s + span pre)). rewrite Permutation_middle, Hf. symmetry. apply Permutation_middle.
Qed.

(** The numbers around one item. *)
Lemma mh_core_at o h m pre b post fl :
  mh_core o h m (pre ++ b :: post) fl -> let s := mh_start_addr h in
  Forall item_ok pre /\ item_ok b /\ Forall item_ok post /\ (0 <= s /\ 0 <= span pre /\ 0 <= span post) /\
  s + span pre + b_size b + span post = mh_end h /\ mh_end h + 24 = s + mh_pool_size h /\ s + mh_pool_size h < 2 ^ 32 /\
  mh_available_size h = free_size pre + (if b_used b then 0 else b_size b - 24) + free_size post /\
  0 <= free_size pre <= span pre /\ 0 <= free_size post <= span post.
Proof.
  intros H s. destruct (mh_shape_at _ _ _ _ _ _ _ _ _ (mc_shape _ _ _ _ _ H)) as (Ok1 & Okb & Ok3 & P0 & Q0 & He & _).
  destruct (core_numbers _ _ _ _ _ H) as (_ & _ & N3 & N4). pose proof (free_size_bounds _ Ok1). pose proof (free_size_bounds _ Ok3).
  pose proof (mc_available _ _ _ _ _ H) as Ha. rewrite free_size_app in Ha. cbn [free_size foldr] in Ha. fold (free_size post) in Ha.
  unfold mh_end in *. fold s in He, N3, N4 |- *. split_and!; done || lia.
Qed.

(** A take of [size] bytes has brought the lists and the sizes to this. *)
Definition took (hs : gmap nat rt_memheap) (l : list nat) (o : nat) (h : rt_memheap) (m : memory) (bs1 bs2 : list blk)
    (r : res mh_state unit) : Prop :=
  exists mx m' fl', r = Ok tt (<[o := set_mh_sizes (free_size bs2) mx h]> hs, (l, m')) /\
    shape o (mh_start_addr h) (mh_end h) (mh_free_header h) m' bs1 fl' /\ fl' ≡ₚ frees (mh_start_addr h) bs2 /\
    mh_pool_size h - free_size bs2 <= mx /\ changes 0 24 (headers (mh_start_addr h) (mh_end h) (mh_free_header h) bs2) m m'.

(** Of a large item the end comes back to the free list. *)
Lemma run_take_split hs l o h m pre b post fl size :
  hs !! o = Some h -> mh_core o h m (pre ++ b :: post) fl -> b_used b = false ->
  12 <= size -> size mod 4 = 0 -> size + 36 <= b_size b - 24 ->
  let p := mh_start_addr h + span pre in let q := p + (size + 24) in
  let cut u := pre ++ mk_blk (size + 24) u :: mk_blk (b_size b - (size + 24)) false :: post in
  took hs l o h m (cut false) (cut true)
    ((split_item o p q;; free_remove p;; free_forget p;; free_insert o q;; mh_spend o (size + 24)) (hs, (l, m))).
Proof.
  intros Ho H Hu Hs1 Hs4 Hsplit p q cut. destruct (core_member _ _ _ _ _ _ _ H Hu) as (xs & ys & -> & Hnot & Hperm).
  destruct (mh_core_at _ _ _ _ _ _ _ H) as (Ok1 & [B1 B4] & Ok3 & P & He & Hend & Hpool & Ha & F1 & F2). rewrite Hu in Ha.
  pose proof (mc_shape _ _ _ _ _ H) as Sh. unfold took. set (s := mh_start_addr h) in *. set (e := mh_end h) in *. set (fh := mh_free_header h) in *.
  destruct (shape_split o s e fh hs l m pre b post (xs ++ p :: ys) (size + 24) Sh) as (m1 & E1 & S1 & C1).
  { split; simpl; [lia|]. Z.to_euclidean_division_equations. lia. }
  { split; simpl; [lia|]. Z.to_euclidean_division_equations. lia. }
  rewrite Hu in S1, C1. fold (cut false) in S1, C1. run_step E1.
  destruct (shape_remove o s e fh hs l m1 (cut false) xs p ys S1) as (m2 & E2 & S2 & C2). run_step E2.
  assert (p ∈ starts s (cut false)) as J1 by (unfold cut; rewrite starts_app; cbn [starts]; clear; set_solver).
  assert (q ∈ starts s (cut false)) as J2 by (unfold cut; rewrite starts_app; cbn [starts b_size]; clear; set_solver).
  destruct (shape_forget o s e fh hs l m2 (cut false) (xs ++ ys) p S2 J1 Hnot) as (m3 & E3 & S3 & C3). run_step E3.
  assert (q ∉ xs ++ ys) as Hq.
  { intros Hq. rewrite Hperm in Hq. unfold q, p in Hq. apply elem_of_app in Hq as [Hq%frees_starts|Hq%frees_starts]; apply starts_range in Hq; try done; lia. }
  destruct (shape_insert o s e fh hs l m3 (cut false) (xs ++ ys) q h S3 Ho (mc_list _ _ _ _ _ H) J2 Hq) as (m4 & E4 & S4 & C4).
  run_step E4. destruct (run_mh_spend hs (l, m4) o h (size + 24) Ho) as (mx & E5 & Hmx); [lia..|]. rewrite E5.
  assert (mh_available_size h - (size + 24) = free_size (cut true)) as Ef.
  { unfold cut. rewrite free_size_app. cbn [free_size foldr b_used b_size]. fold (free_size post). lia. }
  rewrite Ef in *. exists mx, m4, (q :: xs ++ ys). split; [reflexivity|]. split; [exact S4|]. split; [|split; [done|]].
  - unfold cut. rewrite frees_app. cbn [frees b_used b_size app]. rewrite Hperm.
    replace (s + span pre + (size + 24) + (b_size b - (size + 24))) with (s + span pre + b_size b) by lia. apply Permutation_middle.
  - assert (headers s e fh (cut true) = headers s e fh (cut false)) as -> by (unfold headers, cut; by rewrite !starts_app).
    by repeat (eapply changes_trans; [eassumption|]).
Qed.

Lemma run_take_whole hs l o h m pre b post fl :
  hs !! o = Some h -> mh_core o h m (pre ++ b :: post) fl -> b_used b = false ->
  let p := mh_start_addr h + span pre in
  took hs l o h m (pre ++ b :: post) (pre ++ mk_blk (b_size b) true :: post)
    ((mh_spend o (b_size b - 24);; free_remove p;; free_forget p) (hs, (l, m))).
Proof.
  intros Ho H Hu p. destruct (core_member _ _ _ _ _ _ _ H Hu) as (xs & ys & -> & Hnot & Hperm).
  destruct (mh_core_at _ _ _ _ _ _ _ H) as (Ok1 & [B1 B4] & Ok3 & P & He & Hend & Hpool & Ha & F1 & F2). rewrite Hu in Ha.
  pose proof (mc_shape _ _ _ _ _ H) as Sh. unfold took. set (s := mh_start_addr h) in *. set (e := mh_end h) in *. set (fh := mh_free_header h) in *.
  destruct (run_mh_spend hs (l, m) o h (b_size b - 24) Ho) as (mx & E5 & Hmx); [lia..|]. run_step E5.
  assert (mh_available_size h - (b_size b - 24) = free_size (pre ++ mk_blk (b_size b) true :: post)) as Ef.
  { rewrite free_size_app. cbn [free_size foldr b_used b_size]. fold (free_size post). lia. }
  rewrite Ef in *. set (hs1 := <[o := _]> hs).
  destruct (shape_remove o s e fh hs1 l m (pre ++ b :: post) xs p ys Sh) as (m2 & E2 & S2 & C2). run_step E2.
  assert (p ∈ starts s (pre ++ b :: post)) as J1 by (rewrite starts_app; cbn [starts]; clear; set_solver).
  destruct (shape_forget o s e fh hs1 l m2 _ (xs ++ ys) p S2 J1 Hnot) as (m3 & E3 & S3 & C3). rewrite E3.
  exists mx, m3, (xs ++ ys). split; [reflexivity|]. split; [exact S3|]. split; [|split; [done|]].
  - rewrite frees_app. cbn [frees b_used b_size app]. done.
  - assert (headers s e fh (pre ++ mk_blk (b_size b) true :: post) = headers s e fh (pre ++ b :: post)) as ->
      by (unfold headers; by rewrite !starts_app).
    by apply (changes_trans _ _ _ _ m2).
Qed.

(** Taking an item and marking it used. *)
Lemma run_take_item hs l o h m pre b post fl size :
  hs !! o = Some h -> mh_core o h m (pre ++ b :: post) fl -> b_used b = false ->
  12 <= size -> size mod 4 = 0 -> size <= b_size b - 24 ->
  took hs l o h m (pre ++ cut false size b ++ post) (pre ++ cut true size b ++ post)
    (take_item o (mh_start_addr h + span pre) (b_size b - 24) size (hs, (l, m))).
Proof.
  intros Ho H Hu Hs1 Hs4 Hle. destruct (mh_core_at _ _ _ _ _ _ _ H) as (_ & [B1 B4] & _ & P & He & Hend & Hpool & _).
  unfold take_item. change RT_MEMHEAP_SIZE with 24. change RT_MEMHEAP_MINIALLOC with 12.
  rewrite (u32_small (size + 24 + 12)) by lia. replace (size + 24 + 12) with (size + 36) by lia.
  unfold cut. destruct (Z.leb_spec (size + 36) (b_size b - 24)) as [Hsplit|Hwhole]; cbn [app].
  - rewrite u32_small by lia. replace (mh_start_addr h + span pre + size + 24) with (mh_start_addr h + span pre + (size + 24)) by lia.
    by apply run_take_split with (fl := fl).
  - replace (mk_blk (b_size b) false) with b by (destruct b; simpl in *; by subst). by apply run_take_whole with (fl := fl).
Qed.

Lemma magic_or u : Z.lor (RT_MEMHEAP_MAGIC + flag u) RT_MEMHEAP_USED = RT_MEMHEAP_MAGIC + flag true.
Proof. by destruct u. Qed.

Lemma merged_cut pre b post size : merged (pre ++ b :: post) -> b_used b = false -> merged (pre ++ cut true size b ++ post).
Proof.
  intros H Hu. unfold cut. case_match.
  - by apply (merged_replace _ b _ (mk_blk (size + 24) true) (Some (mk_blk (b_size b - (size + 24)) false))).
  - by apply (merged_replace _ b _ (mk_blk (b_size b) true) None).
Qed.

(** The items hold no free item for [size] bytes. *)
Definition no_room (size : Z) (bs : list blk) : Prop := forall b, b ∈ bs -> b_used b = false -> b_size b - 24 < size.

(** What a call of [rt_memheap_alloc] amounts to. *)
Definition allocated (o : nat) (h : rt_memheap) (m : memory) (bs : list blk) (size : Z) (r : option Z) (h' : rt_memheap) (m' : memory) : Prop :=
  match r with
  | None => h' = h /\ m' = m /\ (mh_available_size h <= request size \/ no_room (request size) bs)
  | Some q => exists pre b post, bs = pre ++ b :: post /\ b_used b = false /\ request size <= b_size b - 24 /\
      q = mh_start_addr h + span pre + 24 /\ same_heap h h' /\ let bs' := pre ++ cut true (request size) b ++ post in
      mh_inv o h' m' bs' /\ changes 0 24 (headers (mh_start_addr h) (mh_end h) (mh_free_header h) bs') m m'
  end.

Lemma search_fuel_enough o h m bs fl : mh_core o h m bs fl -> (length fl <= search_fuel h)%nat.
Proof.
  intros H. pose proof (core_pool _ _ _ _ _ H). pose proof (item_ok_span bs (sh_ok _ _ _ _ _ _ _ (mc_shape _ _ _ _ _ H))).
  rewrite (mc_fl _ _ _ _ _ H). assert (length (frees (mh_start_addr h) bs) <= length bs)%nat.
  { generalize (mh_start_addr h). clear. induction bs as [|b bs IH]; intros p; simpl; [done|].
    specialize (IH (p + b_size b)). rewrite length_app. destruct (b_used b); simpl; lia. }
  unfold search_fuel. assert (Z.of_nat (length bs) <= mh_pool_size h / 36) by (apply Z.div_le_lower_bound; lia). lia.
Qed.

(** From the search on, with the lock taken. *)
Lemma run_alloc_found hs l o h m bs fl size r :
  hs !! o = Some h -> mh_core o h m bs fl -> merged bs -> mh_lock h = 0 -> 12 <= size -> size mod 4 = 0 ->
  (exists pre b post, bs = pre ++ b :: post /\ b_used b = false /\ r = (mh_start_addr h + span pre, b_size b - 24) /\ size <= b_size b - 24) ->
  exists h' m', (take_item o r.1 r.2 size;; magic ← ld r.1; st r.1 (Z.lor magic RT_MEMHEAP_USED);; mh_release o) (hs, (l, m))
      = Ok tt (<[o := h']> hs, (l, m')) /\
    exists pre b post, bs = pre ++ b :: post /\ b_used b = false /\ size <= b_size b - 24 /\ r.1 = mh_start_addr h + span pre /\ same_heap h h' /\
      let bs' := pre ++ cut true size b ++ post in
      mh_inv o h' m' bs' /\ changes 0 24 (headers (mh_start_addr h) (mh_end h) (mh_free_header h) bs') m m'.
Proof.
  intros Ho H Hm Hl Hs Hs4 (pre & b & post & -> & Hu & -> & Hle). cbn [fst snd].
  destruct (run_take_item hs l o h m pre b post fl size Ho H Hu Hs Hs4 Hle) as (mx & m1 & fl1 & E1 & S1 & Hf1 & Hmx & C1).
  run_step E1. set (h1 := set_mh_sizes _ mx h). set (hs1 := <[o := h1]> hs).
  destruct (cut_first false size b) as (k & r & Ec & Ec'). rewrite Ec in S1. rewrite Ec' in *. cbn [app] in *.
  destruct (mh_shape_at _ _ _ _ _ _ _ _ _ S1) as (_ & _ & _ & _ & _ & _ & (Hmag & _) & _).
  run_step (run_ld hs1 l m1 _ _ Hmag). rewrite magic_or.
  run_step (run_st hs1 l m1 _ (RT_MEMHEAP_MAGIC + flag true) (at32_mapped _ _ _ Hmag)).
  destruct (shape_mark _ _ _ _ _ _ _ _ _ true S1) as [S2 C2]. set (m2 := put32 _ _ m1) in *.
  rewrite (run_mh_release hs1 (l, m2) o h1) by apply lookup_insert_eq. unfold hs1. rewrite insert_insert_eq.
  eexists _, m2. split; [reflexivity|]. exists pre, b, post. split_and!; try done.
  - rewrite Ec'. split; [|by rewrite <- Ec'; apply merged_cut|simpl; lia]. exists fl1. split; simpl; try done; [apply (mc_list _ _ _ _ _ H)|by rewrite Ec'..].
  - rewrite Ec'. cbn [app]. eapply changes_trans; [exact C1|].
    assert (headers (mh_start_addr h) (mh_end h) (mh_free_header h) (pre ++ mk_blk k true :: r ++ post)
      = headers (mh_start_addr h) (mh_end h) (mh_free_header h) (pre ++ mk_blk k false :: r ++ post)) as ->; [|exact C2].
    unfold headers. by rewrite !starts_app.
Qed.

Lemma core_lock o h m bs fl v : mh_core o h m bs fl -> mh_core o (set_mh_lock v h) m bs fl.
Proof. by intros []. Qed.

Lemma set_lock_back h : mh_lock h = 1 -> set_mh_lock (mh_lock (set_mh_lock 0 h) + 1) (set_mh_lock 0 h) = h.
Proof. destruct h; simpl. by intros ->. Qed.

Lemma run_memheap_alloc hs l o h m bs size :
  hs !! o = Some h -> mh_inv o h m bs -> 0 <= size <= 2 ^ 32 - 4 ->
  exists r h' m', rt_memheap_alloc o size (hs, (l, m)) = Ok r (<[o := h']> hs, (l, m')) /\ allocated o h m bs size r h' m'.
Proof.
  intros Ho [[fl H] Hm Hl] Hs. destruct (request_ok size Hs) as (R1 & R2 & R3).
  unfold rt_memheap_alloc. run_step (run_get_obj hs (l, m) o h Ho).
  destruct (Z.ltb_spec (request size) (mh_available_size h)) as [Hav|Hav].
  2:{ exists None, h, m. rewrite insert_id by done. split; [reflexivity|]. split_and!; [done..|by left]. }
  run_step (run_mh_take hs (l, m) o h Ho Hl). set (h0 := set_mh_lock 0 h). set (hs0 := <[o := h0]> hs).
  pose proof (mc_shape _ _ _ _ _ H) as Sh. pose proof (sh_chain _ _ _ _ _ _ _ Sh) as Hc. rewrite (mc_list _ _ _ _ _ H).
  set (fh := mh_free_header h) in *.
  assert (at32 m (next_free fh) (default fh (head fl)) /\ chain m (fl ++ [fh])) as [Hn Hc'].
  { unfold free_chain in Hc. destruct fl as [|x fl]; cbn [app chain] in Hc; [by destruct Hc as [[? _] _]|].
    destruct Hc as [[? _] Hc]. by split. }
  run_step (run_ld hs0 l m _ _ Hn).
  assert (forall y, y ∈ fl -> y ∈ frees (mh_start_addr h) bs) as Hin by (intros y; by rewrite (mc_fl _ _ _ _ _ H)).
  assert (fh ∉ fl) as Hfh by (pose proof (shape_nodup _ _ _ _ _ _ _ Sh) as Hd; by apply NoDup_cons in Hd as [? _]).
  destruct (run_search hs0 l m o _ _ fh bs fl (request size) fl (search_fuel h) 0 Sh Hin Hc' Hfh (search_fuel_enough _ _ _ _ _ H) ltac:(lia))
    as (r & E & Hr). run_step E. destruct Hr as [[Hr1 Hr2]|(pre & b & post & Eb & Hu & Er1 & _ & Er2 & Hle)].
  - rewrite (proj2 (Z.leb_gt _ _) Hr1). run_step (run_mh_release hs0 (l, m) o h0 (lookup_insert_eq _ _ _)).
    unfold hs0, h0. rewrite insert_insert_eq, set_lock_back by done. exists None, h, m. split; [reflexivity|]. split_and!; [done..|]. right.
    intros b Hb Hu. apply list_elem_of_split in Hb as (pre & post & ->). apply (Hr2 pre b post eq_refl).
    rewrite (mc_fl _ _ _ _ _ H), frees_app. cbn [frees]. rewrite Hu. clear. set_solver.
  - rewrite (proj2 (Z.leb_le _ _) Hle).
    destruct (run_alloc_found hs0 l o h0 m bs fl (request size) r (lookup_insert_eq _ _ _) (core_lock _ _ _ _ _ 0 H) Hm eq_refl R1 R3)
      as (h' & m' & E2 & Hf). { exists pre, b, post. split_and!; try done; [destruct r; simpl in *; congruence|lia]. }
    apply bind_Ok_inv in E2 as ([] & s1 & F1 & E2). run_step F1. apply bind_Ok_inv in E2 as (mg & s2 & F2 & E2). run_step F2.
    apply bind_Ok_inv in E2 as ([] & s3 & F3 & E2). run_step F3. run_step E2. unfold hs0. rewrite insert_insert_eq.
    destruct Hf as (pre' & b' & post' & -> & Hu' & Hle' & Eq & Hsm & HI & HC).
    exists (Some (r.1 + RT_MEMHEAP_SIZE)), h', m'. split; [reflexivity|]. exists pre', b', post'. change RT_MEMHEAP_SIZE with 24.
    rewrite Eq. split_and!; try done. by destruct Hsm.
Qed.

(** ** Freeing *)

(** Half-way through [rt_memheap_free]: the item [b] is free, and a member of
    the free list when [listed]. *)
Record freeing (o : nat) (h : rt_memheap) (m : memory) (pre : list blk) (b : blk) (post : list blk) (fl : list Z) (listed : bool) : Prop := {
  fr_shape : shape o (mh_start_addr h) (mh_end h) (mh_free_header h) m (pre ++ b :: post) fl;
  fr_free : b_used b = false;
  fr_fl : fl ≡ₚ (if listed then [mh_start_addr h + span pre] else []) ++ frees (mh_start_addr h) pre ++
            frees (mh_start_addr h + span pre + b_size b) post;
  fr_list : mh_free_list h = mh_free_header h;
  fr_available : mh_available_size h = free_size pre + (b_size b - 24) + free_size post;
  fr_max : mh_pool_size h - mh_available_size h <= mh_max_used_size h
}.

Lemma freeing_core o h m pre b post fl : freeing o h m pre b post fl true -> mh_core o h m (pre ++ b :: post) fl.
Proof.
  intros [H Hu Hf ? Ha ?]. split; try done.
  - rewrite Hf, frees_app. cbn [frees]. rewrite Hu. cbn [app]. apply Permutation_middle.
  - rewrite Ha, free_size_app. cbn [free_size foldr]. fold (free_size post). rewrite Hu. lia.
Qed.

Lemma freeing_numbers o h m pre b post fl listed : freeing o h m pre b post fl listed ->
  36 <= b_size b /\ mh_start_addr h + span pre + b_size b + span post = mh_end h /\ 0 <= mh_start_addr h /\ mh_end h + 24 < 2 ^ 32 /\
  0 <= span pre /\ 0 <= span post /\ 0 <= free_size pre <= span pre /\ 0 <= free_size post <= span post.
Proof.
  intros [H _ _ _ _ _]. destruct (mh_shape_at _ _ _ _ _ _ _ _ _ H) as (Ok1 & [B1 _] & Ok3 & P0 & Q0 & He & _).
  pose proof (sh_space _ _ _ _ _ _ _ H). pose proof (free_size_bounds _ Ok1). pose proof (free_size_bounds _ Ok3). lia.
Qed.

(** An item that is not listed is not in the list. *)
Lemma freeing_unlisted o h m pre b post fl : freeing o h m pre b post fl false -> mh_start_addr h + span pre ∉ fl.
Proof.
  intros H Hp. pose proof (freeing_numbers _ _ _ _ _ _ _ _ H). rewrite (fr_fl _ _ _ _ _ _ _ _ H) in Hp. cbn [app] in Hp.
  destruct (mh_shape_at _ _ _ _ _ _ _ _ _ (fr_shape _ _ _ _ _ _ _ _ H)) as (Ok1 & _ & Ok3 & _).
  apply elem_of_app in Hp as [Hp%frees_starts|Hp%frees_starts]; apply starts_range in Hp; try done; lia.
Qed.

(** [heap->available_size += RT_MEMHEAP_SIZE] when two items are joined. *)
Lemma run_give_header hs (s : list nat * memory) o h m pre b post fl listed :
  hs !! o = Some h -> freeing o h m pre b post fl listed ->
  mh_give o RT_MEMHEAP_SIZE (hs, s) = Ok tt (<[o := set_mh_sizes (mh_available_size h + 24) (mh_max_used_size h) h]> hs, s).
Proof.
  intros Ho H. change RT_MEMHEAP_SIZE with 24. apply run_mh_give; [done|]. pose proof (freeing_numbers _ _ _ _ _ _ _ _ H).
  rewrite (fr_available _ _ _ _ _ _ _ _ H). lia.
Qed.

(** The item in front is free and takes the item in. *)
Lemma run_merge_left_join hs l o h m pre a b post fl :
  hs !! o = Some h -> freeing o h m (pre ++ [a]) b post fl false -> b_used a = false ->
  exists h' m', merge_left o (mh_start_addr h + span (pre ++ [a])) (hs, (l, m))
      = Ok (mh_start_addr h + span pre, false) (<[o := h']> hs, (l, m')) /\
    freeing o h' m' pre (join_blk a b) post fl true /\ same_heap h h' /\ mh_lock h' = mh_lock h /\
    changes 0 24 (headers (mh_start_addr h) (mh_end h) (mh_free_header h) ((pre ++ [a]) ++ b :: post)) m m'.
Proof.
  intros Ho H Ha. pose proof (fr_shape _ _ _ _ _ _ _ _ H) as Sh. pose proof (freeing_unlisted _ _ _ _ _ _ _ H) as Hp.
  destruct (mh_shape_at _ _ _ _ _ _ _ _ _ Sh) as (_ & [B1 _] & _ & _ & Q0 & He & (_ & _ & Nx & Pv) & (_ & _ & _ & Nv)).
  pose proof Sh as Sh'. rewrite <- app_assoc in Sh'. cbn [app] in Sh'.
  destruct (mh_shape_at _ _ _ _ _ _ _ _ _ Sh') as (_ & [A1 _] & _ & R0 & _ & _ & Ia & _). rewrite Ha in Ia.
  rewrite last_off_snoc in Pv. assert (span (pre ++ [a]) = span pre + b_size a) as Esp by (rewrite span_app; simpl; lia).
  rewrite Esp in *. set (s := mh_start_addr h) in *. rewrite Z.add_assoc in *.
  set (p0 := s + span pre) in *. set (p := p0 + b_size a) in *. set (n := p + b_size b) in *.
  assert (p0 + 36 <= p /\ p + 36 <= n /\ s <= p0 /\ n <= mh_end h) as (L1 & L2 & L3 & L4) by (unfold n, p, p0; lia).
  unfold merge_left. run_step (run_ld hs l m _ _ Pv). run_step (run_is_used hs l m _ _ _ _ _ Ia). cbn [negb].
  run_step (run_give_header hs (l, m) o h _ _ _ _ _ _ Ho H). set (h' := set_mh_sizes _ _ h). set (hs' := <[o := h']> hs).
  unfold next, prev in Nx, Pv, Nv |- *. run_step (run_ld hs' l m _ _ Nx).
  run_step (run_st hs' l m (p0 + 8) n ltac:(apply (mapped_in m s (mh_end h + 24 - s)); [apply Sh|lia..])).
  set (m1 := put32 (p0 + 8) n m).
  assert (at32 m1 (p + 8) n) as Nx1 by (apply at32_put_ne; [lia|done]). assert (at32 m1 (p + 12) p0) as Pv1 by (apply at32_put_ne; [lia|done]).
  run_step (run_ld hs' l m1 _ _ Nx1). run_step (run_ld hs' l m1 _ _ Pv1).
  run_step (run_st hs' l m1 (n + 12) p0 ltac:(by apply mapped_set_bytes, (at32_mapped _ _ _ Nv))).
  set (m2 := put32 (n + 12) p0 m1). assert (at32 m2 (p + 12) p0) as Pv2 by (apply at32_put_ne; [lia|done]). run_step (run_ld hs' l m2 _ _ Pv2).
  exists h', m2. split; [reflexivity|]. rewrite <- app_assoc. cbn [app].
  pose proof (sh_space _ _ _ _ _ _ _ Sh) as Sp.
  destruct (shape_join _ _ _ _ m m2 pre a b post fl Sh' Hp) as [S2 C2]; fold s p0 p n.
  { intros t w [T1 [T2 _]%Forall_cons]%Forall_cons Hw. apply at32_put_ne; [done|]. by apply at32_put_ne. }
  { apply at32_put_ne; [unfold next; lia|]. apply at32_put. lia. }
  { apply at32_put. lia. }
  { apply (changes_put _ _ _ _ _ _ _ n); [|right; left|lia..]. apply (changes_put _ _ _ _ _ _ _ p0); [apply changes_refl|left|lia..]. }
  rewrite Ha in S2. split_and!; [|done|done|exact C2]. split; try done.
  - cbn [mh_start_addr set_mh_sizes h' b_size join_blk]. rewrite (fr_fl _ _ _ _ _ _ _ _ H), frees_app, Esp. cbn [frees app].
    rewrite Ha. fold s. rewrite !Z.add_assoc. fold p0 p n. rewrite <- app_assoc. cbn [app]. symmetry. apply Permutation_middle.
  - apply (fr_list _ _ _ _ _ _ _ _ H).
  - cbn [mh_available_size set_mh_sizes h' b_size join_blk]. rewrite (fr_available _ _ _ _ _ _ _ _ H), free_size_app.
    cbn [free_size foldr]. rewrite Ha. lia.
  - cbn [mh_available_size mh_pool_size mh_max_used_size set_mh_sizes h']. pose proof (fr_max _ _ _ _ _ _ _ _ H). lia.
Qed.

Lemma run_merge_left hs l o h m pre b post fl :
  hs !! o = Some h -> freeing o h m pre b post fl false ->
  exists h' m' listed, let r := merge_prev pre b in
    merge_left o (mh_start_addr h + span pre) (hs, (l, m)) = Ok (mh_start_addr h + span r.1, negb listed) (<[o := h']> hs, (l, m')) /\
    freeing o h' m' r.1 r.2 post fl listed /\ same_heap h h' /\ mh_lock h' = mh_lock h /\
    changes 0 24 (headers (mh_start_addr h) (mh_end h) (mh_free_header h) (pre ++ b :: post)) m m'.
Proof.
  intros Ho H. pose proof (fr_shape _ _ _ _ _ _ _ _ H) as Sh.
  destruct (mh_shape_at _ _ _ _ _ _ _ _ _ Sh) as (_ & _ & _ & _ & _ & _ & (_ & _ & _ & Pv) & _). unfold merge_prev.
  assert (forall u nx pv, item_at m o (last_off (mh_end h) (mh_start_addr h) pre) u nx pv -> u = true ->
    merge_left o (mh_start_addr h + span pre) (hs, (l, m)) = Ok (mh_start_addr h + span pre, true) (<[o := h]> hs, (l, m))) as Hnone.
  { intros u nx pv Hi ->. unfold merge_left. run_step (run_ld hs l m _ _ Pv). run_step (run_is_used hs l m _ _ _ _ _ Hi). by rewrite insert_id. }
  destruct (reverse pre) as [|a pr] eqn:Er; cbn [fst snd].
  { assert (pre = []) as -> by (by rewrite <- (reverse_involutive pre), Er).
    exists h, m, false. destruct (sh_items _ _ _ _ _ _ _ Sh) as (_ & _ & Ht). rewrite (Hnone _ _ _ Ht eq_refl).
    split_and!; try done; apply changes_refl. }
  assert (pre = reverse pr ++ [a]) as -> by (by rewrite <- (reverse_involutive pre), Er, reverse_cons).
  destruct (b_used a) eqn:Ea; cbn [fst snd].
  - exists h, m, false. pose proof Sh as Sh'. rewrite <- app_assoc in Sh'. cbn [app] in Sh'.
    destruct (mh_shape_at _ _ _ _ _ _ _ _ _ Sh') as (_ & _ & _ & _ & _ & _ & Ia & _). rewrite last_off_snoc in Hnone.
    rewrite (Hnone _ _ _ Ia Ea). split_and!; try done; apply changes_refl.
  - destruct (run_merge_left_join hs l o h m (reverse pr) a b post fl Ho H Ea) as (h' & m' & E & ?). exists h', m', true. by rewrite E.
Qed.

Lemma run_merge_right hs l o h m pre b post fl listed :
  hs !! o = Some h -> freeing o h m pre b post fl listed ->
  exists h' m' fl', let r := merge_next b post in
    merge_right o (mh_start_addr h + span pre) (hs, (l, m)) = Ok tt (<[o := h']> hs, (l, m')) /\
    freeing o h' m' pre r.1 r.2 fl' listed /\ same_heap h h' /\ mh_lock h' = mh_lock h /\
    changes 0 24 (headers (mh_start_addr h) (mh_end h) (mh_free_header h) (pre ++ b :: post)) m m'.
Proof.
  intros Ho H. pose proof (fr_shape _ _ _ _ _ _ _ _ H) as Sh.
  destruct (mh_shape_at _ _ _ _ _ _ _ _ _ Sh) as (_ & _ & _ & P0 & Q0 & He & (_ & _ & Nx & _) & Hi).
  unfold merge_right. run_step (run_ld hs l m _ _ Nx). run_step (run_is_used hs l m _ _ _ _ _ Hi).
  destruct post as [|c post]; cbn [head_used merge_next negb fst snd].
  { exists h, m, fl. rewrite insert_id by done. split_and!; try done; apply changes_refl. }
  destruct (b_used c) eqn:Ec; cbn [negb fst snd].
  { exists h, m, fl. rewrite insert_id by done. split_and!; try done; apply changes_refl. }
  run_step (run_give_header hs (l, m) o h _ _ _ _ _ _ Ho H). set (h' := set_mh_sizes _ _ h). set (hs' := <[o := h']> hs).
  set (s := mh_start_addr h) in *. set (p := s + span pre) in *. set (q := p + b_size b) in *.
  pose proof (fr_fl _ _ _ _ _ _ _ _ H) as Hfl. cbn [frees] in Hfl. rewrite Ec in Hfl. fold s in Hfl. fold p in Hfl. fold q in Hfl.
  assert (q ∈ fl) as (xs & ys & ->)%list_elem_of_split by (rewrite Hfl; clear; set_solver).
  destruct (shape_absorb _ _ _ _ hs' l m pre b c post xs ys Sh) as (m' & E & S' & C').
  change (absorb p q (hs', (l, m)) = Ok tt (hs', (l, m'))) in E. rewrite E. exists h', m', (xs ++ ys). split; [reflexivity|]. rewrite (fr_free _ _ _ _ _ _ _ _ H) in S'. split_and!; [|done|done|exact C']. split; try done.
  - cbn [mh_start_addr set_mh_sizes h' b_size join_blk]. fold s p. rewrite Z.add_assoc. fold q.
    apply (Permutation_cons_inv (a := q)). rewrite Permutation_middle, Hfl. cbn [app].
    rewrite !app_assoc. symmetry. apply Permutation_middle.
  - apply (fr_list _ _ _ _ _ _ _ _ H).
  - cbn [mh_available_size set_mh_sizes h' b_size join_blk]. rewrite (fr_available _ _ _ _ _ _ _ _ H).
    cbn [free_size foldr]. fold (free_size post). rewrite Ec. lia.
  - cbn [mh_available_size mh_pool_size mh_max_used_size set_mh_sizes h']. pose proof (fr_max _ _ _ _ _ _ _ _ H). lia.
Qed.

(** Joining to the left and then to the right is plugging the hole. *)
Lemma joined_plugged pre b post :
  let l := merge_prev pre b in let r := merge_next l.2 post in l.1 ++ r.1 :: r.2 = plugged pre b post.
Proof.
  unfold plugged, merge_prev. destruct (reverse pre) as [|a pr]; [done|]. destruct (b_used a); [done|]. cbn [fst snd].
  destruct post as [|c post]; [done|]. cbn [merge_next]. destruct (b_used c); [done|]. unfold join_blk. cbn [fst snd b_size].
  by rewrite Z.add_assoc.
Qed.

(** Joining items only takes headers away. *)
Lemma headers_join_left s e fh pre b post x :
  let l := merge_prev pre b in x ∈ headers s e fh (l.1 ++ l.2 :: post) -> x ∈ headers s e fh (pre ++ b :: post).
Proof.
  unfold merge_prev. destruct (reverse pre) as [|a pr] eqn:Er; [done|]. destruct (b_used a); [done|].
  assert (pre = reverse pr ++ [a]) as -> by (by rewrite <- (reverse_involutive pre), Er, reverse_cons).
  cbv zeta. cbn [fst snd]. unfold headers. rewrite <- app_assoc. cbn [app]. rewrite !starts_app. cbn [starts join_blk b_size]. rewrite !Z.add_assoc.
  clear. set_solver.
Qed.

Lemma headers_join_right s e fh pre b post x :
  let r := merge_next b post in x ∈ headers s e fh (pre ++ r.1 :: r.2) -> x ∈ headers s e fh (pre ++ b :: post).
Proof.
  destruct post as [|c post]; [done|]. cbn [merge_next]. destruct (b_used c); [done|]. cbv zeta. cbn [fst snd].
  unfold headers. rewrite !starts_app. cbn [starts join_blk b_size]. rewrite !Z.add_assoc. clear. set_solver.
Qed.

Lemma magic_clear u : Z.land (RT_MEMHEAP_MAGIC + flag u) (not32 RT_MEMHEAP_USED) = RT_MEMHEAP_MAGIC + flag false.
Proof. by destruct u. Qed.

(** The first statements: the item is marked free and its size is given back. *)
Lemma run_unmark hs l o h m pre b post fl :
  hs !! o = Some h -> mh_core o h m (pre ++ b :: post) fl -> b_used b = true ->
  let p := mh_start_addr h + span pre in
  exists h' m', (st p (Z.land (RT_MEMHEAP_MAGIC + flag true) (not32 RT_MEMHEAP_USED));; size ← MEMITEM_SIZE p; mh_give o size) (hs, (l, m))
      = Ok tt (<[o := h']> hs, (l, m')) /\
    freeing o h' m' pre (freed b) post fl false /\ same_heap h h' /\ mh_lock h' = mh_lock h /\
    changes 0 24 (headers (mh_start_addr h) (mh_end h) (mh_free_header h) (pre ++ b :: post)) m m'.
Proof.
  intros Ho H Hu p. pose proof (mc_shape _ _ _ _ _ H) as Sh. destruct (mh_core_at _ _ _ _ _ _ _ H) as (_ & [B1 _] & _ & P & He & Hend & Hp & Ha & F1 & F2).
  rewrite Hu in Ha. destruct (mh_shape_at _ _ _ _ _ _ _ _ _ Sh) as (_ & _ & _ & _ & _ & _ & (Hm & _) & _). fold p in Hm.
  rewrite magic_clear. run_step (run_st hs l m p (RT_MEMHEAP_MAGIC + flag false) (at32_mapped _ _ _ Hm)).
  destruct (shape_mark _ _ _ _ _ _ _ _ _ false Sh) as [S1 C1]. fold p in S1, C1. set (m1 := put32 p _ m) in *.
  run_step (run_memitem_size hs l m1 _ _ _ _ _ _ pre (mk_blk (b_size b) false) post S1 eq_refl). cbn [b_size].
  rewrite (run_mh_give hs (l, m1) o h _ Ho) by lia. eexists _, m1. split; [reflexivity|]. split_and!; [|done..].
  split; cbn [mh_start_addr mh_free_list mh_free_header mh_available_size mh_pool_size mh_max_used_size set_mh_sizes freed b_used b_size]; try done.
  - rewrite (mc_fl _ _ _ _ _ H), frees_app. cbn [frees]. by rewrite Hu.
  - apply (mc_list _ _ _ _ _ H).
  - lia.
  - pose proof (mc_max _ _ _ _ _ H). lia.
Qed.

(** The rest: merge and insert. *)
Lemma run_settle hs l o h m pre b post fl :
  hs !! o = Some h -> freeing o h m pre b post fl false ->
  exists h' m' fl', (r ← merge_left o (mh_start_addr h + span pre); merge_right o r.1;; when r.2 (free_insert o r.1)) (hs, (l, m))
      = Ok tt (<[o := h']> hs, (l, m')) /\
    mh_core o h' m' (plugged pre b post) fl' /\ same_heap h h' /\ mh_lock h' = mh_lock h /\
    changes 0 24 (headers (mh_start_addr h) (mh_end h) (mh_free_header h) (pre ++ b :: post)) m m'.
Proof.
  intros Ho H. destruct (run_merge_left hs l o h m pre b post fl Ho H) as (h1 & m1 & listed & E1 & H1 & [Q1 Q2 Q3] & L1 & C1). run_step E1. cbn [fst snd].
  set (x := merge_prev pre b) in *. assert (mh_end h1 = mh_end h) as Q4 by (unfold mh_end; congruence).
  destruct (run_merge_right (<[o := h1]> hs) l o h1 m1 x.1 x.2 post fl listed (lookup_insert_eq _ _ _) H1)
    as (h2 & m2 & fl2 & E2 & H2 & [P1 P2 P3] & L2 & C2).
  rewrite Q1 in E2. run_step E2. rewrite insert_insert_eq. rewrite Q1, Q3, Q4 in C2.
  set (y := merge_next x.2 post) in *. assert (mh_end h2 = mh_end h) as P4 by (unfold mh_end in *; congruence).
  assert (x.1 ++ y.1 :: y.2 = plugged pre b post) as Epl by (unfold x, y; apply joined_plugged).
  assert (changes 0 24 (headers (mh_start_addr h) (mh_end h) (mh_free_header h) (pre ++ b :: post)) m m2) as C12.
  { eapply changes_trans; [exact C1|]. eapply changes_weaken; [exact C2|lia..|]. apply headers_join_left. }
  destruct listed; cbn [negb when].
  - exists h2, m2, fl2. split; [done|]. apply freeing_core in H2. rewrite Epl in H2. split_and!; [done|split; congruence|congruence|done].
  - pose proof (fr_shape _ _ _ _ _ _ _ _ H2) as S2. pose proof (freeing_unlisted _ _ _ _ _ _ _ H2) as Hn.
    destruct (shape_insert _ _ _ _ (<[o := h2]> hs) l m2 _ fl2 (mh_start_addr h2 + span x.1) h2 S2 (lookup_insert_eq _ _ _) (fr_list _ _ _ _ _ _ _ _ H2))
      as (m3 & E3 & S3 & C3); [|done|].
    { rewrite starts_app. cbn [starts]. clear. set_solver. }
    rewrite P1, Q1 in E3. exists h2, m3, (mh_start_addr h2 + span x.1 :: fl2). rewrite P1, Q1. split; [exact E3|].
    split; [|split; [split; congruence|split; [congruence|]]].
    + rewrite <- Epl. apply freeing_core. destruct H2 as [? ? Hf ? ? ?]. split; try done; rewrite ?P1, ?Q1 in *; [done|]. cbn [app] in *. by rewrite Hf.
    + eapply changes_trans; [exact C12|]. rewrite P1, Q1, P4, P3, Q3 in C3. eapply changes_weaken; [exact C3|lia..|].
      intros z Hz. apply headers_join_left, headers_join_right. exact Hz.
Qed.

Lemma run_memheap_free hs l o h m pre b post :
  hs !! o = Some h -> mh_inv o h m (pre ++ b :: post) -> b_used b = true ->
  exists h' m', rt_memheap_free (Some (mh_start_addr h + span pre + 24)) (hs, (l, m)) = Ok tt (<[o := h']> hs, (l, m')) /\
    mh_inv o h' m' (plugged pre (freed b) post) /\ same_heap h h' /\
    changes 0 24 (headers (mh_start_addr h) (mh_end h) (mh_free_header h) (pre ++ b :: post)) m m'.
Proof.
  intros Ho [[fl H] Hmg Hl] Hu. pose proof (mc_shape _ _ _ _ _ H) as Sh. unfold rt_memheap_free. change RT_MEMHEAP_SIZE with 24.
  destruct (mh_shape_at _ _ _ _ _ _ _ _ _ Sh) as (_ & _ & _ & _ & _ & _ & (I1 & I2 & I3 & _) & (J1 & _)). rewrite Hu in I1.
  set (p := mh_start_addr h + span pre) in *. replace (p + 24 - 24) with p by lia.
  run_step (run_ld hs l m _ _ I1). rewrite magic_mask, magic_used, Z.eqb_refl. do 2 erewrite bind_Ok by reflexivity.
  run_step (run_ld hs l m _ _ I3). run_step (run_ld hs l m _ _ J1). rewrite magic_mask, Z.eqb_refl. erewrite bind_Ok by reflexivity.
  run_step (run_ld hs l m _ _ I2). rewrite Nat2Z.id. run_step (run_mh_take hs (l, m) o h Ho Hl).
  set (h0 := set_mh_lock 0 h). run_step (run_ld (<[o := h0]> hs) l m _ _ I1).
  destruct (run_unmark (<[o := h0]> hs) l o h0 m pre b post fl (lookup_insert_eq _ _ _) (core_lock _ _ _ _ _ 0 H) Hu)
    as (h1 & m1 & E1 & H1 & G1 & L1 & C1).
  apply bind_Ok_inv in E1 as ([] & s1 & F1 & E1). run_step F1. apply bind_Ok_inv in E1 as (sz & s2 & F2 & E1). run_step F2. run_step E1.
  rewrite insert_insert_eq. destruct (run_settle (<[o := h1]> hs) l o h1 m1 pre (freed b) post fl (lookup_insert_eq _ _ _) H1)
    as (h2 & m2 & fl2 & E2 & H2 & G2 & L2 & C2).
  assert (mh_start_addr h1 = mh_start_addr h /\ mh_end h1 = mh_end h /\ mh_free_header h1 = mh_free_header h) as (Q1 & Q2 & Q3)
    by (destruct G1 as [A1 A2 A3]; unfold mh_end; simpl in *; split_and!; congruence).
  rewrite Q1 in E2. fold p in E2. apply bind_Ok_inv in E2 as (r & s3 & F3 & E2). run_step F3. apply bind_Ok_inv in E2 as ([] & s4 & F4 & E2).
  run_step F4. run_step E2. rewrite insert_insert_eq.
  rewrite (run_mh_release _ (l, m2) o h2) by apply lookup_insert_eq. rewrite insert_insert_eq.
  eexists _, m2. split; [reflexivity|]. split; [|split].
  - split; [exists fl2; by apply core_lock| |simpl in *; lia].
    apply merged_app in Hmg as [M1 M2]. apply plugged_merged; [by eapply merged_app_l| |done].
    destruct post; [done|]. by destruct M2.
  - destruct G1, G2. split; simpl in *; congruence.
  - eapply changes_trans; [exact C1|]. rewrite Q1, Q2, Q3 in C2. 
    assert (headers (mh_start_addr h) (mh_end h) (mh_free_header h) (pre ++ freed b :: post)
      = headers (mh_start_addr h) (mh_end h) (mh_free_header h) (pre ++ b :: post)) as <- by (unfold headers; by rewrite !starts_app).
    exact C2.
Qed.

(** ** The allocations *)

Lemma inv_facts o h m bs : mh_inv o h m bs ->
  Forall item_ok bs /\ mh_start_addr h + span bs = mh_end h /\
  (mh_free_header h + 24 <= mh_start_addr h \/ mh_end h + 24 <= mh_free_header h).
Proof.
  intros [[fl [[(_ & He & _) Hok _ _ _ _ _ (_ & _ & _ & Hf) _] _ _ _ _]] _ _]. done.
Qed.

Lemma allocs_cut s pre b post size : b_used b = false -> size <= b_size b - 24 ->
  exists n, size <= n /\ allocs s (pre ++ cut true size b ++ post) ≡ₚ (s + span pre + 24, n) :: allocs s (pre ++ b :: post).
Proof.
  intros Hu Hle. rewrite !allocs_app, cut_span. cbn [allocs]. rewrite Hu. cbn [app].
  unfold cut. destruct (Z.leb_spec (size + 36) (b_size b - 24)); eexists; cbn [allocs b_used b_size app]; rewrite ?app_nil_r.
  - split; [|symmetry; apply Permutation_middle]. lia.
  - split; [|symmetry; apply Permutation_middle]. lia.
Qed.

Lemma allocs_free p l : Forall (fun x => b_used x = false) l -> allocs p l = [].
Proof. intros H. revert p. induction H as [|x l Hx _ IH]; intros p; simpl; [done|]. by rewrite Hx, IH. Qed.

Lemma allocs_plugged s pre b post : b_used b = false ->
  allocs s (plugged pre b post) = allocs s pre ++ allocs (s + span pre + b_size b) post.
Proof.
  intros Hu. destruct (plugged_shape pre b post) as (pre' & l & r & post' & -> & -> & [Fl Fr]%Forall_app & E). rewrite (E Hu).
  rewrite !allocs_app. cbn [allocs b_used b_size app]. rewrite (allocs_free _ l), (allocs_free _ r), span_app, app_nil_r by done.
  cbn [app]. do 2 f_equal. lia.
Qed.

(** [allocated] in terms of the allocations and of the memory. *)
Lemma allocated_spec o h m bs size q h' m' :
  mh_inv o h m bs -> 0 <= size <= 2 ^ 32 - 4 -> allocated o h m bs size (Some q) h' m' ->
  exists n bs', mh_inv o h' m' bs' /\ same_heap h h' /\ size <= n /\
    allocs (mh_start_addr h) bs' ≡ₚ (q, n) :: allocs (mh_start_addr h) bs /\
    outside h m m' /\ kept (allocs (mh_start_addr h) bs) m m' /\ (forall a k, mapped m a k -> mapped m' a k).
Proof.
  intros HI Hs (pre & b & post & -> & Hu & Hle & -> & Hsm & HI' & C). destruct (request_ok size Hs) as (_ & R & _).
  destruct (allocs_cut (mh_start_addr h) pre b post (request size) Hu Hle) as (n & Hn & Hp). exists n. eexists. split; [exact HI'|].
  destruct (inv_facts _ _ _ _ HI') as (Hok & He & _). destruct (inv_facts _ _ _ _ HI) as (_ & _ & Hf).
  destruct Hsm as [S1 S2 S3]. assert (mh_end h' = mh_end h) as Ee by (unfold mh_end; congruence). rewrite Ee, S1 in He.
  split_and!; try done; [lia|..].
  - by apply (changes_outside _ _ _ _ Hok He).
  - apply (changes_kept _ _ _ _ _ _ _ Hok He Hf C). intros q0 n0 Hq. rewrite Hp. by right.
  - apply C.
Qed.

Lemma memheap_alloc_available hs lm o h size q st' :
  hs !! o = Some h -> rt_memheap_alloc o size (hs, lm) = Ok (Some q) st' -> request size < mh_available_size h.
Proof.
  intros Ho. unfold rt_memheap_alloc. run_step (run_get_obj hs lm o h Ho).
  destruct (Z.ltb_spec (request size) (mh_available_size h)); [done|]. intros E. discriminate E.
Qed.

(** C15: on a heap in its invariant, for a size of at most 2^32-4,
    [rt_memheap_alloc] ends and releases the lock.  It returns none exactly when
    the request (the size rounded up to the alignment, at least the minimum)
    reaches the number of available bytes, so also when one free item is all
    that is available and has just the size asked for, or when no free item is
    as large as the request; then nothing has changed.  When it returns an
    address, there is one more allocation, of at least the size asked for and
    apart from every header and every other allocation, whose data are
    untouched, as is the memory outside of the heap; the number of available
    bytes and the high-water mark are those of the new items. *)
Theorem rt_memheap_alloc_correct hs l o h m bs size :
  hs !! o = Some h -> mh_inv o h m bs -> 0 <= size <= 2 ^ 32 - 4 ->
  exists r h' m', rt_memheap_alloc o size (hs, (l, m)) = Ok r (<[o := h']> hs, (l, m')) /\
    (r = None <-> mh_available_size h <= request size \/ no_room (request size) bs) /\
    match r with
    | Some q => exists n bs', mh_inv o h' m' bs' /\ same_heap h h' /\ size <= n /\
        allocs (mh_start_addr h) bs' ≡ₚ (q, n) :: allocs (mh_start_addr h) bs /\
        outside h m m' /\ kept (allocs (mh_start_addr h) bs) m m' /\
        forall q' n', (q', n') ∈ allocs (mh_start_addr h) bs -> q + n + 24 <= q' \/ q' + n' + 24 <= q
    | None => h' = h /\ m' = m
    end.
Proof.
  intros Ho HI Hs. destruct (run_memheap_alloc hs l o h m bs size Ho HI Hs) as (r & h' & m' & E & Ha).
  exists r, h', m'. split; [done|]. destruct r as [q|]; [|by destruct Ha as (-> & -> & Hn)].
  split.
  { split; [done|]. pose proof (memheap_alloc_available _ _ _ _ _ _ _ Ho E) as Hav. intros [?|Hno]; [lia|].
    destruct Ha as (pre & b & post & -> & Hu & Hle & _). specialize (Hno b ltac:(set_solver) Hu). lia. }
  destruct (allocated_spec _ _ _ _ _ _ _ _ HI Hs Ha) as (n & bs' & HI' & Hsm & Hn & Hp & Ho' & Hk & _). exists n, bs'. split_and!; try done.
  intros q' n' Hq'. destruct (inv_facts _ _ _ _ HI') as (Hok & _ & _). destruct (inv_facts _ _ _ _ HI) as (Hok0 & _ & _).
  destruct (allocs_apart (mh_start_addr h) bs' q n q' n' Hok) as [E'|?]; [rewrite Hp; by left|rewrite Hp; by right| |done].
  exfalso. assert (NoDup (allocs (mh_start_addr h) bs')) as Hnd by apply allocs_nodup, Hok.
  rewrite Hp, E' in Hnd. by apply NoDup_cons in Hnd as [? _].
Qed.

Lemma memheap_free_spec hs l o h m bs q n :
  hs !! o = Some h -> mh_inv o h m bs -> (q, n) ∈ allocs (mh_start_addr h) bs ->
  exists h' m' bs', rt_memheap_free (Some q) (hs, (l, m)) = Ok tt (<[o := h']> hs, (l, m')) /\
    mh_inv o h' m' bs' /\ same_heap h h' /\ allocs (mh_start_addr h) bs ≡ₚ (q, n) :: allocs (mh_start_addr h) bs' /\
    mh_available_size h + n <= mh_available_size h' /\ outside h m m' /\ kept (allocs (mh_start_addr h) bs') m m'.
Proof.
  intros Ho HI (pre & b & post & -> & Hu & -> & ->)%allocs_at.
  destruct (run_memheap_free hs l o h m pre b post Ho HI Hu) as (h' & m' & E & HI' & Hsm & C).
  destruct (inv_facts _ _ _ _ HI) as (Hok & He & Hf).
  assert (allocs (mh_start_addr h) (pre ++ b :: post) ≡ₚ (mh_start_addr h + span pre + 24, b_size b - 24) ::
    allocs (mh_start_addr h) (plugged pre (freed b) post)) as Hp.
  { rewrite allocs_plugged, allocs_app by done. cbn [allocs freed b_size]. rewrite Hu. cbn [app]. symmetry. apply Permutation_middle. }
  exists h', m', (plugged pre (freed b) post). split_and!; try done.
  - destruct HI as [[fl H] _ _], HI' as [[fl' H'] _ _]. rewrite (mc_available _ _ _ _ _ H), (mc_available _ _ _ _ _ H').
    destruct (plugged_shape pre (freed b) post) as (pre' & a & c & post' & -> & -> & [Fa Fc]%Forall_app & E'). rewrite (E' eq_refl).
    rewrite !free_size_app. cbn [free_size foldr b_used b_size freed]. rewrite Hu. fold (free_size post'). fold (free_size (c ++ post')).
    rewrite free_size_app. apply Forall_app in Hok as [[_ Ka]%Forall_app [_ [Kc _]%Forall_app]%Forall_cons].
    pose proof (free_size_bounds _ Ka). pose proof (free_size_bounds _ Kc). lia.
  - by apply (changes_outside _ _ _ _ Hok He).
  - apply (changes_kept _ _ _ _ _ _ _ Hok He Hf C). intros q0 n0 Hq. rewrite Hp. by right.
Qed.

(** C16: freeing an allocation takes exactly this allocation away.  Its item is
    joined with free neighbours, so that no two free items are neighbours; the
    invariant with the count of available bytes is kept, the lock is released,
    and the data of the other allocations and the memory outside of the heap
    are untouched. *)
Theorem rt_memheap_free_correct hs l o h m bs q n :
  hs !! o = Some h -> mh_inv o h m bs -> (q, n) ∈ allocs (mh_start_addr h) bs ->
  exists h' m' bs', rt_memheap_free (Some q) (hs, (l, m)) = Ok tt (<[o := h']> hs, (l, m')) /\
    mh_inv o h' m' bs' /\ same_heap h h' /\ allocs (mh_start_addr h) bs ≡ₚ (q, n) :: allocs (mh_start_addr h) bs' /\
    mh_available_size h + n <= mh_available_size h' /\ outside h m m' /\ kept (allocs (mh_start_addr h) bs') m m'.
Proof. apply memheap_free_spec. Qed.
