(* ===== verification/MemHeapRealloc.v ===== *)
(** * Memory heaps, continued: reallocation, initialisation, several heaps

    [rt_memheap_realloc] and [rt_memheap_init] of src/memheap.c, and the system
    heap of RT_USING_MEMHEAP_AS_HEAP, which tries one heap after the other. *)

From S2P Require Import Prelude Kernel MsgQueue Mem KString Allocator MemHeap MemHeapInv MemHeapSpec.

(** ** What the users of the heap may do *)

Lemma items_mono m m' o pv p bs :
  (forall x u nx pv, x ∈ starts p bs -> item_at m o x u nx pv -> item_at m' o x u nx pv) -> items m o pv p bs -> items m' o pv p bs.
Proof.
  revert pv p. induction bs as [|b bs IH]; intros pv p H; cbn [items starts] in *; [done|]. intros [H1 H2]. split.
  - apply H; [left|done].
  - apply IH; [|done]. intros x u nx pv' Hx. apply H. by right.
Qed.

(** Memory that keeps the words of all headers keeps the lists. *)
Lemma shape_words o s e fh m m' bs fl :
  shape o s e fh m bs fl -> (forall a n, mapped m a n -> mapped m' a n) -> bytes_ok m' ->
  (forall x t w, x ∈ headers s e fh bs -> x <= t -> t + 4 <= x + 24 -> at32 m t w -> at32 m' t w) ->
  shape o s e fh m' bs fl.
Proof.
  intros H Hm Hb K. pose proof (fun x => shape_members _ _ _ _ _ _ _ x H) as Hin. destruct H as [(I1 & I2 & I3) ? Hc ? ? ? ? ? ?].
  assert (forall x u nx pv, x ∈ headers s e fh bs -> item_at m o x u nx pv -> item_at m' o x u nx pv) as Ki.
  { intros x u nx pv Hx (A1 & A2 & A3 & A4). unfold item_at, pool_ptr, next, prev in *. split_and!; (apply (K x); [done|lia|lia|done]). }
  split; try done; [| |by apply Hm].
  - split_and!; [|done|apply Ki; [|done]; unfold headers; clear; set_solver].
    apply (items_mono m); [|done]. intros x u nx pv Hx. apply Ki. unfold headers. clear -Hx. set_solver.
  - unfold free_chain in *. rewrite app_comm_cons in *. unfold next_free, prev_free in *.
    assert (forall q, q ∈ (fh :: fl) ++ [fh] -> q ∈ headers s e fh bs) as Hq by (intros q Hq; apply Hin; clear -Hq; set_solver).
    apply (chain_mono m); [| |done]; intros q w Hq'; unfold next_free, prev_free.
    + apply (K q); [|lia..]. apply Hq. clear -Hq'. set_solver.
    + apply (K q); [|lia..]. apply Hq. clear -Hq'. destruct ((fh :: fl) ++ [fh]); set_solver.
Qed.

(** Writing to the data of an allocation keeps the invariant. *)
Lemma inv_user_write o h m bs q n m' :
  mh_inv o h m bs -> (q, n) ∈ allocs (mh_start_addr h) bs -> changes 0 n [q] m m' -> mh_inv o h m' bs.
Proof.
  intros HI Hq C. destruct (inv_facts _ _ _ _ HI) as (Hok & He & Hf). destruct HI as [[fl H] ? ?]. split; try done. exists fl.
  destruct H as [Sh ? ? ? ?]. split; try done. pose proof (allocs_range _ _ _ _ Hok Hq) as R.
  apply (shape_words _ _ _ _ m); [done|apply C|apply C, Sh|]. intros x t w Hx L1 L2. apply (at32_changes _ _ _ _ _ _ _ C).
  intros y ->%list_elem_of_singleton.
  assert (x + 24 <= q \/ q + n <= x) as Hd; [|lia].
  apply elem_of_cons in Hx as [->|[Hx|Hx%list_elem_of_singleton]%elem_of_app]; [lia|..].
  - apply (allocs_headers _ _ _ _ _ Hok Hq). by left.
  - apply (allocs_headers _ _ _ _ _ Hok Hq). right. lia.
Qed.

(** ** rt_memheap_realloc *)

(** The free item [c] behind the block gives what is missing. *)
Lemma run_grow hs l o h m pre b c post fl ns :
  hs !! o = Some h -> mh_core o h m (pre ++ b :: c :: post) fl -> b_used b = true -> b_used c = false ->
  ns mod 4 = 0 -> b_size b - 24 < ns -> ns + 12 < b_size c - 24 + (b_size b - 24) ->
  let p := mh_start_addr h + span pre in
  let bs' := pre ++ mk_blk (ns + 24) true :: mk_blk (b_size b + b_size c - (ns + 24)) false :: post in
  exists h' m' fl', grow_item o (p + 24) p (p + b_size b) (b_size b - 24) ns (hs, (l, m)) = Ok tt (<[o := h']> hs, (l, m')) /\
    mh_core o h' m' bs' fl' /\ same_heap h h' /\ mh_lock h' = mh_lock h /\
    exists m1, changes 0 24 (headers (mh_start_addr h) (mh_end h) (mh_free_header h) (pre ++ b :: c :: post)) m m1 /\
      changes 0 24 (headers (mh_start_addr h) (mh_end h) (mh_free_header h) bs') m1 m'.
Proof.
  intros Ho H Hub Huc Hns4 Hlt Hfit p bs'.
  assert (pre ++ b :: c :: post = (pre ++ [b]) ++ c :: post) as Ebs by by rewrite <- app_assoc.
  pose proof H as Hc. rewrite Ebs in Hc. destruct (core_member _ _ _ _ _ _ _ Hc Huc) as (xs & ys & -> & Hnot & Hperm).
  destruct (mh_core_at _ _ _ _ _ _ _ H) as (_ & [B1 B4] & _ & P & _ & _ & _ & _ & F1 & _).
  destruct (mh_core_at _ _ _ _ _ _ _ Hc) as (_ & [C1 C4] & _ & Q & He & Hend & Hpool & Ha & _ & F2). rewrite Huc in Ha.
  rewrite free_size_app in Ha. cbn [free_size foldr] in Ha. rewrite Hub in Ha.
  assert (span (pre ++ [b]) = span pre + b_size b) as Esp by (rewrite span_app; simpl; lia).
  rewrite Esp, Z.add_assoc in *. pose proof (mc_shape _ _ _ _ _ H) as Sh. set (s := mh_start_addr h) in *. fold p in Sh, He, Hnot, Hperm |- *.
  set (e := mh_end h) in *. set (fh := mh_free_header h) in *. set (q := p + b_size b) in *.
  unfold grow_item. destruct (run_mh_spend hs (l, m) o h (ns - (b_size b - 24)) Ho) as (mx & E0 & Hmx); [lia..|]. run_step E0.
  set (h' := set_mh_sizes _ mx h). set (hs' := <[o := h']> hs).
  destruct (shape_remove o s e fh hs' l m _ xs q ys Sh) as (m1 & E1 & S1 & D1). run_step E1.
  destruct (shape_unlink o s e fh hs' l m1 pre b c post (xs ++ ys) S1 Hnot) as (m3 & E3 & S3 & D3). run_step E3.
  rewrite Hub in S3. rewrite (u32_small (p + 24 + ns)) by (unfold q, p in *; lia). replace (p + 24 + ns) with (p + (ns + 24)) by lia.
  destruct (shape_split o s e fh hs' l m3 pre _ post (xs ++ ys) (ns + 24) S3) as (m4 & E4 & S4 & D4); cbn [b_size b_used] in *.
  { split; simpl; [lia|]. Z.to_euclidean_division_equations. lia. }
  { split; simpl; [lia|]. Z.to_euclidean_division_equations. lia. }
  fold p bs' in E4, S4, D4. run_step E4.
  assert (p + (ns + 24) ∈ starts s bs') as J2 by (unfold bs'; rewrite starts_app; cbn [starts b_size]; fold p; clear; set_solver).
  assert (p + (ns + 24) ∉ xs ++ ys) as Hq.
  { intros Hq. rewrite Hperm, frees_app in Hq. cbn [frees] in Hq. rewrite Hub, app_nil_r in Hq. cbn [app] in Hq.
    pose proof (sh_ok _ _ _ _ _ _ _ Sh) as [K1 [_ [_ K2]%Forall_cons]%Forall_cons]%Forall_app. pose proof (item_ok_span _ K2).
    apply elem_of_app in Hq as [Hq%frees_starts|Hq%frees_starts]; apply starts_range in Hq; try done; unfold q, p in *; lia. }
  destruct (shape_insert o s e fh hs' l m4 bs' (xs ++ ys) (p + (ns + 24)) h' S4 (lookup_insert_eq _ _ _) (mc_list _ _ _ _ _ H) J2 Hq) as (m5 & E5 & S5 & D5).
  rewrite E5. exists h', m5, (p + (ns + 24) :: xs ++ ys). split; [reflexivity|]. split; [|split; [done|split; [done|]]].
  - split; cbn [mh_start_addr mh_free_list mh_free_header mh_available_size mh_pool_size mh_max_used_size set_mh_sizes h']; try done.
    + fold s. rewrite Hperm. unfold bs'. rewrite !frees_app. cbn [frees b_used b_size]. rewrite Hub, app_nil_r. cbn [app]. fold p.
      replace (p + (ns + 24) + (b_size b + b_size c - (ns + 24))) with (q + b_size c) by (unfold q; lia). apply Permutation_middle.
    + apply (mc_list _ _ _ _ _ H).
    + unfold bs'. rewrite free_size_app. cbn [free_size foldr b_used b_size]. fold (free_size post). lia.
  - exists m3. split; [by apply (changes_trans _ _ _ _ m1)|by apply (changes_trans _ _ _ _ m4)].
Qed.

(** The end of the block, with a free item behind it, becomes a free item. *)
Definition trimmed (pre : list blk) (b : blk) (post : list blk) (ns : Z) : list blk :=
  let r := merge_next (mk_blk (b_size b - (ns + 24)) false) post in pre ++ mk_blk (ns + 24) true :: r.1 :: r.2.

(** The step in the middle: the new free header is in the block list, and a
    free item behind it has been absorbed. *)
Lemma run_shrink_join hs l o h m pre a b post fl :
  let s := mh_start_addr h in let q := s + span pre + b_size a in
  hs !! o = Some h -> shape o s (mh_end h) (mh_free_header h) m (pre ++ a :: b :: post) fl -> b_used b = false ->
  fl ≡ₚ frees s pre ++ frees (q + b_size b) post -> mh_available_size h = free_size pre + free_size post ->
  exists h' m' fl', let r := merge_next b post in
    (n ← ld (next q); used ← IS_USED n;
     if negb used then size ← MEMITEM_SIZE n; mh_give o (- size);; absorb q n else mret tt) (hs, (l, m)) = Ok tt (<[o := h']> hs, (l, m')) /\
    shape o s (mh_end h) (mh_free_header h) m' (pre ++ a :: r.1 :: r.2) fl' /\
    fl' ≡ₚ frees s pre ++ frees (q + b_size r.1) r.2 /\ same_heap h h' /\ mh_lock h' = mh_lock h /\ mh_free_list h' = mh_free_list h /\
    mh_max_used_size h' = mh_max_used_size h /\ mh_available_size h' = free_size pre + free_size r.2 /\
    changes 0 24 (headers s (mh_end h) (mh_free_header h) (pre ++ a :: b :: post)) m m'.
Proof.
  intros s q Ho Sh Hb Hf Ha. pose proof Sh as Sh'. replace (pre ++ a :: b :: post) with ((pre ++ [a]) ++ b :: post) in Sh' by (by rewrite <- app_assoc).
  assert (s + span (pre ++ [a]) = q) as Eq by (rewrite span_app; unfold q; simpl; lia).
  destruct (mh_shape_at _ _ _ _ _ _ _ _ _ Sh') as (O1 & [B1 _] & O3 & P0 & Q0 & He & (_ & _ & Nx & _) & Hi). rewrite Eq in He, Nx, Hi.
  run_step (run_ld hs l m _ _ Nx). run_step (run_is_used hs l m _ _ _ _ _ Hi).
  destruct post as [|c post]; cbn [head_used merge_next negb fst snd].
  { exists h, m, fl. rewrite insert_id by done. split_and!; try done; apply changes_refl. }
  destruct (b_used c) eqn:Ec; cbn [negb fst snd].
  { exists h, m, fl. rewrite insert_id by done. split_and!; try done; apply changes_refl. }
  assert (s + span ((pre ++ [a]) ++ [b]) = q + b_size b) as Eq2 by (rewrite span_app; simpl; lia).
  pose proof (run_memitem_size hs l m _ _ _ _ _ _ ((pre ++ [a]) ++ [b]) c post Sh ltac:(by rewrite <- !app_assoc)) as Es. rewrite Eq2 in Es.
  run_step Es. apply Forall_cons in O3 as [[C1 _] O3]. pose proof (item_ok_span _ O3). pose proof (free_size_bounds _ O3).
  pose proof (free_size_bounds _ (proj1 (proj1 (Forall_app _ _ _) O1))). cbn [free_size foldr] in Ha. fold (free_size post) in Ha. rewrite Ec in Ha.
  pose proof (sh_space _ _ _ _ _ _ _ Sh) as Sp. cbn [span foldr] in He, Q0. fold (span post) in He, Q0.
  destruct (mh_shape_at _ _ _ _ _ _ _ _ _ Sh) as (_ & [A1 _] & _ & P1 & _).
  run_step (run_mh_give hs (l, m) o h (- (b_size c - 24)) Ho ltac:(unfold q in *; lia)). set (h' := set_mh_sizes _ _ h). set (hs' := <[o := h']> hs).
  cbn [frees] in Hf. rewrite Ec in Hf. assert (q + b_size b ∈ fl) as (xs & ys & ->)%list_elem_of_split by (rewrite Hf; clear; set_solver).
  destruct (shape_absorb o s (mh_end h) (mh_free_header h) hs' l m (pre ++ [a]) b c post xs ys) as (m' & E & S' & C'); [by rewrite Eq|].
  rewrite Eq in E. rewrite E. rewrite <- !app_assoc in S', C'. cbn [app] in S', C'. rewrite Hb in S'.
  exists h', m', (xs ++ ys). split; [reflexivity|]. split_and!; try done.
  - apply (Permutation_cons_inv (a := q + b_size b)). rewrite Permutation_middle, Hf. cbn [app join_blk b_size]. rewrite Z.add_assoc.
    symmetry. apply Permutation_middle.
  - cbn [mh_available_size set_mh_sizes h']. lia.
Qed.

Lemma run_shrink_item hs l o h m pre b post fl ns :
  hs !! o = Some h -> mh_core o h m (pre ++ b :: post) fl -> b_used b = true ->
  12 <= ns -> ns mod 4 = 0 -> ns + 36 < b_size b - 24 ->
  exists h' m' fl', shrink_item o (mh_start_addr h + span pre) ns (hs, (l, m)) = Ok tt (<[o := h']> hs, (l, m')) /\
    mh_core o h' m' (trimmed pre b post ns) fl' /\ same_heap h h' /\ mh_lock h' = mh_lock h /\
    changes 0 24 (headers (mh_start_addr h) (mh_end h) (mh_free_header h)
      (pre ++ mk_blk (ns + 24) true :: mk_blk (b_size b - (ns + 24)) false :: post)) m m'.
Proof.
  intros Ho H Hu Hns Hns4 Hlt. destruct (mh_core_at _ _ _ _ _ _ _ H) as (_ & [B1 B4] & O3 & P & He & Hend & Hp & Ha & F1 & F2). rewrite Hu in Ha.
  pose proof (mc_shape _ _ _ _ _ H) as Sh. unfold shrink_item, trimmed. change RT_MEMHEAP_SIZE with 24. rewrite u32_small by lia.
  set (s := mh_start_addr h) in *. replace (s + span pre + ns + 24) with (s + span pre + (ns + 24)) by lia.
  destruct (shape_split o s (mh_end h) (mh_free_header h) hs l m pre b post fl (ns + 24) Sh) as (m1 & E1 & S1 & C1).
  { split; simpl; [lia|]. Z.to_euclidean_division_equations. lia. }
  { split; simpl; [lia|]. Z.to_euclidean_division_equations. lia. }
  rewrite Hu in S1, C1. run_step E1. set (a := mk_blk (ns + 24) true) in *. set (c := mk_blk (b_size b - (ns + 24)) false) in *.
  set (q := s + span pre + (ns + 24)) in *.
  destruct (run_shrink_join hs l o h m1 pre a c post fl) as (h2 & m2 & fl2 & E2 & S2 & Hf2 & [G1 G2 G3] & L2 & K2 & M2 & A2 & C2); try done.
  { cbn [b_size a c]. rewrite (mc_fl _ _ _ _ _ H), frees_app. cbn [frees]. rewrite Hu. cbn [app]. fold s.
    by replace (s + span pre + (ns + 24) + (b_size b - (ns + 24))) with (s + span pre + b_size b) by lia. }
  { lia. }
  cbn [b_size a] in E2, Hf2. fold s in E2, S2, Hf2, C2. fold q in E2, Hf2. set (r := merge_next c post) in *.
  apply bind_Ok_inv in E2 as (n & s1 & X1 & E2). run_step X1. apply bind_Ok_inv in E2 as (u & s2 & X2 & E2). run_step X2. run_step E2.
  set (bs2 := pre ++ a :: r.1 :: r.2) in *. assert (b_used r.1 = false) as Hur by (apply (merge_next_free c post); done).
  assert (bs2 = (pre ++ [a]) ++ r.1 :: r.2) as Ebs2 by (unfold bs2; by rewrite <- app_assoc).
  assert (s + span (pre ++ [a]) = q) as Eq by (rewrite span_app; unfold q; simpl; lia).
  pose proof S2 as S2'. rewrite Ebs2 in S2'. destruct (mh_shape_at _ _ _ _ _ _ _ _ _ S2') as (R1 & [R2 _] & R3 & _ & R4 & R5 & _). rewrite Eq in R5.
  assert (q ∈ starts s bs2) as Jq by (unfold bs2; rewrite starts_app; cbn [starts a b_size]; fold q; clear; set_solver).
  assert (q ∉ fl2) as Nq.
  { intros Hq. rewrite Hf2 in Hq. pose proof (proj1 (proj1 (Forall_app _ _ _) R1)).
    apply elem_of_app in Hq as [Hq%frees_starts|Hq%frees_starts]; apply starts_range in Hq; try done; unfold q in *; lia. }
  destruct (shape_insert o s (mh_end h) (mh_free_header h) (<[o := h2]> hs) l m2 bs2 fl2 q h2 S2 (lookup_insert_eq _ _ _)
    ltac:(rewrite K2; apply (mc_list _ _ _ _ _ H)) Jq Nq) as (m3 & E3 & S3 & C3). run_step E3.
  pose proof (run_memitem_size (<[o := h2]> hs) l m3 _ _ _ _ _ _ (pre ++ [a]) r.1 r.2 S3 Ebs2) as Es. rewrite Eq in Es. run_step Es.
  pose proof (free_size_bounds _ R3) as F3. pose proof (sh_space _ _ _ _ _ _ _ S3) as Sp.
  rewrite (run_mh_give (<[o := h2]> hs) (l, m3) o h2 _ (lookup_insert_eq _ _ _)) by (unfold q in *; lia). rewrite insert_insert_eq.
  eexists _, m3, (q :: fl2). split; [reflexivity|]. split; [|split; [|split; [done|]]].
  - assert (mh_end h2 = mh_end h) as G4 by (unfold mh_end; congruence).
    split; cbn [mh_start_addr mh_free_list mh_free_header mh_available_size mh_pool_size mh_max_used_size set_mh_sizes].
    + rewrite G1, G3. unfold mh_end in *. cbn [mh_start_addr mh_pool_size set_mh_sizes]. rewrite G4. exact S3.
    + rewrite G1. unfold bs2. rewrite frees_app. cbn [frees a b_used b_size app]. rewrite Hur. fold s q. cbn [app]. rewrite Hf2. apply Permutation_middle.
    + rewrite K2, G3. apply (mc_list _ _ _ _ _ H).
    + rewrite A2. unfold bs2. rewrite free_size_app. cbn [free_size foldr a b_used b_size]. rewrite Hur. fold (free_size r.2). lia.
    + rewrite A2, G2, M2. pose proof (mc_max _ _ _ _ _ H) as Hmx. rewrite Ha in Hmx.
      assert (free_size post <= b_size r.1 - 24 + free_size r.2) as Hinc; [|lia].
      unfold r. destruct post as [|x post]; [cbn [merge_next fst snd]; cbn [c b_size]; lia|]. cbn [merge_next].
      destruct (b_used x) eqn:Ex; cbn [fst snd free_size foldr c b_size join_blk]; fold (free_size post); rewrite Ex; lia.
  - by split.
  - eapply changes_trans; [exact C1|]. eapply changes_trans; [exact C2|]. eapply changes_weaken; [exact C3|lia..|].
    intros x Hx. rewrite Ebs2 in Hx. apply (headers_join_right s (mh_end h) (mh_free_header h) (pre ++ [a]) c post x) in Hx.
    by rewrite <- app_assoc in Hx.
Qed.

(** The bytes of a mapped area. *)
Lemma mapped_holds m a n : 0 <= n -> mapped m a n -> exists l, Z.of_nat (length l) = n /\ holds m a l.
Proof.
  intros Hn. pattern n. apply natlike_ind; [by exists []| |done]. clear n Hn. intros n Hn IH Hm.
  destruct IH as (l & El & Hl); [apply (mapped_le _ _ _ _ Hm); lia|].
  destruct (Hm n ltac:(lia)) as [x Hx]. exists (l ++ [x]). split; [rewrite length_app; simpl; lia|].
  apply holds_app. split; [done|]. rewrite El. apply holds_cons. split; [done|]. apply holds_nil.
Qed.

Lemma changes_set_bytes m a l n :
  Forall is_byte l -> Z.of_nat (length l) <= n -> changes 0 n [a] m (set_bytes a l m).
Proof.
  intros Hb Hn. split.
  - intros x Hx. rewrite lookup_set_bytes, decide_False; [done|]. specialize (Hx a ltac:(left)). lia.
  - intros x k. apply mapped_set_bytes.
  - intros Hm x y. rewrite lookup_set_bytes. case_decide; [|by apply Hm]. rewrite Forall_forall in Hb. intros Hy. by eapply Hb, list_elem_of_lookup_2.
Qed.

(** The data of an allocation are there. *)
Lemma alloc_mapped o h m bs q n : mh_inv o h m bs -> (q, n) ∈ allocs (mh_start_addr h) bs ->
  mapped m q n /\ bytes_ok m /\ mh_start_addr h + 24 <= q /\ 12 <= n /\ q + n <= mh_end h.
Proof.
  intros HI Hq. destruct (inv_facts _ _ _ _ HI) as (Hok & He & _). apply allocs_range in Hq as (R1 & R2 & R3 & _); [|done].
  destruct HI as [[fl [Sh _ _ _ _]] _ _]. split; [|split; [apply Sh|lia]].
  apply (mapped_in m (mh_start_addr h) (mh_end h + 24 - mh_start_addr h)); [apply Sh|lia..].
Qed.

(** What [rt_memheap_realloc] promises of its result. *)
Definition reallocated (o : nat) (h : rt_memheap) (m : memory) (bs : list blk) (q n size : Z) (r : option Z)
    (h' : rt_memheap) (m' : memory) (bs' : list blk) : Prop :=
  mh_inv o h' m' bs' /\ same_heap h h' /\ outside h m m' /\
  match r with
  | None => h' = h /\ m' = m /\ bs' = bs
  | Some q' => exists n' l, let s := mh_start_addr h in
      allocs s bs ≡ₚ (q, n) :: l /\ allocs s bs' ≡ₚ (q', n') :: l /\ size <= n' /\ kept l m m' /\
      forall i, 0 <= i < Z.min n size -> m' !! (q' + i) = m !! (q + i)
  end.

Lemma reallocated_none o h m bs q n size : mh_inv o h m bs -> reallocated o h m bs q n size None h m bs.
Proof. intros HI. split; [done|]. split; [reflexivity|]. by split; [intros a _ _|]. Qed.

(** Copying the data of one allocation to another one. *)
Lemma run_copy_data hs l o h m bs q n q' n' c :
  mh_inv o h m bs -> (q, n) ∈ allocs (mh_start_addr h) bs -> (q', n') ∈ allocs (mh_start_addr h) bs -> (q, n) ≠ (q', n') ->
  0 <= c <= n -> c <= n' ->
  exists m', (on_snd (on_snd (rt_memcpy q' q c)) : M mh_state Z) (hs, (l, m)) = Ok q' (hs, (l, m')) /\ mh_inv o h m' bs /\ changes 0 n' [q'] m m' /\
    forall i, 0 <= i < c -> m' !! (q' + i) = m !! (q + i).
Proof.
  intros HI Hq Hq' Hne Hc Hc'. destruct (alloc_mapped _ _ _ _ _ _ HI Hq) as (M1 & Hb & _). destruct (alloc_mapped _ _ _ _ _ _ HI Hq') as (M2 & _).
  destruct (mapped_holds m q c) as (d & Ed & Hd); [lia|by apply (mapped_le _ _ n); [|lia]|].
  assert (Forall is_byte d) as Fd.
  { apply Forall_forall. intros x (i & Hi)%list_elem_of_lookup. by eapply Hb, Hd. }
  destruct (inv_facts _ _ _ _ HI) as (Hok & _ & _).
  destruct (allocs_apart _ _ _ _ _ _ Hok Hq Hq') as [?|Hap]; [done|].
  exists (set_bytes q' d m). assert (changes 0 n' [q'] m (set_bytes q' d m)) as C by (apply changes_set_bytes; [done|lia]). split_and!.
  - do 2 apply run_on_snd. rewrite <- Ed. apply run_memcpy. split; [done| | |done].
    + rewrite Ed. apply (mapped_le _ _ n'); [done|lia].
    + rewrite Ed. unfold forward. lia.
  - by apply (inv_user_write _ _ m _ q' n').
  - done.
  - intros i Hi. rewrite lookup_set_bytes, decide_True by lia. replace (q' + i - q') with i by lia.
    destruct (lookup_lt_is_Some_2 d (Z.to_nat i)) as [x Hx]; [lia|]. rewrite Hx. symmetry.
    rewrite <- (Z2Nat.id i) at 1 by lia. by apply Hd.
Qed.

Lemma run_move_item hs l o h m bs q n ns :
  hs !! o = Some h -> mh_inv o h m bs -> (q, n) ∈ allocs (mh_start_addr h) bs -> 0 <= ns <= 2 ^ 32 - 4 ->
  exists r h' m' bs', move_item o q n ns (hs, (l, m)) = Ok r (<[o := h']> hs, (l, m')) /\ reallocated o h m bs q n ns r h' m' bs'.
Proof.
  intros Ho HI Hq Hns. unfold move_item. destruct (run_memheap_alloc hs l o h m bs ns Ho HI Hns) as (r & h1 & m1 & E1 & Ha). run_step E1.
  destruct r as [q'|]; [|destruct Ha as (-> & -> & _); exists None, h, m, bs; split; [done|by apply reallocated_none]].
  destruct (allocated_spec _ _ _ _ _ _ _ _ HI Hns Ha) as (n' & bs1 & HI1 & [S1 S2 S3] & Hn' & Hp1 & Ho1 & Hk1 & _).
  destruct (inv_facts _ _ _ _ HI1) as (Hok1 & He1 & _). set (s := mh_start_addr h) in *.
  assert ((q, n) ∈ allocs s bs1) as Hq1 by (rewrite Hp1; by right). assert ((q', n') ∈ allocs s bs1) as Hq1' by (rewrite Hp1; left).
  assert (NoDup ((q', n') :: allocs s bs)) as Hnd by (rewrite <- Hp1; apply allocs_nodup, Hok1). apply NoDup_cons in Hnd as [Hnew Hnd].
  assert ((q, n) ≠ (q', n')) as Hne by (intros E; by rewrite E in Hq). rewrite <- S1 in Hq1, Hq1'.
  destruct (alloc_mapped _ _ _ _ _ _ HI1 Hq1) as (_ & _ & _ & N12 & _). destruct (alloc_mapped _ _ _ _ _ _ HI1 Hq1') as (_ & _ & R1 & _ & R2).
  set (c := if n <? ns then n else ns). assert (c = Z.min n ns) as Ec by (unfold c; destruct (Z.ltb_spec n ns); lia).
  destruct (run_copy_data (<[o := h1]> hs) l o h1 m1 bs1 q n q' n' c HI1 Hq1 Hq1' Hne) as (m2 & E2 & HI2 & C2 & Hd2); [lia..|]. run_step E2.
  destruct (memheap_free_spec (<[o := h1]> hs) l o h1 m2 bs1 q n (lookup_insert_eq _ _ _) HI2 Hq1) as (h3 & m3 & bs3 & E3 & HI3 & [T1 T2 T3] & Hp3 & _ & Ho3 & Hk3).
  run_step E3. rewrite insert_insert_eq. exists (Some q'), h3, m3, bs3. split; [reflexivity|]. split; [done|]. split; [split; [by rewrite T1|congruence..]|].
  rewrite S1 in Hp3, Hk3, Hq1'. apply elem_of_Permutation in Hq as [r Hr].
  assert (allocs s bs3 ≡ₚ (q', n') :: r) as Hp3'.
  { apply (Permutation_cons_inv (a := (q, n))). rewrite <- Hp3, Hp1, Hr. apply perm_swap. }
  split; [|exists n', r; split_and!; [done..| |]].
  - intros a A1 A2. rewrite Ho3, (ch_same _ _ _ _ _ C2), Ho1; try done; rewrite ?S1, ?S2, ?S3; try done.
    intros x ->%list_elem_of_singleton. unfold mh_end in *. lia.
  - intros q2 n2 i Hq2 Hi. rewrite (Hk3 q2 n2 i), (ch_same _ _ _ _ _ C2), (Hk1 q2 n2 i); try done.
    + rewrite Hr. by right.
    + assert ((q2, n2) ∈ allocs s bs) as Hq2' by (rewrite Hr; by right). intros x ->%list_elem_of_singleton.
      destruct (allocs_apart s bs1 q2 n2 q' n' Hok1) as [E|?]; [rewrite Hp1; by right|done|by rewrite E in Hq2'|lia].
    + rewrite Hp3'. by right.
  - intros i Hi. rewrite (Hk3 q' n'), Hd2, (Hk1 q n); try done; [rewrite Hr; left|lia|lia|rewrite Hp3'; left|lia].
Qed.

(** The block stays where it is; only headers of the old items [bs] and of
    the items [bs2] were written. *)
Lemma reallocated_in_place o h m m1 m' bs bs2 bs' q n n' size h' l :
  mh_inv o h m bs -> mh_inv o h' m' bs' -> same_heap h h' -> let s := mh_start_addr h in
  Forall item_ok bs2 -> s + span bs2 = mh_end h ->
  changes 0 24 (headers s (mh_end h) (mh_free_header h) bs) m m1 -> changes 0 24 (headers s (mh_end h) (mh_free_header h) bs2) m1 m' ->
  allocs s bs ≡ₚ (q, n) :: l -> allocs s bs2 ≡ₚ (q, n') :: l -> allocs s bs' ≡ₚ (q, n') :: l -> size <= n' ->
  reallocated o h m bs q n size (Some q) h' m' bs'.
Proof.
  intros HI HI' Hsm s Hok2 He2 C1 C2 P1 P2 P3 Hsz. destruct (inv_facts _ _ _ _ HI) as (Hok & He & Hf).
  assert (kept (allocs s bs) m m1) as K1 by (by apply (changes_kept _ _ _ _ _ _ _ Hok He Hf C1)).
  assert (kept (allocs s bs2) m1 m') as K2 by (by apply (changes_kept _ _ _ _ _ _ _ Hok2 He2 Hf C2)).
  split; [done|]. split; [done|]. split.
  - intros a A1 A2. rewrite (changes_outside h m1 m' bs2 Hok2 He2 C2 a A1 A2). by apply (changes_outside h m m1 bs Hok He C1).
  - exists n', l. split_and!; try done.
    + intros q2 n2 i Hq2 Hi. rewrite (K2 q2 n2 i), (K1 q2 n2 i); try done; [rewrite P1|rewrite P2]; by right.
    + intros i Hi. rewrite (K2 q n' i), (K1 q n i); [done|rewrite P1; left|lia|rewrite P2; left|lia].
Qed.

(** The three ways to stay in place. *)
Lemma allocs_used s pre b post : b_used b = true ->
  allocs s (pre ++ b :: post) ≡ₚ (s + span pre + 24, b_size b - 24) :: allocs s pre ++ allocs (s + span pre + b_size b) post.
Proof. intros Hu. rewrite allocs_app. cbn [allocs]. rewrite Hu. cbn [app]. symmetry. apply Permutation_middle. Qed.

Lemma realloc_grow hs l o h m pre b c post ns :
  hs !! o = Some h -> mh_inv o h m (pre ++ b :: c :: post) -> b_used b = true -> b_used c = false ->
  ns mod 4 = 0 -> b_size b - 24 < ns -> ns + 12 < b_size c - 24 + (b_size b - 24) ->
  let p := mh_start_addr h + span pre in
  exists h' m' bs', (grow_item o (p + 24) p (p + b_size b) (b_size b - 24) ns;; mh_release o) (<[o := set_mh_lock 0 h]> hs, (l, m))
      = Ok tt (<[o := h']> hs, (l, m')) /\
    reallocated o h m (pre ++ b :: c :: post) (p + 24) (b_size b - 24) ns (Some (p + 24)) h' m' bs'.
Proof.
  intros Ho HI Hub Huc Hns4 Hlt Hfit p. pose proof HI as [[fl H] Hmg Hl].
  destruct (run_grow (<[o := set_mh_lock 0 h]> hs) l o (set_mh_lock 0 h) m pre b c post fl ns (lookup_insert_eq _ _ _) (core_lock _ _ _ _ _ 0 H) Hub Huc Hns4 Hlt Hfit)
    as (h1 & m1 & fl1 & E1 & H1 & [G1 G2 G3] & L1 & mm & C1 & C2).
  run_step E1. rewrite insert_insert_eq, (run_mh_release _ (l, m1) o h1), insert_insert_eq by apply lookup_insert_eq.
  set (bs' := pre ++ mk_blk (ns + 24) true :: mk_blk (b_size b + b_size c - (ns + 24)) false :: post) in *. eexists _, m1, bs'. split; [reflexivity|].
  assert (mh_inv o (set_mh_lock (mh_lock h1 + 1) h1) m1 bs') as HI'.
  { split; [exists fl1; by apply core_lock| |simpl in *; lia]. apply merged_app in Hmg as [M1 M2]. apply merged_app. split; [by apply (merged_snoc_used _ b)|].
    destruct M2 as [_ M2]. split; [by left|]. destruct post; [done|]. cbn [merged] in *. rewrite Huc in M2. done. }
  destruct (inv_facts _ _ _ _ HI') as (Hok2 & He2 & _). simpl in G1, G2, G3. unfold mh_end in He2. simpl in He2. rewrite G1, G2 in He2.
  apply (reallocated_in_place o h m mm m1 _ bs' bs' _ _ ns _ _ (allocs (mh_start_addr h) pre ++ allocs (p + b_size b + b_size c) post)); try done.
  - rewrite allocs_used by done. cbn [allocs]. by rewrite Huc.
  - unfold bs'. rewrite allocs_used by done. cbn [allocs b_used b_size app]. fold p.
    replace (p + (ns + 24) + (b_size b + b_size c - (ns + 24))) with (p + b_size b + b_size c) by lia. by replace (ns + 24 - 24) with ns by lia.
  - unfold bs'. rewrite allocs_used by done. cbn [allocs b_used b_size app]. fold p.
    replace (p + (ns + 24) + (b_size b + b_size c - (ns + 24))) with (p + b_size b + b_size c) by lia. by replace (ns + 24 - 24) with ns by lia.
Qed.

Lemma realloc_shrink hs l o h m pre b post ns :
  hs !! o = Some h -> mh_inv o h m (pre ++ b :: post) -> b_used b = true -> 12 <= ns -> ns mod 4 = 0 -> ns + 36 < b_size b - 24 ->
  let p := mh_start_addr h + span pre in
  exists h' m' bs', (shrink_item o p ns;; mh_release o) (<[o := set_mh_lock 0 h]> hs, (l, m)) = Ok tt (<[o := h']> hs, (l, m')) /\
    reallocated o h m (pre ++ b :: post) (p + 24) (b_size b - 24) ns (Some (p + 24)) h' m' bs'.
Proof.
  intros Ho HI Hu Hns Hns4 Hlt p. pose proof HI as [[fl H] Hmg Hl].
  destruct (run_shrink_item (<[o := set_mh_lock 0 h]> hs) l o (set_mh_lock 0 h) m pre b post fl ns (lookup_insert_eq _ _ _) (core_lock _ _ _ _ _ 0 H) Hu Hns Hns4 Hlt)
    as (h1 & m1 & fl1 & E1 & H1 & [G1 G2 G3] & L1 & C1).
  fold p in E1. change (mh_start_addr (set_mh_lock 0 h)) with (mh_start_addr h) in E1. fold p in E1.
  run_step E1. rewrite insert_insert_eq, (run_mh_release _ (l, m1) o h1), insert_insert_eq by apply lookup_insert_eq.
  eexists _, m1, (trimmed pre b post ns). split; [reflexivity|].
  set (a := mk_blk (ns + 24) true) in *. set (c := mk_blk (b_size b - (ns + 24)) false) in *.
  assert (trimmed pre b post ns = plugged (pre ++ [a]) c post) as Et.
  { unfold trimmed. rewrite <- joined_plugged. unfold merge_prev. rewrite reverse_app. cbn [reverse rev_append app a b_used fst snd]. by rewrite <- app_assoc. }
  apply merged_app in Hmg as [M1 M2].
  assert (mh_inv o (set_mh_lock (mh_lock h1 + 1) h1) m1 (trimmed pre b post ns)) as HI'.
  { split; [exists fl1; by apply core_lock| |simpl in *; lia]. rewrite Et. apply plugged_merged; [by apply (merged_snoc_used _ b)| |done].
    destruct post; [done|apply M2]. }
  destruct (inv_facts _ _ _ _ HI) as (Hok & He & _). pose proof Hok as [O1 [[B1 B4] O3]%Forall_cons]%Forall_app.
  assert (allocs (mh_start_addr h) (pre ++ a :: c :: post) ≡ₚ (p + 24, ns) :: allocs (mh_start_addr h) pre ++ allocs (p + b_size b) post) as Pm.
  { rewrite allocs_used by done. cbn [allocs b_used b_size a c app]. fold p. replace (p + (ns + 24) + (b_size b - (ns + 24))) with (p + b_size b) by lia.
    by replace (ns + 24 - 24) with ns by lia. }
  apply (reallocated_in_place o h m m m1 _ (pre ++ a :: c :: post) _ _ _ ns _ _ (allocs (mh_start_addr h) pre ++ allocs (p + b_size b) post)); try done.
  - apply Forall_app. split; [done|]. repeat constructor; try done; simpl; try lia; Z.to_euclidean_division_equations; lia.
  - rewrite <- He, !span_app. simpl. fold (span post). lia.
  - by apply allocs_used.
  - rewrite Et, allocs_plugged by done. rewrite allocs_app, span_app. cbn [allocs span foldr b_used b_size a c app]. rewrite <- app_assoc. cbn [app].
    replace (mh_start_addr h + (span pre + (ns + 24 + 0)) + (b_size b - (ns + 24))) with (p + b_size b) by (unfold p; lia).
    replace (ns + 24 - 24) with ns by lia. fold p. symmetry. apply Permutation_middle.
Qed.

(** [free_ptr] is used: nothing to take. *)
Lemma realloc_move hs l o h m bs q n ns :
  hs !! o = Some h -> mh_inv o h m bs -> (q, n) ∈ allocs (mh_start_addr h) bs -> 0 <= ns <= 2 ^ 32 - 4 ->
  exists r h' m' bs', (mh_release o;; move_item o q n ns) (<[o := set_mh_lock 0 h]> hs, (l, m)) = Ok r (<[o := h']> hs, (l, m')) /\
    reallocated o h m bs q n ns r h' m' bs'.
Proof.
  intros Ho HI Hq Hns. run_step (run_mh_release (<[o := set_mh_lock 0 h]> hs) (l, m) o _ (lookup_insert_eq _ _ _)).
  rewrite insert_insert_eq, set_lock_back, insert_id by (done || apply HI). by apply run_move_item.
Qed.

(** A smaller promise. *)
Lemma reallocated_le o h m bs q n size size' r h' m' bs' :
  size' <= size -> reallocated o h m bs q n size r h' m' bs' -> reallocated o h m bs q n size' r h' m' bs'.
Proof.
  intros Hle (? & ? & ? & H). split_and!; try done. destruct r as [q'|]; [|done]. destruct H as (n' & l & ? & ? & ? & ? & H).
  exists n', l. split_and!; try done; [lia|]. intros i Hi. apply H. lia.
Qed.

Lemma run_memheap_realloc hs l o h m bs q n newsize :
  hs !! o = Some h -> mh_inv o h m bs -> (q, n) ∈ allocs (mh_start_addr h) bs -> 0 < newsize <= 2 ^ 32 - 16 ->
  exists r h' m' bs', rt_memheap_realloc o (Some q) newsize (hs, (l, m)) = Ok r (<[o := h']> hs, (l, m')) /\
    reallocated o h m bs q n newsize r h' m' bs'.
Proof.
  intros Ho HI Hq Hs. destruct (request_ok newsize ltac:(lia)) as (R1 & R2 & R3).
  assert (request newsize <= 2 ^ 32 - 16) as R4.
  { unfold request. destruct (align_4 newsize ltac:(lia)) as [A1 A2]. destruct (Z.ltb_spec (RT_ALIGN newsize RT_ALIGN_SIZE) RT_MEMHEAP_MINIALLOC);
      [unfold RT_MEMHEAP_MINIALLOC; lia|]. Z.to_euclidean_division_equations. lia. }
  unfold rt_memheap_realloc. rewrite (proj2 (Z.eqb_neq newsize 0)) by lia. set (ns := request newsize) in *.
  enough (exists r h' m' bs', _ = Ok r (<[o := h']> hs, (l, m')) /\ reallocated o h m bs q n ns r h' m' bs') as (r & h' & m' & bs' & E & Hr)
    by (exists r, h', m', bs'; split; [exact E|]; apply (reallocated_le _ _ _ _ _ _ ns); [lia|done]).
  pose proof Hq as (pre & b & post & -> & Hu & -> & ->)%allocs_at. pose proof HI as [[fl H] Hmg Hl]. pose proof (mc_shape _ _ _ _ _ H) as Sh.
  set (p := mh_start_addr h + span pre) in *. change RT_MEMHEAP_SIZE with 24. replace (p + 24 - 24) with p by lia.
  run_step (run_memitem_size hs l m _ _ _ _ _ _ _ _ _ Sh eq_refl). change RT_MEMHEAP_MINIALLOC with 12.
  destruct (mh_core_at _ _ _ _ _ _ _ H) as (_ & [B1 B4] & _ & P & He & Hend & Hpool & _).
  destruct (mh_shape_at _ _ _ _ _ _ _ _ _ Sh) as (_ & _ & O3 & _ & _ & _ & (_ & _ & Nx & _) & Hi). fold p in Nx, Hi.
  destruct (Z.ltb_spec (b_size b - 24) ns) as [Hgrow|Hkeep].
  - run_step (run_mh_take hs (l, m) o h Ho Hl). set (hs0 := <[o := set_mh_lock 0 h]> hs). run_step (run_ld hs0 l m _ _ Nx).
    rewrite (proj2 (Z.ltb_lt p (p + b_size b))) by lia. erewrite bind_Ok by reflexivity. run_step (run_is_used hs0 l m _ _ _ _ _ Hi).
    pose proof (realloc_move hs l o h m _ _ _ ns Ho HI Hq ltac:(lia)) as Hmove. fold p hs0 in Hmove.
    destruct post as [|c post]; cbn [head_used negb]; [erewrite bind_Ok by reflexivity; exact Hmove|].
    destruct (b_used c) eqn:Ec; cbn [negb]; [erewrite bind_Ok by reflexivity; exact Hmove|].
    pose proof (run_memitem_size hs0 l m _ _ _ _ _ _ (pre ++ [b]) c post Sh ltac:(by rewrite <- app_assoc)) as Es.
    rewrite span_app in Es. cbn [span foldr] in Es. replace (mh_start_addr h + (span pre + (b_size b + 0))) with (p + b_size b) in Es by (unfold p; lia).
    run_step Es. cbn [andb]. apply Forall_cons in O3 as [[C1 _] O3]. pose proof (item_ok_span _ O3). cbn [span foldr] in He. fold (span post) in He.
    rewrite (u32_small (ns + 12)), (u32_small (b_size c - 24 + (b_size b - 24))) by lia.
    destruct (Z.ltb_spec (ns + 12) (b_size c - 24 + (b_size b - 24))) as [Hfit|Hno]; [|exact Hmove].
    destruct (realloc_grow hs l o h m pre b c post ns Ho HI Hu Ec R3 Hgrow Hfit) as (h' & m' & bs' & E & Hr). fold p hs0 in E.
    apply bind_Ok_inv in E as ([] & s1 & E1 & E2). run_step E1. run_step E2. by exists (Some (p + 24)), h', m', bs'.
  - rewrite (u32_small (ns + 24 + 12)) by lia. destruct (Z.leb_spec (b_size b - 24) (ns + 24 + 12)) as [Hsame|Hshrink].
    + exists (Some (p + 24)), h, m, (pre ++ b :: post). rewrite insert_id by done. split; [reflexivity|]. split; [done|]. split; [reflexivity|]. split; [by intros a|].
      exists (b_size b - 24), (allocs (mh_start_addr h) pre ++ allocs (p + b_size b) post).
      split_and!; [by apply allocs_used|by apply allocs_used|lia|by intros ? ? ?|done].
    + run_step (run_mh_take hs (l, m) o h Ho Hl).
      destruct (realloc_shrink hs l o h m pre b post ns Ho HI Hu R1 R3 ltac:(lia)) as (h' & m' & bs' & E & Hr). fold p in E.
      apply bind_Ok_inv in E as ([] & s1 & E1 & E2). run_step E1. run_step E2. by exists (Some (p + 24)), h', m', bs'.
Qed.

(** [rt_memheap_realloc] of an allocation keeps the invariant and leaves the
    memory outside of the heap alone.  It fails only by leaving everything as it
    is; otherwise the result is an allocation of at least the new size in place
    of the old one, at the old address or at a new one, with the old data up to
    the smaller of the two sizes; the data of all other allocations stay. *)
Theorem rt_memheap_realloc_correct hs l o h m bs q n newsize :
  hs !! o = Some h -> mh_inv o h m bs -> (q, n) ∈ allocs (mh_start_addr h) bs -> 0 < newsize <= 2 ^ 32 - 16 ->
  exists r h' m' bs', rt_memheap_realloc o (Some q) newsize (hs, (l, m)) = Ok r (<[o := h']> hs, (l, m')) /\
    reallocated o h m bs q n newsize r h' m' bs'.
Proof. apply run_memheap_realloc. Qed.

(** ** Initialisation *)

Lemma run_put_item hs l m p magic pool nx pv nf pf :
  mapped m p 24 -> Forall (fun w => 0 <= w < 2 ^ 32) [magic; pool; nx; pv; nf; pf] ->
  exists m', put_item p magic pool nx pv nf pf (hs, (l, m)) = Ok tt (hs, (l, m')) /\ changes 0 24 [p] m m' /\
    at32 m' p magic /\ at32 m' (pool_ptr p) pool /\ at32 m' (next p) nx /\ at32 m' (prev p) pv /\
    at32 m' (next_free p) nf /\ at32 m' (prev_free p) pf.
Proof.
  intros Hm Hw. rewrite !Forall_cons in Hw. unfold put_item, pool_ptr, next, prev, next_free, prev_free in *.
  assert (forall m' t, changes 0 24 [p] m m' -> p <= t -> t + 4 <= p + 24 -> mapped m' t 4) as Mt.
  { intros m' t C L1 L2. apply (mapped_in m' p 24); [by apply C|lia..]. }
  assert (forall m' t v, changes 0 24 [p] m m' -> p <= t -> t + 4 <= p + 24 -> changes 0 24 [p] m (put32 t v m')) as Ct.
  { intros m' t v C L1 L2. apply (changes_put _ _ _ _ _ _ _ p); [done|left|lia..]. }
  pose proof (changes_refl 0 24 [p] m) as C0.
  run_step (run_st hs l m p magic ltac:(apply Mt; [done|lia..])). pose proof (Ct _ p magic C0 ltac:(lia) ltac:(lia)) as C1.
  run_step (run_st hs l _ (p + 4) pool ltac:(apply Mt; [exact C1|lia..])). pose proof (Ct _ (p + 4) pool C1 ltac:(lia) ltac:(lia)) as C2.
  run_step (run_st hs l _ (p + 8) nx ltac:(apply Mt; [exact C2|lia..])). pose proof (Ct _ (p + 8) nx C2 ltac:(lia) ltac:(lia)) as C3.
  run_step (run_st hs l _ (p + 12) pv ltac:(apply Mt; [exact C3|lia..])). pose proof (Ct _ (p + 12) pv C3 ltac:(lia) ltac:(lia)) as C4.
  run_step (run_st hs l _ (p + 16) nf ltac:(apply Mt; [exact C4|lia..])). pose proof (Ct _ (p + 16) nf C4 ltac:(lia) ltac:(lia)) as C5.
  rewrite (run_st hs l _ (p + 20) pf) by (apply Mt; [exact C5|lia..]). pose proof (Ct _ (p + 20) pf C5 ltac:(lia) ltac:(lia)) as C6.
  eexists. split; [reflexivity|]. split; [exact C6|]. split_and!; repeat (apply at32_put_ne; [lia|]); apply at32_put; tauto.
Qed.

(** The memory for a heap: an area and the header of the free list, apart from
    each other and below the end of the address space. *)
Record area (o : nat) (fh start pool : Z) (m : memory) : Prop := {
  ar_start : 0 <= start /\ start + pool < 2 ^ 32;
  ar_header : 0 <= fh /\ fh + 24 < 2 ^ 32 /\ (fh + 24 <= start \/ start + pool <= fh);
  ar_mapped : mapped m start pool /\ mapped m fh 24 /\ bytes_ok m;
  ar_pool : 60 <= pool /\ pool mod 4 = 0;
  ar_heap : Z.of_nat o < 2 ^ 32
}.

(** The headers of the free list and of the first item. *)
Lemma run_init_headers hs l m o h fh s pool :
  area o fh s pool m -> hs !! o = Some h -> mh_free_list h = fh -> let e := s + (pool - 24) in
  exists m', (put_item fh RT_MEMHEAP_MAGIC (Z.of_nat o) 0 0 fh fh;;
      put_item s RT_MEMHEAP_MAGIC (Z.of_nat o) 0 0 s s;;
      st (next s) e;; n ← ld (next s); st (prev s) n;;
      free_insert o s) (hs, (l, m)) = Ok tt (hs, (l, m')) /\
    item_at m' o s false e e /\ free_chain fh m' [s] /\ changes 0 24 [fh; s] m m'.
Proof.
  intros [A1 A2 (A3 & A4 & A5) A6 A7] Ho Hfl e.
  destruct (run_put_item hs l m fh RT_MEMHEAP_MAGIC (Z.of_nat o) 0 0 fh fh A4) as (m1 & E1 & C1 & _ & _ & _ & _ & F5 & F6).
  { unfold RT_MEMHEAP_MAGIC. repeat constructor; lia. }
  run_step E1.
  destruct (run_put_item hs l m1 s RT_MEMHEAP_MAGIC (Z.of_nat o) 0 0 s s) as (m2 & E2 & C2 & G1 & G2 & G3 & G4 & _ & _).
  { apply (mapped_in m1 s pool); [by apply C1|lia..]. }
  { unfold RT_MEMHEAP_MAGIC. repeat constructor; lia. }
  run_step E2. unfold next, prev, pool_ptr, next_free, prev_free in *.
  run_step (run_st hs l m2 (s + 8) e (at32_mapped _ _ _ G3)). set (m3 := put32 (s + 8) e m2).
  assert (at32 m3 (s + 8) e) as K3 by (apply at32_put; lia). run_step (run_ld hs l m3 _ _ K3).
  run_step (run_st hs l m3 (s + 12) e ltac:(by apply mapped_set_bytes, (at32_mapped _ _ _ G4))). set (m4 := put32 (s + 12) e m3).
  assert (changes 0 16 [s] m2 m4) as C4 by (do 2 (apply (changes_put _ _ _ _ _ _ _ s); [|left|lia..]); apply changes_refl).
  assert (free_chain fh m4 []) as Hc.
  { split; [|done]. unfold link, next_free, prev_free. split; (apply (at32_changes _ _ _ _ _ _ _ C4); [|apply (at32_changes _ _ _ _ _ _ _ C2); [|done]]);
      intros x ->%list_elem_of_singleton; lia. }
  destruct (run_free_insert fh hs l m4 o h s [] [s; fh] Ho Hfl Hc) as (m5 & E5 & Hc5 & C5); [| | |lia|lia|done|].
  - apply NoDup_cons. split; [intros ?%list_elem_of_singleton; lia|apply NoDup_singleton].
  - intros x y [->| ->%list_elem_of_singleton]%elem_of_cons [->| ->%list_elem_of_singleton]%elem_of_cons; lia.
  - apply (mapped_in m4 s pool); [by apply C4, C2, C1|lia..].
  - rewrite E5. exists m5. split; [reflexivity|].
    assert (spaced [s; s; fh]) as Hsp by (intros x y; rewrite !elem_of_cons, !elem_of_nil; intros [->|[->|[->|[]]]] [->|[->|[->|[]]]]; lia).
    split; [|split; [done|]].
    + apply (item_at_changes [s; fh] m4); [done|done|]. unfold item_at, pool_ptr, next, prev, m4. split_and!.
      * do 2 (apply at32_put_ne; [lia|]). cbn [flag]. by rewrite Z.add_0_r.
      * do 2 (apply at32_put_ne; [lia|]). done.
      * apply at32_put_ne; [lia|done].
      * apply at32_put. lia.
    + eapply changes_trans; [apply (changes_weaken _ _ _ _ _ _ _ _ C1); [done|done|clear; set_solver]|].
      eapply changes_trans; [apply (changes_weaken _ _ _ _ _ _ _ _ C2); [done|done|clear; set_solver]|].
      eapply changes_trans; [apply (changes_weaken _ _ _ _ _ _ _ _ C4); [done|lia|clear; set_solver]|].
      apply (changes_weaken _ _ _ _ _ _ _ _ C5); [lia|done|clear; set_solver].
Qed.

Lemma run_memheap_init hs l m o fh start size :
  0 <= size < 2 ^ 32 -> let pool := size - size mod 4 in area o fh start pool m ->
  exists h m', rt_memheap_init o fh start size (hs, (l, m)) = Ok RT_EOK (<[o := h]> hs, (o :: l, m')) /\
    mh_inv o h m' [mk_blk (pool - 24) false] /\ mh_start_addr h = start /\ mh_pool_size h = pool /\ mh_free_header h = fh /\
    mh_available_size h = pool - 48 /\ outside h m m'.
Proof.
  intros Hsize pool Ar. pose proof Ar as [A1 A2 (A3 & A4 & A5) [A6 A6'] A7]. unfold rt_memheap_init. erewrite bind_Ok by reflexivity. cbn [fst snd].
  assert (RT_ALIGN_DOWN size RT_ALIGN_SIZE = pool) as -> by (unfold RT_ALIGN_DOWN; by apply align_down_4).
  change (2 * RT_MEMHEAP_SIZE) with 48. change RT_MEMHEAP_SIZE with 24.
  assert (pool <= size) as Hp by (unfold pool; Z.to_euclidean_division_equations; lia).
  rewrite (u32_small (pool - 48)) by lia. rewrite (u32_small (pool - (pool - 48))) by lia. rewrite (u32_small (start + (pool - 48) + 24)) by lia.
  erewrite bind_Ok by reflexivity. cbn [fst snd]. set (h0 := mk_mh _ _ _ _ _ _ _ _). set (hs0 := <[o := h0]> hs).
  replace (start + (pool - 48) + 24) with (start + (pool - 24)) by lia. set (e := start + (pool - 24)).
  destruct (run_init_headers hs0 (o :: l) m o h0 fh start pool Ar (lookup_insert_eq _ _ _) eq_refl) as (m1 & E1 & I1 & Hc1 & C1). fold e in E1, I1.
  apply bind_Ok_inv in E1 as ([] & s1 & X1 & E1). run_step X1. apply bind_Ok_inv in E1 as ([] & s2 & X2 & E1). run_step X2.
  apply bind_Ok_inv in E1 as ([] & s3 & X3 & E1). run_step X3. apply bind_Ok_inv in E1 as (n & s4 & X4 & E1). run_step X4.
  apply bind_Ok_inv in E1 as ([] & s5 & X5 & E1). run_step X5. run_step E1.
  pose proof I1 as (_ & _ & Hn & _). run_step (run_ld hs0 (o :: l) m1 _ _ Hn).
  destruct (run_put_item hs0 (o :: l) m1 e (Z.lor RT_MEMHEAP_MAGIC RT_MEMHEAP_USED) (Z.of_nat o) start start 0 0) as (m2 & E2 & C2 & G1 & G2 & G3 & G4 & _ & _).
  { apply (mapped_in m1 start pool); [by apply C1|unfold e; lia..]. }
  { change (Z.lor RT_MEMHEAP_MAGIC RT_MEMHEAP_USED) with 0x1ea01ea1. repeat constructor; lia. }
  run_step E2. rewrite (bind_Ok _ _ _ _ _ (run_upd_obj hs0 (o :: l, m2) o (set_mh_lock 1) h0 (lookup_insert_eq _ _ _))).
  unfold hs0. rewrite insert_insert_eq. exists (set_mh_lock 1 h0), m2. split; [reflexivity|]. split; [|split_and!; try done].
  - split; [|done|done]. exists [start]. unfold h0.
    split; unfold mh_end; cbn [mh_start_addr mh_pool_size mh_free_header mh_free_list mh_available_size mh_max_used_size set_mh_lock]; try done; [|simpl; lia].
    replace (start + pool - 24) with e by (unfold e; lia). split; try done.
    + split_and!; [|simpl; unfold e; lia|by split_and!]. split; [|done]. cbn [b_used b_size].
      assert (forall t w, t + 4 <= e -> at32 m1 t w -> at32 m2 t w) as K.
      { intros t w Ht. apply (at32_changes _ _ _ _ _ _ _ C2). intros x ->%list_elem_of_singleton. lia. }
      destruct I1 as (B1 & B2 & B3 & B4). unfold item_at, pool_ptr, next, prev in *. split_and!; (apply K; [unfold e; lia|done]).
    + constructor; [|done]. split; simpl; [lia|]. Z.to_euclidean_division_equations. lia.
    + unfold free_chain. rewrite app_comm_cons. apply (chain_apart [e] m1); [done| |done].
      intros x y ->%list_elem_of_singleton. cbn [app]. rewrite !elem_of_cons, elem_of_nil. unfold e. intros [->|[->|[->|[]]]]; lia.
    + apply NoDup_singleton.
    + apply C2, C1. by replace (e + 24 - start) with pool by (unfold e; lia).
    + by apply C2, C1.
    + unfold e. lia.
  - intros a H1 H2. cbn [mh_start_addr mh_pool_size mh_free_header set_mh_lock h0] in H1, H2.
    rewrite (ch_same _ _ _ _ _ C2), (ch_same _ _ _ _ _ C1); [done| |].
    + intros x [->| ->%list_elem_of_singleton]%elem_of_cons; lia.
    + intros x ->%list_elem_of_singleton. unfold e. lia.
Qed.

(** C17: [rt_memheap_init] turns an area of at least 60 bytes into a heap of one
    free item that satisfies the invariant, links it into the list of heaps and
    writes only to the area and to the header of the free list. *)
Theorem rt_memheap_init_correct hs l m o fh start size :
  0 <= size < 2 ^ 32 -> let pool := size - size mod 4 in area o fh start pool m ->
  exists h m', rt_memheap_init o fh start size (hs, (l, m)) = Ok RT_EOK (<[o := h]> hs, (o :: l, m')) /\
    mh_inv o h m' [mk_blk (pool - 24) false] /\ mh_start_addr h = start /\ mh_pool_size h = pool /\ mh_free_header h = fh /\
    mh_available_size h = pool - 48 /\ outside h m m'.
Proof. apply run_memheap_init. Qed.

(** ** Several heaps *)

Definition in_area (h : rt_memheap) (a : Z) : Prop :=
  mh_start_addr h <= a < mh_start_addr h + mh_pool_size h \/ mh_free_header h <= a < mh_free_header h + 24.

(** The heaps of the list are in their invariants and do not overlap. *)
Record world (hs : gmap nat rt_memheap) (l : list nat) (m : memory) : Prop := {
  w_heaps : forall o, o ∈ l -> exists h bs, hs !! o = Some h /\ mh_inv o h m bs;
  w_apart : forall o o' h h' a, o ∈ l -> o' ∈ l -> hs !! o = Some h -> hs !! o' = Some h' -> in_area h a -> in_area h' a -> o = o'
}.

(** A heap only depends on its own area. *)
Lemma inv_frame o h m m' bs :
  mh_inv o h m bs -> (forall a, in_area h a -> m' !! a = m !! a) -> (forall a n, mapped m a n -> mapped m' a n) -> bytes_ok m' -> mh_inv o h m' bs.
Proof.
  intros HI Ha Hm Hb. destruct (inv_facts _ _ _ _ HI) as (Hok & He & _). pose proof HI as [[fl [Sh ? ? ? ?]] ? ?]. split; try done. exists fl. split; try done.
  apply (shape_words _ _ _ _ m); try done. intros x t w Hx L1 L2 [Hw Ht]. split; [done|].
  intros i y Hy. pose proof (lookup_lt_Some _ _ _ Hy) as Hi. simpl in Hi. rewrite Ha; [by apply Ht|]. unfold in_area, mh_end in *.
  pose proof (item_ok_span _ Hok). apply elem_of_cons in Hx as [->|[Hx|Hx%list_elem_of_singleton]%elem_of_app]; [lia| |lia].
  apply starts_range in Hx; [lia|done].
Qed.

(** One heap of the world has made an allocation. *)
Lemma world_allocated hs l m o h bs size q h' m' :
  world hs l m -> o ∈ l -> hs !! o = Some h -> mh_inv o h m bs -> 0 <= size <= 2 ^ 32 - 4 -> allocated o h m bs size (Some q) h' m' ->
  world (<[o := h']> hs) l m' /\
  forall o2 h2 bs2, o2 ∈ l -> hs !! o2 = Some h2 -> mh_inv o2 h2 m bs2 -> o2 ≠ o -> mh_inv o2 h2 m' bs2 /\ kept (allocs (mh_start_addr h2) bs2) m m'.
Proof.
  intros [W1 W2] Hol Ho HI Hs Ha. destruct (allocated_spec _ _ _ _ _ _ _ _ HI Hs Ha) as (n & bs' & HI' & [S1 S2 S3] & Hn & Hp & Hout & Hk & Hm).
  assert (forall o2 h2, o2 ∈ l -> hs !! o2 = Some h2 -> o2 ≠ o -> forall a, in_area h2 a -> m' !! a = m !! a) as Hsame.
  { intros o2 h2 Hol2 Ho2 Hne a Ia. apply Hout; unfold in_area in *.
    - destruct (decide (mh_start_addr h <= a < mh_start_addr h + mh_pool_size h)) as [Hin|]; [|lia]. exfalso. apply Hne.
      apply (W2 o2 o h2 h a); try done. by left.
    - destruct (decide (mh_free_header h <= a < mh_free_header h + 24)) as [Hin|]; [|lia]. exfalso. apply Hne.
      apply (W2 o2 o h2 h a); try done. by right. }
  assert (bytes_ok m') as Hb' by (destruct HI' as [[fl' [Sh' _ _ _ _]] _ _]; apply Sh').
  assert (forall o2 h2 bs2, o2 ∈ l -> hs !! o2 = Some h2 -> mh_inv o2 h2 m bs2 -> o2 ≠ o -> mh_inv o2 h2 m' bs2) as Hinv.
  { intros o2 h2 bs2 Hol2 Ho2 HI2 Hne. apply (inv_frame _ _ m); try done. by apply (Hsame o2). }
  split; [split|].
  - intros o2 Hol2. destruct (decide (o2 = o)) as [->|Hne]; [exists h', bs'; by rewrite lookup_insert_eq|].
    rewrite lookup_insert_ne by done. destruct (W1 o2 Hol2) as (h2 & bs2 & Ho2 & HI2). exists h2, bs2. split; [done|]. by apply Hinv.
  - assert (forall o2 h2, <[o := h']> hs !! o2 = Some h2 -> exists h3, hs !! o2 = Some h3 /\ forall a, in_area h2 a -> in_area h3 a) as Hback.
    { intros o2 h2. destruct (decide (o2 = o)) as [->|Hne]; [|rewrite lookup_insert_ne by done; eauto].
      rewrite lookup_insert_eq. intros [= <-]. exists h. split; [done|]. unfold in_area. by rewrite S1, S2, S3. }
    intros o1 o2 h1 h2 a J1 J2 K1 K2 I1 I2. destruct (Hback _ _ K1) as (h3 & L3 & M3), (Hback _ _ K2) as (h4 & L4 & M4).
    by apply (W2 o1 o2 h3 h4 a); auto.
  - intros o2 h2 bs2 Hol2 Ho2 HI2 Hne. split; [by apply Hinv|]. intros q2 n2 i Hq2 Hi. apply (Hsame o2 h2 Hol2 Ho2 Hne).
    destruct (alloc_mapped _ _ _ _ _ _ HI2 Hq2) as (_ & _ & R1 & _ & R2). unfold in_area, mh_end in *. lia.
Qed.

(** What [rt_malloc] over several heaps gives: [o] is the heap that served. *)
Definition served (hs : gmap nat rt_memheap) (l : list nat) (m : memory) (size : Z) (r : option Z) (hs' : gmap nat rt_memheap) (m' : memory) : Prop :=
  exists q o h bs h', r = Some q /\ o ∈ l /\ hs !! o = Some h /\ mh_inv o h m bs /\ hs' = <[o := h']> hs /\ allocated o h m bs size r h' m'.

(** The heap refuses the request. *)
Definition refuses (hs : gmap nat rt_memheap) (m : memory) (size : Z) (o : nat) : Prop :=
  exists h bs, hs !! o = Some h /\ mh_inv o h m bs /\ (mh_available_size h <= request size \/ no_room (request size) bs).

Lemma run_alloc_world hs l m o size :
  world hs l m -> o ∈ l -> 0 <= size <= 2 ^ 32 - 4 ->
  exists r hs' m', rt_memheap_alloc o size (hs, (l, m)) = Ok r (hs', (l, m')) /\
    match r with Some _ => served hs l m size r hs' m' | None => hs' = hs /\ m' = m /\ refuses hs m size o end.
Proof.
  intros W Hol Hs. destruct (w_heaps _ _ _ W o Hol) as (h & bs & Ho & HI).
  destruct (run_memheap_alloc hs l o h m bs size Ho HI Hs) as (r & h' & m' & E & Ha). exists r, (<[o := h']> hs), m'. split; [done|].
  destruct r as [q|]; [by exists q, o, h, bs, h'|]. destruct Ha as (-> & -> & Hr). rewrite insert_id by done. split_and!; try done. by exists h, bs.
Qed.

Lemma run_malloc_others hs l m sys size heaps :
  world hs l m -> (forall o, o ∈ heaps -> o ∈ l) -> 0 <= size <= 2 ^ 32 - 4 ->
  exists r hs' m', malloc_others sys heaps size (hs, (l, m)) = Ok r (hs', (l, m')) /\
    match r with Some _ => served hs l m size r hs' m' | None => hs' = hs /\ m' = m /\ forall o, o ∈ heaps -> o ≠ sys -> refuses hs m size o end.
Proof.
  intros W Hin Hs. induction heaps as [|o heaps IH]; cbn [malloc_others].
  - exists None, hs, m. split; [done|]. split_and!; try done. by intros o ?%elem_of_nil.
  - destruct IH as (r & hs' & m' & E & Hr); [intros x Hx; apply Hin; by right|].
    case_bool_decide as Hsys.
    + exists r, hs', m'. split; [done|]. destruct r; [done|]. destruct Hr as (-> & -> & Hr). split_and!; try done.
      intros x [->|Hx]%elem_of_cons Hne; [done|by apply Hr].
    + destruct (run_alloc_world hs l m o size W (Hin o ltac:(left)) Hs) as (r1 & hs1 & m1 & E1 & Hr1). run_step E1.
      destruct r1 as [q|]; [by exists (Some q), hs1, m1|]. destruct Hr1 as (-> & -> & Hr1). exists r, hs', m'. split; [done|].
      destruct r; [done|]. destruct Hr as (-> & -> & Hr). split_and!; try done. intros x [->|Hx]%elem_of_cons Hne; [done|by apply Hr].
Qed.

(** ... in terms of the allocations of all heaps. *)
Definition gained (hs : gmap nat rt_memheap) (l : list nat) (m : memory) (size q : Z) (hs' : gmap nat rt_memheap) (m' : memory) : Prop :=
  world hs' l m' /\ exists o h bs h' bs' n, o ∈ l /\ hs !! o = Some h /\ mh_inv o h m bs /\ hs' = <[o := h']> hs /\
    mh_inv o h' m' bs' /\ size <= n /\ allocs (mh_start_addr h) bs' ≡ₚ (q, n) :: allocs (mh_start_addr h) bs /\
    kept (allocs (mh_start_addr h) bs) m m' /\
    forall o2 h2 bs2, o2 ∈ l -> hs !! o2 = Some h2 -> mh_inv o2 h2 m bs2 -> o2 ≠ o ->
      mh_inv o2 h2 m' bs2 /\ kept (allocs (mh_start_addr h2) bs2) m m'.

Lemma served_gained hs l m size q hs' m' :
  world hs l m -> 0 <= size <= 2 ^ 32 - 4 -> served hs l m size (Some q) hs' m' -> gained hs l m size q hs' m'.
Proof.
  intros W Hs (q' & o & h & bs & h' & Eq & Hol & Ho & HI & -> & Ha). injection Eq as <-.
  destruct (world_allocated _ _ _ _ _ _ _ _ _ _ W Hol Ho HI Hs Ha) as [W' Hk].
  destruct (allocated_spec _ _ _ _ _ _ _ _ HI Hs Ha) as (n & bs' & HI' & _ & Hn & Hp & _ & Hkk & _). split; [done|].
  exists o, h, bs, h', bs', n. split_and!; done.
Qed.

(** C18: with the memory heaps as the system heap, [rt_malloc] ends; it is served
    by some heap of the list, which gains one allocation of at least the size
    asked for, while all heaps keep their invariants and stay apart and the data
    of all allocations of all heaps stay; or no heap of the list can serve it,
    and nothing has changed. *)
Theorem heap_malloc_correct hs l m sys size :
  world hs l m -> sys ∈ l -> 0 <= size <= 2 ^ 32 - 4 ->
  exists r hs' m', heap_malloc sys size (hs, (l, m)) = Ok r (hs', (l, m')) /\
    match r with
    | Some q => gained hs l m size q hs' m'
    | None => hs' = hs /\ m' = m /\ forall o, o ∈ l -> refuses hs m size o
    end.
Proof.
  intros W Hsys Hs. unfold heap_malloc. destruct (run_alloc_world hs l m sys size W Hsys Hs) as (r & hs' & m' & E & Hr).
  run_step E. destruct r as [q|]; [exists (Some q), hs', m'; split; [done|by apply served_gained]|].
  destruct Hr as (-> & -> & Hr). erewrite bind_Ok by reflexivity. cbn [fst snd].
  destruct (run_malloc_others hs l m sys size l W ltac:(done) Hs) as (r & hs' & m' & E' & Hr'). rewrite E'. exists r, hs', m'. split; [done|].
  destruct r as [q|]; [by apply served_gained|]. destruct Hr' as (-> & -> & Hr'). split_and!; try done.
  intros o Ho. destruct (decide (o = sys)) as [->|Hne]; [done|by apply Hr'].
Qed.

(** ** A heap meets the contract of an allocator *)

Definition memheap_owns (o : nat) (s : mh_state) (l : list (Z * Z)) : Prop :=
  exists h bs, s.1 !! o = Some h /\ mh_inv o h s.2.2 bs /\ l = allocs (mh_start_addr h) bs.

Lemma allocs_addresses p bs : Forall item_ok bs -> NoDup (allocs p bs).*1.
Proof.
  intros Hb. revert p. induction Hb as [|b bs [Hb _] Hbs IH]; intros p; simpl; [constructor|].
  destruct (b_used b); [|apply IH]. apply NoDup_cons. split; [|apply IH].
  intros ([q n] & E & H)%list_elem_of_fmap. simpl in E. apply allocs_range in H; [lia|done].
Qed.

#[global] Instance memheap_allocator o : Allocator (rt_memheap_alloc o) rt_memheap_free (memheap_owns o).
Proof.
  split.
  - intros s l (h & bs & _ & HI & ->). apply allocs_addresses. by destruct (inv_facts _ _ _ _ HI) as (? & _).
  - intros [hs [ol m]] l size (h & bs & Ho & HI & ->) Hs. destruct (run_memheap_alloc hs ol o h m bs size Ho HI Hs) as (r & h' & m' & E & Ha).
    eexists r, _. split; [exact E|]. destruct r as [q|]; [|destruct Ha as (-> & -> & _); by rewrite insert_id].
    destruct (allocated_spec _ _ _ _ _ _ _ _ HI Hs Ha) as (n & bs' & HI' & [S1 _ _] & Hn & Hp & _). exists n, (allocs (mh_start_addr h) bs').
    split_and!; try done. exists h', bs'. cbn [fst snd]. rewrite lookup_insert_eq, S1. done.
  - intros [hs [ol m]] l q n (h & bs & Ho & HI & ->) Hq.
    destruct (memheap_free_spec hs ol o h m bs q n Ho HI Hq) as (h' & m' & bs' & E & HI' & [S1 _ _] & Hp & _).
    eexists _, (allocs (mh_start_addr h) bs'). split_and!; [exact E| |done]. exists h', bs'. cbn [fst snd]. rewrite lookup_insert_eq, S1. done.
Qed.

(** ** A heap of 400 bytes *)

Definition demo_area : memory := set_bytes 512 (replicate 24 0) (set_bytes 1024 (replicate 402 0) ∅).
Definition demo_mh0 : mh_state := (∅, ([], demo_area)).
Definition demo_mh : mh_state := run (rt_memheap_init 1 512 1024 402) demo_mh0.

Lemma mapped_written a l m : mapped (set_bytes a l m) a (Z.of_nat (length l)).
Proof. apply holds_mapped, set_bytes_holds. Qed.

Lemma demo_area_ok : area 1 512 1024 (402 - 402 mod 4) demo_area.
Proof.
  split; [by split|by split; [|split; [|left]]| |by split|done]. split_and!.
  - apply mapped_set_bytes, (mapped_le _ _ 402); [apply (mapped_written 1024 (replicate 402 0))|done].
  - apply (mapped_written 512 (replicate 24 0)).
  - assert (forall n, Forall is_byte (replicate n 0)) as Hr by (intros n; apply Forall_replicate; unfold is_byte; lia).
    eapply ch_bytes; [apply (changes_set_bytes _ _ _ 24); [apply Hr|done]|]. eapply ch_bytes; [apply (changes_set_bytes _ _ _ 402); [apply Hr|done]|].
    intros a x Hx. by rewrite lookup_empty in Hx.
Qed.

Lemma demo_mh_inv : exists h m, demo_mh = (<[1%nat := h]> ∅, ([1%nat], m)) /\ mh_inv 1 h m [mk_blk 376 false].
Proof.
  destruct (run_memheap_init ∅ [] demo_area 1 512 1024 402) as (h & m & E & HI & _); [lia|apply demo_area_ok|].
  exists h, m. split; [|exact HI]. unfold demo_mh, demo_mh0, run. by rewrite E.
Qed.

Lemma rt_memheap_init_correct_witness :
  exists h m', rt_memheap_init 1 512 1024 402 demo_mh0 = Ok RT_EOK (<[1%nat := h]> ∅, ([1%nat], m')) /\ mh_available_size h = 352.
Proof.
  destruct (rt_memheap_init_correct ∅ [] demo_area 1 512 1024 402 ltac:(lia) demo_area_ok) as (h & m' & E & _ & _ & _ & _ & Ha & _).
  exists h, m'. split; [exact E|exact Ha].
Defined.

(** The first request is served. *)
Lemma rt_memheap_alloc_correct_witness :
  exists q h m', rt_memheap_alloc 1 100 demo_mh = Ok (Some q) (<[1%nat := h]> ∅, ([1%nat], m')) /\
    exists n, 100 <= n /\ exists bs', mh_inv 1 h m' bs' /\ allocs 1024 bs' ≡ₚ [(q, n)].
Proof.
  destruct demo_mh_inv as (h & m & E & HI). pose proof (rt_memheap_alloc_correct (<[1%nat := h]> ∅) [1%nat] 1 h m _ 100 (lookup_insert_eq _ _ _) HI ltac:(lia)) as H.
  assert (ret (rt_memheap_alloc 1 100) demo_mh = Some (Some 1048)) as Er by (vm_compute; reflexivity). apply ret_Ok in Er.
  destruct H as (r & h' & m' & E' & _ & Hr). rewrite insert_insert_eq, <- E, Er in E'. pose proof (Ok_state _ _ _ _ E') as Es. apply Ok_value in E' as <-. rewrite Es in Er.
  destruct Hr as (n & bs' & HI' & _ & Hn & Hp & _). assert (mh_start_addr h = 1024) as Hst.
  { assert (mh_start_addr <$> demo_mh.1 !! 1%nat = Some 1024) as X by (vm_compute; reflexivity). rewrite E in X. cbn [fst] in X.
    rewrite lookup_insert_eq in X. by injection X. }
  exists 1048, h', m'. split; [exact Er|]. exists n. split; [done|]. exists bs'. split; [done|]. by rewrite Hst in Hp.
Defined.

(** One allocation of 100 bytes. *)
Definition demo_mh1 : mh_state := run (rt_memheap_alloc 1 100) demo_mh.

Lemma demo_mh1_inv : exists h m bs n, demo_mh1 = (<[1%nat := h]> ∅, ([1%nat], m)) /\ mh_inv 1 h m bs /\ (1048, n) ∈ allocs (mh_start_addr h) bs.
Proof.
  destruct demo_mh_inv as (h & m & E & HI).
  destruct (run_memheap_alloc (<[1%nat := h]> ∅) [1%nat] 1 h m _ 100 (lookup_insert_eq _ _ _) HI ltac:(lia)) as (r & h' & m' & E' & Hr).
  assert (ret (rt_memheap_alloc 1 100) demo_mh = Some (Some 1048)) as Er by (vm_compute; reflexivity). apply ret_Ok in Er. fold demo_mh1 in Er.
  rewrite insert_insert_eq, <- E, Er in E'. pose proof (Ok_state _ _ _ _ E') as Es. apply Ok_value in E' as <-.
  destruct (allocated_spec 1 h m _ 100 1048 _ _ HI ltac:(lia) Hr) as (n & bs' & HI' & [S1 _ _] & _ & Hp & _).
  exists h', m', bs', n. split; [exact Es|]. split; [done|]. rewrite S1, Hp. left.
Qed.

Lemma rt_memheap_free_correct_witness : exists s, rt_memheap_free (Some 1048) demo_mh1 = Ok tt s.
Proof.
  destruct demo_mh1_inv as (h & m & bs & n & E & HI & Hq). rewrite E.
  destruct (rt_memheap_free_correct (<[1%nat := h]> ∅) [1%nat] 1 h m bs 1048 n (lookup_insert_eq _ _ _) HI Hq) as (h' & m' & bs' & E' & _).
  eexists. exact E'.
Defined.

Lemma rt_memheap_realloc_correct_witness : exists r s, rt_memheap_realloc 1 (Some 1048) 200 demo_mh1 = Ok r s.
Proof.
  destruct demo_mh1_inv as (h & m & bs & n & E & HI & Hq). rewrite E.
  destruct (rt_memheap_realloc_correct (<[1%nat := h]> ∅) [1%nat] 1 h m bs 1048 n 200 (lookup_insert_eq _ _ _) HI Hq ltac:(lia)) as (r & h' & m' & bs' & E' & _).
  eexists _, _. exact E'.
Defined.

Lemma demo_world : world demo_mh.1 [1%nat] demo_mh.2.2.
Proof.
  destruct demo_mh_inv as (h & m & -> & HI). cbn [fst snd]. split.
  - intros o ->%list_elem_of_singleton. exists h, [mk_blk 376 false]. by rewrite lookup_insert_eq.
  - intros o o' h1 h2 a ->%list_elem_of_singleton ->%list_elem_of_singleton. done.
Qed.

Lemma heap_malloc_correct_witness : exists hs' m', heap_malloc 1 100 demo_mh = Ok (Some 1048) (hs', ([1%nat], m')) /\
  gained demo_mh.1 [1%nat] demo_mh.2.2 100 1048 hs' m'.
Proof.
  destruct (heap_malloc_correct demo_mh.1 [1%nat] demo_mh.2.2 1 100 demo_world ltac:(left) ltac:(lia)) as (r & hs' & m' & E & Hr).
  assert (ret (heap_malloc 1 100) demo_mh = Some (Some 1048)) as Er by (vm_compute; reflexivity). apply ret_Ok in Er.
  assert (demo_mh = (demo_mh.1, ([1%nat], demo_mh.2.2))) as Ed by (destruct demo_mh_inv as (h & m & -> & _); done).
  rewrite <- Ed, Er in E. pose proof (Ok_state _ _ _ _ E) as Es. apply Ok_value in E as <-. exists hs', m'. split; [by rewrite Er, Es|exact Hr].
Defined.

(** ** Limits of the code *)

(** The size of [rt_memheap_realloc] is not checked for overflow: close to the
    end of the address space [newsize + RT_MEMHEAP_MINIALLOC] wraps, the free
    item behind the block seems to be large enough, and the call succeeds and
    overwrites the header of the block, which can not be freed any more. *)
Theorem memheap_realloc_wraps :
  ret (rt_memheap_realloc 1 (Some 1048) (2 ^ 32 - 12)) demo_mh1 = Some (Some 1048) /\
  (rt_memheap_realloc 1 (Some 1048) (2 ^ 32 - 12) ≫= rt_memheap_free) demo_mh1 = Fault.
Proof. split; vm_compute; reflexivity. Qed.

(** A request for all of the available bytes is refused. *)
Theorem memheap_exact_fit_refused : ret (rt_memheap_alloc 1 352) demo_mh = Some None /\ (mh_available_size <$> demo_mh.1 !! 1%nat) = Some 352.
Proof. split; vm_compute; reflexivity. Qed.
