(* ===== verification/RingBuffer.v ===== *)
(** * The byte ring: components/drivers/src/ringbuffer.c

    A ring of bytes with a mirror bit next to each index, the buffer between
    the serial drivers and their readers.  The file ends with the ring that
    lives on the dynamic heap. *)

From S2P Require Import Prelude Kernel MsgQueue Mem MemSpec Allocator.

(** [struct rt_ringbuffer]; [buffer] is the memory at [buffer_ptr].  A mirror is
    a bit field of 1 bit, an index one of 15 bits, [buffer_size] is signed. *)
Record rt_ringbuffer := mk_rb {
  buffer : list Z;
  read_mirror : Z;
  read_index : Z;
  write_mirror : Z;
  write_index : Z;
  buffer_size : Z
}.

Definition set_buffer (f : list Z -> list Z) (rb : rt_ringbuffer) : rt_ringbuffer :=
  mk_rb (f (buffer rb)) (read_mirror rb) (read_index rb) (write_mirror rb) (write_index rb) (buffer_size rb).
Definition set_read (m i : Z) (rb : rt_ringbuffer) : rt_ringbuffer :=
  mk_rb (buffer rb) (m mod 2) (i mod 2 ^ 15) (write_mirror rb) (write_index rb) (buffer_size rb).
Definition set_write (m i : Z) (rb : rt_ringbuffer) : rt_ringbuffer :=
  mk_rb (buffer rb) (read_mirror rb) (read_index rb) (m mod 2) (i mod 2 ^ 15) (buffer_size rb).

Inductive rt_ringbuffer_state :=
| RT_RINGBUFFER_EMPTY
| RT_RINGBUFFER_FULL
| RT_RINGBUFFER_HALFFULL.

#[global] Instance ringbuffer_state_eq_dec : EqDecision rt_ringbuffer_state.
Proof. solve_decision. Defined.

Definition rt_ringbuffer_status (rb : rt_ringbuffer) : rt_ringbuffer_state :=
  if read_index rb =? write_index rb then
    if read_mirror rb =? write_mirror rb then RT_RINGBUFFER_EMPTY else RT_RINGBUFFER_FULL
  else RT_RINGBUFFER_HALFFULL.

Definition rt_ringbuffer_init (pool : list Z) (size : Z) : option rt_ringbuffer :=
  if 0 <? size then Some (mk_rb pool 0 0 0 0 (s16 (RT_ALIGN_DOWN size RT_ALIGN_SIZE))) else None.

Definition rt_ringbuffer_data_len (rb : rt_ringbuffer) : Z :=
  match rt_ringbuffer_status rb with
  | RT_RINGBUFFER_EMPTY => 0
  | RT_RINGBUFFER_FULL => u32 (buffer_size rb)
  | RT_RINGBUFFER_HALFFULL =>
      if read_index rb <? write_index rb then write_index rb - read_index rb
      else u32 (buffer_size rb - (read_index rb - write_index rb))
  end.

Definition rt_ringbuffer_space_len (rb : rt_ringbuffer) : Z := u32 (buffer_size rb - rt_ringbuffer_data_len rb).

(** [memcpy(&buffer_ptr[off], &ptr[from], n)] and [memcpy(_, &buffer_ptr[off], n)];
    a copy past the end of either region faults. *)
Definition slice (l : list Z) (from n : Z) : option (list Z) :=
  if (0 <=? from) && (0 <=? n) && (from + n <=? Z.of_nat (length l))
  then Some (take (Z.to_nat n) (drop (Z.to_nat from) l)) else None.

Definition copy_in (off : Z) (ptr : list Z) (from n : Z) : M rt_ringbuffer unit :=
  bytes ← deref (fun _ => slice ptr from n);
  _ ← deref (fun rb => slice (buffer rb) off n);
  modify (set_buffer (list_inserts (Z.to_nat off) bytes)).

Definition copy_out (off n : Z) : M rt_ringbuffer (list Z) := deref (fun rb => slice (buffer rb) off n).

(** What [rt_ringbuffer_put] and [rt_ringbuffer_put_force] share: copy [length]
    bytes in one or two pieces and move [write_index]; the result says whether
    the write went into the other side of the mirror. *)
Definition write_block (ptr : list Z) (length : Z) : M rt_ringbuffer bool :=
  rb ← get;
  let room := buffer_size rb - write_index rb in
  if length <? room then
    copy_in (write_index rb) ptr 0 length;;
    modify (set_write (write_mirror rb) (write_index rb + length));;
    mret false
  else
    copy_in (write_index rb) ptr 0 room;;
    copy_in 0 ptr room (length - room);;
    modify (set_write (Z.lnot (write_mirror rb)) (length - room));;
    mret true.

Definition rt_ringbuffer_put (ptr : list Z) (length : Z) : M rt_ringbuffer Z :=
  rb ← get;
  let size := u16 (rt_ringbuffer_space_len rb) in
  if size =? 0 then mret 0
  else
    let length := if size <? length then size else length in
    write_block ptr length;;
    mret length.

Definition rt_ringbuffer_put_force (ptr : list Z) (length : Z) : M rt_ringbuffer Z :=
  rb ← get;
  let space_length := u16 (rt_ringbuffer_space_len rb) in
  let (ptr, length) :=
    if buffer_size rb <? length then (drop (Z.to_nat (length - buffer_size rb)) ptr, buffer_size rb) else (ptr, length) in
  wrapped ← write_block ptr length;
  (if wrapped : bool then
     when (space_length <? length)
       (modify (fun rb => set_read (Z.lnot (read_mirror rb)) (write_index rb) rb))
   else
     when (space_length <? length) (modify (fun rb => set_read (read_mirror rb) (write_index rb) rb)));;
  mret length.

(** The result: the number of bytes, and the bytes stored at [ptr]. *)
Definition rt_ringbuffer_get (length : Z) : M rt_ringbuffer (Z * list Z) :=
  rb ← get;
  let size := rt_ringbuffer_data_len rb in
  if size =? 0 then mret (0, [])
  else
    let length := if size <? length then u16 size else length in
    let room := buffer_size rb - read_index rb in
    if length <? room then
      bytes ← copy_out (read_index rb) length;
      modify (set_read (read_mirror rb) (read_index rb + length));;
      mret (length, bytes)
    else
      bytes1 ← copy_out (read_index rb) room;
      bytes2 ← copy_out 0 (length - room);
      modify (set_read (Z.lnot (read_mirror rb)) (length - room));;
      mret (length, bytes1 ++ bytes2).

(** [buffer_ptr[write_index] = ch] *)
Definition store_char (ch : Z) : M rt_ringbuffer unit :=
  rb ← get; copy_in (write_index rb) [ch] 0 1.

Definition rt_ringbuffer_putchar (ch : Z) : M rt_ringbuffer Z :=
  rb ← get;
  if rt_ringbuffer_space_len rb =? 0 then mret 0
  else
    store_char ch;;
    (if write_index rb =? buffer_size rb - 1
     then modify (set_write (Z.lnot (write_mirror rb)) 0)
     else modify (set_write (write_mirror rb) (write_index rb + 1)));;
    mret 1.

Definition rt_ringbuffer_putchar_force (ch : Z) : M rt_ringbuffer Z :=
  rb ← get;
  let old_state := rt_ringbuffer_status rb in
  store_char ch;;
  (if write_index rb =? buffer_size rb - 1 then
     modify (set_write (Z.lnot (write_mirror rb)) 0);;
     when (bool_decide (old_state = RT_RINGBUFFER_FULL))
       (modify (fun rb => set_read (Z.lnot (read_mirror rb)) (write_index rb) rb))
   else
     modify (set_write (write_mirror rb) (write_index rb + 1));;
     when (bool_decide (old_state = RT_RINGBUFFER_FULL))
       (modify (fun rb => set_read (read_mirror rb) (write_index rb) rb)));;
  mret 1.

Definition rt_ringbuffer_getchar : M rt_ringbuffer (Z * list Z) :=
  rb ← get;
  if rt_ringbuffer_data_len rb =? 0 then mret (0, [])
  else
    ch ← copy_out (read_index rb) 1;
    (if read_index rb =? buffer_size rb - 1
     then modify (set_read (Z.lnot (read_mirror rb)) 0)
     else modify (set_read (read_mirror rb) (read_index rb + 1)));;
    mret (1, ch).

Definition rt_ringbuffer_reset : M rt_ringbuffer unit :=
  modify (fun rb => set_write 0 0 (set_read 0 0 rb)).

Definition rt_ringbuffer_get_size (rb : rt_ringbuffer) : Z := u16 (buffer_size rb).

(** ** A ring on the dynamic heap

    The result of [rt_ringbuffer_create]: [None] for [RT_NULL], otherwise the
    address of the structure and, once it is initialised, its pool and size. *)

Definition sizeof_ringbuffer : Z := 12.

Section on_heap.
Context {S : Type} (malloc : Z -> M S (option Z)) (free : option Z -> M S unit).

Definition rt_ringbuffer_create (size : Z) : M S (option (Z * option (Z * Z))) :=
  rt_assert (0 <? size);;
  let size := u16 (RT_ALIGN_DOWN size RT_ALIGN_SIZE) in
  rb ← malloc sizeof_ringbuffer;
  match rb with
  | None => mret None
  | Some rb =>
      pool ← malloc size;
      match pool with
      | None => free (Some rb);; mret (Some (rb, None))
      | Some pool =>
          rt_assert (0 <? s16 size);;
          mret (Some (rb, Some (pool, s16 (RT_ALIGN_DOWN (s16 size) RT_ALIGN_SIZE))))
      end
  end.

Definition rt_ringbuffer_destroy (rb buffer_ptr : Z) : M S unit :=
  free (Some buffer_ptr);;
  free (Some rb).
End on_heap.

(** ** The ring as a bounded queue *)

(** The cell [k] places behind the start of a ring of [n] cells, [k < 2 * n]. *)
Definition wrap (n k : nat) : nat := if Nat.ltb k n then k else (k - n)%nat.

Definition ring_read (rb : rt_ringbuffer) : nat := Z.to_nat (read_index rb).

(** [rb] holds the bytes [q], oldest first, in a ring of [n] cells. *)
Record ring_rep (n : nat) (rb : rt_ringbuffer) (q : list Z) : Prop := {
  rr_size : buffer_size rb = Z.of_nat n;
  rr_pos : (0 < n)%nat /\ Z.of_nat n < 2 ^ 15;
  rr_pool : (n <= length (buffer rb))%nat;
  rr_len : (length q <= n)%nat;
  rr_read : 0 <= read_index rb < Z.of_nat n;
  rr_write : write_index rb = Z.of_nat (wrap n (ring_read rb + length q));
  rr_rmirror : read_mirror rb = 0 \/ read_mirror rb = 1;
  rr_wmirror : write_mirror rb
               = if Nat.ltb (ring_read rb + length q) n then read_mirror rb else 1 - read_mirror rb;
  rr_cells : forall i, (i < length q)%nat -> buffer rb !! wrap n (ring_read rb + i) = q !! i
}.

Lemma wrap_spec n k : (k < n /\ wrap n k = k)%nat \/ (n <= k /\ wrap n k = k - n)%nat.
Proof. unfold wrap. destruct (Nat.ltb_spec k n); auto. Qed.

(** Arithmetic of the cells in the goal, the innermost [wrap] first. *)
Ltac ring_lia :=
  unfold ring_read in *;
  repeat match goal with
  | |- context [wrap ?n ?k] =>
      lazymatch k with context [wrap _ _] => fail | _ => destruct (wrap_spec n k) as [[? ->]|[? ->]] end
  | |- context [Nat.ltb ?a ?b] =>
      lazymatch a with context [wrap _ _] => fail | _ => destruct (Nat.ltb_spec a b) end
  end; lia.

Lemma data_len_rep n rb q : ring_rep n rb q -> rt_ringbuffer_data_len rb = Z.of_nat (length q).
Proof.
  intros []. unfold rt_ringbuffer_data_len, rt_ringbuffer_status.
  destruct (Nat.ltb_spec (ring_read rb + length q) n);
    unfold wrap in *; destruct (Nat.ltb_spec (ring_read rb + length q) n); try lia; unfold ring_read in *;
    destruct (Z.eqb_spec (read_index rb) (write_index rb)), (Z.eqb_spec (read_mirror rb) (write_mirror rb)),
      (Z.ltb_spec (read_index rb) (write_index rb)); rewrite ?u32_small by lia; lia.
Qed.

Lemma space_len_rep n rb q : ring_rep n rb q -> rt_ringbuffer_space_len rb = Z.of_nat (n - length q).
Proof.
  intros R. unfold rt_ringbuffer_space_len. rewrite (data_len_rep _ _ _ R). destruct R. rewrite u32_small; lia.
Qed.

Lemma status_full n rb q :
  ring_rep n rb q -> bool_decide (rt_ringbuffer_status rb = RT_RINGBUFFER_FULL) = Nat.eqb (length q) n.
Proof.
  intros []. unfold rt_ringbuffer_status.
  destruct (Nat.ltb_spec (ring_read rb + length q) n);
    unfold wrap in *; destruct (Nat.ltb_spec (ring_read rb + length q) n); try lia; unfold ring_read in *;
    destruct (Nat.eqb_spec (length q) n), (Z.eqb_spec (read_index rb) (write_index rb)),
      (Z.eqb_spec (read_mirror rb) (write_mirror rb)); try done; lia.
Qed.

(** *** Copies *)

Lemma run_slice l from n :
  0 <= from -> 0 <= n -> from + n <= Z.of_nat (length l) ->
  slice l from n = Some (take (Z.to_nat n) (drop (Z.to_nat from) l)).
Proof. intros. unfold slice. by rewrite !(proj2 (Z.leb_le _ _)) by done. Qed.

(** The buffer after a copy: the cells [off .. off + n) come from [ptr]. *)
Definition copied (off : nat) (ptr : list Z) (from n : nat) (b b' : list Z) : Prop :=
  length b' = length b /\
  forall i, b' !! i = if Nat.leb off i && Nat.ltb i (off + n) then ptr !! (from + (i - off))%nat else b !! i.

Lemma run_copy_in off ptr from n rb :
  0 <= off -> 0 <= from -> 0 <= n -> from + n <= Z.of_nat (length ptr) -> off + n <= Z.of_nat (length (buffer rb)) ->
  exists b', copy_in off ptr from n rb = Ok tt (set_buffer (fun _ => b') rb) /\
    copied (Z.to_nat off) ptr (Z.to_nat from) (Z.to_nat n) (buffer rb) b'.
Proof.
  intros. unfold copy_in. eexists. split.
  - erewrite bind_Ok by (apply run_deref, run_slice; lia). erewrite bind_Ok by (apply run_deref, run_slice; lia).
    reflexivity.
  - split; [by rewrite length_inserts|]. intros i.
    set (bytes := take _ _). assert (length bytes = Z.to_nat n) as El
      by (unfold bytes; rewrite length_take, length_drop; lia).
    destruct (Nat.leb_spec (Z.to_nat off) i); destruct (Nat.ltb_spec i (Z.to_nat off + Z.to_nat n)); simpl.
    + rewrite list_lookup_inserts by lia. unfold bytes. rewrite lookup_take_lt, lookup_drop by lia. done.
    + rewrite list_lookup_inserts_ge by lia. done.
    + rewrite list_lookup_inserts_lt by lia. done.
    + lia.
Qed.

(** What a write of [k] bytes leaves: the [k] cells from [write_index] on hold
    them, the other cells of the ring are unchanged. *)
Record written (n : nat) (ptr : list Z) (k : nat) (rb rb' : rt_ringbuffer) : Prop := {
  wr_size : buffer_size rb' = buffer_size rb;
  wr_pool : length (buffer rb') = length (buffer rb);
  wr_read : read_index rb' = read_index rb;
  wr_rmirror : read_mirror rb' = read_mirror rb;
  wr_write : write_index rb' = Z.of_nat (wrap n (Z.to_nat (write_index rb) + k));
  wr_wmirror : write_mirror rb'
    = if Nat.ltb (Z.to_nat (write_index rb) + k) n then write_mirror rb else 1 - write_mirror rb;
  wr_new : forall i, (i < k)%nat -> buffer rb' !! wrap n (Z.to_nat (write_index rb) + i) = ptr !! i;
  wr_old : forall i, (k <= i < n)%nat ->
    buffer rb' !! wrap n (Z.to_nat (write_index rb) + i) = buffer rb !! wrap n (Z.to_nat (write_index rb) + i)
}.

Lemma lnot_mod_2 m : m = 0 \/ m = 1 -> Z.lnot m mod 2 = 1 - m.
Proof. by intros [-> | ->]. Qed.

Lemma run_write_block n ptr k rb :
  buffer_size rb = Z.of_nat n -> (0 < n)%nat /\ Z.of_nat n < 2 ^ 15 -> (n <= length (buffer rb))%nat ->
  0 <= write_index rb < Z.of_nat n -> write_mirror rb = 0 \/ write_mirror rb = 1 ->
  (k <= n)%nat -> (k <= length ptr)%nat ->
  exists rb', write_block ptr (Z.of_nat k) rb = Ok (negb (Nat.ltb (Z.to_nat (write_index rb) + k) n)) rb' /\
    written n ptr k rb rb'.
Proof.
  intros Hs Hn Hp Hw Hm Hk Hl. unfold write_block. erewrite bind_Ok by reflexivity. cbv beta zeta. rewrite Hs.
  destruct (Z.ltb_spec (Z.of_nat k) (Z.of_nat n - write_index rb)) as [Hlt|Hge].
  - destruct (run_copy_in (write_index rb) ptr 0 (Z.of_nat k) rb) as (b' & E & Hb1 & Hb2); try lia.
    run_step E. eexists. split.
    { rewrite (proj2 (Nat.ltb_lt _ _)) by lia. reflexivity. }
    rewrite Nat2Z.id in Hb2. simpl in Hb2. split; simpl; try done.
    + rewrite Z.mod_small by lia. unfold wrap. rewrite (proj2 (Nat.ltb_lt _ _)) by lia. lia.
    + rewrite (proj2 (Nat.ltb_lt _ _)) by lia. destruct Hm as [-> | ->]; done.
    + intros i Hi. rewrite Hb2. unfold wrap. rewrite (proj2 (Nat.ltb_lt (_ + i) n)) by lia.
      rewrite (proj2 (Nat.leb_le _ _)), (proj2 (Nat.ltb_lt _ _)) by lia. simpl. f_equal. lia.
    + intros i Hi. rewrite Hb2. unfold wrap.
      destruct (Nat.ltb_spec (Z.to_nat (write_index rb) + i) n).
      * rewrite (proj2 (Nat.ltb_ge _ (_ + k))) by lia. by rewrite andb_false_r.
      * rewrite (proj2 (Nat.leb_gt _ _)) by lia. done.
  - destruct (run_copy_in (write_index rb) ptr 0 (Z.of_nat n - write_index rb) rb) as (b1 & E1 & Hb1 & Hb2); try lia.
    run_step E1.
    destruct (run_copy_in 0 ptr (Z.of_nat n - write_index rb) (Z.of_nat k - (Z.of_nat n - write_index rb))
      (set_buffer (fun _ => b1) rb)) as (b2 & E2 & Hc1 & Hc2); simpl; try lia.
    run_step E2. eexists. split.
    { rewrite (proj2 (Nat.ltb_ge _ _)) by lia. reflexivity. }
    simpl in Hc1, Hc2. split; simpl; try done.
    + lia.
    + rewrite Z.mod_small by lia. unfold wrap. rewrite (proj2 (Nat.ltb_ge _ _)) by lia. lia.
    + rewrite (proj2 (Nat.ltb_ge _ _)) by lia. by apply lnot_mod_2.
    + intros i Hi. rewrite Hc2, Hb2. unfold wrap. destruct (Nat.ltb_spec (Z.to_nat (write_index rb) + i) n).
      * rewrite (proj2 (Nat.ltb_ge _ (Z.to_nat _))) by lia.
        rewrite (proj2 (Nat.leb_le _ _)), (proj2 (Nat.ltb_lt _ _)) by lia. simpl. f_equal. lia.
      * rewrite (proj2 (Nat.ltb_lt _ (Z.to_nat _))) by lia. simpl. f_equal. lia.
    + intros i Hi. rewrite Hc2, Hb2. unfold wrap. destruct (Nat.ltb_spec (Z.to_nat (write_index rb) + i) n); [lia|].
      rewrite (proj2 (Nat.ltb_ge _ (Z.to_nat _))) by lia. simpl.
      rewrite (proj2 (Nat.leb_gt _ _)) by lia. done.
Qed.

Lemma rep_windex n rb q : ring_rep n rb q -> 0 <= write_index rb < Z.of_nat n.
Proof. intros []. rewrite rr_write0. ring_lia. Qed.

Lemma rep_wmirror n rb q : ring_rep n rb q -> write_mirror rb = 0 \/ write_mirror rb = 1.
Proof. intros []. rewrite rr_wmirror0. case_match; lia. Qed.

Lemma rep_written n rb q ptr k :
  ring_rep n rb q -> (k <= n)%nat -> (k <= length ptr)%nat ->
  exists rb', write_block ptr (Z.of_nat k) rb = Ok (negb (Nat.ltb (Z.to_nat (write_index rb) + k) n)) rb' /\
    written n ptr k rb rb'.
Proof.
  intros R Hk Hl. pose proof (rep_windex _ _ _ R). pose proof (rep_wmirror _ _ _ R). destruct R.
  by apply run_write_block.
Qed.

(** A write that fits appends. *)
Lemma written_append n rb rb' q ptr k :
  ring_rep n rb q -> written n ptr k rb rb' -> (length q + k <= n)%nat -> (k <= length ptr)%nat ->
  ring_rep n rb' (q ++ take k ptr).
Proof.
  intros R W Hk Hl. pose proof (rep_windex _ _ _ R) as Hw. destruct R, W.
  assert (length (q ++ take k ptr) = (length q + k)%nat) as El by (rewrite length_app, length_take; lia).
  assert (ring_read rb' = ring_read rb) as Er by (unfold ring_read; by rewrite wr_read0).
  split; rewrite ?El, ?Er; try congruence; try lia.
  - rewrite wr_write0. f_equal. rewrite rr_write0, Nat2Z.id. ring_lia.
  - rewrite wr_wmirror0, rr_wmirror0, wr_rmirror0, rr_write0, Nat2Z.id. ring_lia.
  - intros i Hi. destruct (Nat.lt_ge_cases i (length q)) as [Hq|Hq].
    + rewrite lookup_app_l by done. rewrite <- rr_cells0 by done.
      assert (exists j, (k <= j < n)%nat /\ wrap n (ring_read rb + i) = wrap n (Z.to_nat (write_index rb) + j))
        as (j & Hj & ->).
      { exists (n - length q + i)%nat. split; [lia|]. rewrite rr_write0, Nat2Z.id. ring_lia. }
      by apply wr_old0.
    + rewrite lookup_app_r by done. rewrite lookup_take_lt by lia. rewrite <- wr_new0 by lia.
      f_equal. rewrite rr_write0, Nat2Z.id. ring_lia.
Qed.

(** The one-byte write of the two [putchar] functions. *)
Definition advance_write (rb : rt_ringbuffer) : M rt_ringbuffer unit :=
  if write_index rb =? buffer_size rb - 1
  then modify (set_write (Z.lnot (write_mirror rb)) 0)
  else modify (set_write (write_mirror rb) (write_index rb + 1)).

Lemma rep_write_char n rb q ch :
  ring_rep n rb q ->
  exists rb1 rb', store_char ch rb = Ok tt rb1 /\ advance_write rb rb1 = Ok tt rb' /\ written n [ch] 1 rb rb' /\
    (write_index rb =? buffer_size rb - 1) = negb (Nat.ltb (Z.to_nat (write_index rb) + 1) n).
Proof.
  intros R. pose proof (rep_windex _ _ _ R) as Hw. pose proof (rep_wmirror _ _ _ R) as Hm. destruct R.
  destruct (run_copy_in (write_index rb) [ch] 0 1 rb) as (b' & E & Hb1 & Hb2); simpl; try lia.
  unfold store_char, advance_write.
  exists (set_buffer (fun _ => b') rb),
    ((if negb (Nat.ltb (Z.to_nat (write_index rb) + 1) n) then set_write (Z.lnot (write_mirror rb)) 0
      else set_write (write_mirror rb) (write_index rb + 1)) (set_buffer (fun _ => b') rb)).
  split; [erewrite bind_Ok by reflexivity; exact E|].
  assert ((write_index rb =? buffer_size rb - 1) = negb (Nat.ltb (Z.to_nat (write_index rb) + 1) n)) as Ee.
  { destruct (Nat.ltb_spec (Z.to_nat (write_index rb) + 1) n), (Z.eqb_spec (write_index rb) (buffer_size rb - 1)); simpl; lia. }
  split; [rewrite Ee; destruct (negb (Nat.ltb (Z.to_nat (write_index rb) + 1) n)); reflexivity|]. split; [|done]. change (Z.to_nat 1) with 1%nat in Hb2. change (Z.to_nat 0) with 0%nat in Hb2.
  destruct (Nat.ltb_spec (Z.to_nat (write_index rb) + 1) n) as [Hlt|Hge]; simpl; split; simpl; try done;
    unfold wrap; rewrite ?(proj2 (Nat.ltb_lt (Z.to_nat (write_index rb) + 1) n)),
      ?(proj2 (Nat.ltb_ge (Z.to_nat (write_index rb) + 1) n)) by lia.
  - rewrite Z.mod_small by lia. lia.
  - destruct Hm as [-> | ->]; done.
  - intros i Hi. assert (i = 0%nat) as -> by lia. rewrite (proj2 (Nat.ltb_lt _ _)) by lia. rewrite Hb2.
    rewrite (proj2 (Nat.leb_le _ _)), (proj2 (Nat.ltb_lt _ _)) by lia.
    by rewrite Nat.add_0_r, Nat.sub_diag.
  - intros i Hi. rewrite Hb2. destruct (Nat.ltb_spec (Z.to_nat (write_index rb) + i) n).
    + rewrite (proj2 (Nat.ltb_ge _ (_ + 1))) by lia. by rewrite andb_false_r.
    + rewrite (proj2 (Nat.leb_gt _ _)) by lia. done.
  - rewrite Z.mod_small by lia. lia.
  - by apply lnot_mod_2.
  - intros i Hi. assert (i = 0%nat) as -> by lia. rewrite (proj2 (Nat.ltb_lt _ _)) by lia. rewrite Hb2.
    rewrite (proj2 (Nat.leb_le _ _)), (proj2 (Nat.ltb_lt _ _)) by lia.
    by rewrite Nat.add_0_r, Nat.sub_diag.
  - intros i Hi. rewrite Hb2. rewrite (proj2 (Nat.ltb_ge _ n)) by lia.
    rewrite (proj2 (Nat.leb_gt _ _)) by lia. done.
Qed.

(** A write that does not fit and takes [read_index] along to [write_index]
    leaves a full ring, the newest bytes; [m] is the mirror of the reader. *)
Lemma written_over n rb rb' q ptr k m :
  ring_rep n rb q -> written n ptr k rb rb' -> (n < length q + k)%nat -> (k <= n)%nat -> (k <= length ptr)%nat ->
  m mod 2 = 1 - write_mirror rb' ->
  ring_rep n (set_read m (write_index rb') rb') (drop (length q + k - n) q ++ take k ptr).
Proof.
  intros R W Hk Hkn Hl Em. pose proof (rep_windex _ _ _ R) as Hw. pose proof (rep_wmirror _ _ _ R) as Hwm. destruct R, W.
  assert (length (drop (length q + k - n) q ++ take k ptr) = n) as El by (rewrite length_app, length_drop, length_take; lia).
  assert (0 <= write_index rb' < Z.of_nat n) as Hw' by (rewrite wr_write0; ring_lia).
  assert (write_mirror rb' = 0 \/ write_mirror rb' = 1) as Hm' by (rewrite wr_wmirror0; case_match; lia).
  split; unfold ring_read; cbn [set_read buffer_size buffer read_index read_mirror write_index write_mirror];
    rewrite ?El, ?Em, ?(Z.mod_small (write_index rb') _) by lia; try lia; try congruence.
  - unfold wrap. rewrite (proj2 (Nat.ltb_ge _ _)) by lia. lia.
  - rewrite (proj2 (Nat.ltb_ge _ _)) by lia. destruct Hm' as [-> | ->]; done.
  - intros i Hi. destruct (Nat.lt_ge_cases i (n - k)) as [Hq|Hq].
    + rewrite lookup_app_l by (rewrite length_drop; lia). rewrite lookup_drop, <- rr_cells0 by lia.
      assert (wrap n (Z.to_nat (write_index rb') + i) = wrap n (Z.to_nat (write_index rb) + (k + i))) as ->.
      { rewrite wr_write0, Nat2Z.id. ring_lia. }
      rewrite wr_old0 by lia. f_equal. rewrite rr_write0, Nat2Z.id. ring_lia.
    + rewrite lookup_app_r by (rewrite length_drop; lia). rewrite length_drop, lookup_take_lt by lia.
      rewrite <- wr_new0 by lia. f_equal. rewrite wr_write0, Nat2Z.id. ring_lia.
Qed.

(** *** Reads *)

Lemma rep_slice n rb q off k d :
  ring_rep n rb q -> 0 <= off -> 0 <= k -> off + k <= Z.of_nat n -> (d + Z.to_nat k <= length q)%nat ->
  (forall i, (i < Z.to_nat k)%nat -> wrap n (ring_read rb + (d + i)) = (Z.to_nat off + i)%nat) ->
  copy_out off k rb = Ok (take (Z.to_nat k) (drop d q)) rb.
Proof.
  intros R Ho Hk Hn Hd Hi. destruct R. unfold copy_out. apply run_deref. rewrite run_slice by lia. f_equal.
  apply list_eq. intros i. destruct (Nat.lt_ge_cases i (Z.to_nat k)) as [Hlt|Hge].
  - rewrite !lookup_take_lt, !lookup_drop, <- rr_cells0, Hi by lia. done.
  - rewrite !lookup_take_ge by done. done.
Qed.

Lemma rep_drop n rb q k r m :
  ring_rep n rb q -> (k <= length q)%nat -> r = Z.of_nat (wrap n (ring_read rb + k)) ->
  m mod 2 = (if Nat.ltb (ring_read rb + k) n then read_mirror rb else 1 - read_mirror rb) ->
  ring_rep n (set_read m r rb) (drop k q).
Proof.
  intros R Hk -> Em. pose proof (rep_wmirror _ _ _ R) as Hwm. destruct R.
  assert (0 <= Z.of_nat (wrap n (ring_read rb + k)) < Z.of_nat n) as Hr by ring_lia.
  assert (ring_read (set_read m (Z.of_nat (wrap n (ring_read rb + k))) rb) = wrap n (ring_read rb + k)) as Er.
  { unfold ring_read at 1, set_read. simpl. rewrite Z.mod_small by lia. by rewrite Nat2Z.id. }
  split; rewrite ?Er, ?length_drop; cbn [set_read buffer_size buffer read_index read_mirror write_index write_mirror];
    rewrite ?Em, ?(Z.mod_small (Z.of_nat _) _) by lia; try lia; try done.
  - rewrite rr_write0. f_equal. ring_lia.
  - case_match; lia.
  - rewrite rr_wmirror0. ring_lia.
  - intros i Hi. rewrite lookup_drop, <- rr_cells0 by lia. f_equal. ring_lia.
Qed.

(** ** The operations *)

(** The last [n] elements. *)
Definition lastn (n : nat) (l : list Z) : list Z := drop (length l - n) l.

Definition lengths_ok (ptr : list Z) (k : nat) : Prop := (k <= length ptr)%nat /\ Z.of_nat k < 2 ^ 16.

Lemma run_put n rb q ptr k :
  ring_rep n rb q -> lengths_ok ptr k ->
  exists rb', rt_ringbuffer_put ptr (Z.of_nat k) rb = Ok (Z.of_nat (k `min` (n - length q))) rb' /\
    ring_rep n rb' (q ++ take (n - length q) (take k ptr)).
Proof.
  intros R [Hp Hk]. pose proof R as [? ? ? ? _ _ _ _ _]. unfold rt_ringbuffer_put. erewrite bind_Ok by reflexivity. cbv zeta beta.
  rewrite (space_len_rep _ _ _ R), u16_small by lia.
  destruct (Z.eqb_spec (Z.of_nat (n - length q)) 0) as [E0|E0].
  - eexists. split; [|by replace (n - length q)%nat with 0%nat by lia; rewrite take_0, app_nil_r].
    by replace (k `min` (n - length q))%nat with 0%nat by lia.
  - assert ((if Z.of_nat (n - length q) <? Z.of_nat k then Z.of_nat (n - length q) else Z.of_nat k)
      = Z.of_nat (k `min` (n - length q))) as -> by (destruct (Z.ltb_spec (Z.of_nat (n - length q)) (Z.of_nat k)); lia).
    destruct (rep_written n rb q ptr (k `min` (n - length q)) R) as (rb' & E & W); [lia..|].
    run_step E. exists rb'. split; [done|]. rewrite take_take, Nat.min_comm.
    apply (written_append n rb rb'); [done|done|lia|lia].
Qed.

Lemma run_get n rb q k :
  ring_rep n rb q -> Z.of_nat k < 2 ^ 16 ->
  exists rb', rt_ringbuffer_get (Z.of_nat k) rb = Ok (Z.of_nat (k `min` length q), take k q) rb' /\
    ring_rep n rb' (drop k q).
Proof.
  intros R Hk. pose proof R as [Hs Hn Hp Hl Hr _ Hm _ _]. unfold rt_ringbuffer_get. erewrite bind_Ok by reflexivity. cbv zeta beta.
  rewrite (data_len_rep _ _ _ R), Hs.
  destruct (Z.eqb_spec (Z.of_nat (length q)) 0) as [E0|E0].
  { assert (q = []) as -> by (apply length_zero_iff_nil; lia). exists rb. by rewrite drop_nil, take_nil, Nat.min_0_r. }
  rewrite (u16_small (Z.of_nat (length q))) by lia.
  assert ((if Z.of_nat (length q) <? Z.of_nat k then Z.of_nat (length q) else Z.of_nat k)
    = Z.of_nat (k `min` length q)) as -> by (destruct (Z.ltb_spec (Z.of_nat (length q)) (Z.of_nat k)); lia).
  assert (take (k `min` length q) q = take k q) as <-
    by (destruct (Nat.le_ge_cases k (length q)); [by rewrite Nat.min_l|rewrite Nat.min_r, !take_ge by lia; done]).
  assert (drop (k `min` length q) q = drop k q) as <-
    by (destruct (Nat.le_ge_cases k (length q)); [by rewrite Nat.min_l|rewrite Nat.min_r, !drop_ge by lia; done]).
  set (j := (k `min` length q)%nat). assert (j <= length q)%nat as Hj by lia. clearbody j.
  destruct (Z.ltb_spec (Z.of_nat j) (Z.of_nat n - read_index rb)) as [Hlt|Hge].
  - erewrite bind_Ok by (apply (rep_slice n rb q _ _ 0 R); [lia..|intros; ring_lia]).
    rewrite Nat2Z.id, drop_0. eexists. split; [reflexivity|]. apply rep_drop; [done|done|ring_lia|].
    rewrite (proj2 (Nat.ltb_lt _ _)) by (unfold ring_read; lia). by destruct Hm as [-> | ->].
  - erewrite bind_Ok by (apply (rep_slice n rb q _ _ 0 R); [lia..|intros; ring_lia]).
    erewrite bind_Ok by (apply (rep_slice n rb q _ _ (Z.to_nat (Z.of_nat n - read_index rb)) R); [lia..|intros; ring_lia]).
    eexists. split.
    { erewrite bind_Ok by reflexivity. rewrite drop_0, take_take_drop. do 2 f_equal.
      unfold mret, M_ret. do 4 f_equal. lia. }
    apply rep_drop; [done|done|ring_lia|].
    rewrite (proj2 (Nat.ltb_ge _ _)) by (unfold ring_read; lia). by apply lnot_mod_2.
Qed.

Lemma run_putchar n rb q ch :
  ring_rep n rb q ->
  exists rb', rt_ringbuffer_putchar ch rb = Ok (Z.of_nat (1 `min` (n - length q))) rb' /\
    ring_rep n rb' (q ++ take (n - length q) [ch]).
Proof.
  intros R. pose proof R as [_ _ _ Hl _ _ _ _ _]. unfold rt_ringbuffer_putchar. erewrite bind_Ok by reflexivity. cbv beta.
  rewrite (space_len_rep _ _ _ R). destruct (Z.eqb_spec (Z.of_nat (n - length q)) 0) as [E0|E0].
  - exists rb. replace (n - length q)%nat with 0%nat by lia. by rewrite take_0, app_nil_r.
  - destruct (rep_write_char n rb q ch R) as (rb1 & rb' & E1 & E2 & W & _). run_step E1.
    unfold advance_write in E2. run_step E2. exists rb'. rewrite Nat.min_l by lia. split; [done|].
    rewrite take_ge by (simpl; lia). change [ch] with (take 1 [ch]).
    apply (written_append n rb rb'); [done|done|lia|simpl; lia].
Qed.

Lemma run_getchar n rb q :
  ring_rep n rb q ->
  exists rb', rt_ringbuffer_getchar rb = Ok (Z.of_nat (1 `min` length q), take 1 q) rb' /\ ring_rep n rb' (drop 1 q).
Proof.
  intros R. pose proof R as [Hs Hn Hp Hl Hr _ Hm _ _]. unfold rt_ringbuffer_getchar. erewrite bind_Ok by reflexivity. cbv beta.
  rewrite (data_len_rep _ _ _ R). destruct (Z.eqb_spec (Z.of_nat (length q)) 0) as [E0|E0].
  { assert (q = []) as -> by (apply length_zero_iff_nil; lia). by exists rb. }
  erewrite bind_Ok by (apply (rep_slice n rb q _ _ 0 R); [lia..|intros; ring_lia]). rewrite drop_0, Nat.min_l, Hs by lia.
  destruct (Z.eqb_spec (read_index rb) (Z.of_nat n - 1)) as [Ee|Ee]; (eexists; split; [reflexivity|]);
    (apply rep_drop; [done|lia|ring_lia|]).
  - rewrite (proj2 (Nat.ltb_ge _ _)) by (unfold ring_read; lia). by apply lnot_mod_2.
  - rewrite (proj2 (Nat.ltb_lt _ _)) by (unfold ring_read; lia). by destruct Hm as [-> | ->].
Qed.

Lemma run_reset n rb q :
  ring_rep n rb q -> exists rb', rt_ringbuffer_reset rb = Ok tt rb' /\ ring_rep n rb' [].
Proof.
  intros []. eexists. split; [reflexivity|]. split; simpl; try done; try lia.
  all: rewrite ?Zmod_0_l; destruct n; [lia|auto with lia].
Qed.

(** The newest bytes stay when [putchar_force] meets a full ring. *)
Lemma run_putchar_force n rb q ch :
  ring_rep n rb q ->
  exists rb', rt_ringbuffer_putchar_force ch rb = Ok 1 rb' /\ ring_rep n rb' (lastn n (q ++ [ch])).
Proof.
  intros R. pose proof R as [_ Hn _ Hl Hr Hw Hm Hwm _]. unfold rt_ringbuffer_putchar_force. erewrite bind_Ok by reflexivity. cbv zeta beta.
  rewrite (status_full n rb q R). destruct (rep_write_char n rb q ch R) as (rb1 & rb' & E1 & E2 & W & Ee). run_step E1.
  unfold advance_write in E2. unfold lastn. rewrite length_app. cbn [length].
  destruct (Nat.eqb_spec (length q) n) as [Hf|Hf].
  - exists (set_read (1 - write_mirror rb') (write_index rb') rb').
    replace (length q + 1 - n)%nat with 1%nat by lia. split.
    + rewrite Ee in E2 |- *. pose proof (wr_wmirror _ _ _ _ _ W) as Ew.
      rewrite <- (wr_rmirror _ _ _ _ _ W) in Hwm, Hm. rewrite (proj2 (Nat.ltb_ge (_ + length q) n)) in Hwm by lia.
      destruct (Nat.ltb_spec (Z.to_nat (write_index rb) + 1) n); simpl in E2 |- *; erewrite bind_Ok; try reflexivity;
        run_step E2; unfold when, modify; f_equal; unfold set_read; f_equal; rewrite Ew;
        destruct Hm as [Hm|Hm]; rewrite Hm in Hwm |- *; rewrite Hwm; done.
    + pose proof (written_over n rb rb' q [ch] 1 (1 - write_mirror rb') R W) as Hov. rewrite drop_app_le by lia.
      replace (length q + 1 - n)%nat with 1%nat in Hov by lia. apply Hov; [lia..|simpl; lia|].
      rewrite (wr_wmirror _ _ _ _ _ W). destruct (rep_wmirror _ _ _ R) as [Em|Em]; rewrite Em;
        destruct (Nat.ltb (Z.to_nat (write_index rb) + 1) n); reflexivity.
  - exists rb'. replace (length q + 1 - n)%nat with 0%nat by lia. split.
    + rewrite Ee in E2 |- *. revert E2. destruct (Nat.ltb (Z.to_nat (write_index rb) + 1) n); simpl; intros E2; erewrite bind_Ok; try reflexivity; by run_step E2.
    + change [ch] with (take 1 [ch]). apply (written_append n rb rb'); [done|done|lia|simpl; lia].
Qed.

(** ** Any sequence of operations *)

Inductive ring_op :=
| Put (ptr : list Z) (k : nat)
| Putchar (ch : Z)
| Putchar_force (ch : Z)
| Get (k : nat)
| Getchar
| Reset_ring.

Definition ring_step (o : ring_op) : M rt_ringbuffer (Z * list Z) :=
  match o with
  | Put ptr k => c ← rt_ringbuffer_put ptr (Z.of_nat k); mret (c, [])
  | Putchar ch => c ← rt_ringbuffer_putchar ch; mret (c, [])
  | Putchar_force ch => c ← rt_ringbuffer_putchar_force ch; mret (c, [])
  | Get k => rt_ringbuffer_get (Z.of_nat k)
  | Getchar => rt_ringbuffer_getchar
  | Reset_ring => rt_ringbuffer_reset;; mret (0, [])
  end.

Fixpoint ring_run (os : list ring_op) : M rt_ringbuffer (list (Z * list Z)) :=
  match os with [] => mret [] | o :: os => r ← ring_step o; rs ← ring_run os; mret (r :: rs) end.

(** The abstract machine: a queue of at most [n] bytes.  A put takes what
    there is room for, a forced put drops the oldest byte, a get takes what
    there is. *)
Definition queue_step (n : nat) (o : ring_op) (q : list Z) : (Z * list Z) * list Z :=
  match o with
  | Put ptr k => ((Z.of_nat (k `min` (n - length q)), []), q ++ take (n - length q) (take k ptr))
  | Putchar ch => ((Z.of_nat (1 `min` (n - length q)), []), q ++ take (n - length q) [ch])
  | Putchar_force ch => ((1, []), lastn n (q ++ [ch]))
  | Get k => ((Z.of_nat (k `min` length q), take k q), drop k q)
  | Getchar => ((Z.of_nat (1 `min` length q), take 1 q), drop 1 q)
  | Reset_ring => ((0, []), [])
  end.

Fixpoint queue_run (n : nat) (os : list ring_op) (q : list Z) : list (Z * list Z) * list Z :=
  match os with
  | [] => ([], q)
  | o :: os => let r := queue_step n o q in let rs := queue_run n os r.2 in (r.1 :: rs.1, rs.2)
  end.

Definition op_ok (o : ring_op) : Prop :=
  match o with Put ptr k => lengths_ok ptr k | Get k => Z.of_nat k < 2 ^ 16 | _ => True end.

Lemma ring_step_rep n rb q o :
  ring_rep n rb q -> op_ok o ->
  exists rb', ring_step o rb = Ok (queue_step n o q).1 rb' /\ ring_rep n rb' (queue_step n o q).2.
Proof.
  intros R Ho. destruct o as [ptr k|ch|ch|k| |]; simpl in Ho |- *.
  - destruct (run_put n rb q ptr k R Ho) as (rb' & E & R'). run_step E. by exists rb'.
  - destruct (run_putchar n rb q ch R) as (rb' & E & R'). run_step E. by exists rb'.
  - destruct (run_putchar_force n rb q ch R) as (rb' & E & R'). run_step E. by exists rb'.
  - by apply run_get.
  - by apply run_getchar.
  - destruct (run_reset n rb q R) as (rb' & E & R'). run_step E. by exists rb'.
Qed.

Lemma ring_run_rep n os rb q :
  ring_rep n rb q -> Forall op_ok os ->
  exists rb', ring_run os rb = Ok (queue_run n os q).1 rb' /\ ring_rep n rb' (queue_run n os q).2.
Proof.
  intros R Hos. revert rb q R. induction Hos as [|o os Ho Hos IH]; intros rb q R; [by exists rb|].
  destruct (ring_step_rep n rb q o R Ho) as (rb1 & E1 & R1). destruct (IH _ _ R1) as (rb2 & E2 & R2).
  exists rb2. split; [|done]. simpl. run_step E1. by run_step E2.
Qed.

(** A ring whose indices are 0 is empty, whatever its pool holds. *)
Lemma fresh_rep pool n :
  0 < n < 2 ^ 15 -> n <= Z.of_nat (length pool) -> ring_rep (Z.to_nat n) (mk_rb pool 0 0 0 0 n) [].
Proof.
  intros Hn Hp. split; simpl; try lia; unfold wrap, ring_read; simpl; rewrite ?(proj2 (Nat.ltb_lt _ _)) by lia; auto.
Qed.

Lemma init_rep pool size :
  4 <= size < 2 ^ 15 -> size <= Z.of_nat (length pool) ->
  exists rb, rt_ringbuffer_init pool size = Some rb /\ ring_rep (Z.to_nat (size - size mod 4)) rb [].
Proof.
  intros Hs Hp. unfold rt_ringbuffer_init. rewrite (proj2 (Z.ltb_lt 0 size)) by lia.
  assert (0 <= size mod 4 < 4) by (apply Z.mod_pos_bound; lia).
  assert (s16 (RT_ALIGN_DOWN size RT_ALIGN_SIZE) = size - size mod 4) as ->.
  { unfold RT_ALIGN_DOWN, RT_ALIGN_SIZE. change (4 - 1) with 3. rewrite align_down_4 by lia. apply s16_small. lia. }
  eexists. split; [reflexivity|]. apply fresh_rep; lia.
Qed.

(** C33: from its initialisation on, whatever sequence of [rt_ringbuffer_put],
    [rt_ringbuffer_putchar], [rt_ringbuffer_putchar_force], [rt_ringbuffer_get],
    [rt_ringbuffer_getchar] and [rt_ringbuffer_reset] runs on it, a ring over a
    pool of 4 to 32767 bytes answers as a first-in first-out queue of
    [size - size mod 4] bytes does, never reads or writes outside of its pool, and
    holds the queue's bytes.  The forced put of a block is not among these
    operations: see [put_force_keeps_newest] and [put_force_loses_all]. *)
Theorem ring_refines_queue pool size os :
  4 <= size < 2 ^ 15 -> size <= Z.of_nat (length pool) -> Forall op_ok os ->
  exists rb rb', rt_ringbuffer_init pool size = Some rb /\
    let spec := queue_run (Z.to_nat (size - size mod 4)) os [] in
    ring_run os rb = Ok spec.1 rb' /\ ring_rep (Z.to_nat (size - size mod 4)) rb' spec.2.
Proof.
  intros Hs Hp Hos. destruct (init_rep pool size Hs Hp) as (rb & E & R).
  destruct (ring_run_rep _ os rb [] R Hos) as (rb' & E' & R'). by exists rb, rb'.
Qed.

(** ** The forced put of a block *)

Definition forced (n : nat) (ptr : list Z) (k : nat) : list Z := drop (k - n) ptr.

Lemma lastn_forced n q ptr k :
  (length q <= n)%nat -> (k <= length ptr)%nat ->
  lastn n (q ++ take k ptr)
  = drop (length q + k `min` n - n) q ++ take (k `min` n) (forced n ptr k).
Proof.
  intros Hq Hk. unfold lastn, forced. rewrite length_app, length_take, (Nat.min_l k (length ptr)) by done.
  destruct (Nat.le_gt_cases k n).
  - rewrite Nat.min_l, drop_app_le by lia. by replace (k - n)%nat with 0%nat by lia.
  - rewrite Nat.min_r by lia. rewrite drop_app_ge, (drop_ge q) by lia. simpl.
    replace (length q + k - n - length q)%nat with (k - n)%nat by lia.
    rewrite take_drop_commute. do 2 f_equal. lia.
Qed.

(** The write of [put_force] and what it decides by. *)
Lemma run_put_force n rb q ptr k :
  ring_rep n rb q -> lengths_ok ptr k ->
  exists rb', written n (forced n ptr k) (k `min` n) rb rb' /\
    rt_ringbuffer_put_force ptr (Z.of_nat k) rb
    = Ok (Z.of_nat (k `min` n))
        (if Nat.ltb n (length q + k `min` n) then
           set_read (if Nat.ltb (Z.to_nat (write_index rb) + k `min` n) n then read_mirror rb' else Z.lnot (read_mirror rb'))
             (write_index rb') rb'
         else rb').
Proof.
  intros R [Hp Hk]. pose proof R as [Hs Hn _ Hl _ _ _ _ _]. unfold rt_ringbuffer_put_force. erewrite bind_Ok by reflexivity. cbv zeta beta.
  rewrite (space_len_rep _ _ _ R), u16_small, Hs by lia.
  assert ((if Z.of_nat n <? Z.of_nat k then (drop (Z.to_nat (Z.of_nat k - Z.of_nat n)) ptr, Z.of_nat n) else (ptr, Z.of_nat k))
    = (forced n ptr k, Z.of_nat (k `min` n))) as ->.
  { unfold forced. destruct (Z.ltb_spec (Z.of_nat n) (Z.of_nat k)).
    - f_equal; [f_equal; lia|lia].
    - f_equal; [by replace (k - n)%nat with 0%nat by lia|lia]. }
  destruct (rep_written n rb q (forced n ptr k) (k `min` n) R) as (rb' & E & W);
    [lia|unfold forced; rewrite length_drop; lia|].
  run_step E. exists rb'. split; [done|].
  assert ((Z.of_nat (n - length q) <? Z.of_nat (k `min` n)) = Nat.ltb n (length q + k `min` n)) as ->.
  { destruct (Nat.ltb_spec n (length q + k `min` n)), (Z.ltb_spec (Z.of_nat (n - length q)) (Z.of_nat (k `min` n))); lia. }
  destruct (Nat.ltb (Z.to_nat (write_index rb) + k `min` n) n), (Nat.ltb n (length q + k `min` n)); reflexivity.
Qed.

(** [rt_ringbuffer_put_force] keeps the newest bytes, when they fit or when
    the data already lies on both sides of the mirror. *)
Theorem put_force_keeps_newest n rb q ptr k :
  ring_rep n rb q -> lengths_ok ptr k ->
  (length q + k <= n)%nat \/ read_mirror rb <> write_mirror rb ->
  exists rb', rt_ringbuffer_put_force ptr (Z.of_nat k) rb = Ok (Z.of_nat (k `min` n)) rb' /\
    ring_rep n rb' (lastn n (q ++ take k ptr)).
Proof.
  intros R Hk Hcase. destruct (run_put_force n rb q ptr k R Hk) as (rb' & W & E). destruct Hk as [Hp _].
  pose proof R as [_ Hn _ Hl _ _ Hm Hwm _]. eexists. split; [exact E|]. rewrite lastn_forced by done.
  assert (k `min` n <= length (forced n ptr k))%nat as Hf by (unfold forced; rewrite length_drop; lia).
  destruct (Nat.ltb_spec n (length q + k `min` n)) as [Hov|Hfit].
  - apply (written_over n rb rb' q); [done|done|done|lia|done|].
    destruct Hcase as [|Hne]; [lia|]. rewrite (wr_rmirror _ _ _ _ _ W), (wr_wmirror _ _ _ _ _ W).
    pose proof (rep_wmirror _ _ _ R) as Hm'.
    destruct Hm as [Em|Em], Hm' as [Em'|Em']; rewrite Em, Em' in Hne |- *; try done;
      destruct (Nat.ltb (Z.to_nat (write_index rb) + k `min` n) n); reflexivity.
  - replace (length q + k `min` n - n)%nat with 0%nat by lia. by apply (written_append n rb rb').
Qed.

(** Otherwise the reader is moved to the wrong side of the mirror: a forced
    put of more bytes than there is room for, into a ring whose data does not
    cross its end, leaves an empty ring, and all bytes are lost. *)
Theorem put_force_loses_all n rb q ptr k :
  ring_rep n rb q -> lengths_ok ptr k -> (n < length q + k)%nat -> q <> [] -> read_mirror rb = write_mirror rb ->
  exists rb', rt_ringbuffer_put_force ptr (Z.of_nat k) rb = Ok (Z.of_nat (k `min` n)) rb' /\ ring_rep n rb' [].
Proof.
  intros R Hk Hov Hq Hsame. destruct (run_put_force n rb q ptr k R Hk) as (rb' & W & E). destruct Hk as [Hp _].
  pose proof (rep_windex _ _ _ R) as Hwi. pose proof R as [Hs Hn Hpool Hl Hr Hw Hm Hwm _].
  assert (0 < length q)%nat as Hq0 by (destruct q; [done|simpl; lia]).
  assert (ring_read rb + length q < n)%nat as Hlt.
  { destruct (Nat.ltb_spec (ring_read rb + length q) n); [done|]. lia. }
  unfold wrap in Hw. rewrite (proj2 (Nat.ltb_lt _ _)) in Hw by done.
  rewrite (proj2 (Nat.ltb_lt n _)), (proj2 (Nat.ltb_ge _ n)) in E by lia.
  eexists. split; [exact E|]. destruct W as [W1 W2 W3 W4 W5 W6 _ _].
  assert (0 <= write_index rb' < Z.of_nat n) as Hw' by (rewrite W5; ring_lia).
  rewrite (proj2 (Nat.ltb_ge _ n)) in W6 by lia.
  split; simpl; rewrite ?(Z.mod_small (write_index rb') _) by lia; try lia; try done.
  - unfold wrap, ring_read. simpl. rewrite Z.mod_small, (proj2 (Nat.ltb_lt _ _)) by lia. lia.
  - rewrite W4, lnot_mod_2 by done. lia.
  - unfold ring_read. simpl. rewrite Z.mod_small, (proj2 (Nat.ltb_lt _ _)), W4, lnot_mod_2 by (done || lia). lia.
Qed.

(** ** Creating and destroying *)

Lemma align_down_size size :
  0 <= size < 2 ^ 15 -> RT_ALIGN_DOWN size RT_ALIGN_SIZE = size - size mod 4 /\ 0 <= size - size mod 4 <= size.
Proof.
  intros Hs. unfold RT_ALIGN_DOWN, RT_ALIGN_SIZE. change (4 - 1) with 3. rewrite align_down_4 by lia.
  split; [done|]. Z.to_euclidean_division_equations. lia.
Qed.

Section allocator.
Context {S : Type} (malloc : Z -> M S (option Z)) (free : option Z -> M S unit) (owns : S -> list (Z * Z) -> Prop).
Context `{!Allocator malloc free owns}.

Lemma create_destroy_spec s l size :
  owns s l -> 4 <= size < 2 ^ 15 ->
  exists r s1, rt_ringbuffer_create malloc free size s = Ok r s1 /\
    match r with
    | None => s1 = s
    | Some (rb, Some (pool, n)) => n = size - size mod 4 /\
        exists nrb np l1, sizeof_ringbuffer <= nrb /\ n <= np /\ owns s1 l1 /\ l1 ≡ₚ (pool, np) :: (rb, nrb) :: l /\
        exists s2 l2, rt_ringbuffer_destroy free rb pool s1 = Ok tt s2 /\ owns s2 l2 /\ l2 ≡ₚ l
    | Some (rb, None) => exists l1, owns s1 l1 /\ l1 ≡ₚ l /\ rb ∉ l1.*1
    end.
Proof.
  intros O Hs. destruct (align_down_size size) as [Ea Hr]; [lia|]. unfold rt_ringbuffer_create. rewrite Ea.
  rewrite (proj2 (Z.ltb_lt 0 size)) by lia. erewrite bind_Ok by reflexivity. cbv zeta.
  rewrite (u16_small (size - size mod 4)) by lia.
  destruct (alloc_malloc s l sizeof_ringbuffer O) as ([rb|] & s1 & E1 & H1); [unfold sizeof_ringbuffer; lia| |].
  2:{ run_step E1. by exists None, s1. }
  destruct H1 as (nrb & l1 & Hnrb & O1 & P1). run_step E1.
  destruct (alloc_malloc s1 l1 (size - size mod 4) O1) as ([pool|] & s2 & E2 & H2); [lia| |].
  - destruct H2 as (np & l2 & Hnp & O2 & P2). run_step E2. rewrite (s16_small (size - size mod 4)) by lia.
    assert (0 <= size mod 4 < 4) as H4 by (apply Z.mod_pos_bound; lia). rewrite (proj2 (Z.ltb_lt 0 (size - size mod 4))) by lia.
    erewrite bind_Ok by reflexivity. eexists _, s2. split; [reflexivity|].
    destruct (align_down_size (size - size mod 4)) as [Eb _]; [lia|]. rewrite Eb.
    assert ((size - size mod 4) mod 4 = 0) as -> by (Z.to_euclidean_division_equations; lia).
    rewrite Z.sub_0_r, s16_small by lia. split; [done|]. rewrite P1 in P2. exists nrb, np, l2. split_and!; try done.
    unfold rt_ringbuffer_destroy. destruct (alloc_free s2 l2 pool np O2) as (s3 & l3 & E3 & O3 & P3).
    { rewrite P2. left. }
    run_step E3. rewrite P2 in P3. apply Permutation_cons_inv in P3.
    destruct (alloc_free s3 l3 rb nrb O3) as (s4 & l4 & E4 & O4 & P4); [rewrite <- P3; left|].
    exists s4, l4. split_and!; try done. symmetry. eapply Permutation_cons_inv. by rewrite P3.
  - subst s2. run_step E2. destruct (alloc_free s1 l1 rb nrb O1) as (s3 & l3 & E3 & O3 & P3); [rewrite P1; left|].
    run_step E3. eexists _, s3. split; [reflexivity|]. exists l3. split; [done|]. split.
    + symmetry. eapply Permutation_cons_inv. by rewrite <- P1.
    + pose proof (alloc_nodup s1 l1 O1) as N. rewrite P3 in N. by apply NoDup_cons in N as [? _].
Qed.

(** Creating a ring either returns no ring and takes no memory, or returns
    a structure and a pool of at least its size, from which destroying it gives
    everything back.  In the third case, where there is room for the structure
    only, the address that is returned is not allocated any more. *)
Theorem ringbuffer_create_destroy s l size :
  owns s l -> 4 <= size < 2 ^ 15 ->
  exists r s1, rt_ringbuffer_create malloc free size s = Ok r s1 /\
    match r with
    | None => s1 = s
    | Some (rb, Some (pool, n)) => n = size - size mod 4 /\
        exists nrb np l1, sizeof_ringbuffer <= nrb /\ n <= np /\ owns s1 l1 /\ l1 ≡ₚ (pool, np) :: (rb, nrb) :: l /\
        exists s2 l2, rt_ringbuffer_destroy free rb pool s1 = Ok tt s2 /\ owns s2 l2 /\ l2 ≡ₚ l
    | Some (rb, None) => exists l1, owns s1 l1 /\ l1 ≡ₚ l /\ rb ∉ l1.*1
    end.
Proof. apply create_destroy_spec. Qed.

(** Asked for less than 4 bytes, which round to an empty pool,
    [rt_ringbuffer_create] always returns such a dead address, if not
    [RT_NULL]: the caller cannot see that it failed. *)
Theorem ringbuffer_create_tiny_dangles `{!RefusesZero malloc} s l size :
  owns s l -> 0 < size < 4 ->
  exists r s1 l1, rt_ringbuffer_create malloc free size s = Ok r s1 /\ owns s1 l1 /\ l1 ≡ₚ l /\
    forall rb x, r = Some (rb, x) -> x = None /\ rb ∉ l1.*1.
Proof.
  intros O Hs. destruct (align_down_size size) as [Ea _]; [lia|]. unfold rt_ringbuffer_create.
  rewrite Ea, (proj2 (Z.ltb_lt 0 size)), (Z.mod_small size 4), Z.sub_diag by lia. erewrite bind_Ok by reflexivity. cbv zeta.
  destruct (alloc_malloc s l sizeof_ringbuffer O) as ([rb|] & s1 & E1 & H1); [unfold sizeof_ringbuffer; lia| |].
  2:{ run_step E1. subst s1. by exists None, s, l. }
  destruct H1 as (nrb & l1 & Hnrb & O1 & P1). run_step E1. change (u16 0) with 0. run_step (alloc_zero s1).
  destruct (alloc_free s1 l1 rb nrb O1) as (s3 & l3 & E3 & O3 & P3); [rewrite P1; left|].
  run_step E3. eexists _, s3, l3. split; [reflexivity|]. split; [done|]. split.
  - symmetry. eapply Permutation_cons_inv. by rewrite <- P1.
  - intros rb' x [= <- <-]. split; [done|]. pose proof (alloc_nodup s1 l1 O1) as N. rewrite P3 in N.
    by apply NoDup_cons in N as [? _].
Qed.
End allocator.

(** ** Witnesses *)

Definition demo_pool : list Z := replicate 9 0.
Definition demo_ring : rt_ringbuffer := mk_rb [0; 1; 2; 3] 0 1 0 2 4.

Lemma demo_ring_rep : ring_rep 4 demo_ring [1].
Proof.
  split; simpl; try done; try lia. intros [|i] Hi; [done|]. lia.
Qed.

Lemma ring_refines_queue_witness :
  exists rb rb', rt_ringbuffer_init demo_pool 9 = Some rb /\
    ring_run [Put [1; 2; 3; 4; 5] 5; Get 2; Put [6; 7; 8; 9; 10; 11] 6; Getchar; Putchar_force 12; Putchar_force 13; Get 20] rb
    = Ok [(5, []); (2, [1; 2]); (5, []); (1, [3]); (1, []); (1, []); (8, [5; 6; 7; 8; 9; 10; 12; 13])] rb'.
Proof.
  destruct (ring_refines_queue demo_pool 9
    [Put [1; 2; 3; 4; 5] 5; Get 2; Put [6; 7; 8; 9; 10; 11] 6; Getchar; Putchar_force 12; Putchar_force 13; Get 20])
    as (rb & rb' & E1 & E2 & _).
  - lia.
  - vm_compute. discriminate.
  - repeat constructor; vm_compute; discriminate || lia.
  - exists rb, rb'. split; [exact E1|]. exact E2.
Defined.

Lemma put_force_keeps_newest_witness :
  exists rb', rt_ringbuffer_put_force [7; 8; 9] 3 demo_ring = Ok 3 rb' /\ ring_rep 4 rb' [1; 7; 8; 9].
Proof.
  apply (put_force_keeps_newest 4 demo_ring [1] [7; 8; 9] 3).
  - apply demo_ring_rep.
  - split; simpl; lia.
  - left. simpl. lia.
Defined.

Lemma put_force_loses_all_witness :
  exists rb', rt_ringbuffer_put_force [7; 8; 9; 10] 4 demo_ring = Ok 4 rb' /\ ring_rep 4 rb' [].
Proof.
  apply (put_force_loses_all 4 demo_ring [1] [7; 8; 9; 10] 4).
  - apply demo_ring_rep.
  - split; simpl; lia.
  - simpl. lia.
  - discriminate.
  - reflexivity.
Defined.

Lemma demo_heap_owns : heap_owns demo_heap [].
Proof. exists [mk_blk 1012 false]. destruct demo_heap_inv. split_and!; [done|done|vm_compute; discriminate|done]. Qed.

Lemma ringbuffer_create_destroy_witness :
  exists r h, rt_ringbuffer_create rt_malloc rt_free 64 demo_heap = Ok r h /\ r = Some (12, Some (36, 64)).
Proof.
  destruct (ringbuffer_create_destroy rt_malloc rt_free heap_owns demo_heap [] 64) as (r & h & E & _).
  - exact demo_heap_owns.
  - lia.
  - exists r, h. split; [exact E|].
    apply (f_equal (fun x => match x with Ok r _ => r | Fault => None end)) in E. rewrite <- E. vm_compute. reflexivity.
Defined.

Lemma ringbuffer_create_tiny_dangles_witness :
  exists r h l, rt_ringbuffer_create rt_malloc rt_free 3 demo_heap = Ok r h /\ r = Some (12, None) /\ heap_owns h l /\ 12 ∉ l.*1.
Proof.
  destruct (ringbuffer_create_tiny_dangles rt_malloc rt_free heap_owns demo_heap [] 3) as (r & h & l & E & O & _ & Hr).
  - exact demo_heap_owns.
  - lia.
  - assert (r = Some (12, None)) as Er.
    { apply (f_equal (fun x => match x with Ok r _ => r | Fault => None end)) in E. rewrite <- E. vm_compute. reflexivity. }
    exists r, h, l. split; [exact E|]. split; [exact Er|]. split; [exact O|]. apply (Hr 12 None). exact Er.
Defined.
