(* ===== verification/Pipe.v ===== *)
(** * Pipes: the device functions of components/drivers/src/pipe.c

    A device whose two ends are a byte ring on the heap, with a mutex around
    every access.  The file operations of the same source are in [PipeFile]. *)

From S2P Require Import Prelude Kernel Object Timer Scheduler Thread KInv ThreadSpec Ipc Semaphore Mutex Device Mem MemSpec Allocator RingBuffer.

Definition RT_EINVAL : Z := 10.
Definition EINVAL : Z := 22.
Definition ENODEV : Z := 19.
Definition RT_Device_Class_Pipe : Z := 15.
Definition RT_DEVICE_FLAG_RDWR : Z := 3.
Definition RT_DEVICE_FLAG_REMOVABLE : Z := 4.

(** What [pipe->fifo] points to: the structure, and its pool with the ring; no
    ring when [rt_ringbuffer_create] returned the address of freed memory. *)
Record fifo := mk_fifo { fifo_addr : Z; fifo_ring : option (Z * rt_ringbuffer) }.

(** [struct rt_pipe_device]; the device and the lock are the device and the mutex
    with the number of the pipe; the two wait queues are in [PipeFile].  The
    counts are 8 bits wide. *)
Record rt_pipe := mk_pipe { pp_fifo : option fifo; pp_bufsz : Z; pp_readers : Z; pp_writers : Z }.

Definition set_pp_fifo (f : option fifo) (p : rt_pipe) : rt_pipe := mk_pipe f (pp_bufsz p) (pp_readers p) (pp_writers p).

(** What the pipes use: the heap, mutexes, devices and the kernel. *)
Record pipe_env (H : Type) := mk_env {
  pe_heap : H;
  pe_mutexes : gmap nat rt_mutex;
  pe_devices : gmap nat rt_device;
  pe_kernel : kstate
}.
Arguments mk_env {H}. Arguments pe_heap {H}. Arguments pe_mutexes {H}. Arguments pe_devices {H}. Arguments pe_kernel {H}.

Definition pipe_state (H : Type) : Type := gmap nat rt_pipe * pipe_env H.

Section pipe.
Context {H : Type} (malloc : Z -> M H (option Z)) (free : option Z -> M H unit).
(** The bytes of a block that was just allocated. *)
Context (contents : Z -> Z -> list Z).

Definition on_heap {A} (x : M H A) : M (pipe_state H) A := fun st =>
  match x (pe_heap st.2) with
  | Ok a h => Ok a (st.1, mk_env h (pe_mutexes st.2) (pe_devices st.2) (pe_kernel st.2))
  | Fault => Fault
  end.
Definition on_mutex {A} (x : M mutex_state A) : M (pipe_state H) A := fun st =>
  match x (pe_mutexes st.2, pe_kernel st.2) with
  | Ok a y => Ok a (st.1, mk_env (pe_heap st.2) y.1 (pe_devices st.2) y.2)
  | Fault => Fault
  end.
Definition on_device {A} (x : M dev_state A) : M (pipe_state H) A := fun st =>
  match x (pe_devices st.2, pe_kernel st.2) with
  | Ok a y => Ok a (st.1, mk_env (pe_heap st.2) (pe_mutexes st.2) y.1 y.2)
  | Fault => Fault
  end.

(** A call on the ring [pipe->fifo]; a null or dead pointer faults. *)
Definition on_ring {A} (o : nat) (x : M rt_ringbuffer A) : M (pipe_state H) A :=
  p ← get_obj o;
  f ← deref (fun _ => pp_fifo p);
  r ← deref (fun _ => fifo_ring f);
  match x r.2 with
  | Ok a rb => put_obj o (set_pp_fifo (Some (mk_fifo (fifo_addr f) (Some (r.1, rb)))) p);; mret a
  | Fault => fault
  end.

(** ** The lock *)

(** The rest of a function behind [rt_mutex_take], whose result is not looked
    at: the body, the release, the result. *)
Definition locked {A} (o : nat) (body : M (pipe_state H) A) (r : call nat Z) : M (pipe_state H) (call nat A) :=
  match r with
  | Waiting t => mret (Waiting t)
  | Return _ => a ← body; on_mutex (rt_mutex_release o);; mret (Return a)
  end.
Definition with_lock {A} (o : nat) (body : M (pipe_state H) A) : M (pipe_state H) (call nat A) :=
  r ← on_mutex (rt_mutex_take o RT_WAITING_FOREVER); locked o body r.
Definition with_lock_resume {A} (o t : nat) (body : M (pipe_state H) A) : M (pipe_state H) (call nat A) :=
  r ← on_mutex (rt_mutex_take_resume o t RT_WAITING_FOREVER); locked o body r.

(** ** The device functions *)

Definition fifo_of (r : option (Z * option (Z * Z))) : option fifo :=
  match r with
  | None => None
  | Some (rb, None) => Some (mk_fifo rb None)
  | Some (rb, Some (pool, size)) => Some (mk_fifo rb (Some (pool, mk_rb (contents pool size) 0 0 0 0 size)))
  end.

Definition open_body (o : nat) : M (pipe_state H) Z :=
  p ← get_obj o;
  (if bool_decide (pp_fifo p = None) then
     r ← on_heap (rt_ringbuffer_create malloc free (pp_bufsz p));
     upd_obj o (set_pp_fifo (fifo_of r))
   else mret tt);;
  mret RT_EOK.

Definition rt_pipe_open (device : option nat) (oflag : Z) : M (pipe_state H) (call nat Z) :=
  match device with None => mret (Return (- RT_EINVAL)) | Some o => with_lock o (open_body o) end.

(** [rt_ringbuffer_destroy(pipe->fifo); pipe->fifo = RT_NULL;] *)
Definition destroy_fifo (o : nat) : M (pipe_state H) unit :=
  p ← get_obj o;
  f ← deref (fun _ => pp_fifo p);
  r ← deref (fun _ => fifo_ring f);
  on_heap (rt_ringbuffer_destroy free (fifo_addr f) r.1);;
  upd_obj o (set_pp_fifo None).

Definition close_body (o : nat) : M (pipe_state H) Z :=
  d ← on_device (get_obj o);
  (if dev_ref_count d =? 1 then destroy_fifo o else mret tt);;
  mret RT_EOK.

Definition rt_pipe_close (device : option nat) : M (pipe_state H) (call nat Z) :=
  match device with None => mret (Return (- RT_EINVAL)) | Some o => with_lock o (close_body o) end.

(** The [while] loops; the length goes to a 16-bit parameter.  A round that is
    not the last leaves the ring empty or full, so there are at most two. *)
Fixpoint read_loop (fuel o : nat) (count read_bytes : Z) (data : list Z) : M (pipe_state H) (list Z) :=
  if read_bytes <? count then
    match fuel with
    | O => fault
    | S fuel =>
        len ← on_ring o (rt_ringbuffer_get (u16 (count - read_bytes)));
        if len.1 <=? 0 then mret data
        else read_loop fuel o count (read_bytes + len.1) (data ++ len.2)
    end
  else mret data.

Fixpoint write_loop (fuel o : nat) (buffer : list Z) (count write_bytes : Z) : M (pipe_state H) Z :=
  if write_bytes <? count then
    match fuel with
    | O => fault
    | S fuel =>
        len ← on_ring o (rt_ringbuffer_put (drop (Z.to_nat write_bytes) buffer) (u16 (count - write_bytes)));
        if len <=? 0 then mret write_bytes
        else write_loop fuel o buffer count (write_bytes + len)
    end
  else mret write_bytes.

(** The value of a read is the data; its length is the result of the function. *)
Definition rt_pipe_read (device : option nat) (pos count : Z) : M (pipe_state H) (call nat (list Z)) :=
  match device with
  | None => on_device (on_snd (rt_set_errno (- EINVAL)));; mret (Return [])
  | Some o =>
      if count =? 0 then mret (Return [])
      else with_lock o (read_loop 2 o count 0 [])
  end.

Definition rt_pipe_write (device : option nat) (pos : Z) (buffer : list Z) (count : Z) : M (pipe_state H) (call nat Z) :=
  match device with
  | None => on_device (on_snd (rt_set_errno (- EINVAL)));; mret (Return 0)
  | Some o =>
      if count =? 0 then mret (Return 0)
      else with_lock o (write_loop 2 o buffer count 0)
  end.

Definition rt_pipe_control (dev : option nat) (cmd : Z) : M (pipe_state H) Z := mret RT_EOK.

(** [pipe] is the result of [rt_malloc], cleared by [rt_memset]. *)
Definition rt_pipe_create (pipe : option nat) (name : list Z) (bufsz : Z) : M (pipe_state H) (option nat) :=
  match pipe with
  | None => mret None
  | Some o =>
      put_obj o (mk_pipe None 0 0 0);;
      on_mutex (rt_mutex_init o name RT_IPC_FLAG_FIFO);;
      rt_assert (bufsz <? 0xFFFF);;
      put_obj o (mk_pipe None (u16 bufsz) 0 0);;
      on_device (put_obj o (mk_dev RT_Device_Class_Pipe 0 0 0 None None));;
      r ← on_device (rt_device_register (Some o) name (Z.lor RT_DEVICE_FLAG_RDWR RT_DEVICE_FLAG_REMOVABLE));
      if negb (r =? 0) then
        del_obj o;; on_mutex (del_obj o);; on_device (del_obj o);;
        mret None
      else mret (Some o)
  end.

Definition rt_pipe_delete (name : list Z) : M (pipe_state H) Z :=
  device ← on_device (rt_device_find name);
  match device with
  | None => mret (- ENODEV)
  | Some o =>
      d ← on_device (get_obj o);
      if dev_type d =? RT_Device_Class_Pipe then
        if negb (dev_ref_count d =? 0) then mret (- RT_EBUSY)
        else
          on_mutex (rt_mutex_detach o);;
          on_device (rt_device_unregister o);;
          p ← get_obj o;
          when (bool_decide (is_Some (pp_fifo p))) (destroy_fifo o);;
          del_obj o;; on_mutex (del_obj o);; on_device (del_obj o);;
          mret 0
      else mret (- ENODEV)
  end.
End pipe.

(** ** Taking and releasing a lock nobody else wants *)

Lemma run_take_free m s o flag t th time :
  m !! o = Some (free_mutex flag) -> blocking_ctx s t th ->
  rt_mutex_take o time (m, s) = Ok (Return RT_EOK)
    (<[o := mk_mutex 0 (th_current_priority th) 1 (Some t) flag]> m, set_k_threads (<[t := set_th_error RT_EOK th]>) s).
Proof.
  intros Hm B. pose proof (proj1 (bc_ready _ _ _ B)) as Ht. unfold rt_mutex_take.
  run_step (run_on_snd _ m _ _ _ (run_in_thread_context _ _ _ B)). run_step (run_on_snd _ m _ _ _ (run_thread_self _ _ (bc_current _ _ _ B))).
  run_step (run_on_snd _ m _ _ _ (run_upd_thread s t (set_th_error RT_EOK) th Ht)). set (s0 := set_k_threads _ s).
  run_step (run_get_obj m s0 o _ Hm). cbn [mx_owner free_mutex]. rewrite bool_decide_eq_false_2 by done. unfold mutex_again.
  run_step (run_get_obj m s0 o _ Hm). change (0 <? mx_value (free_mutex flag)) with true. cbv iota.
  by rewrite (bind_Ok _ _ _ _ _ (run_on_snd _ m _ _ _ (run_get_thread s0 t _ (lookup_insert_eq _ _ _)))).
Qed.

Lemma run_release_alone m s o flag t th :
  m !! o = Some (mk_mutex 0 (th_current_priority th) 1 (Some t) flag) -> blocking_ctx s t th ->
  tl s (mutex_head o) = [] -> ipc_flag flag ->
  rt_mutex_release o (m, s) = Ok RT_EOK (<[o := free_mutex flag]> m, s).
Proof.
  intros Hm B Hl Hf. pose proof (bc_inv _ _ _ B) as I. pose proof (bc_ready _ _ _ B) as [Ht Hst].
  destruct (inv_prio _ I _ _ Ht) as [Hp _]; [by left|].
  assert (mutex_ok o (m, s)) as Hok.
  { split; [done|]. eexists. split; [exact Hm|]. split; [done|].
    apply (mutex_is_held _ _ _ t th); try done; [by left|simpl; rewrite Hl; set_solver]. }
  destruct (run_release_last m s o _ Hm Hok t th B eq_refl eq_refl eq_refl Hp ltac:(rewrite Hl; set_solver) Hf)
    as (s1 & th1 & Es1 & _ & _ & st' & E & _ & Hst'). rewrite Hl in Hst'. rewrite E, Hst'. do 2 f_equal.
  rewrite Es1. unfold restored. simpl. by rewrite Z.eqb_refl.
Qed.

Section refinement.
Context {H : Type} (malloc : Z -> M H (option Z)) (free : option Z -> M H unit) (contents : Z -> Z -> list Z).
Context (o : nat).

(** The lock is free and the caller is a thread that may block. *)
Record unlocked (m : gmap nat rt_mutex) (s : kstate) : Prop := {
  ul_mutex : exists flag, m !! o = Some (free_mutex flag) /\ ipc_flag flag;
  ul_nobody : tl s (mutex_head o) = [];
  ul_ctx : exists t th, blocking_ctx s t th
}.

(** A body that leaves lock and kernel alone runs between [take] and [release];
    the state is again unlocked. *)
Lemma run_with_lock_env {A} (body : M (pipe_state H) A) a pp pp' h h' m d d' s :
  unlocked m s -> (forall m' s', body (pp, mk_env h m' d s') = Ok a (pp', mk_env h' m' d' s')) ->
  exists s', with_lock o body (pp, mk_env h m d s) = Ok (Return a) (pp', mk_env h' m d' s') /\ unlocked m s'.
Proof.
  intros [(flag & Hm & Hf) Hl (t & th & B)] Hb. pose proof (blocking_ctx_set_error s t th RT_EOK B) as B0.
  set (s0 := set_k_threads (<[t := set_th_error RT_EOK th]>) s) in *. exists s0. split; [|split; eauto].
  set (m1 := <[o := mk_mutex 0 (th_current_priority th) 1 (Some t) flag]> m).
  unfold with_lock. erewrite bind_Ok; [|unfold on_mutex; simpl; by rewrite (run_take_free m s o flag t th _ Hm B)].
  cbn [locked fst snd pe_heap pe_devices pe_mutexes pe_kernel]. fold m1 s0. run_step (Hb m1 s0).
  erewrite bind_Ok; [reflexivity|]. unfold on_mutex. simpl.
  rewrite (run_release_alone m1 s0 o flag t (set_th_error RT_EOK th)); [|apply lookup_insert_eq|done|done|done].
  simpl. unfold m1. by rewrite insert_insert_eq, insert_id.
Qed.

Lemma run_with_lock {A} (body : M (pipe_state H) A) a pp pp' h h' m d s :
  unlocked m s -> (forall m' s', body (pp, mk_env h m' d s') = Ok a (pp', mk_env h' m' d s')) ->
  exists s', with_lock o body (pp, mk_env h m d s) = Ok (Return a) (pp', mk_env h' m d s') /\ unlocked m s'.
Proof. apply run_with_lock_env. Qed.

(** ** The loops on the ring *)

Definition ring_pipe (a pool : Z) (p : rt_pipe) (rb : rt_ringbuffer) : rt_pipe := set_pp_fifo (Some (mk_fifo a (Some (pool, rb)))) p.

Lemma run_on_ring {A} (x : M rt_ringbuffer A) a pool p0 rb rb' v pp (e : pipe_env H) :
  pp !! o = Some (ring_pipe a pool p0 rb) -> x rb = Ok v rb' ->
  on_ring o x (pp, e) = Ok v (<[o := ring_pipe a pool p0 rb']> pp, e).
Proof.
  intros Hp Hx. unfold on_ring. run_step (run_get_obj pp e o _ Hp). cbn [pp_fifo ring_pipe set_pp_fifo].
  erewrite bind_Ok by (by apply run_deref). cbn [fifo_ring]. erewrite bind_Ok by (by apply run_deref). cbn [snd]. by rewrite Hx.
Qed.

Lemma run_write_loop n rb q a pool p0 buf k pp :
  pp !! o = Some (ring_pipe a pool p0 rb) -> ring_rep n rb q -> (0 < k)%nat -> lengths_ok buf k ->
  exists rb', ring_rep n rb' (q ++ take (n - length q) (take k buf)) /\
    forall e : pipe_env H, write_loop 2 o buf (Z.of_nat k) 0 (pp, e)
      = Ok (Z.of_nat (k `min` (n - length q))) (<[o := ring_pipe a pool p0 rb']> pp, e).
Proof.
  intros Hp R Hk [Hb Hk2]. cbn [write_loop]. rewrite (proj2 (Z.ltb_lt _ _)) by lia. rewrite Z.sub_0_r, u16_small by lia.
  change (Z.to_nat 0) with 0%nat. rewrite drop_0.
  destruct (run_put n rb q buf k R (conj Hb Hk2)) as (rb1 & E1 & R1). set (j := (k `min` (n - length q))%nat) in *.
  destruct (Z.leb_spec (Z.of_nat j) 0) as [Hj|Hj].
  { exists rb1. split; [done|]. intros e. run_step (run_on_ring _ a pool p0 rb rb1 _ pp e Hp E1).
    rewrite (proj2 (Z.leb_le _ _)) by lia. by replace (Z.of_nat j) with 0 by lia. }
  destruct (Z.ltb_spec (0 + Z.of_nat j) (Z.of_nat k)) as [Hlt|Hge].
  2: { exists rb1. split; [done|]. intros e. run_step (run_on_ring _ a pool p0 rb rb1 _ pp e Hp E1).
    rewrite (proj2 (Z.leb_gt _ _)), (proj2 (Z.ltb_ge _ _)) by lia. by replace (0 + Z.of_nat j) with (Z.of_nat j) by lia. }
  set (q1 := q ++ take (n - length q) (take k buf)) in *.
  assert (n - length q1 = 0)%nat as Hfull by (unfold q1; rewrite length_app, !length_take; lia).
  destruct (run_put n rb1 q1 (drop j buf) (k - j) R1 ltac:(split; rewrite ?length_drop; lia)) as (rb2 & E2 & R2).
  rewrite Hfull, take_0, app_nil_r in R2. rewrite Hfull, Nat.min_0_r in E2. exists rb2. split; [done|]. intros e.
  run_step (run_on_ring _ a pool p0 rb rb1 _ pp e Hp E1).
  rewrite (proj2 (Z.leb_gt _ _)), (proj2 (Z.ltb_lt _ _)), u16_small by lia. replace (Z.to_nat (0 + Z.of_nat j)) with j by lia.
  replace (Z.of_nat k - (0 + Z.of_nat j)) with (Z.of_nat (k - j)) by lia.
  run_step (run_on_ring _ a pool p0 rb1 rb2 _ (<[o := ring_pipe a pool p0 rb1]> pp) e (lookup_insert_eq _ _ _) E2).
  simpl. rewrite insert_insert_eq. by replace (0 + Z.of_nat j) with (Z.of_nat j) by lia.
Qed.

Lemma run_read_loop n rb q a pool p0 k pp :
  pp !! o = Some (ring_pipe a pool p0 rb) -> ring_rep n rb q -> (0 < k)%nat -> Z.of_nat k < 2 ^ 16 ->
  exists rb', ring_rep n rb' (drop k q) /\
    forall e : pipe_env H, read_loop 2 o (Z.of_nat k) 0 [] (pp, e) = Ok (take k q) (<[o := ring_pipe a pool p0 rb']> pp, e).
Proof.
  intros Hp R Hk Hk2. cbn [read_loop]. rewrite (proj2 (Z.ltb_lt _ _)) by lia. rewrite Z.sub_0_r, u16_small by lia.
  destruct (run_get n rb q k R Hk2) as (rb1 & E1 & R1). set (j := (k `min` length q)%nat) in *.
  destruct (Z.ltb_spec (0 + Z.of_nat j) (Z.of_nat k)) as [Hlt|Hge].
  2: { exists rb1. split; [done|]. intros e. run_step (run_on_ring _ a pool p0 rb rb1 _ pp e Hp E1). cbn [fst snd app].
    rewrite (proj2 (Z.leb_gt _ _)), (proj2 (Z.ltb_ge _ _)) by lia. done. }
  assert (drop k q = []) as Ed by (apply drop_ge; lia). rewrite Ed in *.
  destruct (run_get n rb1 [] (k - j) R1 ltac:(lia)) as (rb2 & E2 & R2). rewrite take_nil, Nat.min_0_r in E2. rewrite drop_nil in R2.
  destruct (Z.leb_spec (Z.of_nat j) 0) as [Hj|Hj].
  { exists rb1. split; [done|]. intros e. run_step (run_on_ring _ a pool p0 rb rb1 _ pp e Hp E1). cbn [fst snd].
    rewrite (proj2 (Z.leb_le _ _)) by lia. assert (q = []) as -> by (apply length_zero_iff_nil; lia). by rewrite take_nil. }
  exists rb2. split; [done|]. intros e. run_step (run_on_ring _ a pool p0 rb rb1 _ pp e Hp E1). cbn [fst snd app].
  rewrite (proj2 (Z.leb_gt _ _)), (proj2 (Z.ltb_lt _ _)), u16_small by lia.
  replace (Z.of_nat k - (0 + Z.of_nat j)) with (Z.of_nat (k - j)) by lia.
  run_step (run_on_ring _ a pool p0 rb1 rb2 _ (<[o := ring_pipe a pool p0 rb1]> pp) e (lookup_insert_eq _ _ _) E2).
  simpl. by rewrite insert_insert_eq.
Qed.

(** ** The pipe as a bounded queue of bytes *)

(** Calls by threads that find the lock free, and whatever happens to the heap,
    the devices and the kernel between them. *)
Inductive pipe_op := PWrite (data : list Z) | PRead (count : nat) | Others (h : H) (d : gmap nat rt_device) (s : kstate).
Inductive pipe_answer := Wrote (n : Z) | Got (data : list Z).

Definition pipe_exec (op : pipe_op) : M (pipe_state H) (list pipe_answer) :=
  match op with
  | PWrite data =>
      r ← rt_pipe_write (Some o) 0 data (Z.of_nat (length data));
      match r with Return n => mret [Wrote n] | Waiting _ => fault end
  | PRead count =>
      r ← rt_pipe_read (Some o) 0 (Z.of_nat count);
      match r with Return data => mret [Got data] | Waiting _ => fault end
  | Others h d s => modify (fun st => (st.1, mk_env h (pe_mutexes st.2) d s));; mret []
  end.

Fixpoint pipe_run (ops : list pipe_op) : M (pipe_state H) (list pipe_answer) :=
  match ops with
  | [] => mret []
  | op :: ops => r ← pipe_exec op; rs ← pipe_run ops; mret (r ++ rs)
  end.

Definition queue_exec (n : nat) (q : list Z) (op : pipe_op) : list pipe_answer * list Z :=
  match op with
  | PWrite data => ([Wrote (Z.of_nat (length data `min` (n - length q)))], q ++ take (n - length q) data)
  | PRead count => ([Got (take count q)], drop count q)
  | Others _ _ _ => ([], q)
  end.

Fixpoint queue_run (n : nat) (q : list Z) (ops : list pipe_op) : list pipe_answer * list Z :=
  match ops with
  | [] => ([], q)
  | op :: ops => let r := queue_exec n q op in let rs := queue_run n r.2 ops in (r.1 ++ rs.1, rs.2)
  end.

(** Lengths below 2^16, and a next caller that finds the lock free. *)
Definition fits (op : pipe_op) : Prop :=
  match op with
  | PWrite data => Z.of_nat (length data) < 2 ^ 16
  | PRead count => Z.of_nat count < 2 ^ 16
  | Others _ _ s => tl s (mutex_head o) = [] /\ exists t th, blocking_ctx s t th
  end.

(** The pipe is open, its ring holds [q], and its lock is free. *)
Record pipe_holds (n : nat) (q : list Z) (st : pipe_state H) : Prop := {
  ph_ring : exists a pool p0 rb, st.1 !! o = Some (ring_pipe a pool p0 rb) /\ ring_rep n rb q;
  ph_lock : unlocked (pe_mutexes st.2) (pe_kernel st.2)
}.

Lemma run_pipe_write n q data st :
  pipe_holds n q st -> Z.of_nat (length data) < 2 ^ 16 ->
  exists st', rt_pipe_write (Some o) 0 data (Z.of_nat (length data)) st = Ok (Return (Z.of_nat (length data `min` (n - length q)))) st' /\
    pipe_holds n (q ++ take (n - length q) data) st'.
Proof.
  destruct st as [pp [h m d s]]. intros [(a & pool & p0 & rb & Hp & R) U] Hl. simpl in *. unfold rt_pipe_write.
  destruct (Z.eqb_spec (Z.of_nat (length data)) 0) as [E|E].
  - assert (data = []) as -> by (apply length_zero_iff_nil; lia). eexists. split; [reflexivity|]. rewrite take_nil, app_nil_r.
    split; [by eexists _, _, _, _|done].
  - destruct (run_write_loop n rb q a pool p0 data (length data) pp Hp R) as (rb' & R' & E'); [lia|by split|].
    rewrite (firstn_all data) in R'.
    destruct (run_with_lock _ (Z.of_nat (length data `min` (n - length q))) pp _ h h m d s U (fun m' s' => E' (mk_env h m' d s'))) as (s' & Es & U').
    eexists. split; [exact Es|]. split; [|exact U']. eexists _, _, _, _. simpl. rewrite lookup_insert_eq. by split.
Qed.

Lemma run_pipe_read n q k st :
  pipe_holds n q st -> Z.of_nat k < 2 ^ 16 ->
  exists st', rt_pipe_read (Some o) 0 (Z.of_nat k) st = Ok (Return (take k q)) st' /\ pipe_holds n (drop k q) st'.
Proof.
  destruct st as [pp [h m d s]]. intros [(a & pool & p0 & rb & Hp & R) U] Hk. simpl in *. unfold rt_pipe_read.
  destruct (Z.eqb_spec (Z.of_nat k) 0) as [E|E].
  - assert (k = 0%nat) as -> by lia. eexists. split; [reflexivity|]. split; [by eexists _, _, _, _|done].
  - destruct (run_read_loop n rb q a pool p0 k pp Hp R) as (rb' & R' & E'); [lia|done|].
    destruct (run_with_lock _ (take k q) pp _ h h m d s U (fun m' s' => E' (mk_env h m' d s'))) as (s' & Es & U').
    eexists. split; [exact Es|]. split; [|exact U']. eexists _, _, _, _. simpl. rewrite lookup_insert_eq. by split.
Qed.

Lemma run_pipe_exec n q op st :
  pipe_holds n q st -> fits op -> exists st', pipe_exec op st = Ok (queue_exec n q op).1 st' /\ pipe_holds n (queue_exec n q op).2 st'.
Proof.
  intros P F. destruct op as [data|k|h d s]; simpl in F |- *.
  - destruct (run_pipe_write n q data st P F) as (st' & E & P'). run_step E. by exists st'.
  - destruct (run_pipe_read n q k st P F) as (st' & E & P'). run_step E. by exists st'.
  - eexists. split; [reflexivity|]. destruct P as [P [Hm _ _]], F as [Hn Hc]. by split.
Qed.

(** Calls on an open pipe whose lock is free, by any threads and with anything
    else happening between them: every write stores the bytes there is room for
    and returns their number, every read returns the oldest bytes, as a bounded
    first-in first-out queue, and the lock is free again. *)
Theorem pipe_refines_queue n ops : forall q st,
  pipe_holds n q st -> Forall fits ops ->
  exists st', pipe_run ops st = Ok (queue_run n q ops).1 st' /\ pipe_holds n (queue_run n q ops).2 st'.
Proof.
  induction ops as [|op ops IH]; intros q st P F; simpl; [by exists st|].
  apply Forall_cons in F as [F1 F]. destruct (run_pipe_exec n q op st P F1) as (st1 & E1 & P1). run_step E1.
  destruct (IH _ _ P1 F) as (st2 & E2 & P2). run_step E2. by exists st2.
Qed.

(** ** Opening *)

(** [rt_pipe_open] on a pipe without a ring, over any allocator: with memory for
    the ring the pipe holds an empty queue of the size asked for, rounded down;
    without, the pointer stays null or, when there was memory for the structure
    only, is left dangling; the lock is free again. *)
Theorem rt_pipe_open_correct (owns : H -> list (Z * Z) -> Prop) `{!Allocator malloc free owns} oflag pp h l m d s bufsz rs ws :
  (forall p n, 0 <= n -> Z.of_nat (length (contents p n)) = n) ->
  pp !! o = Some (mk_pipe None bufsz rs ws) -> 4 <= bufsz < 2 ^ 15 -> unlocked m s -> owns h l ->
  exists st' f l', rt_pipe_open malloc free contents (Some o) oflag (pp, mk_env h m d s) = Ok (Return RT_EOK) st' /\
    pp_fifo <$> st'.1 !! o = Some f /\ unlocked (pe_mutexes st'.2) (pe_kernel st'.2) /\ owns (pe_heap st'.2) l' /\
    match f with
    | None => l' = l
    | Some (mk_fifo a None) => a ∉ l'.*1
    | Some _ => pipe_holds (Z.to_nat (bufsz - bufsz mod 4)) [] st'
    end.
Proof.
  intros Hc Hp Hb U O. destruct (create_destroy_spec malloc free owns h l bufsz O Hb) as (r & h1 & E & Hr).
  set (p' := set_pp_fifo (fifo_of contents r) (mk_pipe None bufsz rs ws)).
  destruct (run_with_lock (open_body malloc free contents o) RT_EOK pp (<[o := p']> pp) h h1 m d s U) as (s' & Es & U').
  { intros m' s'. unfold open_body. run_step (run_get_obj pp (mk_env h m' d s') o _ Hp). cbn [pp_fifo pp_bufsz].
    rewrite bool_decide_eq_true_2 by done. erewrite bind_Ok; [reflexivity|].
    erewrite bind_Ok; [|unfold on_heap; simpl; by rewrite E]. by apply (run_upd_obj pp _ o (set_pp_fifo (fifo_of contents r)) _ Hp). }
  assert (forall l', owns h1 l' -> exists st' f l'', rt_pipe_open malloc free contents (Some o) oflag (pp, mk_env h m d s) = Ok (Return RT_EOK) st' /\
    pp_fifo <$> st'.1 !! o = Some f /\ unlocked (pe_mutexes st'.2) (pe_kernel st'.2) /\ owns (pe_heap st'.2) l'' /\
    l'' = l' /\ f = fifo_of contents r /\ st' = (<[o := p']> pp, mk_env h1 m d s')) as Hopen.
  { intros l' O'. eexists _, _, l'. split; [exact Es|]. simpl. rewrite lookup_insert_eq. by split_and!. }
  destruct r as [[rb [[pool n]|]]|]; simpl in Hopen.
  - destruct Hr as (-> & nrb & np & l1 & _ & _ & O1 & _). destruct (Hopen l1 O1) as (st' & f & l'' & H1 & H2 & H3 & H4 & -> & -> & ->).
    eexists _, _, l1. split_and!; [exact H1|exact H2|exact H3|exact H4|]. split; [|exact H3]. eexists _, _, _, _. simpl. rewrite lookup_insert_eq.
    split; [reflexivity|]. assert (0 <= bufsz mod 4 < 4) by (apply Z.mod_pos_bound; lia). apply fresh_rep; [lia|rewrite Hc; lia].
  - destruct Hr as (l1 & O1 & _ & Hn). destruct (Hopen l1 O1) as (st' & f & l'' & H1 & H2 & H3 & H4 & -> & -> & _). by eexists _, _, l1.
  - subst h1. destruct (Hopen l O) as (st' & f & l'' & H1 & H2 & H3 & H4 & -> & -> & _). by eexists _, _, l.
Qed.

(** ** Limits of the code *)

(** The device layer counts the reference down before it calls the driver, so
    [rt_pipe_close] never sees the count 1 for which it destroys the ring: the ring
    and the bytes in it stay. *)
Theorem pipe_close_keeps_fifo :
  (forall ops m s d close, m !! o = Some d -> dev_ref_count d = 1 -> op_close (ops o) = Some close ->
     rt_device_close ops o (m, s) =
       (result ← close;
        (if opened result then upd_obj o (set_dev_open_flag RT_DEVICE_OFLAG_CLOSE) else mret tt);;
        mret result) (<[o := set_dev_ref_count 0 d]> m, s)) /\
  (forall pp h m ds s d, unlocked m s -> ds !! o = Some d -> dev_ref_count d = 0 ->
     exists s', rt_pipe_close free (Some o) (pp, mk_env h m ds s) = Ok (Return RT_EOK) (pp, mk_env h m ds s')).
Proof.
  split.
  - intros ops m s d close Hd Hr Hc. unfold rt_device_close. run_step (run_get_obj m s o d Hd). rewrite Hr. cbn [Z.eqb].
    run_step (run_upd_obj m s o (fun d => set_dev_ref_count (u8 (dev_ref_count d - 1)) d) d Hd). rewrite Hr.
    change (u8 (1 - 1)) with 0. run_step (run_get_obj (<[o := set_dev_ref_count 0 d]> m) s o _ (lookup_insert_eq _ _ _)).
    simpl. by rewrite Hc.
  - intros pp h m ds s d U Hd Hr. destruct (run_with_lock (close_body free o) RT_EOK pp pp h h m ds s U) as (s' & E & _); [|by exists s'].
    intros m' s'. unfold close_body. erewrite bind_Ok; [|unfold on_device; simpl; by rewrite (run_get_obj ds s' o d Hd)].
    by rewrite Hr.
Qed.

(** The length of a read goes to a 16-bit parameter: a request of 65536 bytes
    returns nothing, whatever the pipe holds. *)
Theorem pipe_read_64k_empty n q pos st :
  pipe_holds n q st -> exists st', rt_pipe_read (Some o) pos 65536 st = Ok (Return []) st' /\ pipe_holds n q st'.
Proof.
  destruct st as [pp [h m d s]]. intros [(a & pool & p0 & rb & Hp & R) U]. simpl in *. unfold rt_pipe_read.
  destruct (run_get n rb q 0 R ltac:(lia)) as (rb' & E & R'). rewrite drop_0 in R'. rewrite take_0 in E.
  destruct (run_with_lock (read_loop 2 o 65536 0 []) [] pp (<[o := ring_pipe a pool p0 rb']> pp) h h m d s U) as (s' & Es & U').
  - intros m' s'. cbn [read_loop]. change (0 <? 65536) with true. cbv iota. change (u16 (65536 - 0)) with (Z.of_nat 0).
    by run_step (run_on_ring _ a pool p0 rb rb' _ pp (mk_env h m' d s') Hp E).
  - eexists. split; [exact Es|]. split; [|exact U']. eexists _, _, _, _. simpl. rewrite lookup_insert_eq. by split.
Qed.
End refinement.

(** A pipe whose name is taken is freed with its mutex still in the list of
    mutexes. *)
Definition demo_pipes : pipe_state unit :=
  run (rt_pipe_create (Some 1%nat) [112] 64;; rt_pipe_create (Some 2%nat) [112] 64) (∅, mk_env tt ∅ ∅ demo).

Theorem pipe_create_leaves_mutex :
  ret (rt_pipe_create (Some 2%nat) [112] 64) (run (rt_pipe_create (Some 1%nat) [112] 64) (∅, mk_env tt ∅ ∅ demo)) = Some None /\
  demo_pipes.1 !! 2%nat = None /\ pe_mutexes demo_pipes.2 !! 2%nat = None /\
  mutex_ref 2 ∈ objs (pe_kernel demo_pipes.2) RT_Object_Class_Mutex.
Proof. vm_compute. split_and!; try reflexivity. left. Qed.

(** ** Witnesses *)

Definition demo_pipe : pipe_state unit :=
  ({[1%nat := ring_pipe 100 200 (mk_pipe None 4 0 0) demo_ring]}, mk_env tt {[1%nat := free_mutex RT_IPC_FLAG_FIFO]} ∅ demo).

Lemma demo_unlocked : unlocked 1 {[1%nat := free_mutex RT_IPC_FLAG_FIFO]} demo.
Proof.
  split.
  - exists RT_IPC_FLAG_FIFO. split; [reflexivity|by left].
  - vm_compute. reflexivity.
  - exists 1%nat, (thread_at demo 1). exact demo_ctx.
Qed.

Lemma demo_pipe_holds : pipe_holds 1 4 [1] demo_pipe.
Proof.
  split.
  - exists 100, 200, (mk_pipe None 4 0 0), demo_ring. split; [reflexivity|exact demo_ring_rep].
  - exact demo_unlocked.
Qed.

Lemma pipe_refines_queue_witness :
  exists st', pipe_run 1 [PWrite [7; 8; 9; 10]; PRead 2] demo_pipe = Ok [Wrote 3; Got [1; 7]] st' /\ pipe_holds 1 4 [8; 9] st'.
Proof.
  apply (pipe_refines_queue 1 4 [PWrite [7; 8; 9; 10]; PRead 2] [1] demo_pipe).
  - exact demo_pipe_holds.
  - constructor; [simpl; lia|]. constructor; [simpl; lia|constructor].
Defined.

Lemma pipe_read_64k_empty_witness : exists st', rt_pipe_read (Some 1%nat) 0 65536 demo_pipe = Ok (Return []) st'.
Proof. destruct (pipe_read_64k_empty 1 4 [1] 0 demo_pipe demo_pipe_holds) as (st' & E & _). exists st'. exact E. Defined.
