(* ===== verification/PipeFile.v ===== *)
(** * Pipes as files: the file operations of components/drivers/src/pipe.c

    A descriptor of a pipe is open for reading, for writing or for both; the
    pipe counts the ends that are open.  A read of an empty pipe and a write to
    a full one sleep in a wait queue, unless the descriptor is non-blocking.
    A call of [open], [close], [read] and [write] runs up to the point where it
    sleeps, on the lock of the pipe or in a queue, and is continued from there. *)

From S2P Require Import Prelude Kernel Object Timer Scheduler Thread KInv ThreadSpec Ipc Semaphore Mutex Printf Device Mem MemSpec Allocator RingBuffer WaitQueue Pipe.

(** include/libc/libc_fcntl.h, libc_errno.h and libc_ioctl.h, dfs_poll.h *)
Definition O_RDONLY : Z := 0.
Definition O_WRONLY : Z := 1.
Definition O_RDWR : Z := 2.
Definition O_ACCMODE : Z := 3.
Definition O_NONBLOCK : Z := 0x4000.
Definition EAGAIN : Z := 11.
Definition EPIPE : Z := 32.
Definition FIONREAD : Z := 0x8004667F.
Definition FIONWRITE : Z := 0x80046679.
Definition POLLIN : Z := 1.
Definition POLLOUT : Z := 2.
Definition POLLERR : Z := 4.
Definition POLLHUP : Z := 8.

(** The wait queues with their nodes, and the pipes. *)
Definition file_state (H : Type) : Type := (gmap nat (list nat) * gmap nat rt_wqueue_node) * pipe_state H.

(** The queues of the pipe with number [o]. *)
Definition reader_queue (o : nat) : nat := 2 * o.
Definition writer_queue (o : nat) : nat := 2 * o + 1.

Definition add_ends (r w : Z) (p : rt_pipe) : rt_pipe :=
  mk_pipe (pp_fifo p) (pp_bufsz p) (u8 (pp_readers p + r)) (u8 (pp_writers p + w)).

(** The [switch] over [fd->flags & O_ACCMODE] in [open] and [close]; [d] is 1 or -1. *)
Definition count_ends (flags d : Z) (p : rt_pipe) : rt_pipe :=
  let mode := Z.land flags O_ACCMODE in
  if mode =? O_RDONLY then add_ends d 0 p
  else if mode =? O_WRONLY then add_ends 0 d p
  else if mode =? O_RDWR then add_ends d d p
  else p.

(** Where a call that gave up the processor continues.  [Lock]: behind
    [rt_mutex_take]; [Queue]: behind [rt_schedule] in [rt_wqueue_wait].  The others
    are for a thread that made a thread of higher priority ready: behind the
    release of the lock before it sleeps, behind a wake-up before it sleeps, and
    behind the wake-up inside the lock with the result at hand. *)
Inductive read_point := RLock | RQueue | RReleased | RWoke | RGot (len : Z * list Z).

(** The local variables of [pipe_fops_write]; [pbuf] is [buf + ret] as long as the
    loop runs. *)
Record write_vars := mk_wv { wv_ret : Z; wv_wakeup : bool }.
Inductive write_point := WLock (v : write_vars) | WQueue (v : write_vars) | WReleased (v : write_vars) (last : bool) | WWoke (v : write_vars).

(** Behind [rt_mutex_take] and behind the two wake-ups. *)
Inductive close_point := CLock | CReaders | CWriters.

Section file.
Context {H : Type} (malloc : Z -> M H (option Z)) (free : option Z -> M H unit) (contents : Z -> Z -> list Z).
(** The wake-up functions of nodes that are not those of [rt_wqueue_wait]. *)
Context (user_wakeup : nat -> nat -> Z -> M (gmap nat rt_wqueue_node * kstate) Z).

Definition on_pipe {A} (x : M (pipe_state H) A) : M (file_state H) A := on_snd x.

Definition on_wait {A} (x : M wait_state A) : M (file_state H) A := fun st =>
  match x (st.1.1, (st.1.2, pe_kernel st.2.2)) with
  | Ok a y => Ok a ((y.1, y.2.1), (st.2.1, mk_env (pe_heap st.2.2) (pe_mutexes st.2.2) (pe_devices st.2.2) y.2.2))
  | Fault => Fault
  end.

Definition take_lock (o : nat) : M (file_state H) (call nat Z) := on_pipe (on_mutex (rt_mutex_take o RT_WAITING_FOREVER)).
Definition take_lock_resume (o t : nat) : M (file_state H) (call nat Z) :=
  on_pipe (on_mutex (rt_mutex_take_resume o t RT_WAITING_FOREVER)).
Definition release_lock (o : nat) : M (file_state H) unit := on_pipe (on_mutex (rt_mutex_release o));; mret tt.
Definition wakeup_readers (o : nat) (key : Z) : M (file_state H) unit := on_wait (rt_wqueue_wakeup user_wakeup (reader_queue o) key).
Definition wakeup_writers (o : nat) (key : Z) : M (file_state H) unit := on_wait (rt_wqueue_wakeup user_wakeup (writer_queue o) key).

(** Behind a call that may switch threads: the thread [t] goes on if it is still
    the current one, otherwise its call continues at [p] later. *)
Definition go_on {P A} (t : nat) (p : P) (rest : M (file_state H) (call (nat * P) A)) : M (file_state H) (call (nat * P) A) :=
  c ← gets (fun st => k_current (pe_kernel st.2.2));
  if bool_decide (c = Some t) then rest else mret (Waiting (t, p)).

(** ** open and close *)

Definition fops_open_body (o : nat) (flags : Z) : M (pipe_state H) Z :=
  d ← on_device (get_obj o);
  when (dev_ref_count d =? 0)
    (p ← get_obj o;
     r ← on_heap (rt_ringbuffer_create malloc free (pp_bufsz p));
     upd_obj o (set_pp_fifo (fifo_of contents r)));;
  upd_obj o (count_ends flags 1);;
  on_device (upd_obj o (fun d => set_dev_ref_count (u8 (dev_ref_count d + 1)) d));;
  mret 0.

(** [data] and [flags] are the fields of the descriptor. *)
Definition pipe_fops_open (data : option nat) (flags : Z) : M (file_state H) (call nat Z) :=
  match data with
  | None => mret (Return (-1))
  | Some o => on_pipe (with_lock o (fops_open_body o flags))
  end.
Definition pipe_fops_open_resume (o t : nat) (flags : Z) : M (file_state H) (call nat Z) :=
  on_pipe (with_lock_resume o t (fops_open_body o flags)).

(** From behind the second wake-up on. *)
Definition close_last (o : nat) : M (file_state H) (call (nat * close_point) Z) :=
  d ← on_pipe (on_device (get_obj o));
  when (dev_ref_count d =? 1) (on_pipe (destroy_fifo free o));;
  on_pipe (on_device (upd_obj o (fun d => set_dev_ref_count (u8 (dev_ref_count d - 1)) d)));;
  release_lock o;;
  mret (Return 0).

(** From behind the first wake-up on. *)
Definition close_writers (o t : nat) : M (file_state H) (call (nat * close_point) Z) :=
  p ← on_pipe (get_obj o);
  when (pp_readers p =? 0) (wakeup_writers o (Z.lor (Z.lor POLLOUT POLLERR) POLLHUP));;
  go_on t CWriters (close_last o).

Definition close_locked (o : nat) (flags : Z) (r : call nat Z) : M (file_state H) (call (nat * close_point) Z) :=
  match r with
  | Waiting t => mret (Waiting (t, CLock))
  | Return _ =>
      t ← deref (fun st => k_current (pe_kernel st.2.2));
      on_pipe (upd_obj o (count_ends flags (-1)));;
      p ← on_pipe (get_obj o);
      when (pp_writers p =? 0) (wakeup_readers o (Z.lor (Z.lor POLLIN POLLERR) POLLHUP));;
      go_on t CReaders (close_writers o t)
  end.

Definition pipe_fops_close (data : option nat) (flags : Z) : M (file_state H) (call (nat * close_point) Z) :=
  match data with
  | None => mret (Return (-1))
  | Some o => r ← take_lock o; close_locked o flags r
  end.
Definition pipe_fops_close_resume (o : nat) (flags : Z) (w : nat * close_point) : M (file_state H) (call (nat * close_point) Z) :=
  match w with
  | (t, CLock) => r ← take_lock_resume o t; close_locked o flags r
  | (t, CReaders) => close_writers o t
  | (t, CWriters) => close_last o
  end.

(** The result and the value stored at [args]. *)
Definition pipe_fops_ioctl (o : nat) (cmd : Z) : M (file_state H) (Z * option Z) :=
  if cmd =? FIONREAD then
    n ← on_pipe (on_ring o (gets rt_ringbuffer_data_len)); mret (0, Some (s32 n))
  else if cmd =? FIONWRITE then
    n ← on_pipe (on_ring o (gets rt_ringbuffer_space_len)); mret (0, Some (s32 n))
  else mret (- EINVAL, None).

(** ** read

    The result is the value of the function and the bytes at [buf].  [__wait] of
    the reader is the node [n]. *)

Abbreviation read_call := (M (file_state H) (call (nat * read_point) (Z * list Z))).

(** The last part: from the label [out] on. *)
Definition read_out (o : nat) (len : Z * list Z) : read_call := release_lock o;; mret (Return len).

(** The three calls between the release of the lock and its taking; a wait for ever
    does not return without sleeping. *)
Definition read_wait (o n : nat) : read_call :=
  r ← on_wait (rt_wqueue_wait (reader_queue o) n 0 (-1));
  match r with Waiting t => mret (Waiting (t, RQueue)) | Return _ => fault end.
Definition read_signal (o n t : nat) : read_call := wakeup_writers o POLLOUT;; go_on t RWoke (read_wait o n).
Definition read_release (o n t : nat) : read_call := release_lock o;; go_on t RReleased (read_signal o n t).

(** The body of the [while] loop with the lock taken. *)
Definition read_locked (o n : nat) (flags count : Z) (r : call nat Z) : read_call :=
  match r with
  | Waiting t => mret (Waiting (t, RLock))
  | Return _ =>
      t ← deref (fun st => k_current (pe_kernel st.2.2));
      p ← on_pipe (get_obj o);
      if pp_writers p =? 0 then read_out o (0, [])
      else
        len ← on_pipe (on_ring o (rt_ringbuffer_get (u16 count)));
        if 0 <? len.1 then
          wakeup_writers o POLLOUT;;
          go_on t (RGot len) (read_out o len)
        else if has flags O_NONBLOCK then read_out o (- EAGAIN, [])
        else read_release o n t
  end.

Definition pipe_fops_read (o n : nat) (flags count : Z) : read_call :=
  p ← on_pipe (get_obj o);
  if pp_writers p =? 0 then mret (Return (0, []))
  else r ← take_lock o; read_locked o n flags count r.

Definition pipe_fops_read_resume (o n : nat) (flags count : Z) (w : nat * read_point) : read_call :=
  match w with
  | (t, RLock) => r ← take_lock_resume o t; read_locked o n flags count r
  | (t, RQueue) =>
      on_wait (rt_wqueue_wait_resume n);;
      r ← take_lock o; read_locked o n flags count r
  | (t, RReleased) => read_signal o n t
  | (t, RWoke) => read_wait o n
  | (t, RGot len) => read_out o len
  end.

(** ** write *)

Abbreviation write_call := (M (file_state H) (call (nat * write_point) Z)).

(** The body of the [while] loop up to the release of the lock: the variables, and
    whether the loop ends. *)
Definition write_pass (o : nat) (flags : Z) (buf : list Z) (count : Z) (v : write_vars) : M (file_state H) (write_vars * bool) :=
  p ← on_pipe (get_obj o);
  if pp_readers p =? 0 then mret (mk_wv (if wv_ret v =? 0 then - EPIPE else wv_ret v) (wv_wakeup v), true)
  else
    len ← on_pipe (on_ring o (rt_ringbuffer_put (drop (Z.to_nat (wv_ret v)) buf) (u16 (count - wv_ret v))));
    let ret := wv_ret v + len in
    if ret =? count then mret (mk_wv ret true, true)
    else if has flags O_NONBLOCK then mret (mk_wv (if ret =? 0 then - EAGAIN else ret) true, true)
    else mret (mk_wv ret true, false).

Definition write_wait (o n : nat) (v : write_vars) : write_call :=
  r ← on_wait (rt_wqueue_wait (writer_queue o) n 0 (-1));
  match r with Waiting t => mret (Waiting (t, WQueue v)) | Return _ => fault end.

(** Behind the release of the lock, in the loop or behind it. *)
Definition write_released (o n t : nat) (v : write_vars) (last : bool) : write_call :=
  if last then when (wv_wakeup v) (wakeup_readers o POLLIN);; mret (Return (wv_ret v))
  else wakeup_readers o POLLIN;; go_on t (WWoke v) (write_wait o n v).

Definition write_locked (o n : nat) (flags : Z) (buf : list Z) (count : Z) (v : write_vars) (r : call nat Z) : write_call :=
  match r with
  | Waiting t => mret (Waiting (t, WLock v))
  | Return _ =>
      t ← deref (fun st => k_current (pe_kernel st.2.2));
      out ← write_pass o flags buf count v;
      release_lock o;;
      go_on t (WReleased out.1 out.2) (write_released o n t out.1 out.2)
  end.

Definition pipe_fops_write (o n : nat) (flags : Z) (buf : list Z) (count : Z) : write_call :=
  p ← on_pipe (get_obj o);
  if pp_readers p =? 0 then mret (Return (- EPIPE))
  else if count =? 0 then mret (Return 0)
  else r ← take_lock o; write_locked o n flags buf count (mk_wv 0 false) r.

Definition pipe_fops_write_resume (o n : nat) (flags : Z) (buf : list Z) (count : Z) (w : nat * write_point) : write_call :=
  match w with
  | (t, WLock v) => r ← take_lock_resume o t; write_locked o n flags buf count v r
  | (t, WQueue v) =>
      on_wait (rt_wqueue_wait_resume n);;
      r ← take_lock o; write_locked o n flags buf count v r
  | (t, WReleased v last) => write_released o n t v last
  | (t, WWoke v) => write_wait o n v
  end.

(** ** poll *)

(** [rt_poll_add]; [proc] is [req->_proc], absent for a null request or function. *)
Definition rt_poll_add (proc : option (nat -> M (file_state H) unit)) (wq : nat) : M (file_state H) unit :=
  match proc with Some f => f wq | None => mret tt end.

Definition poll_mode (flags : Z) : Z :=
  let mode := Z.land flags O_ACCMODE in
  if mode =? O_RDONLY then 1 else if mode =? O_WRONLY then 2 else if mode =? O_RDWR then 3 else 0.

Definition pipe_fops_poll (o : nat) (flags : Z) (proc : option (nat -> M (file_state H) unit)) : M (file_state H) Z :=
  rt_poll_add proc (reader_queue o);;
  rt_poll_add proc (writer_queue o);;
  let mode := poll_mode flags in
  mask1 ← (if has mode 1 then
    n ← on_pipe (on_ring o (gets rt_ringbuffer_data_len));
    p ← on_pipe (get_obj o);
    mret (Z.lor (if negb (n =? 0) then POLLIN else 0) (if pp_writers p =? 0 then POLLHUP else 0))
  else mret 0);
  mask2 ← (if has mode 2 then
    n ← on_pipe (on_ring o (gets rt_ringbuffer_space_len));
    p ← on_pipe (get_obj o);
    mret (Z.lor (if negb (n =? 0) then POLLOUT else 0) (if pp_readers p =? 0 then POLLERR else 0))
  else mret 0);
  mret (Z.lor mask1 mask2).
End file.

(** ** Steps with a free lock and nobody asleep *)

Section refinement.
Context {H : Type} (malloc : Z -> M H (option Z)) (free : option Z -> M H unit) (contents : Z -> Z -> list Z).
Context (user_wakeup : nat -> nat -> Z -> M (gmap nat rt_wqueue_node * kstate) Z).
Context (o : nat).

(** The thread [t] holds the lock, which was free in [m]. *)
Record holding (m m1 : gmap nat rt_mutex) (s : kstate) (t : nat) : Prop := {
  ho_lock : exists flag th, m !! o = Some (free_mutex flag) /\ ipc_flag flag /\ blocking_ctx s t th /\
    m1 = <[o := mk_mutex 0 (th_current_priority th) 1 (Some t) flag]> m;
  ho_nobody : tl s (mutex_head o) = []
}.

Lemma run_take_lock q pp h m (d : gmap nat rt_device) s :
  unlocked o m s ->
  exists m1 s1 t, take_lock o (q, (pp, mk_env (H := H) h m d s)) = Ok (Return RT_EOK) (q, (pp, mk_env h m1 d s1)) /\ holding m m1 s1 t /\
    (exists th, blocking_ctx s t th) /\ forall v, v ≠ t -> k_threads s1 !! v = k_threads s !! v.
Proof.
  intros [(flag & Hm & Hf) Hl (t & th & B)]. eexists _, _, t. split.
  - unfold take_lock, on_pipe. apply run_on_snd. unfold on_mutex. cbn [fst snd pe_mutexes pe_kernel].
    rewrite (run_take_free m s o flag t th _ Hm B). reflexivity.
  - split; [|split; [by exists th|intros v Hv; by apply lookup_insert_ne]]. split; [|done]. exists flag, (set_th_error RT_EOK th). split_and!; try done. by apply blocking_ctx_set_error.
Qed.

Lemma run_release_lock q pp h m m1 (d : gmap nat rt_device) s t :
  holding m m1 s t -> release_lock o (q, (pp, mk_env (H := H) h m1 d s)) = Ok tt (q, (pp, mk_env h m d s)).
Proof.
  intros [(flag & th & Hm & Hf & B & ->) Hl]. unfold release_lock, on_pipe.
  erewrite bind_Ok; [reflexivity|]. apply run_on_snd. unfold on_mutex. cbn [fst snd pe_mutexes pe_kernel].
  rewrite (run_release_alone _ s o flag t th); [|apply lookup_insert_eq|done|done|done].
  simpl. by rewrite insert_insert_eq, insert_id.
Qed.

Lemma holding_unlocked m m1 s t : holding m m1 s t -> unlocked o m s.
Proof. intros [(flag & th & Hm & Hf & B & _) Hl]. split; [by exists flag|done|by exists t, th]. Qed.

Lemma holding_current m m1 s t : holding m m1 s t -> k_current s = Some t.
Proof. intros [(flag & th & _ & _ & B & _) _]. apply (bc_current _ _ _ B). Qed.

Lemma run_go_on {P A} t (p : P) (rest : M (file_state H) (call (nat * P) A)) st :
  k_current (pe_kernel st.2.2) = Some t -> go_on t p rest st = rest st.
Proof. intros E. unfold go_on. erewrite bind_Ok by reflexivity. cbv beta. by rewrite E, bool_decide_eq_true_2. Qed.

(** Nobody sleeps in the queues of the pipe. *)
Definition quiet (q : gmap nat (list nat) * gmap nat rt_wqueue_node) : Prop :=
  q.1 !! reader_queue o = Some [] /\ q.1 !! writer_queue o = Some [].

Lemma run_wakeup_nobody wq key (st : file_state H) :
  st.1.1 !! wq = Some [] -> on_wait (rt_wqueue_wakeup user_wakeup wq key) st = Ok tt st.
Proof.
  destruct st as [[qs ns] [pp [h m d s]]]. simpl. intros Hq. unfold on_wait, rt_wqueue_wakeup. cbn [fst snd pe_kernel].
  rewrite (bind_Ok _ _ _ _ _ (run_get_obj qs (ns, s) wq [] Hq)). by rewrite bool_decide_eq_true_2.
Qed.

(** ** The pipe as a file *)

(** What the pipe is to its descriptors: the bytes in it, the open ends and the
    open descriptors. *)
Record fpipe := mk_fp { fp_data : list Z; fp_readers : Z; fp_writers : Z; fp_refs : Z }.

Record file_holds (n : nat) (f : fpipe) (st : file_state H) : Prop := {
  fh_pipe : exists a pool bufsz rb, st.2.1 !! o = Some (mk_pipe (Some (mk_fifo a (Some (pool, rb)))) bufsz (fp_readers f) (fp_writers f)) /\
    ring_rep n rb (fp_data f);
  fh_device : exists d, pe_devices st.2.2 !! o = Some d /\ dev_ref_count d = fp_refs f;
  fh_lock : unlocked o (pe_mutexes st.2.2) (pe_kernel st.2.2);
  fh_quiet : quiet st.1;
  fh_counts : 0 <= fp_readers f <= 255 /\ 0 <= fp_writers f <= 255 /\ 0 <= fp_refs f <= 255
}.

Definition set_data (q : list Z) (f : fpipe) : fpipe := mk_fp q (fp_readers f) (fp_writers f) (fp_refs f).

Inductive file_op :=
| FOpen (flags : Z)
| FClose (flags : Z)
| FRead (flags : Z) (count : nat)
| FWrite (flags : Z) (data : list Z)
| FPoll (flags : Z)
| FIoctl (cmd : Z)
| FOthers (h : H) (s : kstate).

Inductive file_answer := Int (r : Z) | Bytes (r : Z) (data : list Z) | Value (r : Z) (v : option Z).

(** The ends that a descriptor with these flags opens: readers, writers. *)
Definition ends (flags : Z) : Z * Z :=
  let mode := Z.land flags O_ACCMODE in
  (if (mode =? O_RDONLY) || (mode =? O_RDWR) then 1 else 0, if (mode =? O_WRONLY) || (mode =? O_RDWR) then 1 else 0).

Definition nonblocking (flags : Z) : bool := has flags O_NONBLOCK.

(** The contract: [None] for a call that has to sleep, for a count that would leave
    its 8 bits, and for the closing of the last descriptor or of an end that is
    not open. *)
Definition file_spec (n : nat) (f : fpipe) (op : file_op) : option (list file_answer * fpipe) :=
  let q := fp_data f in
  match op with
  | FOpen flags =>
      let (r, w) := ends flags in
      if (1 <=? fp_refs f) && (fp_refs f <? 255) && (fp_readers f + r <=? 255) && (fp_writers f + w <=? 255)
      then Some ([Int 0], mk_fp q (fp_readers f + r) (fp_writers f + w) (fp_refs f + 1)) else None
  | FClose flags =>
      let (r, w) := ends flags in
      if (2 <=? fp_refs f) && (r <=? fp_readers f) && (w <=? fp_writers f)
      then Some ([Int 0], mk_fp q (fp_readers f - r) (fp_writers f - w) (fp_refs f - 1)) else None
  | FRead flags count =>
      if fp_writers f =? 0 then Some ([Bytes 0 []], f)
      else if bool_decide (take count q = []) then if nonblocking flags then Some ([Bytes (- EAGAIN) []], f) else None
      else Some ([Bytes (Z.of_nat (count `min` length q)) (take count q)], set_data (drop count q) f)
  | FWrite flags data =>
      let room := (n - length q)%nat in
      if fp_readers f =? 0 then Some ([Int (- EPIPE)], f)
      else if (length data <=? room)%nat then Some ([Int (Z.of_nat (length data))], set_data (q ++ data) f)
      else if nonblocking flags then
        Some ([Int (if (room =? 0)%nat then - EAGAIN else Z.of_nat room)], set_data (q ++ take room data) f)
      else None
  | FPoll flags =>
      let (r, w) := ends flags in
      Some ([Int (Z.lor
        (if r =? 1 then Z.lor (if bool_decide (q = []) then 0 else POLLIN) (if fp_writers f =? 0 then POLLHUP else 0) else 0)
        (if w =? 1 then Z.lor (if (length q =? n)%nat then 0 else POLLOUT) (if fp_readers f =? 0 then POLLERR else 0) else 0))], f)
  | FIoctl cmd =>
      Some ([if cmd =? FIONREAD then Value 0 (Some (Z.of_nat (length q)))
             else if cmd =? FIONWRITE then Value 0 (Some (Z.of_nat (n - length q)))
             else Value (- EINVAL) None], f)
  | FOthers _ _ => Some ([], f)
  end.

(** The code, with the node [wn] for a call that sleeps. *)
Definition returned {L R A} (answer : R -> A) (r : call L R) : M (file_state H) (list A) :=
  match r with Return x => mret [answer x] | Waiting _ => fault end.

Definition file_exec (wn : nat) (op : file_op) : M (file_state H) (list file_answer) :=
  match op with
  | FOpen flags => r ← pipe_fops_open malloc free contents (Some o) flags; returned Int r
  | FClose flags => r ← pipe_fops_close free user_wakeup (Some o) flags; returned Int r
  | FRead flags count => r ← pipe_fops_read user_wakeup o wn flags (Z.of_nat count); returned (fun x => Bytes x.1 x.2) r
  | FWrite flags data => r ← pipe_fops_write user_wakeup o wn flags data (Z.of_nat (length data)); returned Int r
  | FPoll flags => r ← pipe_fops_poll o flags None; mret [Int r]
  | FIoctl cmd => r ← pipe_fops_ioctl o cmd; mret [Value r.1 r.2]
  | FOthers h s => modify (fun st => (st.1, (st.2.1, mk_env h (pe_mutexes st.2.2) (pe_devices st.2.2) s)));; mret []
  end.

(** Lengths below 2^16, and a next caller that finds the lock free. *)
Definition file_fits (op : file_op) : Prop :=
  match op with
  | FRead _ count => Z.of_nat count < 2 ^ 16
  | FWrite _ data => Z.of_nat (length data) < 2 ^ 16
  | FOthers _ s => tl s (mutex_head o) = [] /\ exists t th, blocking_ctx s t th
  | _ => True
  end.

(** A pipe with the ring [rb]. *)
Definition with_ring (a pool bufsz r w : Z) (rb : rt_ringbuffer) : rt_pipe := mk_pipe (Some (mk_fifo a (Some (pool, rb)))) bufsz r w.

Lemma run_file_ring {A} (x : M rt_ringbuffer A) v rb rb' q pp (e : pipe_env H) a pool bufsz r w :
  pp !! o = Some (with_ring a pool bufsz r w rb) -> x rb = Ok v rb' ->
  on_pipe (on_ring o x) (q, (pp, e)) = Ok v (q, (<[o := with_ring a pool bufsz r w rb']> pp, e)).
Proof. intros Hp Hx. apply run_on_snd. exact (run_on_ring o x a pool (mk_pipe None bufsz r w) rb rb' v pp e Hp Hx). Qed.

Lemma run_file_get_pipe q pp (e : pipe_env H) p : pp !! o = Some p -> on_pipe (get_obj o) (q, (pp, e)) = Ok p (q, (pp, e)).
Proof. intros Hp. by apply run_on_snd, run_get_obj. Qed.

Lemma run_current q pp h m (d : gmap nat rt_device) s t :
  k_current s = Some t ->
  deref (fun st : file_state H => k_current (pe_kernel st.2.2)) (q, (pp, mk_env h m d s)) = Ok t (q, (pp, mk_env h m d s)).
Proof. intros E. apply run_deref. exact E. Qed.

(** The ring alone does not change a pipe that is otherwise the same. *)
Lemma file_holds_ring n f q' a pool bufsz rb' qs pp h m d0 s :
  file_holds n f (qs, (pp, mk_env h m d0 s)) -> ring_rep n rb' q' -> forall s', unlocked o m s' ->
  file_holds n (set_data q' f) (qs, (<[o := with_ring a pool bufsz (fp_readers f) (fp_writers f) rb']> pp, mk_env h m d0 s')).
Proof.
  intros [_ Hd _ Hq Hc] R s' U. split; simpl; [|done|done|done|done]. exists a, pool, bufsz, rb'. by rewrite lookup_insert_eq.
Qed.

Lemma set_data_id f : set_data (fp_data f) f = f.
Proof. by destruct f. Qed.

(** The body of the read loop: a result, or a sleep with the lock released. *)
Lemma run_read_locked n q wn flags k x qs pp h m m1 (d : gmap nat rt_device) s t a pool bufsz r w rb :
  holding m m1 s t -> quiet qs -> pp !! o = Some (with_ring a pool bufsz r w rb) -> ring_rep n rb q -> Z.of_nat k < 2 ^ 16 ->
  w ≠ 0 ->
  exists rb', ring_rep n rb' (drop k q) /\
    let st' := (qs, (<[o := with_ring a pool bufsz r w rb']> pp, mk_env h m d s)) in
    read_locked user_wakeup o wn flags (Z.of_nat k) (Return x) (qs, (pp, mk_env (H := H) h m1 d s)) =
      if bool_decide (take k q = []) then
        if nonblocking flags then Ok (Return (- EAGAIN, [])) st' else read_wait o wn st'
      else Ok (Return (Z.of_nat (k `min` length q), take k q)) st'.
Proof.
  intros Ho [Hqr Hqw] Hp R Hk Hw. pose proof (holding_current _ _ _ _ Ho) as Hc.
  destruct (run_get n rb q k R Hk) as (rb' & E & R'). exists rb'. split; [done|]. intros st'. cbn [read_locked].
  run_step (run_current qs pp h m1 d s t Hc). run_step (run_file_get_pipe qs pp (mk_env h m1 d s) _ Hp).
  cbn [pp_writers with_ring]. rewrite (proj2 (Z.eqb_neq w 0)) by done. rewrite u16_small by lia.
  run_step (run_file_ring _ _ rb rb' qs pp (mk_env h m1 d s) a pool bufsz r w Hp E). cbn [fst].
  assert (Z.of_nat (k `min` length q) = 0 <-> take k q = []) as Hz by (rewrite <- length_zero_iff_nil, length_take; lia).
  destruct (Z.ltb_spec 0 (Z.of_nat (k `min` length q))) as [Hlt|Hge].
  - rewrite bool_decide_eq_false_2 by (rewrite <- Hz; lia). erewrite bind_Ok by (by apply run_wakeup_nobody).
    rewrite run_go_on by done. unfold read_out. by run_step (run_release_lock qs (<[o := with_ring a pool bufsz r w rb']> pp) h m m1 d s t Ho).
  - rewrite bool_decide_eq_true_2 by (apply Hz; lia). fold (nonblocking flags). destruct (nonblocking flags).
    + unfold read_out. by run_step (run_release_lock qs (<[o := with_ring a pool bufsz r w rb']> pp) h m m1 d s t Ho).
    + unfold read_release. run_step (run_release_lock qs (<[o := with_ring a pool bufsz r w rb']> pp) h m m1 d s t Ho).
      rewrite run_go_on by done. unfold read_signal. erewrite bind_Ok by (by apply run_wakeup_nobody). by rewrite run_go_on by done.
Qed.

Lemma run_file_read n f wn flags k st a f' :
  file_holds n f st -> Z.of_nat k < 2 ^ 16 -> file_spec n f (FRead flags k) = Some (a, f') ->
  exists st', file_exec wn (FRead flags k) st = Ok a st' /\ file_holds n f' st'.
Proof.
  destruct st as [qs [pp [h m d s]]]. intros FH Hk Hspec. pose proof FH as [(ad & pool & bufsz & rb & Hp & R) Hd U Hq _].
  simpl in Hp, Hd, U, Hq. cbn [file_spec file_exec] in *.
  assert (exists r st', pipe_fops_read user_wakeup o wn flags (Z.of_nat k) (qs, (pp, mk_env h m d s)) = Ok r st' /\
    returned (fun x => Bytes x.1 x.2) r st' = Ok a st' /\ file_holds n f' st') as (r & st' & E & Ea & F').
  2: { exists st'. run_step E. by split. }
  unfold pipe_fops_read. run_step (run_file_get_pipe qs pp (mk_env h m d s) _ Hp). cbn [pp_writers].
  destruct (Z.eqb_spec (fp_writers f) 0) as [Hw|Hw]; [injection Hspec as <- <-; by eexists _, _|].
  destruct (run_take_lock qs pp h m d s U) as (m1 & s1 & t & E1 & Ho & _). run_step E1.
  destruct (run_read_locked n (fp_data f) wn flags k RT_EOK qs pp h m m1 d s1 t ad pool bufsz _ _ rb Ho Hq Hp R Hk Hw) as (rb' & R' & E).
  rewrite E. pose proof (file_holds_ring n f _ ad pool bufsz rb' qs pp h m d s FH R' s1 (holding_unlocked _ _ _ _ Ho)) as F'.
  destruct (bool_decide_reflect (take k (fp_data f) = [])) as [Hz|Hz].
  - destruct (nonblocking flags); [|done]. injection Hspec as <- <-. eexists _, _. split; [reflexivity|]. split; [reflexivity|].
    assert (drop k (fp_data f) = fp_data f) as Ed by (rewrite <- (take_drop k (fp_data f)) at 2; by rewrite Hz).
    by rewrite Ed, set_data_id in F'.
  - injection Hspec as <- <-. by eexists _, _.
Qed.

(** The body of the write loop up to the release of the lock. *)
Lemma run_write_release n q wn flags data v x qs pp h m m1 (d : gmap nat rt_device) s t a pool bufsz r w rb :
  holding m m1 s t -> pp !! o = Some (with_ring a pool bufsz r w rb) -> ring_rep n rb q ->
  r ≠ 0 -> 0 <= wv_ret v <= Z.of_nat (length data) -> Z.of_nat (length data) < 2 ^ 16 ->
  let rest := drop (Z.to_nat (wv_ret v)) data in let room := (n - length q)%nat in let done := wv_ret v + Z.of_nat (length rest `min` room) in
  exists rb', ring_rep n rb' (q ++ take room rest) /\
    write_locked user_wakeup o wn flags data (Z.of_nat (length data)) v (Return x) (qs, (pp, mk_env (H := H) h m1 d s)) =
      write_released user_wakeup o wn t
        (mk_wv (if (length rest <=? room)%nat then Z.of_nat (length data)
                else if nonblocking flags then if done =? 0 then - EAGAIN else done else done) true)
        ((length rest <=? room)%nat || nonblocking flags)
        (qs, (<[o := with_ring a pool bufsz r w rb']> pp, mk_env h m d s)).
Proof.
  intros Ho Hp R Hr Hv Hl rest room dn. pose proof (holding_current _ _ _ _ Ho) as Hc.
  assert (length rest = (length data - Z.to_nat (wv_ret v))%nat) as Elen by apply length_drop.
  destruct (run_put n rb q rest (length rest) R ltac:(split; lia)) as (rb' & E & R'). rewrite (firstn_all rest) in R'.
  exists rb'. split; [exact R'|]. cbn [write_locked]. run_step (run_current qs pp h m1 d s t Hc).
  set (v' := mk_wv _ true). set (last := _ || _).
  assert (write_pass o flags data (Z.of_nat (length data)) v (qs, (pp, mk_env (H := H) h m1 d s)) =
    Ok (v', last) (qs, (<[o := with_ring a pool bufsz r w rb']> pp, mk_env h m1 d s))) as Ep.
  { unfold write_pass. run_step (run_file_get_pipe qs pp (mk_env h m1 d s) _ Hp). cbn [pp_readers with_ring].
    rewrite (proj2 (Z.eqb_neq r 0)) by done. fold rest. rewrite u16_small by lia.
    replace (Z.of_nat (length data) - wv_ret v) with (Z.of_nat (length rest)) by lia.
    run_step (run_file_ring _ _ rb rb' qs pp (mk_env h m1 d s) a pool bufsz r w Hp E). fold room dn.
    fold (nonblocking flags). unfold v', last. clearbody room.
    destruct (Nat.leb_spec (length rest) room), (Z.eqb_spec dn (Z.of_nat (length data))); try (unfold dn in *; lia); cbn [orb].
    - by replace dn with (Z.of_nat (length data)).
    - by destruct (nonblocking flags). }
  run_step Ep. run_step (run_release_lock qs (<[o := with_ring a pool bufsz r w rb']> pp) h m m1 d s t Ho). cbn [fst snd].
  by rewrite run_go_on by done.
Qed.

Lemma run_write_locked n q wn flags data v x qs pp h m m1 (d : gmap nat rt_device) s t a pool bufsz r w rb :
  holding m m1 s t -> quiet qs -> pp !! o = Some (with_ring a pool bufsz r w rb) -> ring_rep n rb q ->
  r ≠ 0 -> 0 <= wv_ret v <= Z.of_nat (length data) -> Z.of_nat (length data) < 2 ^ 16 ->
  let rest := drop (Z.to_nat (wv_ret v)) data in let room := (n - length q)%nat in let done := wv_ret v + Z.of_nat (length rest `min` room) in
  exists rb', ring_rep n rb' (q ++ take room rest) /\
    let st' := (qs, (<[o := with_ring a pool bufsz r w rb']> pp, mk_env h m d s)) in
    write_locked user_wakeup o wn flags data (Z.of_nat (length data)) v (Return x) (qs, (pp, mk_env (H := H) h m1 d s)) =
      if (length rest <=? room)%nat then Ok (Return (Z.of_nat (length data))) st'
      else if nonblocking flags then Ok (Return (if done =? 0 then - EAGAIN else done)) st'
      else write_wait o wn (mk_wv done true) st'.
Proof.
  intros Ho [Hqr Hqw] Hp R Hr Hv Hl rest room dn. pose proof (holding_current _ _ _ _ Ho) as Hc.
  destruct (run_write_release n q wn flags data v x qs pp h m m1 d s t a pool bufsz r w rb Ho Hp R Hr Hv Hl) as (rb' & R' & E).
  exists rb'. split; [exact R'|]. intros st'. rewrite E. fold rest room dn. unfold write_released.
  destruct (length rest <=? room)%nat; cbn [orb]; [erewrite bind_Ok by (by apply run_wakeup_nobody); reflexivity|].
  destruct (nonblocking flags); (erewrite bind_Ok by (by apply run_wakeup_nobody)); [reflexivity|]. by rewrite run_go_on by done.
Qed.

Lemma run_file_write n f wn flags data st a f' :
  file_holds n f st -> Z.of_nat (length data) < 2 ^ 16 -> file_spec n f (FWrite flags data) = Some (a, f') ->
  exists st', file_exec wn (FWrite flags data) st = Ok a st' /\ file_holds n f' st'.
Proof.
  destruct st as [qs [pp [h m d s]]]. intros FH Hl Hspec. pose proof FH as [(ad & pool & bufsz & rb & Hp & R) Hd U Hq _].
  simpl in Hp, Hd, U, Hq. cbn [file_spec file_exec] in *.
  assert (exists r st', pipe_fops_write user_wakeup o wn flags data (Z.of_nat (length data)) (qs, (pp, mk_env h m d s)) = Ok r st' /\
    returned Int r st' = Ok a st' /\ file_holds n f' st') as (r & st' & E & Ea & F').
  2: { exists st'. run_step E. by split. }
  unfold pipe_fops_write. run_step (run_file_get_pipe qs pp (mk_env h m d s) _ Hp). cbn [pp_readers].
  destruct (Z.eqb_spec (fp_readers f) 0) as [Hr|Hr]; [injection Hspec as <- <-; by eexists _, _|].
  destruct (Z.eqb_spec (Z.of_nat (length data)) 0) as [Hz|Hz].
  { assert (data = []) as -> by (apply length_zero_iff_nil; lia). cbn in Hspec. injection Hspec as <- <-.
    rewrite app_nil_r, set_data_id. by eexists _, _. }
  destruct (run_take_lock qs pp h m d s U) as (m1 & s1 & t & E1 & Ho & _). run_step E1.
  destruct (run_write_locked n (fp_data f) wn flags data (mk_wv 0 false) RT_EOK qs pp h m m1 d s1 t ad pool bufsz _ _ rb Ho Hq Hp R Hr)
    as (rb' & R' & E); [simpl; lia|done|]. rewrite E. cbn [wv_ret] in *. change (Z.to_nat 0) with 0%nat in *. rewrite drop_0 in *.
  pose proof (file_holds_ring n f _ ad pool bufsz rb' qs pp h m d s FH R' s1 (holding_unlocked _ _ _ _ Ho)) as F'.
  destruct (Nat.leb_spec (length data) (n - length (fp_data f))) as [Hle|Hlt].
  - injection Hspec as <- <-. rewrite take_ge in F' by lia. by eexists _, _.
  - destruct (nonblocking flags); [|done]. injection Hspec as <- <-. rewrite Nat.min_r by lia. eexists _, _. split; [reflexivity|]. split; [|exact F'].
    unfold returned. do 4 f_equal. destruct (Nat.eqb_spec (n - length (fp_data f)) 0), (Z.eqb_spec (0 + Z.of_nat (n - length (fp_data f))) 0); lia.
Qed.

(** *** Opening, closing, polling and asking *)

Lemma ends_range flags : 0 <= (ends flags).1 <= 1 /\ 0 <= (ends flags).2 <= 1.
Proof. unfold ends. simpl. split; case_match; lia. Qed.

Lemma count_ends_eq flags e p r w :
  ends flags = (r, w) -> 0 <= pp_readers p <= 255 -> 0 <= pp_writers p <= 255 ->
  0 <= pp_readers p + e * r <= 255 -> 0 <= pp_writers p + e * w <= 255 ->
  count_ends flags e p = mk_pipe (pp_fifo p) (pp_bufsz p) (pp_readers p + e * r) (pp_writers p + e * w).
Proof.
  intros He Hr Hw Hr' Hw'. unfold ends in He. injection He as <- <-. destruct p as [fi b rs ws]. simpl in *. unfold count_ends, add_ends. simpl.
  destruct (Z.eqb_spec (Z.land flags O_ACCMODE) O_RDONLY) as [->|]; simpl in *.
  { f_equal; rewrite u8_small; lia. }
  destruct (Z.eqb_spec (Z.land flags O_ACCMODE) O_WRONLY) as [->|]; simpl in *.
  { f_equal; rewrite u8_small; lia. }
  destruct (Z.eqb_spec (Z.land flags O_ACCMODE) O_RDWR); simpl in *; f_equal; rewrite ?u8_small; lia.
Qed.

Lemma run_file_open n f wn flags st a f' :
  file_holds n f st -> file_spec n f (FOpen flags) = Some (a, f') ->
  exists st', file_exec wn (FOpen flags) st = Ok a st' /\ file_holds n f' st'.
Proof.
  destruct st as [qs [pp [h m d s]]]. intros [(ad & pool & bufsz & rb & Hp & R) (dv & Hd & Hrc) U Hq (Hcr & Hcw & Hcc)] Hspec.
  simpl in Hp, Hd, U, Hq. cbn [file_spec file_exec] in *. pose proof (ends_range flags) as [Her Hew].
  destruct (ends flags) as [r w] eqn:Ee. simpl in Her, Hew. case_match eqn:Hg; [|done]. injection Hspec as <- <-. to_prop.
  set (p := mk_pipe (Some (mk_fifo ad (Some (pool, rb)))) bufsz (fp_readers f) (fp_writers f)) in Hp.
  assert (count_ends flags 1 p = with_ring ad pool bufsz (fp_readers f + r) (fp_writers f + w) rb) as Ec.
  { rewrite (count_ends_eq flags 1 p r w Ee); unfold p, with_ring; simpl; [f_equal; lia|lia..]. }
  set (dv' := set_dev_ref_count (u8 (dev_ref_count dv + 1)) dv).
  destruct (run_with_lock_env o (fops_open_body malloc free contents o flags) 0 pp (<[o := count_ends flags 1 p]> pp) h h m d (<[o := dv']> d) s U)
    as (s' & E & U').
  { intros m' s'. unfold fops_open_body. erewrite bind_Ok; [|unfold on_device; simpl; by rewrite (run_get_obj d s' o dv Hd)]. cbn [fst snd pe_heap pe_mutexes].
    rewrite (proj2 (Z.eqb_neq _ _)) by lia. cbn [when]. erewrite bind_Ok by reflexivity.
    run_step (run_upd_obj pp (mk_env h m' d s') o (count_ends flags 1) p Hp). erewrite bind_Ok; [reflexivity|].
    unfold on_device. simpl. by rewrite (run_upd_obj d s' o (fun x => set_dev_ref_count (u8 (dev_ref_count x + 1)) x) dv Hd). }
  exists (qs, (<[o := count_ends flags 1 p]> pp, mk_env h m (<[o := dv']> d) s')). split.
  - unfold pipe_fops_open, on_pipe. by run_step (run_on_snd _ qs _ _ _ E).
  - split; simpl; [|exists dv'; rewrite lookup_insert_eq; unfold dv'; simpl; rewrite u8_small by lia; split; [done|lia]|done|done|lia].
    rewrite Ec. exists ad, pool, bufsz, rb. by rewrite lookup_insert_eq.
Qed.

Lemma run_file_close n f wn flags st a f' :
  file_holds n f st -> file_spec n f (FClose flags) = Some (a, f') ->
  exists st', file_exec wn (FClose flags) st = Ok a st' /\ file_holds n f' st'.
Proof.
  destruct st as [qs [pp [h m d s]]]. intros [(ad & pool & bufsz & rb & Hp & R) (dv & Hd & Hrc) U [Hqr Hqw] (Hcr & Hcw & Hcc)] Hspec.
  simpl in Hp, Hd, U, Hqr, Hqw. cbn [file_spec file_exec] in *. pose proof (ends_range flags) as [Her Hew].
  destruct (ends flags) as [r w] eqn:Ee. simpl in Her, Hew. case_match eqn:Hg; [|done]. injection Hspec as <- <-. to_prop.
  set (p := mk_pipe (Some (mk_fifo ad (Some (pool, rb)))) bufsz (fp_readers f) (fp_writers f)) in Hp.
  assert (count_ends flags (-1) p = with_ring ad pool bufsz (fp_readers f - r) (fp_writers f - w) rb) as Ec.
  { rewrite (count_ends_eq flags (-1) p r w Ee); unfold p, with_ring; simpl; [f_equal; lia|lia..]. }
  set (dv' := set_dev_ref_count (u8 (dev_ref_count dv - 1)) dv).
  destruct (run_take_lock qs pp h m d s U) as (m1 & s1 & t & E1 & Ho & _). pose proof (holding_current _ _ _ _ Ho) as Hc.
  set (p' := with_ring ad pool bufsz (fp_readers f - r) (fp_writers f - w) rb) in *. set (pp' := <[o := p']> pp).
  assert (pp' !! o = Some p') as Hp' by apply lookup_insert_eq.
  assert (pipe_fops_close free user_wakeup (Some o) flags (qs, (pp, mk_env h m d s)) = Ok (Return 0) (qs, (pp', mk_env h m (<[o := dv']> d) s1))) as E.
  { unfold pipe_fops_close. run_step E1. cbn [close_locked]. run_step (run_current qs pp h m1 d s1 t Hc).
    rewrite (bind_Ok _ _ _ _ _ (run_on_snd _ qs _ _ _ (run_upd_obj pp (mk_env h m1 d s1) o (count_ends flags (-1)) p Hp))). rewrite Ec. fold pp'.
    run_step (run_file_get_pipe qs pp' (mk_env h m1 d s1) _ Hp').
    rewrite (bind_Ok _ _ _ tt (qs, (pp', mk_env h m1 d s1))) by (destruct (pp_writers p' =? 0); [by apply run_wakeup_nobody|done]).
    rewrite run_go_on by done. unfold close_writers. run_step (run_file_get_pipe qs pp' (mk_env h m1 d s1) _ Hp').
    rewrite (bind_Ok _ _ _ tt (qs, (pp', mk_env h m1 d s1))) by (destruct (pp_readers p' =? 0); [by apply run_wakeup_nobody|done]).
    rewrite run_go_on by done. unfold close_last, on_pipe.
    rewrite (bind_Ok _ _ _ dv (qs, (pp', mk_env h m1 d s1))) by (apply run_on_snd; unfold on_device; simpl; by rewrite (run_get_obj d s1 o dv Hd)).
    rewrite (proj2 (Z.eqb_neq _ _)) by lia. cbn [when]. erewrite bind_Ok by reflexivity.
    rewrite (bind_Ok _ _ _ tt (qs, (pp', mk_env h m1 (<[o := dv']> d) s1))).
    2: { apply run_on_snd. unfold on_device. simpl. by rewrite (run_upd_obj d s1 o (fun x => set_dev_ref_count (u8 (dev_ref_count x - 1)) x) dv Hd). }
    by run_step (run_release_lock qs pp' h m m1 (<[o := dv']> d) s1 t Ho). }
  exists (qs, (pp', mk_env h m (<[o := dv']> d) s1)). split; [by run_step E|].
  split; simpl; [|exists dv'; rewrite lookup_insert_eq; unfold dv'; simpl; rewrite u8_small by lia; split; [done|lia]|by eapply holding_unlocked|done|lia].
  exists ad, pool, bufsz, rb. by split.
Qed.

Lemma run_ring_len n q a pool bufsz r w rb qs pp (e : pipe_env H) :
  pp !! o = Some (with_ring a pool bufsz r w rb) -> ring_rep n rb q ->
  on_pipe (on_ring o (gets rt_ringbuffer_data_len)) (qs, (pp, e)) = Ok (Z.of_nat (length q)) (qs, (pp, e)) /\
  on_pipe (on_ring o (gets rt_ringbuffer_space_len)) (qs, (pp, e)) = Ok (Z.of_nat (n - length q)) (qs, (pp, e)).
Proof.
  intros Hp R. rewrite <- (insert_id pp o _ Hp) at 2 4. rewrite <- (data_len_rep _ _ _ R), <- (space_len_rep _ _ _ R).
  split; by apply (run_file_ring _ _ rb rb qs pp e a pool bufsz r w).
Qed.

Lemma run_file_ioctl n f wn cmd st a f' :
  file_holds n f st -> file_spec n f (FIoctl cmd) = Some (a, f') ->
  exists st', file_exec wn (FIoctl cmd) st = Ok a st' /\ file_holds n f' st'.
Proof.
  destruct st as [qs [pp e]]. intros FH Hspec. pose proof FH as [(ad & pool & bufsz & rb & Hp & R) _ _ _ _]. simpl in Hp.
  injection Hspec as <- <-. exists (qs, (pp, e)). split; [|done]. destruct (run_ring_len n _ _ _ _ _ _ rb qs pp e Hp R) as [E1 E2].
  pose proof (rr_len _ _ _ R). pose proof (rr_pos _ _ _ R) as [_ ?]. cbn [file_exec]. unfold pipe_fops_ioctl.
  assert (forall k, Z.of_nat k < 2 ^ 15 -> s32 (Z.of_nat k) = Z.of_nat k) as Hs by (intros k Hk; unfold s32; rewrite Z.mod_small; lia).
  case_match; [|case_match].
  - erewrite bind_Ok; [|run_step E1; reflexivity]. cbn [fst snd]. by rewrite Hs by lia.
  - erewrite bind_Ok; [|run_step E2; reflexivity]. cbn [fst snd]. by rewrite Hs by lia.
  - reflexivity.
Qed.

Lemma poll_mode_ends flags : has (poll_mode flags) 1 = ((ends flags).1 =? 1) /\ has (poll_mode flags) 2 = ((ends flags).2 =? 1).
Proof.
  unfold poll_mode, ends. simpl. destruct (Z.eqb_spec (Z.land flags O_ACCMODE) O_RDONLY) as [->|]; [done|].
  destruct (Z.eqb_spec (Z.land flags O_ACCMODE) O_WRONLY) as [->|]; [done|]. by destruct (Z.land flags O_ACCMODE =? O_RDWR).
Qed.

Lemma run_file_poll n f wn flags st a f' :
  file_holds n f st -> file_spec n f (FPoll flags) = Some (a, f') ->
  exists st', file_exec wn (FPoll flags) st = Ok a st' /\ file_holds n f' st'.
Proof.
  destruct st as [qs [pp e]]. intros FH Hspec. pose proof FH as [(ad & pool & bufsz & rb & Hp & R) _ _ _ _]. simpl in Hp. cbn [file_spec] in Hspec.
  destruct (run_ring_len n _ _ _ _ _ _ rb qs pp e Hp R) as [E1 E2]. pose proof (rr_len _ _ _ R).
  destruct (poll_mode_ends flags) as [Hm1 Hm2]. destruct (ends flags) as [r w]. injection Hspec as <- <-. simpl in Hm1, Hm2.
  exists (qs, (pp, e)). split; [|done]. cbn [file_exec]. unfold pipe_fops_poll. erewrite bind_Ok; [reflexivity|].
  erewrite bind_Ok by reflexivity. erewrite bind_Ok by reflexivity. cbv zeta. rewrite Hm1, Hm2.
  rewrite (bind_Ok _ _ _ (if r =? 1 then Z.lor (if bool_decide (fp_data f = []) then 0 else POLLIN) (if fp_writers f =? 0 then POLLHUP else 0) else 0) (qs, (pp, e))).
  2: { case_match; [|done]. run_step E1. run_step (run_file_get_pipe qs pp e _ Hp). do 2 f_equal.
    case_bool_decide as Hz; [by rewrite Hz|]. rewrite (proj2 (Z.eqb_neq _ _)); [done|]. rewrite <- length_zero_iff_nil in Hz. lia. }
  rewrite (bind_Ok _ _ _ (if w =? 1 then Z.lor (if (length (fp_data f) =? n)%nat then 0 else POLLOUT) (if fp_readers f =? 0 then POLLERR else 0) else 0) (qs, (pp, e))).
  2: { case_match; [|done]. run_step E2. run_step (run_file_get_pipe qs pp e _ Hp). do 2 f_equal.
    destruct (Nat.eqb_spec (length (fp_data f)) n), (Z.eqb_spec (Z.of_nat (n - length (fp_data f))) 0); try done; lia. }
  reflexivity.
Qed.

Lemma run_file_exec n f wn op st a f' :
  file_holds n f st -> file_fits op -> file_spec n f op = Some (a, f') ->
  exists st', file_exec wn op st = Ok a st' /\ file_holds n f' st'.
Proof.
  intros FH Hf Hs. destruct op as [flags|flags|flags k|flags data|flags|cmd|h s].
  - by apply run_file_open with f.
  - by apply run_file_close with f.
  - by apply run_file_read with f.
  - by apply run_file_write with f.
  - by apply run_file_poll with f.
  - by apply run_file_ioctl with f.
  - injection Hs as <- <-. eexists. split; [reflexivity|]. destruct FH as [Hp Hd [Hm _ _] Hq Hc], Hf as [Hn Hb]. by split.
Qed.

Fixpoint file_run (wn : nat) (ops : list file_op) : M (file_state H) (list file_answer) :=
  match ops with
  | [] => mret []
  | op :: ops => r ← file_exec wn op; rs ← file_run wn ops; mret (r ++ rs)
  end.

Fixpoint spec_run (n : nat) (f : fpipe) (ops : list file_op) : option (list file_answer * fpipe) :=
  match ops with
  | [] => Some ([], f)
  | op :: ops => '(a, f1) ← file_spec n f op; '(l, f2) ← spec_run n f1 ops; Some (a ++ l, f2)
  end.

(** C25: the descriptors of an open pipe, called by any threads and with anything
    else happening between the calls: as long as no call has to sleep and none reads
    or writes 2^16 bytes or more, open, close, read, write, poll and ioctl answer as a bounded first-in first-out queue that
    knows its open ends -- end of file without writers, EPIPE without readers,
    EAGAIN or a short count on a non-blocking descriptor. *)
Theorem pipe_file_refines n wn ops : forall f st a f',
  file_holds n f st -> Forall file_fits ops -> spec_run n f ops = Some (a, f') ->
  exists st', file_run wn ops st = Ok a st' /\ file_holds n f' st'.
Proof.
  induction ops as [|op ops IH]; intros f st a f' FH Hf Hs; simpl in Hs |- *; [injection Hs as <- <-; by exists st|].
  apply Forall_cons in Hf as [Hf1 Hf]. destruct (file_spec n f op) as [[a1 f1]|] eqn:E1; [|done]. simpl in Hs.
  destruct (spec_run n f1 ops) as [[l f2]|] eqn:E2; [|done]. injection Hs as <- <-.
  destruct (run_file_exec n f wn op st a1 f1 FH Hf1 E1) as (st1 & R1 & FH1). run_step R1.
  destruct (IH f1 st1 l f2 FH1 Hf E2) as (st2 & R2 & FH2). run_step R2. by exists st2.
Qed.

(** ** A reader that sleeps *)

Lemma run_on_wait {A} (x : M wait_state A) v qs ns s qs' ns' s' pp h m (d : gmap nat rt_device) :
  x (qs, (ns, s)) = Ok v (qs', (ns', s')) ->
  on_wait x ((qs, ns), (pp, mk_env (H := H) h m d s)) = Ok v ((qs', ns'), (pp, mk_env h m d s')).
Proof. intros E. unfold on_wait. cbn [fst snd pe_kernel]. by rewrite E. Qed.

(** The return of a wait whose node was taken out of its queue. *)
Lemma wait_resume_any (qs : gmap nat (list nat)) ns wn e :
  (forall o' l, qs !! o' = Some l -> wn ∉ l) -> ns !! wn = Some e ->
  forall s : kstate, rt_wqueue_wait_resume wn (qs, (ns, s)) = Ok (Return 0) (qs, (ns, s)).
Proof.
  intros Hq He s. unfold rt_wqueue_wait_resume. run_step (run_wqueue_remove qs ns s wn e He). by rewrite (remove_absent qs wn Hq).
Qed.

(** C26: a blocking read of an empty pipe puts the calling thread to sleep with the
    lock free; whatever the kernel does while it sleeps, a write by another thread
    returns its full length and makes the reader ready, and when the reader runs
    again its call returns the oldest bytes of what was written; the rest stays in
    the pipe. *)
Theorem pipe_read_handshake n f qs ns pp h m d s wn flags k :
  file_holds n f ((qs, ns), (pp, mk_env h m d s)) -> fp_data f = [] -> fp_readers f ≠ 0 -> fp_writers f ≠ 0 ->
  nonblocking flags = false -> (0 < k)%nat -> Z.of_nat k < 2 ^ 16 -> (forall o' l, qs !! o' = Some l -> wn ∉ l) ->
  exists t w1 pp1 s1, k_current s = Some t /\
    pipe_fops_read user_wakeup o wn flags (Z.of_nat k) ((qs, ns), (pp, mk_env h m d s)) = Ok (Waiting (t, RQueue)) (w1, (pp1, mk_env h m d s1)) /\
    kinv s1 /\ (exists th1, k_threads s1 !! t = Some th1 /\ state_of th1 = RT_THREAD_SUSPEND) /\
    forall (h2 : H) s2 th2 wn2 flags2 data, unlocked o m s2 -> k_threads s2 !! t = Some th2 -> state_of th2 = RT_THREAD_SUSPEND ->
      (0 < length data <= n)%nat ->
    exists w3 pp3 s3, pipe_fops_write user_wakeup o wn2 flags2 data (Z.of_nat (length data)) (w1, (pp1, mk_env h2 m d s2)) =
        Ok (Return (Z.of_nat (length data))) (w3, (pp3, mk_env h2 m d s3)) /\
      kinv s3 /\ (exists th3, ready s3 t th3) /\
      forall (h4 : H) s4, unlocked o m s4 -> k_current s4 = Some t ->
      exists st5, pipe_fops_read_resume user_wakeup o wn flags (Z.of_nat k) (t, RQueue) (w3, (pp3, mk_env h4 m d s4)) =
          Ok (Return (Z.of_nat (k `min` length data), take k data)) st5 /\
        file_holds n (set_data (drop k data) f) st5.
Proof.
  intros [(ad & pool & bufsz & rb & Hp & R) Hd U Hq Hcnt] Hf Hr Hw Hnb Hk Hk2 Hwn. simpl in Hp, Hd, U. rewrite Hf in R.
  destruct (run_take_lock (qs, ns) pp h m d s U) as (m1 & s0 & t & E1 & Ho & (th0 & B0) & _). pose proof (holding_current _ _ _ _ Ho) as Hc.
  destruct (run_read_locked n [] wn flags k RT_EOK (qs, ns) pp h m m1 d s0 t ad pool bufsz _ _ rb Ho Hq Hp R Hk2 Hw) as (rb1 & R1 & E).
  rewrite take_nil, bool_decide_eq_true_2, Hnb in E by done. rewrite drop_nil in R1. set (pp1 := <[o := _]> pp) in E.
  destruct Ho as [(flag & th & Hm & Hfl & B & _) Hl]. destruct Hq as [Hqr Hqw]. simpl in Hqr, Hqw.
  destruct (wqueue_handshake user_wakeup qs ns s0 (reader_queue o) wn t th (-1) B Hqr Hwn ltac:(lia) ltac:(lia)) as (s1 & Ew & I1 & Hs1 & Hwake).
  exists t, (<[reader_queue o := [wn]]> qs, <[wn := mk_wnode t 0 0]> ns), pp1, s1. split; [apply (bc_current _ _ _ B0)|]. split; [|split; [done|split; [done|]]].
  { unfold pipe_fops_read. run_step (run_file_get_pipe (qs, ns) pp (mk_env h m d s) _ Hp). cbn [pp_writers].
    rewrite (proj2 (Z.eqb_neq _ _)) by done. run_step E1. rewrite E. unfold read_wait. by run_step (run_on_wait _ _ _ _ _ _ _ _ pp1 h m d Ew). }
  intros h2 s2 th2 wn2 flags2 data U2 Ht2 Hs2 Hlen. assert (Z.of_nat (length data) < 2 ^ 16) as Hl16 by (pose proof (rr_pos _ _ _ R); lia).
  destruct (run_take_lock (<[reader_queue o := [wn]]> qs, <[wn := mk_wnode t 0 0]> ns) pp1 h2 m d s2 U2) as (m2 & s2' & u & E2 & Ho2 & (uh & Bu) & Hsame).
  assert (pp1 !! o = Some (with_ring ad pool bufsz (fp_readers f) (fp_writers f) rb1)) as Hp1 by apply lookup_insert_eq.
  destruct (run_write_release n [] wn2 flags2 data (mk_wv 0 false) RT_EOK (<[reader_queue o := [wn]]> qs, <[wn := mk_wnode t 0 0]> ns)
    pp1 h2 m m2 d s2' u ad pool bufsz _ _ rb1 Ho2 Hp1 R1 Hr ltac:(simpl; lia) Hl16) as (rb3 & R3 & E3).
  assert (k_threads s2' !! t = Some th2) as Ht2'.
  { rewrite Hsame; [done|]. intros <-. destruct (bc_ready _ _ _ Bu) as [Hu Hus]. rewrite Ht2 in Hu. injection Hu as ->. by rewrite Hs2 in Hus. }
  pose proof Ho2 as [(flag2 & uh2 & _ & _ & B2 & _) _].
  destruct (Hwake s2' th2 POLLIN u uh2 (bc_inv _ _ _ B2) Ht2' Hs2 (bc_ready _ _ _ B2)) as (s3 & E4 & I3 & Hr3 & E5).
  set (pp3 := <[o := _]> pp1) in E3. exists (qs, <[wn := mk_wnode t 0 0]> ns), pp3, s3. split; [|split; [done|split; [done|]]].
  { unfold pipe_fops_write. run_step (run_file_get_pipe (<[reader_queue o := [wn]]> qs, <[wn := mk_wnode t 0 0]> ns) pp1 (mk_env h2 m d s2) _ Hp1). cbn [pp_readers with_ring].
    rewrite !(proj2 (Z.eqb_neq _ _)) by (done || lia). run_step E2. rewrite E3. change (Z.to_nat (wv_ret (mk_wv 0 false))) with 0%nat. rewrite drop_0.
    rewrite (proj2 (Nat.leb_le _ _)) by (simpl; lia). cbn [orb]. unfold write_released, wakeup_readers. cbn [wv_wakeup wv_ret when].
    by run_step (run_on_wait _ _ _ _ _ _ _ _ pp3 h2 m d E4). }
  intros h4 s4 U4 _. destruct (run_take_lock (qs, <[wn := mk_wnode t 0 0]> ns) pp3 h4 m d s4 U4) as (m4 & s4' & t4 & E6 & Ho4 & _).
  assert (pp3 !! o = Some (with_ring ad pool bufsz (fp_readers f) (fp_writers f) rb3)) as Hp3 by apply lookup_insert_eq.
  change (Z.to_nat (wv_ret (mk_wv 0 false))) with 0%nat in R3. rewrite drop_0, app_nil_l, take_ge in R3 by (simpl; lia).
  destruct (run_read_locked n data wn flags k RT_EOK (qs, <[wn := mk_wnode t 0 0]> ns) pp3 h4 m m4 d s4' t4 ad pool bufsz _ _ rb3 Ho4
    (conj Hqr Hqw) Hp3 R3 Hk2 Hw) as (rb5 & R5 & E7).
  rewrite bool_decide_eq_false_2 in E7 by (intros Hz; apply (f_equal length) in Hz; rewrite length_take in Hz; simpl in Hz; lia).
  eexists. split.
  - unfold pipe_fops_read_resume. run_step (run_on_wait _ _ _ _ _ _ _ _ pp3 h4 m d (wait_resume_any qs (<[wn := mk_wnode t 0 0]> ns) wn (mk_wnode t 0 0) Hwn (lookup_insert_eq ns wn (mk_wnode t 0 0)) s4)).
    run_step E6. exact E7.
  - split; simpl; [|done|by eapply holding_unlocked|done|done]. exists ad, pool, bufsz, rb5. by rewrite lookup_insert_eq.
Qed.

(** ** Limits of the code *)

(** A read asks for writers before it looks into the ring: bytes that the last
    writer left behind cannot be read any more. *)
Theorem pipe_eof_before_data n q refs wn flags k data st :
  file_holds n (mk_fp q 1 1 refs) st -> 2 <= refs -> (length data <= n - length q)%nat -> Z.of_nat k < 2 ^ 16 ->
  exists st', file_run wn [FWrite O_WRONLY data; FClose O_WRONLY; FRead flags k] st =
      Ok [Int (Z.of_nat (length data)); Int 0; Bytes 0 []] st' /\
    file_holds n (mk_fp (q ++ data) 1 0 (refs - 1)) st'.
Proof.
  intros FH Hr Hl Hk. assert (Z.of_nat (length data) < 2 ^ 16) as Hl2.
  { destruct (fh_pipe _ _ _ FH) as (? & ? & ? & rb & _ & R). pose proof (rr_pos _ _ _ R). lia. }
  destruct (run_file_exec n _ wn (FWrite O_WRONLY data) st [Int (Z.of_nat (length data))] (mk_fp (q ++ data) 1 1 refs) FH Hl2) as (st1 & E1 & F1).
  { cbn. by rewrite (proj2 (Nat.leb_le _ _)). }
  destruct (run_file_exec n _ wn (FClose O_WRONLY) st1 [Int 0] (mk_fp (q ++ data) 1 0 (refs - 1)) F1 I) as (st2 & E2 & F2).
  { cbn -[Z.leb]. by rewrite (proj2 (Z.leb_le _ _)). }
  destruct (run_file_exec n _ wn (FRead flags k) st2 [Bytes 0 []] _ F2 Hk eq_refl) as (st3 & E3 & F3).
  exists st3. split; [|done]. cbn [file_run]. run_step E1. erewrite bind_Ok; [reflexivity|]. run_step E2. erewrite bind_Ok; [reflexivity|]. by run_step E3.
Qed.

(** The length goes to a 16-bit parameter: a non-blocking write of 65536 bytes to an
    empty pipe stores nothing and asks to be tried again. *)
Theorem pipe_write_64k_again n f wn flags buf st :
  file_holds n f st -> fp_readers f ≠ 0 -> nonblocking flags = true ->
  exists st', pipe_fops_write user_wakeup o wn flags buf 65536 st = Ok (Return (- EAGAIN)) st' /\ file_holds n f st'.
Proof.
  destruct st as [qs [pp [h m d s]]]. intros FH Hr Hnb. pose proof FH as [(ad & pool & bufsz & rb & Hp & R) Hd U [Hqr Hqw] _]. simpl in Hp, Hd, U.
  destruct (run_take_lock qs pp h m d s U) as (m1 & s1 & t & E1 & Ho & _). pose proof (holding_current _ _ _ _ Ho) as Hc.
  destruct (run_put n rb (fp_data f) buf 0 R ltac:(split; lia)) as (rb' & E & R'). rewrite take_0, take_nil, app_nil_r in R'.
  rewrite Nat.min_0_l in E.
  pose proof (file_holds_ring n f _ ad pool bufsz rb' qs pp h m d s FH R' s1 (holding_unlocked _ _ _ _ Ho)) as F'. rewrite set_data_id in F'.
  eexists. split; [|exact F']. unfold pipe_fops_write. run_step (run_file_get_pipe qs pp (mk_env h m d s) _ Hp). cbn [pp_readers].
  rewrite (proj2 (Z.eqb_neq _ _)) by done. change (65536 =? 0) with false. cbv iota. run_step E1. cbn [write_locked].
  run_step (run_current qs pp h m1 d s1 t Hc).
  rewrite (bind_Ok _ _ _ (mk_wv (- EAGAIN) true, true) (qs, (<[o := with_ring ad pool bufsz (fp_readers f) (fp_writers f) rb']> pp, mk_env h m1 d s1))).
  2: { unfold write_pass. run_step (run_file_get_pipe qs pp (mk_env h m1 d s1) _ Hp). cbn [pp_readers]. rewrite (proj2 (Z.eqb_neq _ _)) by done.
    change (u16 (65536 - wv_ret (mk_wv 0 false))) with (Z.of_nat 0). change (drop (Z.to_nat (wv_ret (mk_wv 0 false))) buf) with buf.
    run_step (run_file_ring _ _ rb rb' qs pp (mk_env h m1 d s1) ad pool bufsz _ _ Hp E). cbn. fold (nonblocking flags). by rewrite Hnb. }
  run_step (run_release_lock qs (<[o := with_ring ad pool bufsz (fp_readers f) (fp_writers f) rb']> pp) h m m1 d s1 t Ho). cbn [fst snd].
  rewrite run_go_on by done. unfold write_released. cbn [wv_wakeup when wv_ret]. by erewrite bind_Ok by (by apply run_wakeup_nobody).
Qed.
End refinement.

(** A pipe with an empty ring, one reader and one writer, and the thread 3 of low
    priority on the processor. *)
Definition demo_kernel3 : kstate := run (rt_thread_suspend 1;; rt_thread_suspend 2;; rt_schedule) demo.
Definition demo_dev : rt_device := mk_dev RT_Device_Class_Pipe 7 0 2 None None.
Definition demo_file (rb : rt_ringbuffer) (s : kstate) : file_state unit :=
  (({[2%nat := []; 3%nat := []]}, ∅),
   ({[1%nat := with_ring 100 200 4 1 1 rb]}, mk_env tt {[1%nat := free_mutex RT_IPC_FLAG_FIFO]} {[1%nat := demo_dev]} s)).
Definition empty_ring : rt_ringbuffer := mk_rb [0; 0; 0; 0] 0 0 0 0 4.

Definition nobody_wakes : nat -> nat -> Z -> M (gmap nat rt_wqueue_node * kstate) Z := fun _ _ _ => mret 1.
Definition on_kernel {A} (x : M kstate A) : M (file_state unit) A := on_pipe (on_mutex (on_snd x)).

(** The reader 3 holds the lock when the writer 1 wakes up and waits for it; the
    reader finds the pipe empty and releases the lock to the writer, which writes
    [data], wakes nobody and suspends itself; the reader goes on. *)
Definition lost_wakeup (data : list Z) : M (file_state unit) (list (call (nat * read_point) (Z * list Z)) * Z) :=
  take_lock 1;;
  on_kernel (rt_thread_resume 1;; rt_schedule);;
  w ← pipe_fops_write nobody_wakes 1 8 O_WRONLY data (Z.of_nat (length data));
  r1 ← read_locked nobody_wakes 1 7 O_RDONLY 4 (Return RT_EOK);
  match w, r1 with
  | Waiting w, Waiting r =>
      ret ← pipe_fops_write_resume nobody_wakes 1 8 O_WRONLY data (Z.of_nat (length data)) w;
      on_kernel (rt_thread_suspend 1;; rt_schedule);;
      r2 ← pipe_fops_read_resume nobody_wakes 1 7 O_RDONLY 4 r;
      match ret with Return n => mret ([r1; r2], n) | Waiting _ => fault end
  | _, _ => fault
  end.

(** The release of the lock and the wait of the reader are not one step: the write
    in between wakes nobody, and the reader sleeps with the bytes in the pipe. *)
Theorem pipe_lost_wakeup :
  let st0 := demo_file empty_ring demo_kernel3 in
  ret (lost_wakeup [5; 6]) st0 = Some ([Waiting (3%nat, RReleased); Waiting (3%nat, RQueue)], 2) /\
  let st' := run (lost_wakeup [5; 6]) st0 in
  has_state (pe_kernel st'.2.2) RT_THREAD_SUSPEND 3 = true /\
  ret (pipe_fops_ioctl 1 FIONREAD) st' = Some (0, Some 2) /\ TThread 3 ∉ k_timer_list (pe_kernel st'.2.2).
Proof. vm_compute. split_and!; try reflexivity. set_solver. Qed.

(** Without memory for the ring the open succeeds; the first read then follows a
    null pointer. *)
Theorem pipe_open_without_memory :
  let st0 : file_state unit := (({[2%nat := []; 3%nat := []]}, ∅),
    ({[1%nat := mk_pipe None 64 0 0]}, mk_env tt {[1%nat := free_mutex RT_IPC_FLAG_FIFO]} {[1%nat := mk_dev RT_Device_Class_Pipe 7 0 0 None None]} demo)) in
  let malloc : Z -> M unit (option Z) := fun _ => mret None in let free : option Z -> M unit unit := fun _ => mret tt in
  let open := pipe_fops_open malloc free (fun _ _ => []) (Some 1%nat) O_RDWR in
  ret open st0 = Some (Return 0) /\ pipe_fops_read nobody_wakes 1 7 (Z.lor O_RDWR O_NONBLOCK) 4 (run open st0) = Fault.
Proof. vm_compute. split; reflexivity. Qed.

(** ** Witnesses *)

Lemma demo_file_holds : file_holds 1 4 (mk_fp [1] 1 1 2) (demo_file demo_ring demo).
Proof.
  split.
  - exists 100, 200, 4, demo_ring. split; [reflexivity|exact demo_ring_rep].
  - exists demo_dev. split; reflexivity.
  - exact demo_unlocked.
  - split; reflexivity.
  - simpl. lia.
Qed.

Lemma empty_file_holds : file_holds 1 4 (mk_fp [] 1 1 2) (demo_file empty_ring demo).
Proof.
  split; [|exists demo_dev; split; reflexivity|exact demo_unlocked|split; reflexivity|simpl; lia].
  exists 100, 200, 4, empty_ring. split; [reflexivity|]. apply (fresh_rep [0; 0; 0; 0] 4); [lia|simpl; lia].
Qed.

Definition no_malloc : Z -> M unit (option Z) := fun _ => mret None.
Definition no_free : option Z -> M unit unit := fun _ => mret tt.

Lemma pipe_file_refines_witness :
  exists st', file_run no_malloc no_free (fun _ _ => []) nobody_wakes 1 7
      [FOpen O_RDWR; FWrite O_NONBLOCK [7; 8; 9; 10]; FRead 0 2; FClose O_WRONLY; FClose O_RDONLY; FPoll O_RDWR; FIoctl FIONREAD] (demo_file demo_ring demo)
    = Ok [Int 0; Int 3; Bytes 2 [1; 7]; Int 0; Int 0; Int 3; Value 0 (Some 2)] st' /\
    file_holds 1 4 (mk_fp [8; 9] 1 1 1) st'.
Proof.
  apply (pipe_file_refines no_malloc no_free (fun _ _ => []) nobody_wakes 1 4 7
    [FOpen O_RDWR; FWrite O_NONBLOCK [7; 8; 9; 10]; FRead 0 2; FClose O_WRONLY; FClose O_RDONLY; FPoll O_RDWR; FIoctl FIONREAD] (mk_fp [1] 1 1 2)).
  - exact demo_file_holds.
  - repeat constructor.
  - vm_compute. reflexivity.
Defined.

Lemma pipe_read_handshake_witness :
  exists t w1 pp1 s1, pipe_fops_read nobody_wakes 1 7 O_RDONLY (Z.of_nat 3) (demo_file empty_ring demo) =
    Ok (Waiting (t, RQueue)) (w1, (pp1, mk_env tt {[1%nat := free_mutex RT_IPC_FLAG_FIFO]} {[1%nat := demo_dev]} s1)) /\ kinv s1.
Proof.
  destruct (pipe_read_handshake nobody_wakes 1 4 (mk_fp [] 1 1 2) {[2%nat := []; 3%nat := []]} ∅ {[1%nat := with_ring 100 200 4 1 1 empty_ring]} tt
    {[1%nat := free_mutex RT_IPC_FLAG_FIFO]} {[1%nat := demo_dev]} demo 7 O_RDONLY 3) as (t & w1 & pp1 & s1 & _ & E & K & _).
  - exact empty_file_holds.
  - reflexivity.
  - discriminate.
  - discriminate.
  - reflexivity.
  - lia.
  - lia.
  - intros o' l Hl. apply lookup_insert_Some in Hl as [[_ <-]|[_ Hl]]; [set_solver|].
    apply lookup_singleton_Some in Hl as [_ <-]. set_solver.
  - exists t, w1, pp1, s1. split; [exact E|exact K].
Defined.

Lemma pipe_eof_before_data_witness :
  exists st', file_run no_malloc no_free (fun _ _ => []) nobody_wakes 1 7 [FWrite O_WRONLY [5; 6]; FClose O_WRONLY; FRead 0 4] (demo_file demo_ring demo) =
    Ok [Int 2; Int 0; Bytes 0 []] st'.
Proof.
  destruct (pipe_eof_before_data no_malloc no_free (fun _ _ => []) nobody_wakes 1 4 [1] 2 7 0 4 [5; 6] (demo_file demo_ring demo)) as (st' & E & _).
  - exact demo_file_holds.
  - lia.
  - simpl. lia.
  - lia.
  - exists st'. exact E.
Defined.

Lemma pipe_write_64k_again_witness :
  exists st', pipe_fops_write nobody_wakes 1 7 O_NONBLOCK [] 65536 (demo_file demo_ring demo) = Ok (Return (- EAGAIN)) st'.
Proof.
  destruct (pipe_write_64k_again nobody_wakes 1 4 (mk_fp [1] 1 1 2) 7 O_NONBLOCK [] (demo_file demo_ring demo)) as (st' & E & _).
  - exact demo_file_holds.
  - discriminate.
  - reflexivity.
  - exists st'. exact E.
Defined.
