(* ===== verification/DfsPath.v ===== *)
(** * Paths of the virtual file system: components/dfs/src/dfs.c

    [dfs_subdir] and [dfs_normalize_path] on the memory of bytes.  The second
    joins a file name to a directory and then removes empty components, ['.'] and
    ['..'] in place, with a pointer that reads and one that writes behind it. *)

From S2P Require Import Prelude KString Printf.

Definition SLASH : Z := 47.
Definition DOT : Z := 46.

(** [strlen] of the C library. *)
Definition strlen (s : Z) : M memory Z := rt_strlen s.

(** The characters of the string at [s], as [rt_snprintf] reads them. *)
Fixpoint chars_loop (fuel : nat) (s : Z) : M memory (list Z) :=
  match fuel with
  | O => fault
  | S fuel => c ← load8 s; if c =? 0 then mret [] else l ← chars_loop fuel (s + 1); mret (c :: l)
  end.
Definition chars (s : Z) : M memory (list Z) := m ← get; chars_loop (string_fuel m) s.

(** [None] for a null pointer. *)
Definition dfs_subdir (directory filename : Z) : M memory (option Z) :=
  ld ← strlen directory;
  lf ← strlen filename;
  if ld =? lf then mret None
  else
    let dir := filename + ld in
    c ← load8 dir;
    mret (Some (if negb (c =? SLASH) && negb (dir =? filename) then dir - 1 else dir)).

(** ** The loop of [dfs_normalize_path] *)

(** The loops that skip slashes. *)
Fixpoint skip_slashes (fuel : nat) (src : Z) : M memory Z :=
  match fuel with
  | O => fault
  | S fuel =>
      c ← load8 src;
      if (c =? SLASH) && negb (c =? 0) then skip_slashes fuel (src + 1) else mret src
  end.

(** What the part on ['.'] decides: go on behind a component that is skipped, go up
    one component, or copy from [src] on. *)
Inductive action := Skip (src : Z) | Up (src : Z) | Copy (src : Z).

Definition dots (fuel : nat) (src : Z) : M memory action :=
  c ← load8 src;
  if c =? DOT then
    c1 ← load8 (src + 1);
    if c1 =? 0 then mret (Copy (src + 1))
    else if c1 =? SLASH then s ← skip_slashes fuel (src + 2); mret (Skip s)
    else if c1 =? DOT then
      c2 ← load8 (src + 2);
      if c2 =? 0 then mret (Up (src + 2))
      else if c2 =? SLASH then s ← skip_slashes fuel (src + 3); mret (Up s)
      else mret (Copy src)
    else mret (Copy src)
  else mret (Copy src).

(** [while ((c = *src++) != '\0' && c != '/') *dst ++ = c;] and the variables behind it *)
Fixpoint copy_up (fuel : nat) (src dst : Z) : M memory (Z * Z * Z) :=
  match fuel with
  | O => fault
  | S fuel =>
      c ← load8 src;
      if negb (c =? 0) && negb (c =? SLASH) then store8 dst c;; copy_up fuel (src + 1) (dst + 1)
      else mret (c, src + 1, dst)
  end.

(** [while (c == '/') c = *src++;] *)
Fixpoint eat_slashes (fuel : nat) (c src : Z) : M memory Z :=
  if c =? SLASH then
    match fuel with
    | O => fault
    | S fuel => c ← load8 src; eat_slashes fuel c (src + 1)
    end
  else mret src.

(** [while (dst0 < dst && dst[-1] != '/') dst --;] *)
Fixpoint back_up (fuel : nat) (dst0 dst : Z) : M memory Z :=
  if dst0 <? dst then
    c ← load8 (dst - 1);
    if negb (c =? SLASH) then
      match fuel with O => fault | S fuel => back_up fuel dst0 (dst - 1) end
    else mret dst
  else mret dst.

(** The [while (1)] loop: [dst] when it ends, [None] when it goes up too far. *)
Fixpoint norm_loop (fuel0 fuel : nat) (src dst dst0 : Z) : M memory (option Z) :=
  match fuel with
  | O => fault
  | S fuel =>
      a ← dots fuel0 src;
      match a with
      | Skip src => norm_loop fuel0 fuel src dst dst0
      | Copy src =>
          x ← copy_up fuel0 src dst;
          let '(c, src, dst) := x in
          if c =? SLASH then
            store8 dst SLASH;;
            src ← eat_slashes fuel0 c src;
            norm_loop fuel0 fuel (src - 1) (dst + 1) dst0
          else mret (Some dst)
      | Up src =>
          let dst := dst - 1 in
          if dst <? dst0 then mret None
          else dst ← back_up fuel0 dst0 dst; norm_loop fuel0 fuel src dst dst0
      end
  end.

(** The end: the terminator, the last slash, and the empty path. *)
Definition norm_finish (fullpath dst : Z) : M memory unit :=
  store8 dst 0;;
  let dst := dst - 1 in
  (if negb (dst =? fullpath) then c ← load8 dst; when (c =? SLASH) (store8 dst 0) else mret tt);;
  c ← load8 fullpath;
  when (c =? 0) (store8 fullpath SLASH;; store8 (fullpath + 1) 0).

(** No memory; an allocation that was given back; the path. *)
Inductive normalized := NoMemory | Refused (freed : Z) | Path (fullpath : Z).

Definition norm_in_place (fullpath : Z) : M memory normalized :=
  m ← get;
  r ← norm_loop (string_fuel m) (string_fuel m) fullpath fullpath fullpath;
  match r with
  | None => mret (Refused fullpath)
  | Some dst => norm_finish fullpath dst;; mret (Path fullpath)
  end.

(** [mem] is the result of [rt_malloc], [wd] the address of [working_directory];
    ["%s/%s"] is the format. *)
Definition join_format : list Z := [37; 115; 47; 37; 115].

Definition join_size (directory filename : Z) : M memory Z :=
  ld ← strlen directory; lf ← strlen filename; mret (u32 (ld + lf + 2)).

Definition dfs_normalize_path (wd : Z) (directory : option Z) (filename : Z) (mem : option Z) : M memory normalized :=
  let directory := default wd directory in
  c ← load8 filename;
  if negb (c =? SLASH) then
    size ← join_size directory filename;
    match mem with
    | None => mret NoMemory
    | Some fullpath =>
        d ← chars directory; f ← chars filename;
        rt_snprintf fullpath size join_format [VStr (Some d); VStr (Some f)];;
        norm_in_place fullpath
    end
  else
    r ← rt_strdup filename mem;
    match r with
    | None => mret NoMemory
    | Some fullpath => norm_in_place fullpath
    end.

(** ** The reference: a path is a list of components *)

(** The components between the slashes; the empty text has one, which is empty. *)
Fixpoint components (l : list Z) : list (list Z) :=
  match l with
  | [] => [[]]
  | c :: l =>
      if c =? SLASH then [] :: components l
      else match components l with [] => [[c]] | x :: xs => (c :: x) :: xs end
  end.

(** One component after the other: empty ones and ["."] are dropped, [".."] takes the
    last one away. *)
Definition walk (st : option (list (list Z))) (c : list Z) : option (list (list Z)) :=
  match st with
  | None => None
  | Some s =>
      if bool_decide (c = [] \/ c = [DOT]) then Some s
      else if bool_decide (c = [DOT; DOT]) then if bool_decide (s = []) then None else Some (take (length s - 1) s)
      else Some (s ++ [c])
  end.

(** The component in front of a leading slash is the root. *)
Definition canonical (l : list Z) : option (list (list Z)) :=
  match components l with
  | [] :: cs => fold_left walk cs (Some [[]])
  | cs => fold_left walk cs (Some [])
  end.

Fixpoint joined (s : list (list Z)) : list Z :=
  match s with
  | [] => []
  | [c] => c
  | c :: s => c ++ SLASH :: joined s
  end.

Definition path_text (s : list (list Z)) : list Z := if bool_decide (joined s = []) then [SLASH] else joined s.

(** ** Facts about components *)

Definition plain (c : list Z) : Prop := Forall (fun x => x ≠ SLASH) c.

Lemma components_plain c : plain c -> components c = [c].
Proof.
  induction 1 as [|x c Hx _ IH]; [done|]. simpl. rewrite IH. destruct (Z.eqb_spec x SLASH); done.
Qed.

Lemma components_app c r : plain c -> components (c ++ SLASH :: r) = c :: components r.
Proof.
  induction 1 as [|x c Hx _ IH]; [done|]. simpl. rewrite IH. destruct (Z.eqb_spec x SLASH); done.
Qed.

(** Every text is a component, or a component, a slash and a text. *)
Lemma first_component r : exists c, plain c /\ (r = c \/ exists r', r = c ++ SLASH :: r').
Proof.
  induction r as [|x r (c & Hc & Hr)]; [exists []; split; [constructor|by left]|].
  destruct (decide (x = SLASH)) as [->|Hx]; [exists []; split; [constructor|right; by exists r]|].
  exists (x :: c). split; [by constructor|]. destruct Hr as [->|(r' & ->)]; [by left|right; by exists r'].
Qed.

Fixpoint drop_slashes (r : list Z) : list Z :=
  match r with x :: r' => if x =? SLASH then drop_slashes r' else r | [] => [] end.

Definition starts (r : list Z) : Prop := forall r', r ≠ SLASH :: r'.

Lemma drop_slashes_starts r : starts (drop_slashes r).
Proof.
  induction r as [|x r IH]; intros r'; simpl; [done|]. destruct (Z.eqb_spec x SLASH); [apply IH|]. intros [=]. done.
Qed.

Lemma drop_slashes_length r : (length (drop_slashes r) <= length r)%nat.
Proof. induction r as [|x r IH]; simpl; [done|]. case_match; simpl; lia. Qed.

Lemma drop_slashes_suffix r : exists k, r = replicate k SLASH ++ drop_slashes r.
Proof.
  induction r as [|x r [k IH]]; [by exists 0%nat|]. simpl. destruct (Z.eqb_spec x SLASH) as [->|]; [|by exists 0%nat].
  exists (S k). simpl. by rewrite <- IH.
Qed.

Lemma walk_drop_slashes r s : fold_left walk (components (drop_slashes r)) s = fold_left walk (components r) s.
Proof.
  revert s. induction r as [|x r IH]; intros s; [done|]. cbn [drop_slashes]. destruct (Z.eqb_spec x SLASH) as [->|]; [|done].
  rewrite IH. change (components (SLASH :: r)) with ([] :: components r). cbn [fold_left]. f_equal. by destruct s as [s|].
Qed.

Lemma walk_none cs : fold_left walk cs None = None.
Proof. induction cs; done. Qed.

(** The components, each with its slash. *)
Definition closed (s : list (list Z)) : list Z := concat ((.++ [SLASH]) <$> s).

Lemma closed_snoc s c : closed (s ++ [c]) = closed s ++ c ++ [SLASH].
Proof. unfold closed. rewrite fmap_app, concat_app. simpl. by rewrite app_nil_r. Qed.

Lemma closed_joined s c : closed s ++ c = joined (s ++ [c]).
Proof.
  induction s as [|x s IH]; [done|]. change (closed (x :: s)) with ((x ++ [SLASH]) ++ closed s). rewrite <- !app_assoc, IH. by destruct s.
Qed.

Lemma joined_closed s : s ≠ [] -> closed s = joined s ++ [SLASH].
Proof.
  intros Hs. destruct (exists_last Hs) as (s' & c & ->). rewrite closed_snoc, <- closed_joined. by rewrite app_assoc.
Qed.

(** ** The memory during the loop

    The buffer at [p] has [n] bytes; [out] is what was written, [rest] what is still
    to be read, up to the terminator. *)
Section buffer.
Context (p : Z) (n : nat) (m0 : memory).

Record progress (m : memory) (out rest : list Z) : Prop := {
  pr_fits : (length out + length rest <= n)%nat;
  pr_out : holds m p out;
  pr_nonzero : Forall (fun x => x ≠ 0) out;
  pr_rest : holds m (p + Z.of_nat n - Z.of_nat (length rest)) rest;
  pr_bytes : Forall is_byte rest;
  pr_mapped : mapped m p (Z.of_nat n);
  pr_frame : forall a, a < p \/ p + Z.of_nat n <= a -> m !! a = m0 !! a
}.

Definition src_of (rest : list Z) : Z := p + Z.of_nat n - Z.of_nat (length rest).
Definition dst_of (out : list Z) : Z := p + Z.of_nat (length out).

Lemma progress_skip m out x rest : progress m out (x :: rest) -> progress m out rest.
Proof.
  intros []. split; try done.
  - simpl in *. lia.
  - apply holds_cons in pr_rest0 as [_ H]. simpl in H.
    by replace (p + Z.of_nat n - Z.of_nat (S (length rest)) + 1) with (p + Z.of_nat n - Z.of_nat (length rest)) in H by lia.
  - by apply Forall_cons in pr_bytes0 as [_ ?].
Qed.

Lemma progress_skips m out l rest : progress m out (l ++ rest) -> progress m out rest.
Proof. induction l as [|x l IH]; [done|]. intros H. by apply IH, (progress_skip _ _ x). Qed.

Lemma progress_load m out x rest : progress m out (x :: rest) -> load8 (src_of (x :: rest)) m = Ok x m.
Proof. intros []. apply run_load8. by apply holds_cons in pr_rest0 as [H _]. Qed.

Lemma src_skip x rest : src_of (x :: rest) + 1 = src_of rest.
Proof. unfold src_of. simpl. lia. Qed.

(** The writing pointer is behind the reading one, so a store destroys nothing. *)
Lemma progress_store m out x y rest :
  progress m out (x :: rest) -> is_byte y -> y ≠ 0 ->
  exists m', store8 (dst_of out) y m = Ok tt m' /\ progress m' (out ++ [y]) rest.
Proof.
  intros P Hy Hy0. pose proof P as []. simpl in pr_fits0. eexists. split.
  - apply run_store8. apply pr_mapped0. lia.
  - pose proof (progress_skip _ _ _ _ P) as []. unfold is_byte in Hy. rewrite u8_small by lia.
    assert (forall a l, holds m a l -> dst_of out < a \/ a + Z.of_nat (length l) <= dst_of out -> holds (<[dst_of out := y]> m) a l) as Hap.
    { intros a l Hl Ha i x' Hi. pose proof (lookup_lt_Some _ _ _ Hi). rewrite lookup_insert_ne by lia. by apply Hl. }
    split; try done.
    + rewrite length_app. simpl. lia.
    + apply holds_app. split; [apply Hap; [done|unfold dst_of; lia]|]. apply holds_cons. split; [apply lookup_insert_eq|apply holds_nil].
    + apply Forall_app. split; [done|by constructor].
    + apply Hap; [done|]. unfold dst_of. lia.
    + intros i Hi. destruct (decide (dst_of out = p + i)) as [->|]; [rewrite lookup_insert_eq; by eexists|rewrite lookup_insert_ne by done; by apply pr_mapped0].
    + intros a Ha. rewrite lookup_insert_ne by (unfold dst_of; lia). by apply pr_frame0.
Qed.

Lemma progress_cut m out1 out2 rest : progress m (out1 ++ out2) rest -> progress m out1 rest.
Proof. intros []. split; try done; [rewrite length_app in pr_fits0; lia|by apply holds_app in pr_out0 as [? _]|by apply Forall_app in pr_nonzero0 as [? _]]. Qed.

(** *** The small loops *)

Lemma run_skip_slashes r : forall fuel m out,
  progress m out (r ++ [0]) -> (length r < fuel)%nat ->
  skip_slashes fuel (src_of (r ++ [0])) m = Ok (src_of (drop_slashes r ++ [0])) m.
Proof.
  induction r as [|x r IH]; intros fuel m out P Hf; (destruct fuel as [|fuel]; [simpl in Hf; lia|]); cbn [app skip_slashes] in *.
  - by run_step (progress_load _ _ _ _ P).
  - run_step (progress_load _ _ _ _ P). cbn [drop_slashes]. destruct (Z.eqb_spec x SLASH) as [->|Hx]; [|done].
    cbn [andb negb]. change (negb (SLASH =? 0)) with true. cbv iota. rewrite src_skip. apply (IH _ _ out); [by eapply progress_skip|simpl in Hf; lia].
Qed.

Lemma run_eat_slashes r : forall fuel m out,
  progress m out (r ++ [0]) -> (length r < fuel)%nat ->
  eat_slashes fuel SLASH (src_of (r ++ [0])) m = Ok (src_of (drop_slashes r ++ [0]) + 1) m.
Proof.
  induction r as [|x r IH]; intros fuel m out P Hf; (destruct fuel as [|fuel]; [simpl in Hf; lia|]); cbn [app eat_slashes] in *.
  - change (SLASH =? SLASH) with true. cbv iota. run_step (progress_load _ _ _ _ P). by destruct fuel.
  - change (SLASH =? SLASH) with true. cbv iota. run_step (progress_load _ _ _ _ P). cbn [drop_slashes].
    destruct (Z.eqb_spec x SLASH) as [->|Hx]; [rewrite src_skip; apply (IH _ _ out); [by eapply progress_skip|simpl in Hf; lia]|].
    destruct fuel; cbn [eat_slashes]; by rewrite (proj2 (Z.eqb_neq _ _)).
Qed.

Lemma run_copy_up c : forall fuel m out x r,
  plain c -> Forall (fun y => y ≠ 0) c -> x = 0 \/ x = SLASH -> progress m out (c ++ x :: r) -> (length c < fuel)%nat ->
  exists m', copy_up fuel (src_of (c ++ x :: r)) (dst_of out) m = Ok (x, src_of r, dst_of (out ++ c)) m' /\ progress m' (out ++ c) (x :: r).
Proof.
  induction c as [|y c IH]; intros fuel m out x r Hp Hz Hx P Hf; (destruct fuel as [|fuel]; [simpl in Hf; lia|]); cbn [app copy_up] in *.
  - exists m. rewrite app_nil_r. run_step (progress_load _ _ _ _ P). rewrite src_skip. destruct Hx as [-> | ->]; by split.
  - apply Forall_cons in Hp as [Hy Hp]. apply Forall_cons in Hz as [Hy0 Hz]. run_step (progress_load _ _ _ _ P).
    rewrite !(proj2 (Z.eqb_neq _ _)) by done. cbn [andb negb]. pose proof (pr_bytes _ _ _ P) as [Hb _]%Forall_cons.
    destruct (progress_store _ _ _ y _ P Hb Hy0) as (m1 & E1 & P1). run_step E1. rewrite src_skip.
    destruct (IH fuel m1 (out ++ [y]) x r Hp Hz Hx P1 ltac:(simpl in Hf; lia)) as (m' & E & P'). exists m'.
    replace (dst_of out + 1) with (dst_of (out ++ [y])) by (unfold dst_of; rewrite length_app; simpl; lia).
    by rewrite <- (app_assoc out [y] c) in *.
Qed.

Lemma closed_last s : closed s = [] \/ exists o, closed s = o ++ [SLASH].
Proof.
  destruct (decide (s = [])) as [->|Hs]; [by left|]. right. rewrite joined_closed by done. by eexists.
Qed.

Lemma run_back_up s c : forall fuel m rest,
  plain c -> progress m (closed s ++ c) rest -> (length c <= fuel)%nat ->
  back_up fuel p (dst_of (closed s ++ c)) m = Ok (dst_of (closed s)) m.
Proof.
  induction c as [|x c IH] using rev_ind; intros fuel m rest Hc P Hf.
  - rewrite app_nil_r in *. destruct (closed_last s) as [E|(o & E)]; rewrite E in *.
    + destruct fuel; cbn [back_up]; unfold dst_of; simpl; by rewrite (proj2 (Z.ltb_ge _ _)) by lia.
    + pose proof (pr_out _ _ _ P) as [_ Ho]%holds_app. apply holds_cons in Ho as [Ho _].
      assert (load8 (dst_of (o ++ [SLASH]) - 1) m = Ok SLASH m) as El.
      { apply run_load8. unfold dst_of. rewrite length_app. simpl. by replace (p + Z.of_nat (length o + 1) - 1) with (p + Z.of_nat (length o)) by lia. }
      destruct fuel; cbn [back_up]; (rewrite (proj2 (Z.ltb_lt _ _)) by (unfold dst_of; rewrite length_app; simpl; lia)); by run_step El.
  - apply Forall_app in Hc as [Hc [Hx _]%Forall_cons]. rewrite length_app in Hf. simpl in Hf. destruct fuel as [|fuel]; [lia|].
    rewrite app_assoc in *. pose proof (pr_out _ _ _ P) as [_ Ho]%holds_app. apply holds_cons in Ho as [Ho _].
    assert (dst_of ((closed s ++ c) ++ [x]) - 1 = dst_of (closed s ++ c)) as Ed by (unfold dst_of; rewrite (length_app _ [x]); simpl; lia).
    cbn [back_up]. rewrite (proj2 (Z.ltb_lt _ _)) by (unfold dst_of; rewrite (length_app _ [x]); simpl; lia). rewrite Ed.
    run_step (run_load8 _ _ _ Ho). rewrite (proj2 (Z.eqb_neq _ _)) by done. cbn [negb]. apply (IH fuel m rest Hc); [by eapply progress_cut|lia].
Qed.

(** *** The decision on dots, by component *)

Definition decide_dots (c : list Z) (r : list Z) : action :=
  if bool_decide (c = [DOT]) then match r with [] => Copy (src_of [0]) | _ => Skip (src_of (drop_slashes r ++ [0])) end
  else if bool_decide (c = [DOT; DOT]) then Up (src_of (drop_slashes r ++ [0]))
  else Copy (src_of (c ++ r ++ [0])).

Lemma progress_load_at m out l x rest : progress m out (l ++ x :: rest) -> load8 (src_of (l ++ x :: rest) + Z.of_nat (length l)) m = Ok x m.
Proof.
  intros P. pose proof (progress_skips _ _ _ _ P) as P'. rewrite <- (progress_load _ _ _ _ P'). f_equal. unfold src_of. rewrite length_app. lia.
Qed.

Lemma run_dots fuel m out c r :
  plain c -> Forall (fun y => y ≠ 0) c -> (r = [] \/ exists r', r = SLASH :: r') -> starts (c ++ r) ->
  progress m out (c ++ r ++ [0]) -> (length r < fuel)%nat ->
  dots fuel (src_of (c ++ r ++ [0])) m = Ok (decide_dots c r) m.
Proof.
  intros Hp Hz Hr Hs P Hf. unfold decide_dots, dots.
  destruct c as [|x c].
  { destruct Hr as [->|(r' & ->)]; [|by destruct (Hs r')]. by run_step (progress_load _ _ _ _ P). }
  cbn [app] in *. apply Forall_cons in Hp as [Hx Hp]. apply Forall_cons in Hz as [Hx0 Hz].
  run_step (progress_load _ _ _ _ P). destruct (Z.eqb_spec x DOT) as [->|Hd].
  2: { rewrite !bool_decide_eq_false_2 by congruence. done. }
  pose proof (progress_skip _ _ _ _ P) as P1. rewrite !src_skip. destruct c as [|y c].
  { rewrite bool_decide_eq_true_2 by done. cbn [app] in *. destruct Hr as [->|(r' & ->)]; cbn [app] in *; run_step (progress_load _ _ _ _ P1); [done|].
    change (SLASH =? 0) with false. change (SLASH =? SLASH) with true. cbv iota. pose proof (progress_skip _ _ _ _ P1) as P2.
    replace (src_of (DOT :: SLASH :: r' ++ [0]) + 2) with (src_of (r' ++ [0])) by (unfold src_of; simpl; lia).
    by run_step (run_skip_slashes r' fuel m out P2 ltac:(simpl in Hf; lia)). }
  cbn [app] in *. apply Forall_cons in Hp as [Hy Hp]. apply Forall_cons in Hz as [Hy0 Hz]. run_step (progress_load _ _ _ _ P1).
  rewrite (bool_decide_eq_false_2 (_ = [DOT])) by done. rewrite (proj2 (Z.eqb_neq y 0)), (proj2 (Z.eqb_neq y SLASH)) by done.
  destruct (Z.eqb_spec y DOT) as [->|Hd]; [|by rewrite bool_decide_eq_false_2 by congruence].
  pose proof (progress_skip _ _ _ _ P1) as P2.
  replace (src_of (DOT :: DOT :: c ++ r ++ [0]) + 2) with (src_of (c ++ r ++ [0])) by (unfold src_of; simpl; lia).
  replace (src_of (DOT :: DOT :: c ++ r ++ [0]) + 3) with (src_of (c ++ r ++ [0]) + 1) by (unfold src_of; simpl; lia).
  destruct c as [|z c].
  { rewrite bool_decide_eq_true_2 by done. cbn [app] in *. destruct Hr as [->|(r' & ->)]; cbn [app] in *; run_step (progress_load _ _ _ _ P2); [done|].
    change (SLASH =? 0) with false. change (SLASH =? SLASH) with true. cbv iota. pose proof (progress_skip _ _ _ _ P2) as P3.
    rewrite src_skip. by run_step (run_skip_slashes r' fuel m out P3 ltac:(simpl in Hf; lia)). }
  cbn [app] in *. apply Forall_cons in Hp as [Hz1 Hp]. apply Forall_cons in Hz as [Hz0 Hz]. run_step (progress_load _ _ _ _ P2).
  rewrite (proj2 (Z.eqb_neq z 0)), (proj2 (Z.eqb_neq z SLASH)) by done. by rewrite bool_decide_eq_false_2 by done.
Qed.

(** *** The loop walks over the components *)

(** The text at the end of the loop: closed components, or the last one open. *)
Definition ends_as (s : list (list Z)) (out : list Z) : Prop :=
  out = closed s \/ exists s0 c, c ≠ [] /\ s = s0 ++ [c] /\ out = closed s0 ++ c.

Definition loop_result (s : option (list (list Z))) (r : res memory (option Z)) : Prop :=
  match s with
  | None => exists m', r = Ok None m' /\ forall a, a < p \/ p + Z.of_nat n <= a -> m' !! a = m0 !! a
  | Some s => exists m' out, r = Ok (Some (dst_of out)) m' /\ progress m' out [0] /\ ends_as s out /\ Forall plain s
  end.

Lemma run_pop F s x m rest :
  (n < F)%nat -> plain x -> progress m (closed (s ++ [x])) rest ->
  (dst_of (closed (s ++ [x])) - 1 <? p) = false /\ back_up F p (dst_of (closed (s ++ [x])) - 1) m = Ok (dst_of (closed s)) m /\
  progress m (closed s) rest.
Proof.
  intros HF Hx P. pose proof (pr_fits _ _ _ P) as Hn. rewrite closed_snoc, app_assoc in *.
  assert (dst_of ((closed s ++ x) ++ [SLASH]) - 1 = dst_of (closed s ++ x)) as -> by (unfold dst_of; rewrite (length_app _ [SLASH]); simpl; lia).
  split_and!.
  - apply Z.ltb_ge. unfold dst_of. lia.
  - apply (run_back_up s x F m rest); [done|by eapply progress_cut|]. rewrite !length_app in Hn. lia.
  - eapply progress_cut. by eapply progress_cut.
Qed.

Lemma progress_slashes m out r : progress m out (SLASH :: r ++ [0]) -> progress m out (drop_slashes r ++ [0]).
Proof.
  intros P%progress_skip. destruct (drop_slashes_suffix r) as [j E]. rewrite E, <- app_assoc in P. by eapply progress_skips.
Qed.

(** The last component of the text. *)
Lemma walk_last c s : c ≠ [DOT] -> c ≠ [DOT; DOT] -> fold_left walk [c] (Some s) = Some (if bool_decide (c = []) then s else s ++ [c]).
Proof.
  intros H1 H2. cbn [fold_left walk]. destruct (decide (c = [])) as [->|H0]; [done|].
  rewrite !bool_decide_eq_false_2 by tauto. done.
Qed.

Lemma walk_up s x : walk (Some (s ++ [x])) [DOT; DOT] = Some s.
Proof.
  simpl. rewrite bool_decide_eq_false_2 by (by destruct s).
  by rewrite length_app, Nat.add_sub, take_app_length.
Qed.

Lemma run_norm_loop F k : (n < F)%nat -> forall r s m fuel,
  (length r <= k)%nat -> (length r < fuel)%nat -> starts r -> Forall (fun x => x ≠ 0) r -> Forall plain s -> progress m (closed s) (r ++ [0]) ->
  loop_result (fold_left walk (components r) (Some s)) (norm_loop F fuel (src_of (r ++ [0])) (dst_of (closed s)) p m).
Proof.
  intros HF. induction k as [|k IH]; intros r s m fuel Hk Hf Hs Hz Hpl P; (destruct fuel as [|fuel]; [lia|]).
  { assert (r = []) as -> by (by apply length_zero_iff_nil; lia). cbn [norm_loop app] in *.
    run_step (run_dots F m (closed s) [] [] ltac:(constructor) ltac:(constructor) ltac:(by left) Hs P ltac:(simpl; lia)).
    destruct (run_copy_up [] F m (closed s) 0 [] ltac:(constructor) ltac:(constructor) ltac:(by left) P ltac:(simpl; lia)) as (m' & E & P').
    cbn [app] in E. change (decide_dots [] []) with (Copy (src_of [0])). cbv iota. run_step E. rewrite app_nil_r in *. exists m', (closed s). rewrite ?app_nil_r. split; [done|]. split; [done|]. split; [by left|done]. }
  pose proof (pr_fits _ _ _ P) as Hn. rewrite length_app in Hn. simpl in Hn.
  destruct (first_component r) as (c & Hc & Hr).
  assert (exists t, r = c ++ t /\ (t = [] \/ exists r', t = SLASH :: r')) as (t & -> & Ht).
  { destruct Hr as [->|(r' & ->)]; [exists []; rewrite app_nil_r; split; [done|by left]|exists (SLASH :: r'); split; [done|right; by exists r']]. }
  clear Hr. rewrite length_app in *. apply Forall_app in Hz as [Hzc Hzt]. rewrite <- app_assoc in *. cbn [norm_loop].
  run_step (run_dots F m (closed s) c t Hc Hzc Ht Hs P ltac:(lia)). unfold decide_dots.
  destruct (bool_decide_reflect (c = [DOT])) as [->|Hc1]; [|destruct (bool_decide_reflect (c = [DOT; DOT])) as [->|Hc2]].
  - pose proof (progress_skips _ _ [DOT] _ P) as P1. destruct Ht as [->|(r' & ->)].
    + destruct (run_copy_up [] F m (closed s) 0 [] ltac:(constructor) ltac:(constructor) ltac:(by left) P1 ltac:(simpl; lia)) as (m' & E & P').
      cbn [app] in E. run_step E. rewrite app_nil_r in *. exists m', (closed s). rewrite ?app_nil_r. split; [done|]. split; [done|]. split; [by left|done].
    + cbn [app] in P1. change (drop_slashes (SLASH :: r')) with (drop_slashes r'). rewrite components_app by done. cbn [fold_left].
      change (walk (Some s) [DOT]) with (Some s). rewrite <- walk_drop_slashes. pose proof (drop_slashes_length r'). simpl in Hk, Hf.
      destruct (drop_slashes_suffix r') as [j Ej]. apply Forall_cons in Hzt as [_ Hzt]. rewrite Ej in Hzt. apply Forall_app in Hzt as [_ Hzt].
      apply IH; [lia|lia|apply drop_slashes_starts|done|done|by apply progress_slashes].
  - pose proof (progress_skips _ _ [DOT; DOT] _ P) as P1.
    assert (exists r1, drop_slashes t = r1 /\ progress m (closed s) (r1 ++ [0]) /\ starts r1 /\ (length r1 <= length t)%nat /\ Forall (fun x => x ≠ 0) r1 /\
      forall s', fold_left walk (components ([DOT; DOT] ++ t)) s' = fold_left walk (components r1) (walk s' [DOT; DOT])) as (r1 & Er & P2 & Hs1 & Hl1 & Hz1 & Hw).
    { exists (drop_slashes t). split; [done|]. destruct Ht as [->|(r' & ->)].
      - split_and!; [done|done|done|constructor|]. intros s'. rewrite app_nil_r. simpl. by destruct (walk s' [DOT; DOT]).
      - change (drop_slashes (SLASH :: r')) with (drop_slashes r'). pose proof (drop_slashes_length r').
        destruct (drop_slashes_suffix r') as [j Ej]. apply Forall_cons in Hzt as [_ Hzt]. rewrite Ej in Hzt. apply Forall_app in Hzt as [_ Hzt].
        split_and!; [by apply progress_slashes|apply drop_slashes_starts|simpl; lia|done|].
        intros s'. rewrite components_app by (repeat constructor; done). cbn [fold_left]. by rewrite walk_drop_slashes. }
    rewrite Er, Hw. clear Hw Er. destruct (decide (s = [])) as [->|Hne].
    + change (walk (Some []) [DOT; DOT]) with (@None (list (list Z))). rewrite walk_none. unfold dst_of. change (length (closed [])) with 0%nat.
      rewrite (proj2 (Z.ltb_lt _ _)) by lia. exists m. split; [done|]. apply (pr_frame _ _ _ P).
    + destruct (exists_last Hne) as (s0 & x & ->). rewrite walk_up. apply Forall_app in Hpl as [Hpl [Hx _]%Forall_cons].
      destruct (run_pop F s0 x m _ HF Hx P2) as (E1 & E2 & P3). rewrite E1. run_step E2. simpl in Hk, Hf. apply IH; [lia|lia|done..].
  - destruct (run_copy_up c F m (closed s) (match t with [] => 0 | _ => SLASH end) (match t with [] => [] | _ :: r' => r' ++ [0] end) Hc Hzc) as (m' & E & P').
    { destruct t; auto. } { by destruct Ht as [->|(r' & ->)]. } { lia. }
    destruct Ht as [->|(r' & ->)].
    + cbn [app] in *. run_step E. rewrite app_nil_r, components_plain, walk_last by done. exists m', (closed s ++ c). split; [done|]. split; [done|].
      case_bool_decide as Ee; [subst c; rewrite app_nil_r; split; [by left|done]|]. split; [right; by exists s, c|].
      apply Forall_app. split; [done|by constructor].
    + cbn [app] in *. assert (c ≠ []) as Hce by (intros ->; by destruct (Hs r')). run_step E. change (SLASH =? SLASH) with true. cbv iota.
      destruct (progress_store _ _ _ SLASH _ P' ltac:(unfold is_byte, SLASH; lia) ltac:(done)) as (m1 & E1 & P1). run_step E1. rewrite <- app_assoc, <- closed_snoc in P1.
      simpl in Hk, Hf. run_step (run_eat_slashes r' F m1 _ P1 ltac:(simpl in Hn; lia)). rewrite Z.add_simpl_r.
      replace (dst_of (closed s ++ c) + 1) with (dst_of (closed (s ++ [c]))) by (unfold dst_of; rewrite closed_snoc, !length_app; simpl; lia).
      rewrite components_app by done. cbn [fold_left].
      assert (walk (Some s) c = Some (s ++ [c])) as -> by (simpl; rewrite !bool_decide_eq_false_2 by (done || tauto); done).
      rewrite <- walk_drop_slashes. pose proof (drop_slashes_length r').
      destruct (drop_slashes_suffix r') as [j Ej]. apply Forall_cons in Hzt as [_ Hzt]. rewrite Ej in Hzt, P1. apply Forall_app in Hzt as [_ Hzt].
      rewrite <- app_assoc in P1. assert (0 < length c)%nat by (destruct c; [done|simpl; lia]).
      apply IH; [lia|lia|apply drop_slashes_starts|done|apply Forall_app; split; [done|by constructor]|by eapply progress_skips].
Qed.

(** *** The end *)

Lemma joined_app s0 c : joined (s0 ++ [c]) = [] -> s0 = [] /\ c = [].
Proof. rewrite <- closed_joined. intros [E ->]%app_nil. split; [|done]. destruct s0 as [|x s0]; [done|]. by destruct x. Qed.

(** The byte at the writing pointer and behind it. *)
Lemma progress_end m out : progress m out [0] ->
  exists m', store8 (dst_of out) 0 m = Ok tt m' /\ c_string m' p out /\ (forall a, a < p \/ p + Z.of_nat n <= a -> m' !! a = m0 !! a) /\ mapped m' p (Z.of_nat n).
Proof.
  intros []. simpl in pr_fits0. eexists. split; [apply run_store8, pr_mapped0; lia|]. split_and!.
  - split; [|done]. apply holds_app. split; [|apply holds_cons; split; [apply lookup_insert_eq|apply holds_nil]].
    intros i x Hi. pose proof (lookup_lt_Some _ _ _ Hi). rewrite lookup_insert_ne by (unfold dst_of; lia). by apply pr_out0.
  - intros a Ha. rewrite lookup_insert_ne by (unfold dst_of; lia). by apply pr_frame0.
  - intros i Hi. destruct (decide (dst_of out = p + i)) as [->|]; [rewrite lookup_insert_eq; by eexists|rewrite lookup_insert_ne by done; by apply pr_mapped0].
Qed.

Lemma c_string_store m s out x v :
  c_string m s (out ++ [x]) -> is_Some (m !! (s + Z.of_nat (length out))) -> v = 0 -> c_string (<[s + Z.of_nat (length out) := v]> m) s out.
Proof.
  intros [H Hz] _ ->. apply Forall_app in Hz as [Hz _]. split; [|done]. apply holds_app. split; [|apply holds_cons; split; [apply lookup_insert_eq|apply holds_nil]].
  intros i y Hi. pose proof (lookup_lt_Some _ _ _ Hi). rewrite lookup_insert_ne by lia. apply H. rewrite lookup_app_l; [rewrite lookup_app_l by lia; done|rewrite length_app; lia].
Qed.

Lemma run_norm_finish m s out :
  progress m out [0] -> ends_as s out -> Forall plain s -> (1 < n)%nat ->
  (s = [] -> exists b, m0 !! (p - 1) = Some b /\ b ≠ SLASH) ->
  exists m', norm_finish p (dst_of out) m = Ok tt m' /\ c_string m' p (path_text s) /\ forall a, a < p \/ p + Z.of_nat n <= a -> m' !! a = m0 !! a.
Proof.
  intros P He Hpl Hn Hb. destruct (progress_end _ _ P) as (m1 & E1 & C1 & F1 & M1). unfold norm_finish. run_step E1. cbv zeta.
  destruct (decide (s = [])) as [->|Hs].
  { assert (out = []) as -> by (destruct He as [->|([|] & c & _ & E & _)]; done). destruct (Hb eq_refl) as (b & Hb1 & Hb2).
    replace (dst_of []) with p by (unfold dst_of; simpl; lia). rewrite (proj2 (Z.eqb_neq _ _)) by lia. cbn [negb].
    rewrite (bind_Ok _ _ _ tt m1).
    2: { assert (m1 !! (p - 1) = Some b) as Hp by (rewrite F1 by lia; done). run_step (run_load8 _ _ _ Hp). by rewrite (proj2 (Z.eqb_neq _ _)). }
    run_step (run_load8 _ _ _ (c_string_nil _ _ C1)). change (0 =? 0) with true. cbn [when].
    assert (is_Some (m1 !! p)) as Hp0 by (replace p with (p + 0) by lia; apply M1; lia).
    run_step (run_store8 _ _ SLASH Hp0). eexists. split.
    - apply run_store8. rewrite lookup_insert_ne by lia. apply M1. lia.
    - split.
      + split; [|by repeat constructor]. apply holds_cons. split; [rewrite lookup_insert_ne, lookup_insert_eq by lia; done|].
        apply holds_cons. split; [apply lookup_insert_eq|apply holds_nil].
      + intros a Ha. rewrite !lookup_insert_ne by lia. by apply F1. }
  assert (forall m2 l, c_string m2 p l -> l ≠ [] -> (c ← load8 p; when (c =? 0) (store8 p SLASH;; store8 (p + 1) 0)) m2 = Ok tt m2) as Hfirst.
  { intros m2 [|x l] C Hl; [done|]. apply c_string_cons in C as (Hx & Hx0 & _). run_step (run_load8 _ _ _ Hx). by rewrite (proj2 (Z.eqb_neq _ _)). }
  assert (forall l x, out = l ++ [x] -> dst_of out - 1 = p + Z.of_nat (length l) /\ m1 !! (p + Z.of_nat (length l)) = Some x) as Hlast.
  { intros l x ->. split; [unfold dst_of; rewrite length_app; simpl; lia|]. apply (proj1 C1). rewrite !lookup_app_l by (rewrite ?length_app; simpl; lia).
    rewrite lookup_app_r, Nat.sub_diag by lia. done. }
  destruct He as [He|(s0 & c & Hc & -> & He)].
  - rewrite joined_closed in He by done. destruct (Hlast _ _ He) as [-> Hx]. unfold path_text. case_bool_decide as Hj.
    + rewrite Hj in *. simpl. rewrite Z.add_0_r, Z.eqb_refl. cbn [negb]. erewrite bind_Ok by reflexivity. subst out.
      rewrite (Hfirst m1 [SLASH] C1) by done. by exists m1.
    + assert (0 < length (joined s))%nat by (destruct (joined s); [done|simpl; lia]). rewrite (proj2 (Z.eqb_neq _ _)) by lia. cbn [negb].
      set (m2 := <[p + Z.of_nat (length (joined s)) := 0]> m1).
      rewrite (bind_Ok _ _ _ tt m2) by (run_step (run_load8 _ _ _ Hx); by apply (run_store8 m1 _ 0)).
      assert (c_string m2 p (joined s)) as C2 by (subst out; apply (c_string_store _ _ _ SLASH); [done|by eexists|done]).
      rewrite (Hfirst m2 _ C2) by done. exists m2. split; [done|]. split; [done|]. intros a Ha. unfold m2.
      pose proof (pr_fits _ _ _ P) as Hf. rewrite He, length_app in Hf. simpl in Hf. rewrite lookup_insert_ne by lia. by apply F1.
  - rewrite closed_joined in He. destruct (exists_last Hc) as (c' & x & ->). apply Forall_app in Hpl as [_ [Hx _]%Forall_cons].
    apply Forall_app in Hx as [_ [Hx _]%Forall_cons]. assert (out = (closed s0 ++ c') ++ [x]) as Eo by (rewrite He, <- closed_joined; by rewrite app_assoc).
    destruct (Hlast _ _ Eo) as [-> Hm]. rewrite (bind_Ok _ _ _ tt m1).
    2: { case_match; [|done]. run_step (run_load8 _ _ _ Hm). by rewrite (proj2 (Z.eqb_neq _ _)). }
    rewrite (Hfirst m1 out C1) by (rewrite Eo; by destruct (closed s0 ++ c')). exists m1. split; [done|]. split; [|done].
    unfold path_text. rewrite bool_decide_eq_false_2 by (intros [_ E]%joined_app; by destruct c'). by rewrite <- He.
Qed.

(** *** The whole *)

Lemma run_norm_in_place l :
  c_string m0 p l -> Forall is_byte l -> l ≠ [] -> n = S (length l) ->
  match canonical l with
  | None => exists m', norm_in_place p m0 = Ok (Refused p) m' /\ forall a, a < p \/ p + Z.of_nat n <= a -> m' !! a = m0 !! a
  | Some s => (s = [] -> exists b, m0 !! (p - 1) = Some b /\ b ≠ SLASH) ->
      exists m', norm_in_place p m0 = Ok (Path p) m' /\ c_string m' p (path_text s) /\ forall a, a < p \/ p + Z.of_nat n <= a -> m' !! a = m0 !! a
  end.
Proof.
  intros [Hl Hz] Hb Hne Hn. assert (n < string_fuel m0)%nat as HF.
  { pose proof (holds_size _ _ _ Hl) as Hs. rewrite length_app in Hs. simpl in Hs. unfold string_fuel. lia. }
  assert (progress m0 (closed []) (l ++ [0])) as P.
  { split; simpl; try done.
    - rewrite length_app. simpl. lia.
    - rewrite length_app. simpl. by replace (p + Z.of_nat n - Z.of_nat (length l + 1)) with p by lia.
    - apply Forall_app. split; [done|]. by repeat constructor.
    - pose proof (holds_mapped _ _ _ Hl) as Hm. rewrite length_app in Hm. simpl in Hm. by replace (Z.of_nat n) with (Z.of_nat (length l + 1)) by lia. }
  assert (loop_result (canonical l) (norm_loop (string_fuel m0) (string_fuel m0) p p p m0)) as HL.
  { replace (norm_loop (string_fuel m0) (string_fuel m0) p p p m0) with
      (norm_loop (string_fuel m0) (string_fuel m0) (src_of (l ++ [0])) (dst_of (closed [])) p m0)
      by (f_equal; unfold src_of, dst_of; rewrite ?length_app; simpl; lia).
    unfold canonical. destruct l as [|x l]; [done|]. destruct (decide (x = SLASH)) as [->|Hx].
    - change (loop_result (fold_left walk (components l) (Some [[]]))
        (norm_loop (string_fuel m0) (string_fuel m0) (src_of ((SLASH :: l) ++ [0])) (dst_of (closed [])) p m0)).
      rewrite <- walk_drop_slashes. set (F := string_fuel m0) in *.
      assert (exists f, F = S f) as [f Ef] by (destruct F; [lia|by eexists]). rewrite Ef at 2. cbn [norm_loop].
      assert (dots F (src_of ((SLASH :: l) ++ [0])) m0 = Ok (Copy (src_of ((SLASH :: l) ++ [0]))) m0) as Ed
        by (unfold dots; by run_step (progress_load _ _ _ _ P)). run_step Ed.
      destruct (run_copy_up [] F m0 (closed []) SLASH (l ++ [0]) ltac:(constructor) ltac:(constructor) ltac:(by right) P ltac:(simpl; lia)) as (m1 & E1 & P1).
      cbn [app] in E1. run_step E1. change (SLASH =? SLASH) with true. cbv iota.
      destruct (progress_store _ _ _ SLASH _ P1 ltac:(unfold is_byte, SLASH; lia) ltac:(done)) as (m2 & E2 & P2). run_step E2.
      simpl in Hn. run_step (run_eat_slashes l F m2 _ P2 ltac:(lia)). rewrite Z.add_simpl_r.
      replace (dst_of (closed [] ++ []) + 1) with (dst_of (closed [[]])) by (unfold dst_of; simpl; lia).
      apply (run_norm_loop F (length (drop_slashes l)) HF (drop_slashes l) [[]] m2 f); [done| | | | |].
      + pose proof (drop_slashes_length l). lia.
      + apply drop_slashes_starts.
      + apply Forall_cons in Hz as [_ Hz]. destruct (drop_slashes_suffix l) as [j Ej]. rewrite Ej in Hz. by apply Forall_app in Hz as [_ ?].
      + by repeat constructor.
      + destruct (drop_slashes_suffix l) as [j Ej]. rewrite Ej, <- (app_assoc (replicate j SLASH)) in P2. by eapply progress_skips.
    - assert (starts (x :: l)) as Hs by (intros r' [= ]; done).
      assert (match components (x :: l) with [] :: cs => fold_left walk cs (Some [[]]) | cs => fold_left walk cs (Some []) end
        = fold_left walk (components (x :: l)) (Some [])) as ->.
      { simpl. destruct (Z.eqb_spec x SLASH); [done|]. by destruct (components l). }
      by apply (run_norm_loop _ (length (x :: l)) HF); try done; try lia. }
  unfold norm_in_place, get. erewrite bind_Ok by reflexivity. cbv beta. destruct (canonical l) as [s|]; simpl in HL.
  - destruct HL as (m1 & out & E & P1 & He & Hpl). intros Hbefore. run_step E.
    destruct (run_norm_finish m1 s out P1 He Hpl) as (m' & E' & C & Fr); [destruct l; [done|simpl in Hn; lia]|done|].
    exists m'. by run_step E'.
  - destruct HL as (m1 & E & Fr). exists m1. by run_step E.
Qed.
End buffer.

(** ** Joining *)

Lemma run_chars_loop l : forall fuel m s, c_string m s l -> (length l < fuel)%nat -> chars_loop fuel s m = Ok l m.
Proof.
  induction l as [|x l IH]; intros fuel m s C Hf; (destruct fuel as [|fuel]; [simpl in Hf; lia|]); cbn [chars_loop].
  - by run_step (run_load8 _ _ _ (c_string_nil _ _ C)).
  - apply c_string_cons in C as (Hx & Hx0 & C). run_step (run_load8 _ _ _ Hx). rewrite (proj2 (Z.eqb_neq _ _)) by done.
    by run_step (IH fuel m (s + 1) C ltac:(simpl in Hf; lia)).
Qed.

Lemma run_chars m s l : c_string m s l -> chars s m = Ok l m.
Proof. intros C. unfold chars, get. erewrite bind_Ok by reflexivity. apply run_chars_loop; [done|by eapply c_string_fuel]. Qed.

Lemma string_text_plain s d : dir_precision d = -1 -> dir_width d = -1 -> dir_flags d = 0 -> string_text d s = s.
Proof.
  intros Hp Hw Hf. unfold string_text, string_length. rewrite Hp, Hw, Hf. change (0 <? -1) with false. cbn [andb].
  change (has 0 LEFT) with false. rewrite Nat2Z.id, firstn_all, spaces_none by lia. done.
Qed.

Lemma join_text d f : format_text join_format [VStr (Some d); VStr (Some f)] = Some (d ++ SLASH :: f).
Proof.
  unfold format_text, join_format. cbv -[string_text app]. rewrite !string_text_plain by done. simpl. by rewrite <- app_assoc.
Qed.

(** The text that is normalised: the name, or the directory, a slash and the name. *)
Definition full_text (d f : list Z) : list Z := if bool_decide (head f = Some SLASH) then f else d ++ SLASH :: f.

Definition apart (a : Z) (n : Z) (b : Z) (l : list Z) : Prop := a + n <= b \/ b + Z.of_nat (length l) + 1 <= a.

Lemma c_string_head m s l : c_string m s l -> m !! s = Some (default 0 (head l)).
Proof. destruct l as [|x l]; [apply c_string_nil|]. intros C. by apply c_string_cons in C as (H & _ & _). Qed.

Lemma run_full_text m wd directory filename mem d f :
  let n := S (length (full_text d f)) in
  c_string m (default wd directory) d -> c_string m filename f -> Forall is_byte d -> Forall is_byte f ->
  mapped m mem (Z.of_nat n) -> 0 <= mem -> mem + Z.of_nat n + 5 < 2 ^ 31 -> apart mem (Z.of_nat n) filename f ->
  dfs_normalize_path wd directory filename (Some mem) m = norm_in_place mem (set_bytes mem (full_text d f ++ [0]) m).
Proof.
  intros n Cd Cf Bd Bf Hm H0 Hn Ha. unfold dfs_normalize_path. run_step (run_load8 _ _ _ (c_string_head _ _ _ Cf)).
  unfold full_text in *. case_bool_decide as Hh.
  - rewrite Hh. change (negb (default 0 (Some SLASH) =? SLASH)) with false. cbv iota.
    run_step (run_strdup m filename f mem Cf Bf ltac:(lia) ltac:(replace (Z.of_nat (length f) + 1) with (Z.of_nat n) by lia; done) ltac:(unfold apart in Ha; lia)).
    done.
  - assert (negb (default 0 (head f) =? SLASH) = true) as -> by (destruct f as [|x f]; [done|]; simpl; rewrite (proj2 (Z.eqb_neq _ _)); [done|]; intros ->; done).
    assert (length (d ++ SLASH :: f) = length d + length f + 1)%nat as Hlen by (rewrite length_app; simpl; lia).
    assert (join_size (default wd directory) filename m = Ok (Z.of_nat n) m) as Ej.
    { unfold join_size, strlen. run_step (run_strlen _ _ _ Cd ltac:(lia)). run_step (run_strlen _ _ _ Cf ltac:(lia)). by rewrite u32_small by lia; do 2 f_equal; lia. }
    run_step Ej. run_step (run_chars _ _ _ Cd). run_step (run_chars _ _ _ Cf).
    assert (end_of mem (Z.of_nat n) = mem + Z.of_nat n - 1) as He by (apply end_of_size; lia).
    destruct (run_vsnprintf_end mem (Z.of_nat n) join_format [VStr (Some d); VStr (Some f)] m (d ++ SLASH :: f)) as (r & E & _); rewrite ?He.
    + lia.
    + apply join_text.
    + change (percents join_format) with 2%nat. lia.
    + eapply mapped_le; [exact Hm|]. lia.
    + rewrite He in E. replace (mem + Z.of_nat n - 1 - mem + 1) with (Z.of_nat n) in E by lia. rewrite Nat2Z.id in E.
      unfold rt_snprintf. run_step E. f_equal. unfold cut. f_equal. f_equal.
      rewrite take_ge by lia. assert (Forall is_byte (d ++ SLASH :: f)) as Hb.
      { apply Forall_app. split; [done|]. constructor; [unfold is_byte, SLASH; lia|done]. }
      clear -Hb. induction Hb as [|x l Hx _ IH]; [done|]. unfold is_byte in Hx. by rewrite fmap_cons, IH, u8_small by lia.
Qed.

Lemma run_dfs_normalize_path m wd directory filename mem d f :
  let text := full_text d f in let n := Z.of_nat (length text) + 1 in
  c_string m (default wd directory) d -> c_string m filename f -> Forall is_byte d -> Forall is_byte f ->
  mapped m mem n -> 0 <= mem -> mem + n + 5 < 2 ^ 31 -> apart mem n filename f ->
  (canonical text = Some [] -> exists b, m !! (mem - 1) = Some b /\ b ≠ SLASH) ->
  exists r m', dfs_normalize_path wd directory filename (Some mem) m = Ok r m' /\
    (forall a, a < mem \/ mem + n <= a -> m' !! a = m !! a) /\
    match canonical text with
    | None => r = Refused mem
    | Some s => r = Path mem /\ c_string m' mem (path_text s)
    end.
Proof.
  intros text n Cd Cf Bd Bf Hm H0 Hn Ha Hb. assert (n = Z.of_nat (S (length text))) as En by (unfold n; lia). rewrite En in *.
  rewrite (run_full_text m wd directory filename mem d f Cd Cf Bd Bf Hm H0 Hn Ha). fold text.
  set (m1 := set_bytes mem (text ++ [0]) m).
  assert (forall a, a < mem \/ mem + Z.of_nat (S (length text)) <= a -> m1 !! a = m !! a) as F1.
  { intros a Hout. unfold m1. rewrite lookup_set_bytes, decide_False; [done|]. rewrite length_app. simpl. lia. }
  assert (Forall is_byte text /\ Forall (fun x => x ≠ 0) text /\ text ≠ []) as (Bt & Zt & Nt).
  { destruct Cd as [_ Zd], Cf as [_ Zf]. unfold text, full_text. case_bool_decide as Hh.
    - split_and!; [done|done|by destruct f].
    - split_and!; [apply Forall_app; split; [done|]; constructor; [unfold is_byte, SLASH; lia|done]|apply Forall_app; split; [done|by constructor]|by destruct d]. }
  pose proof (run_norm_in_place mem _ m1 text (conj (set_bytes_holds mem (text ++ [0]) m) Zt) Bt Nt eq_refl) as HN.
  destruct (canonical text) as [s|].
  - destruct HN as (m' & E & C & F2).
    { intros ->. destruct (Hb eq_refl) as (b & Hb1 & Hb2). exists b. by rewrite F1 by lia. }
    exists (Path mem), m'. split_and!; [done| |done|done]. intros a Hout. by rewrite F2, F1 by lia.
  - destruct HN as (m' & E & F2). exists (Refused mem), m'. split_and!; [done| |done]. intros a Hout. by rewrite F2, F1 by lia.
Qed.

(** ** Canonical paths *)

(** The name of a file or of a directory. *)
Definition name (c : list Z) : Prop := plain c /\ c ≠ [] /\ c ≠ [DOT] /\ c ≠ [DOT; DOT].

Lemma components_all_plain l : Forall plain (components l).
Proof.
  induction l as [|x l IH]; [by repeat constructor|]. simpl. destruct (Z.eqb_spec x SLASH); [by constructor; [constructor|]|].
  destruct IH as [|c cs Hc Hcs]; [by repeat constructor|]. constructor; [by constructor|done].
Qed.

(** Names, possibly below the root. *)
Definition clean (s : list (list Z)) : Prop := Forall name s \/ exists cs, s = [] :: cs /\ Forall name cs.

Lemma walk_clean cs : Forall plain cs -> forall s s', fold_left walk cs (Some s) = Some s' -> clean s -> clean s'.
Proof.
  induction 1 as [|c cs Hc _ IH]; intros s s' E Hs; [by injection E as <-|]. cbn [fold_left walk] in E.
  destruct (bool_decide_reflect (c = [] \/ c = [DOT])) as [|H1]; [by eapply IH|].
  destruct (bool_decide_reflect (c = [DOT; DOT])) as [|H2].
  - case_bool_decide; [by rewrite walk_none in E|]. eapply IH; [exact E|]. destruct Hs as [Hs|(ns & -> & Hs)]; [left; by apply Forall_take|].
    simpl. rewrite Nat.sub_0_r. destruct ns as [|x ns]; [by left|]. right. cbn [length take]. eexists. split; [reflexivity|]. by apply Forall_take.
  - assert (name c) as Hn by (split; [done|]; tauto).
    eapply IH; [exact E|]. destruct Hs as [Hs|(ns & -> & Hs)]; [left; by apply Forall_app_2; [|constructor]|].
    right. exists (ns ++ [c]). split; [done|]. by apply Forall_app_2; [|constructor].
Qed.

Lemma walk_all_names cs : Forall name cs -> forall s, fold_left walk cs (Some s) = Some (s ++ cs).
Proof.
  induction 1 as [|c cs (_ & H0 & H1 & H2) _ IH]; intros s; [by rewrite app_nil_r|]. cbn [fold_left walk].
  rewrite !bool_decide_eq_false_2 by tauto. by rewrite IH, <- app_assoc.
Qed.

Lemma components_joined cs : Forall plain cs -> cs ≠ [] -> components (joined cs) = cs.
Proof.
  intros H Hne. induction H as [|c cs Hc Hcs IH]; [done|]. destruct cs as [|c2 cs]; [by apply components_plain|].
  change (joined (c :: c2 :: cs)) with (c ++ SLASH :: joined (c2 :: cs)). rewrite components_app by done. by rewrite IH.
Qed.

Lemma canonical_clean text s : canonical text = Some s -> clean s.
Proof.
  unfold canonical. pose proof (components_all_plain text) as Hp. intros E.
  destruct (components text) as [|[|x c] cs]; [by injection E as <-; left| |].
  - apply Forall_cons in Hp as [_ Hp]. eapply walk_clean; [exact Hp|exact E|]. right. by exists [].
  - eapply walk_clean; [exact Hp|exact E|]. by left.
Qed.

(** ** Paths below the root *)

(** Reference: the names of an absolute text below the root; none for a text that
    is not absolute or that goes up from the root on its way. *)
Definition resolve (text : list Z) : option (list (list Z)) :=
  match components text with [] :: cs => fold_left walk cs (Some []) | _ => None end.

(** The text of an absolute path. *)
Definition absolute (cs : list (list Z)) : list Z := SLASH :: joined cs.

Lemma walk_below_root cs : forall s s', fold_left walk cs (Some s) = Some s' -> fold_left walk cs (Some ([] :: s)) = Some ([] :: s').
Proof.
  induction cs as [|c cs IH]; intros s s' E; [by injection E as <-|]. cbn [fold_left walk] in *.
  case_bool_decide; [by apply IH|]. case_bool_decide; [|by apply (IH (s ++ [c]))].
  destruct (bool_decide_reflect (s = [])) as [|Hs]; [by rewrite walk_none in E|]. apply IH in E.
  rewrite bool_decide_eq_false_2 by done. simpl. rewrite Nat.sub_0_r. destruct s as [|x s]; [done|].
  simpl in *. by rewrite Nat.sub_0_r in E.
Qed.

Lemma resolve_canonical text cs : resolve text = Some cs -> canonical text = Some ([] :: cs).
Proof. unfold resolve, canonical. destruct (components text) as [|[|x c] l]; [done| |done]. apply walk_below_root. Qed.

Lemma resolve_names text cs : resolve text = Some cs -> Forall name cs.
Proof.
  intros E%resolve_canonical%canonical_clean. destruct E as [H|(ns & [= <-] & H)]; [|done].
  apply Forall_cons in H as [(_ & H & _) _]. done.
Qed.

Lemma path_text_absolute cs : path_text ([] :: cs) = absolute cs.
Proof. unfold path_text, absolute. destruct cs as [|c cs]; [done|]. by rewrite bool_decide_eq_false_2. Qed.

(** C22: [dfs_normalize_path] on a file name, joined to the directory unless it begins
    with a slash, in a buffer that holds the joined text.  If the text is absolute
    and never goes up from the root, the result is the absolute path of names it
    stands for: its components in order without empty ones and ["."], each [".."]
    having removed the one before it.  What the code does with the other texts is
    [canonical]: it refuses a relative text that goes up further than it came down,
    and gives the memory back; going up from the root once removes the root itself,
    so ["/.."] comes out as ["/"], ["/../a"] as the relative ["a"], and going up
    again is refused.  For a text whose components all cancel, such as ["/.."], the
    code looks at the byte in front of the buffer, and the theorem asks that this
    byte is there and is no slash.  Nothing outside of the buffer is written. *)
Theorem dfs_normalize_path_correct m wd directory filename mem d f :
  let text := full_text d f in let n := Z.of_nat (length text) + 1 in
  c_string m (default wd directory) d -> c_string m filename f -> Forall is_byte d -> Forall is_byte f ->
  mapped m mem n -> 0 <= mem -> mem + n + 5 < 2 ^ 31 -> apart mem n filename f ->
  (canonical text = Some [] -> exists b, m !! (mem - 1) = Some b /\ b ≠ SLASH) ->
  exists r m', dfs_normalize_path wd directory filename (Some mem) m = Ok r m' /\
    (forall a, a < mem \/ mem + n <= a -> m' !! a = m !! a) /\
    match resolve text, canonical text with
    | Some cs, _ => r = Path mem /\ Forall name cs /\ c_string m' mem (absolute cs)
    | None, Some s => r = Path mem /\ c_string m' mem (path_text s)
    | None, None => r = Refused mem
    end.
Proof.
  intros text n Cd Cf Bd Bf Hm H0 Hn Ha Hb.
  destruct (run_dfs_normalize_path m wd directory filename mem d f Cd Cf Bd Bf Hm H0 Hn Ha Hb) as (r & m' & E & Fr & H).
  exists r, m'. split; [exact E|]. split; [exact Fr|]. fold text in H. destruct (resolve text) as [cs|] eqn:Er; [|done].
  rewrite (resolve_canonical _ _ Er), path_text_absolute in H. destruct H as [-> C].
  split_and!; [done|by eapply resolve_names|done].
Qed.

(** A path that stays below the root is normalised to an absolute path of names
    only, which normalising again does not change. *)
Theorem normalize_idempotent text cs :
  canonical text = Some ([] :: cs) ->
  Forall name cs /\ head (path_text ([] :: cs)) = Some SLASH /\ canonical (path_text ([] :: cs)) = Some ([] :: cs).
Proof.
  intros E. apply canonical_clean in E as [H|(ns & [= <-] & H)]; [apply Forall_cons in H as [(_ & H & _) _]; done|].
  split; [done|]. destruct cs as [|c cs]; [done|]. change (joined ([] :: c :: cs)) with (SLASH :: joined (c :: cs)).
  unfold path_text. rewrite bool_decide_eq_false_2 by done. split; [done|]. unfold canonical.
  change (components (joined ([] :: c :: cs))) with ([] :: components (joined (c :: cs))).
  rewrite components_joined; [|eapply Forall_impl; [exact H|]; by intros x (? & _)|done]. by rewrite walk_all_names.
Qed.

(** ** The path below a mount point *)

Definition subdir (d f : list Z) : option (list Z) :=
  if (length d =? length f)%nat then None
  else
    let r := drop (length d) f in
    Some (if negb (bool_decide (head r = Some SLASH)) && negb (length d =? 0)%nat then drop (length d - 1) f else r).

Lemma c_string_drop m s l k : c_string m s l -> (k <= length l)%nat -> c_string m (s + Z.of_nat k) (drop k l).
Proof.
  revert s l. induction k as [|k IH]; intros s l C Hk; [by rewrite Z.add_0_r|]. destruct l as [|x l]; [simpl in Hk; lia|].
  apply c_string_cons in C as (_ & _ & C). simpl. replace (s + Z.of_nat (S k)) with (s + 1 + Z.of_nat k) by lia. apply IH; [done|simpl in Hk; lia].
Qed.

(** [dfs_subdir] of a directory that is not longer than the name. *)
Theorem dfs_subdir_correct m directory filename d f :
  c_string m directory d -> c_string m filename f -> (length d <= length f)%nat -> Z.of_nat (length f) < 2 ^ 32 ->
  exists r, dfs_subdir directory filename m = Ok r m /\
    match subdir d f with None => r = None | Some l => exists a, r = Some a /\ c_string m a l end.
Proof.
  intros Cd Cf Hl Hb. unfold dfs_subdir, subdir, strlen. run_step (run_strlen _ _ _ Cd ltac:(lia)). run_step (run_strlen _ _ _ Cf ltac:(lia)).
  destruct (Nat.eqb_spec (length d) (length f)) as [E|E]; [rewrite E, Z.eqb_refl; by eexists|].
  rewrite (proj2 (Z.eqb_neq _ _)) by lia. cbv zeta. pose proof (c_string_drop _ _ _ _ Cf Hl) as Cr.
  run_step (run_load8 _ _ _ (c_string_head _ _ _ Cr)). eexists. split; [reflexivity|].
  assert ((default 0 (head (drop (length d) f)) =? SLASH) = bool_decide (head (drop (length d) f) = Some SLASH)) as ->.
  { destruct (head (drop (length d) f)) as [x|]; [|done]. simpl. destruct (Z.eqb_spec x SLASH); [by rewrite bool_decide_eq_true_2; subst|rewrite bool_decide_eq_false_2; congruence]. }
  destruct (bool_decide (head (drop (length d) f) = Some SLASH)); [by eexists|].
  destruct (Nat.eqb_spec (length d) 0) as [E0|E0]; [rewrite E0; simpl; rewrite Z.add_0_r, Z.eqb_refl; eexists; split; [done|]; by rewrite E0, Z.add_0_r in Cr|].
  rewrite (proj2 (Z.eqb_neq _ _)) by lia. eexists. split; [reflexivity|].
  replace (filename + Z.of_nat (length d) - 1) with (filename + Z.of_nat (length d - 1)) by lia. apply c_string_drop; [done|lia].
Qed.

(** ** Limits of the code *)

Definition text_at (m : memory) (a : Z) (n : nat) : list Z := (fun i => default (-1) (m !! (a + Z.of_nat i))) <$> seq 0 n.
Definition buffer_with (before : Z) (l : list Z) : memory := set_bytes 99 (before :: l ++ [0]) ∅.

(** [/../b] comes out as [b]: the root itself is removed, and the result is not an
    absolute path. *)
Theorem normalize_above_root : 
  ret (norm_in_place 100) (buffer_with 0 [47; 46; 46; 47; 98]) = Some (Path 100) /\
  text_at (run (norm_in_place 100) (buffer_with 0 [47; 46; 46; 47; 98])) 100 2 = [98; 0].
Proof. vm_compute. split; reflexivity. Qed.

(** When nothing is left, the test for a trailing slash looks at the byte in front of
    the buffer, and clears it if it is a slash. *)
Theorem normalize_writes_before :
  ret (norm_in_place 100) (buffer_with SLASH [47; 46; 46]) = Some (Path 100) /\
  text_at (run (norm_in_place 100) (buffer_with SLASH [47; 46; 46])) 99 3 = [0; 47; 0].
Proof. vm_compute. split; reflexivity. Qed.

(** ** Witnesses *)

(** The directory [/usr] at 10, the name [../a//./b/] at 20, room for the path at 100. *)
Definition demo_paths : memory :=
  set_bytes 10 [47; 117; 115; 114; 0] (set_bytes 20 [46; 46; 47; 97; 47; 47; 46; 47; 98; 47; 0] (set_bytes 99 (replicate 40 1) ∅)).

Lemma dfs_normalize_path_correct_witness :
  exists m', dfs_normalize_path 10 None 20 (Some 100) demo_paths = Ok (Path 100) m' /\ c_string m' 100 [47; 97; 47; 98].
Proof.
  destruct (dfs_normalize_path_correct demo_paths 10 None 20 100 [47; 117; 115; 114] [46; 46; 47; 97; 47; 47; 46; 47; 98; 47]) as (r & m' & E & _ & -> & _ & C).
  - split; [|by repeat constructor]. intros i x Hi. do 5 (destruct i as [|i]; [by injection Hi as <-|]). done.
  - split; [|by repeat constructor]. intros i x Hi. do 11 (destruct i as [|i]; [by injection Hi as <-|]). done.
  - repeat constructor; done.
  - repeat constructor; done.
  - apply (mapped_le _ _ 39); [|vm_compute; discriminate]. intros i Hi.
    assert (demo_paths !! (100 + i) = Some 1) as ->; [|by eexists]. unfold demo_paths.
    rewrite !lookup_set_bytes. do 2 (rewrite decide_False by (simpl; lia)). rewrite decide_True by (rewrite length_replicate; lia).
    apply lookup_replicate_2. lia.
  - lia.
  - vm_compute. reflexivity.
  - right. vm_compute. discriminate.
  - intros H. vm_compute in H. discriminate.
  - exists m'. split; [exact E|exact C].
Defined.

Lemma normalize_idempotent_witness : canonical [47; 97; 47; 98] = Some [[]; [97]; [98]].
Proof.
  assert (canonical [47; 99; 47; 46; 46; 47; 47; 97; 47; 98; 47] = Some [[]; [97]; [98]]) as E by (vm_compute; reflexivity).
  exact (proj2 (proj2 (normalize_idempotent _ _ E))).
Defined.

Lemma dfs_subdir_correct_witness :
  exists r, dfs_subdir 10 20 (set_bytes 10 [47; 100; 0] (set_bytes 20 [47; 100; 47; 97; 0] ∅)) = Ok r (set_bytes 10 [47; 100; 0] (set_bytes 20 [47; 100; 47; 97; 0] ∅)).
Proof.
  destruct (dfs_subdir_correct (set_bytes 10 [47; 100; 0] (set_bytes 20 [47; 100; 47; 97; 0] ∅)) 10 20 [47; 100] [47; 100; 47; 97]) as (r & E & _).
  - split; [|by repeat constructor]. intros i x Hi. do 3 (destruct i as [|i]; [by injection Hi as <-|]). done.
  - split; [|by repeat constructor]. intros i x Hi. do 5 (destruct i as [|i]; [by injection Hi as <-|]). done.
  - simpl. lia.
  - simpl. lia.
  - exists r. exact E.
Defined.
