(* ===== verification/Dfs.v ===== *)
(** * The virtual file system: components/dfs/src/dfs.c and dfs_fs.c

    The table of descriptors with their reference counts, the registered types of
    file systems and the mounted ones.  Paths are texts with the address of their
    memory; what [dfs_normalize_path] and [dfs_subdir] do to the bytes is in
    [DfsPath].  The functions of a file system are code of its driver: a parameter. *)

From S2P Require Import Prelude KString Printf Kernel Object Scheduler Thread KInv ThreadSpec Device Mem Allocator Pipe PipeFile DfsPath.

Definition DFS_FD_MAX : nat := 4.
Definition DFS_FD_OFFSET : Z := 3.
Definition DFS_FILESYSTEMS_MAX : nat := 2.
Definition DFS_FILESYSTEM_TYPES_MAX : nat := 2.
Definition DFS_FD_MAGIC : Z := 0xfdfd.
Definition DFS_FS_FLAG_FULLPATH : Z := 1.
Definition DFS_F_OPEN : Z := 0x01000000.
Definition DFS_F_DIRECTORY : Z := 0x02000000.
Definition DFS_F_EOF : Z := 0x04000000.
Definition FT_REGULAR : Z := 0.
Definition FT_DIRECTORY : Z := 2.
Definition ENOENT : Z := 2.
Definition EIO : Z := 5.
Definition ENXIO : Z := 6.
Definition EBADF : Z := 9.
Definition ENOMEM : Z := 12.
Definition EBUSY : Z := 16.
Definition EEXIST : Z := 17.
Definition EXDEV : Z := 18.
Definition ENOTDIR : Z := 20.
Definition ENOSPC : Z := 28.
Definition ENOSYS : Z := 38.
Definition O_DIRECTORY : Z := 0x200000.

(** A string in memory of its own. *)
Record cstr := mk_str { str_addr : Z; str_text : list Z }.

(** What [fd->data] points to: a mounted file system, a device, or an object of the
    driver. *)
Inductive fd_object := AFs (i : nat) | ADevice (o : nat) | AnObject (a : Z).

(** [struct dfs_fd]; [fops] by the number of the table of functions. *)
Record dfs_fd := mk_fd {
  fd_magic : Z;
  fd_type : Z;
  fd_path : option cstr;
  fd_ref_count : Z;
  fd_fops : option nat;
  fd_flags : Z;
  fd_size : Z;
  fd_pos : Z;
  fd_data : option fd_object
}.
Definition cleared_fd : dfs_fd := mk_fd 0 0 None 0 None 0 0 0 None.

Definition set_ref_count (n : Z) (d : dfs_fd) : dfs_fd :=
  mk_fd (fd_magic d) (fd_type d) (fd_path d) n (fd_fops d) (fd_flags d) (fd_size d) (fd_pos d) (fd_data d).
Definition set_path (p : option cstr) (d : dfs_fd) : dfs_fd :=
  mk_fd (fd_magic d) (fd_type d) p (fd_ref_count d) (fd_fops d) (fd_flags d) (fd_size d) (fd_pos d) (fd_data d).
Definition set_flags (f : Z) (d : dfs_fd) : dfs_fd :=
  mk_fd (fd_magic d) (fd_type d) (fd_path d) (fd_ref_count d) (fd_fops d) f (fd_size d) (fd_pos d) (fd_data d).
Definition set_pos (p : Z) (d : dfs_fd) : dfs_fd :=
  mk_fd (fd_magic d) (fd_type d) (fd_path d) (fd_ref_count d) (fd_fops d) (fd_flags d) (fd_size d) p (fd_data d).
Definition set_type (t : Z) (d : dfs_fd) : dfs_fd :=
  mk_fd (fd_magic d) t (fd_path d) (fd_ref_count d) (fd_fops d) (fd_flags d) (fd_size d) (fd_pos d) (fd_data d).
Definition set_file (fops : option nat) (data : option fd_object) (d : dfs_fd) : dfs_fd :=
  mk_fd (fd_magic d) (fd_type d) (fd_path d) (fd_ref_count d) fops (fd_flags d) (fd_size d) (fd_pos d) data.

(** [struct dfs_filesystem]; [ops] by the number of the type. *)
Record dfs_filesystem := mk_fs { fs_dev_id : option nat; fs_path : option cstr; fs_ops : option nat }.
Definition cleared_fs : dfs_filesystem := mk_fs None None None.

(** The heap, [filesystem_table], [filesystem_operation_table], [working_directory],
    how often [fslock] is held, the devices with the kernel, and the addresses of the
    memory that the drivers of the file systems hold. *)
Record dfs_env (H : Type) := mk_denv {
  de_heap : H;
  de_fs : list dfs_filesystem;
  de_types : list (option nat);
  de_wd : list Z;
  de_lock : Z;
  de_dev : dev_state;
  de_priv : list Z
}.
Arguments mk_denv {H}. Arguments de_heap {H}. Arguments de_fs {H}. Arguments de_types {H}. Arguments de_wd {H}.
Arguments de_lock {H}. Arguments de_dev {H}. Arguments de_priv {H}.

(** The descriptors, [fd_table] first and variables of type [struct dfs_fd] behind. *)
Definition dfs_state (H : Type) : Type := gmap nat dfs_fd * dfs_env H.

(** A directory entry of [getdents], and the fields of [struct stat] that are set. *)
Record dirent := mk_dirent { d_type : Z; d_namlen : Z; d_reclen : Z; d_name : list Z }.
Record stat := mk_stat { st_dev : Z; st_mode : Z; st_size : Z; st_mtime : Z }.
Record statfs := mk_statfs { f_bsize : Z; f_blocks : Z; f_bfree : Z }.

(** [struct dfs_file_ops] and [struct dfs_filesystem_ops] of a driver; a descriptor is
    its number, a file system its place in the table. *)
Record dfs_file_ops (S : Type) := mk_fops {
  f_open : option (nat -> M S Z);
  f_close : option (nat -> M S Z);
  f_ioctl : option (nat -> Z -> Z -> M S Z);
  f_read : option (nat -> Z -> M S (Z * list Z));
  f_write : option (nat -> list Z -> Z -> M S Z);
  f_flush : option (nat -> M S Z);
  f_lseek : option (nat -> Z -> M S Z);
  f_getdents : option (nat -> Z -> M S (Z * list dirent))
}.
Arguments mk_fops {S}. Arguments f_open {S}. Arguments f_close {S}. Arguments f_ioctl {S}. Arguments f_read {S}.
Arguments f_write {S}. Arguments f_flush {S}. Arguments f_lseek {S}. Arguments f_getdents {S}.

Record dfs_filesystem_ops (S : Type) := mk_fsops {
  o_name : list Z;
  o_flags : Z;
  o_fops : nat;
  o_mount : option (nat -> Z -> M S Z);
  o_unmount : option (nat -> M S Z);
  o_mkfs : option (nat -> M S Z);
  o_statfs : option (nat -> M S (Z * statfs));
  o_unlink : option (nat -> list Z -> M S Z);
  o_stat : option (nat -> list Z -> M S (Z * stat));
  o_rename : option (nat -> option (list Z) -> option (list Z) -> M S Z)
}.
Arguments mk_fsops {S}. Arguments o_name {S}. Arguments o_flags {S}. Arguments o_fops {S}. Arguments o_mount {S}.
Arguments o_unmount {S}. Arguments o_mkfs {S}. Arguments o_statfs {S}. Arguments o_unlink {S}. Arguments o_stat {S}. Arguments o_rename {S}.

Section dfs.
Context {H : Type} (malloc : Z -> M H (option Z)) (free : option Z -> M H unit).
Context (fops : nat -> dfs_file_ops (dfs_state H)) (types : nat -> dfs_filesystem_ops (dfs_state H)) (ops : nat -> device_ops).

Definition on_dheap {A} (x : M H A) : M (dfs_state H) A := fun st =>
  match x (de_heap st.2) with
  | Ok a h => Ok a (st.1, mk_denv h (de_fs st.2) (de_types st.2) (de_wd st.2) (de_lock st.2) (de_dev st.2) (de_priv st.2))
  | Fault => Fault
  end.
Definition on_ddev {A} (x : M dev_state A) : M (dfs_state H) A := fun st =>
  match x (de_dev st.2) with
  | Ok a d => Ok a (st.1, mk_denv (de_heap st.2) (de_fs st.2) (de_types st.2) (de_wd st.2) (de_lock st.2) d (de_priv st.2))
  | Fault => Fault
  end.
Definition set_errno (e : Z) : M (dfs_state H) unit := on_ddev (on_snd (rt_set_errno e)).
Definition upd_fs (f : list dfs_filesystem -> list dfs_filesystem) : M (dfs_state H) unit :=
  modify (fun st => (st.1, mk_denv (de_heap st.2) (f (de_fs st.2)) (de_types st.2) (de_wd st.2) (de_lock st.2) (de_dev st.2) (de_priv st.2))).
Definition upd_types (f : list (option nat) -> list (option nat)) : M (dfs_state H) unit :=
  modify (fun st => (st.1, mk_denv (de_heap st.2) (de_fs st.2) (f (de_types st.2)) (de_wd st.2) (de_lock st.2) (de_dev st.2) (de_priv st.2))).
Definition upd_wd (f : list Z -> list Z) : M (dfs_state H) unit :=
  modify (fun st => (st.1, mk_denv (de_heap st.2) (de_fs st.2) (de_types st.2) (f (de_wd st.2)) (de_lock st.2) (de_dev st.2) (de_priv st.2))).

(** ** The lock

    [fslock] is a recursive mutex; a call that finds it free, or that holds it
    already, goes on.  The count is the number of its takes. *)
Definition upd_lock (f : Z -> Z) : M (dfs_state H) unit :=
  modify (fun st => (st.1, mk_denv (de_heap st.2) (de_fs st.2) (de_types st.2) (de_wd st.2) (f (de_lock st.2)) (de_dev st.2) (de_priv st.2))).
Definition dfs_lock : M (dfs_state H) unit := upd_lock (fun n => n + 1).
Definition dfs_unlock : M (dfs_state H) unit := upd_lock (fun n => n - 1).

(** ** Strings on the heap *)

(** [rt_free] of a string, null or not. *)
Definition free_str (s : option cstr) : M (dfs_state H) unit := on_dheap (free (str_addr <$> s)).

(** [rt_strdup] *)
Definition dup (l : list Z) : M (dfs_state H) (option cstr) :=
  a ← on_dheap (malloc (Z.of_nat (length l) + 1)); mret ((fun a => mk_str a l) <$> a).

(** [dfs_normalize_path] by its text. *)
Definition normalize (directory : option (list Z)) (filename : list Z) : M (dfs_state H) (option cstr) :=
  wd ← gets (fun st => de_wd st.2);
  let text := full_text (default wd directory) filename in
  a ← on_dheap (malloc (Z.of_nat (length text) + 1));
  match a with
  | None => mret None
  | Some a =>
      match canonical text with
      | None => on_dheap (free (Some a));; mret None
      | Some s => mret (Some (mk_str a (path_text s)))
      end
  end.

(** ** Descriptors *)

(** The [for] loop of [fd_new]. *)
Fixpoint find_free (idxs : list nat) : M (dfs_state H) (option nat) :=
  match idxs with
  | [] => mret None
  | i :: idxs => d ← get_obj i; if 0 <? fd_ref_count d then find_free idxs else mret (Some i)
  end.

Definition fd_new : M (dfs_state H) Z :=
  dfs_lock;;
  idx ← find_free (seq 0 DFS_FD_MAX);
  idx ← match idx with
        | None => mret (- (1 + DFS_FD_OFFSET))
        | Some i =>
            upd_obj i (fun d => mk_fd DFS_FD_MAGIC (fd_type d) (fd_path d) 1 (fd_fops d) (fd_flags d) (fd_size d) (fd_pos d) (fd_data d));;
            mret (Z.of_nat i)
        end;
  dfs_unlock;;
  mret (idx + DFS_FD_OFFSET).

Definition fd_get (fd : Z) : M (dfs_state H) (option nat) :=
  let fd := fd - DFS_FD_OFFSET in
  if (fd <? 0) || (Z.of_nat DFS_FD_MAX <=? fd) then mret None
  else
    dfs_lock;;
    let i := Z.to_nat fd in
    d ← get_obj i;
    if negb (fd_magic d =? DFS_FD_MAGIC) then dfs_unlock;; mret None
    else
      upd_obj i (fun d => set_ref_count (fd_ref_count d + 1) d);;
      dfs_unlock;;
      mret (Some i).

Definition fd_put (fd : option nat) : M (dfs_state H) unit :=
  i ← deref (fun _ => fd);
  dfs_lock;;
  upd_obj i (fun d => set_ref_count (fd_ref_count d - 1) d);;
  d ← get_obj i;
  when (fd_ref_count d =? 0) (put_obj i cleared_fd);;
  dfs_unlock.

(** ** File systems *)

(** [strncmp(iter->path, path, fspath) != 0] and the test of the next separator. *)
Definition covers (mount path : list Z) : bool :=
  bool_decide (mount `prefix_of` path) &&
  negb ((1 <? length mount)%nat && (length mount <? length path)%nat && negb (bool_decide (path !! length mount = Some SLASH))).

(** The [for] loop of [dfs_filesystem_lookup] from place [i] on. *)
Fixpoint lookup_loop (path : list Z) (i : nat) (tbl : list dfs_filesystem) (fs : option nat) (prefixlen : nat) : option nat :=
  match tbl with
  | [] => fs
  | iter :: tbl =>
      match fs_path iter, fs_ops iter with
      | Some p, Some _ =>
          let fspath := length (str_text p) in
          if (fspath <? prefixlen)%nat || negb (covers (str_text p) path) then lookup_loop path (S i) tbl fs prefixlen
          else lookup_loop path (S i) tbl (Some i) fspath
      | _, _ => lookup_loop path (S i) tbl fs prefixlen
      end
  end.

Definition dfs_filesystem_lookup (path : list Z) : M (dfs_state H) (option nat) :=
  dfs_lock;;
  tbl ← gets (fun st => de_fs st.2);
  dfs_unlock;;
  mret (lookup_loop path 0 tbl None 0).

Definition get_fs (i : nat) : M (dfs_state H) dfs_filesystem := deref (fun st => de_fs st.2 !! i).

(** [fs->ops] *)
Definition ops_of (i : nat) : M (dfs_state H) (dfs_filesystem_ops (dfs_state H)) :=
  fs ← get_fs i; n ← deref (fun _ => fs_ops fs); mret (types n).

Definition path_of (i : nat) : M (dfs_state H) (list Z) := fs ← get_fs i; p ← deref (fun _ => fs_path fs); mret (str_text p).

(** The [for] loop of [fd_is_open]; a descriptor with functions has a path. *)
Fixpoint open_loop (f : nat) (mountpath : list Z) (idxs : list nat) : M (dfs_state H) bool :=
  match idxs with
  | [] => mret false
  | i :: idxs =>
      d ← get_obj i;
      match fd_fops d with
      | None => open_loop f mountpath idxs
      | Some g =>
          if (g =? f)%nat then
            p ← deref (fun _ => fd_path d);
            if bool_decide (str_text p = mountpath) then mret true else open_loop f mountpath idxs
          else open_loop f mountpath idxs
      end
  end.

Definition fd_is_open (pathname : list Z) : M (dfs_state H) Z :=
  fullpath ← normalize None pathname;
  match fullpath with
  | None => mret (-1)
  | Some full =>
      fs ← dfs_filesystem_lookup (str_text full);
      match fs with
      | None => free_str fullpath;; mret (-1)
      | Some i =>
          mount ← path_of i;
          let mountpath := if bool_decide (mount = [SLASH]) then str_text full else drop (length mount) (str_text full) in
          dfs_lock;;
          o ← ops_of i;
          found ← open_loop (o_fops o) mountpath (seq 0 DFS_FD_MAX);
          if found : bool then free_str fullpath;; dfs_unlock;; mret 0
          else dfs_unlock;; free_str fullpath;; mret (-1)
      end
  end.

(** The [for] loop of [dfs_register] from place [i] on: the first free place, and
    whether a type with the name is there. *)
Fixpoint register_loop (name : list Z) (i : nat) (tbl : list (option nat)) (empty : option nat) : option nat * bool :=
  match tbl with
  | [] => (empty, false)
  | None :: tbl => register_loop name (S i) tbl (match empty with None => Some i | _ => empty end)
  | Some t :: tbl => if bool_decide (o_name (types t) = name) then (empty, true) else register_loop name (S i) tbl empty
  end.

Definition dfs_register (t : nat) : M (dfs_state H) Z :=
  dfs_lock;;
  tbl ← gets (fun st => de_types st.2);
  let (empty, exists_) := register_loop (o_name (types t)) 0 tbl None in
  when exists_ (set_errno (- EEXIST));;
  ret ← match empty with
        | None => set_errno (- ENOSPC);; mret (-1)
        | Some i => if exists_ then mret (-1) else upd_types (<[i := Some t]>);; mret RT_EOK
        end;
  dfs_unlock;;
  mret ret.

Definition dfs_filesystem_get_mounted_path (device : option nat) : M (dfs_state H) (option (list Z)) :=
  dfs_lock;;
  tbl ← gets (fun st => de_fs st.2);
  dfs_unlock;;
  mret (fs ← List.find (fun fs => bool_decide (is_Some (fs_ops fs)) && bool_decide (fs_dev_id fs = device)) tbl; str_text <$> fs_path fs).

Definition dfs_statfs (path : list Z) : M (dfs_state H) (Z * option statfs) :=
  fs ← dfs_filesystem_lookup path;
  match fs with
  | None => mret (-1, None)
  | Some i =>
      o ← ops_of i;
      match o_statfs o with
      | None => mret (-1, None)
      | Some f => r ← f i; mret (r.1, Some r.2)
      end
  end.

(** The search for a type by name: its place. *)
Definition find_type (name : list Z) (tbl : list (option nat)) : option nat :=
  fst <$> list_find (fun t => Is_true (match t with Some n => bool_decide (o_name (types n) = name) | None => false end)) tbl.

(** The loop runs over one place more than the table has: a fault when it gets
    there. *)
Definition dfs_mkfs (fs_name : list Z) (device_name : option (list Z)) : M (dfs_state H) Z :=
  dev_id ← match device_name with None => mret None | Some n => on_ddev (rt_device_find n) end;
  match dev_id with
  | None => set_errno (- ENODEV);; mret (-1)
  | Some dev =>
      dfs_lock;;
      tbl ← gets (fun st => de_types st.2);
      t ← deref (fun _ => i ← find_type fs_name tbl; mjoin (tbl !! i));
      dfs_unlock;;
      match o_mkfs (types t) with
      | None => set_errno (- ENOSYS);; mret (-1)
      | Some f => f dev
      end
  end.
End dfs.

(** [struct dfs_partition] without the lock, and the partition table of a boot sector. *)
Record dfs_partition := mk_part { part_type : Z; part_offset : Z; part_size : Z }.
Definition DPT_ADDRESS : Z := 0x1be.
Definition DPT_ITEM_SIZE : Z := 16.

(** Four bytes, the lowest first. *)
Definition word_at (buf : Z -> M (list Z) Z) (a : Z) : M (list Z) Z :=
  b0 ← buf a; b1 ← buf (a + 1); b2 ← buf (a + 2); b3 ← buf (a + 3);
  mret (Z.lor (Z.lor (Z.lor b0 (Z.shiftl b1 8)) (Z.shiftl b2 16)) (Z.shiftl b3 24)).

(** The state is the buffer; what is printed is left out. *)
Definition dfs_filesystem_get_partition (pindex : Z) : M (list Z) (Z * option dfs_partition) :=
  let byte a := deref (fun buf => if a <? 0 then None else buf !! Z.to_nat a) in
  let dpt := DPT_ADDRESS + pindex * DPT_ITEM_SIZE in
  b ← byte dpt;
  if negb (b =? 0x80) && negb (b =? 0) then mret (- EIO, None)
  else
    type ← byte (dpt + 4);
    if type =? 0 then mret (- EIO, None)
    else
      offset ← word_at byte (dpt + 8);
      size ← word_at byte (dpt + 12);
      mret (RT_EOK, Some (mk_part type (s32 offset) (u32 size))).

(** ** The lock is given back *)

Section facts.
Context {H : Type}.

Definition locked_env (k : Z) (e : dfs_env H) : dfs_env H := mk_denv (de_heap e) (de_fs e) (de_types e) (de_wd e) (de_lock e + k) (de_dev e) (de_priv e).

Lemma run_lock (fds : gmap nat dfs_fd) (e : dfs_env H) : dfs_lock (fds, e) = Ok tt (fds, locked_env 1 e).
Proof. reflexivity. Qed.
Lemma run_unlock (fds : gmap nat dfs_fd) (e : dfs_env H) : dfs_unlock (fds, e) = Ok tt (fds, locked_env (-1) e).
Proof. reflexivity. Qed.
Lemma relock e : locked_env (-1) (locked_env 1 e) = e.
Proof. destruct e. unfold locked_env. simpl. f_equal. lia. Qed.

Lemma run_lookup path (fds : gmap nat dfs_fd) (e : dfs_env H) :
  dfs_filesystem_lookup path (fds, e) = Ok (lookup_loop path 0 (de_fs e) None 0) (fds, e).
Proof.
  unfold dfs_filesystem_lookup. run_step (run_lock fds e). erewrite bind_Ok by reflexivity. run_step (run_unlock fds (locked_env 1 e)). by rewrite relock.
Qed.
End facts.

(** ** Which file system a path belongs to *)

(** The absolute path with components [cs]. *)
Definition absolute (cs : list (list Z)) : list Z := path_text ([] :: cs).

Definition slashed (cs : list (list Z)) : list Z := concat ((SLASH ::.) <$> cs).

Lemma absolute_slashed cs : cs ≠ [] -> absolute cs = slashed cs.
Proof.
  intros Hne. assert (joined ([] :: cs) = slashed cs) as E.
  { induction cs as [|c [|c' cs] IH]; [done|unfold slashed; simpl; by rewrite app_nil_r|]. change (SLASH :: c ++ joined ([] :: c' :: cs) = SLASH :: c ++ slashed (c' :: cs)). by rewrite IH. }
  unfold absolute, path_text. rewrite E. destruct cs as [|c cs]; [done|]. by rewrite bool_decide_eq_false_2 by done.
Qed.

Lemma slashed_app s u : slashed (s ++ u) = slashed s ++ slashed u.
Proof. unfold slashed. by rewrite fmap_app, concat_app. Qed.

(** A text that ends a component. *)
Definition ends_component (r : list Z) : Prop := r = [] \/ exists r', r = SLASH :: r'.

Lemma slashed_ends cs r : ends_component r -> ends_component (slashed cs ++ r).
Proof. intros Hr. destruct cs as [|c cs]; [done|]. right. by eexists. Qed.

Lemma plain_split c : forall c' r r', plain c -> plain c' -> ends_component r -> ends_component r' -> c ++ r = c' ++ r' -> c = c' /\ r = r'.
Proof.
  induction c as [|x c IH]; intros [|y c'] r r' Hc Hc' Hr Hr' E; simpl in E.
  - done.
  - apply Forall_cons in Hc' as [Hy _]. destruct Hr as [->|[r0 ->]]; [done|]. by injection E as <-.
  - apply Forall_cons in Hc as [Hx _]. destruct Hr' as [->|[r0 ->]]; [done|]. by injection E as ->.
  - injection E as -> E. apply Forall_cons in Hc as [_ Hc]. apply Forall_cons in Hc' as [_ Hc']. by destruct (IH c' r r') as [-> ->].
Qed.

Lemma slashed_prefix s : forall t r, Forall name s -> Forall name t -> ends_component r -> slashed t = slashed s ++ r -> s `prefix_of` t.
Proof.
  induction s as [|c s IH]; intros t r Hs Ht Hr E; [apply prefix_nil|]. destruct t as [|c' t]; [done|].
  apply Forall_cons in Hs as [Hc Hs]. apply Forall_cons in Ht as [Hc' Ht]. change (SLASH :: c' ++ slashed t = SLASH :: (c ++ slashed s) ++ r) in E. injection E as E.
  rewrite <- app_assoc in E. rewrite <- (app_nil_r (slashed t)) in E. apply plain_split in E as [-> E]; [|apply Hc'|apply Hc|apply slashed_ends; by left|by apply slashed_ends].
  rewrite app_nil_r in E. apply prefix_cons. by apply (IH t r).
Qed.

Lemma slashed_long cs : cs ≠ [] -> Forall name cs -> (2 <= length (slashed cs))%nat.
Proof.
  intros Hne Hn. destruct cs as [|c cs]; [done|]. apply Forall_cons in Hn as [(_ & Hc & _) _]. change (slashed (c :: cs)) with (SLASH :: c ++ slashed cs).
  simpl. rewrite length_app. destruct c; [done|]. simpl. lia.
Qed.

(** A mount point covers a path if its components begin it. *)
Lemma covers_components s t : Forall name s -> Forall name t -> covers (absolute s) (absolute t) = bool_decide (s `prefix_of` t).
Proof.
  intros Hs Ht. destruct (decide (s = [])) as [->|Hne].
  - rewrite (bool_decide_eq_true_2 ([] `prefix_of` t)) by apply prefix_nil. unfold covers. change (absolute []) with [SLASH]. simpl. rewrite andb_true_r.
    apply bool_decide_eq_true_2. destruct (decide (t = [])) as [->|Hnt]; [done|]. rewrite absolute_slashed by done. destruct t as [|c t]; [done|]. by eexists.
  - rewrite (absolute_slashed s) by done. pose proof (slashed_long s Hne Hs) as Hlong. unfold covers. rewrite (proj2 (Nat.ltb_lt _ _)) by lia. simpl.
    apply eq_true_iff_eq. rewrite andb_true_iff, negb_true_iff, andb_false_iff, negb_false_iff, !bool_decide_eq_true, Nat.ltb_ge. split.
    + intros [[r E] Hr]. destruct (decide (t = [])) as [->|Hnt]; [change (absolute []) with [SLASH] in E; apply (f_equal length) in E; rewrite length_app in E; simpl in E; lia|].
      rewrite absolute_slashed in * by done. apply (slashed_prefix s t r); try done. rewrite E in Hr. destruct r as [|x r]; [by left|]. right.
      rewrite length_app in Hr. simpl in Hr. destruct Hr as [Hr|Hr]; [lia|]. rewrite lookup_app_r, Nat.sub_diag in Hr by done. injection Hr as ->. by eexists.
    + intros [u ->]. rewrite absolute_slashed by (by destruct s). rewrite slashed_app. split; [by eexists|]. rewrite length_app, lookup_app_r, Nat.sub_diag by done.
      destruct u as [|c u]; [left; simpl; lia|by right].
Qed.

Lemma absolute_longer s u : Forall name (s ++ u) -> u ≠ [] -> (length (absolute s) < length (absolute (s ++ u)))%nat.
Proof.
  intros Hn Hu. rewrite (absolute_slashed (s ++ u)) by (by destruct s). destruct (decide (s = [])) as [->|Hs].
  - pose proof (slashed_long u Hu Hn). change (length (absolute [])) with 1%nat. simpl. lia.
  - rewrite absolute_slashed, slashed_app, length_app by done. apply Forall_app in Hn as [_ Hn]. pose proof (slashed_long u Hu Hn). lia.
Qed.

(** Of two beginnings of a path the shorter text is a beginning of the longer. *)
Lemma absolute_prefix s t cs :
  Forall name cs -> s `prefix_of` cs -> t `prefix_of` cs -> (length (absolute s) <= length (absolute t))%nat -> s `prefix_of` t.
Proof.
  intros Hn Hs Ht Hl. destruct (prefix_weak_total s t cs Hs Ht) as [|[u ->]]; [done|]. destruct (decide (u = [])) as [->|Hu]; [by rewrite app_nil_r|].
  assert (length (absolute t) < length (absolute (t ++ u)))%nat; [|lia]. apply absolute_longer; [|done]. destruct Hs as [v ->]. by apply Forall_app in Hn as [? _].
Qed.

(** The file system at place [k] of the table with mount point [m]. *)
Definition mounted_with (tbl : list dfs_filesystem) (k : nat) (m : list Z) : Prop :=
  exists f p t, tbl !! k = Some f /\ fs_path f = Some p /\ fs_ops f = Some t /\ str_text p = m.

Lemma mounted_cons f tbl k m : mounted_with (f :: tbl) (S k) m <-> mounted_with tbl k m.
Proof. done. Qed.

(** The longest mount point that covers the path, and of equal ones the last. *)
Lemma lookup_best path tbl : forall i fs n,
  let r := lookup_loop path i tbl fs n in
  r = fs /\ (forall j m, mounted_with tbl j m -> covers m path = true -> (length m < n)%nat) \/
  exists j m, r = Some (i + j)%nat /\ mounted_with tbl j m /\ covers m path = true /\ (n <= length m)%nat /\
    forall j' m', mounted_with tbl j' m' -> covers m' path = true -> (length m' <= length m)%nat /\ (length m' = length m -> (j' <= j)%nat).
Proof.
  induction tbl as [|f tbl IH]; intros i fs n; cbv zeta; cbn [lookup_loop].
  { left. split; [done|]. by intros j m (f & p & t & Hf & _). }
  (* The entry in front is not taken. *)
  assert ((forall m, mounted_with (f :: tbl) 0 m -> covers m path = true -> (length m < n)%nat) ->
    lookup_loop path (S i) tbl fs n = fs /\ (forall j m, mounted_with (f :: tbl) j m -> covers m path = true -> (length m < n)%nat) \/
    exists j m, lookup_loop path (S i) tbl fs n = Some (i + j)%nat /\ mounted_with (f :: tbl) j m /\ covers m path = true /\ (n <= length m)%nat /\
      forall j' m', mounted_with (f :: tbl) j' m' -> covers m' path = true -> (length m' <= length m)%nat /\ (length m' = length m -> (j' <= j)%nat)) as Hskip.
  { intros H0. destruct (IH (S i) fs n) as [(-> & Hall)|(j & m & -> & Hm & Hc & Hn & Hall)].
    - left. split; [done|]. intros [|j] m Hm; [by apply H0|by apply (Hall j)].
    - right. exists (S j), m. split_and!; [f_equal; lia|done|done|done|]. intros [|j'] m' Hm' Hc'; [specialize (H0 m' Hm' Hc'); lia|]. destruct (Hall j' m' Hm' Hc'). split; lia. }
  destruct (fs_path f) as [p|] eqn:Ep; [|apply Hskip; intros m (f0 & p & t & [= <-] & Hp & _); congruence].
  destruct (fs_ops f) as [t|] eqn:Et; [|apply Hskip; intros m (f0 & p0 & t & [= <-] & _ & Ht & _); congruence].
  destruct ((length (str_text p) <? n)%nat || negb (covers (str_text p) path)) eqn:Eb.
  - apply Hskip. intros m (f0 & p0 & t0 & [= <-] & Hp & _ & <-) Hc. rewrite Ep in Hp. injection Hp as <-. rewrite Hc, orb_false_r in Eb. by apply Nat.ltb_lt.
  - apply orb_false_iff in Eb as [Hlen Hc]. apply Nat.ltb_ge in Hlen. apply negb_false_iff in Hc.
    assert (mounted_with (f :: tbl) 0 (str_text p)) as H0 by (by exists f, p, t). right.
    destruct (IH (S i) (Some i) (length (str_text p))) as [(-> & Hall)|(j & m & -> & Hm & Hc' & Hn & Hall)].
    + exists 0%nat, (str_text p). split_and!; [f_equal; lia|done|done|done|]. intros [|j'] m' Hm' Hc'.
      * destruct Hm' as (f0 & p0 & t0 & [= <-] & Hp & _ & <-). rewrite Ep in Hp. injection Hp as <-. lia.
      * specialize (Hall j' m' Hm' Hc'). lia.
    + exists (S j), m. split_and!; [f_equal; lia|done|done|lia|]. intros [|j'] m' Hm' Hc''.
      * destruct Hm' as (f0 & p0 & t0 & [= <-] & Hp & _ & <-). rewrite Ep in Hp. injection Hp as <-. lia.
      * destruct (Hall j' m' Hm' Hc''). split; lia.
Qed.

(** Every mounted file system has a canonical absolute path. *)
Definition mounts_ok (tbl : list dfs_filesystem) : Prop := forall k m, mounted_with tbl k m -> exists cs, m = absolute cs /\ Forall name cs.

Lemma absolute_inj s t : Forall name s -> Forall name t -> absolute s = absolute t -> s = t.
Proof.
  intros Hs Ht E. assert (covers (absolute s) (absolute t) = true /\ covers (absolute t) (absolute s) = true) as [H1 H2].
  { rewrite E. split; rewrite covers_components by done; by apply bool_decide_eq_true_2. }
  rewrite covers_components in H1, H2 by done. apply bool_decide_eq_true in H1, H2. by apply (anti_symm prefix).
Qed.

(** C23: a path belongs to the file system with the longest mount point that is a
    beginning of it by whole components, and of several with that mount point to the
    one in the last place; without such a mount point to none.  Tables and lock are as
    before. *)
Theorem dfs_filesystem_lookup_correct {H} (st : dfs_state H) cs :
  mounts_ok (de_fs st.2) -> Forall name cs ->
  exists r, dfs_filesystem_lookup (absolute cs) st = Ok r st /\
    match r with
    | None => forall j ms, mounted_with (de_fs st.2) j (absolute ms) -> Forall name ms -> ~ ms `prefix_of` cs
    | Some k => exists ms, mounted_with (de_fs st.2) k (absolute ms) /\ Forall name ms /\ ms `prefix_of` cs /\
        forall j ms', mounted_with (de_fs st.2) j (absolute ms') -> Forall name ms' -> ms' `prefix_of` cs ->
          ms' `prefix_of` ms /\ (ms' = ms -> (j <= k)%nat)
    end.
Proof.
  destruct st as [fds e]. cbn [snd]. intros Hm Hn. exists (lookup_loop (absolute cs) 0 (de_fs e) None 0). split; [apply run_lookup|].
  destruct (lookup_best (absolute cs) (de_fs e) 0 None 0) as [(-> & Hall)|(k & m & -> & Hk & Hc & _ & Hall)].
  - intros j ms Hj Hms Hp. enough (length (absolute ms) < 0)%nat by lia. apply (Hall j); [done|]. rewrite covers_components by done. by apply bool_decide_eq_true.
  - destruct (Hm _ _ Hk) as (ms & -> & Hms). rewrite covers_components in Hc by done. apply bool_decide_eq_true in Hc. exists ms. split_and!; try done.
    intros j ms' Hj Hms' Hp. destruct (Hall j (absolute ms')) as [Hle Heq]; [done|rewrite covers_components by done; by apply bool_decide_eq_true|]. split.
    + by apply (absolute_prefix ms' ms cs).
    + intros ->. by apply Heq.
Qed.

Definition demo_fs (path : list Z) : dfs_filesystem := mk_fs None (Some (mk_str 0 path)) (Some 0%nat).

(** "/" and "/sd" are mounted; "/sd/a" belongs to the second. *)
Lemma dfs_filesystem_lookup_correct_witness :
  let st : dfs_state unit := (∅, mk_denv tt [demo_fs [47]; demo_fs [47; 115; 100]] [] [] 0 (∅, demo) []) in
  exists r, dfs_filesystem_lookup (absolute [[115; 100]; [97]]) st = Ok r st /\ r = Some 1%nat.
Proof.
  intros st. destruct (dfs_filesystem_lookup_correct st [[115; 100]; [97]]) as (r & E & _).
  - intros [|[|k]] m (f & p & t & Hf & Hp & _ & <-); [| |done]; injection Hf as <-; injection Hp as <-.
    + exists []. by split.
    + exists [[115; 100]]. split; [done|]. repeat constructor; done.
  - repeat constructor; done.
  - exists r. split; [exact E|]. assert (ret (dfs_filesystem_lookup (absolute [[115; 100]; [97]])) st = Some (Some 1%nat)) as F by (vm_compute; reflexivity).
    unfold ret in F. rewrite E in F. by injection F.
Defined.

(** ** The partition table *)

Definition le_bytes (v : Z) : list Z := [v mod 2 ^ 8; v / 2 ^ 8 mod 2 ^ 8; v / 2 ^ 16 mod 2 ^ 8; v / 2 ^ 24 mod 2 ^ 8].

(** An entry: bootable or not, the type, the first sector and their number. *)
Definition partition_entry (status type offset size : Z) (chs1 chs2 : Z * Z * Z) : list Z :=
  [status; chs1.1.1; chs1.1.2; chs1.2; type; chs2.1.1; chs2.1.2; chs2.2] ++ le_bytes offset ++ le_bytes size.

Lemma le_word v : 0 <= v < 2 ^ 32 ->
  Z.lor (Z.lor (Z.lor (v mod 2 ^ 8) (Z.shiftl (v / 2 ^ 8 mod 2 ^ 8) 8)) (Z.shiftl (v / 2 ^ 16 mod 2 ^ 8) 16)) (Z.shiftl (v / 2 ^ 24 mod 2 ^ 8) 24) = v.
Proof.
  intros Hv. rewrite (Z.lor_comm (v mod 2 ^ 8)), lor_shift by (try lia; apply Z.mod_pos_bound; lia). rewrite (Z.lor_comm _ (Z.shiftl _ 16)), lor_shift by (pose proof (Z.mod_pos_bound v (2 ^ 8)); pose proof (Z.mod_pos_bound (v / 2 ^ 8) (2 ^ 8)); lia).
  rewrite (Z.lor_comm _ (Z.shiftl _ 24)), lor_shift by (pose proof (Z.mod_pos_bound v (2 ^ 8)); pose proof (Z.mod_pos_bound (v / 2 ^ 8) (2 ^ 8)); pose proof (Z.mod_pos_bound (v / 2 ^ 16) (2 ^ 8)); lia).
  change (2 ^ 24) with (2 ^ 16 * 2 ^ 8). change (2 ^ 16) with (2 ^ 8 * 2 ^ 8). rewrite <- !Z.div_div by lia.
  set (q1 := v / 2 ^ 8). set (q2 := q1 / 2 ^ 8). pose proof (Z_div_mod_eq_full v (2 ^ 8)) as D1. pose proof (Z_div_mod_eq_full q1 (2 ^ 8)) as D2.
  pose proof (Z_div_mod_eq_full q2 (2 ^ 8)) as D3. fold q1 in D1. fold q2 in D2.
  rewrite (Z.mod_small (q2 / 2 ^ 8)); [lia|]. unfold q2, q1 in *. rewrite !Z.div_div by lia. split; [apply Z.div_pos; lia|apply Z.div_lt_upper_bound; lia].
Qed.

Lemma word_at_bytes buf byte a v :
  (forall i b, le_bytes v !! i = Some b -> byte (a + Z.of_nat i) buf = Ok b buf) -> 0 <= v < 2 ^ 32 -> word_at byte a buf = Ok v buf.
Proof.
  intros Hb Hv. unfold word_at. pose proof (Hb 0%nat _ eq_refl) as H0. rewrite Z.add_0_r in H0. run_step H0.
  run_step (Hb 1%nat _ eq_refl). run_step (Hb 2%nat _ eq_refl). run_step (Hb 3%nat _ eq_refl). unfold mret, M_ret. f_equal. by apply le_word.
Qed.

(** An entry of the table is read back: type, first sector and number of sectors. *)
Theorem partition_roundtrip pre post k status type offset size chs1 chs2 :
  length pre = (446 + 16 * k)%nat -> status = 0 \/ status = 0x80 -> type ≠ 0 -> 0 <= offset < 2 ^ 31 -> 0 <= size < 2 ^ 32 ->
  let buf := pre ++ partition_entry status type offset size chs1 chs2 ++ post in
  dfs_filesystem_get_partition (Z.of_nat k) buf = Ok (RT_EOK, Some (mk_part type offset size)) buf.
Proof.
  intros Hpre Hs Ht Ho Hz buf. unfold dfs_filesystem_get_partition. set (byte := fun a : Z => deref _). cbv zeta.
  assert (forall i b, partition_entry status type offset size chs1 chs2 !! i = Some b -> byte (DPT_ADDRESS + Z.of_nat k * DPT_ITEM_SIZE + Z.of_nat i) buf = Ok b buf) as Hb.
  { intros i b Hi. unfold byte. apply run_deref. unfold DPT_ADDRESS, DPT_ITEM_SIZE. rewrite (proj2 (Z.ltb_ge _ _)) by lia.
    replace (Z.to_nat _) with (length pre + i)%nat by lia. unfold buf. rewrite lookup_app_r by lia. replace (length pre + i - length pre)%nat with i by lia. by apply lookup_app_l_Some. }
  pose proof (Hb 0%nat _ eq_refl) as H0. rewrite Z.add_0_r in H0. run_step H0.
  replace (negb (status =? 0x80) && negb (status =? 0)) with false by (destruct Hs as [-> | ->]; done).
  run_step (Hb 4%nat _ eq_refl). rewrite (proj2 (Z.eqb_neq _ _)) by done.
  erewrite bind_Ok; [|apply (word_at_bytes _ _ _ offset)]; [| |lia].
  - erewrite bind_Ok; [|apply (word_at_bytes _ _ _ size); [|done]].
    + by rewrite s32_small, u32_small by lia.
    + intros i b Hi. rewrite <- Z.add_assoc. replace (12 + Z.of_nat i) with (Z.of_nat (12 + i)) by lia. by apply Hb.
  - intros i b Hi. rewrite <- Z.add_assoc. replace (8 + Z.of_nat i) with (Z.of_nat (8 + i)) by lia. apply Hb.
    change (partition_entry status type offset size chs1 chs2 !! (8 + i)%nat) with ((le_bytes offset ++ le_bytes size) !! i). by apply lookup_app_l_Some.
Qed.

Lemma partition_roundtrip_witness :
  let buf := replicate 446 0 ++ partition_entry 0x80 12 2048 100000 (1, 2, 3) (4, 5, 6) ++ replicate 50 0 in
  dfs_filesystem_get_partition 0 buf = Ok (RT_EOK, Some (mk_part 12 2048 100000)) buf.
Proof. apply (partition_roundtrip (replicate 446 0) (replicate 50 0) 0 0x80 12 2048 100000 (1, 2, 3) (4, 5, 6)); [reflexivity|by right|done|lia|lia]. Defined.
