(* ===== verification/DfsFile.v ===== *)
(** * Files and mounting: components/dfs/src/dfs_file.c and the mounting of dfs_fs.c

    The operations on a descriptor, on a path, and the mounting and unmounting of
    file systems, on the tables of [Dfs]. *)

From S2P Require Import Prelude KString Printf Kernel Object Scheduler Thread Device Mem Allocator Pipe PipeFile DfsPath Dfs.

Definition O_APPEND : Z := 8.
Definition F_GETFL : Z := 3.
Definition F_SETFL : Z := 4.

Section file.
Context {H : Type} (malloc : Z -> M H (option Z)) (free : option Z -> M H unit).
Context (fops : nat -> dfs_file_ops (dfs_state H)) (types : nat -> dfs_filesystem_ops (dfs_state H)) (ops : nat -> device_ops).

(** [fd->fops] *)
Definition fops_of (i : nat) : M (dfs_state H) (dfs_file_ops (dfs_state H)) :=
  d ← get_obj i; f ← deref (fun _ => fd_fops d); mret (fops f).

(** [rt_free(fd->path); fd->path = NULL;] *)
Definition drop_path (i : nat) : M (dfs_state H) unit :=
  d ← get_obj i; free_str free (fd_path d);; upd_obj i (set_path None).

(** ** Descriptors *)

(** The path below the mount point, or the whole path if the file system wants it. *)
Definition set_open_path (i k : nat) (full : cstr) : M (dfs_state H) unit :=
  o ← ops_of types k;
  if negb (has (o_flags o) DFS_FS_FLAG_FULLPATH) then
    mount ← path_of k;
    p ← dup malloc (default [SLASH] (subdir mount (str_text full)));
    upd_obj i (set_path p);;
    free_str free (Some full)
  else upd_obj i (set_path (Some full)).

(** From the call of the driver on. *)
Definition open_driver (i : nat) (flags : Z) : M (dfs_state H) Z :=
  f ← fops_of i;
  match f_open f with
  | None => drop_path i;; mret (- ENOSYS)
  | Some open =>
      result ← open i;
      if result <? 0 then drop_path i;; mret result
      else
        upd_obj i (fun d => set_flags (Z.lor (fd_flags d) DFS_F_OPEN) d);;
        when (has flags O_DIRECTORY)
          (upd_obj i (fun d => set_flags (Z.lor (fd_flags d) DFS_F_DIRECTORY) (set_type FT_DIRECTORY d)));;
        mret 0
  end.

(** Up to the call of the driver: the result of an early return, or [None] when the
    descriptor is filled and the driver is to open it. *)
Definition file_prepare (i : nat) (path : list Z) (flags : Z) : M (dfs_state H) (option Z) :=
  fullpath ← normalize malloc free None path;
  match fullpath with
  | None => mret (Some (- ENOMEM))
  | Some full =>
      r ← fd_is_open malloc free types (str_text full);
      if r =? 0 then free_str free fullpath;; mret (Some (- EBUSY))
      else
        fs ← dfs_filesystem_lookup (str_text full);
        match fs with
        | None => free_str free fullpath;; mret (Some (- ENOENT))
        | Some k =>
            o ← ops_of types k;
            upd_obj i (fun d => mk_fd (fd_magic d) FT_REGULAR (fd_path d) (fd_ref_count d) (Some (o_fops o)) flags 0 0 (Some (AFs k)));;
            set_open_path i k full;;
            mret None
        end
  end.

Definition dfs_file_open (fd : option nat) (path : list Z) (flags : Z) : M (dfs_state H) Z :=
  match fd with
  | None => mret (- EINVAL)
  | Some i =>
      refused ← file_prepare i path flags;
      match refused with
      | Some r => mret r
      | None => open_driver i flags
      end
  end.

Definition dfs_file_close (fd : option nat) : M (dfs_state H) Z :=
  match fd with
  | None => mret (- ENXIO)
  | Some i =>
      f ← fops_of i;
      result ← match f_close f with None => mret 0 | Some close => close i end;
      if result <? 0 then mret result
      else drop_path i;; mret result
  end.

(** The result; [args] is a number or an address of the caller. *)
Definition dfs_file_ioctl (fd : option nat) (cmd args : Z) : M (dfs_state H) Z :=
  match fd with
  | None => mret (- EINVAL)
  | Some i =>
      d ← get_obj i;
      if (fd_type d =? FT_REGULAR) && (cmd =? F_GETFL) then mret (s32 (fd_flags d))
      else if (fd_type d =? FT_REGULAR) && (cmd =? F_SETFL) then
        let mask := Z.lor O_NONBLOCK O_APPEND in
        upd_obj i (fun d => set_flags (Z.lor (Z.land (fd_flags d) mask) (Z.land args mask)) d);;
        mret 0
      else
        f ← fops_of i;
        match f_ioctl f with None => mret (- ENOSYS) | Some ioctl => ioctl i cmd args end
  end.

Definition dfs_file_read (fd : option nat) (len : Z) : M (dfs_state H) (Z * list Z) :=
  match fd with
  | None => mret (- EINVAL, [])
  | Some i =>
      f ← fops_of i;
      match f_read f with
      | None => mret (- ENOSYS, [])
      | Some read =>
          result ← read i len;
          when (result.1 <? 0) (upd_obj i (fun d => set_flags (Z.lor (fd_flags d) DFS_F_EOF) d));;
          mret result
      end
  end.

Definition dfs_file_getdents (fd : option nat) (nbytes : Z) : M (dfs_state H) (Z * list dirent) :=
  match fd with
  | None => mret (- EINVAL, [])
  | Some i =>
      d ← get_obj i;
      if negb (fd_type d =? FT_DIRECTORY) then mret (- EINVAL, [])
      else
        f ← fops_of i;
        match f_getdents f with None => mret (- ENOSYS, []) | Some getdents => getdents i nbytes end
  end.

Definition dfs_file_write (fd : option nat) (buf : list Z) (len : Z) : M (dfs_state H) Z :=
  match fd with
  | None => mret (- EINVAL)
  | Some i => f ← fops_of i; match f_write f with None => mret (- ENOSYS) | Some write => write i buf len end
  end.

Definition dfs_file_flush (fd : option nat) : M (dfs_state H) Z :=
  match fd with
  | None => mret (- EINVAL)
  | Some i => f ← fops_of i; match f_flush f with None => mret (- ENOSYS) | Some flush => flush i end
  end.

Definition dfs_file_lseek (fd : option nat) (offset : Z) : M (dfs_state H) Z :=
  match fd with
  | None => mret (- EINVAL)
  | Some i =>
      f ← fops_of i;
      match f_lseek f with
      | None => mret (- ENOSYS)
      | Some lseek =>
          result ← lseek i offset;
          when (0 <=? result) (upd_obj i (set_pos result));;
          mret result
      end
  end.

(** ** Paths *)

(** The path that the functions of file system [k] get. *)
Definition driver_path (o : dfs_filesystem_ops (dfs_state H)) (mount full : list Z) : option (list Z) :=
  if negb (has (o_flags o) DFS_FS_FLAG_FULLPATH) then subdir mount full else Some full.

Definition dfs_file_unlink (path : list Z) : M (dfs_state H) Z :=
  fullpath ← normalize malloc free None path;
  match fullpath with
  | None => mret (- EINVAL)
  | Some full =>
      fs ← dfs_filesystem_lookup (str_text full);
      result ← match fs with
               | None => mret (- ENOENT)
               | Some k =>
                   r ← fd_is_open malloc free types (str_text full);
                   if r =? 0 then mret (- EBUSY)
                   else
                     o ← ops_of types k;
                     mount ← path_of k;
                     match o_unlink o with
                     | None => mret (- ENOSYS)
                     | Some unlink => unlink k (default [SLASH] (driver_path o mount (str_text full)))
                     end
               end;
      free_str free fullpath;;
      mret result
  end.

Definition S_root_mode : Z := 0x41ff.

(** The result, and the structure if it was filled. *)
Definition dfs_file_stat (path : list Z) : M (dfs_state H) (Z * option stat) :=
  fullpath ← normalize malloc free None path;
  match fullpath with
  | None => mret (-1, None)
  | Some full =>
      fs ← dfs_filesystem_lookup (str_text full);
      match fs with
      | None => free_str free fullpath;; mret (- ENOENT, None)
      | Some k =>
          mount ← path_of k;
          if bool_decide (str_text full = [SLASH]) || bool_decide (subdir mount (str_text full) = None) then
            free_str free fullpath;; mret (RT_EOK, Some (mk_stat 0 S_root_mode 0 0))
          else
            o ← ops_of types k;
            match o_stat o with
            | None => free_str free fullpath;; mret (- ENOSYS, None)
            | Some f =>
                p ← deref (fun _ => driver_path o mount (str_text full));
                result ← f k p;
                free_str free fullpath;;
                mret (result.1, Some result.2)
            end
      end
  end.

Definition dfs_file_rename (oldpath newpath : list Z) : M (dfs_state H) Z :=
  oldfull ← normalize malloc free None oldpath;
  match oldfull with
  | None => free_str free None;; free_str free None;; mret (- ENOENT)
  | Some old =>
      newfull ← normalize malloc free None newpath;
      match newfull with
      | None => free_str free oldfull;; free_str free None;; mret (- ENOENT)
      | Some new =>
          oldfs ← dfs_filesystem_lookup (str_text old);
          newfs ← dfs_filesystem_lookup (str_text new);
          result ← (if bool_decide (oldfs = newfs) then
                      k ← deref (fun _ => oldfs);
                      o ← ops_of types k;
                      mount ← path_of k;
                      match o_rename o with
                      | None => mret (- ENOSYS)
                      | Some f => f k (driver_path o mount (str_text old)) (driver_path o mount (str_text new))
                      end
                    else mret (- EXDEV));
          free_str free oldfull;; free_str free newfull;;
          mret result
      end
  end.

(** ** Mounting *)

(** The [for] loop of [dfs_mount] from place [i] on: the first free place, and
    whether [path] is mounted. *)
Fixpoint mount_loop (path : list Z) (i : nat) (tbl : list dfs_filesystem) (fs : option nat) : M (dfs_state H) (option nat * bool) :=
  match tbl with
  | [] => mret (fs, false)
  | iter :: tbl =>
      match fs_ops iter with
      | None => mount_loop path (S i) tbl (match fs with None => Some i | _ => fs end)
      | Some _ =>
          p ← deref (fun _ => fs_path iter);
          if bool_decide (str_text p = path) then mret (fs, true) else mount_loop path (S i) tbl fs
      end
  end.

(** The label [err1]. *)
Definition mount_err1 (full : cstr) : M (dfs_state H) Z := dfs_unlock;; free_str free (Some full);; mret (-1).

(** From the entry in the table on. *)
Definition mount_at (k t : nat) (full : cstr) (dev_id : option nat) (rwflag : Z) : M (dfs_state H) Z :=
  upd_fs (<[k := mk_fs dev_id (Some full) (Some t)]>);;
  dfs_unlock;;
  opened ← match dev_id with
           | None => mret RT_EOK
           | Some dev => on_ddev (rt_device_open ops dev RT_DEVICE_OFLAG_RDWR)
           end;
  if negb (opened =? RT_EOK) then dfs_lock;; upd_fs (<[k := cleared_fs]>);; mount_err1 full
  else
    mount ← deref (fun _ => o_mount (types t));
    result ← mount k rwflag;
    if result <? 0 then
      match dev_id with None => mret tt | Some dev => on_ddev (rt_device_close ops dev);; mret tt end;;
      dfs_lock;; upd_fs (<[k := cleared_fs]>);; mount_err1 full
    else mret 0.

(** The test that the directory exists; [v] is the number of the variable [fd], [junk]
    what it holds. *)
Definition mount_dir_exists (v : nat) (junk : dfs_fd) (full : list Z) : M (dfs_state H) bool :=
  if bool_decide (full = [SLASH]) || bool_decide (full = [SLASH; 100; 101; 118]) then mret true
  else
    put_obj v junk;;
    r ← dfs_file_open (Some v) full (Z.lor O_RDONLY O_DIRECTORY);
    (if r <? 0 then mret tt else dfs_file_close (Some v);; mret tt);;
    del_obj v;;
    mret (negb (r <? 0)).

Definition dfs_mount (v : nat) (junk : dfs_fd) (device_name : option (list Z)) (path filesystemtype : list Z) (rwflag : Z) : M (dfs_state H) Z :=
  dev ← match device_name with
        | None => mret (Some None)
        | Some n => d ← on_ddev (rt_device_find n); mret (Some <$> d)
        end;
  match dev with
  | None => set_errno (- ENODEV);; mret (-1)
  | Some dev_id =>
      dfs_lock;;
      tbl ← gets (fun st => de_types st.2);
      dfs_unlock;;
      match i ← find_type types filesystemtype tbl; mjoin (tbl !! i) with
      | None => set_errno (- ENODEV);; mret (-1)
      | Some t =>
          if bool_decide (o_mount (types t) = None) then set_errno (- ENOSYS);; mret (-1)
          else
            fullpath ← normalize malloc free None path;
            match fullpath with
            | None => set_errno (- ENOTDIR);; mret (-1)
            | Some full =>
                exists_ ← mount_dir_exists v junk (str_text full);
                if negb exists_ then free_str free fullpath;; set_errno (- ENOTDIR);; mret (-1)
                else
                  dfs_lock;;
                  tbl ← gets (fun st => de_fs st.2);
                  r ← mount_loop path 0 tbl None;
                  if r.2 : bool then set_errno (- EINVAL);; mount_err1 full
                  else match r.1 with
                       | None => set_errno (- ENOSPC);; mount_err1 full
                       | Some k => mount_at k t full dev_id rwflag
                       end
            end
      end
  end.

(** The place of the file system that is mounted at [path]. *)
Definition mounted_at (path : list Z) (tbl : list dfs_filesystem) : option nat :=
  fst <$> list_find (fun fs => fs_path fs ≫= (fun p => Some (str_text p)) = Some path) tbl.

Definition dfs_unmount (specialfile : list Z) : M (dfs_state H) Z :=
  fullpath ← normalize malloc free None specialfile;
  match fullpath with
  | None => set_errno (- ENOTDIR);; mret (-1)
  | Some full =>
      dfs_lock;;
      tbl ← gets (fun st => de_fs st.2);
      let err1 := dfs_unlock;; free_str free fullpath;; mret (-1) in
      match mounted_at (str_text full) tbl with
      | None => err1
      | Some k =>
          o ← ops_of types k;
          match o_unmount o with
          | None => err1
          | Some unmount =>
              result ← unmount k;
              if result <? 0 then err1
              else
                fs ← get_fs k;
                match fs_dev_id fs with None => mret tt | Some dev => on_ddev (rt_device_close ops dev);; mret tt end;;
                match fs_path fs with None => mret tt | Some p => free_str free (Some p) end;;
                upd_fs (<[k := cleared_fs]>);;
                dfs_unlock;;
                free_str free fullpath;;
                mret 0
          end
      end
  end.
End file.
