(* ===== verification/DfsPosix.v ===== *)
(** * The interface of POSIX: components/dfs/src/dfs_posix.c

    Every call finds its descriptor with [fd_get], which counts it, and gives it back
    with [fd_put].  The theorems say that the calls keep the table of descriptors and
    the heap in order whatever the drivers answer, up to an [open] without memory for the
    path, which calls the driver with a null one. *)

From S2P Require Import Prelude KString Printf Kernel Object Scheduler Thread KInv ThreadSpec Ipc Device Mem MemSpec Allocator Pipe PipeFile DfsPath Dfs DfsFile.

Definition DFS_PATH_MAX : nat := 256.
Definition O_CREAT : Z := 0x200.
Definition SEEK_SET : Z := 0.
Definition SEEK_CUR : Z := 1.
Definition SEEK_END : Z := 2.
Definition S_file_mode : Z := 0x81b6.
Definition S_dir_mode : Z := 0x41ff.
Definition sizeof_dirent : Z := 260.
Definition sizeof_DIR : Z := 524.
Definition DIR_buf_size : Z := 512.

(** [DIR]; the bytes of [buf] as the entries in them. *)
Record DIR := mk_dir { dir_addr : Z; dir_fd : Z; dir_buf : list dirent; dir_num : Z; dir_cur : Z }.

Section posix.
Context {H : Type} (malloc : Z -> M H (option Z)) (free : option Z -> M H unit).
Context (fops : nat -> dfs_file_ops (dfs_state H)) (types : nat -> dfs_filesystem_ops (dfs_state H)).

(** [rt_set_errno(result); return -1;] *)
Definition fail_errno (e : Z) : M (dfs_state H) Z := set_errno e;; mret (-1).

Definition open (file : list Z) (flags : Z) : M (dfs_state H) Z :=
  fd ← fd_new;
  if fd <? 0 then fail_errno (- ENOMEM)
  else
    d ← fd_get fd;
    result ← dfs_file_open malloc free fops types d file flags;
    if result <? 0 then fd_put d;; fd_put d;; fail_errno result
    else fd_put d;; mret fd.

Definition close (fd : Z) : M (dfs_state H) Z :=
  d ← fd_get fd;
  match d with
  | None => fail_errno (- EBADF)
  | Some _ =>
      result ← dfs_file_close free fops d;
      fd_put d;;
      if result <? 0 then fail_errno result else fd_put d;; mret 0
  end.

Definition read (fd len : Z) : M (dfs_state H) (Z * list Z) :=
  d ← fd_get fd;
  match d with
  | None => r ← fail_errno (- EBADF); mret (r, [])
  | Some _ =>
      result ← dfs_file_read fops d len;
      if result.1 <? 0 then fd_put d;; r ← fail_errno result.1; mret (r, result.2)
      else fd_put d;; mret result
  end.

Definition write (fd : Z) (buf : list Z) (len : Z) : M (dfs_state H) Z :=
  d ← fd_get fd;
  match d with
  | None => fail_errno (- EBADF)
  | Some _ =>
      result ← dfs_file_write fops d buf len;
      if result <? 0 then fd_put d;; fail_errno result else fd_put d;; mret result
  end.

Definition lseek (fd offset whence : Z) : M (dfs_state H) Z :=
  d ← fd_get fd;
  match d with
  | None => fail_errno (- EBADF)
  | Some i =>
      e ← get_obj i;
      let target :=
        if whence =? SEEK_SET then Some offset
        else if whence =? SEEK_CUR then Some (s32 (offset + fd_pos e))
        else if whence =? SEEK_END then Some (s32 (offset + fd_size e))
        else None in
      match target with
      | None => fd_put d;; fail_errno (- EINVAL)
      | Some offset =>
          if offset <? 0 then fd_put d;; fail_errno (- EINVAL)
          else
            result ← dfs_file_lseek fops d offset;
            if result <? 0 then fd_put d;; fail_errno result else fd_put d;; mret offset
      end
  end.

Definition rename (old new : list Z) : M (dfs_state H) Z :=
  result ← dfs_file_rename malloc free types old new; if result <? 0 then fail_errno result else mret 0.

Definition unlink (pathname : list Z) : M (dfs_state H) Z :=
  result ← dfs_file_unlink malloc free types pathname; if result <? 0 then fail_errno result else mret 0.
Definition rmdir (pathname : list Z) : M (dfs_state H) Z :=
  result ← dfs_file_unlink malloc free types pathname; if result <? 0 then fail_errno result else mret 0.

Definition stat_ (file : list Z) : M (dfs_state H) (Z * option stat) :=
  result ← dfs_file_stat malloc free types file;
  if result.1 <? 0 then r ← fail_errno result.1; mret (r, result.2) else mret result.

Definition fstat (fildes : Z) : M (dfs_state H) (Z * option stat) :=
  d ← fd_get fildes;
  match d with
  | None => r ← fail_errno (- EBADF); mret (r, None)
  | Some i =>
      e ← get_obj i;
      let buf := mk_stat 0 (if fd_type e =? FT_DIRECTORY then S_dir_mode else S_file_mode) (fd_size e) 0 in
      fd_put d;;
      mret (RT_EOK, Some buf)
  end.

Definition fsync (fildes : Z) : M (dfs_state H) Z :=
  d ← fd_get fildes;
  match d with
  | None => fail_errno (- EBADF)
  | Some _ => ret ← dfs_file_flush fops d; fd_put d;; mret ret
  end.

Definition fcntl (fildes cmd arg : Z) : M (dfs_state H) Z :=
  d ← fd_get fildes;
  ret ← match d with
        | Some _ => ret ← dfs_file_ioctl fops d cmd arg; fd_put d;; mret ret
        | None => mret (- EBADF)
        end;
  when (negb (ret =? 0)) (set_errno ret);;
  mret 0.
Definition ioctl (fildes cmd arg : Z) : M (dfs_state H) Z := fcntl fildes cmd arg.

Definition statfs_ (path : list Z) : M (dfs_state H) (Z * option statfs) :=
  result ← dfs_statfs types path;
  if result.1 <? 0 then r ← fail_errno result.1; mret (r, result.2) else mret result.

Definition mkdir (path : list Z) : M (dfs_state H) Z :=
  fd ← fd_new;
  if fd =? -1 then fail_errno (- ENOMEM)
  else
    d ← fd_get fd;
    result ← dfs_file_open malloc free fops types d path (Z.lor O_DIRECTORY O_CREAT);
    if result <? 0 then fd_put d;; fd_put d;; fail_errno result
    else dfs_file_close free fops d;; fd_put d;; fd_put d;; mret 0.

Definition opendir (name : list Z) : M (dfs_state H) (option DIR) :=
  fd ← fd_new;
  if fd =? -1 then set_errno (- ENOMEM);; mret None
  else
    d ← fd_get fd;
    result ← dfs_file_open malloc free fops types d name (Z.lor O_RDONLY O_DIRECTORY);
    if 0 <=? result then
      t ← on_dheap (malloc sizeof_DIR);
      match t with
      | None => dfs_file_close free fops d;; fd_put d;; fd_put d;; mret None
      | Some a => fd_put d;; mret (Some (mk_dir a fd [] 0 0))
      end
    else fd_put d;; fd_put d;; set_errno result;; mret None.

(** The entry at offset [cur] of the buffer. *)
Definition entry_at (buf : list dirent) (cur : Z) : option dirent :=
  if cur mod sizeof_dirent =? 0 then buf !! Z.to_nat (cur / sizeof_dirent) else None.

Definition readdir (d : DIR) : M (dfs_state H) (option dirent * DIR) :=
  fd ← fd_get (dir_fd d);
  match fd with
  | None => set_errno (- EBADF);; mret (None, d)
  | Some _ =>
      cur ← (if negb (dir_num d =? 0) then e ← deref (fun _ => entry_at (dir_buf d) (dir_cur d)); mret (dir_cur d + d_reclen e)
             else mret (dir_cur d));
      let d := mk_dir (dir_addr d) (dir_fd d) (dir_buf d) (dir_num d) cur in
      if (dir_num d =? 0) || (dir_num d <=? cur) then
        result ← dfs_file_getdents fops fd (DIR_buf_size - 1);
        if result.1 <=? 0 then fd_put fd;; set_errno result.1;; mret (None, d)
        else
          let d := mk_dir (dir_addr d) (dir_fd d) result.2 result.1 0 in
          fd_put fd;;
          e ← deref (fun _ => entry_at (dir_buf d) 0);
          mret (Some e, d)
      else
        fd_put fd;;
        e ← deref (fun _ => entry_at (dir_buf d) cur);
        mret (Some e, d)
  end.

Definition telldir (d : DIR) : M (dfs_state H) Z :=
  fd ← fd_get (dir_fd d);
  match fd with
  | None => set_errno (- EBADF);; mret 0
  | Some i => e ← get_obj i; fd_put fd;; mret (fd_pos e - dir_num d + dir_cur d)
  end.

Definition seekdir (d : DIR) (offset : Z) : M (dfs_state H) DIR :=
  fd ← fd_get (dir_fd d);
  match fd with
  | None => set_errno (- EBADF);; mret d
  | Some _ =>
      r ← dfs_file_lseek fops fd offset;
      fd_put fd;;
      mret (if 0 <=? r then mk_dir (dir_addr d) (dir_fd d) (dir_buf d) 0 0 else d)
  end.
Definition rewinddir (d : DIR) : M (dfs_state H) DIR := seekdir d 0.

Definition closedir (d : DIR) : M (dfs_state H) Z :=
  fd ← fd_get (dir_fd d);
  match fd with
  | None => fail_errno (- EBADF)
  | Some _ =>
      result ← dfs_file_close free fops fd;
      fd_put fd;;
      fd_put fd;;
      on_dheap (free (Some (dir_addr d)));;
      if result <? 0 then fail_errno result else mret 0
  end.

(** A path is given; [strncpy] of at most [DFS_PATH_MAX] bytes. *)
Definition chdir (path : list Z) : M (dfs_state H) Z :=
  if (DFS_PATH_MAX <? length path)%nat then fail_errno (- ENOTDIR)
  else
    fullpath ← normalize malloc free None path;
    match fullpath with
    | None => fail_errno (- ENOTDIR)
    | Some full =>
        dfs_lock;;
        d ← opendir (str_text full);
        match d with
        | None => free_str free fullpath;; dfs_unlock;; mret (-1)
        | Some d =>
            closedir d;;
            upd_wd (fun _ => take DFS_PATH_MAX (str_text full));;
            free_str free fullpath;;
            dfs_unlock;;
            mret 0
        end
    end.

Definition access (path : list Z) : M (dfs_state H) Z :=
  r ← stat_ path; mret (if r.1 <? 0 then -1 else 0).

(** The [size] bytes at [buf] behind [strncpy]. *)
Definition getcwd (size : nat) : M (dfs_state H) (list Z) :=
  on_ddev (on_snd rt_enter_critical);;
  wd ← gets (fun st => de_wd st.2);
  on_ddev (on_snd rt_exit_critical);;
  mret (take size (wd ++ replicate size 0)).
End posix.

(** ** What is true between two calls *)

(** A null pointer may be freed. *)
Class FreesNull {S : Type} (free : option Z -> M S unit) : Prop := free_null : forall s, free None s = Ok tt s.

#[global] Instance small_mem_frees_null : FreesNull rt_free.
Proof. done. Qed.

(** A descriptor that is open. *)
Definition opened_fd (n : Z) (d : dfs_fd) : Prop :=
  fd_magic d = DFS_FD_MAGIC /\ fd_ref_count d = n /\ is_Some (fd_fops d) /\ is_Some (fd_path d).
Definition resting (d : dfs_fd) : Prop := d = cleared_fd \/ opened_fd 1 d.

(** A descriptor that was just handed out. *)
Definition new_fd (n : Z) : dfs_fd := mk_fd DFS_FD_MAGIC 0 None n None 0 0 0 None.

(** The current thread can take an error number. *)
Definition errno_ok (s : kstate) : Prop := forall t, k_current s = Some t -> is_Some (k_threads s !! t).

Section contract.
Context {H : Type} (malloc : Z -> M H (option Z)) (free : option Z -> M H unit) (owns : H -> list (Z * Z) -> Prop).
Context (fops : nat -> dfs_file_ops (dfs_state H)) (types : nat -> dfs_filesystem_ops (dfs_state H)).

(** The allocations are [mine] and what the drivers hold. *)
Definition held (mine : list (Z * Z)) (e : dfs_env H) : Prop := exists l pr, owns (de_heap e) l /\ l ≡ₚ mine ++ pr /\ pr.*1 = de_priv e.

(** The environment behind a function of a driver: tables, lock and [mine] are as
    before; the driver may have allocated and freed memory of its own. *)
Record env_frame (mine : list (Z * Z)) (e e' : dfs_env H) : Prop := {
  ef_held : held mine e';
  ef_fs : de_fs e' = de_fs e;
  ef_types : de_types e' = de_types e;
  ef_wd : de_wd e' = de_wd e;
  ef_lock : de_lock e' = de_lock e;
  ef_errno : errno_ok (de_dev e).2 -> errno_ok (de_dev e').2
}.

(** What a function on descriptor [i] may change of it: flags, size, position, data,
    and the functions themselves. *)
Definition same_fd (d d' : dfs_fd) : Prop :=
  fd_magic d' = fd_magic d /\ fd_ref_count d' = fd_ref_count d /\ fd_path d' = fd_path d /\ is_Some (fd_fops d').

(** A function of a driver on descriptor [i], which has a path. *)
Definition fd_call {A} (i : nat) (x : M (dfs_state H) A) : Prop :=
  forall mine fds e d, held mine e -> fds !! i = Some d -> is_Some (fd_fops d) -> is_Some (fd_path d) ->
  wp x (fun _ st' => exists d', st'.1 = <[i := d']> fds /\ same_fd d d' /\ env_frame mine e st'.2) (fds, e).

Definition fs_call {A} (x : M (dfs_state H) A) : Prop :=
  forall mine fds e, held mine e -> wp x (fun r st' => st'.1 = fds /\ env_frame mine e st'.2) (fds, e).

(** What the calls rely on of the drivers.  Nothing is asked of a function that gets a
    descriptor with a null path: the drivers of the repository (devfs.c:142, romfs,
    ramfs) read the path without a test. *)
Class Drivers : Prop := {
  dr_open : forall n f i, f_open (fops n) = Some f -> fd_call i (f i);
  dr_close : forall n f i, f_close (fops n) = Some f -> fd_call i (f i);
  dr_ioctl : forall n f i c a, f_ioctl (fops n) = Some f -> fd_call i (f i c a);
  dr_read : forall n f i k, f_read (fops n) = Some f -> fd_call i (f i k);
  dr_write : forall n f i b k, f_write (fops n) = Some f -> fd_call i (f i b k);
  dr_flush : forall n f i, f_flush (fops n) = Some f -> fd_call i (f i);
  dr_lseek : forall n f i k, f_lseek (fops n) = Some f -> fd_call i (f i k);
  dr_unlink : forall n f k p, o_unlink (types n) = Some f -> fs_call (f k p);
  dr_stat : forall n f k p, o_stat (types n) = Some f -> fs_call (f k p)
}.
End contract.

Section calls.
Context {H : Type} (malloc : Z -> M H (option Z)) (free : option Z -> M H unit) (owns : H -> list (Z * Z) -> Prop).
Context (fops : nat -> dfs_file_ops (dfs_state H)) (types : nat -> dfs_filesystem_ops (dfs_state H)).
Context `{!Allocator malloc free owns} `{!FreesNull free} `{!Drivers owns fops types}.
(** What other code has allocated. *)
Context (rest : list (Z * Z)).

(** ** The heap: the paths of the descriptors, some strings in use, and the rest *)

Definition path_block (fds : gmap nat dfs_fd) (blk : nat -> list (Z * Z)) (j : nat) : Prop :=
  exists d, fds !! j = Some d /\ (blk j).*1 = match fd_path d with None => [] | Some p => [str_addr p] end.

Definition heap_ok (extra : list (Z * Z)) (fds : gmap nat dfs_fd) (priv : list Z) (h : H) : Prop :=
  exists blk l p, owns h l /\ (forall j, (j < DFS_FD_MAX)%nat -> path_block fds blk j) /\ p.*1 = priv /\
    l ≡ₚ extra ++ concat (blk <$> seq 0 DFS_FD_MAX) ++ p ++ rest.

Lemma blocks_at (blk : nat -> list (Z * Z)) i :
  (i < DFS_FD_MAX)%nat -> concat (blk <$> seq 0 DFS_FD_MAX) ≡ₚ blk i ++ concat ((fun j => if decide (j = i) then [] else blk j) <$> seq 0 DFS_FD_MAX).
Proof.
  intros Hi. assert (i = 0 \/ i = 1 \/ i = 2 \/ i = 3)%nat as [-> | [-> | [-> | ->]]] by (unfold DFS_FD_MAX in Hi; lia); simpl; solve_Permutation.
Qed.

Lemma heap_alloc extra fds priv h size :
  heap_ok extra fds priv h -> 0 <= size <= 2 ^ 32 - 4 ->
  exists r h', malloc size h = Ok r h' /\ match r with None => heap_ok extra fds priv h' | Some q => exists n, heap_ok ((q, n) :: extra) fds priv h' end.
Proof.
  intros (blk & l & pr & O & Hb & Hpr & P) Hs. destruct (alloc_malloc h l size O Hs) as (r & h' & E & Hr). exists r, h'. split; [done|]. destruct r as [q|].
  - destruct Hr as (n & l' & _ & O' & P'). exists n, blk, l', pr. split_and!; [done|done|done|]. simpl. by rewrite P', P.
  - subst h'. by exists blk, l, pr.
Qed.

Lemma heap_free q n extra fds priv h :
  heap_ok ((q, n) :: extra) fds priv h -> exists h', free (Some q) h = Ok tt h' /\ heap_ok extra fds priv h'.
Proof.
  intros (blk & l & pr & O & Hb & Hpr & P). destruct (alloc_free h l q n O) as (h' & l' & E & O' & P'); [rewrite P; left|]. exists h'. split; [done|].
  exists blk, l', pr. split_and!; [done|done|done|]. apply (Permutation_cons_inv (a := (q, n))). rewrite <- P', P. done.
Qed.

(** Descriptor [i] with other contents [d'], for which the block is [b]. *)
Lemma heap_replace extra extra' fds priv h i d d' :
  (i < DFS_FD_MAX)%nat -> fds !! i = Some d -> heap_ok extra fds priv h ->
  (forall b, b.*1 = match fd_path d with None => [] | Some p => [str_addr p] end ->
     exists b', b'.*1 = match fd_path d' with None => [] | Some p => [str_addr p] end /\ extra' b ++ b' ≡ₚ extra ++ b) ->
  exists b, heap_ok (extra' b) (<[i := d']> fds) priv h /\ b.*1 = match fd_path d with None => [] | Some p => [str_addr p] end.
Proof.
  intros Hi Hd (blk & l & pr & O & Hb & Hpr & P) Hx. destruct (Hb i Hi) as (d0 & Hd0 & Hbi). rewrite Hd in Hd0. injection Hd0 as <-.
  destruct (Hx (blk i) Hbi) as (b' & Hb' & Pb). exists (blk i). split; [|done].
  exists (fun j => if decide (j = i) then b' else blk j), l, pr. split_and!; [done| |done|].
  - intros j Hj. unfold path_block. destruct (decide (j = i)) as [->|Hne]; [exists d'; by rewrite lookup_insert_eq|]. rewrite lookup_insert_ne by done. by apply Hb.
  - rewrite P, (blocks_at blk i Hi), (blocks_at (fun j => if decide (j = i) then b' else blk j) i Hi). rewrite decide_True by done.
    assert (((fun j => if decide (j = i) then [] else if decide (j = i) then b' else blk j) <$> seq 0 DFS_FD_MAX) =
      ((fun j => if decide (j = i) then [] else blk j) <$> seq 0 DFS_FD_MAX)) as -> by (apply list_fmap_ext; intros k y _; by case_decide).
    rewrite !app_assoc. by rewrite Pb.
Qed.

Lemma heap_same extra fds priv h i d d' :
  (i < DFS_FD_MAX)%nat -> fds !! i = Some d -> fd_path d' = fd_path d -> heap_ok extra fds priv h -> heap_ok extra (<[i := d']> fds) priv h.
Proof.
  intros Hi Hd Hp Ho. destruct (heap_replace extra (fun _ => extra) fds priv h i d d' Hi Hd Ho) as (b & Hb & _); [|done].
  intros b Hb. exists b. rewrite Hp. by split.
Qed.

(** The path becomes one of descriptor [i]; it is taken from it. *)
Lemma heap_attach extra fds priv h i d d' p n :
  (i < DFS_FD_MAX)%nat -> fds !! i = Some d -> fd_path d = None -> fd_path d' = Some p ->
  heap_ok ((str_addr p, n) :: extra) fds priv h -> heap_ok extra (<[i := d']> fds) priv h.
Proof.
  intros Hi Hd Hn Hp Ho. destruct (heap_replace _ (fun _ => extra) fds priv h i d d' Hi Hd Ho) as (b & Hb & _); [|done].
  intros b Hb. exists [(str_addr p, n)]. rewrite Hp. split; [done|]. rewrite Hn in Hb. apply fmap_nil_inv in Hb as ->. simpl. solve_Permutation.
Qed.

Lemma heap_detach extra fds priv h i d d' p :
  (i < DFS_FD_MAX)%nat -> fds !! i = Some d -> fd_path d = Some p -> fd_path d' = None ->
  heap_ok extra fds priv h -> exists n, heap_ok ((str_addr p, n) :: extra) (<[i := d']> fds) priv h.
Proof.
  intros Hi Hd Hp Hn Ho. destruct (heap_replace extra (fun b => b ++ extra) fds priv h i d d' Hi Hd Ho) as (b & Hb & Eb).
  - intros b Eb. exists []. rewrite Hn. split; [done|]. rewrite app_nil_r. apply Permutation_app_comm.
  - rewrite Hp in Eb. destruct b as [|[q n] [|]]; try done. injection Eb as ->. by exists n.
Qed.

(** ** Lengths of paths *)

Lemma closed_cons_length c cs : length (closed (c :: cs)) = (length c + 1 + length (closed cs))%nat.
Proof. change (closed (c :: cs)) with ((c ++ [SLASH]) ++ closed cs). rewrite !length_app. simpl. lia. Qed.

Lemma walk_length cs : forall s s', fold_left walk cs (Some s) = Some s' -> (length (closed s') <= length (closed s) + length (closed cs))%nat.
Proof.
  induction cs as [|c cs IH]; intros s s' E; [injection E as <-; simpl; lia|].
  rewrite closed_cons_length. cbn [fold_left walk] in E. case_bool_decide; [apply IH in E; lia|]. case_bool_decide.
  - case_bool_decide as Hs; [by rewrite walk_none in E|]. apply IH in E. destruct (exists_last Hs) as (s0 & x & ->).
    rewrite length_app, Nat.add_sub, take_app_length in E. rewrite closed_snoc, !length_app. simpl. lia.
  - apply IH in E. rewrite closed_snoc, !length_app in E. simpl in E. lia.
Qed.

Lemma components_length l : length (closed (components l)) = S (length l).
Proof.
  induction l as [|x l IH]; [done|]. cbn [components]. destruct (x =? SLASH); [rewrite closed_cons_length, IH; simpl; lia|].
  destruct (components l) as [|c cs]; [done|]. rewrite !closed_cons_length in *. simpl. lia.
Qed.

Lemma canonical_length text s : canonical text = Some s -> (length (path_text s) <= S (length text))%nat.
Proof.
  intros E. pose proof (components_length text) as Hl. assert (length (closed s) <= S (length text))%nat as Hs.
  { unfold canonical in E. destruct (components text) as [|[|x c] cs]; [done| |]; apply walk_length in E; rewrite !closed_cons_length in *; simpl in *; lia. }
  unfold path_text. case_bool_decide as Hj; [simpl; lia|]. destruct (decide (s = [])) as [->|Hne]; [done|].
  rewrite joined_closed, length_app in Hs by done. simpl in Hs. lia.
Qed.

Lemma subdir_length d f l : subdir d f = Some l -> (length l <= length f)%nat.
Proof. unfold subdir. case_match; [done|]. case_match; intros [= <-]; rewrite length_drop; lia. Qed.

(** ** Steps *)

Record env_ok (extra : list (Z * Z)) (fds : gmap nat dfs_fd) (e : dfs_env H) : Prop := {
  eo_heap : heap_ok extra fds (de_priv e) (de_heap e);
  eo_errno : errno_ok (de_dev e).2;
  eo_wd : Z.of_nat (length (de_wd e)) <= 2 ^ 30
}.

(** Tables and lock as before. *)
Definition elike (e e' : dfs_env H) : Prop :=
  de_fs e' = de_fs e /\ de_types e' = de_types e /\ de_wd e' = de_wd e /\ de_lock e' = de_lock e.

Lemma elike_trans e1 e2 e3 : elike e1 e2 -> elike e2 e3 -> elike e1 e3.
Proof. intros (? & ? & ? & ?) (? & ? & ? & ?). repeat split; congruence. Qed.

Definition after (e : dfs_env H) (extra : list (Z * Z)) (fds : gmap nat dfs_fd) (st : dfs_state H) : Prop :=
  exists e', st = (fds, e') /\ env_ok extra fds e' /\ elike e e'.

Lemma after_elike e e' extra fds st : elike e e' -> after e' extra fds st -> after e extra fds st.
Proof. intros L (e2 & -> & ? & ?). exists e2. split_and!; [done|done|by eapply elike_trans]. Qed.

Lemma wp_malloc extra fds e size :
  env_ok extra fds e -> 0 <= size <= 2 ^ 32 - 4 ->
  wp (on_dheap (malloc size)) (fun r st' => match r with None => after e extra fds st' | Some q => exists n, after e ((q, n) :: extra) fds st' end) (fds, e).
Proof.
  intros [Hh Hn Hw] Hs. destruct (heap_alloc _ _ _ _ _ Hh Hs) as (r & h' & E & Hr). unfold wp, on_dheap. cbn [fst snd]. rewrite E.
  destruct r as [q|]; [destruct Hr as (n & Hr); exists n|]; by eexists.
Qed.

Lemma wp_free q n extra fds e :
  env_ok ((q, n) :: extra) fds e -> wp (on_dheap (free (Some q))) (fun _ st' => after e extra fds st') (fds, e).
Proof.
  intros [Hh Hn Hw]. destruct (heap_free _ _ _ _ _ _ Hh) as (h' & E & Hh'). unfold wp, on_dheap. cbn [fst snd]. rewrite E. by eexists.
Qed.

Lemma wp_free_str p n extra fds e :
  env_ok ((str_addr p, n) :: extra) fds e -> wp (free_str free (Some p)) (fun _ st' => after e extra fds st') (fds, e).
Proof. apply wp_free. Qed.

Lemma wp_errno x extra fds e : env_ok extra fds e -> wp (set_errno x) (fun _ st' => after e extra fds st') (fds, e).
Proof.
  intros [Hh Hn Hw]. unfold set_errno, on_ddev, wp. cbn [fst snd]. destruct (de_dev e) as [ds k] eqn:Ed. unfold on_snd. cbn [fst snd].
  assert (exists k', rt_set_errno x k = Ok tt k' /\ errno_ok k') as (k' & E & Hk').
  { unfold rt_set_errno. erewrite bind_Ok by reflexivity. cbv beta. case_match; [by eexists|]. erewrite bind_Ok by reflexivity. cbv beta.
    destruct (k_current k) as [t|] eqn:Hc; [|by eexists]. destruct (Hn t Hc) as [th Ht]. eexists. split; [by apply run_upd_thread|].
    intros u Hu. simpl. destruct (decide (t = u)) as [->|]; [rewrite lookup_insert_eq; by eexists|]. rewrite lookup_insert_ne by done. by apply Hn. }
  rewrite E. eexists. split; [done|]. split; [by split|done].
Qed.

Lemma wp_failed x extra fds e : env_ok extra fds e -> wp (fail_errno x) (fun r st' => r = -1 /\ after e extra fds st') (fds, e).
Proof. intros E. unfold fail_errno. apply wp_bind. eapply wp_mono; [|by apply wp_errno]. intros ? st A. by apply wp_ret. Qed.

Lemma wp_normalize path extra fds e :
  env_ok extra fds e -> Z.of_nat (length path) <= 2 ^ 31 + 2 ->
  wp (normalize malloc free None path) (fun r st' => match r with
    | None => after e extra fds st'
    | Some p => Z.of_nat (length (str_text p)) <= Z.of_nat (length path) + 2 ^ 30 + 2 /\ exists n, after e ((str_addr p, n) :: extra) fds st'
    end) (fds, e).
Proof.
  intros E Hl. unfold normalize. apply wp_bind, wp_gets. cbv zeta. cbn [default snd]. set (text := full_text _ _).
  assert (Z.of_nat (length text) <= Z.of_nat (length path) + 2 ^ 30 + 1) as Ht.
  { unfold text, full_text. pose proof (eo_wd _ _ _ E). case_bool_decide; [lia|]. rewrite length_app. simpl. lia. }
  apply wp_bind. eapply wp_mono; [|apply wp_malloc; [exact E|lia]]. intros [a|] st; [|by intros A; apply wp_ret].
  intros (n & e' & -> & E' & L). destruct (canonical text) as [s|] eqn:Ec.
  - apply wp_ret. pose proof (canonical_length _ _ Ec). cbn [str_text str_addr]. split; [lia|]. exists n. by eexists.
  - apply wp_bind. eapply wp_mono; [|by apply (wp_free a n)]. intros ? st A. apply wp_ret. by apply (after_elike e e').
Qed.

(** *** The lock *)

Lemma locked_env_ok extra fds k e : env_ok extra fds e -> env_ok extra fds (locked_env k e).
Proof. by intros []. Qed.

Lemma locked_back e e' k : elike (locked_env k e) e' -> elike e (locked_env (- k) e').
Proof. intros (? & ? & ? & ?). repeat split; try done. simpl in *. lia. Qed.

(** *** Looking up *)

Lemma lookup_mounted path tbl : forall i fs n k,
  lookup_loop path i tbl fs n = Some k ->
  fs = Some k \/ exists f p t, tbl !! (k - i)%nat = Some f /\ (i <= k)%nat /\ fs_path f = Some p /\ fs_ops f = Some t.
Proof.
  induction tbl as [|f tbl IH]; intros i fs n k E; simpl in E; [by left|].
  assert (forall fs' n', lookup_loop path (S i) tbl fs' n' = Some k -> fs' = Some k \/
    exists f0 p t, (f :: tbl) !! (k - i)%nat = Some f0 /\ (i <= k)%nat /\ fs_path f0 = Some p /\ fs_ops f0 = Some t) as Hnext.
  { intros fs' n' E'. destruct (IH _ _ _ _ E') as [|(f0 & p & t & Hf & Hk & Hp)]; [by left|]. right. exists f0, p, t.
    replace (k - i)%nat with (S (k - S i)) by lia. split_and!; [done|lia|apply Hp..]. }
  destruct (fs_path f) as [p|] eqn:Ep; [|by apply Hnext in E]. destruct (fs_ops f) as [t|] eqn:Et; [|by apply Hnext in E].
  case_match; [by apply Hnext in E|]. destruct (Hnext _ _ E) as [[= ->]|]; [|by right].
  right. exists f, p, t. rewrite Nat.sub_diag. split_and!; done.
Qed.

(** A file system that was found is in the table, with functions and a path. *)
Definition mounted (e : dfs_env H) (k t : nat) (mount : list Z) : Prop :=
  forall fds e', de_fs e' = de_fs e -> ops_of types k (fds, e') = Ok (types t) (fds, e') /\ path_of k (fds, e') = Ok mount (fds, e').

Lemma lookup_is_mounted path (e : dfs_env H) k : lookup_loop path 0 (de_fs e) None 0 = Some k -> exists t mount, mounted e k t mount.
Proof.
  intros [|(f & p & t & Hf & _ & Hp & Ht)]%lookup_mounted; [done|]. rewrite Nat.sub_0_r in Hf. exists t, (str_text p). intros fds e' Ee.
  assert (get_fs k (fds, e') = Ok f (fds, e')) as Eg by (apply run_deref; simpl; by rewrite Ee).
  split; [unfold ops_of|unfold path_of]; run_step Eg; (erewrite bind_Ok by (apply run_deref; eassumption)); done.
Qed.

(** *** Is a file open? *)

Definition safe_fds (fds : gmap nat dfs_fd) : Prop :=
  forall j, (j < DFS_FD_MAX)%nat -> exists d, fds !! j = Some d /\ (is_Some (fd_fops d) -> is_Some (fd_path d)).

Lemma run_open_loop f mp fds (e : dfs_env H) l :
  safe_fds fds -> (forall j, j ∈ l -> (j < DFS_FD_MAX)%nat) -> exists b, open_loop f mp l (fds, e) = Ok b (fds, e).
Proof.
  intros S. induction l as [|j l IH]; intros Hl; [by eexists|]. cbn [open_loop]. destruct IH as [b E]; [intros; apply Hl; by right|].
  destruct (S j) as (d & Hd & Hp); [apply Hl; left|]. run_step (run_get_obj fds e j d Hd). destruct (fd_fops d) as [g|]; [|by exists b].
  case_match; [|by exists b]. destruct Hp as [p Hp]; [by eexists|]. erewrite bind_Ok by (by apply run_deref). case_match; [by eexists|by exists b].
Qed.

Lemma wp_is_open path extra fds e :
  env_ok extra fds e -> safe_fds fds -> Z.of_nat (length path) <= 2 ^ 31 + 2 ->
  wp (fd_is_open malloc free types path) (fun _ st' => after e extra fds st') (fds, e).
Proof.
  intros E S Hl. unfold fd_is_open. apply wp_bind. eapply wp_mono; [|by apply wp_normalize]. intros [full|] st; [|by intros A; apply wp_ret].
  intros (_ & n & e1 & -> & E1 & L1). apply wp_bind. apply (wp_Ok _ _ _ _ _ (run_lookup _ _ _)).
  destruct (lookup_loop (str_text full) 0 (de_fs e1) None 0) as [k|] eqn:Ek.
  - destruct (lookup_is_mounted _ _ _ Ek) as (t & mount & Hm). apply wp_bind. apply (wp_Ok _ _ _ _ _ (proj2 (Hm fds e1 eq_refl))). cbv zeta.
    apply wp_bind. apply (wp_Ok _ _ _ _ _ (run_lock _ _)). apply wp_bind. apply (wp_Ok _ _ _ _ _ (proj1 (Hm fds (locked_env 1 e1) eq_refl))).
    apply wp_bind. destruct (run_open_loop (o_fops (types t)) (if bool_decide (mount = [SLASH]) then str_text full else drop (length mount) (str_text full))
      fds (locked_env 1 e1) (seq 0 DFS_FD_MAX) S) as [b Eb]; [intros j Hj%elem_of_seq; lia|]. apply (wp_Ok _ _ _ _ _ Eb).
    destruct b.
    + apply wp_bind. eapply wp_mono; [|apply (wp_free_str _ n); by apply locked_env_ok]. intros ? st (e2 & -> & E2 & L2).
      apply wp_bind. apply (wp_Ok _ _ _ _ _ (run_unlock _ _)). apply wp_ret. eexists. split; [done|]. split; [by apply locked_env_ok|].
      eapply elike_trans; [exact L1|]. by apply locked_back in L2.
    + apply wp_bind. apply (wp_Ok _ _ _ _ _ (run_unlock _ _)). rewrite relock. apply wp_bind. eapply wp_mono; [|by apply (wp_free_str _ n)].
      intros ? st A. apply wp_ret. by apply (after_elike e e1).
  - apply wp_bind. eapply wp_mono; [|by apply (wp_free_str _ n)]. intros ? st A. apply wp_ret. by apply (after_elike e e1).
Qed.

(** *** Descriptors *)

Definition all_rest (fds : gmap nat dfs_fd) : Prop := forall j, (j < DFS_FD_MAX)%nat -> exists d, fds !! j = Some d /\ resting d.

(** [after] with descriptor [i] replaced by one with the same path. *)
Lemma env_ok_same extra fds e i d d' :
  (i < DFS_FD_MAX)%nat -> fds !! i = Some d -> fd_path d' = fd_path d -> env_ok extra fds e -> env_ok extra (<[i := d']> fds) e.
Proof. intros Hi Hd Hp [Hh Hn Hw]. split; [|done|done]. by apply (heap_same _ _ _ _ _ d). Qed.

Lemma after_upd f extra fds e i d :
  (i < DFS_FD_MAX)%nat -> fds !! i = Some d -> fd_path (f d) = fd_path d -> env_ok extra fds e ->
  wp (upd_obj i f) (fun _ st' => after e extra (<[i := f d]> fds) st') (fds, e).
Proof.
  intros Hi Hd Hp E. apply (wp_upd_obj fds e i f d); [done|]. exists e. split; [done|]. split; [by apply (env_ok_same _ _ _ _ d)|done].
Qed.

Definition used (fds : gmap nat dfs_fd) (j : nat) : Prop := exists d, fds !! j = Some d /\ opened_fd 1 d.

Lemma run_find_free fds (e : dfs_env H) l :
  all_rest fds -> (forall j, j ∈ l -> (j < DFS_FD_MAX)%nat) ->
  exists r, find_free l (fds, e) = Ok r (fds, e) /\
    match r with
    | None => forall j, j ∈ l -> used fds j
    | Some i => fds !! i = Some cleared_fd /\ exists l1 l2, l = l1 ++ i :: l2 /\ forall j, j ∈ l1 -> used fds j
    end.
Proof.
  intros R. induction l as [|j l IH]; intros Hl; [exists None; split; [done|by intros j Hj%not_elem_of_nil]|]. cbn [find_free].
  destruct IH as (r & E & Hr); [intros; apply Hl; by right|]. destruct (R j) as (d & Hd & Hrest); [apply Hl; left|].
  run_step (run_get_obj fds e j d Hd). destruct Hrest as [->|Ho].
  - exists (Some j). split; [done|]. split; [done|]. exists [], l. split; [done|by intros k Hk%not_elem_of_nil].
  - assert (used fds j) as Hu by (by exists d). destruct Ho as (_ & Hc & _). rewrite Hc. exists r. split; [done|]. destruct r as [i|].
    + destruct Hr as (Hi & l1 & l2 & -> & Hl1). split; [done|]. exists (j :: l1), l2. split; [done|]. intros k [-> |Hk]%elem_of_cons; [done|by apply Hl1].
    + intros k [-> |Hk]%elem_of_cons; [done|by apply Hr].
Qed.

Lemma wp_fd_new extra fds e :
  env_ok extra fds e -> all_rest fds ->
  wp fd_new (fun r st' => r = -1 /\ after e extra fds st' \/
    exists i, (i < DFS_FD_MAX)%nat /\ r = Z.of_nat i + DFS_FD_OFFSET /\ fds !! i = Some cleared_fd /\ (forall j, (j < i)%nat -> used fds j) /\
      after e extra (<[i := new_fd 1]> fds) st') (fds, e).
Proof.
  intros E R. unfold fd_new. apply wp_bind. apply (wp_Ok _ _ _ _ _ (run_lock _ _)).
  destruct (run_find_free fds (locked_env 1 e) (seq 0 DFS_FD_MAX) R) as (r & Ef & Hr); [intros j Hj%elem_of_seq; lia|].
  apply wp_bind. apply (wp_Ok _ _ _ _ _ Ef). destruct r as [i|].
  - destruct Hr as (Hi & l1 & l2 & El & Hl1). assert (length l1 = i /\ i < DFS_FD_MAX)%nat as [Hlen Hlt].
    { assert ((l1 ++ i :: l2) !! length l1 = Some i) as Hl by (rewrite lookup_app_r, Nat.sub_diag by lia; done).
      rewrite <- El in Hl. apply lookup_seq in Hl. lia. }
    apply wp_bind. apply wp_bind. apply (wp_upd_obj fds (locked_env 1 e) i _ cleared_fd); [done|]. apply wp_ret. apply wp_bind.
    apply (wp_Ok _ _ _ _ _ (run_unlock _ _)). rewrite relock. apply wp_ret. right. exists i. split_and!; [done|done|done| |].
    + intros j Hj. apply Hl1. assert (l1 = seq 0 i) as ->.
      { apply (f_equal (take (length l1))) in El. rewrite take_app_length in El. rewrite <- El, Hlen. apply list_eq. intros k.
        destruct (Nat.lt_ge_cases k i); [rewrite lookup_take_lt by lia; rewrite !lookup_seq_lt by lia; done|].
        rewrite !lookup_ge_None_2; [done|rewrite length_seq; lia|rewrite length_take, length_seq; lia]. }
      apply elem_of_seq. lia.
    + exists e. split; [done|]. split; [|done]. by apply (env_ok_same _ _ _ _ cleared_fd).
  - apply wp_bind. apply wp_ret. apply wp_bind. apply (wp_Ok _ _ _ _ _ (run_unlock _ _)). rewrite relock. apply wp_ret. left. split; [done|]. by exists e.
Qed.

Lemma wp_fd_get fd extra fds e :
  env_ok extra fds e -> (forall j, (j < DFS_FD_MAX)%nat -> is_Some (fds !! j)) ->
  wp (fd_get fd) (fun r st' => match r with
    | None => after e extra fds st' /\ (forall i d, fd = Z.of_nat i + DFS_FD_OFFSET -> (i < DFS_FD_MAX)%nat -> fds !! i = Some d -> fd_magic d ≠ DFS_FD_MAGIC)
    | Some i => (i < DFS_FD_MAX)%nat /\ fd = Z.of_nat i + DFS_FD_OFFSET /\ exists d, fds !! i = Some d /\ fd_magic d = DFS_FD_MAGIC /\
        after e extra (<[i := set_ref_count (fd_ref_count d + 1) d]> fds) st'
    end) (fds, e).
Proof.
  intros E S. unfold fd_get. cbv zeta. apply wp_if; intros Hr.
  - apply wp_ret. split; [by exists e|]. intros i d -> Hi _. apply orb_true_iff in Hr as [Hr|Hr]; to_prop; unfold DFS_FD_OFFSET, DFS_FD_MAX in *; lia.
  - to_prop. unfold DFS_FD_MAX in *. set (i := Z.to_nat (fd - DFS_FD_OFFSET)). assert (i < 4)%nat as Hi by (unfold i; lia).
    assert (fd = Z.of_nat i + DFS_FD_OFFSET) as Efd by (unfold i, DFS_FD_OFFSET in *; lia). clearbody i. destruct (S i Hi) as [d Hd].
    apply wp_bind. apply (wp_Ok _ _ _ _ _ (run_lock _ _)). apply wp_bind. apply (wp_get_obj fds _ i d); [done|]. apply wp_if; intros Hm; to_prop.
    + apply wp_bind. apply (wp_Ok _ _ _ _ _ (run_unlock _ _)). rewrite relock. apply wp_ret. split; [by exists e|].
      intros i' d' -> Hi' Hd'. assert (i' = i) as -> by lia. rewrite Hd in Hd'. by injection Hd' as <-.
    + apply wp_bind. apply (wp_upd_obj fds _ i _ d); [done|]. apply wp_bind. apply (wp_Ok _ _ _ _ _ (run_unlock _ _)). rewrite relock. apply wp_ret.
      split_and!; [done|done|]. exists d. split_and!; [done|done|]. exists e. split; [done|]. split; [by apply (env_ok_same _ _ _ _ d)|done].
Qed.

Definition put_fd (d : dfs_fd) : dfs_fd := if fd_ref_count d - 1 =? 0 then cleared_fd else set_ref_count (fd_ref_count d - 1) d.

Lemma wp_fd_put i d extra fds e :
  env_ok extra fds e -> (i < DFS_FD_MAX)%nat -> fds !! i = Some d -> (fd_ref_count d = 1 -> fd_path d = None) ->
  wp (fd_put (Some i)) (fun _ st' => after e extra (<[i := put_fd d]> fds) st') (fds, e).
Proof.
  intros E Hi Hd Hp. unfold fd_put. apply wp_bind. apply (wp_deref _ _ _ i); [done|]. apply wp_bind. apply (wp_Ok _ _ _ _ _ (run_lock _ _)).
  apply wp_bind. apply (wp_upd_obj fds _ i _ d); [done|]. apply wp_bind. apply (wp_get_obj _ _ i (set_ref_count (fd_ref_count d - 1) d)); [apply lookup_insert_eq|].
  apply wp_bind. cbn [fd_ref_count set_ref_count]. unfold put_fd. apply wp_when; intros Hz; rewrite ?Hz.
  - apply wp_modify. apply (wp_Ok _ _ _ _ _ (run_unlock _ _)). cbn [fst snd]. rewrite relock, insert_insert_eq. to_prop. exists e. split; [done|]. split; [|done].
    apply (env_ok_same _ _ _ _ d); [done|done|rewrite Hp by lia; done|done].
  - apply (wp_Ok _ _ _ _ _ (run_unlock _ _)). rewrite relock. exists e. split; [done|]. split; [by apply (env_ok_same _ _ _ _ d)|done].
Qed.

Lemma wp_drop_path i d extra fds e :
  env_ok extra fds e -> (i < DFS_FD_MAX)%nat -> fds !! i = Some d ->
  wp (drop_path free i) (fun _ st' => after e extra (<[i := set_path None d]> fds) st') (fds, e).
Proof.
  intros E Hi Hd. unfold drop_path. apply wp_bind. apply (wp_get_obj fds e i d); [done|]. apply wp_bind. destruct (fd_path d) as [p|] eqn:Hp.
  - destruct (heap_detach extra fds (de_priv e) (de_heap e) i d (set_path None d) p Hi Hd Hp eq_refl (eo_heap _ _ _ E)) as (n & Hh).
    destruct (heap_free _ _ _ _ _ _ Hh) as (h' & Ef & Hh'). unfold free_str, on_dheap, wp. cbn [fmap option_fmap option_map fst snd]. rewrite Ef.
    unfold wp. rewrite (run_upd_obj fds _ i (set_path None) d Hd). eexists. split; [reflexivity|]. split; [|done]. destruct E. by split.
  - unfold free_str, on_dheap, wp. cbn [fmap option_fmap option_map fst snd]. rewrite free_null. unfold wp. rewrite (run_upd_obj fds _ i (set_path None) d Hd).
    eexists. split; [reflexivity|]. destruct e. split; [|done]. by apply (env_ok_same _ _ _ _ d).
Qed.

(** The memory of the descriptors and of other code around the call of a driver. *)
Lemma heap_around extra fds e :
  heap_ok extra fds (de_priv e) (de_heap e) ->
  exists mine, held owns mine e /\ forall e', held owns mine e' -> heap_ok extra fds (de_priv e') (de_heap e').
Proof.
  intros (blk & l & pr & O & Hb & Hpr & P). exists (extra ++ concat (blk <$> seq 0 DFS_FD_MAX) ++ rest). split.
  - exists l, pr. split_and!; try done. rewrite P. solve_Permutation.
  - intros e' (l' & pr' & O' & P' & Hpr'). exists blk, l', pr'. split_and!; try done. rewrite P'. solve_Permutation.
Qed.

Lemma wp_driver {A} i (x : M (dfs_state H) A) d extra fds e :
  fd_call owns i x -> env_ok extra fds e -> (i < DFS_FD_MAX)%nat -> fds !! i = Some d -> is_Some (fd_fops d) -> is_Some (fd_path d) ->
  wp x (fun r st' => exists d', same_fd d d' /\ after e extra (<[i := d']> fds) st') (fds, e).
Proof.
  intros C [Hh Hn Hw] Hi Hd Hf Hp. destruct (heap_around _ _ _ Hh) as (mine & Hm & Hback). eapply wp_mono; [|by apply (C mine)].
  intros r [fds' e'] (d' & Ef & S & F). cbn [fst snd] in *. subst fds'. exists d'. split; [done|]. exists e'. split; [done|].
  destruct F as [F1 F2 F3 F4 F5 F6]. split; [|done]. split; [|by apply F6|by rewrite F4]. apply (heap_same _ _ _ _ _ d); [done|done|apply S|by apply Hback].
Qed.

Lemma wp_fs_driver {A} (x : M (dfs_state H) A) extra fds e : fs_call owns x -> env_ok extra fds e -> wp x (fun _ st' => after e extra fds st') (fds, e).
Proof.
  intros C [Hh Hn Hw]. destruct (heap_around _ _ _ Hh) as (mine & Hm & Hback). eapply wp_mono; [|by apply (C mine)]. intros r [fds' e'] (Ef & F). cbn [fst snd] in *. subst fds'.
  exists e'. split; [done|]. destruct F as [F1 F2 F3 F4 F5 F6]. split; [|done]. split; [by apply Hback|by apply F6|by rewrite F4].
Qed.

(** *** Opening and closing *)

Lemma run_fops_of i d f (fds : gmap nat dfs_fd) (e : dfs_env H) :
  fds !! i = Some d -> fd_fops d = Some f -> fops_of fops i (fds, e) = Ok (fops f) (fds, e).
Proof. intros Hd Hf. unfold fops_of. run_step (run_get_obj fds e i d Hd). by erewrite bind_Ok by (by apply run_deref). Qed.

Lemma wp_dup l extra fds e :
  env_ok extra fds e -> Z.of_nat (length l) + 1 <= 2 ^ 32 - 4 ->
  wp (dup malloc l) (fun r st' => match r with None => after e extra fds st' | Some p => exists n, after e ((str_addr p, n) :: extra) fds st' end) (fds, e).
Proof.
  intros E Hl. unfold dup. apply wp_bind. eapply wp_mono; [|apply wp_malloc; [exact E|lia]]. intros [a|] st A; by apply wp_ret.
Qed.

Lemma wp_set_open_path i d k t mount full n fds e :
  env_ok [(str_addr full, n)] fds e -> (i < DFS_FD_MAX)%nat -> fds !! i = Some d -> fd_path d = None -> mounted e k t mount ->
  Z.of_nat (length (str_text full)) <= 2 ^ 31 + 2 ->
  wp (set_open_path malloc free types i k full) (fun _ st' => exists p, after e [] (<[i := set_path p d]> fds) st') (fds, e).
Proof.
  intros E Hi Hd Hp Hm Hl. unfold set_open_path. apply wp_bind. apply (wp_Ok _ _ _ _ _ (proj1 (Hm fds e eq_refl))). apply wp_if; intros _.
  - apply wp_bind. apply (wp_Ok _ _ _ _ _ (proj2 (Hm fds e eq_refl))). apply wp_bind. eapply wp_mono; [|apply wp_dup; [exact E|]].
    2: { destruct (subdir mount (str_text full)) as [l|] eqn:Es; simpl; [apply subdir_length in Es; lia|lia]. }
    intros [p|] st; [intros (n2 & e1 & -> & E1 & L1)|intros (e1 & -> & E1 & L1)]; apply wp_bind.
    + apply (wp_upd_obj fds e1 i _ d); [done|]. eapply wp_mono.
      2: { apply (wp_free_str _ n). destruct E1 as [Hh Hn Hw]. split; [|done|done]. by apply (heap_attach _ _ _ _ _ d _ p n2). }
      intros ? st A. exists (Some p). by apply (after_elike e e1).
    + apply (wp_upd_obj fds e1 i _ d); [done|]. eapply wp_mono; [|apply (wp_free_str _ n); by apply (env_ok_same _ _ _ _ d)].
      intros ? st A. exists None. by apply (after_elike e e1).
  - apply (wp_upd_obj fds e i _ d); [done|]. exists (Some full), e. split; [done|]. split; [|done]. destruct E as [Hh Hn Hw]. split; [|done|done].
    by apply (heap_attach _ _ _ _ _ d _ full n).
Qed.

(** A descriptor in use by a call. *)
Definition busy (n : Z) (d : dfs_fd) : Prop := fd_magic d = DFS_FD_MAGIC /\ fd_ref_count d = n.

(** The descriptor behind an open: empty after a failure, open otherwise. *)
Definition open_result (n r : Z) (d : dfs_fd) : Prop :=
  busy n d /\ (r < 0 -> fd_path d = None) /\ (0 <= r -> r = 0 /\ opened_fd n d).

Lemma wp_open_driver i flags d n fds e :
  env_ok [] fds e -> (i < DFS_FD_MAX)%nat -> fds !! i = Some d -> is_Some (fd_fops d) -> busy n d ->
  (is_Some (f ← fd_fops d; f_open (fops f)) -> is_Some (fd_path d)) ->
  wp (open_driver free fops i flags) (fun r st' => exists d', after e [] (<[i := d']> fds) st' /\ open_result n r d') (fds, e).
Proof.
  intros E Hi Hd [f Hf] [Hm Hc] Hnn. rewrite Hf in Hnn. cbn in Hnn. unfold open_driver. apply wp_bind. apply (wp_Ok _ _ _ _ _ (run_fops_of i d f fds e Hd Hf)).
  assert (forall d1 e1 r, same_fd d d1 -> elike e e1 -> env_ok [] (<[i := d1]> fds) e1 -> r < 0 ->
    wp (drop_path free i;; mret r) (fun r st' => exists d', after e [] (<[i := d']> fds) st' /\ open_result n r d') (<[i := d1]> fds, e1)) as Hfail.
  { intros d1 e1 r (S1 & S2 & _) L E1 Hr. apply wp_bind. eapply wp_mono; [|apply (wp_drop_path i d1); [done|done|apply lookup_insert_eq]].
    intros ? st A. rewrite insert_insert_eq in A. apply wp_ret. eexists. split; [by apply (after_elike e e1)|]. split; [split; simpl; congruence|]. split; [done|lia]. }
  destruct (f_open (fops f)) as [open|] eqn:Eo; [specialize (Hnn (mk_is_Some _ _ eq_refl))|].
  - apply wp_bind. eapply wp_mono; [|by apply (wp_driver i _ d _ _ _ (dr_open owns fops types f open i Eo) E Hi Hd (mk_is_Some _ _ Hf) Hnn)].
    intros r st (d1 & S & (e1 & -> & E1 & L1)). apply wp_if; intros Hr; to_prop; [by apply (Hfail d1 e1)|].
    assert (<[i := d1]> fds !! i = Some d1) as Hd1 by apply lookup_insert_eq.
    apply wp_bind. eapply wp_mono; [|by apply (after_upd _ [] _ _ i d1)]. intros ? st (e2 & -> & E2 & L2). rewrite insert_insert_eq in *.
    destruct S as (S1 & S2 & S3 & S4). assert (is_Some (fd_path d1)) as Hpath by (by rewrite S3).
    set (d2 := set_flags (Z.lor (fd_flags d1) DFS_F_OPEN) d1) in *. assert (open_result n 0 d2) as R2.
    { assert (busy n d2) as B by (split; simpl; congruence). split; [done|]. split; [lia|]. intros _. split; [done|]. destruct B. by split_and!. }
    apply wp_bind. apply wp_when; intros _.
    + eapply wp_mono; [|apply (after_upd _ [] _ _ i d2); [done|apply lookup_insert_eq|done|done]]. intros ? st A. rewrite insert_insert_eq in A. apply wp_ret.
      eexists. split; [eapply after_elike; [|exact A]; by eapply elike_trans|]. exact R2.
    + apply wp_ret. exists d2. split; [|done]. exists e2. split; [done|]. split; [done|by eapply elike_trans].
  - pose proof (Hfail d e (- ENOSYS)) as HF. rewrite (insert_id fds i d Hd) in HF. apply HF; [|done|done|unfold ENOSYS; lia]. by split_and!.
Qed.

Lemma safe_rest fds i d :
  fds !! i = Some d -> fd_fops d = None -> (forall j, (j < DFS_FD_MAX)%nat -> j ≠ i -> exists d, fds !! j = Some d /\ resting d) -> safe_fds fds.
Proof.
  intros Hd Hf Hr j Hj. destruct (decide (j = i)) as [->|Hne].
  - exists d. split; [done|]. rewrite Hf. by intros [? ?].
  - destruct (Hr j Hj Hne) as (d' & Hd' & [->|(_ & _ & _ & Hp)]); [exists cleared_fd; split; [done|]; by intros [? ?]|by exists d'].
Qed.

Lemma wp_file_prepare i path flags d n fds e :
  env_ok [] fds e -> (i < DFS_FD_MAX)%nat -> fds !! i = Some d -> fd_fops d = None -> fd_path d = None -> busy n d ->
  (forall j, (j < DFS_FD_MAX)%nat -> j ≠ i -> exists d, fds !! j = Some d /\ resting d) -> Z.of_nat (length path) <= 2 ^ 30 ->
  wp (file_prepare malloc free types i path flags) (fun r st' => exists d', after e [] (<[i := d']> fds) st' /\
    match r with Some r => open_result n r d' | None => is_Some (fd_fops d') /\ busy n d' end) (fds, e).
Proof.
  intros E Hi Hd Hf Hp B Hr Hl. unfold file_prepare.
  assert (forall e1 r st, elike e e1 -> after e1 [] fds st -> r < 0 -> exists d', after e [] (<[i := d']> fds) st /\ open_result n r d') as Hfail.
  { intros e1 r st L A Hneg. exists d. rewrite insert_id by done. split; [by apply (after_elike e e1)|]. split; [done|]. split; [done|lia]. }
  apply wp_bind. eapply wp_mono; [|apply wp_normalize; [exact E|lia]]. intros [full|] st.
  2: { intros A. apply wp_ret. by apply (Hfail e). }
  intros (Hlen & m & e1 & -> & E1 & L1). apply wp_bind. eapply wp_mono; [|apply wp_is_open; [exact E1|by eapply safe_rest|lia]].
  intros r st (e2 & -> & E2 & L2). pose proof (elike_trans _ _ _ L1 L2) as L12. apply wp_if; intros _.
  { apply wp_bind. eapply wp_mono; [|by apply (wp_free_str _ m)]. intros ? st A. apply wp_ret. by apply (Hfail e2). }
  apply wp_bind. apply (wp_Ok _ _ _ _ _ (run_lookup _ _ _)). destruct (lookup_loop (str_text full) 0 (de_fs e2) None 0) as [k|] eqn:Ek.
  2: { apply wp_bind. eapply wp_mono; [|by apply (wp_free_str _ m)]. intros ? st A. apply wp_ret. by apply (Hfail e2). }
  destruct (lookup_is_mounted _ _ _ Ek) as (t & mount & Hm). apply wp_bind. apply (wp_Ok _ _ _ _ _ (proj1 (Hm fds e2 eq_refl))).
  apply wp_bind. eapply wp_mono; [|by apply (after_upd _ [(str_addr full, m)] _ _ i d)]. cbv beta. intros ? st (e3 & -> & E3 & L3).
  set (d1 := mk_fd _ _ _ _ _ _ _ _ _) in *. apply wp_bind. eapply wp_mono.
  2: { apply (wp_set_open_path i d1 k t mount full m); [done|done|apply lookup_insert_eq|done| |lia]. intros fds' e' Ee. apply Hm. rewrite Ee. apply L3. }
  intros ? st (p & e4 & -> & E4 & L4). rewrite insert_insert_eq in *. apply wp_ret. exists (set_path p d1). split; [|split; [by eexists|done]].
  exists e4. split; [done|]. split; [done|]. eapply elike_trans; [exact L12|]. by eapply elike_trans.
Qed.

(** The open of descriptor [i], unless the driver is called with a null path. *)
Lemma wp_file_open i path flags d n fds e :
  env_ok [] fds e -> (i < DFS_FD_MAX)%nat -> fds !! i = Some d -> fd_fops d = None -> fd_path d = None -> busy n d ->
  (forall j, (j < DFS_FD_MAX)%nat -> j ≠ i -> exists d, fds !! j = Some d /\ resting d) -> Z.of_nat (length path) <= 2 ^ 30 ->
  (forall st1 d', file_prepare malloc free types i path flags (fds, e) = Ok None st1 -> st1.1 !! i = Some d' ->
     is_Some (f ← fd_fops d'; f_open (fops f)) -> is_Some (fd_path d')) ->
  wp (dfs_file_open malloc free fops types (Some i) path flags) (fun r st' => exists d', after e [] (<[i := d']> fds) st' /\ open_result n r d') (fds, e).
Proof.
  intros E Hi Hd Hf Hp B Hr Hl Hnn. unfold dfs_file_open. apply wp_bind.
  destruct (proj1 (wp_run _ _ _) (wp_file_prepare i path flags d n fds e E Hi Hd Hf Hp B Hr Hl)) as (r & st & Ep & d1 & (e1 & -> & E1 & L1) & Hres).
  apply (wp_Ok _ _ _ _ _ Ep). destruct r as [r|]; [apply wp_ret; exists d1; split; [by exists e1|done]|]. destruct Hres as [Hf1 B1].
  pose proof (lookup_insert_eq fds i d1) as Hd1. eapply wp_mono.
  2: { apply (wp_open_driver i flags d1 n _ _ E1 Hi Hd1 Hf1 B1). by apply (Hnn _ _ Ep). }
  intros r st (d' & A & R). rewrite insert_insert_eq in A. exists d'. split; [by apply (after_elike e e1)|done].
Qed.

Lemma wp_file_close i d n fds e :
  env_ok [] fds e -> (i < DFS_FD_MAX)%nat -> fds !! i = Some d -> opened_fd n d ->
  wp (dfs_file_close free fops (Some i)) (fun r st' => exists d', after e [] (<[i := d']> fds) st' /\ busy n d' /\
    (r < 0 -> opened_fd n d') /\ (0 <= r -> fd_path d' = None)) (fds, e).
Proof.
  intros E Hi Hd (Hm & Hc & [f Hf] & Hp). unfold dfs_file_close. apply wp_bind. apply (wp_Ok _ _ _ _ _ (run_fops_of i d f fds e Hd Hf)).
  apply wp_bind. assert (wp (match f_close (fops f) with None => mret 0 | Some close => close i end)
    (fun r st' => exists d', same_fd d d' /\ after e [] (<[i := d']> fds) st') (fds, e)) as Hclose.
  { destruct (f_close (fops f)) as [close|] eqn:Ec.
    - eapply wp_mono; [|by apply (wp_driver i _ d _ _ _ (dr_close owns fops types f close i Ec) E Hi Hd (mk_is_Some _ _ Hf) Hp)]. intros r st (d' & S & A). by exists d'.
    - apply wp_ret. exists d. split; [split_and!; try done; by eexists|]. rewrite insert_id by done. by exists e. }
  eapply wp_mono; [|exact Hclose]. intros r st (d1 & (S1 & S2 & S3 & S4) & e1 & -> & E1 & L1). apply wp_if; intros Hr; to_prop.
  - apply wp_ret. exists d1. split; [by exists e1|]. split; [split; congruence|]. split; [|lia]. intros _. split_and!; [congruence|congruence|done|by rewrite S3].
  - apply wp_bind. eapply wp_mono; [|apply (wp_drop_path i d1); [done|done|apply lookup_insert_eq]]. intros ? st A. rewrite insert_insert_eq in A. apply wp_ret.
    exists (set_path None d1). split; [by apply (after_elike e e1)|]. split; [split; simpl; congruence|]. split; [lia|done].
Qed.

(** *** Operations on an open descriptor *)

(** A call on the open descriptor [i] leaves it open and everything else alone. *)
Definition keeps {A} (x : M (dfs_state H) A) (i : nat) : Prop :=
  forall d fds e, env_ok [] fds e -> (i < DFS_FD_MAX)%nat -> fds !! i = Some d -> opened_fd 2 d ->
  wp x (fun _ st' => exists d', opened_fd 2 d' /\ after e [] (<[i := d']> fds) st') (fds, e).

Lemma opened_same n d d' : opened_fd n d -> same_fd d d' -> opened_fd n d'.
Proof. intros (? & ? & _ & Hp) (? & ? & E & ?). split_and!; [congruence|congruence|done|by rewrite E]. Qed.

Lemma keeps_driver {A} (x : M (dfs_state H) A) i : fd_call owns i x -> keeps x i.
Proof.
  intros C d fds e E Hi Hd Ho. eapply wp_mono; [|apply (wp_driver i x d _ _ _ C E Hi Hd); apply Ho].
  intros r st (d' & S & Ha). exists d'. split; [by eapply opened_same|done].
Qed.

Lemma keeps_ret {A} (a : A) i : keeps (mret a) i.
Proof. intros d fds e E Hi Hd Ho. apply wp_ret. exists d. split; [done|]. rewrite insert_id by done. by exists e. Qed.

Lemma keeps_bind {A B} (x : M (dfs_state H) A) (k : A -> M (dfs_state H) B) i : keeps x i -> (forall a, keeps (k a) i) -> keeps (x ≫= k) i.
Proof.
  intros Hx Hk d fds e E Hi Hd Ho. apply wp_bind. eapply wp_mono; [|by apply (Hx d fds e)]. intros a st (d1 & Ho1 & e1 & -> & E1 & L1).
  eapply wp_mono; [|apply (Hk a d1 _ e1 E1 Hi (lookup_insert_eq _ _ _) Ho1)]. intros b st (d2 & Ho2 & A2). rewrite insert_insert_eq in A2.
  exists d2. split; [done|by apply (after_elike e e1)].
Qed.

Lemma keeps_upd f i : (forall d, fd_path (f d) = fd_path d /\ fd_fops (f d) = fd_fops d /\ fd_magic (f d) = fd_magic d /\ fd_ref_count (f d) = fd_ref_count d) -> keeps (upd_obj i f) i.
Proof.
  intros Hf d fds e E Hi Hd Ho. destruct (Hf d) as (H1 & H2 & H3 & H4). eapply wp_mono; [|apply (after_upd f [] fds e i d); done].
  intros ? st A. exists (f d). split; [|done]. destruct Ho as (? & ? & ? & ?). split_and!; [congruence|congruence|by rewrite H2|by rewrite H1].
Qed.

Lemma keeps_get i : forall (k : dfs_fd -> M (dfs_state H) Z), (forall d, keeps (k d) i) -> keeps (d ← get_obj i; k d) i.
Proof. intros k Hk d fds e E Hi Hd Ho. apply wp_bind. apply (wp_get_obj fds e i d); [done|]. by apply (Hk d d). Qed.

Lemma keeps_fops {A} i (k : dfs_file_ops (dfs_state H) -> M (dfs_state H) A) : (forall f, keeps (k (fops f)) i) -> keeps (f ← fops_of fops i; k f) i.
Proof.
  intros Hk d fds e E Hi Hd Ho. pose proof Ho as (_ & _ & [f Hf] & _). apply wp_bind. apply (wp_Ok _ _ _ _ _ (run_fops_of i d f fds e Hd Hf)). by apply (Hk f d).
Qed.

Lemma keeps_read i len : keeps (dfs_file_read fops (Some i) len) i.
Proof.
  unfold dfs_file_read; apply keeps_fops; intros f; cbv beta; case_match eqn:Eg; [|apply keeps_ret].
  apply keeps_bind; [by eapply keeps_driver, dr_read|]. intros r. apply keeps_bind; [|intros _; apply keeps_ret].
  unfold when. case_match; [by apply keeps_upd|apply keeps_ret].
Qed.
Lemma keeps_write i buf len : keeps (dfs_file_write fops (Some i) buf len) i.
Proof. unfold dfs_file_write; apply keeps_fops; intros f; cbv beta; case_match eqn:Eg; [by eapply keeps_driver, dr_write|apply keeps_ret]. Qed.
Lemma keeps_flush i : keeps (dfs_file_flush fops (Some i)) i.
Proof. unfold dfs_file_flush; apply keeps_fops; intros f; cbv beta; case_match eqn:Eg; [by eapply keeps_driver, dr_flush|apply keeps_ret]. Qed.
Lemma keeps_lseek i off : keeps (dfs_file_lseek fops (Some i) off) i.
Proof.
  unfold dfs_file_lseek; apply keeps_fops; intros f; cbv beta; case_match eqn:Eg; [|apply keeps_ret].
  apply keeps_bind; [by eapply keeps_driver, dr_lseek|]. intros r. apply keeps_bind; [|intros _; apply keeps_ret].
  unfold when. case_match; [by apply keeps_upd|apply keeps_ret].
Qed.
Lemma keeps_ioctl i cmd args : keeps (dfs_file_ioctl fops (Some i) cmd args) i.
Proof.
  unfold dfs_file_ioctl. apply keeps_get. intros d. cbv beta zeta. case_match; [apply keeps_ret|]. case_match; [apply keeps_bind; [by apply keeps_upd|intros _; apply keeps_ret]|].
  apply keeps_fops; intros f; cbv beta; case_match eqn:Eg; [by eapply keeps_driver, dr_ioctl|apply keeps_ret].
Qed.

(** ** The calls *)

Inductive posix_call :=
| COpen (file : list Z) (flags : Z)
| CClose (fd : Z)
| CRead (fd len : Z)
| CWrite (fd : Z) (buf : list Z) (len : Z)
| CLseek (fd offset whence : Z)
| CFstat (fd : Z)
| CFsync (fd : Z)
| CFcntl (fd cmd arg : Z)
| CUnlink (path : list Z)
| CStat (path : list Z)
| CAccess (path : list Z).

Definition posix_exec (c : posix_call) : M (dfs_state H) Z :=
  match c with
  | COpen file flags => open malloc free fops types file flags
  | CClose fd => close free fops fd
  | CRead fd len => r ← read fops fd len; mret r.1
  | CWrite fd buf len => write fops fd buf len
  | CLseek fd offset whence => lseek fops fd offset whence
  | CFstat fd => r ← fstat fd; mret r.1
  | CFsync fd => fsync fops fd
  | CFcntl fd cmd arg => fcntl fops fd cmd arg
  | CUnlink path => unlink malloc free types path
  | CStat path => r ← stat_ malloc free types path; mret r.1
  | CAccess path => access malloc free types path
  end.

Definition call_fits (c : posix_call) : Prop :=
  match c with COpen p _ | CUnlink p | CStat p | CAccess p => Z.of_nat (length p) <= 2 ^ 30 | _ => True end.

(** Which descriptors are open. *)
Definition in_use (fds : gmap nat dfs_fd) : list bool :=
  (fun j => match fds !! j with Some d => negb (fd_ref_count d =? 0) | None => false end) <$> seq 0 DFS_FD_MAX.

(** What a call does to them: [open] takes the first one that is free, [close] gives
    back the one it was called with, the others change nothing. *)
Definition call_effect (c : posix_call) (r : Z) (u u' : list bool) : Prop :=
  match c with
  | COpen _ _ => r = -1 /\ u' = u \/
      exists i, r = Z.of_nat i + DFS_FD_OFFSET /\ u !! i = Some false /\ (forall j, (j < i)%nat -> u !! j = Some true) /\ u' = <[i := true]> u
  | CClose fd => r = -1 /\ u' = u \/ r = 0 /\ exists i, fd = Z.of_nat i + DFS_FD_OFFSET /\ u !! i = Some true /\ u' = <[i := false]> u
  | _ => u' = u
  end.

Record dfs_inv (st : dfs_state H) : Prop := { dv_env : env_ok [] st.1 st.2; dv_rest : all_rest st.1; dv_lock : de_lock st.2 = 0 }.

Lemma in_use_upd fds i d d' :
  (i < DFS_FD_MAX)%nat -> fds !! i = Some d -> in_use (<[i := d']> fds) = <[i := negb (fd_ref_count d' =? 0)]> (in_use fds).
Proof.
  intros Hi Hd. unfold in_use. apply list_eq. intros j. destruct (decide (j = i)) as [->|Hne].
  - rewrite list_lookup_insert_eq by (rewrite length_fmap, length_seq; done). rewrite list_lookup_fmap, lookup_seq_lt by done. simpl. by rewrite lookup_insert_eq.
  - rewrite list_lookup_insert_ne by done. rewrite !list_lookup_fmap. destruct (seq 0 DFS_FD_MAX !! j) as [k|] eqn:Ek; [|done].
    apply lookup_seq in Ek as [-> _]. simpl. by rewrite lookup_insert_ne by done.
Qed.

Lemma in_use_at fds i d : (i < DFS_FD_MAX)%nat -> fds !! i = Some d -> in_use fds !! i = Some (negb (fd_ref_count d =? 0)).
Proof. intros Hi Hd. unfold in_use. rewrite list_lookup_fmap, lookup_seq_lt by done. simpl. by rewrite Hd. Qed.

Lemma rest_upd fds i d : all_rest fds -> resting d -> all_rest (<[i := d]> fds).
Proof.
  intros R Hd j Hj. destruct (decide (j = i)) as [->|]; [rewrite lookup_insert_eq; by exists d|]. rewrite lookup_insert_ne by done. by apply R.
Qed.

(** The state behind a call that changed descriptor [i] at most. *)
Definition done_with (e : dfs_env H) (fds : gmap nat dfs_fd) (i : nat) (d : dfs_fd) (st : dfs_state H) : Prop :=
  resting d /\ after e [] (<[i := d]> fds) st.

Lemma done_inv e fds i d st : dfs_inv (fds, e) -> done_with e fds i d st -> dfs_inv st.
Proof.
  intros [E R L] (Hd & e' & -> & E' & _ & _ & _ & L'). split; [done|by apply rest_upd|]. simpl in *. congruence.
Qed.

Lemma after_inv e fds st : dfs_inv (fds, e) -> after e [] fds st -> dfs_inv st /\ st.1 = fds.
Proof. intros [E R L] (e' & -> & E' & _ & _ & _ & L'). split; [|done]. split; [done|done|]. simpl in *. congruence. Qed.

Lemma wp_with_fd {A} fd (k : option nat -> M (dfs_state H) A) (Q : A -> dfs_state H -> Prop) fds e :
  dfs_inv (fds, e) ->
  (forall e', env_ok [] fds e' -> elike e e' -> wp (k None) Q (fds, e')) ->
  (forall i d e', (i < DFS_FD_MAX)%nat -> fd = Z.of_nat i + DFS_FD_OFFSET -> fds !! i = Some d -> opened_fd 1 d ->
     env_ok [] (<[i := set_ref_count 2 d]> fds) e' -> elike e e' -> wp (k (Some i)) Q (<[i := set_ref_count 2 d]> fds, e')) ->
  wp (d ← fd_get fd; k d) Q (fds, e).
Proof.
  intros [E R L] Hn Hb. cbn [fst snd] in E, R, L. apply wp_bind. eapply wp_mono; [|apply (wp_fd_get fd [] fds e E)]; [|intros j Hj; destruct (R j Hj) as (d & -> & _); by eexists].
  intros [i|] st.
  - intros (Hi & Ef & d & Hd & Hm & e' & -> & E' & L'). destruct (R i Hi) as (d0 & Hd0 & Hr). rewrite Hd in Hd0. injection Hd0 as <-.
    destruct Hr as [->|Ho]; [done|]. pose proof Ho as (_ & Hc & _). rewrite Hc in *. by apply (Hb i d e').
  - intros ((e' & -> & E' & L') & _). by apply Hn.
Qed.

(** Giving back a descriptor that stays open. *)
Lemma wp_put_back i d fds e :
  env_ok [] (<[i := d]> fds) e -> (i < DFS_FD_MAX)%nat -> opened_fd 2 d ->
  wp (fd_put (Some i)) (fun _ st' => exists d1, opened_fd 1 d1 /\ after e [] (<[i := d1]> fds) st') (<[i := d]> fds, e).
Proof.
  intros E Hi Ho. pose proof Ho as (Hm & Hc & Hf & Hp). eapply wp_mono; [|apply (wp_fd_put i d [] _ e E Hi); [apply lookup_insert_eq|lia]].
  intros ? st A. rewrite insert_insert_eq in A. unfold put_fd in A. rewrite Hc in A. change (2 - 1 =? 0) with false in A. cbv iota in A.
  exists (set_ref_count (2 - 1) d). split; [|exact A]. by split_and!.
Qed.

Definition quiet_call (fds : gmap nat dfs_fd) (st : dfs_state H) : Prop := dfs_inv st /\ in_use st.1 = in_use fds.

Lemma still_open e fds i d d1 e' :
  dfs_inv (fds, e) -> (i < DFS_FD_MAX)%nat -> fds !! i = Some d -> opened_fd 1 d -> opened_fd 1 d1 ->
  env_ok [] (<[i := d1]> fds) e' -> elike e e' -> quiet_call fds (<[i := d1]> fds, e').
Proof.
  intros [E R L] Hi Hd (_ & Hc & _) Ho1 E' (_ & _ & _ & L'). cbn [fst snd] in E, R, L. split.
  - split; [done|apply rest_upd; [done|by right]|simpl in *; congruence].
  - simpl. rewrite (in_use_upd fds i d d1 Hi Hd). destruct Ho1 as (_ & Hc1 & _). rewrite Hc1. apply list_insert_id. rewrite (in_use_at fds i d Hi Hd). by rewrite Hc.
Qed.

Lemma quiet_after e fds st : dfs_inv (fds, e) -> after e [] fds st -> quiet_call fds st.
Proof. intros I A. destruct (after_inv e fds st I A) as [I' E]. split; [done|by rewrite E]. Qed.

(** The descriptor is given back, and an error number may be left. *)
Lemma wp_put_failed i d d2 x fds e e' :
  dfs_inv (fds, e) -> (i < DFS_FD_MAX)%nat -> fds !! i = Some d -> opened_fd 1 d -> opened_fd 2 d2 -> env_ok [] (<[i := d2]> fds) e' -> elike e e' ->
  wp (fd_put (Some i);; fail_errno x) (fun _ st' => quiet_call fds st') (<[i := d2]> fds, e').
Proof.
  intros I Hi Hd Ho Ho2 E' L'. apply wp_bind. eapply wp_mono; [|by apply wp_put_back]. intros ? st (d1 & Ho1 & e1 & -> & E1 & L1).
  eapply wp_mono; [|by apply wp_failed]. intros r st (_ & e2 & -> & E2 & L2).
  apply (still_open e fds i d); try done. eapply elike_trans; [exact L'|]. by eapply elike_trans.
Qed.

Lemma wp_put_ret {A} i d d2 (x : A) fds e e' :
  dfs_inv (fds, e) -> (i < DFS_FD_MAX)%nat -> fds !! i = Some d -> opened_fd 1 d -> opened_fd 2 d2 -> env_ok [] (<[i := d2]> fds) e' -> elike e e' ->
  wp (fd_put (Some i);; mret x) (fun _ st' => quiet_call fds st') (<[i := d2]> fds, e').
Proof.
  intros I Hi Hd Ho Ho2 E' L'. apply wp_bind. eapply wp_mono; [|by apply wp_put_back]. intros ? st (d1 & Ho1 & e1 & -> & E1 & L1).
  apply wp_ret. apply (still_open e fds i d); try done. by eapply elike_trans.
Qed.

(** An operation on the open descriptor and what follows it. *)
Lemma wp_keeps {A B} (x : M (dfs_state H) A) (k : A -> M (dfs_state H) B) Q i d fds e e' :
  dfs_inv (fds, e) -> keeps x i -> (i < DFS_FD_MAX)%nat -> opened_fd 1 d -> env_ok [] (<[i := set_ref_count 2 d]> fds) e' -> elike e e' ->
  (forall a d2 e2, opened_fd 2 d2 -> env_ok [] (<[i := d2]> fds) e2 -> elike e e2 -> wp (k a) Q (<[i := d2]> fds, e2)) ->
  wp (a ← x; k a) Q (<[i := set_ref_count 2 d]> fds, e').
Proof.
  intros I K Hi Ho E' L' Hk. apply wp_bind. eapply wp_mono; [|apply (K (set_ref_count 2 d) _ e' E' Hi (lookup_insert_eq _ _ _))].
  - intros a st (d2 & Ho2 & e2 & -> & E2 & L2). rewrite insert_insert_eq in *. apply Hk; [done|done|by eapply elike_trans].
  - destruct Ho as (? & _ & ? & ?). by split_and!.
Qed.

Lemma wp_failed_quiet x fds e e' : dfs_inv (fds, e) -> env_ok [] fds e' -> elike e e' -> wp (fail_errno x) (fun _ st' => quiet_call fds st') (fds, e').
Proof. intros I E' L'. eapply wp_mono; [|by apply wp_failed]. intros r st (_ & A). eapply quiet_after; [exact I|by apply (after_elike e e')]. Qed.

Lemma wp_read fd len fds e : dfs_inv (fds, e) -> wp (read fops fd len) (fun _ st' => quiet_call fds st') (fds, e).
Proof.
  intros I. apply wp_with_fd; [done| |].
  - intros e' E' L'. apply wp_bind. eapply wp_mono; [|by apply (wp_failed_quiet _ fds e)]. intros r st Hq. by apply wp_ret.
  - intros i d e' Hi _ Hd Ho E' L'. apply (wp_keeps _ _ _ i d fds e); try done; [apply keeps_read|]. intros a d2 e2 Ho2 E2 L2. apply wp_if; intros _.
    + apply wp_bind. eapply wp_mono; [|by apply wp_put_back]. intros ? st (d1 & Ho1 & e3 & -> & E3 & L3). apply wp_bind.
      eapply wp_mono; [|by apply wp_failed]. intros r st (_ & e4 & -> & E4 & L4). apply wp_ret.
      apply (still_open e fds i d); try done. eapply elike_trans; [exact L2|]. by eapply elike_trans.
    + by apply (wp_put_ret i d d2 _ fds e).
Qed.

Lemma wp_write fd buf len fds e : dfs_inv (fds, e) -> wp (write fops fd buf len) (fun _ st' => quiet_call fds st') (fds, e).
Proof.
  intros I. apply wp_with_fd; [done| |].
  - intros e' E' L'. by apply (wp_failed_quiet _ fds e).
  - intros i d e' Hi _ Hd Ho E' L'. apply (wp_keeps _ _ _ i d fds e); try done; [apply keeps_write|]. intros a d2 e2 Ho2 E2 L2. apply wp_if; intros _.
    + by apply (wp_put_failed i d d2 _ fds e).
    + by apply (wp_put_ret i d d2 _ fds e).
Qed.

Lemma wp_fsync fd fds e : dfs_inv (fds, e) -> wp (fsync fops fd) (fun _ st' => quiet_call fds st') (fds, e).
Proof.
  intros I. apply wp_with_fd; [done| |].
  - intros e' E' L'. by apply (wp_failed_quiet _ fds e).
  - intros i d e' Hi _ Hd Ho E' L'. apply (wp_keeps _ _ _ i d fds e); try done; [apply keeps_flush|]. intros a d2 e2 Ho2 E2 L2. by apply (wp_put_ret i d d2 _ fds e).
Qed.

Lemma opened_more d : opened_fd 1 d -> opened_fd 2 (set_ref_count 2 d).
Proof. intros (? & _ & ? & ?). by split_and!. Qed.

Lemma wp_fstat fd fds e : dfs_inv (fds, e) -> wp (fstat fd) (fun _ st' => quiet_call fds st') (fds, e).
Proof.
  intros I. unfold fstat. apply wp_with_fd; [done| |].
  - intros e' E' L'. apply wp_bind. eapply wp_mono; [|by apply (wp_failed_quiet _ fds e)]. intros r st Hq. by apply wp_ret.
  - intros i d e' Hi _ Hd Ho E' L'. apply wp_bind. apply (wp_get_obj _ _ i (set_ref_count 2 d)); [apply lookup_insert_eq|].
    apply (wp_put_ret i d _ _ fds e); try done. by apply opened_more.
Qed.

Lemma wp_lseek fd off whence fds e : dfs_inv (fds, e) -> wp (lseek fops fd off whence) (fun _ st' => quiet_call fds st') (fds, e).
Proof.
  intros I. unfold lseek.
  apply wp_with_fd; [done| |].
  - intros e' E' L'. by apply (wp_failed_quiet _ fds e).
  - intros i d e' Hi _ Hd Ho E' L'. pose proof (opened_more d Ho) as Ho2.
    apply wp_bind. apply (wp_get_obj _ _ i (set_ref_count 2 d)); [apply lookup_insert_eq|]. cbv zeta.
    case_match; [|by apply (wp_put_failed i d (set_ref_count 2 d) _ fds e)].
    apply wp_if; intros _; [by apply (wp_put_failed i d (set_ref_count 2 d) _ fds e)|].
    apply (wp_keeps _ _ _ i d fds e); try done; [apply keeps_lseek|]. intros a d3 e2 Ho3 E2 L2. apply wp_if; intros _.
    + by apply (wp_put_failed i d d3 _ fds e).
    + by apply (wp_put_ret i d d3 _ fds e).
Qed.

Lemma wp_fcntl fd cmd arg fds e : dfs_inv (fds, e) -> wp (fcntl fops fd cmd arg) (fun _ st' => quiet_call fds st') (fds, e).
Proof.
  intros I. unfold fcntl.
  assert (wp (d ← fd_get fd; match d with Some _ => ret ← dfs_file_ioctl fops d cmd arg; fd_put d;; mret ret | None => mret (- EBADF) end)
    (fun _ st' => exists fds1 e1, st' = (fds1, e1) /\ quiet_call fds (fds1, e1)) (fds, e)) as Hw.
  { apply wp_with_fd; [done| |].
    - intros e' E' L'. apply wp_ret. eexists _, _. split; [done|]. eapply quiet_after; [exact I|]. by exists e'.
    - intros i d e' Hi _ Hd Ho E' L'. apply (wp_keeps _ _ _ i d fds e); try done; [apply keeps_ioctl|]. intros a d2 e2 Ho2 E2 L2.
      eapply wp_mono; [|by apply (wp_put_ret i d d2 _ fds e)]. intros r [fds1 e1] Hq. by exists fds1, e1. }
  apply wp_bind_inv in Hw. apply wp_bind. eapply wp_mono; [|exact Hw]. cbv beta. intros d st Hd. apply wp_bind. eapply wp_mono; [|exact Hd].
  intros ret st' (fds1 & e1 & -> & I1 & Hu). apply wp_bind. apply wp_when; intros _; [|apply wp_ret; by split].
  eapply wp_mono; [|apply wp_errno; apply (dv_env _ I1)]. intros ? st'' A. apply wp_ret. destruct (quiet_after e1 fds1 st'' I1 A) as [I2 Hu2]. split; [done|]. by rewrite Hu2.
Qed.

Lemma wp_unlink path fds e : dfs_inv (fds, e) -> Z.of_nat (length path) <= 2 ^ 30 -> wp (dfs_file_unlink malloc free types path) (fun _ st' => after e [] fds st') (fds, e).
Proof.
  intros I Hl. pose proof (dv_env _ I) as E. pose proof (dv_rest _ I) as R. cbn [fst snd] in E, R. unfold dfs_file_unlink.
  assert (safe_fds fds) as S.
  { intros j Hj. destruct (R j Hj) as (d & Hd & [->|(_ & _ & _ & Hp)]); [exists cleared_fd; split; [done|]; by intros [? ?]|by exists d]. }
  apply wp_bind. eapply wp_mono; [|apply wp_normalize; [exact E|lia]]. intros [full|] st; [|by intros A; apply wp_ret]. intros (Hlen & n & e1 & -> & E1 & L1).
  apply wp_bind. apply (wp_Ok _ _ _ _ _ (run_lookup _ _ _)). apply wp_bind.
  assert (forall x : M (dfs_state H) Z, wp x (fun _ st' => after e [(str_addr full, n)] fds st') (fds, e1) -> wp x (fun r st' => wp (free_str free (Some full);; mret r) (fun _ st' => after e [] fds st') st') (fds, e1)) as Hfree.
  { intros x Hx. eapply wp_mono; [|exact Hx]. intros r st (e2 & -> & E2 & L2). apply wp_bind. eapply wp_mono; [|by apply (wp_free_str _ n)].
    intros ? st A. apply wp_ret. by apply (after_elike e e2). }
  apply Hfree. destruct (lookup_loop (str_text full) 0 (de_fs e1) None 0) as [k|] eqn:Ek; [|by apply wp_ret; exists e1].
  destruct (lookup_is_mounted _ _ _ Ek) as (t & mount & Hm). apply wp_bind. eapply wp_mono; [|apply wp_is_open; [exact E1|exact S|lia]].
  intros r st (e2 & -> & E2 & L2). pose proof (elike_trans _ _ _ L1 L2) as L12. apply wp_if; intros _; [by apply wp_ret; exists e2|].
  apply wp_bind. apply (wp_Ok _ _ _ _ _ (proj1 (Hm fds e2 (proj1 L2)))). apply wp_bind. apply (wp_Ok _ _ _ _ _ (proj2 (Hm fds e2 (proj1 L2)))).
  destruct (o_unlink (types t)) as [f|] eqn:Eu; [|by apply wp_ret; exists e2]. eapply wp_mono; [|eapply wp_fs_driver; [by eapply dr_unlink|exact E2]].
  intros ? st A. by apply (after_elike e e2).
Qed.

Lemma wp_stat path fds e : dfs_inv (fds, e) -> Z.of_nat (length path) <= 2 ^ 30 -> wp (stat_ malloc free types path) (fun _ st' => quiet_call fds st') (fds, e).
Proof.
  intros I Hl. pose proof (dv_env _ I) as E. cbn [fst snd] in E. unfold stat_. apply wp_bind.
  assert (wp (dfs_file_stat malloc free types path) (fun _ st' => after e [] fds st') (fds, e)) as Hs.
  { unfold dfs_file_stat. apply wp_bind. eapply wp_mono; [|apply wp_normalize; [exact E|lia]]. intros [full|] st; [|by intros A; apply wp_ret]. intros (Hlen & n & e1 & -> & E1 & L1).
    assert (forall (r : Z * option stat) e2, env_ok [(str_addr full, n)] fds e2 -> elike e e2 -> wp (free_str free (Some full);; mret r) (fun _ st' => after e [] fds st') (fds, e2)) as Hfree.
    { intros r e2 E2 L2. apply wp_bind. eapply wp_mono; [|by apply (wp_free_str _ n)]. intros ? st A. apply wp_ret. by apply (after_elike e e2). }
    apply wp_bind. apply (wp_Ok _ _ _ _ _ (run_lookup _ _ _)). destruct (lookup_loop (str_text full) 0 (de_fs e1) None 0) as [k|] eqn:Ek; [|by apply Hfree].
    destruct (lookup_is_mounted _ _ _ Ek) as (t & mount & Hm). apply wp_bind. apply (wp_Ok _ _ _ _ _ (proj2 (Hm fds e1 eq_refl))).
    apply wp_if; intros Hroot; [by apply Hfree|]. apply wp_bind. apply (wp_Ok _ _ _ _ _ (proj1 (Hm fds e1 eq_refl))).
    destruct (o_stat (types t)) as [f|] eqn:Eu; [|by apply Hfree]. apply orb_false_iff in Hroot as [_ Hsub]. apply bool_decide_eq_false in Hsub.
    assert (exists p, driver_path (types t) mount (str_text full) = Some p) as [p Hp].
    { unfold driver_path. case_match; [|by eexists]. destruct (subdir mount (str_text full)); [by eexists|done]. }
    apply wp_bind. apply (wp_deref _ _ _ p); [done|]. apply wp_bind. eapply wp_mono; [|eapply wp_fs_driver; [by eapply dr_stat|exact E1]].
    intros r st (e2 & -> & E2 & L2). apply Hfree; [done|by eapply elike_trans]. }
  eapply wp_mono; [|exact Hs]. intros r st (e1 & -> & E1 & L1). apply wp_if; intros _.
  - apply wp_bind. eapply wp_mono; [|by apply (wp_failed_quiet _ fds e)]. intros x st Hq. by apply wp_ret.
  - apply wp_ret. eapply quiet_after; [exact I|by exists e1].
Qed.

(** *** Opening and closing as calls *)

Definition call_ok (c : posix_call) (fds : gmap nat dfs_fd) (r : Z) (st : dfs_state H) : Prop :=
  dfs_inv st /\ call_effect c r (in_use fds) (in_use st.1).

(** One reference fewer of two. *)
Lemma wp_put_one i d fds e :
  env_ok [] (<[i := d]> fds) e -> (i < DFS_FD_MAX)%nat -> busy 2 d ->
  wp (fd_put (Some i)) (fun _ st' => after e [] (<[i := set_ref_count 1 d]> fds) st') (<[i := d]> fds, e).
Proof.
  intros E Hi [Hm Hc]. eapply wp_mono; [|apply (wp_fd_put i d [] _ e E Hi); [apply lookup_insert_eq|lia]].
  intros ? st A. rewrite insert_insert_eq in A. unfold put_fd in A. by rewrite Hc in A.
Qed.

(** The last reference. *)
Lemma wp_put_last i d fds e :
  env_ok [] (<[i := set_ref_count 1 d]> fds) e -> (i < DFS_FD_MAX)%nat -> fd_path d = None ->
  wp (fd_put (Some i)) (fun _ st' => after e [] (<[i := cleared_fd]> fds) st') (<[i := set_ref_count 1 d]> fds, e).
Proof.
  intros E Hi Hp. eapply wp_mono; [|apply (wp_fd_put i (set_ref_count 1 d) [] _ e E Hi); [apply lookup_insert_eq|done]].
  intros ? st A. by rewrite insert_insert_eq in A.
Qed.

Lemma used_in_use fds j : (j < DFS_FD_MAX)%nat -> used fds j -> in_use fds !! j = Some true.
Proof. intros Hj (d & Hd & _ & Hc & _). rewrite (in_use_at fds j d Hj Hd). by rewrite Hc. Qed.

Lemma all_there (fds : gmap nat dfs_fd) i d' : all_rest fds -> forall j, (j < DFS_FD_MAX)%nat -> is_Some ((<[i := d']> fds : gmap nat dfs_fd) !! j).
Proof.
  intros R j Hj. destruct (decide (j = i)) as [->|]; [rewrite lookup_insert_eq; by eexists|]. rewrite lookup_insert_ne by done.
  destruct (R j Hj) as (d & -> & _). by eexists.
Qed.

(** [open] comes to call the driver with a null path: the memory for it was refused. *)
Definition open_reaches (file : list Z) (flags : Z) : M (dfs_state H) bool :=
  fd ← fd_new;
  d ← fd_get fd;
  match d with
  | None => mret false
  | Some i =>
      refused ← file_prepare malloc free types i file flags;
      d ← get_obj i;
      mret (bool_decide (refused = None) && bool_decide (is_Some (f ← fd_fops d; f_open (fops f))) && bool_decide (fd_path d = None))
  end.
Definition starved (c : posix_call) (st : dfs_state H) : Prop :=
  match c with
  | COpen file flags => ret (open_reaches file flags) st = Some true
  | _ => False
  end.

Lemma wp_open file flags fds e :
  dfs_inv (fds, e) -> Z.of_nat (length file) <= 2 ^ 30 -> ~ starved (COpen file flags) (fds, e) ->
  wp (open malloc free fops types file flags) (call_ok (COpen file flags) fds) (fds, e).
Proof.
  intros I Hl Hns. pose proof I as [E R L]. cbn [fst snd] in E, R, L. unfold starved, ret, open_reaches in Hns. unfold open. apply wp_bind.
  destruct (proj1 (wp_run _ _ _) (wp_fd_new [] fds e E R)) as (r & st & En & Hnew). apply (wp_Ok _ _ _ _ _ En). rewrite (bind_Ok _ _ _ _ _ En) in Hns. clear En.
  destruct Hnew as [(-> & e1 & -> & E1 & L1)|(i & Hi & -> & Hd & Hfirst & e1 & -> & E1 & L1)].
  - change (-1 <? 0) with true. cbv iota. eapply wp_mono; [|by apply wp_failed]. intros r st (-> & A). apply (after_elike e e1) in A; [|done].
    destruct (after_inv e fds st I A) as [I' Ef]. split; [done|]. left. split; [done|by rewrite Ef].
  - rewrite (proj2 (Z.ltb_ge _ _)) by (unfold DFS_FD_OFFSET; lia). apply wp_bind.
    edestruct (proj1 (wp_run _ _ _) (wp_fd_get (Z.of_nat i + DFS_FD_OFFSET) [] _ e1 E1 (all_there fds i _ R))) as (x & st & Eg & Hget).
    apply (wp_Ok _ _ _ _ _ Eg). rewrite (bind_Ok _ _ _ _ _ Eg) in Hns. clear Eg. destruct x as [i'|].
    2: { destruct Hget as (_ & Hno). by destruct (Hno i (new_fd 1) eq_refl Hi (lookup_insert_eq _ _ _)). }
    destruct Hget as (_ & Ei & d & Hd' & _ & e2 & -> & E2 & L2). assert (i' = i) as -> by lia. rewrite lookup_insert_eq in Hd'. injection Hd' as <-.
    rewrite insert_insert_eq in *. change (set_ref_count _ _) with (new_fd 2) in *. pose proof (elike_trans _ _ _ L1 L2) as L12.
    apply wp_bind. eapply wp_mono; [|apply (wp_file_open i file flags (new_fd 2) 2); try done; [apply lookup_insert_eq|..]].
    2: { intros j Hj Hne. rewrite lookup_insert_ne by done. by apply R. }
    2: { intros st1 d' Ep Hd2 Hop. apply dec_stable. intros Hno. apply Hns. rewrite (bind_Ok _ _ _ _ _ Ep). destruct st1 as [fds1 e3]. rewrite (bind_Ok _ _ _ _ _ (run_get_obj fds1 e3 i d' Hd2)).
      simpl. rewrite (bool_decide_true _ Hop). apply eq_None_not_Some in Hno. by rewrite Hno. }
    intros r st (d' & (e3 & -> & E3 & L3) & B & Hneg & Hpos). rewrite insert_insert_eq in *. pose proof (elike_trans _ _ _ L12 L3) as L13.
    apply wp_if; intros Hr; to_prop; apply wp_bind; (eapply wp_mono; [|by apply wp_put_one]); intros ? st (e4 & -> & E4 & L4); pose proof (elike_trans _ _ _ L13 L4) as L14.
    + apply wp_bind. eapply wp_mono; [|by apply wp_put_last, Hneg]. intros ? st (e5 & -> & E5 & L5). rewrite insert_id in * by done.
      eapply wp_mono; [|by apply wp_failed]. intros x st (-> & A). apply (after_elike e e5) in A; [|by eapply elike_trans].
      destruct (after_inv e fds st I A) as [I' Ef]. split; [done|]. left. split; [done|by rewrite Ef].
    + apply wp_ret. destruct (Hpos Hr) as (_ & Hm & Hc & Hf & Hp). assert (opened_fd 1 (set_ref_count 1 d')) as Ho by (by split_and!).
      split; [apply (done_inv e fds i (set_ref_count 1 d')); [done|]; split; [by right|by exists e4]|]. right. exists i. split; [done|]. split; [by rewrite (in_use_at fds i cleared_fd)|].
      split; [intros j Hj; apply used_in_use; [lia|by apply Hfirst]|]. cbn [fst]. by rewrite (in_use_upd fds i cleared_fd).
Qed.

Lemma wp_close fd fds e : dfs_inv (fds, e) -> wp (close free fops fd) (call_ok (CClose fd) fds) (fds, e).
Proof.
  intros I. unfold close. apply wp_with_fd; [done| |].
  - intros e' E' L'. eapply wp_mono; [|by apply wp_failed]. intros r st (-> & A). apply (after_elike e e') in A; [|done].
    destruct (after_inv e fds st I A) as [I' Ef]. split; [done|]. left. split; [done|by rewrite Ef].
  - intros i d e1 Hi Efd Hd Ho E1 L1. cbv beta iota. apply wp_bind.
    eapply wp_mono; [|apply (wp_file_close i (set_ref_count 2 d) 2 _ e1 E1 Hi (lookup_insert_eq _ _ _)); by apply opened_more].
    intros r st (d' & (e2 & -> & E2 & L2) & B & Hneg & Hpos). rewrite insert_insert_eq in *. pose proof (elike_trans _ _ _ L1 L2) as L12.
    apply wp_bind. eapply wp_mono; [|by apply wp_put_one]. intros ? st (e3 & -> & E3 & L3). pose proof (elike_trans _ _ _ L12 L3) as L13.
    apply wp_if; intros Hr; to_prop.
    + eapply wp_mono; [|by apply wp_failed]. intros x st (-> & e4 & -> & E4 & L4).
      destruct (Hneg Hr) as (Hm & _ & Hf & Hp). assert (opened_fd 1 (set_ref_count 1 d')) as Ho1 by (by split_and!).
      destruct (still_open e fds i d _ e4 I Hi Hd Ho Ho1 E4) as [I' Hu]; [by eapply elike_trans|].
      split; [done|]. by left.
    + apply wp_bind. eapply wp_mono; [|by apply wp_put_last, Hpos]. intros ? st (e4 & -> & E4 & L4). apply wp_ret.
      split; [apply (done_inv e fds i cleared_fd); [done|]; split; [by left|exists e4; split; [done|]; split; [done|by eapply elike_trans]]|].
      right. split; [done|]. exists i. split; [done|]. cbn [fst]. destruct Ho as (_ & Hc & _). split; [by rewrite (in_use_at fds i d), Hc|].
      by rewrite (in_use_upd fds i d).
Qed.

(** *** Every call, and sequences of calls *)

Lemma wp_posix_exec c fds e : dfs_inv (fds, e) -> call_fits c -> ~ starved c (fds, e) -> wp (posix_exec c) (call_ok c fds) (fds, e).
Proof.
  intros I Hf Hns. assert (forall {A} (x : M (dfs_state H) (Z * A)), wp x (fun _ st' => quiet_call fds st') (fds, e) ->
    wp (r ← x; mret r.1) (fun _ st' => quiet_call fds st') (fds, e)) as Hfst.
  { intros A x Hx. apply wp_bind. eapply wp_mono; [|exact Hx]. intros r st Hq. by apply wp_ret. }
  assert (forall x, wp x (fun _ st' => quiet_call fds st') (fds, e) ->
    match c with COpen _ _ | CClose _ => False | _ => True end -> wp x (call_ok c fds) (fds, e)) as Hquiet.
  { intros x Hx Hc. eapply wp_mono; [|exact Hx]. intros r st (I' & Hu). split; [done|]. by destruct c. }
  destruct c; simpl in *; [by apply wp_open|by apply wp_close|apply Hquiet; [|done]..].
  - apply Hfst. by apply wp_read.
  - by apply wp_write.
  - by apply wp_lseek.
  - apply Hfst. by apply wp_fstat.
  - by apply wp_fsync.
  - by apply wp_fcntl.
  - unfold unlink. apply wp_bind. eapply wp_mono; [|by apply wp_unlink]. intros r st (e1 & -> & E1 & L1). apply wp_if; intros _.
    + by apply (wp_failed_quiet _ fds e).
    + apply wp_ret. eapply quiet_after; [exact I|by exists e1].
  - apply Hfst. by apply wp_stat.
  - unfold access. apply wp_bind. eapply wp_mono; [|by apply wp_stat]. intros r st Hq. by apply wp_ret.
Qed.

(** The results of the calls, one behind the other. *)
Fixpoint posix_run (cs : list posix_call) : M (dfs_state H) (list Z) :=
  match cs with
  | [] => mret []
  | c :: cs => r ← posix_exec c; rs ← posix_run cs; mret (r :: rs)
  end.

(** The descriptors that are open before, between and behind the calls. *)
Fixpoint calls_effect (cs : list posix_call) (rs : list Z) (u u' : list bool) : Prop :=
  match cs, rs with
  | [], [] => u' = u
  | c :: cs, r :: rs => exists u1, call_effect c r u u1 /\ calls_effect cs rs u1 u'
  | _, _ => False
  end.

(** The calls [cs] return and leave everything in order. *)
Definition calls_return (cs : list posix_call) (st st' : dfs_state H) : Prop :=
  exists rs, posix_run cs st = Ok rs st' /\ dfs_inv st' /\ calls_effect cs rs (in_use st.1) (in_use st'.1).

Lemma calls_return_cons c cs r st st1 st' :
  posix_exec c st = Ok r st1 -> call_effect c r (in_use st.1) (in_use st1.1) -> calls_return cs st1 st' -> calls_return (c :: cs) st st'.
Proof.
  intros E Hc (rs & E2 & I & Hu). exists (r :: rs). cbn [posix_run]. rewrite (bind_Ok _ _ _ _ _ E), (bind_Ok _ _ _ _ _ E2). split; [done|]. split; [done|].
  by exists (in_use st1.1).
Qed.

(** C21: any sequence of the calls open, close, read, write, lseek, fstat, fsync, fcntl,
    unlink, stat and access, whatever the allocator and the drivers answer within their
    contracts.  Every call returns; [open] hands out the lowest descriptor that is free,
    [close] gives back its own, and no other call changes which are open; the lock is
    released, and the heap holds the paths of the open descriptors beside what the
    drivers hold and other code has allocated, so that no path is lost or freed
    twice.  The one exception is an [open] for which the memory of the path is refused:
    everything is in order up to that call, which hands the null path to the driver,
    and nothing is said from there on. *)
Theorem posix_calls_ok cs : forall st, dfs_inv st -> Forall call_fits cs ->
  (exists st', calls_return cs st st') \/
  (exists cs1 c cs2 st', cs = cs1 ++ c :: cs2 /\ calls_return cs1 st st' /\ starved c st').
Proof.
  induction cs as [|c cs IH]; intros [fds e] I Hf; [left; by exists (fds, e), []|]. apply Forall_cons in Hf as [Hc Hf].
  assert (Decision (starved c (fds, e))) as [Hs|Hs] by (destruct c; unfold starved; apply _).
  { right. exists [], c, cs, (fds, e). split; [done|]. split; [by exists []|done]. }
  destruct (proj1 (wp_run _ _ _) (wp_posix_exec c fds e I Hc Hs)) as (r & st1 & E1 & I1 & Hu1).
  destruct (IH st1 I1 Hf) as [(st' & Hr)|(cs1 & c' & cs2 & st' & -> & Hr & Hst)].
  - left. exists st'. by eapply calls_return_cons.
  - right. exists (c :: cs1), c', cs2, st'. split; [done|]. split; [by eapply calls_return_cons|done].
Qed.
End calls.

(** ** A file system on the heap of mem.c *)

(** A driver that reads the path and allocates an object for every open file; [closed] is what its close
    answers, and the object is freed unless that is an error. *)
Definition upd_priv (f : list Z -> list Z) : M (dfs_state heap) unit :=
  modify (fun st => (st.1, mk_denv (de_heap st.2) (de_fs st.2) (de_types st.2) (de_wd st.2) (de_lock st.2) (de_dev st.2) (f (de_priv st.2)))).
Definition demo_open (i : nat) : M (dfs_state heap) Z :=
  d ← get_obj i;
  path ← deref (fun _ => fd_path d);
  a ← on_dheap (rt_malloc 8);
  match a with
  | None => mret (- ENOMEM)
  | Some a => upd_priv (cons a);; upd_obj i (set_file (fd_fops d) (Some (AnObject a)));; mret 0
  end.
Definition demo_close (closed : Z) (i : nat) : M (dfs_state heap) Z :=
  d ← get_obj i;
  p ← gets (fun st => de_priv st.2);
  match fd_data d with
  | Some (AnObject a) =>
      if bool_decide (a ∈ p) && (0 <=? closed) then on_dheap (rt_free (Some a));; upd_priv (filter (.≠ a));; mret closed
      else mret closed
  | _ => mret closed
  end.
Definition demo_fops (closed : Z) : dfs_file_ops (dfs_state heap) :=
  mk_fops (Some demo_open) (Some (demo_close closed)) None (Some (fun _ _ => mret (1, [7]))) (Some (fun _ _ n => mret n)) None (Some (fun _ off => mret off)) None.
(** The functions of table 1 cannot close a file. *)
Definition demo_tables (n : nat) : dfs_file_ops (dfs_state heap) := demo_fops (if decide (n = 0%nat) then 0 else - EIO).
Definition demo_types (n : nat) : dfs_filesystem_ops (dfs_state heap) :=
  mk_fsops [101; Z.of_nat n] 0 n (Some (fun _ _ => mret 0)) (Some (fun _ => mret 0)) None None
    (Some (fun _ _ => mret 0)) (Some (fun _ _ => mret (0, mk_stat 0 S_file_mode 3 0))) (Some (fun _ _ _ => mret 0)).

Lemma fd_call_ret {A} i (a : A) : fd_call heap_owns i (mret a : M (dfs_state heap) A).
Proof.
  intros mine fds e d Hh Hd Hf Hp. apply wp_ret. exists d. cbn [fst snd]. rewrite insert_id by done. by split_and!.
Qed.

Lemma fs_call_ret {A} (a : A) : fs_call heap_owns (mret a : M (dfs_state heap) A).
Proof. intros mine fds e Hh. apply wp_ret. by split. Qed.

Lemma filter_same (P : Z -> Prop) `{!forall x, Decision (P x)} l : Forall P l -> filter P l = l.
Proof. induction 1 as [|x l Hx _ IH]; [done|]. by rewrite filter_cons_True, IH by done. Qed.

Lemma priv_split a pr : NoDup pr.*1 -> a ∈ pr.*1 -> exists n pr', pr ≡ₚ ((a, n) : Z * Z) :: pr' /\ pr'.*1 = filter (.≠ a) pr.*1.
Proof.
  induction pr as [|[b m] pr IH]; cbn [fmap list_fmap fst]; [by intros _ ?%not_elem_of_nil|]. intros [Hb Hn]%NoDup_cons Ha. destruct (decide (b = a)) as [->|Hne].
  - exists m, pr. split; [done|]. rewrite filter_cons_False by (by intros ?). symmetry. apply filter_same, Forall_forall. by intros x Hx ->.
  - apply elem_of_cons in Ha as [->|Ha]; [done|]. destruct (IH Hn Ha) as (n & pr' & P & E). exists n, ((b, m) :: pr'). split; [rewrite P; apply Permutation_swap|].
    rewrite filter_cons_True by done. cbn. by rewrite E.
Qed.

Lemma demo_open_ok i : fd_call heap_owns i (demo_open i).
Proof.
  intros mine fds e d Hh Hd Hf [p Hp]. unfold demo_open. apply wp_bind. apply (wp_get_obj fds e i d); [done|].
  apply wp_bind. apply (wp_Ok _ _ _ p (fds, e)); [by apply run_deref|].
  apply wp_bind. destruct Hh as (l & pr & O & P & Hpr). destruct (alloc_malloc (de_heap e) l 8 O) as (r & h & E & Hr); [lia|]. unfold wp at 1, on_dheap. cbn [snd fst]. rewrite E.
  destruct r as [a|].
  - destruct Hr as (n & l' & _ & O' & P'). apply wp_bind. apply wp_modify. apply wp_bind. eapply wp_upd_obj; [exact Hd|]. apply wp_ret. eexists. cbn [fst snd].
    split; [reflexivity|]. split; [by split_and!|]. split; try done. exists l', ((a, n) :: pr). cbn. split_and!; [done|rewrite P', P; solve_Permutation|by rewrite Hpr].
  - subst h. apply wp_ret. exists d. cbn [fst snd]. rewrite insert_id by done. split_and!; try done. split; try done. by exists l, pr.
Qed.

Lemma demo_close_ok closed i : fd_call heap_owns i (demo_close closed i).
Proof.
  intros mine fds e d Hh Hd Hf Hp. unfold demo_close. apply wp_bind. apply (wp_get_obj fds e i d); [done|]. apply wp_bind, wp_gets. cbn [snd].
  assert (wp (mret closed) (fun (r : Z) st' => exists d', st'.1 = <[i := d']> fds /\ same_fd d d' /\ env_frame heap_owns mine e st'.2) (fds, e)) as Hret.
  { apply wp_ret. exists d. cbn [fst snd]. rewrite insert_id by done. by split_and!. }
  destruct (fd_data d) as [[k|k|a]|]; try exact Hret. case_bool_decide as Ha; [|exact Hret]. cbn [andb]. apply wp_if; intros _; [|exact Hret].
  destruct Hh as (l & pr & O & P & Hpr). destruct (priv_split a pr) as (n & pr' & P' & E'); [|by rewrite Hpr|].
  { pose proof (alloc_nodup _ _ O) as Hn. rewrite P, fmap_app in Hn. by apply NoDup_app in Hn as (_ & _ & ?). }
  destruct (alloc_free (de_heap e) l a n O) as (h & l' & E & O' & P2); [rewrite P, P'; set_solver|]. apply wp_bind. unfold wp at 1, on_dheap. cbn [snd fst]. rewrite E.
  apply wp_bind. apply wp_modify. apply wp_ret. exists d. cbn [fst snd]. rewrite insert_id by done. split; [done|]. split; [by split_and!|]. split; try done.
  exists l', pr'. cbn. split_and!; [done| |by rewrite E', Hpr]. apply (Permutation_cons_inv (a := (a, n))). rewrite <- P2, P, P'. solve_Permutation.
Qed.

#[global] Instance demo_drivers : Drivers heap_owns demo_tables demo_types.
Proof.
  split; simpl.
  - intros n f i [= <-]. apply demo_open_ok.
  - intros n f i [= <-]. apply demo_close_ok.
  - done.
  - intros n f i k [= <-]. apply fd_call_ret.
  - intros n f i b k [= <-]. apply fd_call_ret.
  - done.
  - intros n f i k [= <-]. apply fd_call_ret.
  - intros n f k p [= <-]. apply fs_call_ret.
  - intros n f k p [= <-]. apply fs_call_ret.
Qed.

(** Type [t] is mounted at "/"; the text of the path is in the block at 12. *)
Definition fresh_dfs (t : nat) (h : heap) (k : kstate) : dfs_state heap :=
  ({[0%nat := cleared_fd; 1%nat := cleared_fd; 2%nat := cleared_fd; 3%nat := cleared_fd]},
   mk_denv h [mk_fs None (Some (mk_str 12 [SLASH])) (Some t); cleared_fs] [Some 0%nat; Some 1%nat] [SLASH] 0 (∅, k) []).
Definition demo_dfs (t : nat) : dfs_state heap := fresh_dfs t demo_heap1 demo.

Lemma fresh_dfs_inv t h k l : heap_owns h l -> errno_ok k -> dfs_inv heap_owns l (fresh_dfs t h k).
Proof.
  intros Ho Hk. assert (forall j, (j < DFS_FD_MAX)%nat -> (fresh_dfs t h k).1 !! j = Some cleared_fd) as Hfd.
  { intros j Hj. unfold DFS_FD_MAX in Hj. assert (j = 0 \/ j = 1 \/ j = 2 \/ j = 3)%nat as [-> | [-> | [-> | ->]]] by lia; reflexivity. }
  split; [split| |reflexivity].
  - exists (fun _ => []), l, []. split_and!; [done| |reflexivity|reflexivity]. intros j Hj. exists cleared_fd. split; [by apply Hfd|reflexivity].
  - exact Hk.
  - simpl. lia.
  - intros j Hj. exists cleared_fd. split; [by apply Hfd|by left].
Qed.

Lemma demo_heap1_owns : heap_owns demo_heap1 (live 0 demo_blocks).
Proof.
  exists demo_blocks. destruct demo_heap1_inv as [I L]. split; [exact I|]. split; [exact L|]. split; [|reflexivity].
  assert (h_size demo_heap1 = 1000) as -> by (vm_compute; reflexivity). lia.
Qed.

Lemma ctx_errno s t th : blocking_ctx s t th -> errno_ok s.
Proof. intros [_ Hc [Ht _] _ _] u Hu. rewrite Hc in Hu. injection Hu as <-. by eexists. Qed.

Lemma demo_dfs_inv t : dfs_inv heap_owns (live 0 demo_blocks) (demo_dfs t).
Proof. exact (fresh_dfs_inv t _ _ _ demo_heap1_owns (ctx_errno _ _ _ demo_ctx)). Qed.

Definition demo_calls : list posix_call :=
  [COpen [47; 97] O_RDWR; COpen [97] O_RDWR; CWrite 3 [5; 6] 2; CRead 3 8; CLseek 3 1 SEEK_SET; CStat [47; 98]; CUnlink [97]; CClose 3; CClose 3; CUnlink [47; 97]].

(** A file is opened, a second time in vain, used, not removed while it is open, closed,
    not closed again, and removed. *)
Lemma posix_calls_ok_witness :
  let run := posix_run rt_malloc rt_free demo_tables demo_types in
  let returned := calls_return rt_malloc rt_free heap_owns demo_tables demo_types (live 0 demo_blocks) in
  ((exists st', returned demo_calls (demo_dfs 0) st') \/
   (exists cs1 c cs2 st', demo_calls = cs1 ++ c :: cs2 /\ returned cs1 (demo_dfs 0) st' /\ starved rt_malloc rt_free demo_tables demo_types c st')) /\
  ret (run demo_calls) (demo_dfs 0) = Some [3; -1; 2; 1; 1; 0; -1; 0; -1; 0].
Proof.
  cbv zeta. split; [|vm_compute; reflexivity].
  apply (posix_calls_ok rt_malloc rt_free heap_owns demo_tables demo_types (live 0 demo_blocks) demo_calls (demo_dfs 0)).
  - apply demo_dfs_inv.
  - repeat constructor; vm_compute; discriminate.
Defined.

(** ** Limits *)

(** The heap has room for the full path and none for its copy: [open] calls a driver that
    reads the path with a null pointer. *)
Theorem open_null_path :
  let st := fresh_dfs 0 (run (rt_malloc 48) demo_heap1) demo in
  starved rt_malloc rt_free demo_tables demo_types (COpen [47; 97] O_RDWR) st /\
  open rt_malloc rt_free demo_tables demo_types [47; 97] O_RDWR st = Fault.
Proof. vm_compute. done. Qed.

(** [fcntl] and [ioctl] return 0 whatever happened, [F_GETFL] included. *)
Theorem fcntl_returns_zero {H} (fops : nat -> dfs_file_ops (dfs_state H)) fd cmd arg st r st' : fcntl fops fd cmd arg st = Ok r st' -> r = 0.
Proof.
  unfold fcntl. intros E. apply bind_Ok_inv in E as (d & s1 & _ & E). apply bind_Ok_inv in E as (x & s2 & _ & E). apply bind_Ok_inv in E as (u & s3 & _ & E). by injection E as <- _.
Qed.

(** [F_SETFL] forgets that the file is open and how it may be used. *)
Theorem setfl_forgets_open {H} (fops : nat -> dfs_file_ops (dfs_state H)) i d fds (e : dfs_env H) args :
  fds !! i = Some d -> fd_type d = FT_REGULAR ->
  exists d', dfs_file_ioctl fops (Some i) F_SETFL args (fds, e) = Ok 0 (<[i := d']> fds, e) /\ Z.land (fd_flags d') (Z.lor DFS_F_OPEN (Z.lor O_WRONLY O_RDWR)) = 0.
Proof.
  intros Hd Ht. unfold dfs_file_ioctl. run_step (run_get_obj fds e i d Hd). rewrite Ht. cbn. run_step (run_upd_obj fds e i (fun d => set_flags (Z.lor (Z.land (fd_flags d) (Z.lor O_NONBLOCK O_APPEND)) (Z.land args (Z.lor O_NONBLOCK O_APPEND))) d) d Hd).
  eexists. split; [reflexivity|]. cbn [fd_flags set_flags]. rewrite <- Z.land_lor_distr_l, <- Z.land_assoc. by rewrite Z.land_0_r.
Qed.

(** A directory that cannot be closed: [mkdir] gives the descriptor back and loses the
    memory of its path. *)
Theorem mkdir_loses_path :
  let st := run (mkdir rt_malloc rt_free demo_tables demo_types [47; 97]) (demo_dfs 1) in
  ret (mkdir rt_malloc rt_free demo_tables demo_types [47; 97]) (demo_dfs 1) = Some 0 /\ in_use st.1 = [false; false; false; false] /\
  ret (rt_malloc 80) (de_heap (demo_dfs 1).2) = Some (Some 924) /\ ret (rt_malloc 80) (de_heap st.2) = Some None.
Proof. vm_compute. done. Qed.

(** The table is asked for the path as it was given: "//" is mounted on "/". *)
Theorem mount_twice :
  let x := dfs_mount rt_malloc rt_free demo_tables demo_types (fun _ => mk_ops None None None None None None) 9 cleared_fd None in
  ret (x [47] [101; 1] 0) (demo_dfs 0) = Some (-1) /\ ret (x [47; 47] [101; 1] 0) (demo_dfs 0) = Some 0.
Proof. vm_compute. done. Qed.

(** Neither path has a file system: the null pointer is used. *)
Theorem rename_without_filesystem :
  let st := (fst (demo_dfs 0), mk_denv demo_heap1 [cleared_fs; cleared_fs] [] [SLASH] 0 (∅, demo) []) in
  rename rt_malloc rt_free demo_types [47; 97] [47; 98] st = Fault.
Proof. vm_compute. done. Qed.

(** A type of file system that is not registered: the loop of [dfs_mkfs] leaves the table. *)
Theorem mkfs_past_table {H} (types : nat -> dfs_filesystem_ops (dfs_state H)) fs_name name dev (st st1 : dfs_state H) :
  on_ddev (rt_device_find name) st = Ok (Some dev) st1 -> find_type types fs_name (de_types st1.2) = None -> dfs_mkfs types fs_name (Some name) st = Fault.
Proof.
  intros Ef Et. unfold dfs_mkfs. run_step Ef. destruct st1 as [fds e]. run_step (run_lock fds e). erewrite bind_Ok by reflexivity.
  cbv beta. cbn [snd de_types locked_env]. cbn [snd] in Et. rewrite Et. reflexivity.
Qed.

(** Two file systems of one type: a file of the first is taken for the file of the same
    name in the second. *)
Theorem same_name_other_mount :
  let st := (fst (demo_dfs 0), mk_denv demo_heap1 [mk_fs None (Some (mk_str 12 [47])) (Some 0%nat); mk_fs None (Some (mk_str 20 [47; 115])) (Some 0%nat)] [Some 0%nat] [SLASH] 0 (∅, demo) []) in
  ret (open rt_malloc rt_free demo_tables demo_types [47; 97] 0;; open rt_malloc rt_free demo_tables demo_types [47; 115; 47; 97] 0) st = Some (-1) /\
  ret (open rt_malloc rt_free demo_tables demo_types [47; 115; 47; 97] 0) st = Some 3.
Proof. vm_compute. done. Qed.
