(* ===== verification/Serial.v ===== *)
(** * Serial devices: components/drivers/serial/serial.c

    The receive side of the serial framework: the software FIFO that the interrupt
    handler fills and the readers empty, byte by byte or by DMA, polled input and
    output, opening and closing with their memory.  The functions of the uart and the
    callback are code of the board and of the user: parameters that work on a state
    [U], with the contract [Uart]. *)

From S2P Require Import Prelude Kernel KString Printf Object Timer Scheduler Thread KInv ThreadSpec Ipc Device Mem MemSpec Allocator Pipe PipeFile.

Definition RT_EIO : Z := 8.
Definition RT_DEVICE_FLAG_SUSPENDED : Z := 0x20.
Definition RT_DEVICE_FLAG_INT_RX : Z := 0x100.
Definition RT_DEVICE_FLAG_DMA_RX : Z := 0x200.
Definition RT_DEVICE_FLAG_INT_TX : Z := 0x400.
Definition RT_DEVICE_FLAG_DMA_TX : Z := 0x800.
Definition RT_DEVICE_CTRL_RESUME : Z := 1.
Definition RT_DEVICE_CTRL_SUSPEND : Z := 2.
Definition RT_DEVICE_CTRL_CONFIG : Z := 3.
Definition RT_DEVICE_CTRL_SET_INT : Z := 0x10.
Definition RT_DEVICE_CTRL_CLR_INT : Z := 0x11.
Definition RT_SERIAL_DMA_RX : Z := 1.
Definition NEWLINE : Z := 10.
Definition RETURN : Z := 13.

(** [struct serial_configure] *)
Record serial_configure := mk_config {
  baud_rate : Z; data_bits : Z; stop_bits : Z; parity : Z; bit_order : Z; invert : Z; bufsz : Z
}.

(** [struct rt_serial_rx_fifo], with the bytes behind it. *)
Record rt_serial_rx_fifo := mk_fifo { buffer : list Z; put_index : Z; get_index : Z; is_full : bool }.

(** What [serial_rx] and [serial_tx] point to, with the address of its memory; the
    queue of a DMA transmission has memory of its own. *)
Inductive serial_rx := RxFifo (a : Z) (f : rt_serial_rx_fifo) | RxDma (a : Z) (activated : bool).
Inductive serial_tx := TxFifo (a : Z) | TxDma (a : Z) (queue : option Z) (activated : bool).

Record rt_serial_device := mk_serial {
  s_parent : rt_device; s_config : serial_configure; s_rx : option serial_rx; s_tx : option serial_tx
}.

Section serial.
Context {H U : Type} (malloc : Z -> M H (option Z)) (free : option Z -> M H unit).
(** [serial->ops], the callback [rx_indicate] by its address, and [rt_set_errno]. *)
Context (configure : serial_configure -> M U Z) (control : Z -> Z -> M U Z) (putc : Z -> M U Z) (getc : M U Z).
Context (dma_transmit : Z -> Z -> M U Z) (rx_indicate : nat -> Z -> M U unit) (set_errno : Z -> M U unit).

(** The device, the heap, and everything else. *)
Definition serial_state : Type := rt_serial_device * (H * U).

Definition on_sheap {A} (x : M H A) : M serial_state A := fun st =>
  match x st.2.1 with Ok a h => Ok a (st.1, (h, st.2.2)) | Fault => Fault end.
Definition on_uart {A} (x : M U A) : M serial_state A := fun st =>
  match x st.2.2 with Ok a u => Ok a (st.1, (st.2.1, u)) | Fault => Fault end.
Definition upd_serial (f : rt_serial_device -> rt_serial_device) : M serial_state unit := modify (fun st => (f st.1, st.2)).
Definition upd_parent (f : rt_device -> rt_device) : M serial_state unit :=
  upd_serial (fun s => mk_serial (f (s_parent s)) (s_config s) (s_rx s) (s_tx s)).
Definition set_rx (r : option serial_rx) : M serial_state unit := upd_serial (fun s => mk_serial (s_parent s) (s_config s) r (s_tx s)).
Definition set_tx (t : option serial_tx) : M serial_state unit := upd_serial (fun s => mk_serial (s_parent s) (s_config s) (s_rx s) t).
Definition get_bufsz : M serial_state Z := gets (fun st => bufsz (s_config st.1)).
Definition get_open_flag : M serial_state Z := gets (fun st => dev_open_flag (s_parent st.1)).
Definition add_open_flag (f : Z) : M serial_state unit := upd_parent (fun d => set_dev_open_flag (Z.lor (dev_open_flag d) f) d).
Definition del_open_flag (f : Z) : M serial_state unit := upd_parent (fun d => set_dev_open_flag (Z.ldiff (dev_open_flag d) f) d).

(** [serial_rx] as a FIFO; a null pointer or another structure is a fault. *)
Definition get_fifo : M serial_state rt_serial_rx_fifo :=
  deref (fun st => match s_rx st.1 with Some (RxFifo _ f) => Some f | _ => None end).
Definition put_fifo (f : rt_serial_rx_fifo) : M serial_state unit :=
  upd_serial (fun s => mk_serial (s_parent s) (s_config s) (match s_rx s with Some (RxFifo a _) => Some (RxFifo a f) | r => r end) (s_tx s)).

(** ** Polling *)

Fixpoint _serial_poll_rx (length : nat) : M serial_state (list Z) :=
  match length with
  | O => mret []
  | S length =>
      ch ← on_uart getc;
      if ch =? -1 then mret []
      else if ch =? NEWLINE then mret [u8 ch]
      else rest ← _serial_poll_rx length; mret (u8 ch :: rest)
  end.

Fixpoint poll_tx_loop (data : list Z) : M serial_state unit :=
  match data with
  | [] => mret tt
  | c :: data =>
      o ← get_open_flag;
      (if (c =? NEWLINE) && has o RT_DEVICE_FLAG_STREAM then on_uart (putc RETURN);; mret tt else mret tt);;
      on_uart (putc c);;
      poll_tx_loop data
  end.
Definition _serial_poll_tx (data : list Z) : M serial_state Z := poll_tx_loop data;; mret (Z.of_nat (length data)).

(** ** Interrupts *)

(** The body of the loop of [_serial_int_rx] with interrupts off. *)
Definition int_rx_byte : M serial_state (option Z) :=
  f ← get_fifo;
  n ← get_bufsz;
  if (get_index f =? put_index f) && negb (is_full f) then mret None
  else
    ch ← deref (fun _ => buffer f !! Z.to_nat (get_index f));
    let get := u16 (get_index f + 1) in
    put_fifo (mk_fifo (buffer f) (put_index f) (if n <=? get then 0 else get) false);;
    mret (Some (Z.land ch 0xff)).

(** [irq k]: what the interrupts do when they are enabled with [k] bytes to go. *)
Fixpoint int_rx_loop (irq : nat -> M serial_state unit) (length : nat) : M serial_state (list Z) :=
  match length with
  | O => mret []
  | S length =>
      c ← int_rx_byte;
      irq length;;
      match c with
      | None => mret []
      | Some c => rest ← int_rx_loop irq length; mret (c :: rest)
      end
  end.
Definition _serial_int_rx (irq : nat -> M serial_state unit) (length : nat) : M serial_state (list Z) := get_fifo;; int_rx_loop irq length.

(** The body of the loop for [RT_SERIAL_EVENT_RX_IND] with interrupts off. *)
Definition isr_store (ch : Z) : M serial_state unit :=
  f ← get_fifo;
  n ← get_bufsz;
  deref (fun _ => buffer f !! Z.to_nat (put_index f));;
  let b := <[Z.to_nat (put_index f) := u8 ch]> (buffer f) in
  let put := u16 (put_index f + 1) in
  let put := if n <=? put then 0 else put in
  if put =? get_index f then
    let get := u16 (get_index f + 1) in
    put_fifo (mk_fifo b put (if n <=? get then 0 else get) true)
  else put_fifo (mk_fifo b put (get_index f) (is_full f)).

Fixpoint isr_loop (fuel : nat) : M serial_state unit :=
  match fuel with
  | O => fault
  | S fuel => ch ← on_uart getc; if ch =? -1 then mret tt else isr_store ch;; isr_loop fuel
  end.

Definition indicate (length : Z) : M serial_state unit :=
  ind ← gets (fun st => dev_rx_indicate (s_parent st.1));
  match ind with None => mret tt | Some fn => on_uart (rx_indicate fn length) end.

(** [rt_hw_serial_isr] for [RT_SERIAL_EVENT_RX_IND] *)
Definition isr_rx_ind (fuel : nat) : M serial_state unit :=
  get_fifo;;
  isr_loop fuel;;
  f ← get_fifo;
  n ← get_bufsz;
  indicate (if get_index f <=? put_index f then put_index f - get_index f else n - (get_index f - put_index f)).

(** ** DMA *)

Definition recved_len (n : Z) (f : rt_serial_rx_fifo) : Z :=
  if put_index f =? get_index f then (if is_full f then n else 0)
  else if get_index f <? put_index f then put_index f - get_index f
  else n - (get_index f - put_index f).
Definition _serial_fifo_calc_recved_len : M serial_state Z := f ← get_fifo; n ← get_bufsz; mret (recved_len n f).

Definition rt_dma_recv_update_get_index (len : Z) : M serial_state unit :=
  f ← get_fifo;
  n ← get_bufsz;
  rt_assert (len <=? recved_len n f);;
  let get := u16 (get_index f + len) in
  put_fifo (mk_fifo (buffer f) (put_index f) (if n <? get then get mod n else get) (is_full f && (len =? 0))).

Definition rt_dma_recv_update_put_index (len : Z) : M serial_state unit :=
  f ← get_fifo;
  n ← get_bufsz;
  let put := u16 (put_index f + len) in
  let '(put, get, full) :=
    if get_index f <=? put_index f then
      if n <=? put then
        let put := put mod n in
        if get_index f <=? put then (put, put, true) else (put, get_index f, is_full f)
      else (put, get_index f, is_full f)
    else if get_index f <=? put then
      let put := if n <=? put then put mod n else put in (put, put, true)
    else (put, get_index f, is_full f) in
  put_fifo (mk_fifo (buffer f) put (if n <=? get then 0 else get) full).

(** The bytes that are copied. *)
Definition dma_copy (n len : Z) (f : rt_serial_rx_fifo) : list Z :=
  let get := Z.to_nat (get_index f) in
  if get_index f + len <? n then take (Z.to_nat len) (drop get (buffer f))
  else drop get (buffer f) ++ take (Z.to_nat (len + get_index f - n)) (buffer f).

(** The result, and the bytes if they are there already. *)
Definition _serial_dma_rx (length : Z) : M serial_state (Z * list Z) :=
  n ← get_bufsz;
  if n =? 0 then
    r ← deref (fun st => match s_rx st.1 with Some (RxDma a b) => Some (a, b) | _ => None end);
    if r.2 : bool then on_uart (set_errno (- RT_EBUSY));; mret (0, [])
    else
      set_rx (Some (RxDma r.1 true));;
      on_uart (dma_transmit length RT_SERIAL_DMA_RX);;
      mret (length, [])
  else
    recved ← _serial_fifo_calc_recved_len;
    let len := if length <? recved then length else recved in
    f ← get_fifo;
    rt_dma_recv_update_get_index len;;
    mret (len, dma_copy n len f).

(** [rt_hw_serial_isr] for [RT_SERIAL_EVENT_RX_DMADONE] with the length of the event. *)
Definition isr_rx_dmadone (length : Z) : M serial_state unit :=
  n ← get_bufsz;
  if n =? 0 then
    r ← deref (fun st => match s_rx st.1 with Some (RxDma a b) => Some (a, b) | _ => None end);
    fn ← deref (fun st => dev_rx_indicate (s_parent st.1));
    on_uart (rx_indicate fn length);;
    set_rx (Some (RxDma r.1 false))
  else
    rt_dma_recv_update_put_index length;;
    len ← _serial_fifo_calc_recved_len;
    indicate len.

(** ** The device interface *)

Definition rt_serial_init : M serial_state Z :=
  set_rx None;; set_tx None;; c ← gets (fun st => s_config st.1); on_uart (configure c).

(** [sizeof] of the structures. *)
Definition sizeof_rx_fifo : Z := 12.
Definition sizeof_rx_dma : Z := 4.
Definition sizeof_tx_fifo : Z := 12.
Definition sizeof_tx_dma : Z := 40.
Definition sizeof_data_items : Z := 64.

(** Memory that must be there. *)
Definition malloc_checked (size : Z) : M serial_state Z := a ← on_sheap (malloc size); deref (fun _ => a).

Definition new_fifo (a n : Z) : serial_rx := RxFifo a (mk_fifo (replicate (Z.to_nat n) 0) 0 0 false).

Definition open_rx (oflag : Z) : M serial_state unit :=
  rx ← gets (fun st => s_rx st.1);
  n ← get_bufsz;
  match rx with
  | None =>
      if has oflag RT_DEVICE_FLAG_DMA_RX then
        (if n =? 0 then a ← malloc_checked sizeof_rx_dma; set_rx (Some (RxDma a false))
         else
           a ← malloc_checked (sizeof_rx_fifo + n);
           set_rx (Some (new_fifo a n));;
           on_uart (control RT_DEVICE_CTRL_CONFIG RT_DEVICE_FLAG_DMA_RX);; mret tt);;
        add_open_flag RT_DEVICE_FLAG_DMA_RX
      else if has oflag RT_DEVICE_FLAG_INT_RX then
        a ← malloc_checked (sizeof_rx_fifo + n);
        set_rx (Some (new_fifo a n));;
        add_open_flag RT_DEVICE_FLAG_INT_RX;;
        on_uart (control RT_DEVICE_CTRL_SET_INT RT_DEVICE_FLAG_INT_RX);; mret tt
      else set_rx None
  | Some _ =>
      if has oflag RT_DEVICE_FLAG_DMA_RX then add_open_flag RT_DEVICE_FLAG_DMA_RX
      else if has oflag RT_DEVICE_FLAG_INT_RX then add_open_flag RT_DEVICE_FLAG_INT_RX
      else mret tt
  end.

Definition open_tx (oflag : Z) : M serial_state unit :=
  tx ← gets (fun st => s_tx st.1);
  match tx with
  | None =>
      if has oflag RT_DEVICE_FLAG_DMA_TX then
        a ← malloc_checked sizeof_tx_dma;
        q ← on_sheap (malloc sizeof_data_items);
        set_tx (Some (TxDma a q false));;
        add_open_flag RT_DEVICE_FLAG_DMA_TX
      else if has oflag RT_DEVICE_FLAG_INT_TX then
        a ← malloc_checked sizeof_tx_fifo;
        set_tx (Some (TxFifo a));;
        add_open_flag RT_DEVICE_FLAG_INT_TX;;
        on_uart (control RT_DEVICE_CTRL_SET_INT RT_DEVICE_FLAG_INT_TX);; mret tt
      else set_tx None
  | Some _ =>
      if has oflag RT_DEVICE_FLAG_DMA_TX then add_open_flag RT_DEVICE_FLAG_DMA_TX
      else if has oflag RT_DEVICE_FLAG_INT_TX then add_open_flag RT_DEVICE_FLAG_INT_TX
      else mret tt
  end.

(** The device has all the modes that are asked for. *)
Definition modes_fit (oflag flag : Z) : bool :=
  forallb (fun m => negb (has oflag m) || has flag m) [RT_DEVICE_FLAG_DMA_RX; RT_DEVICE_FLAG_DMA_TX; RT_DEVICE_FLAG_INT_RX; RT_DEVICE_FLAG_INT_TX].

Definition rt_serial_open (oflag : Z) : M serial_state Z :=
  d ← gets (fun st => s_parent st.1);
  if negb (modes_fit oflag (dev_flag d)) then mret (- RT_EIO)
  else
    let stream_flag := if has oflag RT_DEVICE_FLAG_STREAM || has (dev_open_flag d) RT_DEVICE_FLAG_STREAM then RT_DEVICE_FLAG_STREAM else 0 in
    upd_parent (set_dev_open_flag (Z.land oflag 0xff));;
    open_rx oflag;;
    open_tx oflag;;
    add_open_flag stream_flag;;
    mret RT_EOK.

(** The address of [serial_rx] and [serial_tx] for [rt_free]. *)
Definition rx_addr (r : serial_rx) : Z := match r with RxFifo a _ | RxDma a _ => a end.
Definition tx_addr (t : serial_tx) : Z := match t with TxFifo a | TxDma a _ _ => a end.

Definition rt_serial_close : M serial_state Z :=
  d ← gets (fun st => s_parent st.1);
  if 1 <? dev_ref_count d then mret RT_EOK
  else
    o ← get_open_flag;
    (if has o RT_DEVICE_FLAG_INT_RX then
       r ← deref (fun st => s_rx st.1);
       on_sheap (free (Some (rx_addr r)));;
       set_rx None;;
       del_open_flag RT_DEVICE_FLAG_INT_RX;;
       on_uart (control RT_DEVICE_CTRL_CLR_INT RT_DEVICE_FLAG_INT_RX);; mret tt
     else if has o RT_DEVICE_FLAG_DMA_RX then
       r ← deref (fun st => s_rx st.1);
       on_sheap (free (Some (rx_addr r)));;
       on_uart (control RT_DEVICE_CTRL_CLR_INT RT_DEVICE_FLAG_DMA_RX);;
       set_rx None;;
       del_open_flag RT_DEVICE_FLAG_DMA_RX
     else mret tt);;
    o ← get_open_flag;
    (if has o RT_DEVICE_FLAG_INT_TX then
       t ← deref (fun st => s_tx st.1);
       on_sheap (free (Some (tx_addr t)));;
       set_tx None;;
       del_open_flag RT_DEVICE_FLAG_INT_TX;;
       on_uart (control RT_DEVICE_CTRL_CLR_INT RT_DEVICE_FLAG_INT_TX);; mret tt
     else if has o RT_DEVICE_FLAG_DMA_TX then
       t ← deref (fun st => s_tx st.1);
       on_sheap (free (Some (tx_addr t)));;
       set_tx None;;
       del_open_flag RT_DEVICE_FLAG_DMA_TX
     else mret tt);;
    mret RT_EOK.

(** The result, and the bytes. *)
Definition rt_serial_read (irq : nat -> M serial_state unit) (size : Z) : M serial_state (Z * list Z) :=
  if size =? 0 then mret (0, [])
  else
    o ← get_open_flag;
    if has o RT_DEVICE_FLAG_INT_RX then l ← _serial_int_rx irq (Z.to_nat size); mret (Z.of_nat (length l), l)
    else if has o RT_DEVICE_FLAG_DMA_RX then _serial_dma_rx size
    else l ← _serial_poll_rx (Z.to_nat size); mret (Z.of_nat (length l), l).

(** The argument of a request. *)
Inductive serial_arg := AConfig (c : option serial_configure) | ANumber (n : Z).

(** The result, and the number that [FIONREAD] stores. *)
Definition rt_serial_control (cmd : Z) (args : serial_arg) : M serial_state (Z * option Z) :=
  if cmd =? RT_DEVICE_CTRL_SUSPEND then
    upd_parent (fun d => set_dev_flag (Z.lor (dev_flag d) RT_DEVICE_FLAG_SUSPENDED) d);; mret (RT_EOK, None)
  else if cmd =? RT_DEVICE_CTRL_RESUME then
    upd_parent (fun d => set_dev_flag (Z.ldiff (dev_flag d) RT_DEVICE_FLAG_SUSPENDED) d);; mret (RT_EOK, None)
  else if cmd =? RT_DEVICE_CTRL_CONFIG then
    match args with
    | AConfig (Some c) =>
        n ← get_bufsz;
        d ← gets (fun st => s_parent st.1);
        if negb (bufsz c =? n) && negb (dev_ref_count d =? 0) then mret (RT_EBUSY, None)
        else
          upd_serial (fun s => mk_serial (s_parent s) c (s_rx s) (s_tx s));;
          (if negb (dev_ref_count d =? 0) then on_uart (configure c);; mret tt else mret tt);;
          mret (RT_EOK, None)
    | _ => mret (RT_EOK, None)
    end
  else if cmd =? FIONREAD then r ← _serial_fifo_calc_recved_len; mret (RT_EOK, Some r)
  else r ← on_uart (control cmd (match args with ANumber n => n | AConfig _ => 0 end)); mret (r, None).
End serial.

(** ** The FIFO as a queue *)

Definition in_byte (c : Z) : Prop := 0 <= c < 256.

Lemma u8_in_byte c : in_byte c -> u8 c = c.
Proof. apply Z.mod_small. Qed.

Lemma land_in_byte c : in_byte c -> Z.land c 0xff = c.
Proof. intros Hc. change 0xff with (Z.ones 8). rewrite Z.land_ones by lia. by apply Z.mod_small. Qed.

Definition contents (n : Z) (f : rt_serial_rx_fifo) : list Z := ring_contents (buffer f) (get_index f) (Z.to_nat (recved_len n f)).

Record fifo_ok (n : Z) (f : rt_serial_rx_fifo) : Prop := {
  fo_size : 2 <= n < 2 ^ 16;
  fo_buffer : Z.of_nat (length (buffer f)) = n;
  fo_put : 0 <= put_index f < n;
  fo_get : 0 <= get_index f < n;
  fo_bytes : Forall in_byte (buffer f)
}.

Lemma recved_range n f : fifo_ok n f -> 0 <= recved_len n f <= n.
Proof. intros []. unfold recved_len. repeat case_match; to_prop; lia. Qed.

Lemma recved_mod n f : fifo_ok n f -> (get_index f + recved_len n f) mod n = put_index f.
Proof.
  intros []. unfold recved_len. repeat case_match; to_prop.
  - replace (get_index f + n) with (get_index f + 1 * n) by lia. rewrite Z_mod_plus_full, Z.mod_small; lia.
  - rewrite Z.mod_small; lia.
  - rewrite Z.mod_small; lia.
  - replace (get_index f + (n - (get_index f - put_index f))) with (put_index f + 1 * n) by lia. rewrite Z_mod_plus_full, Z.mod_small; lia.
Qed.

Lemma next_mod n i : 0 <= i < n -> n < 2 ^ 16 -> (if n <=? u16 (i + 1) then 0 else u16 (i + 1)) = (i + 1) mod n.
Proof.
  intros Hi Hn. unfold u16. rewrite (Z.mod_small (i + 1) (2 ^ 16)) by lia. case_match; to_prop.
  - replace (i + 1) with (0 + 1 * n) by lia. rewrite Z_mod_plus_full, Z.mod_small; lia.
  - rewrite Z.mod_small; lia.
Qed.

Lemma contents_empty n f : fifo_ok n f -> contents n f = [] <-> (get_index f =? put_index f) && negb (is_full f) = true.
Proof.
  intros F. pose proof (recved_range n f F). destruct F. unfold contents. rewrite <- length_zero_iff_nil, ring_contents_length, andb_true_iff, negb_true_iff, Z.eqb_eq.
  unfold recved_len. repeat case_match; to_prop; split; try lia; intros [? ?]; congruence.
Qed.

(** Taking the first byte. *)
Lemma fifo_take n f x q :
  fifo_ok n f -> contents n f = x :: q ->
  buffer f !! Z.to_nat (get_index f) = Some x /\ in_byte x /\
  let f' := mk_fifo (buffer f) (put_index f) (if n <=? u16 (get_index f + 1) then 0 else u16 (get_index f + 1)) false in
  fifo_ok n f' /\ contents n f' = q.
Proof.
  intros F Ec. pose proof (recved_range n f F). pose proof F as [Hn Hb Hp Hg Hby].
  assert (0 < recved_len n f) as Hpos by (apply (f_equal length) in Ec; unfold contents in Ec; rewrite ring_contents_length in Ec; simpl in Ec; lia).
  unfold contents in Ec. destruct (Z.to_nat (recved_len n f)) as [|k] eqn:Ek; [lia|]. rewrite ring_contents_pop in Ec. injection Ec as Ex Eq.
  assert (ring_slot (buffer f) (get_index f) = Z.to_nat (get_index f)) as Es by (unfold ring_slot; rewrite Hb, Z.mod_small; lia).
  destruct (lookup_lt_is_Some_2 (buffer f) (Z.to_nat (get_index f))) as [y Hy]; [lia|].
  rewrite Es, (list_lookup_total_correct _ _ _ Hy) in Ex. subst y. split; [done|]. split; [by eapply Forall_lookup_1 in Hy|].
  cbv zeta. rewrite next_mod by lia. assert (0 <= (get_index f + 1) mod n < n) as Hmod by (apply Z.mod_pos_bound; lia). split; [by split|].
  unfold contents. cbn [buffer get_index]. rewrite <- Eq. rewrite <- (ring_contents_mod _ (get_index f + 1)) by lia. rewrite Hb. f_equal.
  pose proof (recved_mod n f F) as Em. assert (recved_len n (mk_fifo (buffer f) (put_index f) ((get_index f + 1) mod n) false) = recved_len n f - 1); [|lia].
  unfold recved_len in *. cbn [put_index get_index is_full].
  destruct (Z.eq_dec (get_index f + 1) n) as [E|E]; [rewrite E, Z_mod_same_full in *|rewrite (Z.mod_small (get_index f + 1)) in * by lia]; repeat case_match; to_prop; lia.
Qed.

(** Storing a byte: the oldest one goes when the next position is that of the reader. *)
Definition arrive (n : Z) (q : list Z) (c : Z) : list Z := let l := q ++ [c] in drop (length l - Z.to_nat (n - 1)) l.

Definition stored_fifo (n ch : Z) (f : rt_serial_rx_fifo) : rt_serial_rx_fifo :=
  let b := <[Z.to_nat (put_index f) := u8 ch]> (buffer f) in
  let put := (put_index f + 1) mod n in
  if put =? get_index f then mk_fifo b put ((get_index f + 1) mod n) true else mk_fifo b put (get_index f) (is_full f).

Lemma fifo_store n f c :
  fifo_ok n f -> recved_len n f < n -> in_byte c ->
  fifo_ok n (stored_fifo n c f) /\ recved_len n (stored_fifo n c f) < n /\ contents n (stored_fifo n c f) = arrive n (contents n f) c.
Proof.
  intros F Hlt Hc. pose proof (recved_range n f F). pose proof (recved_mod n f F) as Em. pose proof F as [Hn Hb Hp Hg Hby].
  set (b := <[Z.to_nat (put_index f) := u8 c]> (buffer f)).
  assert (Z.of_nat (length b) = n) as Hlb by (unfold b; by rewrite length_insert).
  assert (Forall in_byte b) as Hbb by (apply Forall_insert; [done|by rewrite u8_in_byte]).
  assert (0 <= (put_index f + 1) mod n < n) as Hp' by (apply Z.mod_pos_bound; lia).
  assert (0 <= (get_index f + 1) mod n < n) as Hg' by (apply Z.mod_pos_bound; lia).
  assert (ring_contents b (get_index f) (S (Z.to_nat (recved_len n f))) = contents n f ++ [c]) as Ep.
  { unfold contents. rewrite <- ring_contents_push by lia. f_equal. unfold b. f_equal; [|by apply u8_in_byte].
    unfold ring_slot. by rewrite Hb, Z2Nat.id, Em by lia. }
  assert (length (contents n f) = Z.to_nat (recved_len n f)) as Hl by apply ring_contents_length.
  unfold stored_fifo. fold b. cbv zeta. unfold arrive. rewrite length_app, Hl. cbn [length]. destruct (Z.eqb_spec ((put_index f + 1) mod n) (get_index f)) as [E|E].
  - assert (recved_len n f = n - 1) as Er.
    { unfold recved_len in *. destruct (Z.eq_dec (put_index f + 1) n) as [E1|E1]; [rewrite E1, Z_mod_same_full in E|rewrite Z.mod_small in E by lia]; repeat case_match; to_prop; lia. }
    assert (recved_len n (mk_fifo b ((put_index f + 1) mod n) ((get_index f + 1) mod n) true) = n - 1) as Er'.
    { unfold recved_len. cbn [put_index get_index is_full]. rewrite E. destruct (Z.eq_dec (get_index f + 1) n) as [E1|E1]; [rewrite E1, Z_mod_same_full|rewrite Z.mod_small by lia]; repeat case_match; to_prop; lia. }
    split; [by split|]. split; [lia|]. unfold contents at 1. rewrite Er'. cbn [buffer get_index]. rewrite Er in *.
    replace (Z.to_nat (n - 1) + 1 - Z.to_nat (n - 1))%nat with 1%nat by lia. rewrite <- Ep, ring_contents_pop. cbn [drop].
    rewrite <- (ring_contents_mod b (get_index f + 1)) by lia. by rewrite Hlb.
  - assert (recved_len n (mk_fifo b ((put_index f + 1) mod n) (get_index f) (is_full f)) = recved_len n f + 1) as Er.
    { unfold recved_len in *. cbn [put_index get_index is_full]. destruct (Z.eq_dec (put_index f + 1) n) as [E1|E1]; [rewrite E1, Z_mod_same_full in *|rewrite Z.mod_small in * by lia]; repeat case_match; to_prop; try lia. }
    assert (recved_len n f ≠ n - 1) as Hne.
    { intros Er1. apply E. rewrite Er1 in Em. rewrite <- Em. rewrite Zplus_mod_idemp_l. replace (get_index f + (n - 1) + 1) with (get_index f + 1 * n) by lia. rewrite Z_mod_plus_full, Z.mod_small; lia. }
    split; [by split|]. split; [lia|]. unfold contents at 1. rewrite Er. cbn [buffer get_index].
    replace (Z.to_nat (recved_len n f) + 1 - Z.to_nat (n - 1))%nat with 0%nat by lia. cbn [drop]. rewrite <- Ep.
    by replace (Z.to_nat (recved_len n f + 1)) with (S (Z.to_nat (recved_len n f))) by lia.
Qed.

(** ** Reception by interrupts *)

(** What the driver relies on of the uart and of the callback: [getc] hands out the
    bytes [pending] in the receiver and then answers -1; [receive l] is the arrival
    of [l]. *)
Class Uart {U : Type} (getc : M U Z) (rx_indicate : nat -> Z -> M U unit) (pending : U -> list Z) (receive : list Z -> U -> U) : Prop := {
  u_byte : forall u c l, pending u = c :: l -> exists u', getc u = Ok c u' /\ pending u' = l;
  u_empty : forall u, pending u = [] -> exists u', getc u = Ok (-1) u' /\ pending u' = [];
  u_receive : forall l u, pending (receive l u) = l;
  u_indicate : forall fn n u, exists u', rx_indicate fn n u = Ok tt u'
}.

Section reception.
Context {H U : Type} (configure : serial_configure -> M U Z) (control : Z -> Z -> M U Z) (getc : M U Z).
Context (dma_transmit : Z -> Z -> M U Z) (rx_indicate : nat -> Z -> M U unit) (set_errno : Z -> M U unit).
Context (pending : U -> list Z) (receive : list Z -> U -> U) `{!Uart getc rx_indicate pending receive}.
Context (n : Z).

(** The FIFO of a device that was opened for reception by interrupts holds [q]. *)
Definition rx_holds (q : list Z) (st : serial_state (H := H) (U := U)) : Prop :=
  exists a f, s_rx st.1 = Some (RxFifo a f) /\ bufsz (s_config st.1) = n /\ has (dev_open_flag (s_parent st.1)) RT_DEVICE_FLAG_INT_RX = true /\
    fifo_ok n f /\ recved_len n f < n /\ contents n f = q.

Lemma run_get_fifo a f (st : serial_state (H := H) (U := U)) : s_rx st.1 = Some (RxFifo a f) -> get_fifo st = Ok f st.
Proof. intros E. apply run_deref. by rewrite E. Qed.

Lemma run_put_fifo q f st : rx_holds q st -> fifo_ok n f -> recved_len n f < n ->
  exists st', put_fifo f st = Ok tt st' /\ rx_holds (contents n f) st' /\ st'.2 = st.2.
Proof.
  intros (a & f0 & Er & Eb & Ho & _) F Hlt. eexists. split; [reflexivity|]. split; [|done]. exists a, f. cbn. rewrite Er. by split_and!.
Qed.

Lemma run_int_byte q st : rx_holds q st ->
  match q with
  | [] => int_rx_byte st = Ok None st
  | x :: q' => exists st', int_rx_byte st = Ok (Some x) st' /\ rx_holds q' st'
  end.
Proof.
  intros Hst. pose proof Hst as (a & f & Er & Eb & Ho & F & Hlt & Ec). unfold int_rx_byte. destruct q as [|x q'].
  - run_step (run_get_fifo a f st Er). erewrite bind_Ok by reflexivity. apply contents_empty in Ec; [|done]. by rewrite Ec.
  - destruct (fifo_take n f x q' F Ec) as (Hx & Hby & F' & Ec'). run_step (run_get_fifo a f st Er). erewrite bind_Ok by reflexivity. rewrite Eb.
    destruct ((get_index f =? put_index f) && negb (is_full f)) eqn:Ee; [apply (contents_empty n f F) in Ee; congruence|].
    erewrite bind_Ok by (by apply run_deref). cbv zeta. set (f' := mk_fifo _ _ _ _) in *.
    assert (recved_len n f' < n) as Hlt'.
    { apply (f_equal length) in Ec, Ec'. unfold contents in Ec, Ec'. rewrite ring_contents_length in Ec, Ec'. cbn [length] in Ec.
      pose proof (recved_range n f F). pose proof (recved_range n f' F'). lia. }
    destruct (run_put_fifo (x :: q') f' st Hst F' Hlt') as (st' & E & Hst' & _). run_step E. exists st'. rewrite land_in_byte by done. rewrite Ec' in Hst'. done.
Qed.

Lemma run_isr_store c q st : rx_holds q st -> in_byte c ->
  exists st', isr_store c st = Ok tt st' /\ rx_holds (arrive n q c) st' /\ st'.2 = st.2.
Proof.
  intros Hst Hc. pose proof Hst as (a & f & Er & Eb & Ho & F & Hlt & Ec). unfold isr_store. run_step (run_get_fifo a f st Er). erewrite bind_Ok by reflexivity. rewrite Eb.
  destruct (fifo_store n f c F Hlt Hc) as (F' & Hlt' & Ec'). pose proof F as [Hn Hb Hp Hg _]. rewrite Ec in Ec'. rewrite <- Ec'.
  destruct (lookup_lt_is_Some_2 (buffer f) (Z.to_nat (put_index f))) as [y Hy]; [lia|]. erewrite bind_Ok by (by apply run_deref). cbv zeta.
  rewrite !next_mod by lia. unfold stored_fifo in *. cbv zeta in *. destruct (Z.eqb_spec ((put_index f + 1) mod n) (get_index f)); by apply (run_put_fifo q).
Qed.

Lemma run_isr_loop l : forall fuel q st,
  rx_holds q st -> pending st.2.2 = l -> (length l < fuel)%nat -> Forall in_byte l ->
  exists st', isr_loop getc fuel st = Ok tt st' /\ rx_holds (foldl (arrive n) q l) st'.
Proof.
  induction l as [|c l IH]; intros [|fuel] q [s [h u]] Hst Hp Hf Hb; [simpl in Hf; lia| |simpl in Hf; lia|]; cbn [isr_loop].
  - destruct (u_empty u Hp) as (u' & E & _). erewrite bind_Ok by (unfold on_uart; cbn; by rewrite E). cbn. by eexists.
  - apply Forall_cons in Hb as [Hc Hb]. destruct (u_byte u c l Hp) as (u' & E & Hp'). erewrite bind_Ok by (unfold on_uart; cbn; by rewrite E).
    rewrite (proj2 (Z.eqb_neq _ _)) by (unfold in_byte in Hc; lia). destruct (run_isr_store c q (s, (h, u')) Hst Hc) as (st1 & E1 & Hst1 & E2). run_step E1.
    apply IH; [done|by rewrite E2|simpl in Hf; lia|done].
Qed.

(** The bytes [l] arrive and the interrupt is served. *)
Definition interrupt (l : list Z) : M (serial_state (H := H) (U := U)) unit :=
  modify (fun st => (st.1, (st.2.1, receive l st.2.2)));; isr_rx_ind getc rx_indicate (S (length l)).

Lemma run_interrupt l q st : rx_holds q st -> Forall in_byte l -> exists st', interrupt l st = Ok tt st' /\ rx_holds (foldl (arrive n) q l) st'.
Proof.
  intros Hst Hl. unfold interrupt. erewrite bind_Ok by reflexivity. set (st0 := (st.1, _)). assert (rx_holds q st0) as H0 by exact Hst.
  unfold isr_rx_ind. pose proof H0 as (a & f & Er & _). run_step (run_get_fifo a f st0 Er).
  destruct (run_isr_loop l (S (length l)) q st0 H0) as (st1 & E1 & Hst1); [exact (u_receive l st.2.2)|lia|done|]. run_step E1.
  pose proof Hst1 as (a1 & f1 & Er1 & _). run_step (run_get_fifo a1 f1 st1 Er1). erewrite bind_Ok by reflexivity. unfold indicate. erewrite bind_Ok by reflexivity.
  destruct st1 as [s1 [h1 u1]]. case_match; [|by eexists]. unfold on_uart. cbn [fst snd].
  match goal with |- context [rx_indicate ?fn ?k u1] => destruct (u_indicate fn k u1) as (u' & E) end. rewrite E. by eexists.
Qed.

(** A read of [len] bytes when the bytes [arr k] arrive with [k] bytes to go. *)
Fixpoint read_spec (arr : nat -> list Z) (len : nat) (q : list Z) : list Z * list Z :=
  match len with
  | O => ([], q)
  | S len =>
      match q with
      | [] => ([], foldl (arrive n) [] (arr len))
      | x :: q => let '(r, q') := read_spec arr len (foldl (arrive n) q (arr len)) in (x :: r, q')
      end
  end.

Lemma run_int_rx_loop arr len : forall q st, rx_holds q st -> (forall k, Forall in_byte (arr k)) ->
  exists st', int_rx_loop (fun k => interrupt (arr k)) len st = Ok (read_spec arr len q).1 st' /\ rx_holds (read_spec arr len q).2 st'.
Proof.
  induction len as [|len IH]; intros q st Hst Ha; [by exists st|]. cbn [int_rx_loop read_spec]. pose proof (run_int_byte q st Hst) as Hb. destruct q as [|x q].
  - run_step Hb. destruct (run_interrupt (arr len) [] st Hst (Ha len)) as (st1 & E1 & Hst1). run_step E1. by exists st1.
  - destruct Hb as (st1 & E1 & Hst1). run_step E1. destruct (run_interrupt (arr len) q st1 Hst1 (Ha len)) as (st2 & E2 & Hst2). run_step E2.
    destruct (IH _ st2 Hst2 Ha) as (st3 & E3 & Hst3). run_step E3. destruct (read_spec arr len _) as [r q']. by exists st3.
Qed.

(** *** Calls and interrupts *)

Inductive serial_op := SRead (len : nat) (arr : nat -> list Z) | SAvail | SInterrupt (l : list Z).
Inductive serial_answer := Got (r : Z) (l : list Z) | Available (k : Z).

Definition serial_exec (op : serial_op) : M (serial_state (H := H) (U := U)) (list serial_answer) :=
  match op with
  | SRead len arr => r ← rt_serial_read getc dma_transmit set_errno (fun k => interrupt (arr k)) (Z.of_nat len); mret [Got r.1 r.2]
  | SAvail => r ← rt_serial_control configure control FIONREAD (ANumber 0); mret (match r.2 with Some k => [Available k] | None => [] end)
  | SInterrupt l => interrupt l;; mret []
  end.
Definition serial_spec (q : list Z) (op : serial_op) : list serial_answer * list Z :=
  match op with
  | SRead len arr => let '(l, q') := read_spec arr len q in ([Got (Z.of_nat (length l)) l], q')
  | SAvail => ([Available (Z.of_nat (length q))], q)
  | SInterrupt l => ([], foldl (arrive n) q l)
  end.

Fixpoint serial_run (ops : list serial_op) : M (serial_state (H := H) (U := U)) (list serial_answer) :=
  match ops with [] => mret [] | op :: ops => r ← serial_exec op; rs ← serial_run ops; mret (r ++ rs) end.
Fixpoint serial_spec_run (q : list Z) (ops : list serial_op) : list serial_answer * list Z :=
  match ops with
  | [] => ([], q)
  | op :: ops => let '(a, q1) := serial_spec q op in let '(l, q2) := serial_spec_run q1 ops in (a ++ l, q2)
  end.

(** The hardware delivers bytes. *)
Definition serial_fits (op : serial_op) : Prop :=
  match op with SRead _ arr => forall k, Forall in_byte (arr k) | SAvail => True | SInterrupt l => Forall in_byte l end.

Lemma run_serial_exec q op st : rx_holds q st -> serial_fits op ->
  exists st', serial_exec op st = Ok (serial_spec q op).1 st' /\ rx_holds (serial_spec q op).2 st'.
Proof.
  intros Hst Hf. pose proof Hst as (a & f & Er & Eb & Ho & F & Hlt & Ec). destruct op as [len arr| |l]; cbn [serial_exec serial_spec serial_fits] in *.
  - unfold rt_serial_read. destruct len as [|len]; [by exists st|]. rewrite (proj2 (Z.eqb_neq _ 0)) by lia.
    destruct (run_int_rx_loop arr (S len) q st Hst Hf) as (st' & E & Hst').
    erewrite bind_Ok.
    2: { erewrite bind_Ok by reflexivity. cbv beta. unfold get_open_flag, gets in *. rewrite Ho. unfold _serial_int_rx. rewrite Nat2Z.id.
         erewrite bind_Ok; [reflexivity|]. run_step (run_get_fifo a f st Er). exact E. }
    destruct (read_spec arr (S len) q) as [l q']. by exists st'.
  - unfold rt_serial_control. cbn. unfold _serial_fifo_calc_recved_len. exists st. split; [|done].
    erewrite bind_Ok by (erewrite bind_Ok by (run_step (run_get_fifo a f st Er); reflexivity); reflexivity).
    cbn [snd]. rewrite Eb, <- Ec. unfold contents. rewrite ring_contents_length. pose proof (recved_range n f F). by rewrite Z2Nat.id by lia.
  - destruct (run_interrupt l q st Hst Hf) as (st' & E & Hst'). run_step E. by exists st'.
Qed.

(** C34: the receive FIFO under interrupts that come between the calls and inside of a
    read, wherever it enables them: reads, the question for the number of bytes and
    the interrupts answer as a queue of at most [bufsz - 1] bytes in the order of
    their arrival, in which a new byte drives out the oldest one. *)
Theorem serial_rx_refines ops : forall q st, rx_holds q st -> Forall serial_fits ops ->
  exists st', serial_run ops st = Ok (serial_spec_run q ops).1 st' /\ rx_holds (serial_spec_run q ops).2 st'.
Proof.
  induction ops as [|op ops IH]; intros q st Hst Hf; [by exists st|]. apply Forall_cons in Hf as [Hf1 Hf].
  destruct (run_serial_exec q op st Hst Hf1) as (st1 & E1 & Hst1). cbn [serial_run serial_spec_run]. destruct (serial_spec q op) as [r q1]. cbn [fst snd] in *. run_step E1.
  destruct (IH q1 st1 Hst1 Hf) as (st2 & E2 & Hst2). destruct (serial_spec_run q1 ops) as [l q2]. cbn [fst snd] in *. run_step E2. by exists st2.
Qed.
End reception.

(** ** Reception by DMA *)

(** The hardware writes [l] into the ring from position [p] on. *)
Fixpoint dma_bytes (b : list Z) (p : Z) (l : list Z) : list Z :=
  match l with [] => b | c :: l => dma_bytes (<[ring_slot b p := c]> b) (p + 1) l end.

Lemma dma_bytes_length l : forall b p, length (dma_bytes b p l) = length b.
Proof. induction l as [|c l IH]; intros b p; [done|]. cbn [dma_bytes]. by rewrite IH, length_insert. Qed.

Lemma dma_bytes_contents l : forall b out k, (k + length l <= length b)%nat ->
  ring_contents (dma_bytes b (out + Z.of_nat k) l) out (k + length l) = ring_contents b out k ++ l.
Proof.
  induction l as [|c l IH]; intros b out k Hl; cbn [length] in Hl; [by rewrite Nat.add_0_r, app_nil_r|]. cbn [dma_bytes length].
  replace (out + Z.of_nat k + 1) with (out + Z.of_nat (S k)) by lia. replace (k + S (length l))%nat with (S k + length l)%nat by lia.
  rewrite IH by (rewrite length_insert; lia). rewrite ring_contents_push by lia. by rewrite <- app_assoc.
Qed.

Lemma dma_bytes_shift b p q l : Z.of_nat (length b) ≠ 0 -> p mod Z.of_nat (length b) = q mod Z.of_nat (length b) -> dma_bytes b p l = dma_bytes b q l.
Proof.
  revert b p q. induction l as [|c l IH]; intros b p q Hb E; [done|]. cbn [dma_bytes]. unfold ring_slot. rewrite E. apply IH; rewrite !length_insert; [done|].
  rewrite <- (Zplus_mod_idemp_l p), <- (Zplus_mod_idemp_l q). by rewrite E.
Qed.

(** The first [k] bytes of a ring as slices of the buffer. *)
Lemma ring_contents_slice (b : list Z) g k : (g + k <= length b)%nat -> ring_contents b (Z.of_nat g) k = take k (drop g b).
Proof.
  intros Hl. apply list_eq. intros i. unfold ring_contents. rewrite list_lookup_fmap. destruct (Nat.lt_ge_cases i k) as [Hi|Hi].
  - rewrite lookup_seq_lt, lookup_take_lt, lookup_drop by done. cbn. unfold ring_slot. rewrite Z.mod_small by lia.
    replace (Z.to_nat _) with (g + i)%nat by lia. destruct (lookup_lt_is_Some_2 b (g + i)) as [x Hx]; [lia|]. by rewrite Hx, (list_lookup_total_correct _ _ _ Hx).
  - rewrite lookup_seq_ge, lookup_take_ge by done. done.
Qed.

Lemma ring_contents_app (b : list Z) g k1 k2 : ring_contents b g (k1 + k2) = ring_contents b g k1 ++ ring_contents b (g + Z.of_nat k1) k2.
Proof.
  unfold ring_contents. rewrite seq_app, fmap_app. f_equal. apply list_eq. intros i. rewrite !list_lookup_fmap. destruct (Nat.lt_ge_cases i k2) as [Hi|Hi].
  - rewrite !lookup_seq_lt by done. cbn. do 3 f_equal. lia.
  - by rewrite !lookup_seq_ge by done.
Qed.

(** The get index may stand behind the last byte. *)
Record dma_ok (n : Z) (f : rt_serial_rx_fifo) : Prop := {
  do_size : 1 <= n <= 2 ^ 15;
  do_buffer : Z.of_nat (length (buffer f)) = n;
  do_put : 0 <= put_index f < n;
  do_get : 0 <= get_index f <= n;
  do_full : get_index f = n -> is_full f = false
}.

Lemma dma_recved n f : dma_ok n f -> 0 <= recved_len n f <= n /\ (get_index f + recved_len n f) mod n = put_index f mod n.
Proof.
  intros []. unfold recved_len. repeat case_match; to_prop; (split; [lia|]).
  - replace (get_index f + n) with (put_index f + 1 * n) by lia. by rewrite Z_mod_plus_full.
  - f_equal. lia.
  - f_equal. lia.
  - replace (get_index f + (n - (get_index f - put_index f))) with (put_index f + 1 * n) by lia. by rewrite Z_mod_plus_full.
Qed.

Definition dma_put (n len : Z) (f : rt_serial_rx_fifo) : rt_serial_rx_fifo :=
  let put := u16 (put_index f + len) in
  let '(put, get, full) :=
    if get_index f <=? put_index f then
      if n <=? put then
        let put := put mod n in
        if get_index f <=? put then (put, put, true) else (put, get_index f, is_full f)
      else (put, get_index f, is_full f)
    else if get_index f <=? put then
      let put := if n <=? put then put mod n else put in (put, put, true)
    else (put, get_index f, is_full f) in
  mk_fifo (buffer f) put (if n <=? get then 0 else get) full.

Lemma once_around n i : 0 < n -> n <= i < 2 * n -> i mod n = i - n.
Proof. intros Hn Hi. replace i with (i - n + 1 * n) at 1 by lia. rewrite Z_mod_plus_full. apply Z.mod_small. lia. Qed.

Lemma dma_put_ok n len f :
  dma_ok n f -> 0 <= len -> recved_len n f + len <= n ->
  dma_ok n (dma_put n len f) /\ recved_len n (dma_put n len f) = recved_len n f + len /\
  get_index (dma_put n len f) mod n = get_index f mod n /\ buffer (dma_put n len f) = buffer f.
Proof.
  intros F Hlen Hroom. pose proof (dma_recved n f F) as [Hr _]. destruct F as [Hn Hb Hp Hg Hf]. unfold dma_put. rewrite (u16_small (put_index f + len)) by lia. cbv zeta.
  unfold recved_len in Hroom, Hr |- * at 2. destruct (Z.leb_spec (get_index f) (put_index f)) as [Hc|Hc].
  - destruct (Z.leb_spec n (put_index f + len)) as [Hw|Hw]; [rewrite (once_around n (put_index f + len)) by lia; destruct (Z.leb_spec (get_index f) (put_index f + len - n)) as [Hx|Hx]|];
      (rewrite (proj2 (Z.leb_gt n _)) by (repeat case_match; to_prop; lia)); unfold recved_len; cbn [put_index get_index is_full buffer];
      (split; [split; cbn [put_index get_index is_full buffer]; repeat case_match; to_prop; lia|]); (split; [repeat case_match; to_prop; lia|]); (split; [f_equal; repeat case_match; to_prop; lia|done]).
  - destruct (Z.leb_spec (get_index f) (put_index f + len)) as [Hx|Hx].
    + assert (put_index f + len = get_index f) as E by (repeat case_match; to_prop; lia). rewrite E. destruct (Z.leb_spec n (get_index f)) as [Hy|Hy].
      * assert (get_index f = n) as E2 by lia. rewrite E2, Z_mod_same_full. rewrite (proj2 (Z.leb_gt n 0)) by lia. unfold recved_len. cbn [put_index get_index is_full buffer].
        split; [split; cbn [put_index get_index is_full buffer]; lia|]. split; [repeat case_match; to_prop; lia|done].
      * rewrite (proj2 (Z.leb_gt n _)) by lia. unfold recved_len. cbn [put_index get_index is_full buffer].
        split; [split; cbn [put_index get_index is_full buffer]; lia|]. split; [repeat case_match; to_prop; lia|done].
    + destruct (Z.leb_spec n (get_index f)) as [Hy|Hy].
      * assert (get_index f = n) as E2 by lia. rewrite (Hf E2), E2 in *. unfold recved_len. cbn [put_index get_index is_full buffer].
        split; [split; cbn [put_index get_index is_full buffer]; try lia; done|]. split; [repeat case_match; to_prop; lia|]. by rewrite Z_mod_same_full.
      * unfold recved_len. cbn [put_index get_index is_full buffer]. split; [split; cbn [put_index get_index is_full buffer]; lia|]. split; [repeat case_match; to_prop; lia|done].
Qed.

Definition dma_get (n len : Z) (f : rt_serial_rx_fifo) : rt_serial_rx_fifo :=
  let get := u16 (get_index f + len) in
  mk_fifo (buffer f) (put_index f) (if n <? get then get mod n else get) (is_full f && (len =? 0)).

Lemma dma_get_ok n len f :
  dma_ok n f -> 0 <= len <= recved_len n f ->
  dma_ok n (dma_get n len f) /\ recved_len n (dma_get n len f) = recved_len n f - len /\ get_index (dma_get n len f) mod n = (get_index f + len) mod n.
Proof.
  intros F Hlen. pose proof (dma_recved n f F) as [Hr _]. destruct F as [Hn Hb Hp Hg Hf].
  assert (get_index f + len < 2 * n) as H2 by (unfold recved_len in Hlen; repeat case_match; to_prop; try lia; intros; specialize (Hf ltac:(lia)); congruence).
  unfold dma_get. rewrite (u16_small (get_index f + len)) by lia. cbv zeta.
  unfold recved_len in Hlen, Hr |- * at 2. destruct (Z.ltb_spec n (get_index f + len)) as [Hw|Hw].
  - rewrite (once_around n (get_index f + len)) by lia. unfold recved_len. cbn [put_index get_index is_full buffer].
    split; [split; cbn [put_index get_index is_full buffer]; lia|].
    split; [repeat case_match; to_prop; try lia; by destruct (is_full f)|]. apply Z.mod_small. lia.
  - unfold recved_len. cbn [put_index get_index is_full buffer].
    split; [split; cbn [put_index get_index is_full buffer]; try lia; intros E; destruct (Z.eqb_spec len 0); [rewrite Hf; [done|lia]|apply andb_false_r]|].
    split; [|done]. repeat case_match; to_prop; try lia; destruct (is_full f); try done; try lia.
Qed.

Lemma take_ring (b : list Z) g k j : (j <= k)%nat -> take j (ring_contents b g k) = ring_contents b g j.
Proof. intros Hj. replace k with (j + (k - j))%nat by lia. rewrite ring_contents_app, take_app_le by (rewrite ring_contents_length; lia). apply take_ge. rewrite ring_contents_length. lia. Qed.

Lemma dma_copy_contents n len f : dma_ok n f -> 0 <= len <= recved_len n f -> dma_copy n len f = take (Z.to_nat len) (contents n f).
Proof.
  intros F Hlen. pose proof (dma_recved n f F) as [Hr _]. destruct F as [Hn Hb Hp Hg Hf]. unfold contents. rewrite take_ring by lia. unfold dma_copy. cbv zeta.
  set (g := Z.to_nat (get_index f)). assert (get_index f = Z.of_nat g) as Eg by lia. rewrite Eg in *. destruct (Z.ltb_spec (Z.of_nat g + len) n) as [Hw|Hw].
  - rewrite ring_contents_slice by lia. done.
  - assert (length (buffer f) - g <= Z.to_nat len)%nat as Hle by lia. replace (Z.to_nat len) with ((length (buffer f) - g) + (Z.to_nat len - (length (buffer f) - g)))%nat by lia.
    rewrite ring_contents_app, ring_contents_slice by lia. f_equal; [rewrite take_ge by (rewrite length_drop; lia); done|].
    rewrite <- ring_contents_mod by lia. replace (Z.of_nat g + Z.of_nat (length (buffer f) - g)) with (1 * Z.of_nat (length (buffer f))) by lia.
    rewrite Z_mod_mult. change 0 with (Z.of_nat 0). rewrite ring_contents_slice by (unfold recved_len in *; repeat case_match; to_prop; lia). rewrite drop_0. f_equal. lia.
Qed.

Section dma.
Context {H U : Type} (getc : M U Z) (dma_transmit : Z -> Z -> M U Z) (rx_indicate : nat -> Z -> M U unit) (set_errno : Z -> M U unit).
Context (rx_indicate_ok : forall fn k u, exists u', rx_indicate fn k u = Ok tt u').
Context (n : Z).

Definition dma_holds (q : list Z) (st : serial_state (H := H) (U := U)) : Prop :=
  exists a f, s_rx st.1 = Some (RxFifo a f) /\ bufsz (s_config st.1) = n /\ has (dev_open_flag (s_parent st.1)) RT_DEVICE_FLAG_INT_RX = false /\
    has (dev_open_flag (s_parent st.1)) RT_DEVICE_FLAG_DMA_RX = true /\ dma_ok n f /\ contents n f = q.

Lemma run_dma_fifo f q st : dma_holds q st -> dma_ok n f -> exists st', put_fifo f st = Ok tt st' /\ dma_holds (contents n f) st'.
Proof. intros (a & f0 & Er & Eb & Hi & Hd & _) F. eexists. split; [reflexivity|]. exists a, f. cbn. rewrite Er. by split_and!. Qed.

Lemma run_recved a f (st : serial_state (H := H) (U := U)) :
  s_rx st.1 = Some (RxFifo a f) -> bufsz (s_config st.1) = n -> _serial_fifo_calc_recved_len st = Ok (recved_len n f) st.
Proof. intros Er <-. unfold _serial_fifo_calc_recved_len. run_step (run_get_fifo a f st Er). reflexivity. Qed.

Lemma run_dma_rx len q st : dma_holds q st -> 0 <= len ->
  exists st', _serial_dma_rx dma_transmit set_errno len st = Ok (Z.of_nat (Z.to_nat len `min` length q), take (Z.to_nat len) q) st' /\ dma_holds (drop (Z.to_nat len) q) st'.
Proof.
  intros Hst Hlen. pose proof Hst as (a & f & Er & Eb & Hi & Hd & F & Ec). pose proof (dma_recved n f F) as [Hr Hm]. pose proof F as [Hn Hb _ _ _].
  assert (length q = Z.to_nat (recved_len n f)) as Hq by (rewrite <- Ec; apply ring_contents_length).
  unfold _serial_dma_rx. erewrite bind_Ok by reflexivity. rewrite Eb, (proj2 (Z.eqb_neq n 0)) by lia. run_step (run_recved a f st Er Eb).
  set (len' := if len <? recved_len n f then len else recved_len n f). assert (0 <= len' <= recved_len n f /\ Z.to_nat len' = (Z.to_nat len `min` length q)%nat) as [Hl' El'] by (unfold len'; case_match; to_prop; lia).
  run_step (run_get_fifo a f st Er). destruct (dma_get_ok n len' f F Hl') as (F' & Er' & Eg').
  assert (rt_dma_recv_update_get_index len' st = put_fifo (dma_get n len' f) st) as Eu.
  { unfold rt_dma_recv_update_get_index. run_step (run_get_fifo a f st Er). erewrite bind_Ok by reflexivity. rewrite Eb. unfold rt_assert.
    rewrite (proj2 (Z.leb_le _ _)) by lia. erewrite bind_Ok by reflexivity. reflexivity. }
  destruct (run_dma_fifo (dma_get n len' f) q st Hst F') as (st' & E & Hst'). rewrite <- Eu in E. run_step E. exists st'. split.
  - unfold mret, M_ret. rewrite (dma_copy_contents n len' f F Hl'), Ec, <- El', Z2Nat.id by lia. do 2 f_equal. rewrite El'. destruct (Nat.le_ge_cases (Z.to_nat len) (length q)) as [Hle|Hge].
    + by rewrite Nat.min_l by done.
    + rewrite Nat.min_r by done. by rewrite !take_ge by lia.
  - assert (contents n (dma_get n len' f) = drop (Z.to_nat len) q) as <-; [|done]. unfold contents. rewrite Er'. cbn [dma_get buffer].
    rewrite <- (ring_contents_mod (buffer f)) by lia. rewrite Hb, Eg', <- Hb, ring_contents_mod by lia.
    assert (q = ring_contents (buffer f) (get_index f) (Z.to_nat len') ++ ring_contents (buffer f) (get_index f + len') (Z.to_nat (recved_len n f - len'))) as Eq.
    { rewrite <- Ec. unfold contents. replace (Z.to_nat (recved_len n f)) with (Z.to_nat len' + Z.to_nat (recved_len n f - len'))%nat by lia. by rewrite ring_contents_app, Z2Nat.id by lia. }
    rewrite Hb in *. destruct (Nat.le_ge_cases (Z.to_nat len) (length q)) as [Hle|Hge].
    + rewrite Eq. replace (Z.to_nat len) with (length (ring_contents (buffer f) (get_index f) (Z.to_nat len'))) by (rewrite ring_contents_length; lia). by rewrite drop_app_length.
    + rewrite drop_ge by done. by replace (Z.to_nat (recved_len n f - len')) with 0%nat by lia.
Qed.

(** The bytes [l] arrive behind the ones that are there, and the interrupt is served. *)
Definition dma_arrive (l : list Z) : M (serial_state (H := H) (U := U)) unit :=
  f ← get_fifo;
  put_fifo (mk_fifo (dma_bytes (buffer f) (put_index f) l) (put_index f) (get_index f) (is_full f));;
  isr_rx_dmadone rx_indicate (Z.of_nat (length l)).

Lemma run_dma_arrive l q st : dma_holds q st -> Z.of_nat (length q + length l) <= n -> exists st', dma_arrive l st = Ok tt st' /\ dma_holds (q ++ l) st'.
Proof.
  intros Hst Hl. pose proof Hst as (a & f & Er & Eb & Hi & Hd & F & Ec). pose proof (dma_recved n f F) as [Hr Hm]. pose proof F as [Hn Hb Hp Hg Hf].
  assert (length q = Z.to_nat (recved_len n f)) as Hq by (rewrite <- Ec; apply ring_contents_length).
  unfold dma_arrive. run_step (run_get_fifo a f st Er). set (f1 := mk_fifo (dma_bytes _ _ _) _ _ _).
  assert (dma_ok n f1) as F1 by (split; cbn; try done; by rewrite dma_bytes_length).
  destruct (run_dma_fifo f1 q st Hst F1) as (st1 & E1 & (a1 & f1' & Er1 & Eb1 & Hi1 & Hd1 & _)). assert (st1 = (mk_serial (s_parent st.1) (s_config st.1) (Some (RxFifo a f1)) (s_tx st.1), st.2)) as ->.
  { unfold put_fifo, upd_serial, modify in E1. rewrite Er in E1. by injection E1. }
  injection Er1 as <- <-. run_step E1. set (st1 := (mk_serial _ _ _ _, _)) in *. assert (dma_holds (contents n f1) st1) as Hst1 by (by exists a, f1).
  destruct (dma_put_ok n (Z.of_nat (length l)) f1 F1) as (F2 & Er2 & Eg2 & Eb2); [lia|change (recved_len n f1) with (recved_len n f); lia|].
  change (recved_len n f1) with (recved_len n f) in Er2. unfold isr_rx_dmadone. erewrite bind_Ok by reflexivity. rewrite Eb1, (proj2 (Z.eqb_neq n 0)) by lia.
  assert (rt_dma_recv_update_put_index (Z.of_nat (length l)) st1 = put_fifo (dma_put n (Z.of_nat (length l)) f1) st1) as Eu.
  { unfold rt_dma_recv_update_put_index. run_step (run_get_fifo a f1 st1 eq_refl). erewrite bind_Ok by reflexivity. rewrite Eb1. cbv zeta. unfold dma_put. cbv zeta. repeat case_match; congruence. }
  destruct (run_dma_fifo _ _ st1 Hst1 F2) as (st2 & E2 & Hst2). rewrite <- Eu in E2. run_step E2.
  pose proof Hst2 as (a2 & f2 & Er2' & Eb2' & _). run_step (run_recved a2 f2 st2 Er2' Eb2').
  assert (contents n (dma_put n (Z.of_nat (length l)) f1) = q ++ l) as Eq.
  { unfold contents. rewrite Er2, Eb2. rewrite <- ring_contents_mod by (cbn; rewrite dma_bytes_length; lia). cbn [buffer f1]. rewrite dma_bytes_length, Hb, Eg2.
    cbn [get_index f1]. rewrite <- Hb at 1. replace (length (buffer f)) with (length (dma_bytes (buffer f) (put_index f) l)) at 1 by apply dma_bytes_length.
    rewrite ring_contents_mod by (rewrite dma_bytes_length; lia). rewrite <- Ec. unfold contents.
    rewrite (dma_bytes_shift (buffer f) (put_index f) (get_index f + Z.of_nat (Z.to_nat (recved_len n f)))) by (rewrite ?Hb, ?Z2Nat.id by lia; first [lia|congruence]).
    replace (Z.to_nat (recved_len n f + Z.of_nat (length l))) with (Z.to_nat (recved_len n f) + length l)%nat by lia. apply dma_bytes_contents. lia. }
  rewrite Eq in Hst2. unfold indicate. erewrite bind_Ok by reflexivity. destruct st2 as [s2 [h2 u2]]. case_match; [|by eexists]. unfold on_uart. cbn [fst snd].
  match goal with |- context [rx_indicate ?fn ?k u2] => destruct (rx_indicate_ok fn k u2) as (u' & E) end. rewrite E. by eexists.
Qed.

Inductive dma_op := DRead (len : nat) | DArrive (l : list Z).

Definition dma_exec (op : dma_op) : M (serial_state (H := H) (U := U)) (list serial_answer) :=
  match op with
  | DRead len => r ← rt_serial_read getc dma_transmit set_errno (fun _ => mret tt) (Z.of_nat len); mret [Got r.1 r.2]
  | DArrive l => dma_arrive l;; mret []
  end.

(** Nothing is said about more bytes than there is room for. *)
Definition dma_spec (q : list Z) (op : dma_op) : option (list serial_answer * list Z) :=
  match op with
  | DRead len => Some ([Got (Z.of_nat (len `min` length q)) (take len q)], drop len q)
  | DArrive l => if Z.of_nat (length q + length l) <=? n then Some ([], q ++ l) else None
  end.

Fixpoint dma_run (ops : list dma_op) : M (serial_state (H := H) (U := U)) (list serial_answer) :=
  match ops with [] => mret [] | op :: ops => r ← dma_exec op; rs ← dma_run ops; mret (r ++ rs) end.
Fixpoint dma_spec_run (q : list Z) (ops : list dma_op) : option (list serial_answer * list Z) :=
  match ops with
  | [] => Some ([], q)
  | op :: ops => '(a, q1) ← dma_spec q op; '(l, q2) ← dma_spec_run q1 ops; Some (a ++ l, q2)
  end.

(** As long as the readers keep up, reads and DMA transfers of any lengths answer as a
    queue of [bufsz] bytes. *)
Theorem serial_dma_refines ops : forall q st a q', dma_holds q st -> dma_spec_run q ops = Some (a, q') ->
  exists st', dma_run ops st = Ok a st' /\ dma_holds q' st'.
Proof.
  induction ops as [|op ops IH]; intros q st a q' Hst Hs; cbn in Hs |- *; [injection Hs as <- <-; by exists st|].
  destruct (dma_spec q op) as [[a1 q1]|] eqn:E1; [|done]. cbn in Hs. destruct (dma_spec_run q1 ops) as [[l q2]|] eqn:E2; [|done]. injection Hs as <- <-.
  assert (exists st1, dma_exec op st = Ok a1 st1 /\ dma_holds q1 st1) as (st1 & R1 & Hst1).
  { destruct op as [len|l0]; cbn [dma_exec dma_spec] in *.
    - injection E1 as <- <-. pose proof Hst as (? & ? & _ & _ & Hi & Hd & _). unfold rt_serial_read. destruct len as [|len]; [by exists st|].
      rewrite (proj2 (Z.eqb_neq _ 0)) by lia. destruct (run_dma_rx (Z.of_nat (S len)) q st Hst) as (st1 & R1 & Hst1); [lia|]. rewrite Nat2Z.id in *. exists st1. split; [|done].
      erewrite bind_Ok; [|erewrite bind_Ok by reflexivity; cbv beta; rewrite Hi, Hd; exact R1]. reflexivity.
    - destruct (Z.leb_spec (Z.of_nat (length q + length l0)) n); [|done]. injection E1 as <- <-. destruct (run_dma_arrive l0 q st Hst) as (st1 & R1 & Hst1); [done|]. run_step R1. by exists st1. }
  run_step R1. destruct (IH q1 st1 l q2 Hst1 E2) as (st2 & R2 & Hst2). run_step R2. by exists st2.
Qed.
End dma.

(** ** Opening and closing *)

Section open_close.
Context {H U : Type} (malloc : Z -> M H (option Z)) (free : option Z -> M H unit) (owns : H -> list (Z * Z) -> Prop) `{!Allocator malloc free owns}.
Context (control : Z -> Z -> M U Z) (control_ok : forall c a u, exists r u', control c a u = Ok r u').

Lemma run_control c a (st : serial_state (H := H) (U := U)) : exists r u, on_uart (control c a) st = Ok r (st.1, (st.2.1, u)).
Proof. destruct (control_ok c a st.2.2) as (r & u & E). exists r, u. unfold on_uart. by rewrite E. Qed.

Definition no_mode (oflag : Z) : Prop := has oflag RT_DEVICE_FLAG_DMA_RX = false /\ has oflag RT_DEVICE_FLAG_DMA_TX = false /\ has oflag RT_DEVICE_FLAG_INT_TX = false.

Lemma has_land_low x m : Z.land 0xff m = 0 -> has (Z.land x 0xff) m = false.
Proof. intros E. unfold has. by rewrite <- Z.land_assoc, E, Z.land_0_r. Qed.

Lemma has_ldiff_same x m : has (Z.ldiff x m) m = false.
Proof. unfold has. apply negb_false_iff, Z.eqb_eq, Z.bits_inj'. intros i Hi. rewrite Z.land_spec, Z.ldiff_spec, Z.bits_0. by destruct (Z.testbit x i), (Z.testbit m i). Qed.

Lemma has_ldiff_other x m k : Z.land m k = 0 -> has (Z.ldiff x m) k = has x k.
Proof.
  intros E. unfold has. do 2 f_equal. apply Z.bits_inj'. intros i Hi. rewrite !Z.land_spec, Z.ldiff_spec. apply (f_equal (fun z => Z.testbit z i)) in E.
  rewrite Z.land_spec, Z.bits_0 in E. by destruct (Z.testbit x i), (Z.testbit m i), (Z.testbit k i).
Qed.

Lemma stream_other x m : m = RT_DEVICE_FLAG_INT_RX \/ m = RT_DEVICE_FLAG_DMA_RX \/ m = RT_DEVICE_FLAG_INT_TX \/ m = RT_DEVICE_FLAG_DMA_TX ->
  forall b : bool, has (Z.lor x (if b then RT_DEVICE_FLAG_STREAM else 0)) m = has x m.
Proof.
  intros Hm b. unfold has. rewrite Z.land_comm, Z.land_lor_distr_r. replace (Z.land m (if b then RT_DEVICE_FLAG_STREAM else 0)) with 0 by (destruct Hm as [-> | [-> | [-> | ->]]]; by destruct b).
  by rewrite Z.lor_0_r, Z.land_comm.
Qed.

Lemma run_open_rx oflag d c t h u :
  has oflag RT_DEVICE_FLAG_INT_RX = true -> has oflag RT_DEVICE_FLAG_DMA_RX = false ->
  match malloc (sizeof_rx_fifo + bufsz c) h with
  | Ok (Some a) h1 => exists u1, open_rx malloc control oflag (mk_serial d c None t, (h, u)) =
      Ok tt (mk_serial (set_dev_open_flag (Z.lor (dev_open_flag d) RT_DEVICE_FLAG_INT_RX) d) c (Some (new_fifo a (bufsz c))) t, (h1, u1))
  | _ => open_rx malloc control oflag (mk_serial d c None t, (h, u)) = Fault
  end.
Proof.
  intros Hi Hd. unfold open_rx. erewrite bind_Ok by reflexivity. erewrite bind_Ok by reflexivity. cbn [fst s_rx s_config]. rewrite Hd, Hi.
  unfold malloc_checked, mbind, M_bind, on_sheap. cbn [fst snd]. destruct (malloc (sizeof_rx_fifo + bufsz c) h) as [[a|] h1|]; try done. cbn.
  destruct (control_ok RT_DEVICE_CTRL_SET_INT RT_DEVICE_FLAG_INT_RX u) as (r & u1 & E). exists u1. unfold on_uart. cbn [fst snd]. by rewrite E.
Qed.

Lemma run_open_tx oflag d c r h u :
  has oflag RT_DEVICE_FLAG_DMA_TX = false -> has oflag RT_DEVICE_FLAG_INT_TX = false ->
  open_tx malloc control oflag (mk_serial d c r None, (h, u)) = Ok tt (mk_serial d c r None, (h, u)).
Proof. intros Hd Hi. unfold open_tx. erewrite bind_Ok by reflexivity. cbn [fst s_tx]. by rewrite Hd, Hi. Qed.

Lemma run_close_rx d c a f h h1 u :
  dev_ref_count d <= 1 -> has (dev_open_flag d) RT_DEVICE_FLAG_INT_RX = true -> has (dev_open_flag d) RT_DEVICE_FLAG_INT_TX = false -> has (dev_open_flag d) RT_DEVICE_FLAG_DMA_TX = false ->
  free (Some a) h = Ok tt h1 ->
  exists u1, rt_serial_close free control (mk_serial d c (Some (RxFifo a f)) None, (h, u)) =
    Ok RT_EOK (mk_serial (set_dev_open_flag (Z.ldiff (dev_open_flag d) RT_DEVICE_FLAG_INT_RX) d) c None None, (h1, u1)).
Proof.
  intros Href Hr Ht Hdt Ef. destruct (control_ok RT_DEVICE_CTRL_CLR_INT RT_DEVICE_FLAG_INT_RX u) as (r & u1 & E). exists u1.
  unfold rt_serial_close. erewrite bind_Ok by reflexivity. cbn [fst s_parent]. rewrite (proj2 (Z.ltb_ge _ _)) by done. erewrite bind_Ok by reflexivity. cbn [fst s_parent]. rewrite Hr.
  erewrite bind_Ok.
  2: { erewrite bind_Ok by reflexivity. erewrite bind_Ok by (unfold on_sheap; cbn [fst snd rx_addr]; by rewrite Ef). do 2 erewrite bind_Ok by reflexivity.
       erewrite bind_Ok by (unfold on_uart; cbn [fst snd]; by rewrite E). reflexivity. }
  erewrite bind_Ok by reflexivity. cbn. rewrite !has_ldiff_other by done. by rewrite Ht, Hdt.
Qed.

(** A device that is opened for reception by interrupts has an empty FIFO in memory of
    its own; closing it gives the memory back.  Without memory the open fails its
    assertion. *)
Theorem serial_open_close n oflag d c h u l :
  let st := (mk_serial d c None None, (h, u)) in
  owns h l -> bufsz c = n -> 2 <= n < 2 ^ 16 -> has oflag RT_DEVICE_FLAG_INT_RX = true -> no_mode oflag -> has (dev_flag d) RT_DEVICE_FLAG_INT_RX = true -> dev_ref_count d <= 1 ->
  match rt_serial_open malloc control oflag st with
  | Fault => exists h', malloc (sizeof_rx_fifo + n) h = Ok None h'
  | Ok r st1 => r = RT_EOK /\ rx_holds n [] st1 /\ (exists a k l1, owns st1.2.1 l1 /\ l1 ≡ₚ (a, k) :: l) /\
      exists st2, rt_serial_close free control st1 = Ok RT_EOK st2 /\ s_rx st2.1 = None /\ has (dev_open_flag (s_parent st2.1)) RT_DEVICE_FLAG_INT_RX = false /\
        exists l2, owns st2.2.1 l2 /\ l2 ≡ₚ l
  end.
Proof.
  intros st Ho En Hn Hi (Hdr & Hdt & Hit) Hflag Href. destruct (alloc_malloc h l (sizeof_rx_fifo + n) Ho) as (r & h1 & Em & Hr); [unfold sizeof_rx_fifo; lia|].
  unfold rt_serial_open. erewrite bind_Ok by reflexivity. cbn [fst s_parent st]. assert (modes_fit oflag (dev_flag d) = true) as Hmodes by (unfold modes_fit; cbn [forallb]; by rewrite Hdr, Hdt, Hi, Hit, Hflag).
  rewrite Hmodes. cbv zeta. cbn [negb]. set (d0 := set_dev_open_flag (Z.land oflag 0xff) d).
  assert (upd_parent (set_dev_open_flag (Z.land oflag 0xff)) st = Ok tt (mk_serial d0 c None None, (h, u))) as Eu by reflexivity. run_step Eu. pose proof (run_open_rx oflag d0 c None h u Hi Hdr) as Hrx. rewrite En, Em in Hrx.
  destruct r as [a|]; [|unfold mbind at 1, M_bind at 1; rewrite Hrx; by eexists]. destruct Hrx as (u1 & Hrx). run_step Hrx. erewrite bind_Ok by (by apply run_open_tx).
  erewrite bind_Ok by reflexivity. cbn [mret M_ret]. cbn [fst snd s_parent s_config s_rx s_tx dev_open_flag set_dev_open_flag d0].
  destruct Hr as (k & l1 & Hk & Ho1 & P1). set (flags := Z.lor (Z.lor (Z.land oflag 0xff) RT_DEVICE_FLAG_INT_RX) _).
  assert (forall m, m = RT_DEVICE_FLAG_INT_RX \/ m = RT_DEVICE_FLAG_DMA_RX \/ m = RT_DEVICE_FLAG_INT_TX \/ m = RT_DEVICE_FLAG_DMA_TX -> has flags m = bool_decide (m = RT_DEVICE_FLAG_INT_RX)) as Hflags.
  { intros m Hm. unfold flags. rewrite stream_other by done. unfold has. rewrite Z.land_comm, Z.land_lor_distr_r.
    replace (Z.land m (Z.land oflag 0xff)) with 0 by (rewrite (Z.land_comm oflag), Z.land_assoc; destruct Hm as [-> | [-> | [-> | ->]]]; done). destruct Hm as [-> | [-> | [-> | ->]]]; done. }
  split; [done|]. split.
  { eexists a, _. split; [reflexivity|]. split; [done|]. split; [apply Hflags; auto|]. split; [|split; [cbn; lia|done]].
    split; cbn; [done|rewrite length_replicate; lia|lia|lia|]. apply Forall_replicate. unfold in_byte. lia. }
  split; [by exists a, k, l1|]. destruct (alloc_free h1 l1 a k Ho1) as (h2 & l2 & Ef & Ho2 & P2); [rewrite P1; left|].
  destruct (run_close_rx (set_dev_open_flag flags d) c a (mk_fifo (replicate (Z.to_nat n) 0) 0 0 false) h1 h2 u1) as (u2 & Ec); [done|apply Hflags; auto|apply Hflags; auto|apply Hflags; auto|done|].
  eexists. split; [exact Ec|]. split; [done|]. split; [apply has_ldiff_same|]. exists l2. split; [done|]. apply (Permutation_cons_inv (a := (a, k))). by rewrite <- P2, P1.
Qed.
End open_close.

(** ** Polled output *)

(** What is sent for a text: a carriage return before every line feed in stream mode. *)
Definition stream_text (stream : bool) (data : list Z) : list Z :=
  concat ((fun c => if (c =? NEWLINE) && stream then [RETURN; c] else [c]) <$> data).

(** Polled output sends the text of the data, with carriage returns on a stream, and
    answers their number. *)
Theorem poll_tx_correct {H U} (putc : Z -> M U Z) (sent : U -> list Z) data (st : serial_state (H := H) (U := U)) :
  (forall c u, exists r u', putc c u = Ok r u' /\ sent u' = sent u ++ [c]) ->
  exists st', _serial_poll_tx putc data st = Ok (Z.of_nat (length data)) st' /\ st'.1 = st.1 /\ st'.2.1 = st.2.1 /\
    sent st'.2.2 = sent st.2.2 ++ stream_text (has (dev_open_flag (s_parent st.1)) RT_DEVICE_FLAG_STREAM) data.
Proof.
  intros Hputc. assert (forall c st0, exists r st1, on_uart (H := H) (putc c) st0 = Ok r st1 /\ st1.1 = st0.1 /\ st1.2.1 = st0.2.1 /\ sent st1.2.2 = sent st0.2.2 ++ [c]) as Hp.
  { intros c [s [h u]]. destruct (Hputc c u) as (r & u' & E & Hs). exists r, (s, (h, u')). unfold on_uart. cbn. by rewrite E. }
  enough (exists st', poll_tx_loop putc data st = Ok tt st' /\ st'.1 = st.1 /\ st'.2.1 = st.2.1 /\ sent st'.2.2 = sent st.2.2 ++ stream_text (has (dev_open_flag (s_parent st.1)) RT_DEVICE_FLAG_STREAM) data) as (st' & E & Hst').
  { exists st'. unfold _serial_poll_tx. by run_step E. }
  revert st. induction data as [|c data IH]; intros st; [exists st; unfold stream_text; by rewrite app_nil_r|]. cbn [poll_tx_loop]. erewrite bind_Ok by reflexivity.
  set (b := has (dev_open_flag (s_parent st.1)) RT_DEVICE_FLAG_STREAM) in *. change (stream_text b (c :: data)) with ((if (c =? NEWLINE) && b then [RETURN; c] else [c]) ++ stream_text b data).
  assert (exists st1, (if (c =? NEWLINE) && b then on_uart (putc RETURN);; mret tt else mret tt) st = Ok tt st1 /\ st1.1 = st.1 /\ st1.2.1 = st.2.1 /\
    sent st1.2.2 = sent st.2.2 ++ (if (c =? NEWLINE) && b then [RETURN] else [])) as (st1 & E1 & H1 & H1' & S1).
  { destruct ((c =? NEWLINE) && b); [|exists st; by rewrite app_nil_r]. destruct (Hp RETURN st) as (r & st1 & E & ?). exists st1. by run_step E. }
  run_step E1. destruct (Hp c st1) as (r & st2 & E2 & H2 & H2' & S2). run_step E2. destruct (IH st2) as (st3 & E3 & H3 & H3' & S3). exists st3. split; [done|].
  rewrite H3, H2, H1, H3', H2', H1'. split; [done|]. split; [done|]. rewrite S3, S2, S1, H2, H1. fold b. rewrite <- !app_assoc. f_equal. by destruct ((c =? NEWLINE) && b).
Qed.

(** ** Limits *)

(** A second opening without a mode of reception: the FIFO and its interrupt stay, but
    the readers of the first opening poll the uart from now on. *)
Theorem second_open_polls {H U} (malloc : Z -> M H (option Z)) (control : Z -> Z -> M U Z) n q oflag (st : serial_state (H := H) (U := U)) :
  rx_holds n q st -> s_tx st.1 = None -> has oflag RT_DEVICE_FLAG_INT_RX = false -> no_mode oflag ->
  exists st', rt_serial_open malloc control oflag st = Ok RT_EOK st' /\ s_rx st'.1 = s_rx st.1 /\ has (dev_open_flag (s_parent st'.1)) RT_DEVICE_FLAG_INT_RX = false.
Proof.
  intros (a & f & Er & _) Et Hi (Hdr & Hdt & Hit). destruct st as [[d c rx tx] [h u]]. cbn in Er, Et. subst rx tx.
  assert (modes_fit oflag (dev_flag d) = true) as Hm by (unfold modes_fit; cbn [forallb]; by rewrite Hdr, Hdt, Hi, Hit).
  unfold rt_serial_open. erewrite bind_Ok by reflexivity. cbn [fst s_parent]. rewrite Hm. cbn [negb]. cbv zeta. erewrite bind_Ok by reflexivity.
  erewrite bind_Ok by (unfold open_rx; do 2 erewrite bind_Ok by reflexivity; cbn [fst s_rx]; by rewrite Hdr, Hi).
  erewrite bind_Ok by (unfold open_tx; erewrite bind_Ok by reflexivity; cbn [fst s_tx]; by rewrite Hdt, Hit).
  erewrite bind_Ok by reflexivity. eexists. split; [reflexivity|]. split; [done|]. cbn. rewrite stream_other by auto. by apply has_land_low.
Qed.

(** One byte more than the FIFO holds, by DMA: the 4 bytes that were there are lost. *)
Theorem dma_overrun_loses :
  let f := mk_fifo [1; 2; 3; 4] 1 1 true in
  contents 4 f = [2; 3; 4; 1] /\ contents 4 (dma_put 4 1 (mk_fifo (dma_bytes (buffer f) (put_index f) [5]) 1 1 true)) = [5].
Proof. vm_compute. done. Qed.

(** Without a buffer size the first byte is written behind the FIFO. *)
Theorem isr_without_buffer {H U} (st : serial_state (H := H) (U := U)) a c :
  s_rx st.1 = Some (new_fifo a 0) -> isr_store c st = Fault.
Proof. intros Er. unfold isr_store. run_step (run_get_fifo a _ st Er). reflexivity. Qed.

Definition demo_config (n : Z) : serial_configure := mk_config 115200 8 0 0 0 0 n.
Definition demo_uart (flag : Z) : rt_device := mk_dev 0 flag 0 1 None None.

(** Closing a device that sends by DMA loses the memory of its queue. *)
Theorem dma_close_leaks :
  let st := (mk_serial (demo_uart RT_DEVICE_FLAG_DMA_TX) (demo_config 64) None None, (demo_heap, tt)) in
  let x := rt_serial_open rt_malloc (fun _ _ => mret 0) RT_DEVICE_FLAG_DMA_TX;; rt_serial_close rt_free (fun _ _ => mret 0) in
  ret x st = Some RT_EOK /\ ret (rt_malloc 996) demo_heap = Some (Some 12) /\ ret (rt_malloc 996) (run x st).2.1 = Some None.
Proof. vm_compute. done. Qed.

(** ** Examples *)

(** A receiver that holds its bytes in a list. *)
Definition list_getc : M (list Z) Z := fun u => match u with [] => Ok (-1) [] | c :: l => Ok c l end.

#[global] Instance list_uart : Uart list_getc (fun _ _ => mret tt) id (fun l _ => l).
Proof. split; [intros u c l E; cbv [id] in E; subst; by eexists|intros u E; cbv [id] in E; subst; by eexists|done|by eexists]. Qed.

Definition demo_serial (flag : Z) (f : rt_serial_rx_fifo) : serial_state (H := unit) (U := list Z) :=
  (mk_serial (set_dev_open_flag flag (demo_uart flag)) (demo_config 4) (Some (RxFifo 12 f)) None, (tt, [])).
Definition empty_fifo : rt_serial_rx_fifo := mk_fifo [0; 0; 0; 0] 0 0 false.

(** Five bytes arrive, of which the last three stay; during the read of all of them two
    more arrive behind the first byte. *)
Lemma serial_rx_refines_witness :
  let ops := [SInterrupt [1; 2; 3; 4; 5]; SAvail; SRead 5 (fun k => if decide (k = 4%nat) then [6; 7] else []); SAvail] in
  exists st', serial_run (fun _ => mret 0) (fun _ _ => mret 0) list_getc (fun _ _ => mret 0) (fun _ _ => mret tt) (fun _ => mret tt) (fun l _ => l) ops
      (demo_serial RT_DEVICE_FLAG_INT_RX empty_fifo) = Ok [Available 3; Got 4 [3; 5; 6; 7]; Available 0] st' /\ rx_holds 4 [] st'.
Proof.
  intros ops. apply (serial_rx_refines (H := unit) (fun _ => mret 0) (fun _ _ => mret 0) list_getc (fun _ _ => mret 0) (fun _ _ => mret tt) (fun _ => mret tt) id (fun l _ => l) 4 ops [] (demo_serial RT_DEVICE_FLAG_INT_RX empty_fifo)).
  - exists 12, empty_fifo. split; [reflexivity|]. split; [reflexivity|]. split; [reflexivity|]. split; [|split; [vm_compute; reflexivity|reflexivity]].
    split; cbn; [lia|lia|lia|lia|]. repeat constructor; unfold in_byte; lia.
  - repeat constructor; cbn; try (intros k; case_decide); repeat constructor; unfold in_byte; lia.
Defined.

Lemma serial_dma_refines_witness :
  exists st', dma_run list_getc (fun _ _ => mret 0) (fun _ _ => mret tt) (fun _ => mret tt) [DArrive [1; 2; 3]; DRead 2; DArrive [4; 5; 6]; DRead 8] (demo_serial RT_DEVICE_FLAG_DMA_RX empty_fifo) =
    Ok [Got 2 [1; 2]; Got 4 [3; 4; 5; 6]] st' /\ dma_holds 4 [] st'.
Proof.
  apply (serial_dma_refines (H := unit) list_getc (fun _ _ => mret 0) (fun _ _ => mret tt) (fun _ => mret tt) (fun _ _ u => ex_intro _ u eq_refl) 4 [DArrive [1; 2; 3]; DRead 2; DArrive [4; 5; 6]; DRead 8] []).
  - exists 12, empty_fifo. split; [reflexivity|]. split; [reflexivity|]. split; [reflexivity|]. split; [reflexivity|]. split; [|reflexivity]. split; cbn; try lia; done.
  - reflexivity.
Defined.

Lemma poll_tx_correct_witness :
  exists st', _serial_poll_tx (H := unit) (fun c u => Ok 1 (u ++ [c])) [104; 105; 10] (mk_serial (set_dev_open_flag RT_DEVICE_FLAG_STREAM (demo_uart 0)) (demo_config 64) None None, (tt, [])) = Ok 3 st' /\
    st'.2.2 = [104; 105; 13; 10].
Proof.
  destruct (poll_tx_correct (H := unit) (fun c u => Ok 1 (u ++ [c])) id [104; 105; 10] (mk_serial (set_dev_open_flag RT_DEVICE_FLAG_STREAM (demo_uart 0)) (demo_config 64) None None, (tt, []))) as (st' & E & _ & _ & S).
  - intros c u. by exists 1, (u ++ [c]).
  - exists st'. split; [exact E|exact S].
Defined.
