(* ===== verification/Screw.v ===== *)
(** * The application: applications/pid.c, applications/screw.c, hardware/key.c

    The position loop of the screw: every 4 ticks the pid thread reads the two
    encoders, computes a velocity and sends it to the motor driver over the CAN
    bus of [RoboModule]; the key thread turns key presses into modes. *)

From S2P Require Import Prelude RoboModule.

(** ** Floating point

    Every [float] of the loop holds an integer: the gains, the errors, their
    differences and sums.  A [float] operation is the exact integer result
    rounded to 24 significant bits, to the nearest, ties to even. *)

Definition f32 (z : Z) : Z :=
  let q := 2 ^ Z.max 0 (Z.log2 (Z.abs z) - 23) in
  let d := z / q in
  let r := z mod q in
  if 2 * r <? q then d * q
  else if q <? 2 * r then (d + 1) * q
  else if Z.even d then d * q else (d + 1) * q.

(** [Parameter] of encode.c: lines of an encoder; a turn is 4 * 1024 counts. *)
Definition Parameter_lines : Z := 1024.

(** The globals of screw.c and pid.c, and the CAN bus. *)
Record screw := mk_screw {
  count : Z;                  (**  [rt_uint16_t] *)
  count1 : Z;                 (**  [rt_uint16_t] *)
  count_1 : Z;                (**  [rt_uint16_t] *)
  mode : Z;                   (**  [rt_uint16_t] *)
  Desire_value : Z;           (**  [rt_int16_t] *)
  ResultValue : Z;            (**  [float] *)
  SeqIntPIDErrADD : Z;        (**  [float] *)
  SeqIntErrBack : Z;          (**  [float] *)
  can : can_state
}.

Definition set_counts (c c1 d : Z) (s : screw) : screw :=
  mk_screw c c1 d (mode s) (Desire_value s) (ResultValue s) (SeqIntPIDErrADD s) (SeqIntErrBack s) (can s).
Definition set_mode (v : Z) (s : screw) : screw :=
  mk_screw (count s) (count1 s) (count_1 s) v (Desire_value s) (ResultValue s) (SeqIntPIDErrADD s) (SeqIntErrBack s) (can s).
Definition set_desire (v : Z) (s : screw) : screw :=
  mk_screw (count s) (count1 s) (count_1 s) (mode s) v (ResultValue s) (SeqIntPIDErrADD s) (SeqIntErrBack s) (can s).
Definition set_result (v : Z) (s : screw) : screw :=
  mk_screw (count s) (count1 s) (count_1 s) (mode s) (Desire_value s) v (SeqIntPIDErrADD s) (SeqIntErrBack s) (can s).
Definition set_errors (sum back : Z) (s : screw) : screw :=
  mk_screw (count s) (count1 s) (count_1 s) (mode s) (Desire_value s) (ResultValue s) sum back (can s).
Definition set_can (c : can_state) (s : screw) : screw :=
  mk_screw (count s) (count1 s) (count_1 s) (mode s) (Desire_value s) (ResultValue s) (SeqIntPIDErrADD s) (SeqIntErrBack s) c.

(** Run a command of the bus on the globals. *)
Definition on_can {A} (m : M can_state A) : M screw A :=
  fun s => match m (can s) with Ok a c => Ok a (set_can c s) | Fault => Fault end.

(** The error of [SeqIntPID]: [GiveValue] and [ActualValue] are what the function
    reads of its arguments, the arithmetic is that of [int], the result is stored
    in an [s16]. *)
Definition seq_error (GiveValue ActualValue : Z) : Z :=
  let err := s16 (Z.rem ((GiveValue - ActualValue) + 4 * Parameter_lines) (4 * Parameter_lines)) in
  if 2 * Parameter_lines <? err then s16 (err - 4 * Parameter_lines) else err.

Definition SeqIntPID (Kp Ki Kd GiveValue ActualValue : Z) : M screw Z :=
  s ← get;
  let err := seq_error GiveValue ActualValue in
  let KpWork := f32 (Kp * err) in
  let KiWork := f32 (Ki * SeqIntPIDErrADD s) in
  let KdWork := f32 (Kd * f32 (err - SeqIntErrBack s)) in
  let result := if 100 <? Z.abs err then f32 (KpWork + KdWork) else f32 (f32 (KpWork + KiWork) + KdWork) in
  modify (set_errors (f32 (SeqIntPIDErrADD s + err)) err);;
  mret result.

(** One round of [pid_thread_entry] with the counters read from the timers, up
    to its [rt_thread_delay(4)].  screw.c calls [SeqIntPID] through the prototype
    of pid.h, which has an [s16 GiveValue], while pid.c defines it with
    [u16 GiveValue]: what the function reads of the [s16] that is passed is up to
    the compiler, and is the parameter [reads]. *)
Section round.
Context (reads : Z -> Z).

Definition pid_round (tx_irq : nat -> bool) (tim4 tim8 : Z) : M screw unit :=
  let c := u16 tim4 in
  let c1 := u16 tim8 in
  let d := u16 (c - c1) in
  modify (set_counts c c1 (u16 (Z.rem (d + 4096) 4096)));;
  s ← get;
  result ← SeqIntPID 4 0 50 (reads (Desire_value s)) (count_1 s);
  modify (set_result (if 1800 <? result then 1800 else if result <? -1800 then -1800 else result));;
  v ← gets ResultValue;
  on_can (CAN_RoboModule_DRV_Current_Velocity_Mode tx_irq 0 1 6000 (s16 v)).
End round.

(** ** Keys *)

(** The levels of the four pins; a pressed key reads 0, the wake-up key 1. *)
Record pinset := mk_pins { KEY0 : Z; KEY1 : Z; KEY2 : Z; WK_UP : Z }.

(** [key_up] is the static variable of [KEY_Scan]; [now] counts the readings. *)
Record key_state := mk_key { key_up : Z; now : nat }.

Section keys.
(** The pins at each reading. *)
Context (pins : nat -> pinset).

Definition read_pin (f : pinset -> Z) : M key_state Z :=
  k ← get; modify (fun k => mk_key (key_up k) (S (now k)));; mret (f (pins (now k))).
Definition set_key_up (v : Z) : M key_state unit := modify (fun k => mk_key v (now k)).

(** [a || b] and [a && b] with readings. *)
Definition or_else (a b : M key_state bool) : M key_state bool := x ← a; if x : bool then mret true else b.
Definition and_then (a b : M key_state bool) : M key_state bool := x ← a; if x : bool then b else mret false.
Definition pin_is (f : pinset -> Z) (v : Z) : M key_state bool := x ← read_pin f; mret (x =? v).

(** [rt_thread_delay(10)]: the pins go on. *)
Definition key_delay : M key_state unit := modify (fun k => mk_key (key_up k) (now k + 10)).

Definition KEY_Scan (mode : Z) : M key_state Z :=
  when (negb (mode =? 0)) (set_key_up 1);;
  up ← gets key_up;
  pressed ← and_then (mret (negb (up =? 0)))
    (or_else (pin_is KEY0 0) (or_else (pin_is KEY1 0) (or_else (pin_is KEY2 0) (pin_is WK_UP 1))));
  if pressed : bool then
    key_delay;;
    set_key_up 0;;
    k0 ← pin_is KEY0 0;
    if k0 : bool then mret 1 else
    k1 ← pin_is KEY1 0;
    if k1 : bool then mret 2 else
    k2 ← pin_is KEY2 0;
    if k2 : bool then mret 3 else
    wk ← pin_is WK_UP 1;
    if wk : bool then mret 4 else mret 0
  else
    released ← and_then (pin_is KEY0 1) (and_then (pin_is KEY1 1) (and_then (pin_is KEY2 1) (pin_is WK_UP 0)));
    when released (set_key_up 1);;
    mret 0.

(** One round of [key_thread_entry]: the value it stores in [mode]. *)
Definition key_mode (key : Z) : Z :=
  if key =? 1 then 1 else if key =? 2 then 2 else if key =? 4 then 0 else 4.
Definition key_round : M key_state Z := key ← KEY_Scan 0; key_delay;; mret (key_mode key).

Fixpoint key_rounds (n : nat) : M key_state (list Z) :=
  match n with O => mret [] | S n => m ← key_round; ms ← key_rounds n; mret (m :: ms) end.
End keys.

(** ** The error is the short way round *)

(** The signed distance from [actual] to [give] on a circle of 4096 counts. *)
Definition short_way (give actual : Z) : Z :=
  let d := (give - actual) mod 4096 in if 2048 <? d then d - 4096 else d.

Lemma short_way_range give actual : - 2048 < short_way give actual <= 2048.
Proof. unfold short_way. case_match; to_prop; Z.to_euclidean_division_equations; lia. Qed.

Lemma short_way_mod give actual : (short_way give actual) mod 4096 = (give - actual) mod 4096.
Proof. unfold short_way. case_match; to_prop; Z.to_euclidean_division_equations; lia. Qed.

Lemma short_way_unique give actual e :
  - 2048 < e <= 2048 -> e mod 4096 = (give - actual) mod 4096 -> e = short_way give actual.
Proof.
  intros He Hm. pose proof (short_way_range give actual). pose proof (short_way_mod give actual).
  Z.to_euclidean_division_equations. lia.
Qed.

(** The two readings of an [s16] argument: as it was passed, or as a [u16]. *)
Definition reading (v g : Z) : Prop := g = v \/ g = u16 v.

(** In both readings the error leads to the set point; it is the short way round
    unless the set point is below -2048 and read as a negative number. *)
Lemma seq_error_spec give g actual :
  is_s16 give -> reading give g -> 0 <= actual < 4096 ->
  let e := seq_error g actual in
  - 4096 < e <= 2048 /\ e mod 4096 = (give - actual) mod 4096 /\
  (g = u16 give \/ - 2048 <= give -> - 2048 < e).
Proof.
  unfold is_s16, reading. intros Hg Hr Ha. unfold seq_error, Parameter_lines. change (4 * 1024) with 4096. change (2 * 1024) with 2048.
  assert (g mod 4096 = give mod 4096 /\ - 32768 <= g /\ (g = u16 give \/ - 2048 <= give -> -2048 <= g)) as (Em & Hl & Hs).
  { pose proof (u16_range give). destruct Hr as [-> | ->]; [split_and!; [done|lia|]|unfold u16 in *; split_and!;
      [Z.to_euclidean_division_equations; lia|lia|lia]]. intros [->|?]; [|lia]. lia. }
  set (r := Z.rem (g - actual + 4096) 4096).
  assert (- 4096 < r < 4096 /\ r mod 4096 = (give - actual) mod 4096 /\ (-2048 <= g -> -2048 < r)) as (Hb & Hm & Hs').
  { unfold r. clear -Em Hl Ha. Z.to_euclidean_division_equations. lia. }
  rewrite (s16_small r) by lia. destruct (Z.ltb_spec 2048 r).
  - rewrite s16_small by lia. split_and!; [lia|lia| |lia]. rewrite <- Hm. Z.to_euclidean_division_equations. lia.
  - split_and!; [lia|lia|done|]. intros Hc. apply Hs', Hs, Hc.
Qed.

(** ** The loop *)

Lemma f32_exact z : - 2 ^ 24 < z < 2 ^ 24 -> f32 z = z.
Proof.
  intros Hz. unfold f32. assert (Z.log2 (Z.abs z) < 24) as Hl.
  { destruct (Z.eq_dec z 0) as [->|]; [done|]. apply Z.log2_lt_pow2; lia. }
  rewrite (Z.max_l 0) by lia. change (2 ^ 0) with 1. rewrite Z.div_1_r, Z.mod_1_r.
  change (2 * 0 <? 1) with true. cbv iota. lia.
Qed.

(** Rounding does not leave an interval whose ends are powers of two of at most
    the precision, nor does a rounded sum leave it by less than half a unit in
    the last place. *)
Lemma f32_below z : Z.abs z <= 2 ^ 36 + 4095 -> Z.abs (f32 z) <= 2 ^ 36.
Proof.
  intros Hz. unfold f32. set (e := Z.max 0 (Z.log2 (Z.abs z) - 23)).
  destruct (Z.le_gt_cases (Z.abs z) (2 ^ 36 - 1)) as [Hs|Hb].
  - assert (0 <= e <= 13) as He.
    { unfold e. split; [lia|]. assert (Z.log2 (Z.abs z) <= 36); [|lia].
      transitivity (Z.log2 (2 ^ 36)); [apply Z.log2_le_mono; lia|by rewrite Z.log2_pow2]. }
    assert (0 < 2 ^ e) as Hq by (apply Z.pow_pos_nonneg; lia).
    assert (2 ^ 36 = 2 ^ e * 2 ^ (36 - e)) as E36 by (rewrite <- Z.pow_add_r by lia; f_equal; lia).
    set (q := 2 ^ e) in *. set (k := 2 ^ (36 - e)) in *. clearbody q k.
    pose proof (Z.div_mod z q ltac:(lia)) as Ed. pose proof (Z.mod_pos_bound z q Hq) as Hr.
    assert (- k <= z / q < k) as Hd by (split; [apply Z.div_le_lower_bound|apply Z.div_lt_upper_bound]; lia).
    repeat case_match; apply Z.abs_le; nia.
  - assert (e = 13) as ->.
    { unfold e. assert (Z.log2 (Z.abs z) = 36 \/ Z.abs z = 2 ^ 36 - 1) as [E|E]; [|lia|lia].
      left. apply Z.log2_unique; [done|]. lia. }
    change (2 ^ 13) with 8192. repeat case_match; to_prop; Z.to_euclidean_division_equations; lia.
Qed.

(** What the loop keeps: the last error is less than a turn, and the sum of the
    errors stays where further errors are lost in the rounding. *)
Definition pid_inv (s : screw) : Prop :=
  - 4096 < SeqIntErrBack s <= 2048 /\ Z.abs (SeqIntPIDErrADD s) <= 2 ^ 36 /\ is_s16 (Desire_value s).

(** The command of a round: 4 times the error and 50 times its change, limited. *)
Definition pid_velocity (e back : Z) : Z := clamp (-1800) 1800 (4 * e + 50 * (e - back)).

Lemma run_SeqIntPID g actual s :
  let e := seq_error g actual in
  - 4096 < e <= 2048 -> - 4096 < SeqIntErrBack s <= 2048 ->
  SeqIntPID 4 0 50 g actual s
  = Ok (4 * e + 50 * (e - SeqIntErrBack s)) (set_errors (f32 (SeqIntPIDErrADD s + e)) e s).
Proof.
  intros e He Hb. unfold SeqIntPID. erewrite bind_Ok by reflexivity. cbv zeta. fold e.
  rewrite Z.mul_0_l, (f32_exact 0), (f32_exact (4 * e)), (f32_exact (e - _)), (f32_exact (50 * _)) by lia.
  rewrite Z.add_0_r, (f32_exact (4 * e)), (f32_exact (4 * e + _)) by lia.
  erewrite bind_Ok by reflexivity. by destruct (100 <? Z.abs e).
Qed.

Section loop.
Context (reads : Z -> Z).

(** A compiler reads a given argument in one of the two ways. *)
Hypothesis reads_ok : forall v, is_s16 v -> reading v (reads v).

Lemma run_pid_round irq tim4 tim8 s :
  pid_inv s ->
  exists s' e, pid_round reads irq tim4 tim8 s = Ok tt s' /\ pid_inv s' /\
    SeqIntErrBack s' = e /\ Desire_value s' = Desire_value s /\ mode s' = mode s /\
    - 4096 < e <= 2048 /\ e mod 4096 = (Desire_value s - (tim4 - tim8)) mod 4096 /\
    (reads (Desire_value s) = u16 (Desire_value s) \/ - 2048 <= Desire_value s -> - 2048 < e) /\
    can_sent (can s') = can_sent (can s) ++ [frame_of 0 1 (CurrentVelocity 6000 (pid_velocity e (SeqIntErrBack s)))].
Proof.
  intros (Hb & Hs & Hd).
  assert (u16 (Z.rem (u16 (u16 tim4 - u16 tim8) + 4096) 4096) = (tim4 - tim8) mod 4096) as Ec.
  { rewrite Z.rem_mod_nonneg by (pose proof (u16_range (u16 tim4 - u16 tim8)); lia).
    unfold u16. Z.to_euclidean_division_equations. lia. }
  assert (0 <= (tim4 - tim8) mod 4096 < 4096) as Hc by (apply Z.mod_pos_bound; lia).
  unfold pid_round. erewrite bind_Ok by reflexivity. erewrite bind_Ok by reflexivity. cbv zeta.
  cbn [Desire_value count_1 set_counts]. rewrite Ec. set (c := (tim4 - tim8) mod 4096) in *.
  destruct (seq_error_spec (Desire_value s) (reads (Desire_value s)) c Hd (reads_ok _ Hd) Hc) as (He & Hm & Hsh).
  erewrite bind_Ok by (apply (run_SeqIntPID (reads (Desire_value s)) c); [exact He|exact Hb]).
  set (e := seq_error (reads (Desire_value s)) c) in *.
  cbn [SeqIntErrBack SeqIntPIDErrADD set_counts].
  erewrite bind_Ok by reflexivity. erewrite bind_Ok by reflexivity. cbn [ResultValue set_result].
  set (r := 4 * e + 50 * (e - SeqIntErrBack s)).
  assert ((if 1800 <? r then 1800 else if r <? -1800 then -1800 else r) = pid_velocity e (SeqIntErrBack s)) as ->.
  { unfold pid_velocity, clamp. fold r. repeat case_match; to_prop; lia. }
  assert (-1800 <= pid_velocity e (SeqIntErrBack s) <= 1800) as Hv by (unfold pid_velocity, clamp; lia).
  rewrite s16_small by lia. set (v := pid_velocity _ _) in *. unfold on_can. cbn [can set_result set_errors set_counts].
  destruct (issue_frame irq 0 1 (CurrentVelocity 6000 v) (can s)) as (c' & Ec' & Hsent);
    [unfold is_u8; lia..|unfold args_ok, magnitude, is_s16; lia|].
  cbn [issue] in Ec'. rewrite Ec'. rewrite decide_True in Hsent by lia. destruct Hsent as [Hsent _].
  eexists _, e. split; [reflexivity|]. cbn. split_and!; try done; try lia.
  - split_and!; cbn; try done; try lia. apply f32_below. lia.
  - rewrite Hm. unfold c. Z.to_euclidean_division_equations. lia.
Qed.

Lemma decode_command v : -1800 <= v <= 1800 ->
  decode (frame_of 0 1 (CurrentVelocity 6000 v)) = Some (0, 1, CurrentVelocity 6000 v).
Proof. intros Hv. apply decode_frame; [lia..|]. unfold in_types, is_s16. lia. Qed.

Lemma pid_velocity_range e back : -1800 <= pid_velocity e back <= 1800.
Proof. unfold pid_velocity, clamp. lia. Qed.

(** C27: a round of the position loop sends one frame to driver 1 of group 0, with
    the current limit 6000 and a velocity of 4 times the error plus 50 times its
    change since the last round, limited to 1800.  The error leads from the
    position to the set point on the circle of 4096 counts, whatever the two
    16-bit encoder counters hold and whichever way the compiler reads the set
    point, and single precision is exact on the way.  For set points of at least
    -2048 (the application uses -500 to 380), and for all of them if they are read
    as unsigned numbers, it is the short way round. *)
Theorem pid_round_correct irq tim4 tim8 s :
  pid_inv s ->
  exists s' m e, pid_round reads irq tim4 tim8 s = Ok tt s' /\ pid_inv s' /\
    - 4096 < e <= 2048 /\ e mod 4096 = (Desire_value s - (tim4 - tim8)) mod 4096 /\
    (reads (Desire_value s) = u16 (Desire_value s) \/ - 2048 <= Desire_value s ->
     - 2048 < e /\ e = short_way (Desire_value s) (tim4 - tim8)) /\
    SeqIntErrBack s' = e /\ can_sent (can s') = can_sent (can s) ++ [m] /\
    decode m = Some (0, 1, CurrentVelocity 6000 (clamp (-1800) 1800 (4 * e + 50 * (e - SeqIntErrBack s)))).
Proof.
  intros I. destruct (run_pid_round irq tim4 tim8 s I) as (s' & e & E & I' & Eb & _ & _ & He & Hm & Hsh & Es).
  eexists s', _, e. split_and!; try done; try lia.
  - intros Hc. specialize (Hsh Hc). split; [done|]. apply short_way_unique; [lia|done].
  - apply decode_command, pid_velocity_range.
Qed.

(** The other threads change the set point between two rounds. *)
Inductive pid_event :=
| Round (irq : nat -> bool) (tim4 tim8 : Z)
| Target (v : Z).

Fixpoint pid_run (es : list pid_event) : M screw unit :=
  match es with
  | [] => mret tt
  | Round irq t4 t8 :: es => pid_round reads irq t4 t8;; pid_run es
  | Target v :: es => modify (set_desire v);; pid_run es
  end.

Definition event_ok (e : pid_event) : Prop := match e with Target v => is_s16 v | _ => True end.

(** A frame that only ever asks for a velocity within the limit. *)
Definition safe_command (m : can_msg) : Prop :=
  exists v, -1800 <= v <= 1800 /\ decode m = Some (0, 1, CurrentVelocity 6000 v).

(** C28: however long the loop runs, whatever the encoders read, however the set
    point changes and whichever way it is read, every round ends, the motor is
    never asked for more than 1800, and the sum of the errors stays below 2^36,
    far from the largest [float]: it gets stuck there, since an error is then less
    than half a unit of its last place.  If set points are read as unsigned
    numbers, the last error stays within half a turn. *)
Theorem pid_commands_safe es s :
  pid_inv s -> Forall event_ok es -> Forall safe_command (can_sent (can s)) ->
  exists s', pid_run es s = Ok tt s' /\ pid_inv s' /\ Forall safe_command (can_sent (can s')) /\
    ((forall v, is_s16 v -> reads v = u16 v) -> - 2048 <= SeqIntErrBack s <= 2048 -> - 2048 <= SeqIntErrBack s' <= 2048).
Proof.
  intros I He Hs. revert s I Hs. induction He as [|[irq t4 t8|v] es He _ IH]; intros s I Hs; cbn [pid_run].
  - by exists s.
  - destruct (run_pid_round irq t4 t8 s I) as (s1 & e & E & I1 & Eb & _ & _ & Her & _ & Hsh & Es). run_step E.
    destruct (IH s1) as (s' & E' & I' & Hs' & Hb'); [done| |].
    { rewrite Es. apply Forall_app. split; [done|]. constructor; [|done]. eexists. split; [apply pid_velocity_range|].
      apply decode_command, pid_velocity_range. }
    exists s'. split_and!; try done. intros Hu _. apply Hb'; [done|]. destruct I as (_ & _ & Hd).
    specialize (Hsh (or_introl (Hu _ Hd))). lia.
  - erewrite bind_Ok by reflexivity. apply (IH (set_desire v s)); [|done].
    destruct I as (? & ? & _). split; [done|]. split; done.
Qed.

(** A screw at rest off its target is driven towards it, with a velocity of
    the sign of the remaining way and proportional to it up to the limit; at
    rest on the target the velocity is 0, and only there. *)
Theorem pid_drives_to_target irq tim4 tim8 s :
  pid_inv s -> - 2048 <= Desire_value s -> SeqIntErrBack s = short_way (Desire_value s) (tim4 - tim8) ->
  exists s' m v, pid_round reads irq tim4 tim8 s = Ok tt s' /\ can_sent (can s') = can_sent (can s) ++ [m] /\
    decode m = Some (0, 1, CurrentVelocity 6000 v) /\
    Z.sgn v = Z.sgn (SeqIntErrBack s) /\ Z.abs v = Z.min 1800 (4 * Z.abs (SeqIntErrBack s)) /\
    (v = 0 <-> (Desire_value s - (tim4 - tim8)) mod 4096 = 0).
Proof.
  intros I Hd Hr. destruct (run_pid_round irq tim4 tim8 s I) as (s' & e & E & _ & _ & _ & _ & He & Hm & Hsh & Es).
  assert (e = SeqIntErrBack s) as -> by (rewrite Hr; apply short_way_unique; [|done]; specialize (Hsh (or_intror Hd)); lia).
  eexists s', _, _. split; [done|]. split; [exact Es|]. split; [apply decode_command, pid_velocity_range|].
  specialize (Hsh (or_intror Hd)). unfold pid_velocity, clamp. set (e := SeqIntErrBack s) in *. rewrite <- Hm.
  replace (e - e) with 0 by lia. split; [lia|]. split; [lia|]. split.
  - intros. assert (e = 0) as -> by lia. done.
  - intros. assert (e = 0) as -> by (Z.to_euclidean_division_equations; lia). done.
Qed.
End loop.

(** The two declarations of [SeqIntPID] disagree below -2048: read as it was
    passed, -3000 at position 4095 gives an error of -2999, the long way round;
    read as a [u16] it gives 1097. *)
Theorem pid_readings_differ :
  seq_error (-3000) 4095 = -2999 /\ seq_error (u16 (-3000)) 4095 = 1097 /\ short_way (-3000) 4095 = 1097.
Proof. vm_compute. done. Qed.

(** ** Keys *)

Section key_proofs.
Context (pins : nat -> pinset).

(** The code of the highest-priority pressed key; 0 when none is. *)
Definition key_code (p : pinset) : Z :=
  if KEY0 p =? 0 then 1 else if KEY1 p =? 0 then 2 else if KEY2 p =? 0 then 3 else if WK_UP p =? 1 then 4 else 0.

Definition digital (p : pinset) : Prop :=
  (KEY0 p = 0 \/ KEY0 p = 1) /\ (KEY1 p = 0 \/ KEY1 p = 1) /\ (KEY2 p = 0 \/ KEY2 p = 1) /\ (WK_UP p = 0 \/ WK_UP p = 1).

(** The pins do not change from a reading on. *)
Definition steady (p : pinset) (t : nat) : Prop := forall n, (t <= n)%nat -> pins n = p.

Lemma steady_later p t t' : steady p t -> (t <= t')%nat -> steady p t'.
Proof. intros H Ht n Hn. apply H. lia. Qed.

(** A scan of steady pins reports the pressed key unless it has been reported
    already, and remembers whether one is pressed. *)
Lemma run_scan p k :
  digital p -> steady p (now k) -> key_up k = 0 \/ key_up k = 1 ->
  exists t, (now k <= t)%nat /\
    KEY_Scan pins 0 k = Ok (if key_up k =? 0 then 0 else key_code p) (mk_key (if key_code p =? 0 then 1 else 0) t).
Proof.
  destruct p as [k0 k1 k2 wk]. intros (H0 & H1 & H2 & H3) Hst Hup. destruct k as [u t0]. cbn in *.
  unfold KEY_Scan, key_code, and_then, or_else, pin_is, read_pin, key_delay, set_key_up, when, mbind, M_bind, get, gets, modify.
  destruct Hup as [-> | ->], H0 as [-> | ->], H1 as [-> | ->], H2 as [-> | ->], H3 as [-> | ->]; cbn;
    repeat (rewrite Hst by lia; cbn).
  all: eexists; split; [|reflexivity]; lia.
Qed.

Lemma run_key_round p k :
  digital p -> steady p (now k) -> key_up k = 0 \/ key_up k = 1 ->
  exists t, (now k <= t)%nat /\
    key_round pins k = Ok (key_mode (if key_up k =? 0 then 0 else key_code p)) (mk_key (if key_code p =? 0 then 1 else 0) t).
Proof.
  intros Hd Hs Hu. destruct (run_scan p k Hd Hs Hu) as (t & Ht & E). exists (t + 10)%nat. split; [lia|].
  unfold key_round. run_step E. done.
Qed.

Lemma run_key_rounds_idle p n k :
  digital p -> steady p (now k) -> key_up k = 0 -> key_code p <> 0 ->
  exists t, (now k <= t)%nat /\ key_rounds pins n k = Ok (replicate n 4) (mk_key 0 t).
Proof.
  intros Hd. revert k. induction n as [|n IH]; intros k Hs Hu Hc.
  { destruct k as [u t]. simpl in Hu. subst u. by exists t. }
  destruct (run_key_round p k Hd Hs (or_introl Hu)) as (t & Ht & E). rewrite Hu, (proj2 (Z.eqb_neq _ _) Hc) in E.
  destruct (IH (mk_key 0 t)) as (t' & Ht' & E'); [by eapply steady_later|done|done|]. cbn in Ht'.
  exists t'. split; [lia|]. cbn [key_rounds]. run_step E. run_step E'. done.
Qed.
End key_proofs.

(** A key that is pressed and held, whatever other keys are held with it, is
    reported exactly once, the one of the highest priority: the key thread
    selects its mode in the first round and falls back to mode 4 in all later
    rounds, however long the key is held. *)
Theorem held_key_acts_once pins p n k :
  digital p -> steady pins p (now k) -> key_up k = 1 -> key_code p <> 0 ->
  exists k', key_rounds pins (S n) k = Ok (key_mode (key_code p) :: replicate n 4) k' /\ key_up k' = 0.
Proof.
  intros Hd Hs Hu Hc. destruct (run_key_round pins p k Hd Hs (or_intror Hu)) as (t & Ht & E).
  rewrite Hu, (proj2 (Z.eqb_neq _ _) Hc) in E. cbn in E.
  destruct (run_key_rounds_idle pins p n (mk_key 0 t) Hd) as (t' & _ & E'); [by eapply steady_later|done|done|].
  exists (mk_key 0 t'). split; [|done]. cbn [key_rounds]. run_step E. run_step E'. done.
Qed.

(** Once all keys are released the next press is reported again. *)
Theorem released_key_rearms pins p k :
  digital p -> steady pins p (now k) -> key_up k = 0 \/ key_up k = 1 -> key_code p = 0 ->
  exists k', key_round pins k = Ok 4 k' /\ key_up k' = 1.
Proof.
  intros Hd Hs Hu Hc. destruct (run_key_round pins p k Hd Hs Hu) as (t & _ & E). rewrite Hc in E.
  eexists. split; [rewrite E; by destruct (key_up k =? 0)|done].
Qed.

(** ** Witnesses *)

Definition demo_screw : screw := mk_screw 0 0 0 4 (-500) 0 0 0 (mk_can [] 0 0).

Lemma demo_screw_inv : pid_inv demo_screw.
Proof. unfold pid_inv, is_s16. cbn. lia. Qed.

(** Both readings satisfy the contract. *)
Lemma reads_unsigned v : is_s16 v -> reading v (u16 v).
Proof. intros _. right. reflexivity. Qed.
Lemma reads_signed v : is_s16 v -> reading v ((fun x => x) v).
Proof. intros _. left. reflexivity. Qed.

Lemma pid_round_correct_witness :
  exists s' m e, pid_round (fun x => x) (fun _ => true) 3 65535 demo_screw = Ok tt s' /\ e = -504 /\
    can_sent (can s') = [m] /\ decode m = Some (0, 1, CurrentVelocity 6000 (-1800)).
Proof.
  destruct (pid_round_correct (fun x => x) reads_signed (fun _ => true) 3 65535 demo_screw demo_screw_inv)
    as (s' & m & e & E & _ & He & Hm & Hsh & _ & Es & Hd).
  assert (e = -504) as Ee.
  { destruct Hsh as [_ ->]; [right; simpl; lia|vm_compute; reflexivity]. }
  exists s', m, e. split; [exact E|]. split; [exact Ee|]. split; [exact Es|]. rewrite Ee in Hd. exact Hd.
Defined.

Lemma pid_commands_safe_witness :
  exists s', pid_run u16 [Round (fun _ => true) 100 0; Target 360; Round (fun _ => false) 4000 17] demo_screw = Ok tt s' /\
    Forall safe_command (can_sent (can s')) /\ -2048 <= SeqIntErrBack s' <= 2048.
Proof.
  destruct (pid_commands_safe u16 reads_unsigned [Round (fun _ => true) 100 0; Target 360; Round (fun _ => false) 4000 17] demo_screw)
    as (s' & E & _ & H & Hb).
  - exact demo_screw_inv.
  - repeat constructor; unfold is_s16; lia.
  - constructor.
  - exists s'. split; [exact E|]. split; [exact H|]. apply Hb; [reflexivity|simpl; lia].
Defined.

Lemma pid_drives_to_target_witness :
  exists s' m v, pid_round u16 (fun _ => true) 100 0 (set_errors 0 (-100) (set_desire 0 demo_screw)) = Ok tt s' /\
    can_sent (can s') = [m] /\ decode m = Some (0, 1, CurrentVelocity 6000 v) /\ Z.sgn v = -1.
Proof.
  destruct (pid_drives_to_target u16 reads_unsigned (fun _ => true) 100 0 (set_errors 0 (-100) (set_desire 0 demo_screw)))
    as (s' & m & v & E & Es & Hd & Hv & _).
  - unfold pid_inv, is_s16. cbn. lia.
  - cbn. lia.
  - vm_compute. reflexivity.
  - exists s', m, v. split; [exact E|]. split; [exact Es|]. split; [exact Hd|exact Hv].
Defined.

Lemma held_key_acts_once_witness :
  exists k', key_rounds (fun _ => mk_pins 1 0 1 1) 4 (mk_key 1 0) = Ok [2; 4; 4; 4] k' /\ key_up k' = 0.
Proof.
  apply (held_key_acts_once (fun _ => mk_pins 1 0 1 1) (mk_pins 1 0 1 1) 3 (mk_key 1 0)).
  - unfold digital. cbn. lia.
  - intros n _. reflexivity.
  - reflexivity.
  - vm_compute. discriminate.
Defined.

Lemma released_key_rearms_witness :
  exists k', key_round (fun _ => mk_pins 1 1 1 0) (mk_key 0 0) = Ok 4 k' /\ key_up k' = 1.
Proof.
  apply (released_key_rearms (fun _ => mk_pins 1 1 1 0) (mk_pins 1 1 1 0) (mk_key 0 0)).
  - unfold digital. cbn. lia.
  - intros n _. reflexivity.
  - left. reflexivity.
  - vm_compute. reflexivity.
Defined.
